(* ===== verification/_CoqProject ===== *)
-Q . S2P
Prelude.v
KService.v
Bytes.v
SmallMem.v
RtList.v
RingBuffer.v
SList.v
RingBlk.v
Timer.v
Sched.v
SchedInv.v
ThreadOps.v
Ipc.v
Sem.v
Clock.v
Mutex.v
Event.v
Mailbox.v
MsgQueue.v
IpcClose.v
ModbusCrc.v
ModbusRtu.v
ModbusFunc.v
ModbusSlave.v
Sensors.v
Calib.v
AutoAddr.v
MemPool.v
KString.v
KPrintf.v
MemAlign.v
Objects.v
Devices.v
I2cBits.v
I2cCore.v
Idle.v
App.v
Completion.v
DataQueue.v
WaitQueue.v
WorkQueue.v
Serial.v
ModbusLink.v
Msh.v
Shell.v
Terminal.v
ShellInput.v
