(* ===== verification/Prelude.v ===== *)
(** * RT-Thread kernel and sensor firmware of the stm32f051_tmp_wl board

    The repository is the RT-Thread 4.0.1 real-time kernel with one board
    support package, a Modbus temperature and water-level sensor on a
    Cortex-M0.  This library models the kernel in the configuration of
    [bsp/stm32/stm32f051_tmp_wl/rtconfig.h] (one processor, 32 priorities, 4-byte
    alignment, 1000 ticks per second, hard timers in a single list, the
    small-memory heap, all IPC objects, assertions enabled, no signals) and the
    firmware that runs on it: the Modbus RTU slave, the two sensor drivers, the
    calibration in flash and the automatic addressing of boards in a string.

    ** How the program is put together

    Threads live in exactly one of the kernel's intrusive lists: a ready queue
    per priority, the wait list of an IPC object, or the list of closed threads.
    [rt_schedule] picks the head of the best ready queue with a bitmap and a
    find-first-set.  A blocking IPC call unlinks the caller, queues it on the
    object, arms the timer embedded in the thread and reschedules; it is woken
    by the matching call of another thread or by its timer.  The tick interrupt
    advances the clock, makes the running thread yield when its slice is over
    and runs the timers that are due, whose callbacks wake threads.  Objects,
    stacks and message pools come from the heap; drivers move bytes through ring
    buffers.  Kernel objects are entered by name into a registry, in which the
    device layer finds devices and calls the functions of their drivers; the
    sensors are reached over an I2C bus whose wires a driver sets bit by bit.  When
    nothing else is ready, the idle thread frees the threads that have ended.  A
    shell thread reads characters from the console's serial device, edits a command
    line with them and runs the commands that components export.

    The addressing thread obtains the board's address from its upper neighbour
    over two wires.  The Modbus thread then starts the slave under that address,
    loads the calibration from flash into the holding registers and polls: bytes
    arrive by interrupt and pass through the FIFO of the serial device, a timer of 3.5 characters closes a frame, the events it
    posts make the next polls check and execute the request and send the reply.
    Between polls the thread measures and refreshes the registers; a write to
    the calibration registers is stored in flash.

    ** Files

    - [Prelude]: integers of fixed width, byte buffers, circular arrays, error
      numbers, tactics and the hint databases [rtt] and [rtt_rw].
    - [KService] (src/kservice.c): [__rt_ffs].
    - [Bytes]: byte-addressed memory with little-endian loads and stores.
    - [SmallMem] (src/mem.c): [rt_malloc], [rt_free], [rt_realloc], [rt_calloc]
      on real headers in byte memory; abstractly a list of blocks.
    - [RtList] (include/rtservice.h): the pointer operations [rt_list_*], and the
      store of sequences they implement.
    - [RingBuffer] (components/drivers/src/ringbuffer.c).
    - [Timer] (src/timer.c, src/clock.c): the timer list in expiry order modulo
      2^32.
    - [Sched] (src/scheduler.c, src/thread.c): the kernel state and all
      scheduler and thread operations; [SchedInv]: the kernel invariant and the
      scheduler; [ThreadOps]: the thread operations, reachable states.
    - [Ipc] (src/ipc.c, first part): wait lists, and the class [IpcObject], the
      contract between the kernel and an IPC object; [Sem], [Mutex], [Event],
      [Mailbox], [MsgQueue]: one file per kind of object, each an instance;
      [IpcClose]: detaching, deleting and resetting them.
    - [Clock] (src/timer.c, src/clock.c, src/irq.c, drv_common.c): timer expiry
      and the tick interrupt; application callbacks are a parameter that has to
      satisfy the class [TimerCallbacks].
    - [MemPool] (src/mempool.c): blocks linked in byte memory, with a wait list;
      another instance of [IpcObject].
    - [ModbusCrc], [ModbusRtu], [ModbusFunc], [ModbusSlave]
      (components/net/freemodbus): the checksum, the framing state machines and
      their ports, the function handlers with the register callback, and the
      protocol stack with its event loop.
    - [Sensors] (drv_tmp117.c, drv_ms5837.c): register access over a bus that is
      a parameter, and the compensation arithmetic at machine width.
    - [Calib] (drv_flash.c, bit_op.c, sys_conf.h, user_mb_app.c): the flash page
      over the class [FlashHal] of the vendor's functions and its laws
      [FlashLaws], and the contents of the holding registers.
    - [AutoAddr] (drv_autoaddr.c): the addressing state machine and the wires
      between two boards.
    - [KString], [KPrintf], [MemAlign] (src/kservice.c): memory and string
      functions on byte memory, formatted output over a sink that is the bounded
      buffer or the unbounded text, and aligned allocation on top of [SmallMem].
    - [Objects] (src/object.c): the registry of kernel objects by class and name;
      [Devices] (src/device.c, console part of src/kservice.c): the device layer on
      top of it, over the class [DeviceOps] of a driver's functions; [DriverLaws]
      is what it expects of them.
    - [Idle] (src/idle.c, src/components.c): the idle thread, and start-up from reset
      to the first scheduled thread.
    - [App] (bsp/stm32/stm32f051_tmp_wl/applications/main.c): the main thread, which
      creates the application's threads, and the timing of LED and watchdog.
    - [Completion], [DataQueue] (components/drivers/src): completions and data
      queues, further instances of [IpcObject]; [SList] (include/rtservice.h): the
      pointer operations [rt_slist_*], and [RingBlk] (ringblk_buf.c): ring buffers of
      blocks of any size.
    - [WaitQueue] (components/drivers/src/waitqueue.c): wait queues, whose sleeping
      threads are on no list of the kernel; [WorkQueue] (workqueue.c): work queues as
      a list of works and a worker thread, cut into the steps that run with
      interrupts off.
    - [Serial] (components/drivers/serial/serial.c): serial devices over the class
      [UartOps] of a UART's functions, as an instance of [DeviceOps] and
      [DriverLaws]; [ModbusLink] (components/net/freemodbus/port/portserial.c): the
      way of a received character from the UART into the Modbus slave.
    - [I2cBits] (components/drivers/i2c/i2c-bit-ops.c, drv_soft_i2c.c): the
      bit-banged I2C master over the class [BitOps] of line functions, against a
      slave that is an automaton on the wires; [I2cCore] (i2c_core.c, i2c_dev.c): the
      lock of the bus, the transfer functions and the device functions, over the
      transfer function of a driver.
    - [Msh] (components/finsh/msh.c): splitting, looking up, executing and completing
      command lines; [Shell] (components/finsh/shell.c): the line editor with its
      history and its output as a function of one character, and the abstract
      editor it refines; [Terminal]: what a terminal shows of that output;
      [ShellInput]: the way of a character from the interrupt to the shell thread.

    ** How code becomes definitions

    State is passed explicitly: [kernel] holds the threads, the lists, the ready
    bitmap, the current thread and the timers; an IPC object is a record next to
    it, named by a number that also names its wait lists.  An operation returns
    [None] where the C code would fail an [RT_ASSERT], access an array outside
    its bounds, follow a dangling pointer or link a node twice, and otherwise
    the new state and the return value.  The
    kernel runs with interrupts off between taking and releasing them, so such a
    region is one step; where it opens up in between (message queues), the
    sections are separate definitions.  A call that blocks ends with [Blocked]
    at its [rt_schedule]; what the thread does when it runs again is a separate
    definition ([..._resume]).  Uninitialised variables that the code reads are
    arguments named [junk].

    Thread lists are kept as sequences; [RtList] justifies this by showing that
    the pointer operations refine the sequence operations wherever a node is.
    [Sched] checks the side conditions of that refinement (a node is linked at
    most once) at every link operation.

    ** What is proved

    - Faultlessness and invariants: from boot, any interleaving of legal calls
      and ticks keeps the kernel invariant and no assertion fails
      ([thread_api_safe], [system_safe]); the heap is never corrupted by
      clients that stay inside their blocks ([heap_never_corrupted]); any
      interleaving of line, timer and poll events keeps the Modbus slave's
      buffer accesses in bounds ([modbus_slave_safe]).
    - Scheduling: the highest-priority ready thread runs, round robin among
      equals.
    - Time: timers expire in order and not before they are due, across the wrap
      of the tick; after a tick nothing overdue is left.
    - IPC: for every call and branch, what it returns, which thread it wakes or
      where it queues the caller, and how the object changes: tokens of a
      semaphore and slots of a message queue are conserved, events are delivered
      as the reference definition [deliver] says, mailboxes and message queues
      are FIFO.
    - Heap and pools: exactly one block is allocated or released, other blocks
      keep their bytes, freeing undoes allocating; blocks of a pool are never
      handed out twice.
    - Ring buffers: over any sequence of calls the byte ring buffer is a bounded
      queue, and the live blocks of a block ring buffer lie in it and do not overlap.
    - Modbus: the table-driven checksum is the bit-serial one, frames survive
      the line, the handlers refine the protocol specification [slave_reply],
      and a request is answered by exactly the specified reply.
    - Sensors: the fixed-width arithmetic is exact for every reading; the
      bit-banged master performs on the wires exactly the byte transaction asked
      for, ends whatever the lines do, and so reads the registers of the sensor; one
      thread at a time uses the bus.
    - Devices: the registry finds what was registered last under a name, users are
      counted, a serial device is a queue between its interrupt and its reader, and
      a frame that arrives at the UART comes out of the Modbus receiver.
    - Shell: the editor refines a line with a cursor and a bounded history, the
      terminal always shows that line, a written command line is split into the
      words it was written from, completion finds the longest common beginning, and
      the shell never sleeps while characters wait.
    - Life cycle: start-up ends with the main thread running in a well-formed
      kernel; main starts the two application threads, which take over in the
      intended order; the watchdog is refreshed in time; the idle thread frees the
      ended threads in order.
    - Deferred work: over any interleaving of submissions, cancellations and steps of
      the worker a work queue is what its history says; a wake-up of a wait queue is
      not lost and wakes the longest waiter.
    - Service library: the word loops of the memory functions are the byte
      loops, the string functions meet their specifications, formatted output
      stays in its buffer and is a prefix of the reference text [format_text],
      decimal numbers read back, aligned blocks lie inside their allocation.
    - Calibration and addressing: a stored calibration survives a restart; a
      string of boards ends with consecutive addresses, which never change.

    Some theorems pin down behaviour that looks unintended:
    [rt_ringbuffer_put_force_result], [restart_in_callback_unstoppable],
    [nested_mutexes_keep_raised_priority], [small_mem_limits],
    [timed_out_waiter_breaks_free], [readwrite_short_requests],
    [event_collision_loses_frame], [disable_while_transmitting],
    [remove_handler_hides_others], [second_order_uses_xor],
    [board_64_is_lost], [sync_pass_breaks_framing], [strncmp_sign],
    [strnlen_overread], [octal_is_hexadecimal], [precision_0_prints_nothing],
    [truncated_length_wrong], [size_0_is_unlimited], [rt_kprintf_output],
    [aligned_size_overflows], [bus_unlock_frees_slave], [failed_close_blocks],
    [find_unknown_class], [long_names_clash], [late_done_is_lost],
    [full_queue_overwritten], [wrap_hits_last_slot], [second_open_loses_mode],
    [slave_stays_behind], [discarded_line_runs], [old_text_joins_word],
    [tab_after_full_line], [prompt_is_format], [prompt_mode_2],
    [last_word_not_terminated], [escape_is_kept], [quoted_name_not_found],
    [empty_line_runs_rest], [alloc_exceeds_buffer], [queue_memory_reused],
    [queue_exceeds_request], [queue_slots_not_consecutive],
    [timed_out_waiter_takes_wakeup], [work_left_in_queue],
    [worker_takes_list_head], [critical_work_is_last], [long_send_is_truncated],
    [failed_transfer_results] and [no_memory_no_threads].

    ** Bounds and fuel

    Loops that walk a list recurse on it.  The others take fuel: emptying a wait
    list gets its length, [rt_timer_check] one more than the number of linked
    timers (each is handled at most once per tick, given the callback
    discipline), releasing queued messages [max_msgs], the search loops of the
    heap the heap size (every step advances by at least 12 bytes), a scan of a C
    string the size of the memory, a walk of a single-linked list the number of
    nodes, a format its length, the receive interrupt of a
    UART one more than the characters it finds, the scans of a command line the size
    of its buffer, a wait for the I2C clock line four
    polls (each sleeps for half the time-out), the idle thread the number of defunct
    threads, the loop that ends a work two more than the threads that wait for it.  The theorems show that each of these is enough.  Time-outs are below [RT_TICK_MAX / 2], as
    [rt_timer_start] asserts.  A Modbus frame has at most 60 bytes, an address of
    the addressing link six bits.

    ** Not modelled

    The register-level context switch, stacks, hooks and debug output; the
    link between the registry of [Objects] and the IPC objects (creating an object
    takes the allocated object as an argument there); signals, SMP and soft timers,
    and the Modbus functions, modes and master that the configuration disables;
    interrupt and DMA transmission of serial devices, which no driver of the board
    offers; the commands of the shell and its expression interpreter, which the
    configuration leaves out; the registration of I2C buses as devices, the creation
    of work queues on the heap, and pipes, which need a layer that is not configured;
    the device drivers, network stacks and file systems that the board does not
    build, and vendor libraries. *)

From stdpp Require Export prelude list gmap.
From Stdlib Require Export ZArith Lia.

#[export] Set Default Goal Selector "!".
#[global] Open Scope Z_scope.

(** ** Machine integers

    A C integer of width [w] is a [Z] kept in range by an explicit wrap at the
    places where the C code stores into (or computes at) that width. *)

Definition wrapu (w x : Z) : Z := x mod 2 ^ w.
Definition wraps (w x : Z) : Z := (x + 2 ^ (w - 1)) mod 2 ^ w - 2 ^ (w - 1).

Abbreviation u8 := (wrapu 8).
Abbreviation u15 := (wrapu 15).
Abbreviation u16 := (wrapu 16).
Abbreviation u32 := (wrapu 32).
Abbreviation i16 := (wraps 16).
Abbreviation i32 := (wraps 32).
Abbreviation i64 := (wraps 64).

(** [rtdef.h]: error numbers; functions return them negated. *)
Definition RT_EOK : Z := 0.
Definition RT_ERROR : Z := 1.
Definition RT_ETIMEOUT : Z := 2.
Definition RT_EFULL : Z := 3.
Definition RT_EEMPTY : Z := 4.
Definition RT_EBUSY : Z := 7.
Definition RT_ENOMEM : Z := 5.
Definition RT_EINTR : Z := 9.

Definition RT_TICK_MAX : Z := 0xffffffff.
Definition RT_ALIGN_SIZE : Z := 4.

(** [rtdef.h]: [RT_ALIGN] and [RT_ALIGN_DOWN] at the 32-bit width of
    [rt_size_t] and [rt_ubase_t] on the Cortex-M0. *)
Definition RT_ALIGN (size align : Z) : Z :=
  Z.land (u32 (size + align - 1)) (u32 (Z.lnot (align - 1))).
Definition RT_ALIGN_DOWN (size align : Z) : Z :=
  Z.land size (u32 (Z.lnot (align - 1))).

(** [RT_ASSERT]: a failed assertion is a fault. *)
Definition RT_ASSERT (b : bool) : option unit := if b then Some tt else None.

(** ** Tactics *)

(** [lia] after turning [/] and [mod] into their defining equations. *)
Ltac zlia := Zify.zify; Z.to_euclidean_division_equations; lia.

(** Case analysis on the boolean tests of a goal, keeping what each says. *)
Ltac case_bool :=
  match goal with
  | |- context [?a <? ?b] => destruct (Z.ltb_spec a b)
  | |- context [?a <=? ?b] => destruct (Z.leb_spec a b)
  | |- context [?a =? ?b] => destruct (Z.eqb_spec a b)
  | |- context [?a >? ?b] => rewrite (Z.gtb_ltb a b)
  | |- context [?a >=? ?b] => rewrite (Z.geb_leb a b)
  end.

Ltac case_bool_in H :=
  match type of H with
  | context [?a <? ?b] => destruct (Z.ltb_spec a b)
  | context [?a <=? ?b] => destruct (Z.leb_spec a b)
  | context [?a =? ?b] => destruct (Z.eqb_spec a b)
  | context [?a >? ?b] => rewrite (Z.gtb_ltb a b) in H
  | context [?a >=? ?b] => rewrite (Z.geb_leb a b) in H
  end.

(** A decidable proposition without variables. *)
Ltac by_computation :=
  match goal with |- ?P => apply (bool_decide_unpack P) end; vm_compute; exact I.

(** ** Wrap-around lemmas *)

Lemma wrapu_small w x : 0 <= x < 2 ^ w -> wrapu w x = x.
Proof. intros. by apply Z.mod_small. Qed.

Lemma wrapu_range w x : 0 <= w -> 0 <= wrapu w x < 2 ^ w.
Proof. intros. apply Z.mod_pos_bound. by apply Z.pow_pos_nonneg. Qed.

Lemma wraps_small w x :
  0 < w -> - 2 ^ (w - 1) <= x < 2 ^ (w - 1) -> wraps w x = x.
Proof.
  intros Hw Hx. unfold wraps.
  assert (2 ^ w = 2 * 2 ^ (w - 1)) as E.
  { rewrite <- Z.pow_succ_r by lia. f_equal; lia. }
  rewrite Z.mod_small; lia.
Qed.

Lemma wrapu_wrapu w x : 0 <= w -> wrapu w (wrapu w x) = wrapu w x.
Proof. intros. apply wrapu_small. by apply wrapu_range. Qed.

(** A wrap changes a number by a multiple of the modulus. *)
Lemma wrapu_cong w x : 0 <= w -> exists k, wrapu w x = x + k * 2 ^ w.
Proof.
  intros Hw. exists (- (x / 2 ^ w)). unfold wrapu.
  pose proof (Z.pow_pos_nonneg 2 w ltac:(lia) Hw).
  rewrite Z.mod_eq by lia. lia.
Qed.

Lemma wraps_cong w x : 0 <= w -> exists k, wraps w x = x + k * 2 ^ w.
Proof.
  intros Hw. destruct (wrapu_cong w (x + 2 ^ (w - 1)) Hw) as [k Hk].
  exists k. unfold wraps, wrapu in *. lia.
Qed.

Lemma wrapu_add_mul w x k : wrapu w (x + k * 2 ^ w) = wrapu w x.
Proof. apply Z_mod_plus_full. Qed.

Lemma wraps_range w x : 0 < w -> - 2 ^ (w - 1) <= wraps w x < 2 ^ (w - 1).
Proof.
  intros Hw. unfold wraps.
  assert (2 ^ w = 2 * 2 ^ (w - 1)) as E.
  { rewrite <- Z.pow_succ_r by lia. f_equal; lia. }
  pose proof (Z.pow_pos_nonneg 2 (w - 1) ltac:(lia) ltac:(lia)).
  pose proof (Z.mod_pos_bound (x + 2 ^ (w - 1)) (2 ^ w) ltac:(lia)). lia.
Qed.

Create HintDb rtt.
Create Rewrite HintDb rtt_rw.
#[export] Hint Rewrite wrapu_small using lia : rtt_rw.

(** ** Bit masks *)

Lemma RT_ALIGN_DOWN_4 x : 0 <= x < 2 ^ 32 -> RT_ALIGN_DOWN x 4 = x / 4 * 4.
Proof.
  intros Hx. unfold RT_ALIGN_DOWN.
  change (u32 (Z.lnot (4 - 1))) with (Z.ldiff (Z.ones 32) (Z.ones 2)).
  transitivity (Z.ldiff x (Z.ones 2)).
  - apply Z.bits_inj'. intros n Hn.
    rewrite Z.land_spec, !Z.ldiff_spec.
    destruct (decide (n < 32)).
    + rewrite (Z.ones_spec_low 32) by lia. by destruct (Z.testbit x n).
    + rewrite (Z.ones_spec_high 32) by lia.
      rewrite <- (Z.mod_small x (2 ^ 32)) by lia.
      rewrite Z.mod_pow2_bits_high by lia. done.
  - rewrite Z.ldiff_ones_r by lia. rewrite Z.shiftr_div_pow2, Z.shiftl_mul_pow2 by lia.
    done.
Qed.

Lemma RT_ALIGN_4 x : 0 <= x <= 2 ^ 32 - 4 -> RT_ALIGN x 4 = (x + 3) / 4 * 4.
Proof.
  intros Hx. unfold RT_ALIGN. rewrite wrapu_small by lia.
  replace (x + 4 - 1) with (x + 3) by lia.
  apply RT_ALIGN_DOWN_4. lia.
Qed.

(** ** Byte buffers

    A buffer is a list of byte values; [zget] reads it and [memcpy] copies
    [n] bytes of [src] over [dst] from offset [off]. *)

Definition zget (l : list Z) (i : Z) : Z := nth (Z.to_nat i) l 0.

Definition memcpy (dst : list Z) (off : Z) (src : list Z) (n : Z) : list Z :=
  list_inserts (Z.to_nat off) (take (Z.to_nat n) src) dst.

Definition zlen {A} (l : list A) : Z := Z.of_nat (length l).

Definition zset (l : list Z) (i x : Z) : list Z := <[Z.to_nat i := x]> l.

Lemma length_memcpy dst off src n : length (memcpy dst off src n) = length dst.
Proof. apply length_inserts. Qed.

Lemma zlen_memcpy dst off src n : zlen (memcpy dst off src n) = zlen dst.
Proof. unfold zlen. by rewrite length_memcpy. Qed.

Lemma zlen_zset l i x : zlen (zset l i x) = zlen l.
Proof. unfold zlen, zset. by rewrite length_insert. Qed.

Lemma zlen_nonneg {A} (l : list A) : 0 <= zlen l.
Proof. unfold zlen. lia. Qed.

Lemma zlen_app {A} (l k : list A) : zlen (l ++ k) = zlen l + zlen k.
Proof. unfold zlen. rewrite length_app. lia. Qed.

Lemma zlen_snoc (l : list Z) (c : Z) : zlen (l ++ [c]) = zlen l + 1.
Proof. by rewrite zlen_app. Qed.

Lemma zlen_take {A} (l : list A) n :
  0 <= n -> zlen (take (Z.to_nat n) l) = Z.min n (zlen l).
Proof. unfold zlen. rewrite length_take. lia. Qed.

Lemma nth_lookup_default (l : list Z) i : nth i l 0 = default 0 (l !! i).
Proof. by rewrite nth_lookup. Qed.

Lemma zget_memcpy dst off src n i :
  0 <= off -> 0 <= n <= zlen src -> off + n <= zlen dst -> 0 <= i ->
  zget (memcpy dst off src n) i =
  if (off <=? i) && (i <? off + n) then zget src (i - off) else zget dst i.
Proof.
  intros Hoff Hn Hdst Hi. unfold zget, memcpy, zlen in *.
  rewrite !nth_lookup_default.
  assert (length (take (Z.to_nat n) src) = Z.to_nat n) as Hl
    by (rewrite length_take; lia).
  case_bool; case_bool; simpl.
  - rewrite list_lookup_inserts by lia. rewrite lookup_take_lt by lia.
    do 2 f_equal. lia.
  - by rewrite list_lookup_inserts_lt by lia.
  - by rewrite list_lookup_inserts_ge by lia.
  - lia.
Qed.

Lemma zget_zset l i x j :
  0 <= i < zlen l -> 0 <= j -> zget (zset l i x) j = if i =? j then x else zget l j.
Proof.
  intros Hi Hj. unfold zget, zset, zlen in *. rewrite !nth_lookup_default.
  case_bool.
  - subst. by rewrite list_lookup_insert_eq by lia.
  - by rewrite list_lookup_insert_ne by lia.
Qed.

Lemma Forall_zget (Q : Z -> Prop) l i : Forall Q l -> Q 0 -> Q (zget l i).
Proof.
  intros Hl H0. unfold zget. rewrite nth_lookup_default.
  destruct (l !! Z.to_nat i) as [x|] eqn:E; [|done]. exact (Forall_lookup_1 _ _ _ _ Hl E).
Qed.

Lemma zget_app l k i :
  0 <= i -> zget (l ++ k) i = if i <? zlen l then zget l i else zget k (i - zlen l).
Proof.
  intros Hi. unfold zget, zlen. rewrite !nth_lookup_default. case_bool.
  - by rewrite lookup_app_l by lia.
  - rewrite lookup_app_r by lia. do 2 f_equal. lia.
Qed.

Lemma zget_take l n i : 0 <= i < n -> zget (take (Z.to_nat n) l) i = zget l i.
Proof.
  intros Hi. unfold zget. rewrite !nth_lookup_default.
  by rewrite lookup_take_lt by lia.
Qed.

Lemma zget_drop l n i :
  0 <= i -> 0 <= n -> zget (drop (Z.to_nat n) l) i = zget l (n + i).
Proof.
  intros Hi Hn. unfold zget. rewrite !nth_lookup_default, lookup_drop.
  do 2 f_equal. lia.
Qed.

Lemma zlen_drop {A} (l : list A) n :
  0 <= n -> zlen (drop (Z.to_nat n) l) = Z.max 0 (zlen l - n).
Proof. unfold zlen. rewrite length_drop. lia. Qed.

(** Two buffers of the same length with the same bytes are equal. *)
Lemma zlist_eq (l k : list Z) :
  zlen l = zlen k -> (forall i, 0 <= i < zlen l -> zget l i = zget k i) -> l = k.
Proof.
  intros Hlen Hget. apply (nth_ext _ _ 0 0).
  - unfold zlen in Hlen. lia.
  - intros n Hn. specialize (Hget (Z.of_nat n)). unfold zget, zlen in Hget.
    rewrite Nat2Z.id in Hget. apply Hget. lia.
Qed.

(** Array accesses that check the bounds. *)
Definition aget (l : list Z) (i : Z) : option Z :=
  if 0 <=? i then l !! Z.to_nat i else None.
Definition aset (l : list Z) (i x : Z) : option (list Z) :=
  if (0 <=? i) && (i <? zlen l) then Some (zset l i x) else None.

Lemma aget_ok l i : 0 <= i < zlen l -> aget l i = Some (zget l i).
Proof.
  intros Hi. unfold aget, zget. case_bool; [|lia]. rewrite nth_lookup_default.
  destruct (lookup_lt_is_Some_2 l (Z.to_nat i)) as [x ->]; [unfold zlen in Hi; lia|done].
Qed.

Lemma aset_ok l i x : 0 <= i < zlen l -> aset l i x = Some (zset l i x).
Proof. intros Hi. unfold aset. case_bool; [|lia]. case_bool; [done|lia]. Qed.

Lemma aget_Some l i x : aget l i = Some x -> 0 <= i < zlen l /\ x = zget l i.
Proof.
  unfold aget, zget. case_bool; [|done]. intros E. rewrite nth_lookup_default, E.
  apply lookup_lt_Some in E. unfold zlen. split; [lia|done].
Qed.

Lemma aset_Some l i x l' : aset l i x = Some l' -> 0 <= i < zlen l /\ l' = zset l i x.
Proof. unfold aset. case_bool; case_bool; try done; intros [= <-]; split; [lia|done]. Qed.

Lemma aget_at a c b : aget (a ++ c :: b) (zlen a) = Some c.
Proof.
  unfold aget, zlen. destruct (Z.leb_spec 0 (Z.of_nat (length a))); [|lia]. rewrite Nat2Z.id.
  by apply list_lookup_middle.
Qed.

Lemma aset_at a c b x : aset (a ++ c :: b) (zlen a) x = Some (a ++ x :: b).
Proof.
  rewrite aset_ok by (rewrite zlen_app; unfold zlen; cbn [length]; lia). unfold zset, zlen. rewrite Nat2Z.id.
  f_equal. rewrite insert_app_r_alt by lia. by rewrite Nat.sub_diag.
Qed.

#[export] Hint Rewrite @zlen_app @zlen_memcpy @zlen_zset : rtt_rw.
#[export] Hint Resolve zlen_nonneg : rtt.

(** ** Lists *)

Lemma Forall_filter_sub {A} (P Q : A -> Prop) `{!forall x, Decision (Q x)} (l : list A) :
  Forall P l -> Forall P (filter Q l).
Proof.
  rewrite !Forall_forall. intros HP x [_ Hx]%list_elem_of_filter. by apply HP.
Qed.

(** ** Circular arrays

    The [n] elements of [l], read as a ring of [size] slots, from slot [out]. *)
Definition ring (l : list Z) (size out n : Z) : list Z :=
  (fun i => zget l ((out + Z.of_nat i) mod size)) <$> seq 0 (Z.to_nat n).

Lemma zlen_ring l size out n : 0 <= n -> zlen (ring l size out n) = n.
Proof. intros Hn. unfold ring, zlen. rewrite length_fmap, length_seq. lia. Qed.

Lemma ring_push l size out n v :
  0 <= n < size -> zlen l = size ->
  ring (zset l ((out + n) mod size) v) size out (n + 1) = ring l size out n ++ [v].
Proof.
  intros Hn Hl. pose proof (Z.mod_pos_bound (out + n) size ltac:(lia)) as Hb. unfold ring.
  replace (Z.to_nat (n + 1)) with (Z.to_nat n + 1)%nat by lia.
  rewrite seq_app, fmap_app. f_equal.
  - apply list_fmap_ext. intros j x Hx. apply lookup_seq in Hx as [-> Hj].
    pose proof (Z.mod_pos_bound (out + Z.of_nat (0 + j)) size ltac:(lia)) as Hb2.
    rewrite zget_zset by lia. destruct (Z.eqb_spec ((out + n) mod size)
      ((out + Z.of_nat (0 + j)) mod size)) as [E|]; [|done]. exfalso.
    assert ((n - Z.of_nat j) mod size = 0) as E0.
    { replace (n - Z.of_nat j) with (out + n - (out + Z.of_nat (0 + j))) by lia.
      rewrite Zminus_mod, E, Z.sub_diag. by apply Z.mod_0_l; lia. }
    rewrite Z.mod_small in E0 by lia. lia.
  - simpl. rewrite Z2Nat.id by lia. rewrite zget_zset by lia. by rewrite Z.eqb_refl.
Qed.

(** Advancing an index by one with a comparison. *)
Lemma advance_mod i n : 0 <= i < n -> (if n <=? i + 1 then 0 else i + 1) = (i + 1) mod n.
Proof.
  intros Hi. case_bool.
  - replace (i + 1) with n by lia. by rewrite Z.mod_same by lia.
  - rewrite Z.mod_small; lia.
Qed.

Lemma ring_pop l size out n :
  0 <= out < size -> 0 < n ->
  ring l size out n = zget l out :: ring l size ((out + 1) mod size) (n - 1).
Proof.
  intros Ho Hn. unfold ring. replace (Z.to_nat n) with (S (Z.to_nat (n - 1))) by lia.
  cbn [seq fmap list_fmap]. f_equal.
  - rewrite Z.add_0_r. by rewrite Z.mod_small.
  - rewrite <- fmap_S_seq, <- list_fmap_compose. apply list_fmap_ext. intros j x _.
    unfold compose. rewrite Zplus_mod_idemp_l. do 2 f_equal. lia.
Qed.
