(* ===== verification/KService.v ===== *)
(** * Kernel service routines

    Models the find-first-set of [src/kservice.c], which the scheduler uses to
    pick the highest ready priority. *)

From S2P Require Import Prelude.

Module KService.

(** ** Find first set *)

(** The 256-entry table; row [b] repeats the low nibble pattern and starts with
    the position of the lowest bit of the high nibble. *)
Definition lowest_bit_row (first : Z) : list Z :=
  [first; 0; 1; 0; 2; 0; 1; 0; 3; 0; 1; 0; 2; 0; 1; 0].

Definition __lowest_bit_bitmap : list Z :=
  lowest_bit_row 0 ++ lowest_bit_row 4 ++ lowest_bit_row 5 ++ lowest_bit_row 4 ++
  lowest_bit_row 6 ++ lowest_bit_row 4 ++ lowest_bit_row 5 ++ lowest_bit_row 4 ++
  lowest_bit_row 7 ++ lowest_bit_row 4 ++ lowest_bit_row 5 ++ lowest_bit_row 4 ++
  lowest_bit_row 6 ++ lowest_bit_row 4 ++ lowest_bit_row 5 ++ lowest_bit_row 4.

(** [value] is a C [int]; the masks act on its two's-complement bits. *)
Definition __rt_ffs (value : Z) : Z :=
  if value =? 0 then 0
  else if negb (Z.land value 0xff =? 0) then
    zget __lowest_bit_bitmap (Z.land value 0xff) + 1
  else if negb (Z.land value 0xff00 =? 0) then
    zget __lowest_bit_bitmap (Z.shiftr (Z.land value 0xff00) 8) + 9
  else if negb (Z.land value 0xff0000 =? 0) then
    zget __lowest_bit_bitmap (Z.shiftr (Z.land value 0xff0000) 16) + 17
  else
    zget __lowest_bit_bitmap (Z.shiftr (Z.land value 0xff000000) 24) + 25.

(** [j] is the position of the lowest set bit of [v]. *)
Definition lowest_set (v j : Z) : Prop :=
  Z.testbit v j = true /\ forall i, 0 <= i < j -> Z.testbit v i = false.

(** The table is right for every byte (checked by evaluation). *)
Lemma table_ok b :
  0 < b < 256 ->
  let j := zget __lowest_bit_bitmap b in 0 <= j < 8 /\ lowest_set b j.
Proof.
  set (ok := fun b => let j := zget __lowest_bit_bitmap b in
    (0 <=? j) && (j <? 8) && Z.testbit b j &&
    forallb (fun i => (j <=? i) || negb (Z.testbit b i)) [0;1;2;3;4;5;6;7]).
  assert (forallb ok (Z.of_nat <$> seq 1 255) = true) as Hall by (vm_compute; done).
  rewrite forallb_forall in Hall. intros Hb.
  assert (ok b = true) as Hok.
  { apply Hall, list_elem_of_In, list_elem_of_fmap. exists (Z.to_nat b).
    split; [lia|]. apply elem_of_seq. lia. }
  unfold ok in Hok. cbv zeta in *. rewrite !andb_true_iff in Hok.
  destruct Hok as [[[H0 H8] Ht] Hf]. split; [lia|]. split; [done|].
  intros i Hi. rewrite forallb_forall in Hf.
  assert (In i [0;1;2;3;4;5;6;7]) as Hin by (simpl; lia).
  specialize (Hf i Hin). destruct (Z.testbit b i); [|done].
  rewrite orb_false_r in Hf. lia.
Qed.

(** The byte of [v] at bit [k]. *)
Definition byte_at (v k : Z) : Z := Z.shiftr (Z.land v (Z.shiftl 0xff k)) k.

Lemma byte_at_testbit v k i :
  0 <= k -> 0 <= i -> Z.testbit (byte_at v k) i = Z.testbit v (i + k) && (i <? 8).
Proof.
  intros Hk Hi. unfold byte_at.
  rewrite Z.shiftr_spec, Z.land_spec, Z.shiftl_spec by lia.
  replace (i + k - k) with i by lia. f_equal.
  change 0xff with (Z.ones 8). case_bool.
  - by rewrite Z.ones_spec_low by lia.
  - by rewrite Z.ones_spec_high by lia.
Qed.

Lemma byte_at_range v k : 0 <= k -> 0 <= byte_at v k < 256.
Proof.
  intros Hk. assert (byte_at v k = byte_at v k mod 2 ^ 8) as ->;
    [|apply Z.mod_pos_bound; lia].
  symmetry. rewrite <- Z.land_ones by lia. apply Z.bits_inj'. intros i Hi.
  rewrite Z.land_spec, byte_at_testbit by lia.
  rewrite Z.testbit_ones_nonneg by lia. case_bool; by rewrite ?andb_true_r, ?andb_false_r.
Qed.

Lemma masked_zero v k :
  0 <= k -> (Z.land v (Z.shiftl 0xff k) =? 0) = (byte_at v k =? 0).
Proof.
  intros Hk. apply eq_true_iff_eq. rewrite !Z.eqb_eq. unfold byte_at. split.
  - intros ->. apply Z.shiftr_0_l.
  - intros H0. apply Z.bits_inj'. intros i Hi. rewrite Z.bits_0, Z.land_spec.
    rewrite Z.shiftl_spec by lia. destruct (decide (i < k)).
    + by rewrite (Z.testbit_neg_r _ (i - k)), andb_false_r by lia.
    + apply (f_equal (fun z => Z.testbit z (i - k))) in H0.
      rewrite Z.shiftr_spec, Z.land_spec, Z.shiftl_spec, Z.bits_0 in H0 by lia.
      by replace (i - k + k) with i in H0 by lia.
Qed.

(** If the bytes below [k] are zero and the byte at [k] is not, its table entry
    locates the lowest set bit. *)
Lemma byte_lowest v k :
  0 <= k -> byte_at v k <> 0 -> (forall i, 0 <= i < k -> Z.testbit v i = false) ->
  lowest_set v (zget __lowest_bit_bitmap (byte_at v k) + k) /\
  k <= zget __lowest_bit_bitmap (byte_at v k) + k < k + 8.
Proof.
  intros Hk Hnz Hlow. pose proof (byte_at_range v k Hk).
  destruct (table_ok (byte_at v k)) as [Hj [Ht Hf]]; [lia|]. cbv zeta in *.
  split; [split|lia].
  - rewrite byte_at_testbit in Ht by lia. by apply andb_true_iff in Ht as [? _].
  - intros i Hi. destruct (decide (i < k)); [by apply Hlow; lia|].
    specialize (Hf (i - k)). rewrite byte_at_testbit in Hf by lia.
    replace (i - k + k) with i in Hf by lia.
    assert ((i - k <? 8) = true) as E by lia. rewrite E, andb_true_r in Hf.
    apply Hf. lia.
Qed.

Lemma byte_zero_low v k :
  0 <= k -> byte_at v k = 0 -> (forall i, 0 <= i < k -> Z.testbit v i = false) ->
  forall i, 0 <= i < k + 8 -> Z.testbit v i = false.
Proof.
  intros Hk H0 Hlow i Hi. destruct (decide (i < k)); [by apply Hlow; lia|].
  pose proof (byte_at_testbit v k (i - k)) as Hb. rewrite H0, Z.bits_0 in Hb.
  replace (i - k + k) with i in Hb by lia.
  assert ((i - k <? 8) = true) as E by lia. rewrite E, andb_true_r in Hb.
  symmetry. apply Hb; lia.
Qed.

Lemma ffs_unfold v :
  v <> 0 ->
  __rt_ffs v =
  if byte_at v 0 =? 0 then
    if byte_at v 8 =? 0 then
      if byte_at v 16 =? 0 then zget __lowest_bit_bitmap (byte_at v 24) + 25
      else zget __lowest_bit_bitmap (byte_at v 16) + 17
    else zget __lowest_bit_bitmap (byte_at v 8) + 9
  else zget __lowest_bit_bitmap (byte_at v 0) + 1.
Proof.
  intros Hv. unfold __rt_ffs. rewrite (proj2 (Z.eqb_neq v 0) Hv).
  rewrite <- !masked_zero by lia. unfold byte_at.
  change (Z.shiftl 255 0) with 0xff. change (Z.shiftl 255 8) with 0xff00.
  change (Z.shiftl 255 16) with 0xff0000. change (Z.shiftl 255 24) with 0xff000000.
  rewrite Z.shiftr_0_r.
  by destruct (Z.land v 0xff =? 0), (Z.land v 0xff00 =? 0), (Z.land v 0xff0000 =? 0).
Qed.

Lemma ffs_lowest v :
  v <> 0 -> (exists i, 0 <= i < 32 /\ Z.testbit v i = true) ->
  1 <= __rt_ffs v <= 32 /\ lowest_set v (__rt_ffs v - 1).
Proof.
  intros Hv (b & Hb & Hbt). rewrite ffs_unfold by done.
  assert (forall i, 0 <= i < 0 -> Z.testbit v i = false) as L0 by lia.
  destruct (Z.eqb_spec (byte_at v 0) 0) as [E0|E0].
  2: { destruct (byte_lowest v 0) as [H ?]; [lia|done..|].
       rewrite Z.add_0_r in H. by rewrite Z.add_simpl_r; split; [lia|]. }
  pose proof (byte_zero_low v 0 ltac:(lia) E0 L0) as L8.
  destruct (Z.eqb_spec (byte_at v 8) 0) as [E8|E8].
  2: { destruct (byte_lowest v 8) as [H ?]; [lia|done..|]. split; [lia|].
       by replace (_ + 9 - 1) with (zget __lowest_bit_bitmap (byte_at v 8) + 8) by lia. }
  pose proof (byte_zero_low v 8 ltac:(lia) E8 L8) as L16.
  destruct (Z.eqb_spec (byte_at v 16) 0) as [E16|E16].
  2: { destruct (byte_lowest v 16) as [H ?]; [lia|done..|]. split; [lia|].
       by replace (_ + 17 - 1) with (zget __lowest_bit_bitmap (byte_at v 16) + 16) by lia. }
  pose proof (byte_zero_low v 16 ltac:(lia) E16 L16) as L24.
  destruct (Z.eqb_spec (byte_at v 24) 0) as [E24|E24].
  { rewrite (byte_zero_low v 24 ltac:(lia) E24 L24 b) in Hbt by lia. done. }
  destruct (byte_lowest v 24) as [H ?]; [lia|done..|]. split; [lia|].
  by replace (_ + 25 - 1) with (zget __lowest_bit_bitmap (byte_at v 24) + 24) by lia.
Qed.

(** A 32-bit pattern and the [int] it is passed as have the same low bits. *)
Lemma testbit_i32 v i : 0 <= i < 32 -> Z.testbit (i32 v) i = Z.testbit v i.
Proof.
  intros Hi. unfold wraps.
  rewrite <- (Z.mod_pow2_bits_low ((v + 2 ^ (32 - 1)) mod 2 ^ 32 - 2 ^ (32 - 1)) 32 i) by lia.
  rewrite Zminus_mod_idemp_l.
  replace (v + 2 ^ (32 - 1) - 2 ^ (32 - 1)) with v by lia.
  by rewrite Z.mod_pow2_bits_low by lia.
Qed.

Lemma nonzero_bit v : 0 < v < 2 ^ 32 -> exists i, 0 <= i < 32 /\ Z.testbit v i = true.
Proof.
  intros Hv. exists (Z.log2 v). split.
  - split; [apply Z.log2_nonneg|]. apply Z.log2_lt_pow2; lia.
  - apply Z.bit_log2. lia.
Qed.

Lemma ffs_group group :
  0 < group < 2 ^ 32 ->
  1 <= __rt_ffs (i32 group) <= 32 /\ lowest_set group (__rt_ffs (i32 group) - 1).
Proof.
  intros Hg. destruct (nonzero_bit group Hg) as (b & Hb & Hbt).
  destruct (ffs_lowest (i32 group)) as [Hr [Ht Hf]].
  - intros E. rewrite <- testbit_i32, E, Z.bits_0 in Hbt by lia. done.
  - exists b. by rewrite testbit_i32.
  - split; [done|]. split.
    + by rewrite testbit_i32 in Ht by lia.
    + intros i Hi. specialize (Hf i Hi). by rewrite testbit_i32 in Hf by lia.
Qed.

(** __rt_ffs applied to any nonzero 32-bit ready-group pattern returns one
    plus the position of its lowest set bit. *)
Theorem rt_ffs_lowest_bit group :
  0 < group < 2 ^ 32 ->
  1 <= __rt_ffs (i32 group) <= 32 /\ lowest_set group (__rt_ffs (i32 group) - 1).
Proof. apply ffs_group. Qed.

Lemma rt_ffs_lowest_bit_witness :
  __rt_ffs (i32 0x80000000) = 32 /\ lowest_set 0x80000000 31.
Proof.
  split; [reflexivity|].
  pose proof (rt_ffs_lowest_bit 0x80000000 ltac:(lia)) as [_ H]. exact H.
Defined.

End KService.
