(* ===== verification/Bytes.v ===== *)
(** * Byte-addressed memory

    The memory the allocators hand out, as a finite map from addresses to byte
    values.  Integers are stored little-endian, as the Cortex-M0 does; an
    access to an address that is not mapped is a fault ([None]). *)

From S2P Require Import Prelude.

Module Bytes.

Definition memory := gmap Z Z.

(** ** Access *)

Fixpoint load (n : nat) (a : Z) (m : gmap Z Z) : option Z :=
  match n with
  | O => Some 0
  | S n => b ← m !! a; v ← load n (a + 1) m; Some (b + 256 * v)
  end.

Fixpoint store (n : nat) (a v : Z) (m : gmap Z Z) : option (gmap Z Z) :=
  match n with
  | O => Some m
  | S n => _ ← m !! a; store n (a + 1) (v / 256) (<[a := v mod 256]> m)
  end.

(** [rt_memset(p, v, n)] and [rt_memcpy(dst, src, n)] for areas that do not
    overlap. *)
Fixpoint memset (n : nat) (a v : Z) (m : gmap Z Z) : option (gmap Z Z) :=
  match n with
  | O => Some m
  | S n => _ ← m !! a; memset n (a + 1) v (<[a := v]> m)
  end.

Fixpoint move (n : nat) (dst src : Z) (m : gmap Z Z) : option (gmap Z Z) :=
  match n with
  | O => Some m
  | S n => b ← m !! src; _ ← m !! dst; move n (dst + 1) (src + 1) (<[dst := b]> m)
  end.

(** ** Areas *)

(** All of [lo, hi) is mapped. *)
Definition mapped (lo hi : Z) (m : gmap Z Z) : Prop := forall i, lo <= i < hi -> is_Some (m !! i).

(** Nothing is mapped or unmapped, and only [lo, hi) may have changed. *)
Definition only (lo hi : Z) (m m' : gmap Z Z) : Prop :=
  (forall i, is_Some (m !! i) -> is_Some (m' !! i)) /\
  (forall i, ~ lo <= i < hi -> m' !! i = m !! i).

Lemma only_refl lo hi m : only lo hi m m.
Proof. done. Qed.

Lemma only_weaken lo hi lo' hi' m m' :
  only lo hi m m' -> lo' <= lo -> hi <= hi' -> only lo' hi' m m'.
Proof. intros [Hd Hs] ? ?. split; [done|]. intros i Hi. apply Hs. lia. Qed.

Lemma only_trans lo hi m m1 m2 : only lo hi m m1 -> only lo hi m1 m2 -> only lo hi m m2.
Proof. intros [D1 S1] [D2 S2]. split; [eauto|]. intros i Hi. rewrite S2, S1 by done. done. Qed.

Lemma only_mapped lo hi a b m m' : only lo hi m m' -> mapped a b m -> mapped a b m'.
Proof. intros [D _] Hm i Hi. by apply D, Hm. Qed.

Lemma only_insert a lo hi v m :
  is_Some (m !! a) -> lo <= a < hi -> only lo hi m (<[a := v]> m).
Proof.
  intros Ha Hr. split.
  - intros i Hi. rewrite lookup_insert. case_decide; eauto.
  - intros i Hi. rewrite lookup_insert_ne; [done|]. lia.
Qed.

Lemma load_only lo hi n a m m' :
  only lo hi m m' -> a + Z.of_nat n <= lo \/ hi <= a -> load n a m' = load n a m.
Proof.
  intros [_ Hs]. revert a. induction n as [|n IH]; intros a Ha; cbn [load]; [done|].
  rewrite (Hs a) by lia. destruct (m !! a) as [b|]; [|done]. cbn [mbind option_bind].
  rewrite IH by lia. done.
Qed.

Lemma store_only n : forall a v m,
  mapped a (a + Z.of_nat n) m ->
  exists m', store n a v m = Some m' /\ only a (a + Z.of_nat n) m m'.
Proof.
  induction n as [|n IH]; intros a v m Hm; cbn [store]; [by exists m|].
  destruct (Hm a) as [b Hb]; [lia|]. rewrite Hb. cbn [mbind option_bind].
  assert (only a (a + Z.of_nat (S n)) m (<[a := v mod 256]> m)) as Ho
    by (apply only_insert; [eauto|lia]).
  destruct (IH (a + 1) (v / 256) (<[a := v mod 256]> m)) as (m' & -> & Ho').
  { eapply only_mapped; [exact Ho|]. intros i Hi. apply Hm. lia. }
  exists m'. split; [done|]. eapply only_trans; [exact Ho|].
  eapply only_weaken; [exact Ho'|lia|lia].
Qed.

Lemma load_store n : forall a v m m',
  0 <= v < 256 ^ Z.of_nat n -> store n a v m = Some m' -> load n a m' = Some v.
Proof.
  induction n as [|n IH]; intros a v m m' Hv E; cbn [store load] in *.
  { f_equal. simpl in Hv. lia. }
  destruct (m !! a) as [b|] eqn:Hb; [|done]. cbn [mbind option_bind] in E.
  rewrite Nat2Z.inj_succ, Z.pow_succ_r in Hv by lia.
  assert (0 <= v / 256 < 256 ^ Z.of_nat n) as Hv'.
  { split; [apply Z.div_pos; lia|]. apply Z.div_lt_upper_bound; lia. }
  rewrite (IH _ _ _ _ Hv' E).
  assert (m' !! a = Some (v mod 256)) as ->.
  { assert (forall k b' w mm mm', store k b' w mm = Some mm' -> a < b' -> mm' !! a = mm !! a) as Hfr.
    { intros k. induction k as [|k IHk]; intros b' w mm mm' E' Hlt; cbn [store] in E';
        [by injection E' as <-|].
      destruct (mm !! b'); [|done]. cbn [mbind option_bind] in E'.
      rewrite (IHk _ _ _ _ E') by lia. apply lookup_insert_ne. lia. }
    rewrite (Hfr _ _ _ _ _ E) by lia. apply lookup_insert_eq. }
  cbn [mbind option_bind]. f_equal. pose proof (Z.div_mod v 256). lia.
Qed.

(** Storing an [n]-byte integer: it is there, and nothing else has changed. *)
Lemma store_spec n a v m :
  mapped a (a + Z.of_nat n) m -> 0 <= v < 256 ^ Z.of_nat n ->
  exists m', store n a v m = Some m' /\ load n a m' = Some v /\ only a (a + Z.of_nat n) m m'.
Proof.
  intros Hm Hv. destruct (store_only n a v m Hm) as (m' & E & Ho). exists m'.
  split; [done|]. split; [by eapply load_store|done].
Qed.

Lemma load_mapped n : forall a m v, load n a m = Some v -> mapped a (a + Z.of_nat n) m.
Proof.
  induction n as [|n IH]; intros a m v E i Hi; [lia|]. cbn [load] in E.
  destruct (m !! a) as [b|] eqn:Hb; [|done]. cbn [mbind option_bind] in E.
  destruct (load n (a + 1) m) as [w|] eqn:El; [|done].
  destruct (decide (i = a)) as [->|]; [eauto|]. eapply IH; [exact El|lia].
Qed.

Lemma memset_spec n : forall a v m,
  mapped a (a + Z.of_nat n) m ->
  exists m', memset n a v m = Some m' /\ only a (a + Z.of_nat n) m m' /\
    (forall i, a <= i < a + Z.of_nat n -> m' !! i = Some v).
Proof.
  induction n as [|n IH]; intros a v m Hm; cbn [memset].
  { exists m. split_and!; try done. lia. }
  destruct (Hm a) as [b Hb]; [lia|]. rewrite Hb. cbn [mbind option_bind].
  assert (only a (a + Z.of_nat (S n)) m (<[a := v]> m)) as Ho
    by (apply only_insert; [eauto|lia]).
  destruct (IH (a + 1) v (<[a := v]> m)) as (m' & -> & Ho' & Hv).
  { eapply only_mapped; [exact Ho|]. intros i Hi. apply Hm. lia. }
  exists m'. split; [done|]. split.
  - eapply only_trans; [exact Ho|]. eapply only_weaken; [exact Ho'|lia|lia].
  - intros i Hi. destruct (decide (i = a)) as [->|]; [|apply Hv; lia].
    rewrite (proj2 Ho') by lia. apply lookup_insert_eq.
Qed.

Lemma move_spec n : forall dst src m,
  mapped dst (dst + Z.of_nat n) m -> mapped src (src + Z.of_nat n) m ->
  dst + Z.of_nat n <= src \/ src + Z.of_nat n <= dst ->
  exists m', move n dst src m = Some m' /\ only dst (dst + Z.of_nat n) m m' /\
    (forall i, 0 <= i < Z.of_nat n -> m' !! (dst + i) = m !! (src + i)).
Proof.
  induction n as [|n IH]; intros dst src m Hd Hs Hdis; cbn [move].
  { exists m. split_and!; try done. lia. }
  destruct (Hs src) as [b Hb]; [lia|]. rewrite Hb. cbn [mbind option_bind].
  destruct (Hd dst) as [c Hc]; [lia|]. rewrite Hc. cbn [mbind option_bind].
  assert (only dst (dst + Z.of_nat (S n)) m (<[dst := b]> m)) as Ho
    by (apply only_insert; [eauto|lia]).
  destruct (IH (dst + 1) (src + 1) (<[dst := b]> m)) as (m' & -> & Ho' & Hv); [..|lia|].
  1,2: eapply only_mapped; [exact Ho|]; intros i Hi; (apply Hd + apply Hs); lia.
  exists m'. split; [done|]. split.
  - eapply only_trans; [exact Ho|]. eapply only_weaken; [exact Ho'|lia|lia].
  - intros i Hi. destruct (decide (i = 0)) as [->|].
    + rewrite !Z.add_0_r. rewrite (proj2 Ho') by lia. rewrite lookup_insert_eq. done.
    + replace (dst + i) with (dst + 1 + (i - 1)) by lia. rewrite Hv by lia.
      rewrite lookup_insert_ne by lia. f_equal. lia.
Qed.

End Bytes.
