(* ===== verification/SmallMem.v ===== *)
(** * The small-memory allocator

    Models [src/mem.c] ([RT_USING_SMALL_MEM], with statistics and without
    tracing) on a byte-addressed heap: every block starts with a 12-byte
    [struct heap_mem], and the headers form a doubly linked list of offsets.
    The theorems say which blocks each operation turns from free to used and
    back, that it keeps the list well formed with no two adjacent free blocks,
    and that it never touches a byte of another allocated block.

    The heap is protected by the semaphore [heap_sem]; the definitions are the
    bodies between taking and releasing it.  All of them are to be called from
    thread context. *)

From S2P Require Import Prelude.
From S2P Require Import Bytes.

Module SmallMem.
Import Bytes.Bytes.

(** ** Data *)

Definition HEAP_MAGIC : Z := 0x1ea0.
Definition SIZEOF_STRUCT_MEM : Z := 12.
Definition MIN_SIZE : Z := 12.
Definition MIN_SIZE_ALIGNED : Z := 12.

(** A header as it stands in memory. *)
Record heap_mem := mk_hdr { magic : Z; used : Z; next : Z; prev : Z }.

Definition hdr (m : gmap Z Z) (p : Z) : option heap_mem :=
  a ← load 2 p m; u ← load 2 (p + 2) m; n ← load 4 (p + 4) m; v ← load 4 (p + 8) m;
  Some (mk_hdr a u n v).

(** The static variables of the file.  Block addresses are offsets from
    [heap_ptr]; what callers see are absolute addresses, 0 being [RT_NULL]. *)
Record heap := mk_heap {
  heap_ptr : Z;
  heap_end : Z;              (** offset *)
  lfree : Z;                 (** offset *)
  mem_size_aligned : Z;
  used_mem : Z;
  max_mem : Z;
  bytes : gmap Z Z;          (** from [heap_ptr] on *)
}.

Definition set_bytes (m : gmap Z Z) (h : heap) : heap :=
  mk_heap (heap_ptr h) (heap_end h) (lfree h) (mem_size_aligned h) (used_mem h) (max_mem h) m.
Definition set_lfree (p : Z) (h : heap) : heap :=
  mk_heap (heap_ptr h) (heap_end h) p (mem_size_aligned h) (used_mem h) (max_mem h) (bytes h).
Definition set_stats (u x : Z) (h : heap) : heap :=
  mk_heap (heap_ptr h) (heap_end h) (lfree h) (mem_size_aligned h) u x (bytes h).

(** Field access through a block pointer. *)
Definition get_magic (p : Z) (h : heap) : option Z := load 2 p (bytes h).
Definition get_used (p : Z) (h : heap) : option Z := load 2 (p + 2) (bytes h).
Definition get_next (p : Z) (h : heap) : option Z := load 4 (p + 4) (bytes h).
Definition get_prev (p : Z) (h : heap) : option Z := load 4 (p + 8) (bytes h).
Definition put (n : nat) (a v : Z) (h : heap) : option heap :=
  m ← store n a v (bytes h); Some (set_bytes m h).
Definition set_magic (p v : Z) (h : heap) : option heap := put 2 p v h.
Definition set_used (p v : Z) (h : heap) : option heap := put 2 (p + 2) v h.
Definition set_next (p v : Z) (h : heap) : option heap := put 4 (p + 4) v h.
Definition set_prev (p v : Z) (h : heap) : option heap := put 4 (p + 8) v h.

(** ** Operations *)

(** Join block [b] to the free block [a] before it. *)
Definition merge (a b : Z) (h : heap) : option heap :=
  let h := if lfree h =? b then set_lfree a h else h in
  n ← get_next b h;
  h ← set_next a n h;
  n ← get_next b h;
  set_prev n a h.

Definition plug_holes (mem : Z) (h : heap) : option heap :=
  _ ← RT_ASSERT (0 <=? mem);
  _ ← RT_ASSERT (mem <? heap_end h);
  u ← get_used mem h;
  _ ← RT_ASSERT (u =? 0);
  nmem ← get_next mem h;
  nu ← get_used nmem h;
  h ← (if negb (mem =? nmem) && (nu =? 0) && negb (nmem =? heap_end h)
       then merge mem nmem h else Some h);
  pmem ← get_prev mem h;
  pu ← get_used pmem h;
  if negb (pmem =? mem) && (pu =? 0) then merge pmem mem h else Some h.

(** [m] is the memory from the aligned begin address on; on the error branch
    the variables keep their values. *)
Definition rt_system_heap_init (begin_addr end_addr : Z) (m : gmap Z Z) (h : heap)
  : option heap :=
  let begin_align := RT_ALIGN begin_addr RT_ALIGN_SIZE in
  let end_align := RT_ALIGN_DOWN end_addr RT_ALIGN_SIZE in
  if (2 * SIZEOF_STRUCT_MEM <? end_align) &&
     (begin_align <=? end_align - 2 * SIZEOF_STRUCT_MEM) then
    let msa := end_align - begin_align - 2 * SIZEOF_STRUCT_MEM in
    let e := msa + SIZEOF_STRUCT_MEM in
    let h := mk_heap begin_align e (lfree h) msa (used_mem h) (max_mem h) m in
    h ← set_magic 0 HEAP_MAGIC h;
    h ← set_next 0 e h;
    h ← set_prev 0 0 h;
    h ← set_used 0 0 h;
    h ← set_magic e HEAP_MAGIC h;
    h ← set_used e 1 h;
    h ← set_next e e h;
    h ← set_prev e e h;
    Some (set_lfree 0 h)
  else Some h.

(** [used_mem += n], then the maximum. *)
Definition account (n : Z) (h : heap) : heap :=
  let u := u32 (used_mem h + n) in
  set_stats u (if max_mem h <? u then u else max_mem h) h.

(** Cut the tail of block [ptr] off as a free block at [ptr2]; [use] is the
    used flag [rt_malloc] writes on the way. *)
Definition split (ptr ptr2 : Z) (use : bool) (h : heap) : option heap :=
  h ← set_magic ptr2 HEAP_MAGIC h;
  h ← set_used ptr2 0 h;
  n ← get_next ptr h;
  h ← set_next ptr2 n h;
  h ← set_prev ptr2 ptr h;
  h ← set_next ptr ptr2 h;
  h ← (if use then set_used ptr 1 h else Some h);
  n ← get_next ptr2 h;
  if negb (n =? mem_size_aligned h + SIZEOF_STRUCT_MEM) then set_prev n ptr2 h else Some h.

(** [while (lfree->used && lfree != heap_end) lfree = lfree->next]. *)
Fixpoint lfree_loop (fuel : nat) (h : heap) : option heap :=
  u ← get_used (lfree h) h;
  if negb (u =? 0) && negb (lfree h =? heap_end h) then
    match fuel with
    | O => None
    | S fuel => n ← get_next (lfree h) h; lfree_loop fuel (set_lfree n h)
    end
  else Some h.

(** [if (mem == lfree)]: find the next free block. *)
Definition relocate (ptr : Z) (h : heap) : option heap :=
  if ptr =? lfree h then
    h ← lfree_loop (Z.to_nat (heap_end h)) h;
    u ← get_used (lfree h) h;
    _ ← RT_ASSERT ((lfree h =? heap_end h) || (u =? 0));
    Some h
  else Some h.

(** The body of the search loop once the block is found. *)
Definition malloc_take (size ptr : Z) (h : heap) : option (heap * Z) :=
  n ← get_next ptr h;
  h ← (if u32 (size + SIZEOF_STRUCT_MEM + MIN_SIZE_ALIGNED) <=?
          u32 (n - (ptr + SIZEOF_STRUCT_MEM)) then
         h ← split ptr (ptr + SIZEOF_STRUCT_MEM + size) true h;
         Some (account (size + SIZEOF_STRUCT_MEM) h)
       else
         h ← set_used ptr 1 h;
         Some (account (n - ptr) h));
  h ← set_magic ptr HEAP_MAGIC h;
  h ← relocate ptr h;
  let mem := heap_ptr h + ptr in
  _ ← RT_ASSERT (mem + SIZEOF_STRUCT_MEM + size <=? heap_ptr h + heap_end h);
  _ ← RT_ASSERT ((mem + SIZEOF_STRUCT_MEM) mod RT_ALIGN_SIZE =? 0);
  _ ← RT_ASSERT (Z.land mem (RT_ALIGN_SIZE - 1) =? 0);
  Some (h, mem + SIZEOF_STRUCT_MEM).

Fixpoint malloc_loop (fuel : nat) (size ptr : Z) (h : heap) : option (heap * Z) :=
  if ptr <? u32 (mem_size_aligned h - size) then
    match fuel with
    | O => None
    | S fuel =>
        u ← get_used ptr h;
        n ← get_next ptr h;
        if (u =? 0) && (size <=? u32 (n - (ptr + SIZEOF_STRUCT_MEM))) then malloc_take size ptr h
        else malloc_loop fuel size n h
    end
  else Some (h, 0).

Definition rt_malloc (size : Z) (h : heap) : option (heap * Z) :=
  if size =? 0 then Some (h, 0) else
  let size := RT_ALIGN size RT_ALIGN_SIZE in
  if mem_size_aligned h <? size then Some (h, 0) else
  let size := if size <? MIN_SIZE_ALIGNED then MIN_SIZE_ALIGNED else size in
  malloc_loop (Z.to_nat (heap_end h)) size (lfree h) h.

Definition in_heap (rmem : Z) (h : heap) : bool :=
  (heap_ptr h <=? rmem) && (rmem <? heap_ptr h + heap_end h).

(** Handing the block back: its flag, [lfree] and the statistics. *)
Definition release (mem : Z) (h : heap) : option heap :=
  h ← set_used mem 0 h;
  h ← set_magic mem HEAP_MAGIC h;
  let h := if mem <? lfree h then set_lfree mem h else h in
  n ← get_next mem h;
  Some (set_stats (u32 (used_mem h - (n - mem))) (max_mem h) h).

Definition rt_free (rmem : Z) (h : heap) : option heap :=
  if rmem =? 0 then Some h else
  _ ← RT_ASSERT (Z.land rmem (RT_ALIGN_SIZE - 1) =? 0);
  _ ← RT_ASSERT (in_heap rmem h);
  let mem := rmem - SIZEOF_STRUCT_MEM - heap_ptr h in
  u ← get_used mem h;
  a ← get_magic mem h;
  _ ← RT_ASSERT (negb (u =? 0));
  _ ← RT_ASSERT (a =? HEAP_MAGIC);
  h ← release mem h;
  plug_holes mem h.

Definition rt_realloc (rmem newsize : Z) (h : heap) : option (heap * Z) :=
  let newsize := RT_ALIGN newsize RT_ALIGN_SIZE in
  if mem_size_aligned h <? newsize then Some (h, 0)
  else if newsize =? 0 then h ← rt_free rmem h; Some (h, 0)
  else if rmem =? 0 then rt_malloc newsize h
  else if negb (in_heap rmem h) then Some (h, rmem)
  else
    let ptr := rmem - SIZEOF_STRUCT_MEM - heap_ptr h in
    n ← get_next ptr h;
    let size := u32 (n - ptr - SIZEOF_STRUCT_MEM) in
    if size =? newsize then Some (h, rmem)
    else if u32 (newsize + SIZEOF_STRUCT_MEM + MIN_SIZE) <? size then
      let h := set_stats (u32 (used_mem h - (size - newsize))) (max_mem h) h in
      let ptr2 := ptr + SIZEOF_STRUCT_MEM + newsize in
      h ← split ptr ptr2 false h;
      h ← plug_holes ptr2 h;
      Some (h, rmem)
    else
      '(h, nmem) ← rt_malloc newsize h;
      if negb (nmem =? 0) then
        m ← move (Z.to_nat (if size <? newsize then size else newsize))
              (nmem - heap_ptr h) (rmem - heap_ptr h) (bytes h);
        h ← rt_free rmem (set_bytes m h);
        Some (h, nmem)
      else Some (h, 0).

Definition rt_calloc (count size : Z) (h : heap) : option (heap * Z) :=
  '(h, p) ← rt_malloc (u32 (count * size)) h;
  if negb (p =? 0) then
    m ← memset (Z.to_nat (u32 (count * size))) (p - heap_ptr h) 0 (bytes h);
    Some (set_bytes m h, p)
  else Some (h, p).

Definition rt_memory_info (h : heap) : Z * Z * Z := (mem_size_aligned h, used_mem h, max_mem h).

(** ** Headers *)

Lemma hdr_inv m p H :
  hdr m p = Some H ->
  load 2 p m = Some (magic H) /\ load 2 (p + 2) m = Some (used H) /\
  load 4 (p + 4) m = Some (next H) /\ load 4 (p + 8) m = Some (prev H).
Proof.
  unfold hdr. destruct (load 2 p m); [|done]. destruct (load 2 (p + 2) m); [|done].
  destruct (load 4 (p + 4) m); [|done]. destruct (load 4 (p + 8) m); [|done].
  by intros [= <-].
Qed.

Lemma hdr_intro m p H :
  load 2 p m = Some (magic H) -> load 2 (p + 2) m = Some (used H) ->
  load 4 (p + 4) m = Some (next H) -> load 4 (p + 8) m = Some (prev H) -> hdr m p = Some H.
Proof. intros E1 E2 E3 E4. unfold hdr. rewrite E1, E2, E3, E4. by destruct H. Qed.

Lemma hdr_mapped m p H : hdr m p = Some H -> mapped p (p + 12) m.
Proof.
  intros (E1 & E2 & E3 & E4)%hdr_inv i Hi.
  destruct (decide (i < p + 2)); [eapply load_mapped; [exact E1|lia]|].
  destruct (decide (i < p + 4)); [eapply load_mapped; [exact E2|lia]|].
  destruct (decide (i < p + 8)); [eapply load_mapped; [exact E3|lia]|].
  eapply load_mapped; [exact E4|lia].
Qed.

Lemma mapped_load n : forall a m, mapped a (a + Z.of_nat n) m -> is_Some (load n a m).
Proof.
  induction n as [|n IH]; intros a m Hm; cbn [load]; [eauto|].
  destruct (Hm a) as [b ->]; [lia|]. cbn [mbind option_bind].
  destruct (IH (a + 1) m) as [v ->]; [intros i Hi; apply Hm; lia|]. eauto.
Qed.

(** Whatever is in a mapped area can be read as a header. *)
Lemma mapped_hdr m p : mapped p (p + 12) m -> exists H, hdr m p = Some H.
Proof.
  intros Hm.
  destruct (mapped_load 2 p m) as [v1 E1]; [intros i Hi; apply Hm; lia|].
  destruct (mapped_load 2 (p + 2) m) as [v2 E2]; [intros i Hi; apply Hm; lia|].
  destruct (mapped_load 4 (p + 4) m) as [v3 E3]; [intros i Hi; apply Hm; lia|].
  destruct (mapped_load 4 (p + 8) m) as [v4 E4]; [intros i Hi; apply Hm; lia|].
  exists (mk_hdr v1 v2 v3 v4). by apply hdr_intro.
Qed.

Lemma hdr_only lo hi m m' p :
  only lo hi m m' -> p + 12 <= lo \/ hi <= p -> hdr m' p = hdr m p.
Proof.
  intros Ho Hp. unfold hdr. rewrite !(load_only lo hi _ _ m m' Ho) by lia. done.
Qed.

Lemma put_spec n a v h :
  mapped a (a + Z.of_nat n) (bytes h) -> 0 <= v < 256 ^ Z.of_nat n ->
  exists m', put n a v h = Some (set_bytes m' h) /\ load n a m' = Some v /\
    only a (a + Z.of_nat n) (bytes h) m'.
Proof.
  intros Hm Hv. destruct (store_spec n a v (bytes h) Hm Hv) as (m' & E & El & Ho).
  exists m'. unfold put. rewrite E. done.
Qed.

(** Each assignment to a field changes that field of the header. *)
Ltac put_field H Hv a :=
  let Hm := fresh "Hm" in let Ho := fresh "Ho" in let El := fresh "El" in
  pose proof (hdr_mapped _ _ _ H) as Hm; apply hdr_inv in H as (? & ? & ? & ?);
  edestruct (put_spec a) as (m' & -> & El & Ho);
    [intros i Hi; apply Hm; lia|exact Hv|];
  exists m'; split; [done|]; split;
    [apply hdr_intro; cbn [magic used next prev];
     rewrite ?(load_only _ _ _ _ _ _ Ho) by lia; assumption
    |eapply only_weaken; [exact Ho|lia|lia]].

Lemma put_magic_spec p v h H :
  hdr (bytes h) p = Some H -> 0 <= v < 256 ^ 2 ->
  exists m', set_magic p v h = Some (set_bytes m' h) /\
    hdr m' p = Some (mk_hdr v (used H) (next H) (prev H)) /\ only p (p + 12) (bytes h) m'.
Proof. intros E Hv. unfold set_magic. put_field E Hv 2%nat. Qed.

Lemma put_used_spec p v h H :
  hdr (bytes h) p = Some H -> 0 <= v < 256 ^ 2 ->
  exists m', set_used p v h = Some (set_bytes m' h) /\
    hdr m' p = Some (mk_hdr (magic H) v (next H) (prev H)) /\ only p (p + 12) (bytes h) m'.
Proof. intros E Hv. unfold set_used. put_field E Hv 2%nat. Qed.

Lemma put_next_spec p v h H :
  hdr (bytes h) p = Some H -> 0 <= v < 256 ^ 4 ->
  exists m', set_next p v h = Some (set_bytes m' h) /\
    hdr m' p = Some (mk_hdr (magic H) (used H) v (prev H)) /\ only p (p + 12) (bytes h) m'.
Proof. intros E Hv. unfold set_next. put_field E Hv 4%nat. Qed.

Lemma put_prev_spec p v h H :
  hdr (bytes h) p = Some H -> 0 <= v < 256 ^ 4 ->
  exists m', set_prev p v h = Some (set_bytes m' h) /\
    hdr m' p = Some (mk_hdr (magic H) (used H) (next H) v) /\ only p (p + 12) (bytes h) m'.
Proof. intros E Hv. unfold set_prev. put_field E Hv 4%nat. Qed.

Lemma get_fields p h H :
  hdr (bytes h) p = Some H ->
  get_magic p h = Some (magic H) /\ get_used p h = Some (used H) /\
  get_next p h = Some (next H) /\ get_prev p h = Some (prev H).
Proof. apply hdr_inv. Qed.

(** ** Block lists

    The heap is seen as the list of its blocks from offset 0 on: the size of
    each block, header included, and whether it is used. *)

Definition total (bs : list (Z * bool)) : Z := foldr (fun b n => b.1 + n) 0 bs.

Definition flagz (u : bool) : Z := if u then 1 else 0.

(** The headers of [ys], from offset [p] on, the block before being at [pv]. *)
Fixpoint seg (m : gmap Z Z) (pv p : Z) (ys : list (Z * bool)) : Prop :=
  match ys with
  | [] => True
  | (sz, u) :: ys =>
      hdr m p = Some (mk_hdr HEAP_MAGIC (flagz u) (p + sz) pv) /\ seg m p (p + sz) ys
  end.

(** The address of the block before the end of [ys]. *)
Fixpoint before (pv p : Z) (ys : list (Z * bool)) : Z :=
  match ys with [] => pv | (sz, _) :: ys => before p (p + sz) ys end.

(** The header at the end of the heap; nobody reads its [prev]. *)
Definition ending (m : gmap Z Z) (e : Z) : Prop :=
  exists v, hdr m e = Some (mk_hdr HEAP_MAGIC 1 e v).

Definition chain (m : gmap Z Z) (bs : list (Z * bool)) (e : Z) : Prop :=
  seg m 0 0 bs /\ total bs = e /\ ending m e.

Definition sized (bs : list (Z * bool)) : Prop := Forall (fun b => 16 <= b.1 /\ b.1 mod 4 = 0) bs.

(** No two adjacent free blocks; [f] says whether the block before is free. *)
Fixpoint no_adj (f : bool) (bs : list (Z * bool)) : Prop :=
  match bs with [] => True | (_, u) :: bs => (f = true -> u = true) /\ no_adj (negb u) bs end.

Definition last_free (f : bool) (ys : list (Z * bool)) : bool :=
  match last ys with None => f | Some (_, u) => negb u end.

(** [x] is the address of a free block, or the end. *)
Fixpoint free_at (p : Z) (bs : list (Z * bool)) (x : Z) : Prop :=
  match bs with
  | [] => x = p
  | (s, u) :: bs => (x = p /\ u = false) \/ free_at (p + s) bs x
  end.

Fixpoint free_in (p : Z) (ys : list (Z * bool)) (x : Z) : Prop :=
  match ys with
  | [] => False
  | (s, u) :: ys => (x = p /\ u = false) \/ free_in (p + s) ys x
  end.

(** No free block lies below [x]. *)
Fixpoint lowest (p : Z) (bs : list (Z * bool)) (x : Z) : Prop :=
  match bs with [] => True | (s, u) :: bs => (u = false -> x <= p) /\ lowest (p + s) bs x end.

(** The allocated blocks: address and size. *)
Fixpoint allocs (p : Z) (bs : list (Z * bool)) : list (Z * Z) :=
  match bs with
  | [] => []
  | (s, u) :: bs => if u : bool then (p, s) :: allocs (p + s) bs else allocs (p + s) bs
  end.

Definition used_total (bs : list (Z * bool)) : Z :=
  foldr (fun b n => (if b.2 : bool then b.1 else 0) + n) 0 bs.

Lemma total_app ys zs : total (ys ++ zs) = total ys + total zs.
Proof. induction ys as [|b ys IH]; simpl; [lia|rewrite IH; lia]. Qed.

Lemma used_total_app ys zs : used_total (ys ++ zs) = used_total ys + used_total zs.
Proof. induction ys as [|b ys IH]; simpl; [lia|rewrite IH; lia]. Qed.

Lemma sized_total bs : sized bs -> 12 * Z.of_nat (length bs) <= total bs.
Proof. induction 1 as [|b bs [Hb _] _ IH]; simpl; lia. Qed.

Lemma sized_aligned bs : sized bs -> total bs mod 4 = 0.
Proof.
  induction 1 as [|b bs [_ Hb] _ IH]; simpl; [done|].
  rewrite Z.add_mod, Hb, IH by lia. done.
Qed.

Lemma used_total_range bs : sized bs -> 0 <= used_total bs <= total bs.
Proof. induction 1 as [|[s []] bs [Hb _] _ IH]; simpl in *; lia. Qed.

Lemma seg_app m pv p ys zs :
  seg m pv p (ys ++ zs) <-> seg m pv p ys /\ seg m (before pv p ys) (p + total ys) zs.
Proof.
  revert pv p. induction ys as [|[s u] ys IH]; intros pv p; simpl.
  - replace (p + 0) with p by lia. naive_solver.
  - rewrite IH. replace (p + s + total ys) with (p + (s + total ys)) by lia. naive_solver.
Qed.

Lemma before_app pv p ys zs :
  before pv p (ys ++ zs) = before (before pv p ys) (p + total ys) zs.
Proof.
  revert pv p. induction ys as [|[s u] ys IH]; intros pv p; simpl.
  - by replace (p + 0) with p by lia.
  - rewrite IH. f_equal. lia.
Qed.

Lemma no_adj_app f ys zs : no_adj f (ys ++ zs) <-> no_adj f ys /\ no_adj (last_free f ys) zs.
Proof.
  revert f. induction ys as [|[s u] ys IH]; intros f; simpl; [naive_solver|].
  rewrite IH. replace (last_free f ((s, u) :: ys)) with (last_free (negb u) ys); [naive_solver|].
  unfold last_free. destruct ys as [|b ys]; [done|]. rewrite last_cons_cons.
  destruct (last (b :: ys)) eqn:E; [done|]. by apply last_None in E.
Qed.

Lemma no_adj_weaken zs : no_adj true zs -> no_adj false zs.
Proof. destruct zs as [|[s u] zs]; simpl; naive_solver. Qed.

Lemma free_at_app p ys zs x :
  free_at p (ys ++ zs) x <-> free_in p ys x \/ free_at (p + total ys) zs x.
Proof.
  revert p. induction ys as [|[s u] ys IH]; intros p; simpl.
  - replace (p + 0) with p by lia. naive_solver.
  - rewrite IH. replace (p + s + total ys) with (p + (s + total ys)) by lia. naive_solver.
Qed.

Lemma lowest_app p ys zs x :
  lowest p (ys ++ zs) x <-> lowest p ys x /\ lowest (p + total ys) zs x.
Proof.
  revert p. induction ys as [|[s u] ys IH]; intros p; simpl.
  - replace (p + 0) with p by lia. naive_solver.
  - rewrite IH. replace (p + s + total ys) with (p + (s + total ys)) by lia. naive_solver.
Qed.

Lemma lowest_le p bs x y : lowest p bs x -> y <= x -> lowest p bs y.
Proof.
  revert p. induction bs as [|[s u] bs IH]; intros p; simpl; [done|].
  intros [Hu Hb] Hy. split; [|by apply IH]. intros Hf. specialize (Hu Hf). lia.
Qed.

Lemma lowest_above p bs x : sized bs -> x <= p -> lowest p bs x.
Proof.
  intros Hs. revert p. induction Hs as [|[s u] bs [Hb _] _ IH]; intros p Hx; simpl in *; [done|].
  split; [done|]. apply IH. lia.
Qed.

Lemma allocs_app p ys zs : allocs p (ys ++ zs) = allocs p ys ++ allocs (p + total ys) zs.
Proof.
  revert p. induction ys as [|[s u] ys IH]; intros p; simpl.
  - by replace (p + 0) with p by lia.
  - rewrite IH. replace (p + s + total ys) with (p + (s + total ys)) by lia. by destruct u.
Qed.

Lemma allocs_split p bs A a s B :
  allocs p bs = A ++ (a, s) :: B ->
  exists ys zs, bs = ys ++ (s, true) :: zs /\ a = p + total ys /\ A = allocs p ys /\
    B = allocs (a + s) zs.
Proof.
  revert p A. induction bs as [|[t u] bs IH]; intros p A E; simpl in E; [by destruct A|].
  destruct u.
  - destruct A as [|b A]; simpl in E.
    + injection E as -> -> E. exists [], bs. simpl. split_and!; [done|lia|done|done].
    + injection E as <- E. destruct (IH _ _ E) as (ys & zs & -> & -> & -> & ->).
      exists ((t, true) :: ys), zs. simpl. split_and!; [done|lia|done|done].
  - destruct (IH _ _ E) as (ys & zs & -> & -> & -> & ->).
    exists ((t, false) :: ys), zs. simpl. split_and!; [done|lia|done|done].
Qed.

Lemma allocs_range p bs a s :
  sized bs -> (a, s) ∈ allocs p bs -> p <= a /\ 16 <= s /\ a + s <= p + total bs.
Proof.
  intros Hs. revert p. induction Hs as [|[t u] bs [Ht _] Hs IH]; intros p Hin; simpl in *.
  { by apply not_elem_of_nil in Hin. }
  assert (0 <= total bs) by (pose proof (sized_total bs Hs); lia).
  destruct u; [apply elem_of_cons in Hin as [[= -> ->]|Hin]; [lia|]|];
    specialize (IH _ Hin); lia.
Qed.

(** ** Replacing a part of the list *)

Lemma seg_only lo hi m m' pv p ys :
  only lo hi m m' -> sized ys -> p + total ys <= lo \/ hi <= p -> seg m pv p ys ->
  seg m' pv p ys.
Proof.
  intros Ho Hs. revert pv p. induction Hs as [|[s u] ys [Hb _] Hs IH]; intros pv p Hp; simpl in *;
    [done|]. assert (0 <= total ys) by (pose proof (sized_total ys Hs); lia).
  intros [E Hseg]. rewrite (hdr_only lo hi m m') by (done || lia). split; [done|].
  apply IH; [lia|done].
Qed.

Lemma ending_only lo hi m m' e :
  only lo hi m m' -> e + 12 <= lo \/ hi <= e -> ending m e -> ending m' e.
Proof. intros Ho He [v E]. exists v. by rewrite (hdr_only lo hi m m'). Qed.

(** [mid] becomes [mid']: its headers are rewritten, and the header that
    follows is told where the block before it now is. *)
Lemma chain_replace m m' ys mid mid' zs e H :
  chain m (ys ++ mid ++ zs) e -> sized (ys ++ mid ++ zs) ->
  total mid' = total mid ->
  only (total ys) (total ys + total mid + 12) m m' ->
  seg m' (before 0 0 ys) (total ys) mid' ->
  hdr m (total ys + total mid) = Some H ->
  (exists v, hdr m' (total ys + total mid) = Some (mk_hdr (magic H) (used H) (next H) v) /\
     (zs <> [] -> v = before (before 0 0 ys) (total ys) mid')) ->
  chain m' (ys ++ mid' ++ zs) e.
Proof.
  intros (Hseg & Ht & Hend) Hs Em Ho Hmid EH (v & EH' & Hv).
  apply Forall_app in Hs as [Hsy Hs]. apply Forall_app in Hs as [Hsm Hsz].
  rewrite !seg_app, !Z.add_0_l in Hseg. destruct Hseg as (Hy & Hm & Hz).
  rewrite !total_app in Ht. simpl in *.
  assert (0 <= total zs) as Hz0 by (pose proof (sized_total zs Hsz); lia).
  unfold chain. rewrite !seg_app, !total_app, Em, !Z.add_0_l. split; [split_and!|].
  - eapply seg_only; [exact Ho|done|lia|done].
  - done.
  - destruct zs as [|[s u] zs]; [done|]. simpl in Hz |- *. destruct Hz as [E Hz].
    rewrite EH in E. injection E as ->. cbn [magic used next] in EH'.
    rewrite EH', Hv by done. split; [done|].
    apply Forall_cons in Hsz as [[Hb _] Hsz]. simpl in Hb.
    eapply seg_only; [exact Ho|done|lia|done].
  - split; [lia|]. destruct zs as [|b zs].
    + destruct Hend as [w Ew]. simpl in Ht. rewrite Z.add_0_r in Ht. rewrite Ht in EH, EH'.
      rewrite EH in Ew. injection Ew as ->. exists v. exact EH'.
    + apply Forall_cons in Hsz as [[Hb _] Hsz]. simpl in *.
      pose proof (sized_total zs Hsz). eapply ending_only; [exact Ho|lia|done].
Qed.

(** The header after a part of the list. *)
Lemma chain_next m ys mid zs e :
  chain m (ys ++ mid ++ zs) e ->
  exists H, hdr m (total ys + total mid) = Some H /\ magic H = HEAP_MAGIC /\
    used H = match zs with [] => 1 | (_, u) :: _ => flagz u end /\
    next H = total ys + total mid + match zs with [] => 0 | (s, _) :: _ => s end /\
    (zs <> [] -> prev H = before (before 0 0 ys) (total ys) mid).
Proof.
  intros (Hseg & Ht & [v Hend]). rewrite !seg_app, !Z.add_0_l in Hseg. destruct Hseg as (_ & _ & Hz).
  rewrite !total_app in Ht. simpl in *. destruct zs as [|[s u] zs]; simpl in *.
  - rewrite Z.add_0_r in Ht. rewrite <- Ht in Hend. eexists. split; [exact Hend|].
    simpl. split_and!; [done|done|lia|done].
  - destruct Hz as [E _]. eexists. split; [exact E|]. by split_and!.
Qed.

(** ** Invariant *)

(** Well-formedness but for adjacent free blocks. *)
Record heap_pre (h : heap) (bs : list (Z * bool)) : Prop := {
  hp_ptr : 0 < heap_ptr h /\ heap_ptr h mod 4 = 0 /\ heap_ptr h + heap_end h + 12 <= 2 ^ 32;
  hp_end : heap_end h = mem_size_aligned h + 12;
  hp_msa : 12 <= mem_size_aligned h;
  hp_mapped : mapped 0 (heap_end h + 12) (bytes h);
  hp_chain : chain (bytes h) bs (heap_end h);
  hp_sized : sized bs;
  hp_lfree : free_at 0 bs (lfree h);
  hp_used : used_mem h = used_total bs;
  hp_max : used_mem h <= max_mem h;
}.

Definition heap_wf (h : heap) (bs : list (Z * bool)) : Prop := heap_pre h bs /\ no_adj false bs.

(** The data of the blocks in [L] is untouched. *)
Definition kept (L : list (Z * Z)) (m m' : gmap Z Z) : Prop :=
  forall a s i, (a, s) ∈ L -> a + 12 <= i < a + s -> m' !! i = m !! i.

Lemma kept_refl L m : kept L m m.
Proof. done. Qed.

Lemma kept_trans L m m1 m2 : kept L m m1 -> kept L m1 m2 -> kept L m m2.
Proof. intros H1 H2 a s i Hin Hi. rewrite (H2 a s), (H1 a s) by done. done. Qed.

Lemma kept_sub L L' m m' : (forall x, x ∈ L' -> x ∈ L) -> kept L m m' -> kept L' m m'.
Proof. intros Hs Hk a s i Hin. by apply Hk, Hs. Qed.

(** Writes between [ys] and the header behind [mid] spare the others. *)
Lemma kept_only ys mid zs m m' :
  sized (ys ++ mid ++ zs) -> only (total ys) (total ys + total mid + 12) m m' ->
  kept (allocs 0 ys ++ allocs (total ys + total mid) zs) m m'.
Proof.
  intros Hs [_ Ho] a s i Hin Hi. apply Forall_app in Hs as [Hy Hs].
  apply Forall_app in Hs as [_ Hz].
  apply elem_of_app in Hin as [Hin|Hin]; apply allocs_range in Hin; try done; apply Ho; lia.
Qed.

(** The block [(s, u)] of the list, its header and its neighbours. *)
Lemma block_hdr h ys s u zs :
  heap_pre h (ys ++ (s, u) :: zs) ->
  hdr (bytes h) (total ys) = Some (mk_hdr HEAP_MAGIC (flagz u) (total ys + s) (before 0 0 ys)) /\
  0 <= total ys /\ 16 <= s /\ total ys + s <= heap_end h < 2 ^ 32 - 12.
Proof.
  intros [Hp _ _ _ (Hseg & Ht & _) Hs _ _ _]. rewrite seg_app, !Z.add_0_l in Hseg.
  destruct Hseg as (_ & E & _). split; [done|]. rewrite total_app in Ht. simpl in Ht.
  apply Forall_app in Hs as [Hy Hs]. apply Forall_cons in Hs as [[Hs _] Hz]. simpl in Hs.
  pose proof (sized_total ys Hy). pose proof (sized_total zs Hz). lia.
Qed.

Lemma next_hdr h ys s u zs :
  heap_pre h (ys ++ (s, u) :: zs) ->
  exists H, hdr (bytes h) (total ys + s) = Some H /\ magic H = HEAP_MAGIC /\
    used H = match zs with [] => 1 | (_, u) :: _ => flagz u end /\
    next H = total ys + s + match zs with [] => 0 | (s, _) :: _ => s end /\
    (zs <> [] -> prev H = total ys).
Proof.
  intros Hh. destruct (chain_next (bytes h) ys [(s, u)] zs _ (hp_chain _ _ Hh)) as (H & E & R).
  simpl in E, R. rewrite Z.add_0_r in E, R. by exists H.
Qed.

Definition same_heap (h h' : heap) : Prop :=
  heap_ptr h' = heap_ptr h /\ heap_end h' = heap_end h /\
  mem_size_aligned h' = mem_size_aligned h.

Lemma lowest_merge ys s1 s2 zs x :
  0 <= s1 ->
  lowest 0 (ys ++ (s1, false) :: (s2, false) :: zs) x ->
  lowest 0 (ys ++ (s1 + s2, false) :: zs) (if x =? total ys + s1 then total ys else x).
Proof.
  intros Hs1. rewrite !lowest_app, !Z.add_0_l. simpl. rewrite Z.add_assoc.
  intros (Hy & Ha & Hb & Hz). specialize (Ha eq_refl). destruct (Z.eqb_spec x (total ys + s1)).
  - split_and!; [eapply lowest_le; [exact Hy|lia]|lia|eapply lowest_le; [exact Hz|lia]].
  - auto.
Qed.

Lemma free_at_merge ys s1 s2 zs x :
  free_at 0 (ys ++ (s1, false) :: (s2, false) :: zs) x ->
  free_at 0 (ys ++ (s1 + s2, false) :: zs) (if x =? total ys + s1 then total ys else x).
Proof.
  rewrite !free_at_app, !Z.add_0_l. simpl. rewrite Z.add_assoc.
  destruct (Z.eqb_spec x (total ys + s1)); naive_solver.
Qed.

Lemma merge_spec h ys s1 s2 zs :
  heap_pre h (ys ++ (s1, false) :: (s2, false) :: zs) ->
  exists h', merge (total ys) (total ys + s1) h = Some h' /\
    heap_pre h' (ys ++ (s1 + s2, false) :: zs) /\ same_heap h h' /\
    lfree h' = (if lfree h =? total ys + s1 then total ys else lfree h) /\
    kept (allocs 0 ys ++ allocs (total ys + (s1 + s2)) zs) (bytes h) (bytes h').
Proof.
  intros Hh. pose proof Hh as [Hptr Hend Hmsa Hmap Hch Hsz Hlf Hus Hmx].
  destruct (block_hdr h ys s1 false ((s2, false) :: zs) Hh) as (Ea & Ha & Hs1 & Hb1).
  destruct (block_hdr h (ys ++ [(s1, false)]) s2 false zs) as (Eb & _ & Hs2 & Hb2);
    [by rewrite <- app_assoc|].
  rewrite total_app, before_app in Eb. rewrite total_app in Hb2. simpl in Eb, Hb2.
  rewrite !Z.add_0_r in Eb. rewrite !Z.add_0_r in Hb2.
  destruct (chain_next (bytes h) ys [(s1, false); (s2, false)] zs _ Hch) as (H & EH & _).
  simpl in EH. rewrite Z.add_0_r in EH.
  unfold merge. set (h1 := if lfree h =? total ys + s1 then set_lfree (total ys) h else h).
  assert (bytes h1 = bytes h) as Eh1 by (unfold h1; by destruct (_ =? _)).
  rewrite <- Eh1 in Ea, Eb, EH.
  destruct (get_fields _ _ _ Eb) as (_ & _ & -> & _). cbn [mbind option_bind next].
  destruct (put_next_spec (total ys) (total ys + s1 + s2) h1 _ Ea) as (m1 & -> & Ea1 & Ho1);
    [lia|]. cbn [mbind option_bind].
  assert (hdr m1 (total ys + s1) = hdr (bytes h1) (total ys + s1)) as Eb1
    by (eapply hdr_only; [exact Ho1|lia]).
  rewrite Eb in Eb1. destruct (get_fields _ (set_bytes m1 h1) _ Eb1) as (_ & _ & -> & _).
  cbn [mbind option_bind next].
  assert (hdr m1 (total ys + s1 + s2) = Some H) as EH1.
  { rewrite (hdr_only _ _ _ _ _ Ho1) by lia. rewrite <- EH. f_equal. lia. }
  destruct (put_prev_spec (total ys + s1 + s2) (total ys) (set_bytes m1 h1) H EH1)
    as (m2 & -> & EH2 & Ho2); [lia|].
  eexists. split; [done|]. simpl bytes in *.
  assert (only (total ys) (total ys + (s1 + s2) + 12) (bytes h) m2) as Ho.
  { rewrite <- Eh1. eapply only_trans; (eapply only_weaken; [eassumption|lia|lia]). }
  assert (heap_ptr h1 = heap_ptr h /\ heap_end h1 = heap_end h /\
    mem_size_aligned h1 = mem_size_aligned h /\ used_mem h1 = used_mem h /\
    max_mem h1 = max_mem h /\
    lfree h1 = if lfree h =? total ys + s1 then total ys else lfree h) as (E1 & E2 & E3 & E4 & E5 & E6)
    by (unfold h1; by destruct (_ =? _)).
  split_and!; simpl; try done; [|].
  - constructor; simpl; rewrite ?E1, ?E2, ?E3, ?E4, ?E5; try done.
    + eapply only_mapped; [exact Ho|done].
    + eapply (chain_replace (bytes h) m2 ys [(s1, false); (s2, false)] [(s1 + s2, false)] zs);
        [exact Hch|done|simpl; lia|simpl; by rewrite Z.add_0_r| | |].
      * simpl. split; [|done]. rewrite (hdr_only _ _ _ _ _ Ho2) by lia. rewrite Ea1. simpl.
        do 2 f_equal. lia.
      * rewrite <- Eh1. simpl. rewrite Z.add_0_r. exact EH.
      * exists (total ys). simpl. rewrite Z.add_0_r, Z.add_assoc. by split.
    + apply Forall_app in Hsz as [Hy Hz]. apply Forall_app. split; [done|].
      apply Forall_cons in Hz as [[_ Hm1] Hz]. apply Forall_cons in Hz as [[_ Hm2] Hz].
      apply Forall_cons. split; [|done]. simpl in *. split; [lia|].
      by rewrite Z.add_mod, Hm1, Hm2 by lia.
    + rewrite E6. by apply free_at_merge.
    + rewrite Hus, !used_total_app. done.
  - pose proof (kept_only ys [(s1, false); (s2, false)] zs (bytes h) m2 Hsz) as Hk.
    simpl in Hk. rewrite Z.add_0_r in Hk. by apply Hk.
Qed.

Lemma same_heap_trans h h1 h2 : same_heap h h1 -> same_heap h1 h2 -> same_heap h h2.
Proof. unfold same_heap. intuition congruence. Qed.

(** What both halves of [plug_holes] keep: the allocated blocks, their data,
    and that [lfree] is the lowest free block, if it was. *)
Record plugged (h : heap) (bs : list (Z * bool)) (h' : heap) (bs' : list (Z * bool)) : Prop := {
  pl_pre : heap_pre h' bs';
  pl_same : same_heap h h';
  pl_allocs : allocs 0 bs' = allocs 0 bs;
  pl_kept : kept (allocs 0 bs) (bytes h) (bytes h');
  pl_lowest : lowest 0 bs (lfree h) -> lowest 0 bs' (lfree h');
}.

Lemma plugged_refl h bs : heap_pre h bs -> plugged h bs h bs.
Proof. by constructor. Qed.

Lemma plugged_trans h bs h1 bs1 h2 bs2 :
  plugged h bs h1 bs1 -> plugged h1 bs1 h2 bs2 -> plugged h bs h2 bs2.
Proof.
  intros [P1 S1 A1 K1 L1] [P2 S2 A2 K2 L2]. constructor; [done|..].
  - by eapply same_heap_trans.
  - congruence.
  - rewrite A1 in K2. by eapply kept_trans.
  - auto.
Qed.

Lemma merge_plugged h ys s1 s2 zs :
  heap_pre h (ys ++ (s1, false) :: (s2, false) :: zs) ->
  exists h', merge (total ys) (total ys + s1) h = Some h' /\
    plugged h (ys ++ (s1, false) :: (s2, false) :: zs) h' (ys ++ (s1 + s2, false) :: zs).
Proof.
  intros Hh. destruct (merge_spec h ys s1 s2 zs Hh) as (h' & E & Hp & Hs & Hl & Hk).
  destruct (block_hdr h ys s1 false ((s2, false) :: zs) Hh) as (_ & _ & Hs1 & _).
  exists h'. split; [done|].
  assert (allocs 0 (ys ++ (s1 + s2, false) :: zs) =
          allocs 0 (ys ++ (s1, false) :: (s2, false) :: zs)) as Ea.
  { rewrite !allocs_app. simpl. do 2 f_equal. lia. }
  constructor; [done|done|done| |].
  - rewrite <- Ea, allocs_app. simpl. by rewrite <- Z.add_assoc.
  - intros Hlow. rewrite Hl. apply lowest_merge; [lia|done].
Qed.

Lemma plug_forward h ys s zs :
  heap_pre h (ys ++ (s, false) :: zs) -> no_adj false zs ->
  exists nmem nu h' s' zs', get_next (total ys) h = Some nmem /\ get_used nmem h = Some nu /\
    (if negb (total ys =? nmem) && (nu =? 0) && negb (nmem =? heap_end h)
     then merge (total ys) nmem h else Some h) = Some h' /\
    plugged h (ys ++ (s, false) :: zs) h' (ys ++ (s', false) :: zs') /\ no_adj true zs'.
Proof.
  intros Hh Hna. destruct (block_hdr h ys s false zs Hh) as (Ea & Ha & Hs & Hb).
  destruct (get_fields _ _ _ Ea) as (_ & _ & -> & _). cbn [next].
  destruct (next_hdr h ys s false zs Hh) as (H & EH & _ & Hu & _).
  destruct (get_fields _ _ _ EH) as (_ & EU & _). rewrite Hu in EU.
  exists (total ys + s). destruct zs as [|[s2 u2] zs].
  - eexists _, h, s, []. split; [done|]. split; [exact EU|]. simpl. rewrite andb_false_r. simpl.
    split; [done|]. split; [by apply plugged_refl|done].
  - destruct u2; simpl in EU.
    + eexists _, h, s, ((s2, true) :: zs). split; [done|]. split; [exact EU|]. simpl. rewrite andb_false_r. simpl.
      split; [done|]. split; [by apply plugged_refl|]. split; [done|]. by destruct Hna.
    + destruct (merge_plugged h ys s s2 zs Hh) as (h' & E & Hp).
      destruct (block_hdr h (ys ++ [(s, false)]) s2 false zs) as (_ & _ & Hs2 & Hb2);
        [by rewrite <- app_assoc|]. rewrite total_app in Hb2. simpl in Hb2.
      eexists _, h', (s + s2), zs. split; [done|]. split; [exact EU|].
      rewrite (proj2 (Z.eqb_neq _ _)) by lia. rewrite (proj2 (Z.eqb_neq (total ys + s) _)) by lia.
      simpl. split; [done|]. split; [done|]. by destruct Hna as [_ Hna].
Qed.

Lemma plug_backward h ys s zs :
  heap_pre h (ys ++ (s, false) :: zs) -> no_adj false ys -> no_adj true zs ->
  exists pmem pu h' bs', get_prev (total ys) h = Some pmem /\ get_used pmem h = Some pu /\
    (if negb (pmem =? total ys) && (pu =? 0) then merge pmem (total ys) h else Some h) = Some h' /\
    plugged h (ys ++ (s, false) :: zs) h' bs' /\ no_adj false bs'.
Proof.
  intros Hh Hy Hz. destruct (block_hdr h ys s false zs Hh) as (Ea & Ha & Hs & Hb).
  destruct (get_fields _ _ _ Ea) as (_ & Eu & _ & ->). cbn [used prev] in *.
  destruct ys as [|[s0 u0] ys _] using rev_ind.
  { exists 0, 0, h, ((s, false) :: zs). simpl in *. do 3 (split; [done|]).
    split; [by apply plugged_refl|]. by split. }
  rewrite before_app in *. rewrite total_app in *. simpl in *. rewrite Z.add_0_r in *.
  rewrite <- app_assoc in Hh. simpl in Hh.
  destruct (block_hdr h ys s0 u0 _ Hh) as (Ep & Hp0 & Hs0 & _).
  destruct (get_fields _ _ _ Ep) as (_ & EU & _). cbn [used] in EU.
  exists (total ys), (flagz u0). rewrite <- app_assoc. simpl.
  rewrite (proj2 (Z.eqb_neq (total ys) _)) by lia. simpl.
  apply no_adj_app in Hy as [Hy1 [Hy2 _]]. destruct u0; simpl.
  - exists h, (ys ++ (s0, true) :: (s, false) :: zs). do 3 (split; [done|]).
    split; [by apply plugged_refl|]. apply no_adj_app. simpl. by split_and!.
  - destruct (merge_plugged h ys s0 s zs Hh) as (h' & E & Hp). eexists h', _.
    do 3 (split; [done|]). split; [exact Hp|]. apply no_adj_app. simpl. by split_and!.
Qed.

Lemma plug_holes_spec h ys s zs :
  heap_pre h (ys ++ (s, false) :: zs) -> no_adj false ys -> no_adj false zs ->
  exists h' bs', plug_holes (total ys) h = Some h' /\
    plugged h (ys ++ (s, false) :: zs) h' bs' /\ no_adj false bs'.
Proof.
  intros Hh Hy Hz. unfold plug_holes.
  destruct (block_hdr h ys s false zs Hh) as (Ea & Ha & Hs & Hb).
  rewrite (proj2 (Z.leb_le 0 _)), (proj2 (Z.ltb_lt (total ys) _)) by lia.
  destruct (get_fields _ _ _ Ea) as (_ & -> & _). cbn [RT_ASSERT mbind option_bind used flagz].
  destruct (plug_forward h ys s zs Hh Hz) as (nmem & nu & h1 & s1 & zs1 & -> & EU & E1 & Hp1 & Hz1).
  cbn [RT_ASSERT mbind option_bind]. simpl. rewrite EU. cbn [mbind option_bind]. rewrite E1.
  cbn [mbind option_bind].
  destruct (plug_backward h1 ys s1 zs1 (pl_pre _ _ _ _ Hp1) Hy Hz1)
    as (pmem & pu & h2 & bs2 & -> & EP & E2 & Hp2 & Hn2).
  cbn [mbind option_bind]. rewrite EP. cbn [mbind option_bind]. rewrite E2.
  exists h2, bs2. split; [done|]. split; [by eapply plugged_trans|done].
Qed.

(** ** Splitting a block *)

(** The first four assignments of [split]: a new header at [ptr2]. *)
Lemma new_header h ptr n ptr2 :
  mapped ptr2 (ptr2 + 12) (bytes h) -> get_next ptr h = Some n -> ptr + 12 <= ptr2 ->
  0 <= n < 256 ^ 4 -> 0 <= ptr < 256 ^ 4 ->
  exists m', (h ← set_magic ptr2 HEAP_MAGIC h; h ← set_used ptr2 0 h; n ← get_next ptr h;
              h ← set_next ptr2 n h; set_prev ptr2 ptr h) = Some (set_bytes m' h) /\
    hdr m' ptr2 = Some (mk_hdr HEAP_MAGIC 0 n ptr) /\ only ptr2 (ptr2 + 12) (bytes h) m'.
Proof.
  intros Hm Hn Hp Hnr Hpr. destruct (mapped_hdr _ _ Hm) as [H E].
  destruct (put_magic_spec ptr2 HEAP_MAGIC h H E) as (m1 & -> & E1 & O1); [by vm_compute|].
  cbn [mbind option_bind magic used next prev] in *.
  destruct (put_used_spec ptr2 0 (set_bytes m1 h) _ E1) as (m2 & -> & E2 & O2); [done|].
  cbn [mbind option_bind magic used next prev] in *.
  assert (get_next ptr (set_bytes m2 h) = Some n) as Hn2.
  { rewrite <- Hn. unfold get_next. cbn [bytes set_bytes]. rewrite (load_only _ _ _ _ _ _ O2) by lia.
    cbn [bytes set_bytes]. by rewrite (load_only _ _ _ _ _ _ O1) by lia. }
  change (set_bytes m2 (set_bytes m1 h)) with (set_bytes m2 h). rewrite Hn2.
  cbn [mbind option_bind].
  destruct (put_next_spec ptr2 n (set_bytes m2 h) _ E2) as (m3 & -> & E3 & O3); [lia|].
  cbn [mbind option_bind magic used next prev] in *.
  destruct (put_prev_spec ptr2 ptr (set_bytes m3 h) _ E3) as (m4 & E4' & E4 & O4); [lia|].
  exists m4. split; [exact E4'|]. split; [done|]. cbn [bytes set_bytes] in *.
  do 3 (eapply only_trans; [eassumption|]). done.
Qed.

Lemma split_eq ptr ptr2 use h :
  split ptr ptr2 use h =
  h ← (h ← set_magic ptr2 HEAP_MAGIC h; h ← set_used ptr2 0 h; n ← get_next ptr h;
       h ← set_next ptr2 n h; set_prev ptr2 ptr h);
  h ← set_next ptr ptr2 h;
  h ← (if use then set_used ptr 1 h else Some h);
  n ← get_next ptr2 h;
  if negb (n =? mem_size_aligned h + SIZEOF_STRUCT_MEM) then set_prev n ptr2 h else Some h.
Proof.
  unfold split. destruct (set_magic ptr2 HEAP_MAGIC h) as [h1|]; [|done]. cbn [mbind option_bind].
  destruct (set_used ptr2 0 h1) as [h2|]; [|done]. cbn [mbind option_bind].
  destruct (get_next ptr h2) as [n|]; [|done]. cbn [mbind option_bind].
  by destruct (set_next ptr2 n h2).
Qed.

(** The assignments to the header of the block that is cut. *)
Lemma cut_header h ptr ptr2 H (use : bool) :
  hdr (bytes h) ptr = Some H -> 0 <= ptr2 < 256 ^ 4 ->
  exists m', (h ← set_next ptr ptr2 h; if use then set_used ptr 1 h else Some h) =
      Some (set_bytes m' h) /\
    hdr m' ptr = Some (mk_hdr (magic H) (if use then 1 else used H) ptr2 (prev H)) /\
    only ptr (ptr + 12) (bytes h) m'.
Proof.
  intros E Hp. destruct (put_next_spec ptr ptr2 h H E Hp) as (m1 & -> & E1 & O1).
  cbn [mbind option_bind]. destruct use; [|by exists m1].
  destruct (put_used_spec ptr 1 (set_bytes m1 h) _ E1) as (m2 & -> & E2 & O2); [done|].
  exists m2. simpl in *. split; [done|]. split; [done|]. by eapply only_trans.
Qed.

Lemma end_iff h ys s u zs :
  heap_pre h (ys ++ (s, u) :: zs) -> total ys + s = mem_size_aligned h + 12 <-> zs = [].
Proof.
  intros [_ He _ _ (_ & Ht & _) Hs _ _ _]. rewrite total_app in Ht. simpl in Ht.
  apply Forall_app in Hs as [_ Hs]. apply Forall_cons in Hs as [_ Hz].
  pose proof (sized_total zs Hz). split; [|intros ->; simpl in *; lia].
  intros E. destruct zs; [done|]. simpl in *. lia.
Qed.

Lemma split_spec h ys s1 s2 u zs (use : bool) :
  heap_pre h (ys ++ (s1 + s2, u) :: zs) -> 12 <= s1 -> 12 <= s2 ->
  exists m', split (total ys) (total ys + s1) use h = Some (set_bytes m' h) /\
    chain m' (ys ++ (s1, use || u) :: (s2, false) :: zs) (heap_end h) /\
    only (total ys) (total ys + (s1 + s2) + 12) (bytes h) m' /\
    (forall i, total ys + 12 <= i < total ys + s1 -> m' !! i = bytes h !! i).
Proof.
  intros Hh H1 H2. destruct (block_hdr h ys (s1 + s2) u zs Hh) as (Ea & Ha & Hs & Hb).
  destruct (next_hdr h ys (s1 + s2) u zs Hh) as (H & EH & _).
  destruct (get_fields _ _ _ Ea) as (_ & _ & En & _). cbn [next] in En. rewrite split_eq.
  destruct (new_header h (total ys) (total ys + (s1 + s2)) (total ys + s1)) as (m1 & -> & E1 & O1);
    [|exact En|lia|lia|lia|].
  { intros i Hi. apply (hp_mapped _ _ Hh). lia. }
  cbn [mbind option_bind].
  assert (hdr m1 (total ys) = hdr (bytes h) (total ys)) as Ea1
    by (eapply hdr_only; [exact O1|lia]). rewrite Ea in Ea1.
  destruct (cut_header (set_bytes m1 h) (total ys) (total ys + s1) _ use Ea1)
    as (m2 & E2' & E2 & O2); [lia|].
  cbn [magic used next prev] in E2. simpl bytes in *.
  destruct (set_next (total ys) (total ys + s1) (set_bytes m1 h)) as [h2|]; [|done].
  cbn [mbind option_bind] in E2' |- *. rewrite E2'. cbn [mbind option_bind].
  assert (hdr m2 (total ys + s1) = Some (mk_hdr HEAP_MAGIC 0 (total ys + (s1 + s2)) (total ys)))
    as E3 by (rewrite (hdr_only _ _ _ _ _ O2) by lia; exact E1).
  destruct (get_fields _ (set_bytes m2 (set_bytes m1 h)) _ E3) as (_ & _ & -> & _).
  cbn [mbind option_bind next].
  assert (hdr m2 (total ys + (s1 + s2)) = Some H) as EH2.
  { rewrite (hdr_only _ _ _ _ _ O2), (hdr_only _ _ _ _ _ O1) by lia. exact EH. }
  assert (exists m3, (if negb (total ys + (s1 + s2) =?
        mem_size_aligned (set_bytes m2 (set_bytes m1 h)) + SIZEOF_STRUCT_MEM)
      then set_prev (total ys + (s1 + s2)) (total ys + s1) (set_bytes m2 (set_bytes m1 h))
      else Some (set_bytes m2 (set_bytes m1 h))) = Some (set_bytes m3 h) /\
      only (total ys + (s1 + s2)) (total ys + (s1 + s2) + 12) m2 m3 /\
      exists v, hdr m3 (total ys + (s1 + s2)) = Some (mk_hdr (magic H) (used H) (next H) v) /\
        (zs <> [] -> v = total ys + s1)) as (m3 & E3' & O3 & v & EH3 & Hv).
  { destruct (Z.eqb_spec (total ys + (s1 + s2))
      (mem_size_aligned (set_bytes m2 (set_bytes m1 h)) + SIZEOF_STRUCT_MEM)) as [Hz|Hz]; simpl in Hz |- *.
    - apply (end_iff h ys (s1 + s2) u zs) in Hz as ->; [|done]. exists m2. split; [done|].
      split; [apply only_refl|]. exists (prev H). split; [|done]. by destruct H.
    - destruct (put_prev_spec (total ys + (s1 + s2)) (total ys + s1)
        (set_bytes m2 (set_bytes m1 h)) H EH2) as (m3 & -> & E & O); [lia|].
      exists m3. split; [done|]. split; [done|]. eauto. }
  exists m3. split; [exact E3'|].
  assert (only (total ys) (total ys + (s1 + s2) + 12) (bytes h) m3) as Ho.
  { eapply only_trans; [eapply only_weaken; [exact O1|lia|lia]|].
    eapply only_trans; (eapply only_weaken; [eassumption|lia|lia]). }
  split; [|split; [done|]].
  - eapply (chain_replace (bytes h) m3 ys [(s1 + s2, u)] [(s1, use || u); (s2, false)] zs _ H).
    + apply (hp_chain _ _ Hh).
    + apply (hp_sized _ _ Hh).
    + simpl. lia.
    + simpl. by rewrite Z.add_0_r.
    + simpl. rewrite !(hdr_only _ _ _ _ _ O3) by lia. split; [|split; [|done]].
      * rewrite E2. f_equal. by destruct use, u.
      * rewrite E3. do 2 f_equal. lia.
    + simpl. by rewrite Z.add_0_r.
    + exists v. simpl. rewrite Z.add_0_r. done.
  - intros i Hi. rewrite (proj2 O3), (proj2 O2), (proj2 O1) by lia. done.
Qed.

(** Rewriting one header in place. *)
Lemma chain_flip m m' ys s u u' zs e :
  chain m (ys ++ (s, u) :: zs) e -> sized (ys ++ (s, u) :: zs) ->
  only (total ys) (total ys + 12) m m' ->
  hdr m' (total ys) = Some (mk_hdr HEAP_MAGIC (flagz u') (total ys + s) (before 0 0 ys)) ->
  chain m' (ys ++ (s, u') :: zs) e.
Proof.
  intros Hch Hs Ho E. destruct (chain_next m ys [(s, u)] zs e Hch) as (H & EH & _ & _ & _ & Hp).
  pose proof Hs as Hs'. apply Forall_app in Hs' as [_ Hs']. apply Forall_cons in Hs' as [[Hs12 _] _].
  simpl in *. eapply (chain_replace m m' ys [(s, u)] [(s, u')] zs e H); simpl; try done.
  - eapply only_weaken; [exact Ho|lia|lia].
  - exists (prev H). rewrite (hdr_only _ _ _ _ _ Ho) by lia. rewrite EH. split; [by destruct H|done].
Qed.

Lemma sized_insert ys mid zs mid' :
  sized (ys ++ mid ++ zs) -> sized mid' -> sized (ys ++ mid' ++ zs).
Proof. unfold sized. rewrite !Forall_app. naive_solver. Qed.

Lemma lowest_used p ys x y : sized ys -> lowest p ys x -> p + total ys <= x -> lowest p ys y.
Proof.
  intros Hs. revert p. induction Hs as [|[s u] ys [Hb _] Hs IH]; intros p; simpl in *; [done|].
  pose proof (sized_total ys Hs). intros [Hu Hl] Hx. split; [|apply IH; [done|lia]].
  intros Hf. specialize (Hu Hf). lia.
Qed.

(** ** The lowest-free pointer *)

Lemma lfree_loop_spec zs : forall fuel ys h,
  chain (bytes h) (ys ++ zs) (heap_end h) -> sized (ys ++ zs) -> lfree h = total ys ->
  (length zs <= fuel)%nat ->
  exists x u, lfree_loop fuel h = Some (set_lfree x h) /\ get_used x h = Some u /\
    (x = heap_end h \/ u = 0) /\
    free_at (total ys) zs x /\ lowest (total ys) zs x /\ total ys <= x.
Proof.
  induction zs as [|[s b] zs IH]; intros fuel ys h Hch Hs Hl Hf.
  - rewrite app_nil_r in *. pose proof Hch as (_ & Ht & [v Hend]).
    destruct (get_fields _ _ _ Hend) as (_ & Eu & _). cbn [used] in Eu.
    exists (heap_end h), 1. split; [|split_and!; simpl; auto; lia].
    destruct fuel; cbn [lfree_loop]; rewrite Hl, Ht, Eu; cbn [mbind option_bind];
      rewrite Z.eqb_refl; simpl; f_equal; rewrite <- Ht, <- Hl; by destruct h.
  - destruct (chain_next (bytes h) ys [] ((s, b) :: zs) _ Hch) as (H & E & _ & Hu & Hn & _).
    simpl in E. rewrite Z.add_0_r in E. destruct (get_fields _ _ _ E) as (_ & Eu & En & _).
    rewrite Hu in Eu. rewrite Hn in En. simpl in En. rewrite Z.add_0_r in En.
    pose proof Hs as Hs'. apply Forall_app in Hs' as [_ Hs'].
    apply Forall_cons in Hs' as [[Hs12 _] Hz]. simpl in Hs12. destruct b; simpl in Eu.
    + destruct fuel as [|fuel]; [simpl in Hf; lia|]. cbn [lfree_loop]. rewrite Hl, Eu.
      cbn [mbind option_bind].
      assert (total ys <> heap_end h) as Hne.
      { destruct Hch as (_ & Ht & _). rewrite total_app in Ht. simpl in Ht.
        pose proof (sized_total zs Hz). lia. }
      rewrite (proj2 (Z.eqb_neq _ _) Hne). simpl. rewrite En. cbn [mbind option_bind].
      destruct (IH fuel (ys ++ [(s, true)]) (set_lfree (total ys + s) h))
        as (x & u & E1 & E2 & E3 & E4 & E5 & E6).
      { by rewrite <- app_assoc. }
      { by rewrite <- app_assoc. }
      { simpl. rewrite total_app. simpl. lia. }
      { simpl in Hf. lia. }
      rewrite total_app in E4, E5, E6. simpl in E4, E5, E6. rewrite Z.add_0_r in E4, E5, E6.
      exists x, u. rewrite E1. split; [done|]. split; [done|]. split; [done|].
      split; [by right|]. split; [done|]. lia.
    + exists (total ys), 0. split; [|split_and!; auto; [by left| |lia]].
      * destruct fuel; cbn [lfree_loop]; rewrite Hl, Eu; cbn [mbind option_bind]; simpl;
          f_equal; rewrite <- Hl; by destruct h.
      * apply lowest_above; [|lia]. apply Forall_app in Hs as [_ Hs]. done.
Qed.

(** After the block at [total ys] was given away, [lfree] moves on if it was
    there. *)
Lemma relocate_spec h ys s s1 rest zs :
  chain (bytes h) (ys ++ ((s1, true) :: rest) ++ zs) (heap_end h) ->
  sized (ys ++ ((s1, true) :: rest) ++ zs) -> total ((s1, true) :: rest) = s ->
  free_at 0 (ys ++ (s, false) :: zs) (lfree h) ->
  exists x, relocate (total ys) h = Some (set_lfree x h) /\
    free_at 0 (ys ++ ((s1, true) :: rest) ++ zs) x /\
    (lowest 0 (ys ++ (s, false) :: zs) (lfree h) ->
     lowest 0 (ys ++ ((s1, true) :: rest) ++ zs) x).
Proof.
  intros Hch Hs Ht Hfree. unfold relocate. destruct (Z.eqb_spec (total ys) (lfree h)) as [E|E].
  - destruct (lfree_loop_spec (((s1, true) :: rest) ++ zs) (Z.to_nat (heap_end h)) ys h)
      as (x & u & -> & Eu & Hx & Hf & Hlo & Hge); try done.
    { destruct Hch as (_ & Et & _). pose proof (sized_total _ Hs) as Hl. rewrite Et in Hl.
      rewrite length_app in Hl. lia. }
    cbn [mbind option_bind]. change (lfree (set_lfree x h)) with x.
    change (get_used x (set_lfree x h)) with (get_used x h). rewrite Eu. cbn [mbind option_bind].
    assert ((x =? heap_end (set_lfree x h)) || (u =? 0) = true) as ->.
    { destruct Hx as [->| ->]; simpl; [by rewrite Z.eqb_refl|apply orb_true_r]. }
    cbn [RT_ASSERT mbind option_bind]. exists x. split; [done|].
    rewrite free_at_app, !(lowest_app 0 ys), Z.add_0_l. split; [by right|].
    intros [Hy _]. split; [|done]. apply Forall_app in Hs as [Hsy _].
    eapply lowest_used; [done|exact Hy|lia].
  - exists (lfree h). split; [by destruct h|]. revert Hfree.
    rewrite !(free_at_app 0 ys), !(lowest_app 0 ys), !Z.add_0_l. simpl in Ht. simpl.
    rewrite free_at_app, lowest_app.
    replace (total ys + s1 + total rest) with (total ys + s) by lia.
    apply Forall_app in Hs as [_ Hs]. simpl in Hs. apply Forall_cons in Hs as [[Hs1 _] Hs].
    apply Forall_app in Hs as [Hsr _]. simpl in Hs1. intros Hfree. split.
    + destruct Hfree as [?|[[? _]|?]]; [by left|congruence|by right; right; right].
    + intros (Hy & Hu & Hz). specialize (Hu eq_refl). split_and!; try done.
      apply lowest_above; [done|lia].
Qed.

(** ** Allocation *)

Lemma land_3 x : Z.land x (RT_ALIGN_SIZE - 1) = x mod 4.
Proof. change (RT_ALIGN_SIZE - 1) with (Z.ones 2). by rewrite Z.land_ones by lia. Qed.

(** The three assertions at the end of [rt_malloc]. *)
Lemma malloc_asserts h ptr size :
  heap_ptr h mod 4 = 0 -> ptr mod 4 = 0 -> ptr + 12 + size <= heap_end h ->
  (let mem := heap_ptr h + ptr in
   _ ← RT_ASSERT (mem + SIZEOF_STRUCT_MEM + size <=? heap_ptr h + heap_end h);
   _ ← RT_ASSERT ((mem + SIZEOF_STRUCT_MEM) mod RT_ALIGN_SIZE =? 0);
   _ ← RT_ASSERT (Z.land mem (RT_ALIGN_SIZE - 1) =? 0);
   Some (h, mem + SIZEOF_STRUCT_MEM)) = Some (h, heap_ptr h + ptr + 12).
Proof.
  intros Ha Hp Hs. cbn zeta. rewrite land_3. unfold SIZEOF_STRUCT_MEM, RT_ALIGN_SIZE.
  assert ((heap_ptr h + ptr) mod 4 = 0) as E by (by rewrite Z.add_mod, Ha, Hp by lia).
  assert ((heap_ptr h + ptr + 12) mod 4 = 0) as E2 by (by rewrite Z.add_mod, E by lia).
  rewrite (proj2 (Z.leb_le _ _)), E, E2 by lia. done.
Qed.

(** The block list after block [s] behind [ys] was given out for [size] bytes. *)
Definition taken (ys : list (Z * bool)) (s size : Z) (zs : list (Z * bool)) : list (Z * bool) :=
  if size + 24 <=? s - 12 then ys ++ [(size + 12, true); (s - (size + 12), false)] ++ zs
  else ys ++ [(s, true)] ++ zs.

Definition taken_size (s size : Z) : Z := if size + 24 <=? s - 12 then size + 12 else s.

(** The headers and statistics, before [lfree] is looked at. *)
Lemma take_headers h ys s size zs :
  heap_pre h (ys ++ (s, false) :: zs) -> 12 <= size -> size mod 4 = 0 -> size + 12 <= s ->
  exists m, (if u32 (size + SIZEOF_STRUCT_MEM + MIN_SIZE_ALIGNED) <=?
        u32 (total ys + s - (total ys + SIZEOF_STRUCT_MEM)) then
       h ← split (total ys) (total ys + SIZEOF_STRUCT_MEM + size) true h;
       Some (account (size + SIZEOF_STRUCT_MEM) h)
     else
       h ← set_used (total ys) 1 h;
       Some (account (total ys + s - total ys) h)) =
    Some (account (taken_size s size) (set_bytes m h)) /\
    chain m (taken ys s size zs) (heap_end h) /\ sized (taken ys s size zs) /\
    only (total ys) (total ys + s + 12) (bytes h) m.
Proof.
  intros Hh H12 H4 Hfit. destruct (block_hdr h ys s false zs Hh) as (Ea & Ha & Hs & Hb).
  pose proof (hp_sized _ _ Hh) as Hsz. pose proof Hsz as Hsz'.
  apply Forall_app in Hsz' as [_ Hsz']. apply Forall_cons in Hsz' as [[_ Hs4] _]. simpl in Hs4.
  unfold SIZEOF_STRUCT_MEM, MIN_SIZE_ALIGNED, taken, taken_size.
  rewrite !wrapu_small by lia. replace (size + 12 + 12) with (size + 24) by lia.
  replace (total ys + s - (total ys + 12)) with (s - 12) by lia.
  destruct (Z.leb_spec (size + 24) (s - 12)).
  - destruct (split_spec h ys (size + 12) (s - (size + 12)) false zs true) as (m & E & Hch & Ho & _);
      [|lia|lia|]. { by replace (size + 12 + (s - (size + 12))) with s by lia. }
    replace (total ys + 12 + size) with (total ys + (size + 12)) by lia. rewrite E.
    cbn [mbind option_bind]. exists m. split; [done|]. split; [done|].
    replace (size + 12 + (s - (size + 12))) with s in Ho by lia. split; [|done].
    apply (sized_insert ys [(s, false)] zs); [exact Hsz|]. repeat constructor; simpl; try lia; zlia.
  - destruct (put_used_spec (total ys) 1 h _ Ea) as (m & -> & E & Ho); [done|].
    cbn [mbind option_bind magic used next prev] in *. exists m.
    replace (total ys + s - total ys) with s by lia. split; [done|].
    split; [|split; [|eapply only_weaken; [exact Ho|lia|lia]]].
    + by eapply chain_flip; [apply Hh|done|exact Ho|].
    + apply (sized_insert ys [(s, false)] zs); [exact Hsz|]. repeat constructor; simpl; [lia|done].
Qed.

Lemma taken_allocs ys s size zs :
  allocs 0 (taken ys s size zs) =
  allocs 0 ys ++ (total ys, taken_size s size) :: allocs (total ys + s) zs.
Proof.
  unfold taken, taken_size. case_bool; rewrite allocs_app, Z.add_0_l; simpl; [|done].
  do 3 f_equal. lia.
Qed.

Lemma taken_used ys s size zs :
  used_total (taken ys s size zs) = used_total (ys ++ (s, false) :: zs) + taken_size s size.
Proof. unfold taken, taken_size. case_bool; rewrite !used_total_app; simpl; lia. Qed.

Lemma taken_no_adj ys s size zs :
  no_adj false (ys ++ (s, false) :: zs) -> no_adj false (taken ys s size zs).
Proof.
  rewrite no_adj_app. simpl. intros (Hy & _ & Hz). unfold taken.
  case_bool; rewrite no_adj_app; simpl; split_and!; try done. by apply no_adj_weaken.
Qed.

(** [taken] as the part of the list that [relocate] walks over. *)
Lemma taken_parts ys s size zs :
  exists rest, taken ys s size zs = ys ++ ((taken_size s size, true) :: rest) ++ zs /\
    total ((taken_size s size, true) :: rest) = s.
Proof.
  unfold taken, taken_size. case_bool.
  - exists [(s - (size + 12), false)]. split; [done|]. simpl. lia.
  - exists []. split; [done|]. simpl. lia.
Qed.

Lemma account_eq n h bs :
  heap_end h < 2 ^ 32 -> sized bs -> total bs = heap_end h -> used_mem h + n = used_total bs ->
  used_mem (account n h) = used_total bs /\ used_mem (account n h) <= max_mem (account n h).
Proof.
  intros He Hs Ht Hu. pose proof (used_total_range bs Hs). unfold account. simpl.
  rewrite wrapu_small by lia. split; [done|]. case_bool; lia.
Qed.

Lemma malloc_take_spec h ys s size zs :
  heap_wf h (ys ++ (s, false) :: zs) -> 12 <= size -> size mod 4 = 0 -> size + 12 <= s ->
  exists h', malloc_take size (total ys) h = Some (h', heap_ptr h + total ys + 12) /\
    heap_wf h' (taken ys s size zs) /\ same_heap h h' /\
    kept (allocs 0 (ys ++ (s, false) :: zs)) (bytes h) (bytes h') /\
    (lowest 0 (ys ++ (s, false) :: zs) (lfree h) -> lowest 0 (taken ys s size zs) (lfree h')).
Proof.
  intros [Hh Hna] H12 H4 Hfit. destruct (block_hdr h ys s false zs Hh) as (Ea & Ha & Hs & Hb).
  pose proof Hh as [Hptr Hend Hmsa Hmap Hch0 Hsz Hlf Hus Hmx].
  destruct (get_fields _ _ _ Ea) as (_ & _ & En & _). cbn [next] in En.
  unfold malloc_take. rewrite En. cbn [mbind option_bind].
  destruct (take_headers h ys s size zs Hh H12 H4 Hfit) as (m & -> & Hch & Hsz' & Ho).
  cbn [mbind option_bind]. destruct (taken_parts ys s size zs) as (rest & Et & Es).
  set (h1 := account (taken_size s size) (set_bytes m h)).
  assert (hdr m (total ys) =
    Some (mk_hdr HEAP_MAGIC 1 (total ys + taken_size s size) (before 0 0 ys))) as Em.
  { rewrite Et in Hch. destruct Hch as (Hseg & _). rewrite seg_app in Hseg.
    rewrite Z.add_0_l in Hseg. apply Hseg. }
  destruct (put_magic_spec (total ys) HEAP_MAGIC h1 _ Em) as (m2 & -> & Em2 & Ho2);
    [by vm_compute|]. cbn [mbind option_bind magic used next prev] in *.
  change (bytes h1) with m in Ho2.
  assert (chain m2 (taken ys s size zs) (heap_end h)) as Hch2.
  { rewrite Et in Hch, Hsz' |- *. eapply chain_flip; [exact Hch|exact Hsz'|exact Ho2|exact Em2]. }
  destruct (relocate_spec (set_bytes m2 h1) ys s (taken_size s size) rest zs)
    as (x & -> & Hfree & Hlow); [by rewrite <- Et|by rewrite <- Et|done|done|].
  rewrite <- Et in Hfree, Hlow. cbn [mbind option_bind].
  rewrite malloc_asserts; simpl; [|by destruct Hptr as (_ & ? & _)| |lia].
  2: { apply sized_aligned. by apply Forall_app in Hsz as [? _]. }
  eexists. split; [done|].
  assert (only (total ys) (total ys + s + 12) (bytes h) m2) as Ho3.
  { eapply only_trans; [exact Ho|]. eapply only_weaken; [exact Ho2|lia|lia]. }
  destruct (account_eq (taken_size s size) (set_bytes m h) (taken ys s size zs)) as [Eu Emx];
    [simpl; lia|done|by apply Hch|simpl; rewrite Hus; symmetry; apply taken_used|].
  split; [split; [constructor; simpl; try done|by apply taken_no_adj]|].
  - by eapply only_mapped.
  - split; [done|]. split; [|done]. rewrite allocs_app, Z.add_0_l. simpl.
    pose proof (kept_only ys [(s, false)] zs (bytes h) m2 Hsz) as Hk. simpl in Hk.
    rewrite Z.add_0_r in Hk. by apply Hk.
Qed.

(** No free block of [bs] takes [size] bytes, except that a block at the very
    end of the heap is not used for an exact fit. *)
Fixpoint nofit (p : Z) (bs : list (Z * bool)) (size e : Z) : Prop :=
  match bs with
  | [] => True
  | (t, u) :: bs =>
      (u = false -> t - 12 < size \/ (t - 12 = size /\ p + t = e)) /\ nofit (p + t) bs size e
  end.

Lemma nofit_app p ys zs size e :
  nofit p (ys ++ zs) size e <-> nofit p ys size e /\ nofit (p + total ys) zs size e.
Proof.
  revert p. induction ys as [|[s u] ys IH]; intros p; simpl.
  - replace (p + 0) with p by lia. naive_solver.
  - rewrite IH. replace (p + s + total ys) with (p + (s + total ys)) by lia. naive_solver.
Qed.

(** Past the bound of the search loop nothing fits. *)
Lemma nofit_bound p bs size e : sized bs -> p + total bs = e -> e - 12 - size <= p -> nofit p bs size e.
Proof.
  intros Hs. revert p. induction Hs as [|[t u] bs [Ht _] Hs IH]; intros p He Hp; simpl in *; [done|].
  pose proof (sized_total bs Hs). split; [intros _; lia|]. apply IH; lia.
Qed.

(** Where nothing is free, nothing fits. *)
Lemma nofit_lowest p ys x size e :
  sized ys -> lowest p ys x -> p + total ys <= x -> nofit p ys size e.
Proof.
  intros Hs. revert p. induction Hs as [|[s u] ys [Hb _] Hs IH]; intros p; simpl in *; [done|].
  pose proof (sized_total ys Hs). intros [Hu Hl] Hx. split; [|apply IH; [done|lia]].
  intros Hf. specialize (Hu Hf). lia.
Qed.

(** The outcome of an allocation of [size] bytes (a multiple of 4, at least 12). *)
Definition allocated (size : Z) (h : heap) (bs : list (Z * bool)) (h' : heap) (p : Z) : Prop :=
  exists ys s zs, bs = ys ++ (s, false) :: zs /\ size + 12 <= s /\
    p = heap_ptr h + total ys + 12 /\ heap_wf h' (taken ys s size zs) /\ same_heap h h' /\
    kept (allocs 0 bs) (bytes h) (bytes h') /\
    (lowest 0 bs (lfree h) -> lowest 0 (taken ys s size zs) (lfree h')).

Lemma malloc_loop_spec size zs : forall fuel ys h,
  heap_wf h (ys ++ zs) -> 12 <= size <= mem_size_aligned h -> size mod 4 = 0 ->
  (length zs <= fuel)%nat ->
  exists h' p, malloc_loop fuel size (total ys) h = Some (h', p) /\
    ((p = 0 /\ h' = h /\ nofit (total ys) zs size (heap_end h)) \/
     allocated size h (ys ++ zs) h' p).
Proof.
  induction zs as [|[s u] zs IH]; intros fuel ys h Hw Hsize H4 Hf; pose proof Hw as [Hh _];
    pose proof Hh as [Hptr Hend Hmsa Hmap (_ & Ht & _) Hsz Hlf Hus Hmx].
  - rewrite app_nil_r in Ht. exists h, 0. split; [|by left].
    destruct fuel; cbn [malloc_loop]; rewrite wrapu_small by lia;
      by rewrite (proj2 (Z.ltb_ge _ _)) by lia.
  - destruct (block_hdr h ys s u zs Hh) as (Ea & Ha & Hs & Hb).
    assert (sized ((s, u) :: zs)) as Hsz2 by (by apply Forall_app in Hsz as [_ ?]).
    destruct fuel as [|fuel]; [simpl in Hf; lia|]. cbn [malloc_loop].
    rewrite wrapu_small by lia. destruct (Z.ltb_spec (total ys) (mem_size_aligned h - size)).
    2: { exists h, 0. split; [done|]. left. do 2 (split; [done|]).
         rewrite total_app in Ht. apply nofit_bound; [done|lia|lia]. }
    destruct (get_fields _ _ _ Ea) as (_ & -> & -> & _). cbn [mbind option_bind used next].
    unfold SIZEOF_STRUCT_MEM. rewrite wrapu_small by lia.
    replace (total ys + s - (total ys + 12)) with (s - 12) by lia.
    destruct (IH fuel (ys ++ [(s, u)]) h) as (h2 & p2 & E & R);
      [by rewrite <- app_assoc|done|done|simpl in Hf; lia|].
    rewrite total_app in E, R. simpl in E, R. rewrite Z.add_0_r in E, R.
    rewrite <- app_assoc in R. simpl in R.
    destruct (decide (u = false /\ size <= s - 12)) as [[-> Hfit]|Hno].
    + rewrite (proj2 (Z.leb_le _ _) Hfit). simpl.
      destruct (malloc_take_spec h ys s size zs Hw) as (h' & -> & R'); [lia|done|lia|].
      do 2 eexists. split; [done|]. right. exists ys, s, zs.
      split; [done|]. split; [lia|]. by split.
    + assert ((flagz u =? 0) && (size <=? s - 12) = false) as ->.
      { destruct u; [done|]. simpl. apply Z.leb_gt. destruct (decide (size <= s - 12)); [|lia].
        exfalso. by apply Hno. }
      exists h2, p2. split; [exact E|]. destruct R as [(-> & -> & R)|R]; [left|by right].
      do 2 (split; [done|]). split; [|done]. intros ->. left.
      destruct (decide (size <= s - 12)); [exfalso; by apply Hno|lia].
Qed.

(** The size [rt_malloc] looks for. *)
Definition request (n : Z) : Z := Z.max 12 ((n + 3) / 4 * 4).

Lemma free_at_split p bs x :
  free_at p bs x -> exists ys zs, bs = ys ++ zs /\ x = p + total ys.
Proof.
  revert p. induction bs as [|[s u] bs IH]; intros p; simpl.
  - intros ->. exists [], []. split; [done|simpl; lia].
  - intros [[-> _]|(ys & zs & -> & ->)%IH]; [exists [], ((s, u) :: bs); split; [done|simpl; lia]|].
    exists ((s, u) :: ys), zs. split; [done|simpl; lia].
Qed.

Lemma malloc_spec h bs n :
  heap_wf h bs -> 0 < n <= 2 ^ 32 - 4 ->
  exists h' p, rt_malloc n h = Some (h', p) /\
    ((p = 0 /\ h' = h /\
      (lowest 0 bs (lfree h) -> nofit 0 bs (request n) (heap_end h))) \/
     allocated (request n) h bs h' p).
Proof.
  intros Hw Hn. pose proof Hw as [[Hptr Hend Hmsa _ (_ & Ht & _) Hsz Hlf _ _] _].
  unfold rt_malloc. rewrite (proj2 (Z.eqb_neq n 0)) by lia.
  change RT_ALIGN_SIZE with 4. rewrite RT_ALIGN_4 by lia.
  assert ((if (n + 3) / 4 * 4 <? MIN_SIZE_ALIGNED then MIN_SIZE_ALIGNED else (n + 3) / 4 * 4) =
          request n) as -> by (unfold request, MIN_SIZE_ALIGNED; case_bool; lia).
  destruct (Z.ltb_spec (mem_size_aligned h) ((n + 3) / 4 * 4)) as [Hbig|Hle].
  - exists h, 0. split; [done|]. left. do 2 (split; [done|]). intros _.
    apply nofit_bound; [done|lia|unfold request; lia].
  - destruct (free_at_split 0 bs _ Hlf) as (ys & zs & -> & El). rewrite Z.add_0_l in El.
    destruct (malloc_loop_spec (request n) zs (Z.to_nat (heap_end h)) ys h Hw)
      as (h' & p & E & R).
    + unfold request. lia.
    + unfold request. destruct (Z.max_spec 12 ((n + 3) / 4 * 4)) as [[_ ->]|[_ ->]];
        [apply Z.mod_mul; lia|done].
    + pose proof (sized_total _ Hsz) as Hl. rewrite Ht, length_app in Hl. lia.
    + rewrite El. exists h', p. split; [done|].
      destruct R as [(-> & -> & Hno)|R]; [left|by right]. do 2 (split; [done|]).
      intros Hlow. apply nofit_app. rewrite lowest_app in Hlow.
      apply Forall_app in Hsz as [Hsy _]. split; [|done].
      eapply nofit_lowest; [done|apply Hlow|lia].
Qed.

(** ** Release *)

Lemma release_spec h ys s zs :
  heap_pre h (ys ++ (s, true) :: zs) ->
  exists h', release (total ys) h = Some h' /\ heap_pre h' (ys ++ (s, false) :: zs) /\
    same_heap h h' /\
    kept (allocs 0 (ys ++ (s, false) :: zs)) (bytes h) (bytes h') /\
    (lowest 0 (ys ++ (s, true) :: zs) (lfree h) ->
     lowest 0 (ys ++ (s, false) :: zs) (lfree h')).
Proof.
  intros Hh. destruct (block_hdr h ys s true zs Hh) as (Ea & Ha & Hs & Hb).
  pose proof Hh as [Hptr Hend Hmsa Hmap Hch Hsz Hlf Hus Hmx]. unfold release.
  destruct (put_used_spec _ 0 h _ Ea) as (m1 & -> & E1 & O1); [done|].
  cbn [mbind option_bind magic used next prev] in *.
  destruct (put_magic_spec _ HEAP_MAGIC (set_bytes m1 h) _ E1) as (m2 & -> & E2 & O2); [by vm_compute|].
  cbn [mbind option_bind magic used next prev bytes set_bytes] in *.
  change (set_bytes m2 (set_bytes m1 h)) with (set_bytes m2 h). cbn zeta.
  set (h2 := if total ys <? lfree (set_bytes m2 h) then set_lfree (total ys) (set_bytes m2 h)
             else set_bytes m2 h).
  assert (bytes h2 = m2 /\ heap_ptr h2 = heap_ptr h /\ heap_end h2 = heap_end h /\
    mem_size_aligned h2 = mem_size_aligned h /\ used_mem h2 = used_mem h /\
    max_mem h2 = max_mem h /\ lfree h2 = Z.min (total ys) (lfree h))
    as (B1 & B2 & B3 & B4 & B5 & B6 & B7).
  { unfold h2. simpl. destruct (Z.ltb_spec (total ys) (lfree h)); simpl; split_and!; lia || done. }
  assert (hdr (bytes h2) (total ys) = Some (mk_hdr HEAP_MAGIC 0 (total ys + s) (before 0 0 ys)))
    as E3 by (by rewrite B1).
  destruct (get_fields _ _ _ E3) as (_ & _ & -> & _). cbn [mbind option_bind next].
  eexists. split; [done|].
  assert (only (total ys) (total ys + 12) (bytes h) m2) as Ho by (by eapply only_trans).
  rewrite used_total_app in Hus. simpl in Hus.
  assert (0 <= used_total ys /\ 0 <= used_total zs) as [? ?].
  { apply Forall_app in Hsz as [Hy Hz]. apply Forall_cons in Hz as [_ Hz].
    split; by apply used_total_range. }
  assert (used_total (ys ++ (s, true) :: zs) < 2 ^ 32) as Hlt.
  { pose proof (used_total_range _ Hsz). destruct Hch as (_ & Ht & _). lia. }
  rewrite used_total_app in Hlt. simpl in Hlt.
  assert (u32 (used_mem h2 - (total ys + s - total ys)) = used_mem h - s) as Eu.
  { rewrite B5, wrapu_small by lia. lia. }
  split; [constructor; simpl; rewrite ?B1, ?B2, ?B3, ?B4, ?Eu, ?B6, ?B7; try done|].
  - by eapply only_mapped.
  - by eapply chain_flip.
  - apply (sized_insert ys [(s, true)] zs [(s, false)]) in Hsz; [done|].
    apply Forall_app in Hsz as [_ Hsz]. apply Forall_cons in Hsz as [Hsz _]. constructor; [exact Hsz|constructor].
  - rewrite free_at_app in Hlf |- *. rewrite Z.add_0_l in Hlf |- *. simpl in Hlf |- *.
    destruct (Z.min_spec (total ys) (lfree h)) as [[_ ->]|[_ ->]]; naive_solver.
  - rewrite used_total_app. simpl. lia.
  - lia.
  - split; [done|]. split.
    + rewrite allocs_app, Z.add_0_l. simpl. rewrite B1.
      pose proof (kept_only ys [(s, true)] zs (bytes h) m2 Hsz) as Hk. simpl in Hk.
      rewrite Z.add_0_r in Hk. apply Hk. eapply only_weaken; [exact Ho|lia|lia].
    + simpl. rewrite B7, !lowest_app, !Z.add_0_l. simpl. intros (Hy & _ & Hz).
      split_and!; [eapply lowest_le; [exact Hy|lia]|lia|eapply lowest_le; [exact Hz|lia]].
Qed.

Lemma free_spec h bs A a s B :
  heap_wf h bs -> allocs 0 bs = A ++ (a, s) :: B ->
  exists h' bs', rt_free (heap_ptr h + a + 12) h = Some h' /\ heap_wf h' bs' /\
    same_heap h h' /\ allocs 0 bs' = A ++ B /\ kept (A ++ B) (bytes h) (bytes h') /\
    (lowest 0 bs (lfree h) -> lowest 0 bs' (lfree h')).
Proof.
  intros [Hh Hna] Ha. apply allocs_split in Ha as (ys & zs & -> & -> & -> & ->).
  rewrite Z.add_0_l. destruct (block_hdr h ys s true zs Hh) as (Ea & H0 & Hs & Hb).
  pose proof Hh as [(Hp0 & Hp4 & Hp) _ _ _ _ Hsz _ _ _].
  assert (total ys mod 4 = 0) as Hy4.
  { apply sized_aligned. by apply Forall_app in Hsz as [? _]. }
  unfold rt_free. rewrite (proj2 (Z.eqb_neq _ 0)) by lia. rewrite land_3.
  assert ((heap_ptr h + total ys + 12) mod 4 = 0) as -> by zlia.
  unfold in_heap. rewrite (proj2 (Z.leb_le _ _)), (proj2 (Z.ltb_lt _ _)) by lia.
  cbn [Z.eqb RT_ASSERT andb mbind option_bind]. cbn zeta. unfold SIZEOF_STRUCT_MEM.
  replace (heap_ptr h + total ys + 12 - 12 - heap_ptr h) with (total ys) by lia.
  destruct (get_fields _ _ _ Ea) as (-> & -> & _). cbn [mbind option_bind magic used flagz].
  rewrite Z.eqb_refl. cbn [Z.eqb negb RT_ASSERT mbind option_bind].
  destruct (release_spec h ys s zs Hh) as (h1 & -> & Hh1 & Hs1 & Hk1 & Hl1).
  cbn [mbind option_bind]. apply no_adj_app in Hna as [Hny [_ Hnz]].
  destruct (plug_holes_spec h1 ys s zs Hh1 Hny) as (h2 & bs2 & -> & Hp2 & Hn2); [done|].
  destruct Hp2 as [Hh2 Hs2 Ha2 Hk2 Hl2]. exists h2, bs2. split; [done|].
  assert (allocs 0 (ys ++ (s, false) :: zs) = allocs 0 ys ++ allocs (total ys + s) zs) as Eal.
  { by rewrite allocs_app, Z.add_0_l. }
  rewrite Eal in Hk1, Hk2, Ha2. split; [done|]. split; [by eapply same_heap_trans|].
  split; [done|]. split; [by eapply kept_trans|]. auto.
Qed.

(** ** Writing into allocated blocks *)

Lemma allocs_disjoint p bs X a s Y b t :
  sized bs -> allocs p bs = X ++ (a, s) :: Y -> (b, t) ∈ X ++ Y -> b + t <= a \/ a + s <= b.
Proof.
  intros Hs E Hin. apply allocs_split in E as (ys & zs & -> & -> & -> & ->).
  apply Forall_app in Hs as [Hy Hz]. apply Forall_cons in Hz as [_ Hz].
  apply elem_of_app in Hin as [Hin|Hin]; apply allocs_range in Hin; lia || done.
Qed.

(** What the owner of a block writes into it concerns nobody else. *)
Lemma data_write h bs X a s Y m :
  heap_wf h bs -> allocs 0 bs = X ++ (a, s) :: Y -> only (a + 12) (a + s) (bytes h) m ->
  heap_wf (set_bytes m h) bs /\ kept (X ++ Y) (bytes h) m.
Proof.
  intros [Hh Hna] E Ho. split.
  - apply allocs_split in E as (ys & zs & -> & -> & -> & ->). rewrite Z.add_0_l in Ho.
    destruct (block_hdr h ys s true zs Hh) as (Ea & H0 & Hs & Hb).
    pose proof Hh as [? ? ? ? (Hseg & Ht & Hend) Hsz ? ? ?]. split; [|done].
    constructor; simpl; try done; [by eapply only_mapped|].
    pose proof Hsz as Hsz'. apply Forall_app in Hsz' as [Hy Hz]. apply Forall_cons in Hz as [_ Hz].
    rewrite seg_app in Hseg. simpl in Hseg. destruct Hseg as (Sy & _ & Sz).
    rewrite total_app in Ht. simpl in Ht. pose proof (sized_total zs Hz).
    split; [|split; [by rewrite total_app|]].
    + rewrite seg_app. simpl. split; [eapply seg_only; [exact Ho|done|lia|done]|].
      split; [rewrite (hdr_only _ _ _ _ _ Ho) by lia; by rewrite Z.add_0_l|].
      eapply seg_only; [exact Ho|done|lia|done].
    + eapply ending_only; [exact Ho|lia|done].
  - intros b t i Hin Hi. apply (proj2 Ho).
    pose proof (allocs_disjoint 0 bs X a s Y b t (hp_sized _ _ Hh) E Hin). lia.
Qed.

(** An allocation, seen from the allocated blocks. *)
Lemma allocated_allocs size h bs h' p :
  heap_wf h bs -> 12 <= size -> allocated size h bs h' p ->
  exists bs' X Y a s, heap_wf h' bs' /\ same_heap h h' /\ p = heap_ptr h + a + 12 /\
    size + 12 <= s < size + 36 /\ allocs 0 bs = X ++ Y /\ allocs 0 bs' = X ++ (a, s) :: Y /\
    kept (allocs 0 bs) (bytes h) (bytes h') /\
    (lowest 0 bs (lfree h) -> lowest 0 bs' (lfree h')).
Proof.
  intros Hw H12 (ys & s & zs & -> & Hs & -> & Hw' & Hsame & Hk & Hl).
  exists (taken ys s size zs), (allocs 0 ys), (allocs (total ys + s) zs), (total ys), (taken_size s size).
  split; [done|]. split; [done|]. split; [done|].
  split; [unfold taken_size; case_bool; lia|].
  split; [by rewrite allocs_app, Z.add_0_l|]. split; [apply taken_allocs|done].
Qed.

(** ** Resizing *)

Lemma put_stats n a v u x h : put n a v (set_stats u x h) = set_stats u x <$> put n a v h.
Proof. unfold put. simpl. by destruct (store n a v (bytes h)). Qed.

Lemma split_stats p q b u x h : split p q b (set_stats u x h) = set_stats u x <$> split p q b h.
Proof.
  unfold split, set_magic, set_used, set_next, set_prev.
  repeat first
    [ done
    | rewrite put_stats
    | match goal with |- context [put ?n ?a ?v ?h] =>
        lazymatch h with
        | set_stats _ _ _ => fail
        | _ => destruct (put n a v h) as [?|]; cbn [mbind option_bind fmap option_fmap option_map]
        end
      end
    | match goal with |- context [get_next ?a (set_stats ?u ?x ?h)] =>
        change (get_next a (set_stats u x h)) with (get_next a h)
      end
    | match goal with |- context [mem_size_aligned (set_stats ?u ?x ?h)] =>
        change (mem_size_aligned (set_stats u x h)) with (mem_size_aligned h)
      end
    | match goal with |- context [get_next ?a ?h] =>
        destruct (get_next a h) as [?|]; cbn [mbind option_bind fmap option_fmap option_map]
      end
    | destruct b; cbn [mbind option_bind fmap option_fmap option_map]
    | match goal with |- context [if ?c then _ else _] => destruct c end ].
Qed.

(** Shrinking in place: the flags, the statistics and the new header. *)
Lemma cut_spec h ys s zs ns :
  heap_pre h (ys ++ (s, true) :: zs) -> 4 <= ns -> ns mod 4 = 0 -> ns + 24 < s - 12 ->
  exists h', split (total ys) (total ys + SIZEOF_STRUCT_MEM + ns) false
      (set_stats (u32 (used_mem h - (s - 12 - ns))) (max_mem h) h) = Some h' /\
    heap_pre h' (ys ++ (ns + 12, true) :: (s - (ns + 12), false) :: zs) /\ same_heap h h' /\
    kept (allocs 0 (ys ++ (ns + 12, true) :: (s - (ns + 12), false) :: zs)) (bytes h) (bytes h').
Proof.
  intros Hh H4 Hm Hns. unfold SIZEOF_STRUCT_MEM.
  destruct (block_hdr h ys s true zs Hh) as (Ea & H0 & Hs & Hb).
  pose proof Hh as [Hptr Hend Hmsa Hmap Hch Hsz Hlf Hus Hmx].
  assert (s mod 4 = 0) as Hs4.
  { apply Forall_app in Hsz as [_ Hz]. apply Forall_cons in Hz as [[_ ?] _]. done. }
  assert (sized (ys ++ [(ns + 12, true); (s - (ns + 12), false)] ++ zs)) as Hsz'.
  { apply (sized_insert ys [(s, true)] zs); [done|]. repeat constructor; simpl; lia || zlia. }
  pose proof (used_total_range _ Hsz') as Hur.
  destruct (split_spec h ys (ns + 12) (s - (ns + 12)) true zs false) as (m & E & Hch' & Ho & Hpre);
    [by replace (ns + 12 + (s - (ns + 12))) with s by lia|lia|lia|].
  replace (ns + 12 + (s - (ns + 12))) with s in Ho by lia. simpl in Hch'.
  rewrite split_stats. replace (total ys + 12 + ns) with (total ys + (ns + 12)) by lia. rewrite E.
  eexists. split; [done|].
  assert (used_mem h = used_total (ys ++ [(ns + 12, true); (s - (ns + 12), false)] ++ zs)
                       + (s - 12 - ns)) as Eu.
  { rewrite Hus, !used_total_app. simpl. lia. }
  assert (total (ys ++ [(ns + 12, true); (s - (ns + 12), false)] ++ zs) = heap_end h) as Et
    by apply Hch'.
  split; [constructor; simpl; try done|].
  - by eapply only_mapped.
  - rewrite free_at_app in Hlf |- *. rewrite Z.add_0_l in Hlf |- *. simpl in Hlf |- *.
    replace (total ys + (ns + 12) + (s - (ns + 12))) with (total ys + s) by lia. naive_solver.
  - rewrite Eu, wrapu_small by (simpl in *; lia). simpl. lia.
  - rewrite wrapu_small; [|rewrite Eu; simpl in *; lia]. lia.
  - split; [done|]. simpl. intros b t i Hin Hi.
    rewrite allocs_app, Z.add_0_l in Hin. simpl in Hin.
    apply elem_of_app in Hin as [Hin|[[= -> ->]|Hin]%elem_of_cons].
    + apply (proj2 Ho). apply allocs_range in Hin; [lia|]. by apply Forall_app in Hsz as [? _].
    + apply Hpre. lia.
    + apply (proj2 Ho). apply allocs_range in Hin; [lia|].
      apply Forall_app in Hsz as [_ Hz]. by apply Forall_cons in Hz as [_ ?].
Qed.

Lemma shrink_spec h bs A a s B ns :
  heap_wf h bs -> allocs 0 bs = A ++ (a, s) :: B -> 4 <= ns -> ns mod 4 = 0 -> ns + 24 < s - 12 ->
  exists h1 h' bs', split a (a + SIZEOF_STRUCT_MEM + ns) false
      (set_stats (u32 (used_mem h - (s - 12 - ns))) (max_mem h) h) = Some h1 /\
    plug_holes (a + SIZEOF_STRUCT_MEM + ns) h1 = Some h' /\ heap_wf h' bs' /\ same_heap h h' /\
    allocs 0 bs' = A ++ (a, ns + 12) :: B /\
    kept (A ++ (a, ns + 12) :: B) (bytes h) (bytes h').
Proof.
  intros [Hh Hna] E H4 Hm Hns. apply allocs_split in E as (ys & zs & -> & -> & -> & ->).
  rewrite !Z.add_0_l. destruct (cut_spec h ys s zs ns Hh H4 Hm Hns) as (h1 & -> & Hh1 & Hs1 & Hk1).
  apply no_adj_app in Hna as [Hny [_ Hnz]].
  destruct (plug_holes_spec h1 (ys ++ [(ns + 12, true)]) (s - (ns + 12)) zs)
    as (h2 & bs2 & E2 & [Hh2 Hs2 Ha2 Hk2 _] & Hn2).
  { by rewrite <- app_assoc. }
  { apply no_adj_app. split; [done|]. simpl. by split. }
  { done. }
  rewrite total_app in E2. simpl in E2. rewrite Z.add_0_r in E2. unfold SIZEOF_STRUCT_MEM.
  replace (total ys + 12 + ns) with (total ys + (ns + 12)) by lia.
  assert (allocs 0 (ys ++ (ns + 12, true) :: (s - (ns + 12), false) :: zs) =
    allocs 0 ys ++ (total ys, ns + 12) :: allocs (total ys + s) zs) as Ea.
  { rewrite allocs_app, Z.add_0_l. simpl. do 3 f_equal. lia. }
  rewrite <- app_assoc in Ha2, Hk2. simpl in Ha2, Hk2. rewrite Ea in Ha2, Hk2, Hk1.
  exists h1, h2, bs2. split; [done|]. split; [done|]. split; [done|].
  split; [by eapply same_heap_trans|]. split; [done|]. by eapply kept_trans.
Qed.

(** Moving the contents to a new block and releasing the old one. *)
Lemma move_block h bs A a s B h1 bs1 X Y a' s' n :
  heap_wf h bs -> allocs 0 bs = A ++ (a, s) :: B ->
  heap_wf h1 bs1 -> same_heap h h1 -> allocs 0 bs = X ++ Y -> allocs 0 bs1 = X ++ (a', s') :: Y ->
  kept (allocs 0 bs) (bytes h) (bytes h1) -> 0 <= n <= s - 12 -> n <= s' - 12 ->
  exists m h' bs', move (Z.to_nat n) (a' + 12) (a + 12) (bytes h1) = Some m /\
    rt_free (heap_ptr h + a + 12) (set_bytes m h1) = Some h' /\ heap_wf h' bs' /\
    same_heap h h' /\ allocs 0 bs' ≡ₚ (a', s') :: A ++ B /\
    kept (A ++ B) (bytes h) (bytes h') /\
    (forall i, 0 <= i < n -> bytes h' !! (a' + 12 + i) = bytes h !! (a + 12 + i)).
Proof.
  intros Hw E Hw1 Hsame EXY E1 Hk1 Hn Hn'.
  assert ((a, s) ∈ X ++ Y) as Hin by (rewrite <- EXY, E; set_solver).
  assert ((a', s') ∈ allocs 0 bs1) as Hin' by (rewrite E1; set_solver).
  pose proof Hw1 as [Hh1 _]. pose proof (hp_sized _ _ Hh1) as Hsz1.
  pose proof (allocs_disjoint 0 bs1 X a' s' Y a s Hsz1 E1 Hin) as Hd.
  destruct (allocs_range 0 bs1 a' s' Hsz1 Hin') as (H1 & H2 & H3).
  assert ((a, s) ∈ allocs 0 bs1) as Hin1 by (rewrite E1; set_solver).
  destruct (allocs_range 0 bs1 a s Hsz1 Hin1) as (H4 & H5 & H6).
  pose proof (proj1 (proj2 (hp_chain _ _ Hh1))) as Et.
  destruct (move_spec (Z.to_nat n) (a' + 12) (a + 12) (bytes h1)) as (m & Em & Ho & Hcp);
    [intros i Hi; apply (hp_mapped _ _ Hh1); lia
    |intros i Hi; apply (hp_mapped _ _ Hh1); lia|lia|].
  destruct (data_write h1 bs1 X a' s' Y m Hw1 E1) as [Hw2 Hk2];
    [eapply only_weaken; [exact Ho|lia|lia]|].
  apply list_elem_of_split in Hin1 as (A1 & B1 & EA1).
  destruct (free_spec (set_bytes m h1) bs1 A1 a s B1 Hw2 EA1)
    as (h' & bs' & Ef & Hw' & Hs' & Ea' & Hk' & _).
  assert (A1 ++ B1 ≡ₚ (a', s') :: A ++ B) as Hperm.
  { apply (Permutation_cons_inv (a := (a, s))).
    transitivity (allocs 0 bs1); [rewrite EA1; solve_Permutation|].
    rewrite E1. transitivity ((a', s') :: X ++ Y); [solve_Permutation|].
    rewrite <- EXY, E. solve_Permutation. }
  assert (forall b, b ∈ (a', s') :: A ++ B -> b ∈ A1 ++ B1) as Hsub by (intros b; by rewrite Hperm).
  simpl in Ef. rewrite (proj1 Hsame) in Ef. exists m, h', bs'.
  split; [done|]. split; [done|]. split; [done|].
  split; [eapply same_heap_trans; [exact Hsame|exact Hs']|]. split; [by rewrite Ea'|]. split.
  - intros b t i Hb Hi. rewrite (Hk' b t i); [|apply Hsub; by right|done].
    simpl. rewrite (Hk2 b t i); [|rewrite <- EXY, E; set_solver|done].
    apply (Hk1 b t i); [rewrite E; set_solver|done].
  - intros i Hi. rewrite (Hk' a' s'); [|apply Hsub; left|lia].
    simpl. rewrite Hcp by lia. apply (Hk1 a s); [rewrite E; set_solver|lia].
Qed.

(** The outcome of [rt_realloc] on block [(a, s)] of the others [A ++ B]. *)
Definition resized (n a s : Z) (A B : list (Z * Z)) (h h' : heap) (p : Z) : Prop :=
  exists bs' a' s', p = heap_ptr h + a' + 12 /\ heap_wf h' bs' /\ same_heap h h' /\
    allocs 0 bs' ≡ₚ (a', s') :: A ++ B /\ n + 12 <= s' /\
    kept (A ++ B) (bytes h) (bytes h') /\
    (forall i, 0 <= i < Z.min (s - 12) n -> bytes h' !! (a' + 12 + i) = bytes h !! (a + 12 + i)).

Lemma realloc_spec h bs A a s B n :
  heap_wf h bs -> allocs 0 bs = A ++ (a, s) :: B -> 0 < n <= 2 ^ 32 - 4 ->
  exists h' p, rt_realloc (heap_ptr h + a + 12) n h = Some (h', p) /\
    ((p = 0 /\ h' = h) \/ resized n a s A B h h' p).
Proof.
  intros Hw E Hn. pose proof Hw as [Hh _]. pose proof Hh as [Hptr Hend Hmsa _ (_ & Ht & _) Hsz _ _ _].
  assert ((a, s) ∈ allocs 0 bs) as Hin by (rewrite E; set_solver).
  destruct (allocs_range 0 bs a s Hsz Hin) as (H0 & Hs & Hb).
  set (ns := (n + 3) / 4 * 4). assert (n <= ns < n + 4 /\ ns mod 4 = 0) as [Hns Hns4].
  { unfold ns. split; [zlia|apply Z.mod_mul; lia]. }
  assert (get_next a h = Some (a + s)) as En.
  { pose proof E as E'. apply allocs_split in E' as (ys & zs & -> & -> & _).
    destruct (block_hdr h ys s true zs Hh) as (Ea & _). rewrite Z.add_0_l.
    by destruct (get_fields _ _ _ Ea) as (_ & _ & ? & _). }
  unfold rt_realloc. change RT_ALIGN_SIZE with 4. rewrite RT_ALIGN_4 by lia. fold ns.
  destruct (Z.ltb_spec (mem_size_aligned h) ns); [by exists h, 0; split; [|left]|].
  rewrite (proj2 (Z.eqb_neq ns 0)), (proj2 (Z.eqb_neq (heap_ptr h + a + 12) 0)) by lia.
  unfold in_heap. rewrite (proj2 (Z.leb_le _ _)), (proj2 (Z.ltb_lt _ _)) by lia.
  cbn [negb andb]. unfold SIZEOF_STRUCT_MEM.
  replace (heap_ptr h + a + 12 - 12 - heap_ptr h) with a by lia. rewrite En.
  cbn [mbind option_bind]. rewrite (wrapu_small 32 (a + s - a - 12)) by lia.
  replace (a + s - a - 12) with (s - 12) by lia.
  destruct (Z.eqb_spec (s - 12) ns) as [Heq|Hne].
  { do 2 eexists. split; [done|]. right. exists bs, a, s. split; [done|]. split; [done|].
    split; [done|]. split; [rewrite E; solve_Permutation|]. split; [lia|]. done. }
  unfold MIN_SIZE. rewrite wrapu_small by lia.
  replace (ns + 12 + 12) with (ns + 24) by lia. destruct (Z.ltb_spec (ns + 24) (s - 12)) as [Hlt|Hge].
  - destruct (shrink_spec h bs A a s B ns Hw E) as (h1 & h' & bs' & E1 & E2 & Hw' & Hsame & Ea & Hk);
      [lia|done|done|]. unfold SIZEOF_STRUCT_MEM in E1, E2. rewrite E1. cbn [mbind option_bind]. rewrite E2. cbn [mbind option_bind].
    do 2 eexists. split; [done|]. right. exists bs', a, (ns + 12). split; [done|].
    split; [done|]. split; [done|]. split; [rewrite Ea; solve_Permutation|]. split; [lia|]. split.
    + eapply kept_sub; [|exact Hk]. set_solver.
    + intros i Hi. apply (Hk a (ns + 12)); [set_solver|lia].
  - destruct (malloc_spec h bs ns Hw) as (h1 & p & -> & [(-> & -> & _)|Hal]); [lia|..];
      cbn [mbind option_bind].
    { by exists h, 0; split; [|left]. }
    apply allocated_allocs in Hal as (bs1 & X & Y & a' & s' & Hw1 & Hsame & -> & Hs' & EXY & E1 & Hk1 & _);
      [|done|unfold request; lia].
    destruct (move_block h bs A a s B h1 bs1 X Y a' s' (Z.min (s - 12) ns))
      as (m & h' & bs' & Em & Ef & Hw' & Hsame' & Hperm & Hk & Hcp);
      try done; [lia|unfold request in Hs'; zlia|].
    assert (0 <= a') as Ha'.
    { apply (allocs_range 0 bs1 a' s'); [apply Hw1|]. rewrite E1. set_solver. }
    rewrite (proj2 (Z.eqb_neq (heap_ptr h + a' + 12) 0)) by lia. cbn [negb].
    rewrite (proj1 Hsame). replace (heap_ptr h + a' + 12 - heap_ptr h) with (a' + 12) by lia.
    replace (heap_ptr h + a + 12 - heap_ptr h) with (a + 12) by lia.
    replace (if s - 12 <? ns then s - 12 else ns) with (Z.min (s - 12) ns) by (case_bool; lia).
    rewrite Em. cbn [mbind option_bind]. rewrite Ef. cbn [mbind option_bind].
    do 2 eexists. split; [done|]. right. exists bs', a', s'. split; [done|]. split; [done|].
    split; [done|]. split; [done|]. split; [unfold request in Hs'; zlia|]. split; [done|].
    intros i Hi. apply Hcp. lia.
Qed.

Lemma calloc_spec h bs count size :
  heap_wf h bs -> 0 < count * size <= 2 ^ 32 - 4 ->
  exists h' p, rt_calloc count size h = Some (h', p) /\
    ((p = 0 /\ h' = h) \/
     exists bs' X Y a s, heap_wf h' bs' /\ same_heap h h' /\ p = heap_ptr h + a + 12 /\
       count * size + 12 <= s /\ allocs 0 bs = X ++ Y /\ allocs 0 bs' = X ++ (a, s) :: Y /\
       kept (allocs 0 bs) (bytes h) (bytes h') /\
       (forall i, 0 <= i < count * size -> bytes h' !! (a + 12 + i) = Some 0)).
Proof.
  intros Hw Hn. unfold rt_calloc. rewrite wrapu_small by lia.
  destruct (malloc_spec h bs (count * size) Hw Hn) as (h1 & p & -> & [(-> & -> & _)|Hal]);
    cbn [mbind option_bind].
  { by exists h, 0; split; [|left]. }
  apply allocated_allocs in Hal as (bs1 & X & Y & a & s & Hw1 & Hsame & -> & Hs & EXY & E1 & Hk1 & _);
    [|done|unfold request; lia].
  pose proof Hw1 as [Hh1 _]. pose proof Hw as [[Hptr _ _ _ _ _ _ _ _] _].
  destruct (allocs_range 0 bs1 a s (hp_sized _ _ Hh1)) as (H1 & H2 & H3); [rewrite E1; set_solver|].
  pose proof (proj1 (proj2 (hp_chain _ _ Hh1))) as Et.
  assert (count * size + 12 <= s) as Hcs by (unfold request in Hs; zlia).
  rewrite (proj2 (Z.eqb_neq (heap_ptr h + a + 12) 0)) by lia. cbn [negb].
  rewrite (proj1 Hsame). replace (heap_ptr h + a + 12 - heap_ptr h) with (a + 12) by lia.
  destruct (memset_spec (Z.to_nat (count * size)) (a + 12) 0 (bytes h1)) as (m & -> & Ho & Hz);
    [intros i Hi; apply (hp_mapped _ _ Hh1); lia|].
  destruct (data_write h1 bs1 X a s Y m Hw1 E1) as [Hw2 Hk2];
    [eapply only_weaken; [exact Ho|lia|lia]|].
  cbn [mbind option_bind]. do 2 eexists. split; [done|]. right.
  exists bs1, X, Y, a, s. split; [done|]. split; [done|]. split; [done|]. split; [done|].
  split; [done|]. split; [done|]. split.
  - rewrite EXY in Hk1 |- *. by eapply kept_trans.
  - intros i Hi. simpl. apply Hz. lia.
Qed.

(** ** Initialisation *)

Lemma fill_header p a u n v h :
  mapped p (p + 12) (bytes h) -> 0 <= a < 256 ^ 2 -> 0 <= u < 256 ^ 2 -> 0 <= n < 256 ^ 4 ->
  0 <= v < 256 ^ 4 ->
  exists m1 m2 m3 m4, set_magic p a h = Some (set_bytes m1 h) /\
    set_next p n (set_bytes m1 h) = Some (set_bytes m2 h) /\
    set_prev p v (set_bytes m2 h) = Some (set_bytes m3 h) /\
    set_used p u (set_bytes m3 h) = Some (set_bytes m4 h) /\
    hdr m4 p = Some (mk_hdr a u n v) /\ only p (p + 12) (bytes h) m4.
Proof.
  intros Hm Ha Hu Hn Hv. destruct (mapped_hdr _ _ Hm) as [H E].
  destruct (put_magic_spec p a h H E Ha) as (m1 & -> & E1 & O1).
  destruct (put_next_spec p n (set_bytes m1 h) _ E1 Hn) as (m2 & X2 & E2 & O2).
  destruct (put_prev_spec p v (set_bytes m2 h) _ E2 Hv) as (m3 & X3 & E3 & O3).
  destruct (put_used_spec p u (set_bytes m3 h) _ E3 Hu) as (m4 & X4 & E4 & O4).
  exists m1, m2, m3, m4. do 5 (split; [done|]). cbn [bytes set_bytes] in *.
  do 3 (eapply only_trans; [eassumption|]). done.
Qed.

Lemma heap_init_spec b e m h :
  let begin_align := RT_ALIGN b RT_ALIGN_SIZE in
  let end_align := RT_ALIGN_DOWN e RT_ALIGN_SIZE in
  0 < b <= 2 ^ 32 - 4 -> 0 <= e < 2 ^ 32 -> 36 <= end_align - begin_align ->
  mapped 0 (end_align - begin_align) m -> used_mem h = 0 -> 0 <= max_mem h ->
  exists h', rt_system_heap_init b e m h = Some h' /\
    heap_wf h' [(end_align - begin_align - 12, false)] /\ lfree h' = 0 /\
    heap_ptr h' = begin_align.
Proof.
  intros ba ea Hb He Hsz Hm Hu Hx.
  assert (ba = (b + 3) / 4 * 4) as Eba by (apply RT_ALIGN_4; lia).
  assert (ea = e / 4 * 4) as Eea by (apply RT_ALIGN_DOWN_4; lia).
  assert (0 < ba) as Hba by zlia. assert (ea <= e) as Hea by zlia.
  unfold rt_system_heap_init. fold ba. fold ea. unfold SIZEOF_STRUCT_MEM.
  rewrite (proj2 (Z.ltb_lt _ _)), (proj2 (Z.leb_le _ _)) by lia. cbn [andb].
  change (2 * 12) with 24. cbv zeta.
  set (msa := ea - ba - 24). set (en := msa + 12).
  set (h0 := mk_heap ba en (lfree h) msa (used_mem h) (max_mem h) m).
  destruct (fill_header 0 HEAP_MAGIC 0 en 0 h0) as (m1 & m2 & m3 & m4 & -> & E2 & E3 & E4 & EH & O);
    [|by vm_compute|done|unfold en, msa; lia|done|].
  { intros i Hi. apply Hm. lia. }
  cbn [mbind option_bind]. rewrite E2. cbn [mbind option_bind]. rewrite E3.
  cbn [mbind option_bind]. rewrite E4. cbn [mbind option_bind]. clear E2 E3 E4 m1 m2 m3.
  assert (mapped en (en + 12) m4) as Hm4.
  { eapply only_mapped; [exact O|]. intros i Hi. apply Hm. unfold en, msa in Hi. lia. }
  destruct (mapped_hdr _ _ Hm4) as [H EN].
  destruct (put_magic_spec en HEAP_MAGIC (set_bytes m4 h0) H EN) as (n1 & -> & N1 & O1); [by vm_compute|].
  destruct (put_used_spec en 1 (set_bytes n1 h0) _ N1) as (n2 & X2 & N2 & O2); [done|].
  destruct (put_next_spec en en (set_bytes n2 h0) _ N2) as (n3 & X3 & N3 & O3); [unfold en, msa; lia|].
  destruct (put_prev_spec en en (set_bytes n3 h0) _ N3) as (n4 & X4 & N4 & O4); [unfold en, msa; lia|].
  cbn [mbind option_bind]. rewrite (X2 : set_used en 1 (set_bytes n1 (set_bytes m4 h0)) = _).
  cbn [mbind option_bind]. rewrite (X3 : set_next en en (set_bytes n2 (set_bytes n1 h0)) = _).
  cbn [mbind option_bind]. rewrite (X4 : set_prev en en (set_bytes n3 (set_bytes n2 h0)) = _).
  cbn [mbind option_bind magic used next prev bytes set_bytes] in *.
  assert (only en (en + 12) m4 n4) as ON.
  { do 3 (eapply only_trans; [eassumption|]). done. }
  eexists. split; [done|]. split; [|done]. split; [|done]. simpl.
  constructor; simpl; unfold en, msa in *; try done; try lia.
  - split_and!; [lia|rewrite Eba; apply Z.mod_mul; lia|lia].
  - intros i Hi. eapply only_mapped; [exact ON| |exact Hi]. eapply only_mapped; [exact O|].
    intros j Hj. apply Hm. simpl in Hj. lia.
  - split; [|split; [simpl; lia|by eexists]]. simpl. split; [|done].
    rewrite (hdr_only _ _ _ _ _ ON) by lia. rewrite EH. do 2 f_equal. lia.
  - repeat constructor; simpl; [lia|]. rewrite Eba, Eea. zlia.
Qed.

(** ** The block list is determined by the allocated blocks *)

Lemma allocs_inj bs : forall p f bs',
  sized bs -> sized bs' -> no_adj f bs -> no_adj f bs' -> total bs = total bs' ->
  allocs p bs = allocs p bs' -> bs = bs'.
Proof.
  assert (forall p s s2 (zs : list (Z * bool)) B, sized zs -> 0 < s ->
    (p, s2) :: B <> allocs (p + s) zs) as Hno.
  { intros p s s2 zs B Hz Hs E. destruct (allocs_range (p + s) zs p s2 Hz); [|lia].
    rewrite <- E. left. }
  induction bs as [|[s u] bs IH]; intros p f [|[s' u'] bs'] Hs Hs' Hn Hn' Ht E; [done|..].
  - apply Forall_cons in Hs' as [[? _] Hs']. pose proof (sized_total _ Hs'). simpl in *. lia.
  - apply Forall_cons in Hs as [[? _] Hs]. pose proof (sized_total _ Hs). simpl in *. lia.
  - apply Forall_cons in Hs as [[H1 _] Hs]. apply Forall_cons in Hs' as [[H1' _] Hs'].
    simpl in *. destruct Hn as [_ Hn], Hn' as [_ Hn'].
    destruct u, u'; simpl in E.
    + injection E as <- E. f_equal. eapply IH; eauto. lia.
    + exfalso. eapply (Hno p s'); [exact Hs'|lia|exact E].
    + exfalso. eapply (Hno p s); [exact Hs|lia|symmetry; exact E].
    + assert (s = s') as <-.
      { destruct bs as [|[t v] bs], bs' as [|[t' v'] bs']; simpl in *; [lia|..].
        - destruct v'; [done|]. naive_solver.
        - destruct v; [done|]. naive_solver.
        - destruct v, v'; try naive_solver. injection E. lia. }
      f_equal. eapply (IH (p + s)); eauto. lia.
Qed.

(** ... and so is the lowest free block. *)
Lemma lowest_unique bs : forall p x y,
  sized bs -> free_at p bs x -> lowest p bs x -> free_at p bs y -> lowest p bs y -> x = y.
Proof.
  assert (forall cs p x, sized cs -> free_at p cs x -> p <= x) as Hge.
  { intros cs p x Hs. revert p. induction Hs as [|[s u] cs [H _] Hs IH]; intros p; simpl; [lia|].
    simpl in H. intros [[-> _]|Hf]; [lia|]. specialize (IH _ Hf). lia. }
  induction bs as [|[s u] bs IH]; intros p x y Hs; simpl; [congruence|].
  apply Forall_cons in Hs as [[H _] Hs]. simpl in H.
  intros Fx [Lx Mx] Fy [Ly My]. destruct u.
  - destruct Fx as [[_ [=]]|Fx], Fy as [[_ [=]]|Fy]. by eapply IH.
  - specialize (Lx eq_refl). specialize (Ly eq_refl).
    destruct Fx as [[-> _]|Fx]; [|apply Hge in Fx; [lia|done]].
    destruct Fy as [[-> _]|Fy]; [done|apply Hge in Fy; [lia|done]].
Qed.

(** ** Histories *)

(** The calls of a client that only releases, resizes and writes into blocks
    it owns. *)
Inductive heap_reach : heap -> Prop :=
  | reach_init b e m h h' :
      0 < b <= 2 ^ 32 - 4 -> 0 <= e < 2 ^ 32 ->
      36 <= RT_ALIGN_DOWN e RT_ALIGN_SIZE - RT_ALIGN b RT_ALIGN_SIZE ->
      mapped 0 (RT_ALIGN_DOWN e RT_ALIGN_SIZE - RT_ALIGN b RT_ALIGN_SIZE) m ->
      used_mem h = 0 -> 0 <= max_mem h -> rt_system_heap_init b e m h = Some h' -> heap_reach h'
  | reach_malloc n h h' p :
      heap_reach h -> 0 <= n < 2 ^ 32 -> rt_malloc n h = Some (h', p) -> heap_reach h'
  | reach_calloc c n h h' p :
      heap_reach h -> 0 < c * n <= 2 ^ 32 - 4 -> rt_calloc c n h = Some (h', p) -> heap_reach h'
  | reach_free bs a s h h' :
      heap_reach h -> chain (bytes h) bs (heap_end h) -> sized bs -> (a, s) ∈ allocs 0 bs ->
      rt_free (heap_ptr h + a + 12) h = Some h' -> heap_reach h'
  | reach_realloc bs a s n h h' p :
      heap_reach h -> chain (bytes h) bs (heap_end h) -> sized bs -> (a, s) ∈ allocs 0 bs ->
      0 < n <= 2 ^ 32 - 4 -> rt_realloc (heap_ptr h + a + 12) n h = Some (h', p) -> heap_reach h'
  | reach_write bs a s m h :
      heap_reach h -> chain (bytes h) bs (heap_end h) -> sized bs -> (a, s) ∈ allocs 0 bs ->
      only (a + 12) (a + s) (bytes h) m -> heap_reach (set_bytes m h).

(** The headers in memory determine the block list. *)
Lemma seg_inj m bs : forall pv p bs',
  sized bs -> sized bs' -> seg m pv p bs -> seg m pv p bs' -> total bs = total bs' -> bs = bs'.
Proof.
  induction bs as [|[s u] bs IH]; intros pv p [|[s' u'] bs'] Hs Hs' Hg Hg' Ht; [done|..].
  - apply Forall_cons in Hs' as [[? _] Hs']. pose proof (sized_total _ Hs'). simpl in *. lia.
  - apply Forall_cons in Hs as [[? _] Hs]. pose proof (sized_total _ Hs). simpl in *. lia.
  - apply Forall_cons in Hs as [_ Hs]. apply Forall_cons in Hs' as [_ Hs'].
    simpl in *. destruct Hg as [E Hg], Hg' as [E' Hg']. rewrite E in E'. injection E' as Eu Es.
    assert (s = s') as <- by lia. assert (u = u') as <- by (by destruct u, u').
    f_equal. by eapply IH; [..|lia].
Qed.

Lemma heap_wf_blocks h bs bs' :
  heap_wf h bs -> chain (bytes h) bs' (heap_end h) -> sized bs' -> bs' = bs.
Proof.
  intros [Hh _] (Hg & Ht & _) Hs. pose proof Hh as [_ _ _ _ (Hg' & Ht' & _) Hs' _ _ _].
  eapply seg_inj; [done|done|exact Hg|exact Hg'|congruence].
Qed.

Lemma malloc_any h bs n :
  heap_wf h bs -> 0 <= n < 2 ^ 32 -> exists h' p bs', rt_malloc n h = Some (h', p) /\ heap_wf h' bs'.
Proof.
  intros Hw Hn. destruct (decide (n = 0)) as [->|]; [by exists h, 0, bs|].
  destruct (decide (n <= 2 ^ 32 - 4)).
  - destruct (malloc_spec h bs n Hw) as (h' & p & E & [(-> & -> & _)|Hal]); [lia|..].
    + by exists h, 0, bs.
    + apply allocated_allocs in Hal as (bs' & _ & _ & _ & _ & Hw' & _);
        [|done|unfold request; lia]. by exists h', p, bs'.
  - assert (RT_ALIGN n RT_ALIGN_SIZE = 0) as E0.
    { assert (n = 2 ^ 32 - 3 \/ n = 2 ^ 32 - 2 \/ n = 2 ^ 32 - 1) as [->|[->| ->]] by lia;
        by vm_compute. }
    destruct (malloc_spec h bs 1 Hw) as (h' & p & E & R); [lia|].
    assert (rt_malloc n h = rt_malloc 1 h) as ->.
    { unfold rt_malloc. rewrite E0, (proj2 (Z.eqb_neq n 0)) by lia.
      change (RT_ALIGN 1 RT_ALIGN_SIZE) with 4. pose proof Hw as [[_ _ Hmsa _ _ _ _ _ _] _].
      rewrite (proj2 (Z.ltb_ge (mem_size_aligned h) 0)), (proj2 (Z.ltb_ge (mem_size_aligned h) 4)) by lia.
      done. }
    destruct R as [(-> & -> & _)|Hal]; [by exists h, 0, bs|].
    apply allocated_allocs in Hal as (bs' & _ & _ & _ & _ & Hw' & _);
      [|done|unfold request; lia]. by exists h', p, bs'.
Qed.

Lemma heap_reach_wf h : heap_reach h -> exists bs, heap_wf h bs.
Proof.
  induction 1 as [b e m h h' H1 H2 H3 H4 H5 H6 E|n h h' p _ [bs Hw] Hn E|c n h h' p _ [bs Hw] Hn E
    |cs a s h h' _ [bs Hw] Hc Hs Hin E|cs a s n h h' p _ [bs Hw] Hc Hs Hin Hn E
    |cs a s m h _ [bs Hw] Hc Hs Hin Ho].
  - destruct (heap_init_spec b e m h H1 H2 H3 H4 H5 H6) as (h2 & E2 & Hw & _).
    rewrite E2 in E. injection E as <-. eauto.
  - destruct (malloc_any h bs n Hw Hn) as (h2 & p2 & bs2 & E2 & Hw2).
    rewrite E2 in E. injection E as <- <-. eauto.
  - destruct (calloc_spec h bs c n Hw Hn) as (h2 & p2 & E2 & R). rewrite E2 in E.
    injection E as <- <-. destruct R as [[_ ->]|(bs2 & _ & _ & _ & _ & Hw2 & _)]; eauto.
  - rewrite (heap_wf_blocks h bs cs Hw Hc Hs) in Hin.
    apply list_elem_of_split in Hin as (A & B & EA).
    destruct (free_spec h bs A a s B Hw EA) as (h2 & bs2 & E2 & Hw2 & _).
    rewrite E2 in E. injection E as <-. eauto.
  - rewrite (heap_wf_blocks h bs cs Hw Hc Hs) in Hin.
    apply list_elem_of_split in Hin as (A & B & EA).
    destruct (realloc_spec h bs A a s B n Hw EA Hn) as (h2 & p2 & E2 & R). rewrite E2 in E.
    injection E as <- <-. destruct R as [[_ ->]|(bs2 & _ & _ & _ & Hw2 & _)]; eauto.
  - rewrite (heap_wf_blocks h bs cs Hw Hc Hs) in Hin.
    apply list_elem_of_split in Hin as (A & B & EA).
    destruct (data_write h bs A a s B m Hw EA Ho) as [Hw2 _]. eauto.
Qed.

(** ** Theorems *)

(** 256 bytes at 0x20000000. *)
Definition sample_memory : gmap Z Z :=
  list_to_map ((fun i => (Z.of_nat i, 0xaa)) <$> seq 0 256).
Definition no_heap : heap := mk_heap 0 0 0 0 0 0 ∅.
Definition sample_heap : heap :=
  default no_heap (rt_system_heap_init 0x20000000 0x20000100 sample_memory no_heap).

Lemma sample_mapped :
  mapped 0 (RT_ALIGN_DOWN 0x20000100 RT_ALIGN_SIZE - RT_ALIGN 0x20000000 RT_ALIGN_SIZE) sample_memory.
Proof.
  intros i Hi. change (RT_ALIGN_DOWN _ _ - _) with 256 in Hi.
  exists 0xaa. apply elem_of_list_to_map_1.
  - rewrite <- list_fmap_compose. apply NoDup_fmap_2; [|apply NoDup_seq].
    intros x y. simpl. lia.
  - apply list_elem_of_fmap. exists (Z.to_nat i). split; [f_equal; lia|].
    apply elem_of_seq. lia.
Qed.

Lemma sample_heap_init :
  rt_system_heap_init 0x20000000 0x20000100 sample_memory no_heap = Some sample_heap /\
  heap_wf sample_heap [(244, false)] /\ lfree sample_heap = 0 /\ heap_ptr sample_heap = 0x20000000.
Proof.
  destruct (heap_init_spec 0x20000000 0x20000100 sample_memory no_heap) as (h & E & Hw & Hl & Hp);
    [lia|lia|vm_compute; congruence|exact sample_mapped|reflexivity|cbn; lia|].
  unfold sample_heap. rewrite E. split; [reflexivity|]. exact (conj Hw (conj Hl Hp)).
Qed.

#[global] Opaque sample_heap.



(** C15. rt_free of an allocated block removes exactly that block from the
    allocated ones, merges it with free neighbours so that no two free
    blocks are adjacent, keeps lfree the lowest free block and touches no
    byte of any other allocated block. *)
Theorem rt_free_releases_one h bs A a s B :
  heap_wf h bs -> allocs 0 bs = A ++ (a, s) :: B ->
  exists h' bs', rt_free (heap_ptr h + a + 12) h = Some h' /\ heap_wf h' bs' /\
    same_heap h h' /\ allocs 0 bs' = A ++ B /\ kept (A ++ B) (bytes h) (bytes h') /\
    (lowest 0 bs (lfree h) -> lowest 0 bs' (lfree h')).
Proof. apply free_spec. Qed.

(** A heap with one allocated block. *)
Lemma sample_allocated :
  exists h bs s, heap_wf h bs /\ allocs 0 bs = [(0, s)] /\ heap_ptr h = 0x20000000.
Proof.
  destruct sample_heap_init as (_ & Hw & Hl & Hp).
  destruct (malloc_spec sample_heap _ 20 Hw) as (h' & p & E & [(-> & _ & Hno)|Hal]); [lia|..].
  - rewrite Hl in Hno. destruct Hno as [Hno _]; [cbn; lia|].
    specialize (Hno eq_refl). change (request 20) with 20 in Hno. lia.
  - destruct Hal as (ys & s & zs & Ebs & _ & _ & Hw' & Hs & _).
    destruct ys as [|? [|]]; [|done|done]. injection Ebs as <- <-.
    exists h', (taken [] 244 (request 20) []), (taken_size 244 (request 20)).
    split; [exact Hw'|]. split; [rewrite taken_allocs; reflexivity|].
    rewrite (proj1 Hs). exact Hp.
Qed.

Lemma rt_free_releases_one_witness :
  exists h h' bs', rt_free 0x2000000c h = Some h' /\ heap_wf h' bs' /\ allocs 0 bs' = [].
Proof.
  destruct sample_allocated as (h & bs & s & Hw & E & Hp).
  destruct (rt_free_releases_one h bs [] 0 s [] Hw E) as (h' & bs' & Ef & Hw' & _ & Ea & _).
  exists h, h', bs'. rewrite Hp in Ef. split; [exact Ef|]. split; [exact Hw'|exact Ea].
Defined.

(** rt_realloc either returns RT_NULL and changes nothing, or yields a
    well-formed heap in which the block is replaced by one of at least the
    new size that starts with the old contents (up to the smaller size), all
    other allocated blocks and their data being unchanged. *)
Theorem rt_realloc_keeps_contents h bs A a s B n :
  heap_wf h bs -> allocs 0 bs = A ++ (a, s) :: B -> 0 < n <= 2 ^ 32 - 4 ->
  exists h' p, rt_realloc (heap_ptr h + a + 12) n h = Some (h', p) /\
    ((p = 0 /\ h' = h) \/ resized n a s A B h h' p).
Proof. apply realloc_spec. Qed.

Lemma rt_realloc_keeps_contents_witness :
  exists h h' p s, rt_realloc 0x2000000c 40 h = Some (h', p) /\
    ((p = 0 /\ h' = h) \/ resized 40 0 s [] [] h h' p).
Proof.
  destruct sample_allocated as (h & bs & s & Hw & E & Hp).
  destruct (rt_realloc_keeps_contents h bs [] 0 s [] 40 Hw E) as (h' & p & Er & R); [lia|].
  rewrite Hp in Er. exists h, h', p, s. split; [exact Er|exact R].
Defined.

(** Freeing a block right after allocating it restores the block list, the
    lowest-free pointer and the used-memory count exactly, and no allocated
    data changes. *)
Theorem rt_malloc_free_roundtrip h bs n h1 p :
  heap_wf h bs -> lowest 0 bs (lfree h) -> 0 < n <= 2 ^ 32 - 4 ->
  rt_malloc n h = Some (h1, p) -> p <> 0 ->
  exists h2, rt_free p h1 = Some h2 /\ heap_wf h2 bs /\ same_heap h h2 /\
    lfree h2 = lfree h /\ used_mem h2 = used_mem h /\ kept (allocs 0 bs) (bytes h) (bytes h2).
Proof.
  intros Hw Hl Hn E Hp. destruct (malloc_spec h bs n Hw Hn) as (h1' & p' & E' & R).
  rewrite E in E'. injection E' as <- <-. destruct R as [[? _]|Hal]; [done|].
  apply allocated_allocs in Hal as (bs1 & X & Y & a & s & Hw1 & Hs & -> & _ & E1 & E2 & Hk & Hl1);
    [|done|unfold request; lia].
  destruct (free_spec h1 bs1 X a s Y Hw1 E2) as (h2 & bs2 & Ef & Hw2 & Hs2 & Ea & Hk2 & Hl2).
  rewrite (proj1 Hs) in Ef. exists h2. split; [done|].
  pose proof (same_heap_trans _ _ _ Hs Hs2) as Hs02.
  assert (bs = bs2) as <-.
  { pose proof Hw as [Hh Hna]. pose proof Hw2 as [Hh2 Hna2].
    eapply (allocs_inj bs 0 false bs2); [apply Hh|apply Hh2|done|done| |congruence].
    rewrite (proj1 (proj2 (hp_chain _ _ Hh))), (proj1 (proj2 (hp_chain _ _ Hh2))).
    symmetry. apply Hs02. }
  split; [done|]. split; [done|]. destruct Hw as [Hh _], Hw2 as [Hh2 _]. split; [|split].
  - eapply lowest_unique; [apply Hh|apply Hh2| |apply Hh|]; auto.
  - by rewrite (hp_used _ _ Hh), (hp_used _ _ Hh2).
  - rewrite E1 in Hk |- *. by eapply kept_trans.
Qed.

Lemma rt_malloc_free_roundtrip_witness :
  exists h1 h2, rt_malloc 20 sample_heap = Some (h1, 0x2000000c) /\
    rt_free 0x2000000c h1 = Some h2 /\ heap_wf h2 [(244, false)].
Proof.
  destruct sample_heap_init as (_ & Hw & Hl & _).
  destruct (rt_malloc 20 sample_heap) as [[h1 p]|] eqn:E; [|vm_compute in E; discriminate E].
  assert (snd <$> rt_malloc 20 sample_heap = Some 0x2000000c) as Ep by (vm_compute; reflexivity).
  rewrite E in Ep. injection Ep as ->.
  destruct (rt_malloc_free_roundtrip sample_heap [(244, false)] 20 h1 0x2000000c Hw)
    as (h2 & Ef & Hw2 & _); [rewrite Hl; cbn; lia|lia|exact E|lia|].
  exists h1, h2. split; [reflexivity|]. split; [exact Ef|exact Hw2].
Defined.

(** C4. From rt_system_heap_init on, over any sequence of rt_malloc,
    rt_calloc, rt_realloc, rt_free of owned blocks and writes into owned
    blocks, the heap stays well formed, every further rt_malloc and rt_free
    of an owned block runs without a failed assertion, and rt_memory_info
    reports exactly the bytes in allocated blocks. *)
Theorem heap_never_corrupted h :
  heap_reach h -> exists bs, heap_wf h bs /\
    (forall n, 0 <= n < 2 ^ 32 -> exists h' p, rt_malloc n h = Some (h', p) /\ heap_reach h') /\
    (forall a s, (a, s) ∈ allocs 0 bs ->
       exists h', rt_free (heap_ptr h + a + 12) h = Some h' /\ heap_reach h') /\
    rt_memory_info h = (mem_size_aligned h, used_total bs, max_mem h).
Proof.
  intros Hr. destruct (heap_reach_wf h Hr) as [bs Hw]. exists bs. split; [done|].
  pose proof Hw as [Hh _]. split; [|split].
  - intros n Hn. destruct (malloc_any h bs n Hw Hn) as (h' & p & bs' & E & _).
    exists h', p. split; [done|]. by eapply reach_malloc.
  - intros a s Hin. pose proof Hin as Hin'. apply list_elem_of_split in Hin' as (A & B & EA).
    destruct (free_spec h bs A a s B Hw EA) as (h' & bs' & E & _). exists h'. split; [done|].
    eapply reach_free; [done|apply Hh|apply Hh|exact Hin|exact E].
  - unfold rt_memory_info. by rewrite (hp_used _ _ Hh).
Qed.

Lemma sample_heap_reach : heap_reach sample_heap.
Proof.
  destruct sample_heap_init as (E & _).
  eapply (reach_init 0x20000000 0x20000100 sample_memory no_heap);
    [lia|lia|vm_compute; congruence|exact sample_mapped|reflexivity|cbn; lia|exact E].
Qed.

Lemma heap_never_corrupted_witness :
  exists bs h' p, heap_wf sample_heap bs /\ rt_malloc 40 sample_heap = Some (h', p).
Proof.
  destruct (heap_never_corrupted sample_heap sample_heap_reach) as (bs & Hw & Hm & _).
  destruct (Hm 40) as (h' & p & E & _); [lia|].
  exists bs, h', p. split; [exact Hw|exact E].
Defined.

(** ** Limits of the implementation *)

(** On a fresh 256-byte heap: rt_malloc(0xffffffff) and
    rt_calloc(0x40000001, 4) are granted with a 12-byte block, a request for
    the whole 232 bytes fails, and after a block below lfree was shrunk by
    rt_realloc a 60-byte request fails although a free 76-byte block exists. *)
Theorem small_mem_limits :
  (fun r => (r.2, hdr (bytes r.1) 0)) <$> rt_malloc 0xffffffff sample_heap =
    Some (0x2000000c, Some (mk_hdr HEAP_MAGIC 1 24 0)) /\
  (fun r => (r.2, hdr (bytes r.1) 0)) <$> rt_calloc 0x40000001 4 sample_heap =
    Some (0x2000000c, Some (mk_hdr HEAP_MAGIC 1 24 0)) /\
  mem_size_aligned sample_heap = 232 /\ snd <$> rt_malloc 232 sample_heap = Some 0 /\
  (r ← rt_malloc 100 sample_heap; '(h, p) ← Some r; '(h, _) ← rt_malloc 80 h;
   '(h, _) ← rt_realloc p 12 h; r ← rt_malloc 60 h;
   Some (lfree h, hdr (bytes h) 24, r.2)) =
    Some (204, Some (mk_hdr HEAP_MAGIC 0 112 0), 0).
Proof. split_and!; vm_compute; reflexivity. Qed.

End SmallMem.
