(* ===== verification/RtList.v ===== *)
(** * Intrusive circular doubly-linked lists

    Models the [rt_list_*] inline functions of [include/rtservice.h] on an
    explicit heap of [rt_list_node]s, where following an unmapped pointer is a
    fault ([None]), and shows that they implement operations on a store of
    plain sequences.  The rest of the kernel model works on that store:
    [thread->tlist] is one node, and removing it never needs to know which
    list (ready queue, wait queue, defunct list) it is in. *)

From S2P Require Import Prelude.

Module RtList.

Section nodes.
Context {N : Type} `{!EqDecision N, !Countable N}.

(** ** Heap of nodes *)

Record rt_list_node := mk_node { next : N; prev : N }.

Definition heap := gmap N rt_list_node.

(** [a->next = b] and [a->prev = b]. *)
Definition set_next (a b : N) (h : gmap N rt_list_node) : option (gmap N rt_list_node) :=
  n ← h !! a; Some (<[a := mk_node b (prev n)]> h).
Definition set_prev (a b : N) (h : gmap N rt_list_node) : option (gmap N rt_list_node) :=
  n ← h !! a; Some (<[a := mk_node (next n) b]> h).
Definition get_next (a : N) (h : gmap N rt_list_node) : option N := next <$> h !! a.
Definition get_prev (a : N) (h : gmap N rt_list_node) : option N := prev <$> h !! a.

(** ** Operations *)

Definition rt_list_init (l : N) (h : gmap N rt_list_node) : option (gmap N rt_list_node) :=
  h ← set_prev l l h; set_next l l h.

Definition rt_list_insert_after (l n : N) (h : gmap N rt_list_node)
  : option (gmap N rt_list_node) :=
  ln ← get_next l h; h ← set_prev ln n h;
  ln ← get_next l h; h ← set_next n ln h;
  h ← set_next l n h;
  set_prev n l h.

Definition rt_list_insert_before (l n : N) (h : gmap N rt_list_node)
  : option (gmap N rt_list_node) :=
  lp ← get_prev l h; h ← set_next lp n h;
  lp ← get_prev l h; h ← set_prev n lp h;
  h ← set_prev l n h;
  set_next n l h.

Definition rt_list_remove (n : N) (h : gmap N rt_list_node)
  : option (gmap N rt_list_node) :=
  nn ← get_next n h; np ← get_prev n h; h ← set_prev nn np h;
  np ← get_prev n h; nn ← get_next n h; h ← set_next np nn h;
  h ← set_prev n n h;
  set_next n n h.

Definition rt_list_isempty (l : N) (h : gmap N rt_list_node) : option bool :=
  ln ← get_next l h; Some (bool_decide (ln = l)).

(** The loop of [rt_list_len], one iteration per unit of fuel. *)
Fixpoint rt_list_len_loop (fuel : nat) (l p : N) (len : Z) (h : gmap N rt_list_node)
  : option Z :=
  match fuel with
  | O => None
  | S fuel =>
      pn ← get_next p h;
      if bool_decide (pn = l) then Some len
      else rt_list_len_loop fuel l pn (u32 (len + 1)) h
  end.

Definition rt_list_len (fuel : nat) (l : N) (h : gmap N rt_list_node) : option Z :=
  rt_list_len_loop fuel l l 0 h.

(** ** Representation predicate *)

(** [links h a ys b]: following [next] from [a] visits [ys] and then [b], and
    following [prev] from [b] retraces it. *)
Fixpoint links (h : gmap N rt_list_node) (a : N) (ys : list N) (b : N) : Prop :=
  match ys with
  | [] => get_next a h = Some b /\ get_prev b h = Some a
  | y :: ys => (get_next a h = Some y /\ get_prev y h = Some a) /\ links h y ys b
  end.

(** The circular list headed by [l] holds exactly the nodes [xs], in order. *)
Definition dlist (h : gmap N rt_list_node) (l : N) (xs : list N) : Prop :=
  NoDup (l :: xs) /\ links h l xs l.

(** ** Lemmas *)

Lemma links_app h a ys y zs b :
  links h a (ys ++ y :: zs) b <-> links h a ys y /\ links h y zs b.
Proof.
  revert a. induction ys as [|x ys IH]; intros a; simpl; [done|].
  rewrite IH. tauto.
Qed.

(** Only the [next] fields of [a :: ys] and the [prev] fields of [ys ++ [b]]
    matter to [links]. *)
Lemma links_ext h h' a ys b :
  (forall x, x ∈ a :: ys -> get_next x h' = get_next x h) ->
  (forall x, x ∈ ys ++ [b] -> get_prev x h' = get_prev x h) ->
  links h a ys b -> links h' a ys b.
Proof.
  revert a. induction ys as [|y ys IH]; intros a Hn Hp; simpl.
  - rewrite Hn, Hp by set_solver. done.
  - intros [[H1 H2] H3]. rewrite Hn, Hp by set_solver. split; [done|].
    apply IH; [intros; apply Hn | intros; apply Hp | done]; set_solver.
Qed.

Lemma set_next_spec a b h h' :
  set_next a b h = Some h' ->
  (forall x, get_next x h' = if decide (x = a) then Some b else get_next x h) /\
  (forall x, get_prev x h' = get_prev x h).
Proof.
  unfold set_next, get_next, get_prev. destruct (h !! a) as [n|] eqn:E; [|done].
  intros [= <-]. split; intros x; rewrite lookup_insert; repeat case_decide;
    subst; rewrite ?E; simpl; congruence.
Qed.

Lemma set_prev_spec a b h h' :
  set_prev a b h = Some h' ->
  (forall x, get_next x h' = get_next x h) /\
  (forall x, get_prev x h' = if decide (x = a) then Some b else get_prev x h).
Proof.
  unfold set_prev, get_next, get_prev. destruct (h !! a) as [n|] eqn:E; [|done].
  intros [= <-]. split; intros x; rewrite lookup_insert; repeat case_decide;
    subst; rewrite ?E; simpl; congruence.
Qed.

Lemma set_next_mapped a b h : is_Some (get_next a h) -> is_Some (set_next a b h).
Proof. unfold set_next, get_next. destruct (h !! a); [eauto|by intros []]. Qed.

Lemma set_prev_mapped a b h : is_Some (get_next a h) -> is_Some (set_prev a b h).
Proof. unfold set_prev, get_next. destruct (h !! a); [eauto|by intros []]. Qed.

Lemma get_next_prev_mapped a h : is_Some (get_next a h) <-> is_Some (get_prev a h).
Proof. unfold get_next, get_prev. rewrite !fmap_is_Some. done. Qed.

(** A heap update sequence is described by the pointers it leaves. *)
Lemma insert_after_ptrs l n ln h :
  get_next l h = Some ln -> is_Some (get_next ln h) -> is_Some (get_next n h) ->
  n <> l ->
  exists h', rt_list_insert_after l n h = Some h' /\
  (forall x, get_next x h' = if decide (x = l) then Some n
                        else if decide (x = n) then Some ln else get_next x h) /\
  (forall x, get_prev x h' = if decide (x = n) then Some l
                        else if decide (x = ln) then Some n else get_prev x h).
Proof.
  intros Hl Hln Hn Hne. unfold rt_list_insert_after. rewrite Hl. simpl.
  destruct (set_prev_mapped ln n h Hln) as [h1 E1]. rewrite E1. simpl.
  apply set_prev_spec in E1 as [N1 P1]. rewrite N1, Hl. simpl.
  destruct (set_next_mapped n ln h1) as [h2 E2]; [by rewrite N1|]. rewrite E2. simpl.
  apply set_next_spec in E2 as [N2 P2].
  destruct (set_next_mapped l n h2) as [h3 E3];
    [rewrite N2, N1; case_decide; eauto|]. rewrite E3. simpl.
  apply set_next_spec in E3 as [N3 P3].
  destruct (set_prev_mapped n l h3) as [h4 E4];
    [rewrite N3, N2; repeat case_decide; eauto; done|]. rewrite E4.
  apply set_prev_spec in E4 as [N4 P4].
  exists h4. split; [done|]. split; intros x.
  - by rewrite N4, N3, N2, N1.
  - by rewrite P4, P3, P2, P1.
Qed.

Lemma insert_before_ptrs l n lp h :
  get_prev l h = Some lp -> is_Some (get_next lp h) -> is_Some (get_next n h) ->
  n <> l ->
  exists h', rt_list_insert_before l n h = Some h' /\
  (forall x, get_next x h' = if decide (x = n) then Some l
                        else if decide (x = lp) then Some n else get_next x h) /\
  (forall x, get_prev x h' = if decide (x = l) then Some n
                        else if decide (x = n) then Some lp else get_prev x h).
Proof.
  intros Hl Hlp Hn Hne. unfold rt_list_insert_before. rewrite Hl. simpl.
  destruct (set_next_mapped lp n h Hlp) as [h1 E1]. rewrite E1. simpl.
  apply set_next_spec in E1 as [N1 P1]. rewrite P1, Hl. simpl.
  destruct (set_prev_mapped n lp h1) as [h2 E2];
    [rewrite N1; case_decide; eauto|]. rewrite E2. simpl.
  apply set_prev_spec in E2 as [N2 P2].
  destruct (set_prev_mapped l n h2) as [h3 E3].
  { rewrite get_next_prev_mapped, P2, P1, Hl. case_decide; eauto. }
  rewrite E3. simpl. apply set_prev_spec in E3 as [N3 P3].
  destruct (set_next_mapped n l h3) as [h4 E4];
    [rewrite N3, N2, N1; case_decide; eauto|]. rewrite E4.
  apply set_next_spec in E4 as [N4 P4].
  exists h4. split; [done|]. split; intros x.
  - by rewrite N4, N3, N2, N1.
  - by rewrite P4, P3, P2, P1.
Qed.

Lemma remove_ptrs n nn np h :
  get_next n h = Some nn -> get_prev n h = Some np ->
  is_Some (get_next nn h) -> is_Some (get_next np h) ->
  exists h', rt_list_remove n h = Some h' /\
  (forall x, get_next x h' = if decide (x = n) then Some n
                        else if decide (x = np) then Some nn else get_next x h) /\
  (forall x, get_prev x h' = if decide (x = n) then Some n
                        else if decide (x = nn) then Some np else get_prev x h).
Proof.
  intros Hn Hp Mn Mp. unfold rt_list_remove. rewrite Hn, Hp. simpl.
  destruct (set_prev_mapped nn np h Mn) as [h1 E1]. rewrite E1. simpl.
  apply set_prev_spec in E1 as [N1 P1]. rewrite P1, N1, Hn, Hp.
  replace (if decide (n = nn) then Some np else Some np) with (Some np)
    by (by case_decide).
  simpl. destruct (set_next_mapped np nn h1) as [h2 E2]; [by rewrite N1|].
  rewrite E2. simpl. apply set_next_spec in E2 as [N2 P2].
  assert (is_Some (get_next n h2)) as M2 by (rewrite N2, N1; case_decide; eauto).
  destruct (set_prev_mapped n n h2 M2) as [h3 E3]. rewrite E3. simpl.
  apply set_prev_spec in E3 as [N3 P3].
  destruct (set_next_mapped n n h3) as [h4 E4]; [by rewrite N3|]. rewrite E4.
  apply set_next_spec in E4 as [N4 P4].
  exists h4. split; [done|]. split; intros x.
  - by rewrite N4, N3, N2, N1.
  - by rewrite P4, P3, P2, P1.
Qed.

Lemma links_next_mapped h a ys b x :
  links h a ys b -> x ∈ a :: ys -> is_Some (get_next x h).
Proof.
  revert a. induction ys as [|y ys IH]; intros a; simpl.
  - intros [H _] ->%list_elem_of_singleton. by rewrite H.
  - intros [[H _] Hl] [->|Hx]%elem_of_cons; [by rewrite H|eauto].
Qed.

(** The last node of a segment. *)
Fixpoint lastof (a : N) (ys : list N) : N :=
  match ys with [] => a | y :: ys => lastof y ys end.

Lemma lastof_app a ys y : lastof a (ys ++ [y]) = y.
Proof. revert a. induction ys; simpl; auto. Qed.

Lemma lastof_elem a ys : lastof a ys ∈ a :: ys.
Proof.
  revert a. induction ys as [|y ys IH]; intros a; simpl; [set_solver|].
  apply elem_of_cons. right. apply IH.
Qed.

Lemma links_last h a ys b :
  links h a ys b ->
  get_next (lastof a ys) h = Some b /\ get_prev b h = Some (lastof a ys).
Proof.
  revert a. induction ys as [|y ys IH]; intros a; simpl; [done|].
  intros [_ H]. by apply IH.
Qed.

Lemma links_first h a ys b :
  links h a ys b ->
  get_next a h = Some (hd b ys) /\ get_prev (hd b ys) h = Some a.
Proof. destruct ys; simpl; tauto. Qed.

Lemma hd_elem (ys : list N) b : hd b ys ∈ ys ++ [b].
Proof. destruct ys; simpl; set_solver. Qed.

(** Splicing a node into a segment, and out of it. *)
Lemma links_splice_in h h' a ys zs b n :
  links h a (ys ++ zs) b -> NoDup (a :: ys ++ zs) -> b ∉ ys ++ zs ->
  n ∉ b :: a :: ys ++ zs ->
  (forall x, get_next x h' = if decide (x = n) then Some (hd b zs)
     else if decide (x = lastof a ys) then Some n else get_next x h) ->
  (forall x, get_prev x h' = if decide (x = n) then Some (lastof a ys)
     else if decide (x = hd b zs) then Some n else get_prev x h) ->
  links h' a (ys ++ n :: zs) b.
Proof.
  intros Hl Hnd Hb Hn HN HP. revert a Hl Hnd Hn HN HP.
  induction ys as [|y ys IH]; simpl; intros a Hl Hnd Hn HN HP.
  - assert (forall x, x ∈ b :: a :: zs -> x <> n) as Hx by (intros ? ? ->; done).
    assert (a <> n) as Han by (apply Hx; set_solver).
    split; [rewrite HN, HP; by rewrite decide_False, !decide_True by done|]. destruct zs as [|z zs]; simpl in *.
    + rewrite HN, HP. rewrite (decide_True (P:=n=n)) by done.
      rewrite decide_False, decide_True by (try apply Hx; set_solver). done.
    + destruct Hl as [_ Hl]. apply NoDup_cons in Hnd as [Ha Hnd].
      apply NoDup_cons in Hnd as [Hz _].
      rewrite HN, HP. rewrite (decide_True (P:=n=n)) by done.
      rewrite decide_False, decide_True by (try apply Hx; set_solver).
      split; [done|]. eapply links_ext; [| |exact Hl]; intros x Hxx.
      * rewrite HN, !decide_False; [done|set_solver|apply Hx; set_solver].
      * rewrite HP, !decide_False; [done|set_solver|apply Hx; set_solver].
  - destruct Hl as [[H1 H2] Hl]. apply NoDup_cons in Hnd as [Ha Hnd].
    pose proof (lastof_elem y ys) as He. pose proof (hd_elem zs b) as Hh.
    rewrite HN, HP, H1, H2. apply NoDup_cons in Hnd as Hnd'. destruct Hnd' as [Hy _].
    rewrite !decide_False; [split; [done|]; apply IH; set_solver|..];
      intros ->; set_solver.
Qed.

Lemma links_splice_out h h' a ys zs b n :
  links h a (ys ++ n :: zs) b -> NoDup (a :: ys ++ n :: zs) -> b ∉ ys ++ n :: zs ->
  (forall x, get_next x h' = if decide (x = n) then Some n
     else if decide (x = lastof a ys) then Some (hd b zs) else get_next x h) ->
  (forall x, get_prev x h' = if decide (x = n) then Some n
     else if decide (x = hd b zs) then Some (lastof a ys) else get_prev x h) ->
  links h' a (ys ++ zs) b.
Proof.
  intros Hl Hnd Hb HN HP. revert a Hl Hnd HN HP.
  induction ys as [|y ys IH]; simpl; intros a Hl Hnd HN HP.
  - destruct Hl as [_ Hl]. apply NoDup_cons in Hnd as [Ha Hnd].
    apply NoDup_cons in Hnd as [Hz Hnd]. destruct zs as [|z zs]; simpl in *.
    + rewrite HN, HP. repeat case_decide; subst; try done; set_solver.
    + rewrite HN, HP.
      split; [repeat case_decide; subst; try done; set_solver|].
      apply NoDup_cons in Hnd as [Hz' _].
      eapply links_ext; [| |apply Hl]; intros x Hxx.
      * by rewrite HN, !decide_False by set_solver.
      * by rewrite HP, !decide_False by set_solver.
  - destruct Hl as [[H1 H2] Hl]. apply NoDup_cons in Hnd as [Ha Hnd].
    pose proof (lastof_elem y ys) as He. pose proof (hd_elem zs b) as Hh.
    rewrite HN, HP, H1, H2. apply NoDup_cons in Hnd as Hnd'. destruct Hnd' as [Hy _].
    rewrite !decide_False; [split; [done|]; apply IH; set_solver|..];
      intros ->; set_solver.
Qed.

Lemma dlist_ext h h' l xs :
  (forall x, x ∈ l :: xs ->
     get_next x h' = get_next x h /\ get_prev x h' = get_prev x h) ->
  dlist h l xs -> dlist h' l xs.
Proof.
  intros Hx [Hnd Hl]. split; [done|]. eapply links_ext; [| |exact Hl].
  - intros x Hin. by apply Hx.
  - intros x Hin. apply Hx. apply elem_of_app in Hin. set_solver +Hin.
Qed.

(** [h'] agrees with [h] outside the nodes [S]. *)
Definition frame (S : list N) (h h' : gmap N rt_list_node) : Prop :=
  forall x, x ∉ S -> get_next x h' = get_next x h /\ get_prev x h' = get_prev x h.

Lemma dlist_frame S h h' l xs :
  frame S h h' -> (forall x, x ∈ l :: xs -> x ∉ S) -> dlist h l xs -> dlist h' l xs.
Proof. intros HF HS. apply dlist_ext. intros x Hx. apply HF. by apply HS. Qed.

Lemma dlist_init h l :
  is_Some (h !! l) -> exists h', rt_list_init l h = Some h' /\ dlist h' l [].
Proof.
  intros [nd E]. unfold rt_list_init, set_prev, set_next. rewrite E. simpl.
  rewrite lookup_insert_eq. simpl. eexists. split; [done|].
  split; [apply NoDup_singleton|]. unfold links, get_next, get_prev.
  by rewrite lookup_insert_eq.
Qed.

Lemma dlist_insert_after h l ys zs n :
  dlist h l (ys ++ zs) -> is_Some (get_next n h) -> n ∉ l :: ys ++ zs ->
  exists h', rt_list_insert_after (lastof l ys) n h = Some h' /\
    dlist h' l (ys ++ n :: zs) /\ frame (n :: l :: ys ++ zs) h h'.
Proof.
  intros [Hnd Hl] Hm Hn.
  pose proof (lastof_elem l ys) as He. pose proof (hd_elem zs l) as Hh.
  assert (get_next (lastof l ys) h = Some (hd l zs)) as Hnx.
  { destruct zs as [|z zs].
    - rewrite app_nil_r in Hl. by apply links_last in Hl as [? _].
    - apply links_app in Hl as [Hl _]. by apply links_last in Hl as [? _]. }
  assert (hd l zs ∈ l :: ys ++ zs) as Hh' by (apply elem_of_app in Hh; set_solver +Hh).
  assert (lastof l ys ∈ l :: ys ++ zs) as He' by set_solver +He.
  destruct (insert_after_ptrs (lastof l ys) n (hd l zs) h) as (h' & E & HN & HP);
    [done|by eapply links_next_mapped|done|by intros ->|].
  exists h'. split; [done|]. split; [split|].
  - rewrite <- Permutation_middle, Permutation_swap. by apply NoDup_cons.
  - apply NoDup_cons in Hnd as [? ?].
    eapply (links_splice_in h); try done; [by apply NoDup_cons|set_solver +Hn|..].
    intros x. rewrite HN. repeat case_decide; subst; done.
  - intros x Hx. rewrite HN, HP.
    rewrite !decide_False; [done|intros ->; set_solver..].
Qed.

Lemma dlist_insert_before h l ys zs n :
  dlist h l (ys ++ zs) -> is_Some (get_next n h) -> n ∉ l :: ys ++ zs ->
  exists h', rt_list_insert_before (hd l zs) n h = Some h' /\
    dlist h' l (ys ++ n :: zs) /\ frame (n :: l :: ys ++ zs) h h'.
Proof.
  intros [Hnd Hl] Hm Hn.
  pose proof (lastof_elem l ys) as He. pose proof (hd_elem zs l) as Hh.
  assert (get_prev (hd l zs) h = Some (lastof l ys)) as Hpv.
  { destruct zs as [|z zs].
    - rewrite app_nil_r in Hl. by apply links_last in Hl as [_ ?].
    - apply links_app in Hl as [Hl _]. by apply links_last in Hl as [_ ?]. }
  assert (hd l zs ∈ l :: ys ++ zs) as Hh' by (apply elem_of_app in Hh; set_solver +Hh).
  assert (lastof l ys ∈ l :: ys ++ zs) as He' by set_solver +He.
  destruct (insert_before_ptrs (hd l zs) n (lastof l ys) h) as (h' & E & HN & HP);
    [done|by eapply links_next_mapped|done|by intros ->|].
  exists h'. split; [done|]. split; [split|].
  - rewrite <- Permutation_middle, Permutation_swap. by apply NoDup_cons.
  - apply NoDup_cons in Hnd as [? ?].
    eapply (links_splice_in h); try done; [by apply NoDup_cons|set_solver +Hn|..].
    intros x. rewrite HP. repeat case_decide; subst; done.
  - intros x Hx. rewrite HN, HP.
    rewrite !decide_False; [done|intros ->; set_solver..].
Qed.

Lemma dlist_remove h l ys zs n :
  dlist h l (ys ++ n :: zs) ->
  exists h', rt_list_remove n h = Some h' /\
    dlist h' l (ys ++ zs) /\ dlist h' n [] /\ frame (l :: ys ++ n :: zs) h h'.
Proof.
  intros [Hnd Hl].
  pose proof (lastof_elem l ys) as He. pose proof (hd_elem zs l) as Hh.
  pose proof Hl as Hl'. apply links_app in Hl' as [Hl1 Hl2].
  apply links_last in Hl1 as [_ Hp]. pose proof (links_first _ _ _ _ Hl2) as [Hnx _].
  assert (hd l zs ∈ l :: ys ++ n :: zs) as Hh' by (apply elem_of_app in Hh; set_solver +Hh).
  assert (lastof l ys ∈ l :: ys ++ n :: zs) as He' by set_solver +He.
  destruct (remove_ptrs n (hd l zs) (lastof l ys) h) as (h' & E & HN & HP);
    [done|done|by apply (links_next_mapped _ _ _ _ _ Hl)..|].
  exists h'. split; [done|]. split; [split|split].
  - assert (l :: ys ++ n :: zs ≡ₚ n :: l :: ys ++ zs) as Hperm
      by (rewrite <- Permutation_middle; apply Permutation_swap).
    rewrite Hperm in Hnd. by apply NoDup_cons in Hnd as [_ ?].
  - apply NoDup_cons in Hnd as [? ?].
    eapply links_splice_out; try done. by apply NoDup_cons.
  - split; [apply NoDup_singleton|]. simpl. by rewrite HN, HP, !decide_True.
  - intros x Hx. rewrite HN, HP.
    rewrite !decide_False; [done|intros ->; set_solver..].
Qed.

(** Removing a node that is in no list leaves every pointer as it was. *)
Lemma dlist_remove_single h n :
  dlist h n [] ->
  exists h', rt_list_remove n h = Some h' /\ frame [] h h'.
Proof.
  intros [_ [HN HP]].
  destruct (remove_ptrs n n n h) as (h' & E & HN' & HP'); [done|done|eauto|eauto|].
  exists h'. split; [done|]. intros x _. rewrite HN', HP'.
  repeat case_decide; subst; done.
Qed.

Lemma dlist_isempty h l xs :
  dlist h l xs -> rt_list_isempty l h = Some (bool_decide (xs = [])).
Proof.
  intros [Hnd Hl]. apply links_first in Hl as [Hn _].
  unfold rt_list_isempty. rewrite Hn. simpl. f_equal.
  destruct xs as [|x xs]; simpl; [by rewrite !bool_decide_eq_true_2|].
  rewrite !bool_decide_eq_false_2; [done..|]. apply NoDup_cons in Hnd as [Hnin _].
  intros ->. set_solver +Hnin.
Qed.

Lemma dlist_len_loop h l p ys fuel len :
  links h p ys l -> l ∉ ys -> (length ys < fuel)%nat ->
  0 <= len -> len + zlen ys < 2 ^ 32 ->
  rt_list_len_loop fuel l p len h = Some (len + zlen ys).
Proof.
  revert p ys len. induction fuel as [|fuel IH]; intros p ys len Hl Hnin Hf H0 H1; [lia|].
  pose proof (links_first _ _ _ _ Hl) as [Hn _]. simpl. rewrite Hn. simpl.
  destruct ys as [|y ys]; simpl in *.
  - rewrite bool_decide_eq_true_2 by done. f_equal. unfold zlen. simpl. lia.
  - rewrite bool_decide_eq_false_2 by set_solver +Hnin.
    unfold zlen in *. simpl in *. rewrite wrapu_small by lia.
    rewrite (IH y ys); [f_equal; lia|tauto|set_solver +Hnin|lia..].
Qed.

Lemma dlist_len h l xs fuel :
  dlist h l xs -> (length xs < fuel)%nat -> zlen xs < 2 ^ 32 ->
  rt_list_len fuel l h = Some (zlen xs).
Proof.
  intros [Hnd Hl] Hf Hlen. unfold rt_list_len.
  rewrite (dlist_len_loop h l l xs); [f_equal; lia|done| |done|lia|lia].
  by apply NoDup_cons in Hnd as [? _].
Qed.

End nodes.
(** ** The store of sequences the kernel model uses

    List heads are [H] (one per ready queue, wait queue, ...), list nodes are
    [T] (one per thread).  A store maps each head to the nodes behind it. *)

Section store.
Context {H T : Type} `{!EqDecision H, !Countable H, !EqDecision T, !Countable T}.

(** [rt_list_remove] of a node, whichever list it is in. *)
Definition lremove (t : T) (m : gmap H (list T)) : gmap H (list T) :=
  (fun xs => filter (fun u => u <> t) xs) <$> m.

(** [rt_list_insert_before(head, node)]: append at the tail. *)
Definition lpush_back (k : H) (t : T) (m : gmap H (list T)) : gmap H (list T) :=
  alter (fun xs => xs ++ [t]) k m.

(** [rt_list_insert_after(head, node)]: insert at the front. *)
Definition lpush_front (k : H) (t : T) (m : gmap H (list T)) : gmap H (list T) :=
  alter (fun xs => t :: xs) k m.

(** [rt_list_insert_before(node, node)]. *)
Fixpoint before (u t : T) (xs : list T) : list T :=
  match xs with
  | [] => []
  | x :: xs => if decide (x = u) then t :: x :: xs else x :: before u t xs
  end.

Definition linsert_before (u t : T) (m : gmap H (list T)) : gmap H (list T) :=
  before u t <$> m.

(** [t] is in none of the lists. *)
Definition absent (t : T) (m : gmap H (list T)) : Prop :=
  forall k xs, m !! k = Some xs -> t ∉ xs.

(** No node is in two lists, or twice in one. *)
Definition unique (m : gmap H (list T)) : Prop :=
  (forall k xs, m !! k = Some xs -> NoDup xs) /\
  (forall k1 k2 xs1 xs2 t, m !! k1 = Some xs1 -> m !! k2 = Some xs2 ->
     t ∈ xs1 -> t ∈ xs2 -> k1 = k2).

(** The nodes that exist. *)
Variable D : gset T.

(** The heap represents the store: each head's ring holds its sequence, and an
    existing node that is in no sequence is linked to itself. *)
Definition repr (h : gmap (H + T) rt_list_node) (m : gmap H (list T)) : Prop :=
  unique m /\
  (forall k xs, m !! k = Some xs -> dlist h (inl k) (inr <$> xs)) /\
  (forall t, t ∈ D -> absent t m -> dlist h (inr t) []).

Lemma filter_absent (t : T) (xs : list T) : t ∉ xs -> filter (fun u => u <> t) xs = xs.
Proof.
  induction xs as [|x xs IH]; intros Hn; [done|].
  rewrite filter_cons_True by set_solver. f_equal. apply IH. set_solver.
Qed.

Lemma filter_split (t : T) (ys zs : list T) :
  NoDup (ys ++ t :: zs) -> filter (fun u => u <> t) (ys ++ t :: zs) = ys ++ zs.
Proof.
  intros Hnd. apply NoDup_app in Hnd as (_ & Hd & Hnd2).
  apply NoDup_cons in Hnd2 as [Hz _].
  rewrite filter_app, filter_cons_False by (intros []; done).
  rewrite !filter_absent; [done|done|]. intros Hin. apply (Hd t Hin). set_solver.
Qed.

Lemma before_absent u t (xs : list T) : u ∉ xs -> before u t xs = xs.
Proof.
  induction xs as [|x xs IH]; intros Hn; simpl; [done|].
  rewrite decide_False by set_solver. f_equal. apply IH. set_solver.
Qed.

Lemma before_split u t (ys zs : list T) :
  u ∉ ys -> before u t (ys ++ u :: zs) = ys ++ t :: u :: zs.
Proof.
  induction ys as [|y ys IH]; intros Hn; simpl; [by rewrite decide_True|].
  rewrite decide_False by set_solver. f_equal. apply IH. set_solver.
Qed.

Lemma absent_dec (t : T) (m : gmap H (list T)) :
  absent t m \/ exists k xs, m !! k = Some xs /\ t ∈ xs.
Proof.
  destruct (decide (map_Exists (fun _ xs => t ∈ xs) m)) as [(k & xs & ? & ?)|Hn].
  - right. eauto.
  - left. intros k xs Hk Hin. apply Hn. by exists k, xs.
Qed.

Lemma lookup_lremove t m k :
  lremove t m !! k = (fun xs => filter (fun u => u <> t) xs) <$> m !! k.
Proof. apply lookup_fmap. Qed.

Lemma unique_lremove t m : unique m -> unique (lremove t m).
Proof.
  intros [Hnd Hu]. split.
  - intros k xs. rewrite lookup_lremove, fmap_Some. intros (ys & Hk & ->).
    apply NoDup_filter. eauto.
  - intros k1 k2 xs1 xs2 u. rewrite !lookup_lremove, !fmap_Some.
    intros (? & Hk1 & ->) (? & Hk2 & ->) [_ H1]%list_elem_of_filter
      [_ H2]%list_elem_of_filter. eauto.
Qed.

Lemma absent_lremove t m : absent t (lremove t m).
Proof.
  intros k xs. rewrite lookup_lremove, fmap_Some. intros (ys & _ & ->).
  rewrite list_elem_of_filter. naive_solver.
Qed.

Lemma unique_insert k t xs xs' m :
  unique m -> absent t m -> m !! k = Some xs -> xs' ≡ₚ t :: xs ->
  unique (<[k := xs']> m).
Proof.
  intros [Hnd Hu] Ha Hk Hp. split.
  - intros j ys. rewrite lookup_insert. case_decide; [|eauto].
    intros [= <-]. rewrite Hp. apply NoDup_cons. split; [by eapply Ha|eauto].
  - intros k1 k2 xs1 xs2 u. rewrite !lookup_insert.
    repeat case_decide; intros E1 E2 Hu1 Hu2; simplify_eq; try done;
      rewrite ?Hp in *; try (by eapply Hu).
    + apply elem_of_cons in Hu1 as [->|?]; [by eapply Ha in Hu2|by eapply Hu].
    + apply elem_of_cons in Hu2 as [->|?]; [by eapply Ha in Hu1|by eapply Hu].
Qed.

Lemma fmap_inr_elem (x : H + T) (xs : list T) :
  x ∈ (inr <$> xs : list (H + T)) <-> exists t, x = inr t /\ t ∈ xs.
Proof. by rewrite list_elem_of_fmap. Qed.

(** A list or a lone node away from the touched list keeps its shape. *)
Lemma repr_other_list h h' m k xs j ys S :
  repr h m -> m !! k = Some xs -> m !! j = Some ys -> j <> k ->
  frame S h h' ->
  (forall x, x ∈ S -> x = inl k \/ exists u, x = inr u /\ (u ∈ xs \/ absent u m)) ->
  dlist h' (inl j) (inr <$> ys).
Proof.
  intros ([_ Hu] & Hl & _) Hk Hj Hne HF HS. eapply dlist_frame; [done| |by apply Hl].
  intros x Hx HxS. apply HS in HxS as [->|(u & -> & Hu')];
    apply elem_of_cons in Hx as [Hx|Hx]; try congruence;
    apply fmap_inr_elem in Hx as (t & Ht & Hin); simplify_eq.
  destruct Hu' as [Hin'|Ha]; [by eapply Hne, Hu|by eapply Ha].
Qed.

Lemma repr_other_node h h' m k xs u S :
  repr h m -> m !! k = Some xs -> u ∈ D -> absent u m -> frame S h h' ->
  (forall x, x ∈ S -> x = inl k \/ exists t, x = inr t /\ (t ∈ xs \/ t <> u)) ->
  dlist h' (inr u) [].
Proof.
  intros (_ & _ & Hs) Hk HD Ha HF HS. eapply dlist_frame; [done| |by apply Hs].
  intros x ->%list_elem_of_singleton HxS.
  apply HS in HxS as [?|(t & [= <-] & [Hin|?])]; [done|by eapply Ha|done].
Qed.

Lemma lremove_repr h m t :
  repr h m -> t ∈ D -> exists h', rt_list_remove (inr t) h = Some h' /\ repr h' (lremove t m).
Proof.
  intros Hr HD. pose proof Hr as (Hu & Hl & Hs).
  destruct (absent_dec t m) as [Ha|(k & xs & Hk & Hin)].
  - destruct (dlist_remove_single h (inr t)) as (h' & E & HF); [by apply Hs|].
    exists h'. split; [done|]. split; [by apply unique_lremove|]. split.
    + intros j ys. rewrite lookup_lremove, fmap_Some. intros (ys' & Hj & ->).
      rewrite filter_absent by (by eapply Ha).
      eapply dlist_frame; [done|set_solver|eauto].
    + intros u Hud Hu'. eapply dlist_frame; [done|set_solver|]. apply Hs; [done|].
      intros j ys Hj Hin. eapply Hu'; [by rewrite lookup_lremove, Hj|].
      by rewrite filter_absent by (by eapply Ha).
  - apply list_elem_of_split in Hin as (ys & zs & ->).
    pose proof (proj1 Hu _ _ Hk) as Hnd. pose proof (Hl _ _ Hk) as Hd.
    rewrite fmap_app, fmap_cons in Hd.
    destruct (dlist_remove _ _ _ _ _ Hd) as (h' & E & Hd1 & Hd2 & HF).
    assert (forall x, x ∈ inl k :: (inr <$> ys) ++ inr t :: (inr <$> zs) ->
      x = inl k \/ exists u, x = inr u /\ u ∈ ys ++ t :: zs) as HS.
    { intros x. rewrite <- fmap_cons, <- fmap_app.
      intros [->|(u & -> & ?)%fmap_inr_elem]%elem_of_cons; eauto. }
    exists h'. split; [done|]. split; [by apply unique_lremove|]. split.
    + intros j xs. rewrite lookup_lremove, fmap_Some. intros (xs' & Hj & ->).
      destruct (decide (j = k)) as [->|Hne].
      * rewrite Hk in Hj. injection Hj as <-. rewrite filter_split by done.
        by rewrite fmap_app.
      * rewrite filter_absent.
        -- eapply (repr_other_list h h' m k); eauto.
           intros x Hx. apply HS in Hx. naive_solver.
        -- intros Hin. apply Hne. eapply (proj2 Hu); eauto. set_solver +.
    + intros u Hud Hu'. destruct (decide (u = t)) as [->|Hne]; [done|].
      eapply (repr_other_node h h' m k); eauto;
        [|intros x Hx; apply HS in Hx; naive_solver].
      intros j xs Hj Hin. eapply Hu'; [by rewrite lookup_lremove, Hj|].
      by apply list_elem_of_filter.
Qed.

(** Inserting a lone node [t] in front of [zs] in the list of [k], by either of
    the two insertion functions, once the pointer-level lemma is known. *)
Lemma insert_repr h h' m k ys zs t :
  repr h m -> t ∈ D -> absent t m -> m !! k = Some (ys ++ zs) ->
  dlist h' (inl k) ((inr <$> ys) ++ inr t :: (inr <$> zs)) ->
  frame (inr t :: inl k :: (inr <$> ys) ++ (inr <$> zs)) h h' ->
  repr h' (<[k := ys ++ t :: zs]> m).
Proof.
  intros Hr HD Ha Hk Hd HF. pose proof Hr as (Hu & Hl & Hs).
  assert (forall x, x ∈ inr t :: inl k :: (inr <$> ys) ++ (inr <$> zs) ->
    x = inl k \/ exists u, x = inr u /\ (u ∈ ys ++ zs \/ u = t)) as HS.
  { intros x. rewrite <- fmap_app.
    intros [->|[->|(u & -> & ?)%fmap_inr_elem]%elem_of_cons]%elem_of_cons; eauto. }
  split; [eapply unique_insert; eauto; by rewrite Permutation_middle|]. split.
  - intros j xs. rewrite lookup_insert. case_decide as Hj.
    + intros [= <-]. subst. by rewrite fmap_app, fmap_cons.
    + intros Hjx. eapply (repr_other_list h h' m k); eauto.
      intros x Hx. apply HS in Hx. naive_solver.
  - intros u Hud Hu'. assert (u ∉ ys ++ t :: zs) as Hnu.
    { eapply Hu'. apply lookup_insert_eq. }
    eapply (repr_other_node h h' m k); eauto.
    + intros j xs Hj Hin. destruct (decide (j = k)) as [->|Hne].
      * rewrite Hk in Hj. simplify_eq. set_solver.
      * eapply Hu'; [by rewrite lookup_insert_ne|done].
    + intros x Hx. apply HS in Hx. set_solver.
Qed.

Lemma lone_fresh h m k t :
  repr h m -> t ∈ D -> absent t m -> forall xs, m !! k = Some xs ->
  is_Some (get_next (inr t) h) /\ inr t ∉ (inl k : H + T) :: (inr <$> xs).
Proof.
  intros (_ & Hl & Hs) HD Ha xs Hk. split.
  - destruct (Hs t HD Ha) as [_ [HN _]]. eauto.
  - intros [?|(u & [= <-] & Hin)%fmap_inr_elem]%elem_of_cons; [done|by eapply Ha].
Qed.

Lemma alter_lookup (f : list T -> list T) k (m : gmap H (list T)) xs :
  m !! k = Some xs -> alter f k m = <[k := f xs]> m.
Proof.
  intros Hk. apply map_eq. intros j. rewrite lookup_alter, lookup_insert.
  by case_decide; [subst; rewrite Hk|].
Qed.

Lemma lpush_back_repr h m k t :
  repr h m -> t ∈ D -> absent t m -> is_Some (m !! k) ->
  exists h', rt_list_insert_before (inl k) (inr t) h = Some h' /\
             repr h' (lpush_back k t m).
Proof.
  intros Hr HD Ha [xs Hk]. destruct (lone_fresh h m k t Hr HD Ha xs Hk) as [Hm Hf].
  destruct (dlist_insert_before h (inl k) (inr <$> xs) [] (inr t))
    as (h' & E & Hd & HF); rewrite ?app_nil_r; [by apply Hr|done|done|].
  exists h'. split; [done|]. unfold lpush_back. rewrite (alter_lookup _ _ _ xs Hk).
  apply (insert_repr h h' m k xs []); [done|done|done|by rewrite app_nil_r|done|done].
Qed.

Lemma lpush_front_repr h m k t :
  repr h m -> t ∈ D -> absent t m -> is_Some (m !! k) ->
  exists h', rt_list_insert_after (inl k) (inr t) h = Some h' /\
             repr h' (lpush_front k t m).
Proof.
  intros Hr HD Ha [xs Hk]. destruct (lone_fresh h m k t Hr HD Ha xs Hk) as [Hm Hf].
  destruct (dlist_insert_after h (inl k) [] (inr <$> xs) (inr t))
    as (h' & E & Hd & HF); [by apply Hr|done|done|].
  exists h'. split; [done|]. unfold lpush_front. rewrite (alter_lookup _ _ _ xs Hk).
  by apply (insert_repr h h' m k [] xs).
Qed.

Lemma linsert_before_eq m k u t ys zs :
  unique m -> m !! k = Some (ys ++ u :: zs) ->
  linsert_before u t m = <[k := ys ++ t :: u :: zs]> m.
Proof.
  intros [Hnd Hu] Hk. apply map_eq. intros j. unfold linsert_before.
  rewrite lookup_fmap, lookup_insert. case_decide as Hj; [subst; rewrite Hk; simpl|].
  - rewrite before_split; [done|]. apply Hnd, NoDup_app in Hk as (_ & Hdis & _).
    intros Hi. apply (Hdis u Hi). set_solver +.
  - destruct (m !! j) as [xs|] eqn:Ej; [simpl|done]. rewrite before_absent; [done|].
    intros Hi. apply Hj. eapply Hu; eauto. set_solver +.
Qed.

Lemma linsert_before_repr h m k xs u t :
  repr h m -> t ∈ D -> absent t m -> m !! k = Some xs -> u ∈ xs ->
  exists h', rt_list_insert_before (inr u) (inr t) h = Some h' /\
             repr h' (linsert_before u t m).
Proof.
  intros Hr HD Ha Hk Hin. destruct (lone_fresh h m k t Hr HD Ha xs Hk) as [Hm Hf].
  pose proof Hr as (Hu & Hl & _).
  apply list_elem_of_split in Hin as (ys & zs & ->).
  pose proof (Hl _ _ Hk) as Hd0. rewrite fmap_app in Hd0.
  destruct (dlist_insert_before h (inl k) (inr <$> ys) (inr <$> u :: zs) (inr t))
    as (h' & E & Hd & HF); [done|done|by rewrite fmap_app in Hf|].
  exists h'. split; [done|].
  rewrite (linsert_before_eq m k u t ys zs) by done.
  by apply (insert_repr h h' m k ys (u :: zs)).
Qed.

End store.

(** C11. The pointer-level rt_list operations refine operations on a store
    of sequences: on a heap that represents the store, removing a node
    (wherever it is linked), appending it before a head, inserting it after
    a head or before a queued node, testing emptiness and counting never
    fault and leave a heap that represents the sequence operation's result. *)
Theorem rt_list_refines_store {H T} `{!EqDecision H, !Countable H, !EqDecision T, !Countable T}
    (D : gset T) (h : gmap (H + T) rt_list_node) (m : gmap H (list T)) (t : T) :
  repr D h m -> t ∈ D ->
  (exists h', rt_list_remove (inr t) h = Some h' /\ repr D h' (lremove t m)) /\
  (absent t m -> forall k, is_Some (m !! k) ->
     (exists h', rt_list_insert_before (inl k) (inr t) h = Some h' /\
                 repr D h' (lpush_back k t m)) /\
     (exists h', rt_list_insert_after (inl k) (inr t) h = Some h' /\
                 repr D h' (lpush_front k t m))) /\
  (absent t m -> forall k xs u, m !! k = Some xs -> u ∈ xs ->
     exists h', rt_list_insert_before (inr u) (inr t) h = Some h' /\
                repr D h' (linsert_before u t m)) /\
  (forall k xs, m !! k = Some xs ->
     rt_list_isempty (inl k) h = Some (bool_decide (xs = [])) /\
     (zlen xs < 2 ^ 32 -> rt_list_len (S (length xs)) (inl k) h = Some (zlen xs))).
Proof.
  intros Hr HD. split; [by apply lremove_repr|]. split; [|split].
  - intros Ha k Hk. split; [by apply lpush_back_repr|by apply lpush_front_repr].
  - intros Ha k xs u Hk Hu. by eapply linsert_before_repr.
  - intros k xs Hk. destruct Hr as (_ & Hl & _). specialize (Hl k xs Hk).
    rewrite (dlist_isempty _ _ _ Hl). split.
    + f_equal. apply bool_decide_ext. by destruct xs.
    + intros Hz. rewrite (dlist_len h (inl k) (inr <$> xs));
        unfold zlen; rewrite ?length_fmap; [done|done|lia|done].
Qed.

(** One list head and two threads, [true] queued and [false] linked to itself. *)
Definition sample_heap : gmap (unit + bool) rt_list_node :=
  {[ inl () := mk_node (inr true) (inr true);
     inr true := mk_node (inl ()) (inl ());
     inr false := mk_node (inr false) (inr false) ]}.

Lemma sample_heap_repr :
  repr {[true; false]} sample_heap ({[ () := [true] ]} : gmap unit (list bool)).
Proof.
  split; [split|split].
  - intros [] xs [= <-]. apply NoDup_singleton.
  - by intros [] [].
  - intros [] xs [= <-]. split; [|by vm_compute].
    apply NoDup_cons. split; [set_solver|apply NoDup_singleton].
  - intros [] _ Ha; [destruct (Ha () [true]); [done|set_solver]|].
    split; [apply NoDup_singleton|by vm_compute].
Qed.

Lemma rt_list_refines_store_witness :
  exists h', rt_list_remove (inr true) sample_heap = Some h' /\
             repr {[true; false]} h' (lremove true ({[ () := [true] ]} : gmap unit (list bool))).
Proof.
  destruct (rt_list_refines_store {[true; false]} sample_heap {[ () := [true] ]} true
              sample_heap_repr) as [H _]; [set_solver|]. exact H.
Defined.

End RtList.
