(* ===== verification/RingBuffer.v ===== *)
(** * Byte ring buffer with mirror bits

    Models [components/drivers/src/ringbuffer.c] and the structure of
    [components/drivers/include/ipc/ringbuffer.h].  The buffer keeps a 15-bit
    index and a one-bit mirror for each end; equal indices mean "empty" when
    the mirrors agree and "full" when they differ.  The theorems relate every
    operation to the byte sequence the buffer holds ([contents]). *)

From S2P Require Import Prelude.

Module RingBuffer.

(** ** Data *)

Record rt_ringbuffer := mk_rb {
  buffer_ptr : list Z;       (** the pool the pointer designates *)
  read_mirror : Z;           (** 1-bit field *)
  read_index : Z;            (** 15-bit field *)
  write_mirror : Z;          (** 1-bit field *)
  write_index : Z;           (** 15-bit field *)
  buffer_size : Z;           (** rt_int16_t *)
}.

Inductive rt_ringbuffer_state :=
  | RT_RINGBUFFER_EMPTY
  | RT_RINGBUFFER_FULL
  | RT_RINGBUFFER_HALFFULL.

(** [~m] stored back into a one-bit field. *)
Definition flip (m : Z) : Z := wrapu 1 (Z.lnot m).

(** ** Operations *)

Definition rt_ringbuffer_status (rb : rt_ringbuffer) : rt_ringbuffer_state :=
  if read_index rb =? write_index rb then
    if read_mirror rb =? write_mirror rb then RT_RINGBUFFER_EMPTY
    else RT_RINGBUFFER_FULL
  else RT_RINGBUFFER_HALFFULL.

Definition rt_ringbuffer_init (pool : list Z) (size : Z) : rt_ringbuffer :=
  mk_rb pool 0 0 0 0 (i16 (RT_ALIGN_DOWN size RT_ALIGN_SIZE)).

Definition rt_ringbuffer_data_len (rb : rt_ringbuffer) : Z :=
  match rt_ringbuffer_status rb with
  | RT_RINGBUFFER_EMPTY => 0
  | RT_RINGBUFFER_FULL => u32 (buffer_size rb)
  | RT_RINGBUFFER_HALFFULL =>
      if write_index rb >? read_index rb then u32 (write_index rb - read_index rb)
      else u32 (buffer_size rb - (read_index rb - write_index rb))
  end.

(** The macro [rt_ringbuffer_space_len]. *)
Definition rt_ringbuffer_space_len (rb : rt_ringbuffer) : Z :=
  u32 (buffer_size rb - rt_ringbuffer_data_len rb).

Definition rt_ringbuffer_get_size (rb : rt_ringbuffer) : Z := u16 (buffer_size rb).

Definition rt_ringbuffer_put (rb : rt_ringbuffer) (ptr : list Z) (length : Z)
  : rt_ringbuffer * Z :=
  let size := u16 (rt_ringbuffer_space_len rb) in
  if size =? 0 then (rb, 0) else
  let length := if size <? length then size else length in
  let w := write_index rb in
  let bs := buffer_size rb in
  if bs - w >? length then
    (mk_rb (memcpy (buffer_ptr rb) w ptr length)
       (read_mirror rb) (read_index rb) (write_mirror rb) (u15 (w + length)) bs,
     length)
  else
    let pool1 := memcpy (buffer_ptr rb) w ptr (bs - w) in
    let pool2 := memcpy pool1 0 (drop (Z.to_nat (bs - w)) ptr) (length - (bs - w)) in
    (mk_rb pool2 (read_mirror rb) (read_index rb)
       (flip (write_mirror rb)) (u15 (length - (bs - w))) bs,
     length).

Definition rt_ringbuffer_put_force (rb : rt_ringbuffer) (ptr : list Z) (length : Z)
  : rt_ringbuffer * Z :=
  let space_length := u16 (rt_ringbuffer_space_len rb) in
  let bs := buffer_size rb in
  let '(ptr, length) :=
    if length >? bs then (drop (Z.to_nat (length - bs)) ptr, u16 bs)
    else (ptr, length) in
  let w := write_index rb in
  if bs - w >? length then
    let w' := u15 (w + length) in
    (mk_rb (memcpy (buffer_ptr rb) w ptr length)
       (read_mirror rb) (if length >? space_length then w' else read_index rb)
       (write_mirror rb) w' bs,
     length)
  else
    let pool1 := memcpy (buffer_ptr rb) w ptr (bs - w) in
    let pool2 := memcpy pool1 0 (drop (Z.to_nat (bs - w)) ptr) (length - (bs - w)) in
    let w' := u15 (length - (bs - w)) in
    (if length >? space_length then
       mk_rb pool2 (flip (read_mirror rb)) w' (flip (write_mirror rb)) w' bs
     else
       mk_rb pool2 (read_mirror rb) (read_index rb) (flip (write_mirror rb)) w' bs,
     length).

(** Returns the buffer, the bytes stored through [ptr], and the count. *)
Definition rt_ringbuffer_get (rb : rt_ringbuffer) (ptr : list Z) (length : Z)
  : rt_ringbuffer * list Z * Z :=
  let size := rt_ringbuffer_data_len rb in
  if size =? 0 then (rb, ptr, 0) else
  let length := if size <? length then u16 size else length in
  let r := read_index rb in
  let bs := buffer_size rb in
  if bs - r >? length then
    (mk_rb (buffer_ptr rb) (read_mirror rb) (u15 (r + length))
       (write_mirror rb) (write_index rb) bs,
     memcpy ptr 0 (drop (Z.to_nat r) (buffer_ptr rb)) length,
     length)
  else
    let ptr1 := memcpy ptr 0 (drop (Z.to_nat r) (buffer_ptr rb)) (bs - r) in
    let ptr2 := memcpy ptr1 (bs - r) (buffer_ptr rb) (length - (bs - r)) in
    (mk_rb (buffer_ptr rb) (flip (read_mirror rb)) (u15 (length - (bs - r)))
       (write_mirror rb) (write_index rb) bs,
     ptr2, length).

Definition rt_ringbuffer_putchar (rb : rt_ringbuffer) (ch : Z) : rt_ringbuffer * Z :=
  if rt_ringbuffer_space_len rb =? 0 then (rb, 0) else
  let pool := zset (buffer_ptr rb) (write_index rb) ch in
  (if write_index rb =? buffer_size rb - 1 then
     mk_rb pool (read_mirror rb) (read_index rb)
       (flip (write_mirror rb)) 0 (buffer_size rb)
   else
     mk_rb pool (read_mirror rb) (read_index rb)
       (write_mirror rb) (u15 (write_index rb + 1)) (buffer_size rb),
   1).

Definition rt_ringbuffer_putchar_force (rb : rt_ringbuffer) (ch : Z)
  : rt_ringbuffer * Z :=
  let full := match rt_ringbuffer_status rb with
              | RT_RINGBUFFER_FULL => true | _ => false end in
  let pool := zset (buffer_ptr rb) (write_index rb) ch in
  (if write_index rb =? buffer_size rb - 1 then
     mk_rb pool
       (if full then flip (read_mirror rb) else read_mirror rb)
       (if full then 0 else read_index rb)
       (flip (write_mirror rb)) 0 (buffer_size rb)
   else
     let w' := u15 (write_index rb + 1) in
     mk_rb pool (read_mirror rb) (if full then w' else read_index rb)
       (write_mirror rb) w' (buffer_size rb),
   1).

(** Returns the buffer, the value left in [*ch], and the count. *)
Definition rt_ringbuffer_getchar (rb : rt_ringbuffer) (ch : Z)
  : rt_ringbuffer * Z * Z :=
  if rt_ringbuffer_data_len rb =? 0 then (rb, ch, 0) else
  let ch := zget (buffer_ptr rb) (read_index rb) in
  (if read_index rb =? buffer_size rb - 1 then
     mk_rb (buffer_ptr rb) (flip (read_mirror rb)) 0
       (write_mirror rb) (write_index rb) (buffer_size rb)
   else
     mk_rb (buffer_ptr rb) (read_mirror rb) (u15 (read_index rb + 1))
       (write_mirror rb) (write_index rb) (buffer_size rb),
   ch, 1).

Definition rt_ringbuffer_reset (rb : rt_ringbuffer) : rt_ringbuffer :=
  mk_rb (buffer_ptr rb) 0 0 0 0 (buffer_size rb).

(** ** Well-formedness and the abstract byte queue *)

(** The read end is never ahead of the write end on the doubled (mirrored)
    buffer, and never more than one buffer behind it. *)
Record wf (rb : rt_ringbuffer) : Prop := {
  wf_size : 0 < buffer_size rb < 2 ^ 15;
  wf_pool : buffer_size rb <= zlen (buffer_ptr rb);
  wf_r : 0 <= read_index rb < buffer_size rb;
  wf_w : 0 <= write_index rb < buffer_size rb;
  wf_rm : read_mirror rb = 0 \/ read_mirror rb = 1;
  wf_wm : write_mirror rb = 0 \/ write_mirror rb = 1;
  wf_order :
    if read_mirror rb =? write_mirror rb then read_index rb <= write_index rb
    else write_index rb <= read_index rb;
}.

(** Position of the [i]-th byte after the read end. *)
Definition slot (n i : Z) : Z := if i <? n then i else i - n.

Definition contents (rb : rt_ringbuffer) : list Z :=
  (fun i => zget (buffer_ptr rb) (slot (buffer_size rb) (read_index rb + Z.of_nat i)))
    <$> seq 0 (Z.to_nat (rt_ringbuffer_data_len rb)).

(** The last [n] bytes of a sequence. *)
Definition lastn (n : Z) (l : list Z) : list Z := drop (Z.to_nat (zlen l - n)) l.

(** ** Lemmas *)

Lemma flip_01 m : m = 0 \/ m = 1 -> flip m = 1 - m.
Proof. by intros [-> | ->]. Qed.

Lemma data_len_eq rb :
  wf rb ->
  rt_ringbuffer_data_len rb =
  write_index rb - read_index rb
  + (if read_mirror rb =? write_mirror rb then 0 else buffer_size rb).
Proof.
  intros [Hs Hp Hr Hw Hrm Hwm Ho].
  unfold rt_ringbuffer_data_len, rt_ringbuffer_status.
  repeat case_bool; repeat (rewrite wrapu_small by lia); lia.
Qed.

Lemma data_len_range rb : wf rb -> 0 <= rt_ringbuffer_data_len rb <= buffer_size rb.
Proof.
  intros Hwf. rewrite data_len_eq by done. destruct Hwf.
  case_bool; lia.
Qed.

Lemma space_len_eq rb :
  wf rb -> rt_ringbuffer_space_len rb = buffer_size rb - rt_ringbuffer_data_len rb.
Proof.
  intros Hwf. pose proof (data_len_range rb Hwf). destruct Hwf.
  unfold rt_ringbuffer_space_len. rewrite wrapu_small by lia. done.
Qed.

Lemma zlen_contents rb : wf rb -> zlen (contents rb) = rt_ringbuffer_data_len rb.
Proof.
  intros Hwf. pose proof (data_len_range rb Hwf).
  unfold contents, zlen. rewrite length_fmap, length_seq. lia.
Qed.

Lemma zget_contents rb i :
  wf rb -> 0 <= i < rt_ringbuffer_data_len rb ->
  zget (contents rb) i =
  zget (buffer_ptr rb) (slot (buffer_size rb) (read_index rb + i)).
Proof.
  intros Hwf Hi. unfold contents, zget at 1. rewrite nth_lookup_default.
  rewrite list_lookup_fmap, lookup_seq_lt by lia. simpl.
  do 3 f_equal. lia.
Qed.

(** To identify the contents of a well-formed buffer it is enough to compare
    lengths and bytes. *)
Lemma contents_intro rb l :
  wf rb -> zlen l = rt_ringbuffer_data_len rb ->
  (forall i, 0 <= i < zlen l ->
     zget (buffer_ptr rb) (slot (buffer_size rb) (read_index rb + i)) = zget l i) ->
  contents rb = l.
Proof.
  intros Hwf Hlen Hget. apply zlist_eq.
  - by rewrite zlen_contents.
  - intros i Hi. rewrite zlen_contents in Hi by done.
    rewrite zget_contents by done. apply Hget. lia.
Qed.

Ltac wf_facts H :=
  pose proof (data_len_range _ H);
  pose proof (space_len_eq _ H);
  pose proof (data_len_eq _ H);
  let H' := fresh in
  pose proof H as H'; destruct H'.

(** [pool'] is [pool] after [n] bytes of [ptr] were copied in at [w], wrapping
    around at [bs]. *)
Definition copied (bs : Z) (pool : list Z) (w : Z) (ptr : list Z) (n : Z)
    (pool' : list Z) : Prop :=
  zlen pool' = zlen pool /\
  forall i, 0 <= i < bs ->
    zget pool' (slot bs (w + i)) =
    if i <? n then zget ptr i else zget pool (slot bs (w + i)).

Lemma copied_none bs pool w ptr : copied bs pool w ptr 0 pool.
Proof. split; [done|]. intros i Hi. case_bool; [lia|done]. Qed.

Lemma copied_linear bs pool w ptr n :
  0 <= w < bs -> bs <= zlen pool -> 0 <= n <= zlen ptr -> w + n <= bs ->
  copied bs pool w ptr n (memcpy pool w ptr n).
Proof.
  intros Hw Hbs Hn Hwn. split; [apply zlen_memcpy|]. intros i Hi.
  unfold slot. case_bool; rewrite zget_memcpy by lia; repeat case_bool; simpl;
    try done; try lia. f_equal. lia.
Qed.

Lemma copied_wrapped bs pool w ptr n :
  0 <= w < bs -> bs <= zlen pool -> 0 <= n <= zlen ptr -> n <= bs -> bs - w <= n ->
  copied bs pool w ptr n
    (memcpy (memcpy pool w ptr (bs - w)) 0
       (drop (Z.to_nat (bs - w)) ptr) (n - (bs - w))).
Proof.
  intros Hw Hbs Hn Hn' Hwn. split; [by rewrite !zlen_memcpy|]. intros i Hi.
  unfold slot. case_bool;
    rewrite zget_memcpy by (rewrite ?zlen_memcpy, ?zlen_drop by lia; lia);
    rewrite zget_memcpy by (rewrite ?zlen_memcpy, ?zlen_drop by lia; lia);
    rewrite ?zget_drop by lia; repeat case_bool; simpl; try lia.
  all: rewrite ?zget_drop by lia; try (f_equal; lia).
Qed.

Lemma copied_zset bs pool w ch :
  0 <= w < bs -> bs <= zlen pool -> copied bs pool w [ch] 1 (zset pool w ch).
Proof.
  intros Hw Hbs. split; [apply zlen_zset|]. intros i Hi.
  unfold slot. case_bool; rewrite zget_zset by lia; repeat case_bool; try lia; try done.
  by replace i with 0 by lia.
Qed.

(** The one step every operation takes on the byte queue: append [n] bytes at
    the write end, drop [s] bytes at the read end. *)
Lemma contents_step rb rb' ptr n s :
  wf rb -> wf rb' -> buffer_size rb' = buffer_size rb ->
  copied (buffer_size rb) (buffer_ptr rb) (write_index rb) ptr n (buffer_ptr rb') ->
  0 <= n <= zlen ptr -> n <= buffer_size rb ->
  0 <= s <= buffer_size rb ->
  rt_ringbuffer_data_len rb' = rt_ringbuffer_data_len rb + n - s ->
  read_index rb' = slot (buffer_size rb) (read_index rb + s) ->
  contents rb' = drop (Z.to_nat s) (contents rb ++ take (Z.to_nat n) ptr).
Proof.
  intros Hwf Hwf' Hbs [_ Hcp] Hn Hn' Hs Hd Hr.
  wf_facts Hwf. pose proof (data_len_range _ Hwf').
  assert (write_index rb = slot (buffer_size rb)
            (read_index rb + rt_ringbuffer_data_len rb)) as Hw.
  { unfold slot. repeat case_bool; repeat case_bool_in H1; try lia. }
  apply contents_intro; [done|..];
    rewrite zlen_drop, zlen_app, zlen_take, zlen_contents by (lia || done); [lia|].
  intros i Hi. rewrite Hr, Hbs, zget_drop, zget_app, zlen_contents by (lia || done).
  case_bool.
  - rewrite zget_contents by (lia || done).
    specialize (Hcp (s + i - rt_ringbuffer_data_len rb + buffer_size rb)).
    replace (slot _ (write_index rb + _)) with
      (slot (buffer_size rb) (read_index rb + (s + i))) in Hcp
      by (rewrite Hw; unfold slot; repeat case_bool; lia).
    replace (slot _ (slot _ _ + i)) with
      (slot (buffer_size rb) (read_index rb + (s + i)))
      by (unfold slot; repeat case_bool; lia).
    rewrite Hcp by lia. case_bool; [lia|done].
  - rewrite zget_take by lia.
    specialize (Hcp (s + i - rt_ringbuffer_data_len rb)).
    replace (slot _ (slot _ _ + i)) with
      (slot (buffer_size rb) (write_index rb + (s + i - rt_ringbuffer_data_len rb)))
      by (rewrite Hw; unfold slot; repeat case_bool; lia).
    rewrite Hcp by lia. case_bool; [done|lia].
Qed.

(** Discharges the index and mirror side conditions of an operation's result:
    opens both ends, decides the mirrors, and leaves linear arithmetic. *)
Ltac rb_ends rb :=
  destruct (Z.eqb_spec (read_mirror rb) (write_mirror rb));
  rewrite ?flip_01, ?wrapu_small in * by lia; repeat case_bool; try lia.

Ltac rb_wf rb :=
  constructor; simpl; rewrite ?zlen_memcpy, ?zlen_zset; try lia;
  rb_ends rb.

(** Proves the well-formedness part of a specification and keeps it. *)
Ltac rb_split rb H :=
  match goal with
  | |- wf ?r /\ _ => assert (wf r) as H; [rb_wf rb | split; [exact H|]]
  end.

(** The data length of a result, once it is known to be well-formed. *)
Ltac rb_len rb Hwf' :=
  rewrite (data_len_eq _ Hwf'); simpl; rb_ends rb.

(** Applies [contents_step] to an operation that appends [n] bytes of [ptr]
    and drops as many bytes as overrun the buffer. *)
Ltac rb_step rb ptr n Hwf' copy :=
  rewrite (contents_step rb _ ptr n
    (Z.max 0 (rt_ringbuffer_data_len rb + n - buffer_size rb)));
  simpl; try done; try lia; try (by apply copy; lia);
  try (solve [rb_len rb Hwf']); try (solve [unfold slot; rb_ends rb]).

Lemma put_step rb ptr n :
  wf rb -> 0 <= n <= zlen ptr -> n < 2 ^ 16 ->
  let '(rb', k) := rt_ringbuffer_put rb ptr n in
  wf rb' /\ k = Z.min n (buffer_size rb - rt_ringbuffer_data_len rb) /\
  contents rb' = contents rb ++ take (Z.to_nat k) ptr.
Proof.
  intros Hwf Hn Hn'. wf_facts Hwf.
  unfold rt_ringbuffer_put. rewrite (wrapu_small 16) by lia.
  destruct (Z.eqb_spec (rt_ringbuffer_space_len rb) 0).
  { split; [done|]. split; [lia|]. by rewrite take_0, app_nil_r. }
  set (k := if _ <? n then _ else _).
  assert (k = Z.min n (buffer_size rb - rt_ringbuffer_data_len rb)) as Hk
    by (subst k; case_bool; lia).
  clearbody k. rewrite Z.gtb_ltb.
  destruct (Z.ltb_spec k (buffer_size rb - write_index rb));
    rb_split rb Hwf'; (split; [done|]).
  - rb_step rb ptr k Hwf' copied_linear.
    by replace (Z.max 0 _) with 0 by lia.
  - rb_step rb ptr k Hwf' copied_wrapped.
    by replace (Z.max 0 _) with 0 by lia.
Qed.

(** Keeping the last [bs] bytes only depends on the last [bs] bytes of what
    was appended. *)
Lemma lastn_app_tail bs (l k : list Z) :
  0 <= bs -> zlen l <= bs ->
  lastn bs (l ++ k) =
  drop (Z.to_nat (zlen l + Z.min (zlen k) bs - bs))
    (l ++ drop (Z.to_nat (zlen k - Z.min (zlen k) bs)) k).
Proof.
  intros Hbs Hl. unfold lastn. rewrite zlen_app.
  pose proof (zlen_nonneg k). destruct (decide (zlen k <= bs)).
  - rewrite Z.min_l by lia. by replace (zlen k - zlen k) with 0 by lia.
  - rewrite Z.min_r by lia. unfold zlen in *.
    rewrite !drop_app_ge by lia. rewrite !drop_drop. f_equal. lia.
Qed.

(** Exactly when a forced put loses everything: the ends are on the same side
    of the mirror, the write crosses it, and it overruns the read end. *)
Definition put_force_collapses (rb : rt_ringbuffer) (n : Z) : bool :=
  (read_mirror rb =? write_mirror rb)
  && (buffer_size rb - write_index rb <=? Z.min n (buffer_size rb))
  && (buffer_size rb - rt_ringbuffer_data_len rb <? Z.min n (buffer_size rb)).

Lemma contents_empty rb : wf rb -> rt_ringbuffer_data_len rb = 0 -> contents rb = [].
Proof. intros Hwf Hd. unfold contents. by rewrite Hd. Qed.

Lemma put_force_core rb ptr m :
  wf rb -> zlen ptr = m -> m <= buffer_size rb ->
  let '(rb', k) := rt_ringbuffer_put_force rb ptr m in
  wf rb' /\ k = m /\
  contents rb' =
    if put_force_collapses rb m then []
    else drop (Z.to_nat (rt_ringbuffer_data_len rb + m - buffer_size rb)) (contents rb ++ ptr).
Proof.
  intros Hwf Hm Hbs. wf_facts Hwf. pose proof (zlen_nonneg ptr).
  unfold rt_ringbuffer_put_force, put_force_collapses.
  rewrite (wrapu_small 16 (rt_ringbuffer_space_len rb)) by lia.
  rewrite Z.gtb_ltb. destruct (Z.ltb_spec (buffer_size rb) m) as [?|_]; [lia|].
  rewrite Z.min_l by lia. rewrite !Z.gtb_ltb.
  replace (Z.to_nat (rt_ringbuffer_data_len rb + m - buffer_size rb)) with
    (Z.to_nat (Z.max 0 (rt_ringbuffer_data_len rb + m - buffer_size rb))) by lia.
  assert (take (Z.to_nat m) ptr = ptr) as Htk by (apply take_ge; unfold zlen in *; lia).
  destruct (Z.ltb_spec m (buffer_size rb - write_index rb));
    destruct (Z.ltb_spec (rt_ringbuffer_space_len rb) m);
    rb_split rb Hwf'; (split; [done|]).
  - assert (read_mirror rb <> write_mirror rb) by rb_ends rb.
    rb_step rb ptr m Hwf' copied_linear. rewrite Htk. repeat case_bool; simpl; first [done|lia].
  - rb_step rb ptr m Hwf' copied_linear. rewrite Htk. repeat case_bool; simpl; first [done|lia].
  - destruct (Z.eqb_spec (read_mirror rb) (write_mirror rb)) as [Hm'|Hm'].
    + rewrite contents_empty; [|done|rb_len rb Hwf'].
      repeat case_bool; simpl; try done; lia.
    + rb_step rb ptr m Hwf' copied_wrapped. by rewrite Htk.
  - rb_step rb ptr m Hwf' copied_wrapped. rewrite Htk. repeat case_bool; simpl; first [done|lia].
Qed.

Lemma put_force_clamp rb ptr n :
  wf rb -> zlen ptr = n -> buffer_size rb < n ->
  rt_ringbuffer_put_force rb ptr n =
  rt_ringbuffer_put_force rb (drop (Z.to_nat (n - buffer_size rb)) ptr) (buffer_size rb).
Proof.
  intros Hwf Hn Hgt. destruct Hwf.
  unfold rt_ringbuffer_put_force. rewrite !Z.gtb_ltb.
  destruct (Z.ltb_spec (buffer_size rb) n); [|lia].
  destruct (Z.ltb_spec (buffer_size rb) (buffer_size rb)); [lia|].
  by rewrite (wrapu_small 16 (buffer_size rb)) by lia.
Qed.

(** ** Theorems *)

(** The size is the pool size rounded down to the alignment. *)
Lemma init_empty pool size :
  4 <= size < 2 ^ 15 -> size <= zlen pool ->
  let rb := rt_ringbuffer_init pool size in
  wf rb /\ contents rb = [] /\ buffer_size rb = size / 4 * 4.
Proof.
  intros Hs Hp. unfold rt_ringbuffer_init, RT_ALIGN_SIZE.
  rewrite RT_ALIGN_DOWN_4, wraps_small by zlia. cbv zeta.
  assert (0 < size / 4 * 4 <= size) by zlia.
  split; [constructor; simpl; lia|]. by split.
Qed.

(** rt_ringbuffer_put appends to the queue the first min(length, space)
    bytes of its argument, returns that number and keeps the buffer well
    formed, whether or not the copy wraps around the end. *)
Theorem rt_ringbuffer_put_appends rb ptr n :
  wf rb -> 0 <= n <= zlen ptr -> n < 2 ^ 16 ->
  let '(rb', k) := rt_ringbuffer_put rb ptr n in
  wf rb' /\ k = Z.min n (buffer_size rb - zlen (contents rb)) /\
  contents rb' = contents rb ++ take (Z.to_nat k) ptr.
Proof.
  intros Hwf Hn Hn'. rewrite zlen_contents by done. by apply put_step.
Qed.

Lemma put_force_step rb ptr n :
  wf rb -> zlen ptr = n ->
  let '(rb', k) := rt_ringbuffer_put_force rb ptr n in
  wf rb' /\ k = Z.min n (buffer_size rb) /\
  contents rb' =
    if put_force_collapses rb n then []
    else lastn (buffer_size rb) (contents rb ++ ptr).
Proof.
  intros Hwf Hn. wf_facts Hwf. pose proof (zlen_nonneg ptr).
  rewrite lastn_app_tail by (rewrite ?zlen_contents by done; lia).
  rewrite zlen_contents, Hn by done.
  destruct (decide (buffer_size rb < n)).
  - rewrite put_force_clamp by done.
    pose proof (put_force_core rb (drop (Z.to_nat (n - buffer_size rb)) ptr)
      (buffer_size rb) Hwf) as Hc.
    rewrite zlen_drop in Hc by lia.
    replace (put_force_collapses rb n) with (put_force_collapses rb (buffer_size rb)).
    + rewrite !Z.min_r by lia. apply Hc; lia.
    + unfold put_force_collapses. by rewrite !Z.min_r by lia.
  - rewrite !Z.min_l by lia. replace (n - n) with 0 by lia. rewrite drop_0.
    apply put_force_core; [done|done|lia].
Qed.

(** What [rt_ringbuffer_get] copies out: bytes [0..k) of the queue, in order,
    whether or not they straddle the end of the pool. *)
Lemma get_bytes rb ptr k :
  wf rb -> 0 <= k <= rt_ringbuffer_data_len rb -> k <= zlen ptr ->
  let r := read_index rb in let bs := buffer_size rb in
  (k < bs - r ->
   memcpy ptr 0 (drop (Z.to_nat r) (buffer_ptr rb)) k
   = take (Z.to_nat k) (contents rb) ++ drop (Z.to_nat k) ptr) /\
  (bs - r <= k ->
   memcpy (memcpy ptr 0 (drop (Z.to_nat r) (buffer_ptr rb)) (bs - r)) (bs - r)
     (buffer_ptr rb) (k - (bs - r))
   = take (Z.to_nat k) (contents rb) ++ drop (Z.to_nat k) ptr).
Proof.
  intros Hwf Hk Hp r bs. wf_facts Hwf.
  split; intros Hc; apply zlist_eq;
    rewrite ?zlen_memcpy, ?zlen_app, ?zlen_take, ?zlen_drop, ?zlen_contents
      by (lia || done); try lia.
  all: intros i Hi; rewrite zget_app, zlen_take, zlen_contents by (lia || done).
  all: rewrite ?zget_memcpy
    by (rewrite ?zlen_memcpy, ?zlen_drop by lia; subst r bs; lia).
  all: rewrite Z.min_l by lia; subst r bs; repeat case_bool; simpl; try lia.
  all: rewrite ?zget_take, ?zget_contents, ?zget_drop by (lia || done).
  all: unfold slot; repeat case_bool; try lia; f_equal; lia.
Qed.

Lemma get_step rb ptr n :
  wf rb -> 0 <= n <= zlen ptr -> n < 2 ^ 16 ->
  let '(rb', out, k) := rt_ringbuffer_get rb ptr n in
  wf rb' /\ k = Z.min n (rt_ringbuffer_data_len rb) /\
  out = take (Z.to_nat k) (contents rb) ++ drop (Z.to_nat k) ptr /\
  contents rb' = drop (Z.to_nat k) (contents rb).
Proof.
  intros Hwf Hn Hn'. wf_facts Hwf. unfold rt_ringbuffer_get.
  destruct (Z.eqb_spec (rt_ringbuffer_data_len rb) 0).
  { split; [done|]. split; [lia|]. by rewrite take_0, !drop_0. }
  set (k := if _ <? n then _ else _).
  assert (k = Z.min n (rt_ringbuffer_data_len rb)) as Hk
    by (subst k; rewrite wrapu_small by lia; case_bool; lia).
  clearbody k. rewrite Z.gtb_ltb.
  destruct (get_bytes rb ptr k) as [Hlin Hwrap]; [done|lia|lia|].
  destruct (Z.ltb_spec k (buffer_size rb - read_index rb));
    rb_split rb Hwf'; (split; [done|]); (split; [auto|]).
  all: rewrite (contents_step rb _ [] 0 k); simpl; try done; try lia.
  all: first [ by rewrite app_nil_r | by apply copied_none | rb_len rb Hwf'
             | unfold slot; rb_ends rb ].
Qed.

(** rt_ringbuffer_get removes the first min(length, stored) bytes from the
    queue, copies exactly them to the front of the caller's buffer and keeps
    the rest in order. *)
Theorem rt_ringbuffer_get_takes rb ptr n :
  wf rb -> 0 <= n <= zlen ptr -> n < 2 ^ 16 ->
  let '(rb', out, k) := rt_ringbuffer_get rb ptr n in
  wf rb' /\ k = Z.min n (zlen (contents rb)) /\
  out = take (Z.to_nat k) (contents rb) ++ drop (Z.to_nat k) ptr /\
  contents rb' = drop (Z.to_nat k) (contents rb).
Proof. intros Hwf ??. rewrite zlen_contents by done. by apply get_step. Qed.

(** A sample buffer: pool of 8, read end at 2, write end at 6, both on the same
    side of the mirror. *)
Definition sample_rb : rt_ringbuffer := mk_rb [10;11;12;13;14;15;16;17] 0 2 0 6 8.

Lemma sample_rb_wf : wf sample_rb.
Proof. constructor; simpl; vm_compute; intuition congruence. Qed.

Lemma rt_ringbuffer_put_appends_witness :
  contents (rt_ringbuffer_put sample_rb [1;2;3] 3).1 = contents sample_rb ++ [1;2;3].
Proof.
  apply (rt_ringbuffer_put_appends sample_rb [1;2;3] 3);
    [apply sample_rb_wf | vm_compute; intuition congruence | lia].
Defined.

Lemma rt_ringbuffer_get_takes_witness :
  contents (rt_ringbuffer_get sample_rb [0;0;0] 3).1.1 = drop 3 (contents sample_rb).
Proof.
  apply (rt_ringbuffer_get_takes sample_rb [0;0;0] 3);
    [apply sample_rb_wf | vm_compute; intuition congruence | lia].
Defined.

Lemma putchar_step rb ch :
  wf rb ->
  let '(rb', k) := rt_ringbuffer_putchar rb ch in
  wf rb' /\
  (rt_ringbuffer_data_len rb = buffer_size rb -> k = 0 /\ rb' = rb) /\
  (rt_ringbuffer_data_len rb < buffer_size rb ->
     k = 1 /\ contents rb' = contents rb ++ [ch]).
Proof.
  intros Hwf. wf_facts Hwf. unfold rt_ringbuffer_putchar.
  destruct (Z.eqb_spec (rt_ringbuffer_space_len rb) 0).
  { split; [done|]. split; [done|lia]. }
  destruct (Z.eqb_spec (write_index rb) (buffer_size rb - 1)).
  all: rb_split rb Hwf'; split; [lia|]; intros _; split; [done|].
  all: rb_step rb [ch] 1 Hwf' copied_zset; replace (Z.max 0 _) with 0 by lia; done.
Qed.

Lemma getchar_step rb ch :
  wf rb ->
  let '(rb', c, k) := rt_ringbuffer_getchar rb ch in
  wf rb' /\
  match contents rb with
  | [] => k = 0 /\ c = ch /\ rb' = rb
  | x :: xs => k = 1 /\ c = x /\ contents rb' = xs
  end.
Proof.
  intros Hwf. wf_facts Hwf. unfold rt_ringbuffer_getchar.
  destruct (Z.eqb_spec (rt_ringbuffer_data_len rb) 0).
  { split; [done|]. by rewrite contents_empty by done. }
  assert (exists xs, contents rb = zget (buffer_ptr rb) (read_index rb) :: xs) as [xs Hxs].
  { pose proof (zget_contents rb 0 Hwf) as Hg. pose proof (zlen_contents rb Hwf) as Hl.
    destruct (contents rb) as [|x xs]; [unfold zlen in Hl; simpl in Hl; lia|].
    exists xs. f_equal. unfold zget at 1 in Hg. simpl in Hg. rewrite Hg by lia.
    f_equal. unfold slot. case_bool; lia. }
  rewrite Hxs.
  destruct (Z.eqb_spec (read_index rb) (buffer_size rb - 1)).
  all: rb_split rb Hwf'; split; [done|]; split; [done|].
  all: rewrite (contents_step rb _ [] 0 1); simpl; try done; try lia.
  all: first [ by rewrite Hxs, app_nil_r | by apply copied_none | rb_len rb Hwf'
             | unfold slot; rb_ends rb ].
Qed.

Lemma putchar_force_step rb ch :
  wf rb ->
  let '(rb', k) := rt_ringbuffer_putchar_force rb ch in
  wf rb' /\ k = 1 /\ contents rb' = lastn (buffer_size rb) (contents rb ++ [ch]).
Proof.
  intros Hwf. wf_facts Hwf.
  rewrite lastn_app_tail by (rewrite ?zlen_contents by done; lia).
  rewrite zlen_contents by done. change (zlen [ch]) with 1.
  rewrite Z.min_l by lia. rewrite drop_0.
  unfold rt_ringbuffer_putchar_force, rt_ringbuffer_status.
  destruct (Z.eqb_spec (read_index rb) (write_index rb)),
    (Z.eqb_spec (read_mirror rb) (write_mirror rb)),
    (Z.eqb_spec (write_index rb) (buffer_size rb - 1)).
  all: rb_split rb Hwf'; split; [done|].
  all: rb_step rb [ch] 1 Hwf' copied_zset; f_equal; lia.
Qed.

(** Single-byte operations: putchar appends if there is room and otherwise
    changes nothing, putchar_force appends and drops the oldest byte when
    full, getchar removes and returns the oldest byte or returns 0 on an
    empty buffer. *)
Theorem rt_ringbuffer_char_fifo rb ch old :
  wf rb ->
  (let '(rb', k) := rt_ringbuffer_putchar rb ch in
   wf rb' /\
   if zlen (contents rb) =? buffer_size rb then k = 0 /\ rb' = rb
   else k = 1 /\ contents rb' = contents rb ++ [ch]) /\
  (let '(rb', c, k) := rt_ringbuffer_getchar rb old in
   wf rb' /\
   match contents rb with
   | [] => k = 0 /\ c = old /\ rb' = rb
   | x :: xs => k = 1 /\ c = x /\ contents rb' = xs
   end) /\
  (let '(rb', k) := rt_ringbuffer_putchar_force rb ch in
   wf rb' /\ k = 1 /\ contents rb' = lastn (buffer_size rb) (contents rb ++ [ch])).
Proof.
  intros Hwf. pose proof (data_len_range rb Hwf).
  split; [|split; [by apply getchar_step | by apply putchar_force_step]].
  pose proof (putchar_step rb ch Hwf) as Hp.
  destruct (rt_ringbuffer_putchar rb ch) as [rb' k].
  rewrite zlen_contents by done. destruct Hp as (Hw & Hfull & Hroom).
  split; [done|]. case_bool; [by apply Hfull | apply Hroom; lia].
Qed.

Lemma rt_ringbuffer_char_fifo_witness :
  contents (rt_ringbuffer_putchar sample_rb 99).1 = contents sample_rb ++ [99].
Proof. apply (rt_ringbuffer_char_fifo sample_rb 99 0), sample_rb_wf. Defined.

(** rt_ringbuffer_put_force keeps the buffer well formed and leaves the last
    buffer_size bytes of old contents followed by new data, except in
    exactly one situation (both mirrors equal, the write wraps and overruns
    the data), in which the buffer ends up empty. *)
Theorem rt_ringbuffer_put_force_result rb ptr n :
  wf rb -> zlen ptr = n ->
  let '(rb', k) := rt_ringbuffer_put_force rb ptr n in
  wf rb' /\ k = Z.min n (buffer_size rb) /\
  contents rb' =
    if put_force_collapses rb n then []
    else lastn (buffer_size rb) (contents rb ++ ptr).
Proof. apply put_force_step. Qed.

(** The defect of [rt_ringbuffer_put_force]: with four bytes queued in a buffer
    of eight, forcing five more leaves the buffer reporting "empty". *)
Lemma rt_ringbuffer_put_force_result_witness :
  contents sample_rb = [12;13;14;15] /\
  contents (rt_ringbuffer_put_force sample_rb [1;2;3;4;5] 5).1 = [].
Proof.
  split; [reflexivity|].
  pose proof (rt_ringbuffer_put_force_result sample_rb [1;2;3;4;5] 5 sample_rb_wf eq_refl)
    as H.
  apply H.
Defined.

(** ** Refinement of a bounded queue

    The calls of a producer and a consumer, with what they observe: the count of
    the bytes taken by a [put], the bytes delivered by a [get]. *)

Inductive rb_op :=
| OpPut (data : list Z) | OpGet (n : Z) | OpPutchar (ch : Z) | OpPutcharForce (ch : Z)
| OpGetchar | OpReset.

Definition rb_exec (op : rb_op) (rb : rt_ringbuffer) : rt_ringbuffer * list Z :=
  match op with
  | OpPut d => let '(rb, k) := rt_ringbuffer_put rb d (zlen d) in (rb, [k])
  | OpGet n =>
      let '(rb, out, k) := rt_ringbuffer_get rb (replicate (Z.to_nat n) 0) n in
      (rb, take (Z.to_nat k) out)
  | OpPutchar ch => let '(rb, k) := rt_ringbuffer_putchar rb ch in (rb, [k])
  | OpPutcharForce ch => let '(rb, k) := rt_ringbuffer_putchar_force rb ch in (rb, [k])
  | OpGetchar =>
      let '(rb, c, k) := rt_ringbuffer_getchar rb 0 in (rb, if k =? 0 then [] else [c])
  | OpReset => (rt_ringbuffer_reset rb, [])
  end.

(** The same calls on a queue of at most [size] bytes. *)
Definition queue_exec (size : Z) (op : rb_op) (q : list Z) : list Z * list Z :=
  match op with
  | OpPut d => let k := Z.min (zlen d) (size - zlen q) in (q ++ take (Z.to_nat k) d, [k])
  | OpGet n => (drop (Z.to_nat n) q, take (Z.to_nat n) q)
  | OpPutchar ch => if zlen q =? size then (q, [0]) else (q ++ [ch], [1])
  | OpPutcharForce ch => (lastn size (q ++ [ch]), [1])
  | OpGetchar => (tail q, take 1 q)
  | OpReset => ([], [])
  end.

(** Lengths are passed as [rt_uint16_t]. *)
Definition op_ok (op : rb_op) : Prop :=
  match op with OpPut d => zlen d < 2 ^ 16 | OpGet n => 0 <= n < 2 ^ 16 | _ => True end.

Fixpoint run {S} (exec : rb_op -> S -> S * list Z) (ops : list rb_op) (s : S) : S * list (list Z) :=
  match ops with
  | [] => (s, [])
  | op :: ops => let '(s, o) := exec op s in let '(s, os) := run exec ops s in (s, o :: os)
  end.

Lemma zlen_replicate n : 0 <= n -> zlen (replicate (Z.to_nat n) 0) = n.
Proof. intros. unfold zlen. rewrite length_replicate. lia. Qed.

Lemma take_min {A} (l : list A) n : 0 <= n -> take (Z.to_nat (Z.min n (zlen l))) l = take (Z.to_nat n) l.
Proof.
  intros Hn. unfold zlen. destruct (Z.min_spec n (Z.of_nat (length l))) as [[? ->]|[? ->]]; [done|].
  rewrite !take_ge by lia. done.
Qed.

Lemma drop_min {A} (l : list A) n : 0 <= n -> drop (Z.to_nat (Z.min n (zlen l))) l = drop (Z.to_nat n) l.
Proof.
  intros Hn. unfold zlen. destruct (Z.min_spec n (Z.of_nat (length l))) as [[? ->]|[? ->]]; [done|].
  rewrite !drop_ge by lia. done.
Qed.

Lemma rb_exec_size op rb : buffer_size (rb_exec op rb).1 = buffer_size rb.
Proof.
  destruct op; simpl; unfold rt_ringbuffer_put, rt_ringbuffer_get, rt_ringbuffer_putchar,
    rt_ringbuffer_putchar_force, rt_ringbuffer_getchar; repeat case_match; simplify_eq/=; done.
Qed.

(** One call: the queue and what the caller sees are as on the abstract queue. *)
Lemma rb_exec_refines op rb :
  wf rb -> op_ok op ->
  wf (rb_exec op rb).1 /\
  queue_exec (buffer_size rb) op (contents rb) = (contents (rb_exec op rb).1, (rb_exec op rb).2).
Proof.
  intros Hwf Hok. pose proof (zlen_contents rb Hwf) as Hl. pose proof (data_len_range rb Hwf) as Hr.
  destruct op as [d|n|ch|ch| |]; cbn [rb_exec queue_exec op_ok] in *.
  - pose proof (put_step rb d (zlen d) Hwf) as H. pose proof (zlen_nonneg d).
    destruct (rt_ringbuffer_put _ _ _) as [rb' k]. cbn [fst snd]. destruct H as (Hw & -> & ->); [lia|lia|].
    simpl. by rewrite Hl.
  - pose proof (get_step rb (replicate (Z.to_nat n) 0) n Hwf) as H.
    destruct (rt_ringbuffer_get _ _ _) as [[rb' out] k]. cbn [fst snd].
    destruct H as (Hw & -> & -> & ->); [rewrite zlen_replicate; lia|lia|]. simpl. split; [done|].
    rewrite <- Hl, drop_min by lia. f_equal. rewrite take_app_le.
    + rewrite take_take, Nat.min_id. by rewrite take_min by lia.
    + rewrite length_take. unfold zlen. lia.
  - pose proof (putchar_step rb ch Hwf) as H. destruct (rt_ringbuffer_putchar _ _) as [rb' k].
    cbn [fst snd].
    destruct H as (Hw & H1 & H2). simpl. split; [done|]. rewrite Hl.
    destruct (Z.eqb_spec (rt_ringbuffer_data_len rb) (buffer_size rb)) as [E|E].
    + by destruct (H1 E) as [-> ->].
    + by destruct H2 as [-> ->]; [lia|].
  - pose proof (putchar_force_step rb ch Hwf) as H.
    destruct (rt_ringbuffer_putchar_force _ _) as [rb' k]. cbn [fst snd]. by destruct H as (Hw & -> & ->).
  - pose proof (getchar_step rb 0 Hwf) as H. destruct (rt_ringbuffer_getchar _ _) as [[rb' c] k].
    cbn [fst snd].
    destruct H as (Hw & H). simpl. split; [done|].
    destruct (contents rb) as [|x xs] eqn:Ec; simpl.
    + by destruct H as (-> & -> & ->); rewrite Ec.
    + by destruct H as (-> & -> & ->).
  - pose proof Hwf as [H1 H2 _ _ _ _ _].
    assert (wf (rt_ringbuffer_reset rb)) as Hw by (constructor; simpl; lia || auto).
    split; [done|]. cbn [fst snd]. by rewrite (contents_empty (rt_ringbuffer_reset rb)).
Qed.

Lemma rb_run_refines ops : forall rb,
  wf rb -> Forall op_ok ops ->
  let '(rb', outs) := run rb_exec ops rb in
  wf rb' /\ run (queue_exec (buffer_size rb)) ops (contents rb) = (contents rb', outs).
Proof.
  induction ops as [|op ops IH]; intros rb Hwf Hok; [done|].
  apply Forall_cons in Hok as [Hop Hok]. destruct (rb_exec_refines op rb Hwf Hop) as [Hw Hq].
  pose proof (rb_exec_size op rb) as Hs. simpl. rewrite Hq.
  destruct (rb_exec op rb) as [rb1 o]. simpl in *. specialize (IH rb1 Hw Hok).
  rewrite Hs in IH. destruct (run rb_exec ops rb1) as [rb' os].
  destruct IH as [? E]. split; [done|]. by rewrite E.
Qed.

(** C31. A ring buffer refines a bounded queue: over any sequence of put,
    get, putchar, putchar_force, getchar and reset calls from
    rt_ringbuffer_init on, every call returns the counts and bytes that the
    abstract queue returns, and the stored bytes are the queue. *)
Theorem ringbuffer_refines_queue pool size ops :
  4 <= size < 2 ^ 15 -> size <= zlen pool -> Forall op_ok ops ->
  let '(rb, outs) := run rb_exec ops (rt_ringbuffer_init pool size) in
  wf rb /\ run (queue_exec (size / 4 * 4)) ops [] = (contents rb, outs).
Proof.
  intros Hs Hp Hok. destruct (init_empty pool size Hs Hp) as (Hwf & Hc & Hz).
  rewrite <- Hz, <- Hc. by apply rb_run_refines.
Qed.

Lemma ringbuffer_refines_queue_witness :
  (run rb_exec [OpPut [1; 2; 3]; OpGetchar; OpPut [4; 5; 6]; OpGet 9]
     (rt_ringbuffer_init (replicate 6 0) 6)).2 = [[3]; [1]; [2]; [2; 3; 4; 5]].
Proof.
  pose proof (ringbuffer_refines_queue (replicate 6 0) 6
    [OpPut [1; 2; 3]; OpGetchar; OpPut [4; 5; 6]; OpGet 9]) as H.
  destruct (run rb_exec _ _) as [rb outs]. destruct H as [_ H]; [lia|vm_compute; congruence|..].
  - repeat constructor; vm_compute; congruence.
  - assert (run (queue_exec (6 / 4 * 4)) [OpPut [1; 2; 3]; OpGetchar; OpPut [4; 5; 6]; OpGet 9] []
      = ([], [[3]; [1]; [2]; [2; 3; 4; 5]])) as E by reflexivity.
    rewrite E in H. exact (eq_sym (f_equal snd H)).
Defined.

End RingBuffer.
