(* ===== verification/SList.v ===== *)
(** * Single-linked lists

    The operations [rt_slist_*] of [include/rtservice.h] on pointers, and the
    sequences they implement.  A list is the node that heads it and the nodes that
    its [next] pointers lead to. *)

From S2P Require Import Prelude RtList.

Module SList.

(** The [next] fields of the nodes; [None] is [RT_NULL]. *)
Notation nodes := (gmap Z (option Z)).

(** ** Operations *)

Definition rt_slist_init (l : Z) (h : nodes) : nodes := <[l := None]> h.

Fixpoint tail_loop (fuel : nat) (l : Z) (h : nodes) : option Z :=
  nx ← h !! l;
  match nx, fuel with
  | None, _ => Some l
  | Some _, O => None
  | Some x, S fuel => tail_loop fuel x h
  end.

Definition rt_slist_tail (l : Z) (h : nodes) : option Z := tail_loop (size h) l h.

Definition rt_slist_append (l n : Z) (h : nodes) : option nodes :=
  t ← rt_slist_tail l h;
  let h := <[t := Some n]> h in
  _ ← h !! n;
  Some (<[n := None]> h).

Definition rt_slist_insert (l n : Z) (h : nodes) : option nodes :=
  nx ← h !! l;
  _ ← h !! n;
  Some (<[l := Some n]> (<[n := nx]> h)).

Fixpoint len_loop (fuel : nat) (l : option Z) (h : nodes) : option Z :=
  match l, fuel with
  | None, _ => Some 0
  | Some _, O => None
  | Some x, S fuel => nx ← h !! x; n ← len_loop fuel nx h; Some (u32 (n + 1))
  end.

Definition rt_slist_len (l : Z) (h : nodes) : option Z := nx ← h !! l; len_loop (size h) nx h.

Fixpoint rt_slist_remove_loop (fuel : nat) (node n : Z) (h : nodes) : option nodes :=
  nx ← h !! node;
  match nx, fuel with
  | None, _ => Some h
  | Some x, fuel =>
      if x =? n then nn ← h !! x; Some (<[node := nn]> h)
      else match fuel with O => None | S fuel => rt_slist_remove_loop fuel x n h end
  end.

Definition rt_slist_remove (l n : Z) (h : nodes) : option nodes := rt_slist_remove_loop (size h) l n h.

Definition rt_slist_isempty (l : Z) (h : nodes) : option bool := nx ← h !! l; Some (bool_decide (nx = None)).

(** ** Sequences *)

(** The nodes behind [l] are [xs]. *)
Fixpoint chain (h : nodes) (l : Z) (xs : list Z) : Prop :=
  match xs with
  | [] => h !! l = Some None
  | x :: xs => h !! l = Some (Some x) /\ chain h x xs
  end.

Definition slist (h : nodes) (l : Z) (xs : list Z) : Prop := chain h l xs /\ NoDup (l :: xs).

Lemma slist_chain_mapped h xs : forall l, chain h l xs -> Forall (fun x => is_Some (h !! x)) (l :: xs).
Proof.
  induction xs as [|x xs IH]; intros l Hc; cbn [chain] in Hc.
  - constructor; [by eexists|constructor].
  - destruct Hc as [Hl Hc]. constructor; [by eexists|by apply IH].
Qed.

Lemma slist_size h l xs : slist h l xs -> (length xs < size h)%nat.
Proof.
  intros [Hc Hn]. apply slist_chain_mapped in Hc. rewrite <- size_dom.
  assert (size (list_to_set (l :: xs) : gset Z) <= size (dom h))%nat as H.
  { apply subseteq_size. intros x Hx. apply elem_of_list_to_set in Hx. apply elem_of_dom. by rewrite Forall_forall in Hc; apply Hc. }
  rewrite size_list_to_set in H by done. cbn [length] in H. lia.
Qed.

Lemma slist_chain_insert h l xs k v : k ∉ l :: xs -> chain (<[k := v]> h) l xs <-> chain h l xs.
Proof.
  revert l. induction xs as [|x xs IH]; intros l Hk; cbn [chain];
    rewrite lookup_insert_ne by (intros ->; apply Hk; by left); [done|].
  rewrite IH; [done|]. intros H. apply Hk. by right.
Qed.

(** The last node. *)
Fixpoint slist_end (l : Z) (xs : list Z) : Z := match xs with [] => l | x :: xs => slist_end x xs end.

Lemma end_of_elem l xs : slist_end l xs ∈ l :: xs.
Proof. revert l. induction xs as [|x xs IH]; intros l; cbn [slist_end]; [by left|right; apply IH]. Qed.

Lemma slist_tail_loop_spec h xs : forall l fuel, chain h l xs -> (length xs <= fuel)%nat -> tail_loop fuel l h = Some (slist_end l xs).
Proof.
  induction xs as [|x xs IH]; intros l fuel Hc Hf; cbn [chain] in Hc.
  - destruct fuel; cbn [tail_loop]; by rewrite Hc.
  - destruct Hc as [Hl Hc]. destruct fuel as [|fuel]; [cbn in Hf; lia|]. cbn [tail_loop]. rewrite Hl. cbn [mbind option_bind].
    apply IH; [done|cbn in Hf; lia].
Qed.

Lemma slist_chain_snoc h n xs : forall l, chain h l xs -> NoDup (l :: xs) -> n ∉ l :: xs ->
  chain (<[n := None]> (<[slist_end l xs := Some n]> h)) l (xs ++ [n]).
Proof.
  induction xs as [|x xs IH]; intros l Hc Hn Hx; cbn [chain app slist_end] in *.
  - rewrite lookup_insert_ne, !lookup_insert_eq by (intros ->; apply Hx; by left). by split.
  - destruct Hc as [Hl Hc]. inversion Hn as [|? ? Hlx Hn']; subst. split.
    + rewrite !lookup_insert_ne; [done| |intros ->; apply Hx; by left]. intros E. apply Hlx. rewrite <- E. apply end_of_elem.
    + apply IH; [done|done|]. intros H. apply Hx. by right.
Qed.

Lemma slist_append_spec h l n xs : slist h l xs -> n ∉ l :: xs -> is_Some (h !! n) ->
  exists h', rt_slist_append l n h = Some h' /\ slist h' l (xs ++ [n]) /\ forall k, k ∉ l :: xs -> k <> n -> h' !! k = h !! k.
Proof.
  intros Hs Hn [v Hv]. pose proof (slist_size h l xs Hs) as Hsz. destruct Hs as [Hc Hd]. unfold rt_slist_append, rt_slist_tail.
  rewrite (slist_tail_loop_spec h xs) by (done || lia). cbn [mbind option_bind].
  assert (slist_end l xs <> n) as Hne by (intros E; apply Hn; rewrite <- E; apply end_of_elem).
  rewrite lookup_insert_ne, Hv by done. cbn [mbind option_bind]. eexists. split; [done|]. split.
  - split; [by apply slist_chain_snoc|]. change (l :: xs ++ [n]) with ((l :: xs) ++ [n]). apply NoDup_app. split; [done|]. split.
    + intros x Hx Hxn. apply list_elem_of_singleton in Hxn as ->. done.
    + apply NoDup_singleton.
  - intros k Hk Hkn. rewrite !lookup_insert_ne; [done| |done]. intros E. apply Hk. rewrite <- E. apply end_of_elem.
Qed.

Lemma slist_insert_spec h l n xs : slist h l xs -> n ∉ l :: xs -> is_Some (h !! n) ->
  exists h', rt_slist_insert l n h = Some h' /\ slist h' l (n :: xs).
Proof.
  intros [Hc Hd] Hn [v Hv]. unfold rt_slist_insert. assert (l <> n) as Hln by (intros ->; apply Hn; by left).
  inversion Hd as [|? ? Hlx Hd']; subst. assert (n ∉ xs) as Hnx by (intros H; apply Hn; by right).
  assert (exists nx, h !! l = Some nx /\ match xs with [] => nx = None | x :: _ => nx = Some x end) as (nx & Hl & Hnx')
    by (destruct xs; cbn [chain] in Hc; [by exists None|destruct Hc; by eexists]).
  rewrite Hl, Hv. cbn [mbind option_bind]. eexists. split; [done|]. split; [|constructor; [set_solver|by constructor]].
  cbn [chain]. rewrite lookup_insert_eq. split; [done|]. destruct xs as [|x xs]; subst nx; cbn [chain] in *.
  - by rewrite lookup_insert_ne, lookup_insert_eq.
  - rewrite lookup_insert_ne, lookup_insert_eq by done. split; [done|]. rewrite !slist_chain_insert by done. by destruct Hc.
Qed.

Lemma slist_len_loop_spec h xs : forall l fuel, chain h l xs -> (length xs <= fuel)%nat -> zlen xs < 2 ^ 32 ->
  len_loop fuel (head xs) h = Some (zlen xs).
Proof.
  induction xs as [|x xs IH]; intros l fuel Hc Hf Hl; cbn [chain head] in *; [by destruct fuel|].
  destruct Hc as [_ Hc]. destruct fuel as [|fuel]; [cbn in Hf; lia|]. cbn [len_loop].
  assert (h !! x = Some (head xs)) as -> by (destruct xs; cbn [chain] in Hc; [done|by destruct Hc]).
  cbn [mbind option_bind]. unfold zlen in *. cbn [length] in *. rewrite (IH x) by (done || lia). cbn [mbind option_bind].
  rewrite wrapu_small by lia. f_equal. lia.
Qed.

Lemma slist_len_spec h l xs : slist h l xs -> zlen xs < 2 ^ 32 -> rt_slist_len l h = Some (zlen xs).
Proof.
  intros Hs Hl. pose proof (slist_size h l xs Hs) as Hsz. destruct Hs as [Hc _]. unfold rt_slist_len.
  assert (h !! l = Some (head xs)) as -> by (destruct xs; cbn [chain] in Hc; [done|by destruct Hc]).
  cbn [mbind option_bind]. apply (slist_len_loop_spec h xs l); [done|lia|done].
Qed.

Lemma slist_remove_loop_spec h n xs : forall l fuel, chain h l xs -> NoDup (l :: xs) -> (length xs <= fuel)%nat ->
  exists h', rt_slist_remove_loop fuel l n h = Some h' /\ chain h' l (filter (fun x => x <> n) xs) /\
    forall k, k ∉ l :: xs -> h' !! k = h !! k.
Proof.
  induction xs as [|x xs IH]; intros l fuel Hc Hn Hf; cbn [chain] in Hc.
  - exists h. split; [destruct fuel; cbn [rt_slist_remove_loop]; by rewrite Hc|by split].
  - destruct Hc as [Hl Hc]. inversion Hn as [|? ? Hlx Hn']; subst. inversion Hn' as [|? ? Hxx Hn'']; subst.
    destruct fuel as [|fuel]; [cbn in Hf; lia|]. cbn [rt_slist_remove_loop]. rewrite Hl. cbn [mbind option_bind].
    rewrite filter_cons. destruct (Z.eqb_spec x n) as [->|Hne].
    + rewrite decide_False by (intros H; by apply H). assert (filter (fun x => x <> n) xs = xs) as ->.
      { by apply RtList.filter_absent. }
      assert (h !! n = Some (head xs)) as Hh by (destruct xs; cbn [chain] in Hc; [done|by destruct Hc]).
      rewrite Hh. cbn [mbind option_bind]. eexists. split; [done|]. split.
      * destruct xs as [|y xs]; cbn [chain head] in *; rewrite lookup_insert_eq; [done|]. split; [done|]. destruct Hc as [_ Hc].
        apply slist_chain_insert; [|done]. set_solver.
      * intros k Hk. rewrite lookup_insert_ne; [done|]. intros ->. apply Hk. by left.
    + rewrite decide_True by done. destruct (IH x fuel Hc Hn' ltac:(cbn in Hf; lia)) as (h' & E & Hc' & Hk').
      exists h'. split; [done|]. split.
      * cbn [chain]. split; [|done]. rewrite Hk'; [done|done].
      * intros k Hk. apply Hk'. set_solver.
Qed.

Lemma slist_remove_spec h l n xs : slist h l xs ->
  exists h', rt_slist_remove l n h = Some h' /\ slist h' l (filter (fun x => x <> n) xs) /\
    forall k, k ∉ l :: xs -> h' !! k = h !! k.
Proof.
  intros Hs. pose proof (slist_size h l xs Hs) as Hsz. destruct Hs as [Hc Hd]. unfold rt_slist_remove.
  destruct (slist_remove_loop_spec h n xs l (size h) Hc Hd ltac:(lia)) as (h' & E & Hc' & Hk). exists h'. split; [done|]. split; [|done].
  split; [done|]. inversion Hd as [|? ? Hlx Hd']; subst. constructor; [|by apply NoDup_filter].
  intros [_ H]%list_elem_of_filter. done.
Qed.

(** ** Theorems *)

(** The single-linked list operations on nodes refine the sequence
    operations: append adds at the end, insert at the front, remove takes a
    node out wherever it is and does nothing if it is not linked, length,
    tail and the emptiness test answer for the sequence, and the loops end. *)
Theorem slist_refines_sequence h l n xs :
  slist h l xs -> zlen xs < 2 ^ 32 ->
  rt_slist_len l h = Some (zlen xs) /\ rt_slist_tail l h = Some (slist_end l xs) /\
  rt_slist_isempty l h = Some (bool_decide (xs = [])) /\
  (exists h', rt_slist_remove l n h = Some h' /\ slist h' l (filter (fun x => x <> n) xs)) /\
  (n ∉ l :: xs -> is_Some (h !! n) ->
     (exists h', rt_slist_append l n h = Some h' /\ slist h' l (xs ++ [n])) /\
     (exists h', rt_slist_insert l n h = Some h' /\ slist h' l (n :: xs))).
Proof.
  intros Hs Hl. split; [by apply slist_len_spec|]. pose proof (slist_size h l xs Hs) as Hsz.
  split; [apply slist_tail_loop_spec; [apply Hs|lia]|]. split.
  { destruct Hs as [Hc _]. unfold rt_slist_isempty. destruct xs; cbn [chain] in Hc; [by rewrite Hc|]. by destruct Hc as [-> _]. }
  split; [destruct (slist_remove_spec h l n xs Hs) as (h' & E & H & _); by exists h'|]. intros Hn Hv.
  split; [destruct (slist_append_spec h l n xs Hs Hn Hv) as (h' & E & H & _); by exists h'|by apply slist_insert_spec].
Qed.

Definition sample_nodes : gmap Z (option Z) := {[ 1 := Some 2; 2 := Some 3; 3 := None; 4 := None ]}.

Lemma slist_refines_sequence_witness :
  rt_slist_len 1 sample_nodes = Some 2 /\
  (exists h, rt_slist_remove 1 2 sample_nodes = Some h /\ slist h 1 [3]) /\
  exists h, rt_slist_append 1 4 sample_nodes = Some h /\ slist h 1 [2; 3; 4].
Proof.
  assert (slist sample_nodes 1 [2; 3]) as Hs by (split; [by cbn [chain]; vm_compute|apply (bool_decide_unpack _); vm_compute; exact I]).
  destruct (slist_refines_sequence sample_nodes 1 2 [2; 3] Hs) as (H1 & _ & _ & H2 & _); [by vm_compute|].
  destruct (slist_refines_sequence sample_nodes 1 4 [2; 3] Hs) as (_ & _ & _ & _ & H3); [by vm_compute|].
  split; [exact H1|]. split; [exact H2|]. apply H3; [apply (bool_decide_unpack _); vm_compute; exact I|by vm_compute; eexists].
Defined.

End SList.
