(* ===== verification/RingBlk.v ===== *)
(** * Block ring buffers

    [components/drivers/src/ringblk_buf.c]: blocks of different sizes are cut in turn
    from a circular buffer, filled by a producer, handed to a consumer in order and
    freed.  A block is a slot of the table [blk_set]; the list [blk_list], whose
    operations are those of [SList], is the sequence of the slots it holds. *)

From S2P Require Import Prelude RtList SList.

Module RingBlk.

(** ** State *)

Inductive rt_rbb_status := RT_RBB_BLK_UNUSED | RT_RBB_BLK_INITED | RT_RBB_BLK_PUT | RT_RBB_BLK_GET.

#[export] Instance rt_rbb_status_eq_dec : EqDecision rt_rbb_status.
Proof. solve_decision. Defined.

Record rt_rbb_blk := mk_blk { status : rt_rbb_status; bsize : Z; buf : Z }.

Record rt_rbb := mk_rbb { rbuf : Z; buf_size : Z; blk_set : list rt_rbb_blk; blk_list : list nat }.

(** [struct rt_rbb_blk_queue]: the first slot and the number of blocks. *)
Record rt_rbb_blk_queue := mk_queue { blocks : nat; blk_num : Z }.

Definition blk_max_num (r : rt_rbb) : Z := zlen (blk_set r).

Definition set_blk (i : nat) (b : rt_rbb_blk) (r : rt_rbb) : rt_rbb :=
  mk_rbb (rbuf r) (buf_size r) (<[i := b]> (blk_set r)) (blk_list r).
Definition set_list (l : list nat) (r : rt_rbb) : rt_rbb := mk_rbb (rbuf r) (buf_size r) (blk_set r) l.
Definition with_status (s : rt_rbb_status) (b : rt_rbb_blk) : rt_rbb_blk := mk_blk s (bsize b) (buf b).

(** ** Operations *)

Definition rt_rbb_init (b size : Z) (set : list rt_rbb_blk) : rt_rbb :=
  mk_rbb b size (with_status RT_RBB_BLK_UNUSED <$> set) [].

Fixpoint find_unused (i : nat) (set : list rt_rbb_blk) : option nat :=
  match set with
  | [] => None
  | b :: set => if bool_decide (status b = RT_RBB_BLK_UNUSED) then Some i else find_unused (S i) set
  end.

Definition find_empty_blk_in_set (r : rt_rbb) : option nat := find_unused 0 (blk_set r).

(** The new block: at the end of the list, at address [a]. *)
Definition place (i : nat) (a size : Z) (r : rt_rbb) : rt_rbb :=
  set_blk i (mk_blk RT_RBB_BLK_INITED size a) (set_list (blk_list r ++ [i]) r).

Definition rt_rbb_blk_alloc (blk_size : Z) (r : rt_rbb) : option (rt_rbb * option nat) :=
  _ ← RT_ASSERT (blk_size <? 2 ^ 24);
  match find_empty_blk_in_set r with
  | Some new =>
      if zlen (blk_list r) <? blk_max_num r then
        match head (blk_list r), last (blk_list r) with
        | Some h, Some t =>
            head ← blk_set r !! h;
            tail ← blk_set r !! t;
            if buf head <=? buf tail then
              let empty1 := u32 (rbuf r + buf_size r - (buf tail + bsize tail)) in
              let empty2 := u32 (buf head - rbuf r) in
              if blk_size <=? empty1 then Some (place new (buf tail + bsize tail) blk_size r, Some new)
              else if blk_size <=? empty2 then Some (place new (rbuf r) blk_size r, Some new)
              else Some (r, None)
            else
              let empty1 := u32 (buf head - (buf tail + bsize tail)) in
              if blk_size <=? empty1 then Some (place new (buf tail + bsize tail) blk_size r, Some new)
              else Some (r, None)
        | _, _ => Some (place new (rbuf r) blk_size r, Some new)
        end
      else Some (r, None)
  | None => Some (r, None)
  end.

Definition rt_rbb_blk_put (i : nat) (r : rt_rbb) : option rt_rbb :=
  b ← blk_set r !! i;
  _ ← RT_ASSERT (bool_decide (status b = RT_RBB_BLK_INITED));
  Some (set_blk i (with_status RT_RBB_BLK_PUT b) r).

(** The first block of the list that has been put. *)
Fixpoint get_loop (set : list rt_rbb_blk) (l : list nat) : option (option nat) :=
  match l with
  | [] => Some None
  | i :: l => b ← set !! i; if bool_decide (status b = RT_RBB_BLK_PUT) then Some (Some i) else get_loop set l
  end.

Definition rt_rbb_blk_get (r : rt_rbb) : option (rt_rbb * option nat) :=
  o ← get_loop (blk_set r) (blk_list r);
  match o with
  | Some i => b ← blk_set r !! i; Some (set_blk i (with_status RT_RBB_BLK_GET b) r, Some i)
  | None => Some (r, None)
  end.

Definition slist_remove (i : nat) (l : list nat) : list nat := filter (fun x => x <> i) l.

Definition rt_rbb_blk_free (i : nat) (r : rt_rbb) : option rt_rbb :=
  b ← blk_set r !! i;
  _ ← RT_ASSERT (bool_decide (status b <> RT_RBB_BLK_UNUSED));
  Some (set_blk i (with_status RT_RBB_BLK_UNUSED b) (set_list (slist_remove i (blk_list r)) r)).

(** The loop of [rt_rbb_blk_queue_get] over the nodes of the list; [last] is the block
    taken last. *)
Fixpoint queue_loop (l : list nat) (last : option nat) (len total : Z) (q : rt_rbb_blk_queue) (r : rt_rbb)
  : option (Z * rt_rbb_blk_queue * rt_rbb) :=
  match l with
  | [] => Some (total, q, r)
  | i :: l =>
      b ← blk_set r !! i;
      let take_blk q :=
        queue_loop l (Some i) len (u32 (total + bsize b)) (mk_queue (blocks q) (u32 (blk_num q + 1)))
          (set_blk i (with_status RT_RBB_BLK_GET b) (set_list (slist_remove i (blk_list r)) r)) in
      match last with
      | None => if bool_decide (status b = RT_RBB_BLK_PUT) then take_blk (mk_queue i 0) else queue_loop l None len total q r
      | Some j =>
          lb ← blk_set r !! j;
          if bool_decide (status b <> RT_RBB_BLK_PUT) || (buf b <? buf lb) || (len <? u32 (total + bsize b))
          then Some (total, q, r) else take_blk q
      end
  end.

Definition rt_rbb_blk_queue_get (len : Z) (q : rt_rbb_blk_queue) (r : rt_rbb) : option (Z * rt_rbb_blk_queue * rt_rbb) :=
  queue_loop (blk_list r) None len 0 q r.

(** The sum over [blocks[0]], [blocks[1]], ... *)
Fixpoint queue_len_loop (n : nat) (i : nat) (r : rt_rbb) : option Z :=
  match n with
  | O => Some 0
  | S n => b ← blk_set r !! i; s ← queue_len_loop n (S i) r; Some (u32 (bsize b + s))
  end.

Definition rt_rbb_blk_queue_len (q : rt_rbb_blk_queue) (r : rt_rbb) : option Z :=
  queue_len_loop (Z.to_nat (blk_num q)) (blocks q) r.

Definition rt_rbb_blk_queue_buf (q : rt_rbb_blk_queue) (r : rt_rbb) : option Z := buf <$> blk_set r !! blocks q.

Fixpoint queue_free_loop (n : nat) (i : nat) (r : rt_rbb) : option rt_rbb :=
  match n with
  | O => Some r
  | S n => r ← rt_rbb_blk_free i r; queue_free_loop n (S i) r
  end.

Definition rt_rbb_blk_queue_free (q : rt_rbb_blk_queue) (r : rt_rbb) : option rt_rbb :=
  queue_free_loop (Z.to_nat (blk_num q)) (blocks q) r.

Fixpoint next_len_loop (set : list rt_rbb_blk) (l : list nat) (last : option nat) (total : Z) : option Z :=
  match l with
  | [] => Some total
  | i :: l =>
      b ← set !! i;
      match last with
      | None => if bool_decide (status b = RT_RBB_BLK_PUT) then next_len_loop set l (Some i) (u32 (total + bsize b))
                else next_len_loop set l None total
      | Some j =>
          lb ← set !! j;
          if bool_decide (status b <> RT_RBB_BLK_PUT) || (buf b <? buf lb) then Some total
          else next_len_loop set l (Some i) (u32 (total + bsize b))
      end
  end.

Definition rt_rbb_next_blk_queue_len (r : rt_rbb) : option Z := next_len_loop (blk_set r) (blk_list r) None 0.


(** ** Layout *)

(** Intervals one behind the other between [lo] and [hi]. *)
Fixpoint asc (lo : Z) (l : list (Z * Z)) (hi : Z) : Prop :=
  match l with
  | [] => lo <= hi
  | (s, e) :: l => lo <= s /\ s < e /\ asc e l hi
  end.

Definition ends (lo : Z) (l : list (Z * Z)) : Z := match last l with Some (_, e) => e | None => lo end.

Lemma ends_cons lo s e l : ends lo ((s, e) :: l) = ends e l.
Proof. unfold ends. destruct l as [|p l]; [done|]. rewrite last_cons_cons. destruct (last (p :: l)) eqn:E; [done|]. by apply last_None in E. Qed.

Lemma asc_ends l : forall lo hi, asc lo l hi -> lo <= ends lo l <= hi /\ asc lo l (ends lo l).
Proof.
  induction l as [|[s e] l IH]; intros lo hi H; cbn [asc] in *; [unfold ends; cbn; lia|].
  destruct H as (H1 & H2 & H3). rewrite ends_cons. destruct (IH e hi H3) as [H4 H5]. split; [lia|done].
Qed.

Lemma asc_app l k : forall lo hi, asc lo (l ++ k) hi <-> asc lo l (ends lo l) /\ asc (ends lo l) k hi.
Proof.
  induction l as [|[s e] l IH]; intros lo hi; cbn [asc app]; [unfold ends; cbn; split; [intros ?; split; [lia|done]|by intros [_ ?]]|].
  rewrite ends_cons, IH. tauto.
Qed.

Lemma asc_weaken l : forall lo hi lo' hi', lo' <= lo -> hi <= hi' -> asc lo l hi -> asc lo' l hi'.
Proof.
  induction l as [|[s e] l IH]; intros lo hi lo' hi' H1 H2; cbn [asc]; [lia|].
  intros (H3 & H4 & H5). split_and!; [lia|lia|]. by eapply IH; [reflexivity|done|].
Qed.

Lemma asc_delete l p k lo hi : asc lo (l ++ p :: k) hi -> asc lo (l ++ k) hi.
Proof.
  rewrite !asc_app. intros [H1 H2]. split; [done|]. destruct p as [s e]. destruct H2 as (H3 & H4 & H5).
  by eapply asc_weaken; [|reflexivity|exact H5]; lia.
Qed.

(** The blocks in the order of the list: one behind the other, or wrapped around the
    end of the buffer. *)
Definition layout (b n : Z) (l : list (Z * Z)) : Prop :=
  asc b l (b + n) \/
  exists s e xs ys, l = ((s, e) :: xs) ++ ys /\ ys <> [] /\ asc s ((s, e) :: xs) (b + n) /\ asc b ys s.

Lemma layout_delete b n l p k : layout b n (l ++ p :: k) -> layout b n (l ++ k).
Proof.
  intros [H|(s & e & xs & ys & E & Hys & H1 & H2)]; [left; by eapply asc_delete|].
  pose proof (asc_ends _ _ _ H1) as [He1 _]. pose proof (asc_ends _ _ _ H2) as [He2 _].
  destruct (app_eq_inv _ _ _ _ E) as [(z & E1 & E2)|(z & E1 & E2)].
  - subst l ys. destruct (decide (z ++ k = [])) as [Ez|Ez].
    + apply app_eq_nil in Ez as [-> ->]. left. rewrite !app_nil_r. eapply asc_weaken; [|reflexivity|exact H1]. lia.
    + right. exists s, e, xs, (z ++ k). split_and!; [by rewrite app_assoc|done|done|by eapply asc_delete].
  - destruct z as [|p' z].
    + cbn in E2. rewrite app_nil_r in E1. destruct ys as [|q ys]; [done|]. injection E2 as -> ->. subst l.
      destruct ys as [|q' ys]; [left; rewrite app_nil_r; eapply asc_weaken; [|reflexivity|exact H1]; lia|].
      right. exists s, e, xs, (q' :: ys). split_and!; [done..|]. by eapply (asc_delete [] q).
    + cbn in E2. injection E2 as -> ->. destruct l as [|[s' e'] l]; cbn [app] in E1.
      * injection E1 as <- ->. destruct z as [|[s2 e2] z].
        -- left. cbn. eapply asc_weaken; [reflexivity| |exact H2]. lia.
        -- right. exists s2, e2, z, ys. destruct H1 as (_ & H3 & H4). cbn [asc] in H4. destruct H4 as (H4 & H5 & H6).
           split_and!; [done|done|cbn [asc]; split_and!; [lia|lia|done]|]. eapply asc_weaken; [reflexivity| |exact H2]. lia.
      * injection E1 as <- <- ->. right. exists s, e, (l ++ z), ys. split_and!; [cbn [app]; by rewrite <- app_assoc|done| |done].
        by eapply (asc_delete ((s, e) :: l) p').
Qed.

Lemma asc_head_last l : forall lo hi s e s' e', asc lo l hi -> head l = Some (s, e) -> last l = Some (s', e') -> lo <= s <= s' /\ s' < e' <= hi.
Proof.
  induction l as [|[s0 e0] l IH]; intros lo hi s e s' e' H Eh El; [done|]. cbn in Eh. injection Eh as -> ->.
  destruct H as (H1 & H2 & H3). destruct l as [|[s1 e1] l]; [injection El as -> ->; cbn in H3; lia|].
  rewrite last_cons_cons in El. destruct (IH _ _ s1 e1 s' e' H3 eq_refl El). lia.
Qed.

Lemma asc_snoc l lo hi hi' s e : asc lo l hi -> ends lo l <= s -> s < e -> e <= hi' -> asc lo (l ++ [(s, e)]) hi'.
Proof. intros H H1 H2 H3. apply asc_app. split; [by eapply asc_ends|]. cbn. lia. Qed.

(** What the addresses of the first and of the last block tell of the layout. *)
Lemma layout_ends b n l hs he ts te :
  layout b n l -> head l = Some (hs, he) -> last l = Some (ts, te) ->
  b <= hs <= b + n /\ b <= te <= b + n /\
  ((hs <= ts /\ asc b l (b + n) /\ ends b l = te) \/
   (ts < hs /\ te <= hs /\ exists xs ys, l = ((hs, he) :: xs) ++ ys /\ ys <> [] /\
      asc hs ((hs, he) :: xs) (b + n) /\ asc b ys hs /\ ends b ys = te)).
Proof.
  intros [H|(s & e & xs & ys & -> & Hys & H1 & H2)] Eh El.
  - destruct (asc_head_last _ _ _ _ _ _ _ H Eh El). split_and!; [lia..|]. left. split_and!; [lia|done|]. unfold ends. by rewrite El.
  - cbn in Eh. injection Eh as -> ->. destruct ys as [|y ys]; [done|].
    rewrite last_app_cons in El.
    destruct y as [s0 e0]. destruct (asc_head_last _ _ _ s0 e0 _ _ H2 eq_refl El).
    destruct (asc_ends _ _ _ H1) as [Hb _]. cbn [asc] in H1.
    split_and!; [lia..|]. right. split_and!; [lia|lia|]. exists xs, ((s0, e0) :: ys). split_and!; [done..|]. unfold ends. by rewrite El.
Qed.

(** The three places at which a block may be added. *)
Lemma layout_behind b n l hs he ts te size :
  layout b n l -> head l = Some (hs, he) -> last l = Some (ts, te) -> hs <= ts -> 0 < size <= b + n - te ->
  layout b n (l ++ [(te, te + size)]).
Proof.
  intros H Eh El Hle Hs. destruct (layout_ends _ _ _ _ _ _ _ H Eh El) as (_ & _ & [(_ & Ha & Ee)|(Hlt & _)]); [|lia].
  left. eapply asc_snoc; [done|lia..].
Qed.

Lemma layout_wraps b n l hs he ts te size :
  layout b n l -> head l = Some (hs, he) -> last l = Some (ts, te) -> hs <= ts -> 0 < size <= hs - b ->
  layout b n (l ++ [(b, b + size)]).
Proof.
  intros H Eh El Hle Hs. destruct (layout_ends _ _ _ _ _ _ _ H Eh El) as (_ & _ & [(_ & Ha & Ee)|(Hlt & _)]); [|lia].
  destruct l as [|[s e] xs]; [done|]. injection Eh as -> ->. right. exists hs, he, xs, [(b, b + size)].
  split_and!; [done..| |cbn; lia]. cbn [asc] in *. intuition lia.
Qed.

Lemma layout_between b n l hs he ts te size :
  layout b n l -> head l = Some (hs, he) -> last l = Some (ts, te) -> ts < hs -> 0 < size <= hs - te ->
  layout b n (l ++ [(te, te + size)]).
Proof.
  intros H Eh El Hlt Hs. destruct (layout_ends _ _ _ _ _ _ _ H Eh El) as (_ & _ & [(Hle & _)|(_ & _ & xs & ys & -> & Hys & H1 & H2 & Ee)]); [lia|].
  right. exists hs, he, xs, (ys ++ [(te, te + size)]). split_and!; [by rewrite app_assoc|by destruct ys|done|].
  eapply asc_snoc; [done|lia..].
Qed.

Lemma asc_bounds l : forall lo hi p, asc lo l hi -> p ∈ l -> lo <= p.1 /\ p.1 < p.2 /\ p.2 <= hi.
Proof.
  induction l as [|[s e] l IH]; intros lo hi p H Hp; [by apply not_elem_of_nil in Hp|].
  destruct H as (H1 & H2 & H3). destruct (asc_ends _ _ _ H3) as [H4 _].
  apply elem_of_cons in Hp as [->|Hp]; cbn; [lia|]. destruct (IH _ _ _ H3 Hp). lia.
Qed.

Lemma asc_ordered l : forall lo hi i j p q, asc lo l hi -> (i < j)%nat -> l !! i = Some p -> l !! j = Some q -> p.2 <= q.1.
Proof.
  induction l as [|[s e] l IH]; intros lo hi i j p q H Hij Hp Hq; [done|]. destruct H as (H1 & H2 & H3).
  destruct j as [|j]; [lia|]. cbn in Hq. destruct i as [|i].
  - injection Hp as <-. by destruct (asc_bounds _ _ _ _ H3 (list_elem_of_lookup_2 _ _ _ Hq)).
  - cbn in Hp. eapply IH; [exact H3| |exact Hp|exact Hq]. lia.
Qed.

Definition apart (p q : Z * Z) : Prop := p.2 <= q.1 \/ q.2 <= p.1.

Lemma layout_bounds b n l p : layout b n l -> p ∈ l -> b <= p.1 /\ p.1 < p.2 /\ p.2 <= b + n.
Proof.
  intros [H|(s & e & xs & ys & -> & Hys & H1 & H2)] Hp; [by eapply asc_bounds|].
  pose proof (asc_ends _ _ _ H1). pose proof (asc_ends _ _ _ H2).
  apply elem_of_app in Hp as [Hp|Hp]; [destruct (asc_bounds _ _ _ _ H1 Hp)|destruct (asc_bounds _ _ _ _ H2 Hp)]; lia.
Qed.

Lemma layout_apart b n l i j p q : layout b n l -> (i < j)%nat -> l !! i = Some p -> l !! j = Some q -> apart p q.
Proof.
  intros [H|(s & e & xs & ys & -> & Hys & H1 & H2)] Hij Hp Hq; [left; by eapply asc_ordered|].
  apply lookup_app_Some in Hp as [Hp|[Hi Hp]]; apply lookup_app_Some in Hq as [Hq|[Hj Hq]].
  - left. exact (asc_ordered _ _ _ _ _ _ _ H1 Hij Hp Hq).
  - right. apply list_elem_of_lookup_2 in Hp, Hq. pose proof (asc_bounds _ _ _ _ H1 Hp). pose proof (asc_bounds _ _ _ _ H2 Hq). lia.
  - apply lookup_lt_Some in Hq. lia.
  - left. eapply asc_ordered; [exact H2| |exact Hp|exact Hq]. lia.
Qed.

(** ** The invariant *)

(** The blocks [ks] are in use and lie at [l]. *)
Definition spans (set : list rt_rbb_blk) (ks : list nat) (l : list (Z * Z)) : Prop :=
  Forall2 (fun k p => exists b, set !! k = Some b /\ status b <> RT_RBB_BLK_UNUSED /\ p = (buf b, buf b + bsize b)) ks l.

Record rbb_ok (r : rt_rbb) : Prop := {
  ok_space : 0 <= rbuf r /\ 0 <= buf_size r /\ rbuf r + buf_size r < 2 ^ 32;
  ok_nodup : NoDup (blk_list r);
  ok_listed : forall i b, blk_set r !! i = Some b -> status b = RT_RBB_BLK_INITED \/ status b = RT_RBB_BLK_PUT -> i ∈ blk_list r;
  ok_layout : exists l, spans (blk_set r) (blk_list r) l /\ layout (rbuf r) (buf_size r) l
}.

Lemma spans_update set ks l i b b' :
  spans set ks l -> set !! i = Some b ->
  (i ∈ ks -> status b' <> RT_RBB_BLK_UNUSED /\ buf b' = buf b /\ bsize b' = bsize b) ->
  spans (<[i := b']> set) ks l.
Proof.
  intros H Eb Hb. induction H as [|k p ks l (bk & Ek & Hs & ->) H IH]; constructor.
  - destruct (decide (k = i)) as [->|Hne].
    + assert (bk = b) as -> by congruence. destruct (Hb ltac:(constructor)) as (H1 & H2 & H3).
      exists b'. rewrite list_lookup_insert_eq by (by eapply lookup_lt_Some). by rewrite H2, H3.
    + exists bk. by rewrite list_lookup_insert_ne by done.
  - apply IH. intros Hi. apply Hb. by constructor.
Qed.

Lemma slist_remove_split i ks : NoDup ks -> i ∈ ks -> exists k1 k2, ks = k1 ++ i :: k2 /\ slist_remove i ks = k1 ++ k2.
Proof. intros Hnd (k1 & k2 & ->)%list_elem_of_split. exists k1, k2. split; [done|]. by apply RtList.filter_split. Qed.

Lemma spans_remove set ks l i b n :
  NoDup ks -> spans set ks l -> layout b n l -> exists l', spans set (slist_remove i ks) l' /\ layout b n l'.
Proof.
  intros Hnd H Hl. destruct (decide (i ∈ ks)) as [Hi|Hi].
  - destruct (slist_remove_split i ks Hnd Hi) as (k1 & k2 & -> & ->).
    apply Forall2_app_inv_l in H as (l1 & l2' & H1 & H2 & ->). apply Forall2_cons_inv_l in H2 as (p & l2 & _ & H2 & ->).
    exists (l1 ++ l2). split; [by apply Forall2_app|by eapply layout_delete].
  - exists l. unfold slist_remove. by rewrite RtList.filter_absent.
Qed.

Lemma rbb_init_ok b size set : 0 <= b -> 0 <= size -> b + size < 2 ^ 32 -> rbb_ok (rt_rbb_init b size set).
Proof.
  intros H1 H2 H3. split; cbn; [lia|constructor| |].
  - intros i x Hi [Hs|Hs]; apply list_lookup_fmap_Some in Hi as (y & -> & _); done.
  - exists []. split; [constructor|]. left. cbn. lia.
Qed.

(** A block that stays in the list, or that is in neither state the list has to hold. *)
Lemma rbb_ok_status i b s r :
  rbb_ok r -> blk_set r !! i = Some b -> s <> RT_RBB_BLK_UNUSED ->
  (s = RT_RBB_BLK_INITED \/ s = RT_RBB_BLK_PUT -> i ∈ blk_list r) -> rbb_ok (set_blk i (with_status s b) r).
Proof.
  intros [H1 H2 H3 (l & H4 & H5)] Eb Hs Hl. split; cbn; [done|done| |].
  - intros j b' Hj Hs'. destruct (decide (j = i)) as [->|Hne].
    + rewrite list_lookup_insert_eq in Hj by (by eapply lookup_lt_Some). injection Hj as <-. by apply Hl.
    + rewrite list_lookup_insert_ne in Hj by done. by eapply H3.
  - exists l. split; [|done]. by eapply spans_update.
Qed.

(** A block that leaves the list. *)
Lemma rbb_ok_drop i b s r :
  rbb_ok r -> blk_set r !! i = Some b -> s = RT_RBB_BLK_UNUSED \/ s = RT_RBB_BLK_GET ->
  rbb_ok (set_blk i (with_status s b) (set_list (slist_remove i (blk_list r)) r)).
Proof.
  intros [H1 H2 H3 (l & H4 & H5)] Eb Hs. split; cbn; [done|by apply NoDup_filter| |].
  - intros j b' Hj Hs'. destruct (decide (j = i)) as [->|Hne].
    + rewrite list_lookup_insert_eq in Hj by (by eapply lookup_lt_Some). injection Hj as <-. cbn in Hs'. intuition congruence.
    + rewrite list_lookup_insert_ne in Hj by done. apply list_elem_of_filter. split; [done|]. by eapply H3.
  - destruct (spans_remove _ _ _ i _ _ H2 H4 H5) as (l' & H6 & H7). exists l'. split; [|done].
    eapply spans_update; [done..|]. intros Hi. by apply list_elem_of_filter in Hi as [[] _].
Qed.

Lemma find_unused_spec set : forall i k, find_unused i set = Some k -> (i <= k)%nat /\ exists b, set !! (k - i)%nat = Some b /\ status b = RT_RBB_BLK_UNUSED.
Proof.
  induction set as [|b set IH]; intros i k; cbn; [done|]. case_bool_decide as Hs.
  - intros [= <-]. split; [done|]. exists b. by rewrite Nat.sub_diag.
  - intros E. destruct (IH _ _ E) as [H (b' & H1 & H2)]. split; [lia|]. exists b'. split; [|done].
    by replace (k - i)%nat with (S (k - S i)) by lia.
Qed.

Lemma spans_unused set ks l i b : spans set ks l -> set !! i = Some b -> status b = RT_RBB_BLK_UNUSED -> i ∉ ks.
Proof.
  intros H Eb Hs Hi. apply list_elem_of_lookup in Hi as [j Hj]. destruct (Forall2_lookup_l _ _ _ _ _ H Hj) as (p & _ & b' & E & Hs' & _).
  congruence.
Qed.

Lemma rbb_ok_place i b a size r l :
  rbb_ok r -> blk_set r !! i = Some b -> status b = RT_RBB_BLK_UNUSED -> spans (blk_set r) (blk_list r) l ->
  layout (rbuf r) (buf_size r) (l ++ [(a, a + size)]) -> rbb_ok (place i a size r).
Proof.
  intros [H1 H2 H3 _] Eb Hs Hl Hlay. pose proof (spans_unused _ _ _ _ _ Hl Eb Hs) as Hi. split; cbn; [done| | |].
  - apply NoDup_app. split_and!; [done| |apply NoDup_singleton]. intros j Hj ->%list_elem_of_singleton. done.
  - intros j b' Hj Hs'. apply elem_of_app. destruct (decide (j = i)) as [->|Hne]; [right; by apply list_elem_of_singleton|left].
    rewrite list_lookup_insert_ne in Hj by done. by eapply H3.
  - exists (l ++ [(a, a + size)]). split; [|done]. apply Forall2_app; [by eapply spans_update|].
    constructor; [|constructor]. eexists. rewrite list_lookup_insert_eq by (by eapply lookup_lt_Some). done.
Qed.

(** What a request must respect: blocks are not empty, and the first is no longer than
    the buffer. *)
Definition alloc_pre (size : Z) (r : rt_rbb) : Prop := 0 < size < 2 ^ 24 /\ (blk_list r = [] -> size <= buf_size r).

Lemma spans_head set ks l h : spans set ks l -> head ks = Some h -> exists b, set !! h = Some b /\ head l = Some (buf b, buf b + bsize b).
Proof. intros H Eh. destruct H as [|k p ks l (b & Eb & _ & ->) H]; [done|]. injection Eh as ->. by exists b. Qed.

Lemma spans_last set ks l t : spans set ks l -> last ks = Some t -> exists b, set !! t = Some b /\ last l = Some (buf b, buf b + bsize b).
Proof.
  intros H (k1 & ->)%last_Some. apply Forall2_app_inv_l in H as (l1 & l2 & _ & H & ->).
  apply Forall2_cons_inv_l in H as (p & l3 & (b & Eb & _ & ->) & H & ->). apply Forall2_nil_inv_l in H as ->.
  exists b. by rewrite last_snoc.
Qed.

(** The outcome of a request: a free slot at the end of the list, or no change. *)
Definition alloc_post (size : Z) (r r' : rt_rbb) (o : option nat) : Prop :=
  match o with
  | Some i => exists a b, r' = place i a size r /\ blk_set r !! i = Some b /\ status b = RT_RBB_BLK_UNUSED
  | None => r' = r
  end.

Lemma rt_rbb_blk_alloc_spec size r :
  rbb_ok r -> alloc_pre size r -> exists r' o, rt_rbb_blk_alloc size r = Some (r', o) /\ rbb_ok r' /\ alloc_post size r r' o.
Proof.
  intros Hok [Hsz Hempty]. pose proof Hok as [Hsp _ _ (l & Hl & Hlay)]. unfold rt_rbb_blk_alloc.
  replace (size <? 2 ^ 24) with true by (symmetry; apply Z.ltb_lt; lia). cbn [RT_ASSERT mbind option_bind].
  assert (exists r' o, Some (r, None) = Some (r', o) /\ rbb_ok r' /\ alloc_post size r r' o) as Hfail by (by exists r, None).
  destruct (find_empty_blk_in_set r) as [i|] eqn:Ef; [|done]. destruct (zlen (blk_list r) <? blk_max_num r); [|done].
  apply find_unused_spec in Ef as [_ (b & Eb & Hs)]. rewrite Nat.sub_0_r in Eb.
  assert (forall a, layout (rbuf r) (buf_size r) (l ++ [(a, a + size)]) ->
    exists r' o, Some (place i a size r, Some i) = Some (r', o) /\ rbb_ok r' /\ alloc_post size r r' o) as Hplace.
  { intros a Ha. exists (place i a size r), (Some i). split_and!; [done|by eapply rbb_ok_place|by exists a, b]. }
  destruct (head (blk_list r)) as [h|] eqn:Eh.
  - destruct (last (blk_list r)) as [t|] eqn:El; [|apply last_None in El; by rewrite El in Eh].
    destruct (spans_head _ _ _ _ Hl Eh) as (hb & -> & Elh). destruct (spans_last _ _ _ _ Hl El) as (tb & -> & Elt).
    cbn [mbind option_bind]. destruct (layout_ends _ _ _ _ _ _ _ Hlay Elh Elt) as (Hh & Ht & Hc).
    destruct (Z.leb_spec (buf hb) (buf tb)).
    + rewrite !wrapu_small by lia. destruct (Z.leb_spec size (rbuf r + buf_size r - (buf tb + bsize tb))).
      { apply Hplace. eapply layout_behind; [done..|lia]. }
      destruct (Z.leb_spec size (buf hb - rbuf r)); [|done]. apply Hplace. eapply layout_wraps; [done..|lia].
    + assert (buf tb + bsize tb <= buf hb) by (destruct Hc as [Hc|Hc]; lia). rewrite wrapu_small by lia.
      destruct (Z.leb_spec size (buf hb - (buf tb + bsize tb))); [|done]. apply Hplace. eapply layout_between; [done..|lia].
  - assert (blk_list r = []) as En by (by destruct (blk_list r)). apply Hplace. rewrite En in Hl.
    apply Forall2_nil_inv_l in Hl as ->. left. cbn. specialize (Hempty En). lia.
Qed.

Lemma rt_rbb_blk_put_spec i r :
  rbb_ok r -> (exists b, blk_set r !! i = Some b /\ status b = RT_RBB_BLK_INITED) ->
  exists r', rt_rbb_blk_put i r = Some r' /\ rbb_ok r' /\ blk_list r' = blk_list r.
Proof.
  intros Hok (b & Eb & Hs). unfold rt_rbb_blk_put. rewrite Eb. cbn [mbind option_bind]. rewrite Hs, bool_decide_true by done. cbn [RT_ASSERT mbind option_bind].
  eexists. split_and!; [done| |done]. apply rbb_ok_status; [done..|]. intros _. eapply ok_listed; [done..|by left].
Qed.

Lemma rt_rbb_blk_free_spec i r :
  rbb_ok r -> (exists b, blk_set r !! i = Some b /\ status b <> RT_RBB_BLK_UNUSED) ->
  exists r', rt_rbb_blk_free i r = Some r' /\ rbb_ok r' /\ blk_list r' = slist_remove i (blk_list r).
Proof.
  intros Hok (b & Eb & Hs). unfold rt_rbb_blk_free. rewrite Eb. cbn [mbind option_bind].
  rewrite bool_decide_true by done. cbn [RT_ASSERT mbind option_bind]. eexists. split_and!; [done| |done]. apply rbb_ok_drop; [done..|by left].
Qed.

Lemma get_loop_spec set ks l :
  spans set ks l ->
  (get_loop set ks = Some None /\ Forall (fun k => forall b, set !! k = Some b -> status b <> RT_RBB_BLK_PUT) ks) \/
  (exists k1 i k2 b, get_loop set ks = Some (Some i) /\ ks = k1 ++ i :: k2 /\ set !! i = Some b /\ status b = RT_RBB_BLK_PUT /\
     Forall (fun k => forall b, set !! k = Some b -> status b <> RT_RBB_BLK_PUT) k1).
Proof.
  intros H. induction H as [|k p ks l (b & Eb & _ & _) H IH]; cbn [get_loop]; [by left|]. rewrite Eb. cbn [mbind option_bind].
  case_bool_decide as Hs; [right; by exists [], k, ks, b|].
  assert (forall b, set !! k = Some b -> status b <> RT_RBB_BLK_PUT) as Hk by (intros b' Eb'; congruence).
  destruct IH as [[E Hf]|(k1 & i & k2 & b' & E & -> & H1 & H2 & H3)]; [left; split; [done|by constructor]|].
  right. exists (k :: k1), i, k2, b'. split_and!; [done..|by constructor].
Qed.

Lemma rt_rbb_blk_get_spec r :
  rbb_ok r ->
  exists r' o, rt_rbb_blk_get r = Some (r', o) /\ rbb_ok r' /\ blk_list r' = blk_list r /\
    match o with
    | None => r' = r /\ forall i b, blk_set r !! i = Some b -> status b <> RT_RBB_BLK_PUT
    | Some i => exists k1 k2 b, blk_list r = k1 ++ i :: k2 /\ blk_set r !! i = Some b /\ status b = RT_RBB_BLK_PUT /\
        r' = set_blk i (with_status RT_RBB_BLK_GET b) r /\
        Forall (fun k => forall b, blk_set r !! k = Some b -> status b <> RT_RBB_BLK_PUT) k1
    end.
Proof.
  intros Hok. pose proof Hok as [_ _ Hlist (l & Hl & _)]. unfold rt_rbb_blk_get.
  destruct (get_loop_spec _ _ _ Hl) as [[-> Hf]|(k1 & i & k2 & b & -> & Ek & Eb & Hs & Hf)]; cbn [mbind option_bind].
  - exists r, None. split_and!; [done..|]. intros i b Eb Hs. rewrite Forall_forall in Hf.
    eapply (Hf i); [|exact Eb|exact Hs]. eapply Hlist; [exact Eb|by right].
  - rewrite Eb. cbn [mbind option_bind]. eexists _, (Some i). split_and!; [done| |done|by exists k1, k2, b].
    apply rbb_ok_status; [done..|]. intros [|]; congruence.
Qed.

(** ** Queues of blocks *)

Definition has_status (s : rt_rbb_status) (r : rt_rbb) (k : nat) : Prop := status <$> blk_set r !! k = Some s.

#[export] Instance has_status_dec s r k : Decision (has_status s r k).
Proof. unfold has_status. apply _. Defined.

Definition total_size (r : rt_rbb) (ks : list nat) : Z :=
  foldr (fun k s => default 0 (bsize <$> blk_set r !! k) + s) 0 ks.

(** The block [i] is taken out of the list for the caller. *)
Definition taken_out (i : nat) (b : rt_rbb_blk) (r : rt_rbb) : rt_rbb :=
  set_blk i (with_status RT_RBB_BLK_GET b) (set_list (slist_remove i (blk_list r)) r).

Lemma taken_out_list pre i b l r : rbb_ok r -> blk_list r = pre ++ i :: l -> blk_list (taken_out i b r) = pre ++ l.
Proof. intros [_ Hnd _ _] E. cbn. rewrite E in *. by apply RtList.filter_split. Qed.

Lemma taken_out_size i b ks r : blk_set r !! i = Some b -> total_size (taken_out i b r) ks = total_size r ks.
Proof.
  intros Eb. induction ks as [|k ks IH]; [done|]. unfold total_size in *. cbn [foldr]. rewrite IH. f_equal. cbn.
  destruct (decide (k = i)) as [->|Hne]; [|by rewrite list_lookup_insert_ne by done].
  rewrite list_lookup_insert_eq by (by eapply lookup_lt_Some). by rewrite Eb.
Qed.

Lemma taken_out_status i b s r k : k <> i -> has_status s (taken_out i b r) k <-> has_status s r k.
Proof. intros Hne. unfold has_status. cbn. by rewrite list_lookup_insert_ne by done. Qed.

Lemma has_status_eq s r k b : blk_set r !! k = Some b -> has_status s r k <-> status b = s.
Proof. intros E. unfold has_status. rewrite E. cbn. split; [by intros [= ->]|by intros ->]. Qed.

(** The blocks that a run of the loop takes out of the list [pre ++ l]. *)
Definition run_post (pre l : list nat) (len total : Z) (num : Z) (r : rt_rbb) (res : Z * Z * rt_rbb) : Prop :=
  exists taken rest, let '(total', num', r') := res in
    l = taken ++ rest /\ rbb_ok r' /\ blk_list r' = pre ++ rest /\
    total' = u32 (total + total_size r taken) /\ num' = u32 (num + zlen taken) /\
    Forall (has_status RT_RBB_BLK_PUT r) taken /\ Forall (has_status RT_RBB_BLK_GET r') taken /\
    (forall k, k ∉ taken -> blk_set r' !! k = blk_set r !! k) /\ (taken <> [] -> total' <= len).

Lemma listed_block r k : rbb_ok r -> k ∈ blk_list r -> exists b, blk_set r !! k = Some b /\ status b <> RT_RBB_BLK_UNUSED.
Proof.
  intros [_ _ _ (l & Hl & _)] [j Hj]%list_elem_of_lookup. destruct (Forall2_lookup_l _ _ _ _ _ Hl Hj) as (p & _ & b & E & Hs & _). by exists b.
Qed.

Lemma u32_add_u32 a b : u32 (u32 a + b) = u32 (a + b).
Proof. unfold wrapu. by rewrite Zplus_mod_idemp_l. Qed.

(** One more block in front of a run. *)
Lemma run_post_cons pre i l len total num r b res :
  rbb_ok r -> blk_list r = pre ++ i :: l -> blk_set r !! i = Some b -> status b = RT_RBB_BLK_PUT ->
  u32 (total + bsize b) <= len -> run_post pre l len (u32 (total + bsize b)) (u32 (num + 1)) (taken_out i b r) res ->
  run_post pre (i :: l) len total num r res.
Proof.
  intros Hok El Eb Hs Hlen. destruct res as [[total' num'] r']. intros (taken & rest & -> & H1 & H2 & H3 & H4 & H5 & H6 & H7 & H8).
  assert (i ∉ taken) as Hi.
  { destruct Hok as [_ Hnd _ _]. rewrite El in Hnd. apply NoDup_app in Hnd as (_ & _ & [Hni _]%NoDup_cons).
    intros Hi. apply Hni. apply elem_of_app. by left. }
  exists (i :: taken), rest. split_and!; [done|done|done| | | | | |].
  - rewrite H3, taken_out_size, u32_add_u32 by done. f_equal. unfold total_size. cbn [foldr]. rewrite Eb. cbn. lia.
  - rewrite H4, u32_add_u32. f_equal. unfold zlen. cbn [length]. lia.
  - constructor; [by apply (has_status_eq _ _ _ b)|]. apply Forall_forall. intros k Hk.
    rewrite Forall_forall in H5. eapply taken_out_status; [|by apply H5]. intros ->. by apply Hi.
  - constructor; [|done]. unfold has_status. rewrite H7 by done. cbn. by rewrite list_lookup_insert_eq by (by eapply lookup_lt_Some).
  - intros k Hk. apply not_elem_of_cons in Hk as [Hk1 Hk2]. rewrite H7 by done. cbn. by rewrite list_lookup_insert_ne by done.
  - intros _. destruct taken as [|k ks]; [|by apply H8]. rewrite H3. cbn. rewrite Z.add_0_r, wrapu_wrapu by lia. done.
Qed.

Lemma queue_run_spec l : forall pre j lb len total q r,
  rbb_ok r -> blk_list r = pre ++ l -> blk_set r !! j = Some lb -> 0 <= total < 2 ^ 32 -> 0 <= blk_num q < 2 ^ 32 ->
  exists total' num' r', queue_loop l (Some j) len total q r = Some (total', mk_queue (blocks q) num', r') /\
    run_post pre l len total (blk_num q) r (total', num', r').
Proof.
  induction l as [|i l IH]; intros pre j lb len total q r Hok El Ej Ht Hq.
  - exists total, (blk_num q), r. split; [by destruct q|]. exists [], []. cbn. rewrite !Z.add_0_r, !wrapu_small by done. by rewrite El.
  - destruct (listed_block r i Hok) as (b & Eb & _); [rewrite El; set_solver|]. cbn [queue_loop]. rewrite Eb, Ej. cbn [mbind option_bind].
    destruct (bool_decide (status b <> RT_RBB_BLK_PUT) || (buf b <? buf lb) || (len <? u32 (total + bsize b))) eqn:Ec.
    + exists total, (blk_num q), r. split; [by destruct q|]. exists [], (i :: l). cbn. rewrite !Z.add_0_r, !wrapu_small by done. by rewrite El.
    + apply orb_false_iff in Ec as [[Es%bool_decide_eq_false _]%orb_false_iff Hlen%Z.ltb_ge].
      assert (status b = RT_RBB_BLK_PUT) as Hs by (by apply dec_stable).
      destruct (IH pre i (with_status RT_RBB_BLK_GET b) len (u32 (total + bsize b)) (mk_queue (blocks q) (u32 (blk_num q + 1))) (taken_out i b r))
        as (total' & num' & r' & E & Hpost).
      { apply rbb_ok_drop; [done..|by right]. } { by eapply taken_out_list. }
      { cbn. by rewrite list_lookup_insert_eq by (by eapply lookup_lt_Some). } { by apply wrapu_range. } { by apply wrapu_range. }
      exists total', num', r'. split; [exact E|]. by eapply run_post_cons.
Qed.

(** The whole of [rt_rbb_blk_queue_get]: the blocks in front that are not ready stay,
    and a run of ready blocks leaves the list. *)
Lemma queue_loop_spec l : forall pre len q r,
  rbb_ok r -> blk_list r = pre ++ l ->
  exists skipped l' total' q' r', l = skipped ++ l' /\ queue_loop l None len 0 q r = Some (total', q', r') /\
    Forall (fun k => ~ has_status RT_RBB_BLK_PUT r k) skipped /\
    match l' with
    | [] => total' = 0 /\ q' = q /\ r' = r
    | i :: l' => exists b, blk_set r !! i = Some b /\ status b = RT_RBB_BLK_PUT /\ blocks q' = i /\
        run_post (pre ++ skipped) l' len (u32 (bsize b)) 1 (taken_out i b r) (total', blk_num q', r')
    end.
Proof.
  induction l as [|i l IH]; intros pre len q r Hok El; [by exists [], [], 0, q, r|].
  destruct (listed_block r i Hok) as (b & Eb & _); [rewrite El; set_solver|].
  cbn [queue_loop]. rewrite Eb. cbn [mbind option_bind]. case_bool_decide as Hs.
  - destruct (queue_run_spec l pre i (with_status RT_RBB_BLK_GET b) len (u32 (0 + bsize b)) (mk_queue i (u32 (0 + 1))) (taken_out i b r))
      as (total' & num' & r' & E & Hpost).
    { apply rbb_ok_drop; [done..|by right]. } { by eapply taken_out_list. }
    { cbn. by rewrite list_lookup_insert_eq by (by eapply lookup_lt_Some). } { by apply wrapu_range. } { by apply wrapu_range. }
    exists [], (i :: l), total', (mk_queue i num'), r'. split_and!; [done|exact E|constructor|]. exists b. rewrite app_nil_r. by split_and!.
  - destruct (IH (pre ++ [i]) len q r Hok) as (sk & l' & total' & q' & r' & -> & E & Hf & Hm); [by rewrite <- app_assoc|].
    exists (i :: sk), l', total', q', r'. split_and!; [done|done| |].
    + constructor; [|done]. by rewrite (has_status_eq _ _ _ b).
    + by rewrite <- app_assoc in Hm.
Qed.

Lemma run_post_ok pre l len total num r total' num' r' : run_post pre l len total num r (total', num', r') -> rbb_ok r'.
Proof. by intros (taken & rest & _ & Hok & _). Qed.

Lemma rt_rbb_blk_queue_get_ok len q r : rbb_ok r -> exists total' q' r', rt_rbb_blk_queue_get len q r = Some (total', q', r') /\ rbb_ok r'.
Proof.
  intros Hok. destruct (queue_loop_spec (blk_list r) [] len q r Hok eq_refl) as (sk & l' & total' & q' & r' & _ & E & _ & Hm).
  exists total', q', r'. split; [exact E|]. destruct l' as [|i l']; [by destruct Hm as (_ & _ & ->)|].
  destruct Hm as (b & _ & _ & _ & Hpost). by eapply run_post_ok.
Qed.

Lemma queue_free_loop_ok n : forall i r r', rbb_ok r -> queue_free_loop n i r = Some r' -> rbb_ok r'.
Proof.
  induction n as [|n IH]; intros i r r' Hok; cbn [queue_free_loop]; [by intros [= <-]|].
  unfold rt_rbb_blk_free. destruct (blk_set r !! i) as [b|] eqn:Eb; [|done]. cbn [mbind option_bind].
  destruct (RT_ASSERT _); [|done]. cbn [mbind option_bind]. apply IH. apply rbb_ok_drop; [done..|by left].
Qed.

(** ** Reachable states *)

(** The calls of producers and consumers; a call that fails an assertion is no step. *)
Inductive rbb_step : rt_rbb -> rt_rbb -> Prop :=
| step_alloc size r r' o : alloc_pre size r -> rt_rbb_blk_alloc size r = Some (r', o) -> rbb_step r r'
| step_put i r r' : rt_rbb_blk_put i r = Some r' -> rbb_step r r'
| step_get r r' o : rt_rbb_blk_get r = Some (r', o) -> rbb_step r r'
| step_free i r r' : rt_rbb_blk_free i r = Some r' -> rbb_step r r'
| step_queue_get len q r total q' r' : rt_rbb_blk_queue_get len q r = Some (total, q', r') -> rbb_step r r'
| step_queue_free q r r' : rt_rbb_blk_queue_free q r = Some r' -> rbb_step r r'.

Lemma rbb_step_ok r r' : rbb_step r r' -> rbb_ok r -> rbb_ok r'.
Proof.
  intros [size s s' o Hp E|i s s' E|s s' o E|i s s' E|len q s total q' s' E|q s s' E] Hok.
  - destruct (rt_rbb_blk_alloc_spec size s Hok Hp) as (r2 & o2 & E2 & H & _). congruence.
  - unfold rt_rbb_blk_put in E. destruct (blk_set s !! i) as [b|] eqn:Eb; [|done]. cbn [mbind option_bind] in E.
    case_bool_decide as Hs; [|done]. cbn in E. injection E as <-. apply rbb_ok_status; [done..|]. intros _.
    eapply ok_listed; [done..|by left].
  - destruct (rt_rbb_blk_get_spec s Hok) as (r2 & o2 & E2 & H & _). congruence.
  - eapply (queue_free_loop_ok 1 i); [exact Hok|]. cbn [queue_free_loop]. by rewrite E.
  - destruct (rt_rbb_blk_queue_get_ok len q s Hok) as (t2 & q2 & r2 & E2 & H). congruence.
  - by eapply queue_free_loop_ok.
Qed.

Definition rbb_reach (b size : Z) (set : list rt_rbb_blk) : rt_rbb -> Prop := rtc rbb_step (rt_rbb_init b size set).

Lemma rbb_reach_ok b size set r : 0 <= b -> 0 <= size -> b + size < 2 ^ 32 -> rbb_reach b size set r -> rbb_ok r.
Proof.
  intros H1 H2 H3 H. assert (rbb_ok (rt_rbb_init b size set)) as Hi by (by apply rbb_init_ok).
  induction H as [|x y z Hxy Hyz IH]; [done|]. apply IH. by eapply rbb_step_ok.
Qed.

(** A block somebody may be filling or waiting to read: it is being filled, it has been
    put, or it is still in the list. *)
Definition live (r : rt_rbb) (k : nat) : Prop :=
  has_status RT_RBB_BLK_INITED r k \/ has_status RT_RBB_BLK_PUT r k \/ k ∈ blk_list r.

Lemma live_listed r k : rbb_ok r -> live r k -> k ∈ blk_list r.
Proof.
  intros [_ _ H _] [Hs|[Hs|Hs]]; [| |done]; unfold has_status in Hs; destruct (blk_set r !! k) as [b|] eqn:E; try done;
    (eapply H; [exact E|]); cbn in Hs; injection Hs as ->; [by left|by right].
Qed.

Lemma ok_apart r i j bi bj :
  rbb_ok r -> i ∈ blk_list r -> j ∈ blk_list r -> i <> j -> blk_set r !! i = Some bi -> blk_set r !! j = Some bj ->
  apart (buf bi, buf bi + bsize bi) (buf bj, buf bj + bsize bj).
Proof.
  intros [_ _ _ (l & Hl & Hlay)] [x Hx]%list_elem_of_lookup [y Hy]%list_elem_of_lookup Hne Ei Ej.
  destruct (Forall2_lookup_l _ _ _ _ _ Hl Hx) as (p & Hp & b1 & E1 & _ & ->).
  destruct (Forall2_lookup_l _ _ _ _ _ Hl Hy) as (q & Hq & b2 & E2 & _ & ->).
  assert (b1 = bi) as -> by congruence. assert (b2 = bj) as -> by congruence.
  destruct (lt_eq_lt_dec x y) as [[Hxy| ->]|Hxy]; [by eapply layout_apart|congruence|].
  destruct (layout_apart _ _ _ _ _ _ _ Hlay Hxy Hq Hp); [by right|by left].
Qed.

Lemma ok_inside r i b :
  rbb_ok r -> i ∈ blk_list r -> blk_set r !! i = Some b -> rbuf r <= buf b /\ 0 < bsize b /\ buf b + bsize b <= rbuf r + buf_size r.
Proof.
  intros [_ _ _ (l & Hl & Hlay)] [x Hx]%list_elem_of_lookup Ei.
  destruct (Forall2_lookup_l _ _ _ _ _ Hl Hx) as (p & Hp & b1 & E1 & _ & ->). assert (b1 = b) as -> by congruence.
  pose proof (layout_bounds _ _ _ _ Hlay (list_elem_of_lookup_2 _ _ _ Hp)) as H. cbn in H. lia.
Qed.

(** The buffer itself never moves. *)
Definition same_buf (r r' : rt_rbb) : Prop := rbuf r' = rbuf r /\ buf_size r' = buf_size r.

Lemma queue_loop_same l : forall last len total q r t q' r', queue_loop l last len total q r = Some (t, q', r') -> same_buf r r'.
Proof.
  induction l as [|i l IH]; intros last len total q r t q' r'; cbn [queue_loop]; [by intros [= _ _ <-]|].
  destruct (blk_set r !! i) as [b|]; [|done]. cbn [mbind option_bind]. destruct last as [j|].
  - destruct (blk_set r !! j) as [lb|]; [|done]. cbn [mbind option_bind].
    destruct (_ || _ || _); [by intros [= _ _ <-]|]. intros E. destruct (IH _ _ _ _ _ _ _ _ E). by split.
  - case_bool_decide; intros E; destruct (IH _ _ _ _ _ _ _ _ E); by split.
Qed.

Lemma queue_free_loop_same n : forall i r r', queue_free_loop n i r = Some r' -> same_buf r r'.
Proof.
  induction n as [|n IH]; intros i r r'; cbn [queue_free_loop]; [by intros [= <-]|]. unfold rt_rbb_blk_free.
  destruct (blk_set r !! i) as [b|]; [|done]. cbn [mbind option_bind]. destruct (RT_ASSERT _); [|done]. cbn [mbind option_bind].
  intros E. destruct (IH _ _ _ E). by split.
Qed.

Lemma rbb_step_same r r' : rbb_step r r' -> rbb_ok r -> same_buf r r'.
Proof.
  intros [size s s' o Hp E|i s s' E|s s' o E|i s s' E|len q s total q' s' E|q s s' E] Hok.
  - destruct (rt_rbb_blk_alloc_spec size s Hok Hp) as (r2 & o2 & E2 & _ & Hpost).
    assert (s' = r2) as -> by congruence. assert (o = o2) as -> by congruence.
    destruct o2 as [i|]; [by destruct Hpost as (a & b & -> & _)|by rewrite Hpost].
  - unfold rt_rbb_blk_put in E. destruct (blk_set s !! i) as [b|]; [|done]. cbn [mbind option_bind] in E.
    destruct (RT_ASSERT _); [|done]. by injection E as <-.
  - unfold rt_rbb_blk_get in E. destruct (get_loop _ _) as [[i|]|]; [| |done]; cbn [mbind option_bind] in E; [|by injection E as <- _].
    destruct (blk_set s !! i); [|done]. by injection E as <- _.
  - eapply (queue_free_loop_same 1 i). cbn [queue_free_loop]. by rewrite E.
  - by eapply queue_loop_same.
  - by eapply queue_free_loop_same.
Qed.

Lemma rbb_reach_same b size set r : 0 <= b -> 0 <= size -> b + size < 2 ^ 32 -> rbb_reach b size set r -> same_buf (rt_rbb_init b size set) r.
Proof.
  intros H1 H2 H3 H. assert (rbb_ok (rt_rbb_init b size set)) as Hi by (by apply rbb_init_ok).
  induction H as [|x y z Hxy Hyz IH]; [done|]. destruct (rbb_step_same _ _ Hxy Hi). destruct (IH (rbb_step_ok _ _ Hxy Hi)). split; congruence.
Qed.

(** ** The next queue *)

(** The two sets of blocks differ at most in the states of blocks outside [l]. *)
Definition agree (l : list nat) (last : option nat) (set set' : list rt_rbb_blk) : Prop :=
  (forall k, k ∈ l -> set' !! k = set !! k) /\ (forall j, last = Some j -> buf <$> set' !! j = buf <$> set !! j).

Lemma next_len_queue l : forall pre set last q r total,
  rbb_ok r -> blk_list r = pre ++ l -> agree l last set (blk_set r) -> (forall j, last = Some j -> is_Some (set !! j)) ->
  exists q' r', queue_loop l last (2 ^ 32 - 1) total q r = (fun t => (t, q', r')) <$> next_len_loop set l last total.
Proof.
  induction l as [|i l IH]; intros pre set last q r total Hok El [Ha Hlast] Hj; [by exists q, r|].
  destruct (listed_block r i Hok) as (b & Eb & _); [rewrite El; set_solver|].
  assert (set !! i = Some b) as Ei by (rewrite <- Ha by set_solver; done).
  assert (forall q, exists q' r', queue_loop l (Some i) (2 ^ 32 - 1) (u32 (total + bsize b)) q (taken_out i b r) =
    (fun t => (t, q', r')) <$> next_len_loop set l (Some i) (u32 (total + bsize b))) as Htake.
  { intros q0. apply (IH pre).
    - apply rbb_ok_drop; [done..|by right].
    - by eapply taken_out_list.
    - split.
      + intros k Hk. cbn. rewrite list_lookup_insert_ne; [apply Ha; by constructor|]. intros ->. destruct Hok as [_ Hnd _ _].
        rewrite El in Hnd. by apply NoDup_app in Hnd as (_ & _ & [Hni _]%NoDup_cons).
      + intros j [= <-]. cbn. rewrite list_lookup_insert_eq by (by eapply lookup_lt_Some). by rewrite Ei.
    - intros j [= <-]. by rewrite Ei. }
  cbn [queue_loop next_len_loop]. rewrite Eb, Ei. cbn [mbind option_bind]. destruct last as [j|].
  - destruct (Hj j eq_refl) as [lb Elb]. specialize (Hlast j eq_refl). rewrite Elb in Hlast |- *.
    destruct (blk_set r !! j) as [lb'|]; [|done]. cbn in Hlast. injection Hlast as Hbuf. cbn [mbind option_bind]. rewrite Hbuf.
    replace (2 ^ 32 - 1 <? u32 (total + bsize b)) with false
      by (symmetry; apply Z.ltb_ge; pose proof (wrapu_range 32 (total + bsize b)); lia).
    rewrite orb_false_r. destruct (_ || _); [by exists q, r|]. apply Htake.
  - case_bool_decide as Hs; [apply Htake|]. apply (IH (pre ++ [i])); [done|by rewrite <- app_assoc| |done].
    split; [|done]. intros k Hk. apply Ha. by constructor.
Qed.

(** ** Claims *)

(** C37. Over any sequence of calls on a block ring buffer (requests of
    non-empty blocks, the first of a run no longer than the buffer; put,
    get, free and the queue calls in any order) every block that is being
    filled, has been put or is in the list lies inside the buffer, and no
    two of them share a byte, also after the blocks have wrapped around the
    end. *)
Theorem rbb_blocks_disjoint b size set r :
  0 <= b -> 0 <= size -> b + size < 2 ^ 32 -> rbb_reach b size set r ->
  (forall i bi, live r i -> blk_set r !! i = Some bi -> b <= buf bi /\ 0 < bsize bi /\ buf bi + bsize bi <= b + size) /\
  (forall i j bi bj, live r i -> live r j -> i <> j -> blk_set r !! i = Some bi -> blk_set r !! j = Some bj ->
     buf bi + bsize bi <= buf bj \/ buf bj + bsize bj <= buf bi).
Proof.
  intros H1 H2 H3 Hr. pose proof (rbb_reach_ok _ _ _ _ H1 H2 H3 Hr) as Hok. destruct (rbb_reach_same _ _ _ _ H1 H2 H3 Hr) as [Eb Es].
  cbn in Eb, Es. rewrite <- Eb, <- Es. split.
  - intros i bi Hi. apply ok_inside; [done|by apply live_listed].
  - intros i j bi bj Hi Hj. apply ok_apart; [done|by apply live_listed..].
Qed.

(** Four slots, a buffer of 64 bytes: two blocks are allocated, put, and the first is
    got and freed; the third block does not fit behind the second and wraps around. *)
Definition slots4 : list rt_rbb_blk := replicate 4 (mk_blk RT_RBB_BLK_UNUSED 0 0).
Definition wrapped_state : option rt_rbb :=
  '(r, _) ← rt_rbb_blk_alloc 24 (rt_rbb_init 1000 64 slots4);
  '(r, _) ← rt_rbb_blk_alloc 24 r;
  r ← rt_rbb_blk_put 0 r;
  r ← rt_rbb_blk_put 1 r;
  '(r, _) ← rt_rbb_blk_get r;
  r ← rt_rbb_blk_free 0 r;
  '(r, _) ← rt_rbb_blk_alloc 20 r;
  Some r.

Lemma wrapped_state_reach : exists r, wrapped_state = Some r /\ rbb_reach 1000 64 slots4 r.
Proof.
  eexists. split; [vm_compute; reflexivity|].
  eapply rtc_l; [eapply (step_alloc 24); [split; [lia|cbn; lia]|vm_compute; reflexivity]|].
  eapply rtc_l; [eapply (step_alloc 24); [split; [lia|cbn; lia]|vm_compute; reflexivity]|].
  eapply rtc_l; [eapply (step_put 0); vm_compute; reflexivity|].
  eapply rtc_l; [eapply (step_put 1); vm_compute; reflexivity|].
  eapply rtc_l; [eapply step_get; vm_compute; reflexivity|].
  eapply rtc_l; [eapply (step_free 0); vm_compute; reflexivity|].
  eapply rtc_l; [eapply (step_alloc 20); [split; [lia|done]|vm_compute; reflexivity]|].
  constructor.
Defined.

Lemma rbb_blocks_disjoint_witness :
  exists r, wrapped_state = Some r /\
  forall i bi, live r i -> blk_set r !! i = Some bi -> 1000 <= buf bi /\ 0 < bsize bi /\ buf bi + bsize bi <= 1000 + 64.
Proof.
  destruct wrapped_state_reach as (r & E & Hr). exists r. split; [exact E|].
  destruct (rbb_blocks_disjoint 1000 64 slots4 r ltac:(lia) ltac:(lia) ltac:(lia) Hr) as [H _]. exact H.
Defined.

(** In every reachable state rt_rbb_blk_get hands out the oldest block that
    has been put and marks it, or returns RT_NULL without a change exactly
    when no block has been put. *)
Theorem rbb_get_oldest b size set r :
  0 <= b -> 0 <= size -> b + size < 2 ^ 32 -> rbb_reach b size set r ->
  exists r' o, rt_rbb_blk_get r = Some (r', o) /\ blk_list r' = blk_list r /\
    match o with
    | None => r' = r /\ forall i, ~ has_status RT_RBB_BLK_PUT r i
    | Some i => has_status RT_RBB_BLK_PUT r i /\ has_status RT_RBB_BLK_GET r' i /\
        exists older newer, blk_list r = older ++ i :: newer /\ Forall (fun k => ~ has_status RT_RBB_BLK_PUT r k) older
    end.
Proof.
  intros H1 H2 H3 Hr. destruct (rt_rbb_blk_get_spec r (rbb_reach_ok _ _ _ _ H1 H2 H3 Hr)) as (r' & o & E & _ & El & Hm).
  exists r', o. split_and!; [done..|]. destruct o as [i|].
  - destruct Hm as (k1 & k2 & b0 & El0 & Eb & Hs & -> & Hf). split_and!.
    + by apply (has_status_eq _ _ _ b0).
    + unfold has_status. cbn. by rewrite list_lookup_insert_eq by (by eapply lookup_lt_Some).
    + exists k1, k2. split; [done|]. eapply Forall_impl; [exact Hf|]. intros k Hk Hp. unfold has_status in Hp.
      destruct (blk_set r !! k) as [bk|] eqn:E2; [|done]. injection Hp as Hp. by eapply Hk.
  - destruct Hm as [-> Hn]. split; [done|]. intros i Hp. unfold has_status in Hp.
    destruct (blk_set r !! i) as [bk|] eqn:E2; [|done]. injection Hp as Hp. by eapply Hn.
Qed.

Lemma rbb_get_oldest_witness : exists r r' o, wrapped_state = Some r /\ rt_rbb_blk_get r = Some (r', o).
Proof.
  destruct wrapped_state_reach as (r & E & Hr).
  destruct (rbb_get_oldest 1000 64 slots4 r ltac:(lia) ltac:(lia) ltac:(lia) Hr) as (r' & o & Eg & _). by exists r, r', o.
Defined.

(** In every reachable state rt_rbb_next_blk_queue_len predicts what
    rt_rbb_blk_queue_get returns when its length limit does not bind. *)
Theorem next_queue_len_exact b size set r q :
  0 <= b -> 0 <= size -> b + size < 2 ^ 32 -> rbb_reach b size set r ->
  exists total q' r', rt_rbb_blk_queue_get (2 ^ 32 - 1) q r = Some (total, q', r') /\ rt_rbb_next_blk_queue_len r = Some total.
Proof.
  intros H1 H2 H3 Hr. pose proof (rbb_reach_ok _ _ _ _ H1 H2 H3 Hr) as Hok.
  destruct (next_len_queue (blk_list r) [] (blk_set r) None q r 0 Hok eq_refl) as (q' & r' & E); [by split|done|].
  destruct (rt_rbb_blk_queue_get_ok (2 ^ 32 - 1) q r Hok) as (t & q2 & r2 & E2 & _). exists t, q2, r2. split; [done|].
  unfold rt_rbb_blk_queue_get in E2. rewrite E2 in E. unfold rt_rbb_next_blk_queue_len.
  destruct (next_len_loop _ _ _ _) as [t'|]; [|done]. cbn in E. by injection E as -> -> ->.
Qed.

Lemma next_queue_len_exact_witness : exists r total, wrapped_state = Some r /\ rt_rbb_next_blk_queue_len r = Some total.
Proof.
  destruct wrapped_state_reach as (r & E & Hr).
  destruct (next_queue_len_exact 1000 64 slots4 r (mk_queue 0 0) ltac:(lia) ltac:(lia) ltac:(lia) Hr) as (t & q' & r' & _ & Et). by exists r, t.
Defined.

(** ** Behaviour outside the contract *)

(** The first block may be longer than the whole buffer: the request is not compared
    with [buf_size] when the list is empty. *)
Example alloc_exceeds_buffer :
  fst <$> (rt_rbb_blk_alloc 100 (rt_rbb_init 1000 64 slots4)) =
  Some (mk_rbb 1000 64 (mk_blk RT_RBB_BLK_INITED 100 1000 :: replicate 3 (mk_blk RT_RBB_BLK_UNUSED 0 0)) [0%nat]).
Proof. reflexivity. Qed.

(** A queue leaves the list before its blocks are freed, so the next request gets the
    memory its reader still holds: slots 0 (state GET) and 1 share their bytes. *)
Example queue_memory_reused :
  ('(r, _) ← rt_rbb_blk_alloc 24 (rt_rbb_init 1000 64 slots4);
   r ← rt_rbb_blk_put 0 r;
   '(_, _, r) ← rt_rbb_blk_queue_get 64 (mk_queue 0 0) r;
   '(r, _) ← rt_rbb_blk_alloc 24 r;
   Some (take 2 (blk_set r))) =
  Some [mk_blk RT_RBB_BLK_GET 24 1000; mk_blk RT_RBB_BLK_INITED 24 1000].
Proof. reflexivity. Qed.

(** A single block that is longer than the caller asked for is handed out. *)
Example queue_exceeds_request :
  ('(r, _) ← rt_rbb_blk_alloc 24 (rt_rbb_init 1000 64 slots4);
   r ← rt_rbb_blk_put 0 r;
   '(n, _, _) ← rt_rbb_blk_queue_get 8 (mk_queue 0 0) r;
   Some n) = Some 24.
Proof. reflexivity. Qed.

(** The blocks of a queue are consecutive in the list, not in the table: of the queue
    that holds the slots 1 and 0, [rt_rbb_blk_queue_len] adds up the slots 1 and 2, and
    [rt_rbb_blk_queue_free] fails its assertion on the unused slot 2. *)
Example queue_slots_not_consecutive :
  ('(r, _) ← rt_rbb_blk_alloc 16 (rt_rbb_init 1000 64 slots4);
   '(r, _) ← rt_rbb_blk_alloc 8 r;
   r ← rt_rbb_blk_free 0 r;
   '(r, _) ← rt_rbb_blk_alloc 4 r;
   r ← rt_rbb_blk_put 1 r;
   r ← rt_rbb_blk_put 0 r;
   '(n, q, r) ← rt_rbb_blk_queue_get 64 (mk_queue 0 0) r;
   Some (n, rt_rbb_blk_queue_len q r, rt_rbb_blk_queue_free q r)) = Some (12, Some 8, None).
Proof. reflexivity. Qed.

End RingBlk.
