(* ===== verification/Timer.v ===== *)
(** * System timers

    Models the hard-timer list of [src/timer.c] and the tick counter of
    [src/clock.c], for the configuration of the board: one skip-list level
    ([RT_TIMER_SKIP_LIST_LEVEL = 1]) and no soft timers.  Ticks are 32-bit and
    wrap around; the list is kept in expiry order relative to the current
    tick.  The expiry loop [rt_timer_check] runs callbacks on the whole kernel
    and is in [Clock.v]. *)

From S2P Require Import Prelude.
From Stdlib Require Import Sorted.

Module Timer.

(** ** Data *)

(** The timer embedded in a thread, or a timer object of its own. *)
Inductive timer_id :=
  | ThreadTimer (t : Z)
  | UserTimer (n : Z).

#[export] Instance timer_id_eq_dec : EqDecision timer_id.
Proof. solve_decision. Defined.
#[export] Instance timer_id_countable : Countable timer_id.
Proof.
  refine (inj_countable'
    (fun i => match i with ThreadTimer t => inl t | UserTimer n => inr n end)
    (fun s => match s with inl t => ThreadTimer t | inr n => UserTimer n end) _).
  by intros [].
Defined.

Definition RT_TIMER_FLAG_ACTIVATED : Z := 0x1.
Definition RT_TIMER_FLAG_ONE_SHOT : Z := 0x0.
Definition RT_TIMER_FLAG_PERIODIC : Z := 0x2.

(** Timeout functions: the kernel's [rt_thread_timeout], or a callback of the
    application. *)
Inductive timeout_fn :=
  | rt_thread_timeout_fn
  | user_timeout_fn (f : Z).

Record rt_timer := mk_timer {
  flag : Z;                    (** [parent.flag], rt_uint8_t *)
  timeout_func : timeout_fn;
  parameter : Z;
  init_tick : Z;               (** rt_tick_t *)
  timeout_tick : Z;            (** rt_tick_t *)
}.

Record timer_sys := mk_sys {
  rt_tick : Z;                          (** clock.c: the global tick *)
  timers : gmap timer_id rt_timer;
  rt_timer_list : list timer_id;        (** the single row, head first *)
  random_nr : Z;                        (** static counter of rt_timer_start *)
}.

Definition set_flag (f : Z) (tm : rt_timer) : rt_timer :=
  mk_timer f (timeout_func tm) (parameter tm) (init_tick tm) (timeout_tick tm).
Definition set_timeout (x : Z) (tm : rt_timer) : rt_timer :=
  mk_timer (flag tm) (timeout_func tm) (parameter tm) (init_tick tm) x.
Definition set_init_tick (x : Z) (tm : rt_timer) : rt_timer :=
  mk_timer (flag tm) (timeout_func tm) (parameter tm) x (timeout_tick tm).

(** [flag &= ~f] and [flag |= f]. *)
Definition clear_flag (f : Z) (tm : rt_timer) : rt_timer :=
  set_flag (Z.land (flag tm) (Z.lnot f)) tm.
Definition add_flag (f : Z) (tm : rt_timer) : rt_timer :=
  set_flag (Z.lor (flag tm) f) tm.
Definition has_flag (f : Z) (tm : rt_timer) : bool := negb (Z.land (flag tm) f =? 0).

Definition with_timer (id : timer_id) (tm : rt_timer) (s : timer_sys) : timer_sys :=
  mk_sys (rt_tick s) (<[id := tm]> (timers s)) (rt_timer_list s) (random_nr s).
Definition with_list (l : list timer_id) (s : timer_sys) : timer_sys :=
  mk_sys (rt_tick s) (timers s) l (random_nr s).

(** ** Operations *)

Definition rt_tick_get (s : timer_sys) : Z := rt_tick s.

Definition rt_tick_set (tick : Z) (s : timer_sys) : timer_sys :=
  mk_sys tick (timers s) (rt_timer_list s) (random_nr s).

Definition _rt_timer_init (id : timer_id) (timeout : timeout_fn) (param time fl : Z)
    (s : timer_sys) : timer_sys :=
  with_timer id (clear_flag RT_TIMER_FLAG_ACTIVATED (mk_timer fl timeout param time 0)) s.

Definition _rt_timer_remove (id : timer_id) (s : timer_sys) : timer_sys :=
  with_list (filter (fun j => j <> id) (rt_timer_list s)) s.

Definition rt_timer_list_next_timeout (s : timer_sys) : option Z :=
  match rt_timer_list s with
  | [] => Some RT_TICK_MAX
  | id :: _ => timeout_tick <$> timers s !! id
  end.

(** [rt_timer_init] and [rt_timer_create] register the object and fill it in;
    [obj] is what [rt_object_allocate] returned. *)
Definition rt_timer_init (id : timer_id) (timeout : timeout_fn) (param time fl : Z)
    (s : timer_sys) : timer_sys :=
  _rt_timer_init id timeout param time fl s.

Definition rt_timer_create (obj : option timer_id) (timeout : timeout_fn) (param time fl : Z)
    (s : timer_sys) : timer_sys * option timer_id :=
  match obj with
  | None => (s, None)
  | Some id => (_rt_timer_init id timeout param time fl s, Some id)
  end.

(** [rt_timer_detach] and [rt_timer_delete] unlink the timer; the object is
    then dropped by [rt_object_detach] or freed by [rt_object_delete], so its
    record goes.  Their assertion that the object is static, or dynamic, is a
    matter of the object system, which the timer record does not carry. *)
Definition rt_timer_detach (id : timer_id) (s : timer_sys) : timer_sys :=
  let s := _rt_timer_remove id s in
  mk_sys (rt_tick s) (delete id (timers s)) (rt_timer_list s) (random_nr s).

Definition rt_timer_delete (id : timer_id) (s : timer_sys) : timer_sys :=
  let s := _rt_timer_remove id s in
  mk_sys (rt_tick s) (delete id (timers s)) (rt_timer_list s) (random_nr s).

(** The search loop of [rt_timer_start]: walk past the timers that expire no
    later than [timeout], then link the new node. *)
Fixpoint timer_link (tms : gmap timer_id rt_timer) (timeout : Z) (id : timer_id)
    (l : list timer_id) : option (list timer_id) :=
  match l with
  | [] => Some [id]
  | j :: l' =>
      t ← tms !! j;
      if u32 (timeout_tick t - timeout) =? 0 then
        cons j <$> timer_link tms timeout id l'
      else if u32 (timeout_tick t - timeout) <? RT_TICK_MAX / 2 then
        Some (id :: j :: l')
      else cons j <$> timer_link tms timeout id l'
  end.

Definition rt_timer_start (id : timer_id) (s : timer_sys) : option timer_sys :=
  tm ← timers s !! id;
  let s := _rt_timer_remove id s in
  let tm := clear_flag RT_TIMER_FLAG_ACTIVATED tm in
  if negb (init_tick tm <? RT_TICK_MAX / 2) then None (* RT_ASSERT *) else
  let tm := set_timeout (u32 (rt_tick_get s + init_tick tm)) tm in
  l ← timer_link (timers s) (timeout_tick tm) id (rt_timer_list s);
  let tm := add_flag RT_TIMER_FLAG_ACTIVATED tm in
  Some (mk_sys (rt_tick s) (<[id := tm]> (timers s)) l (u32 (random_nr s + 1))).

Definition rt_timer_stop (id : timer_id) (s : timer_sys) : option (timer_sys * Z) :=
  tm ← timers s !! id;
  if negb (has_flag RT_TIMER_FLAG_ACTIVATED tm) then Some (s, - RT_ERROR)
  else
    let s := _rt_timer_remove id s in
    Some (with_timer id (clear_flag RT_TIMER_FLAG_ACTIVATED tm) s, RT_EOK).

(** Commands of [rt_timer_control]; [GET_TIME] returns the value it stores
    through its argument. *)
Inductive timer_cmd :=
  | RT_TIMER_CTRL_SET_TIME (tick : Z)
  | RT_TIMER_CTRL_GET_TIME
  | RT_TIMER_CTRL_SET_ONESHOT
  | RT_TIMER_CTRL_SET_PERIODIC.

Definition rt_timer_control (id : timer_id) (cmd : timer_cmd) (s : timer_sys)
  : option (timer_sys * option Z) :=
  tm ← timers s !! id;
  Some match cmd with
  | RT_TIMER_CTRL_GET_TIME => (s, Some (init_tick tm))
  | RT_TIMER_CTRL_SET_TIME tick => (with_timer id (set_init_tick tick tm) s, None)
  | RT_TIMER_CTRL_SET_ONESHOT =>
      (with_timer id (clear_flag RT_TIMER_FLAG_PERIODIC tm) s, None)
  | RT_TIMER_CTRL_SET_PERIODIC =>
      (with_timer id (add_flag RT_TIMER_FLAG_PERIODIC tm) s, None)
  end.

(** [SET_TIME] followed by a start, the sequence every timed wait uses. *)
Definition set_time_and_start (id : timer_id) (time : Z) (s : timer_sys)
  : option timer_sys :=
  r ← rt_timer_control id (RT_TIMER_CTRL_SET_TIME time) s;
  rt_timer_start id r.1.

Definition rt_timer_next_timeout_tick (s : timer_sys) : option Z :=
  rt_timer_list_next_timeout s.

Definition rt_system_timer_init (tick : Z) : timer_sys := mk_sys tick ∅ [] 0.

(** The test of [rt_timer_check]: "the new tick shall less than the half
    duration of tick max". *)
Definition expired (tick timeout : Z) : bool := u32 (tick - timeout) <? RT_TICK_MAX / 2.

Definition RT_WAITING_FOREVER : Z := -1.
Definition RT_TICK_PER_SECOND : Z := 1000.

(** [rt_tick_from_millisecond]: [int] arithmetic with C's truncating division;
    [None] where the signed product or sum overflows (undefined in C). *)
Definition int_range (x : Z) : bool := (- 2 ^ 31 <=? x) && (x <? 2 ^ 31).
Definition rt_tick_from_millisecond (ms : Z) : option Z :=
  if ms <? 0 then Some RT_WAITING_FOREVER
  else if int_range (RT_TICK_PER_SECOND * ms)
          && int_range (RT_TICK_PER_SECOND * ms + 999)
  then Some (Z.quot (RT_TICK_PER_SECOND * ms + 999) 1000)
  else None.

(** ** Expiry order *)

Definition HALF : Z := RT_TICK_MAX / 2.

(** Ticks until [tm] expires, as a signed distance from [tick]. *)
Definition due (tick : Z) (tm : rt_timer) : Z := i32 (timeout_tick tm - tick).

Definition due_of (s : timer_sys) (j : timer_id) : Z :=
  match timers s !! j with Some tm => due (rt_tick s) tm | None => 0 end.

(** Every linked timer is active and within half the tick range; [lo] bounds
    how far in the past it may lie. *)
Definition linked (lo : Z) (s : timer_sys) (j : timer_id) : Prop :=
  exists tm, timers s !! j = Some tm /\ has_flag RT_TIMER_FLAG_ACTIVATED tm = true /\
             lo <= due (rt_tick s) tm < HALF.

Record timer_wf (lo : Z) (s : timer_sys) : Prop := {
  tw_nodup : NoDup (rt_timer_list s);
  tw_linked : Forall (linked lo s) (rt_timer_list s);
  tw_sorted : StronglySorted (fun i j => due_of s i <= due_of s j) (rt_timer_list s);
}.

Lemma u32_diff_due tick a b :
  u32 (timeout_tick a - timeout_tick b) = u32 (due tick a - due tick b).
Proof.
  unfold due. destruct (wraps_cong 32 (timeout_tick a - tick)) as [k1 ->]; [lia|].
  destruct (wraps_cong 32 (timeout_tick b - tick)) as [k2 ->]; [lia|].
  replace (timeout_tick a - tick + k1 * 2 ^ 32 - (timeout_tick b - tick + k2 * 2 ^ 32))
    with (timeout_tick a - timeout_tick b + (k1 - k2) * 2 ^ 32) by lia.
  by rewrite wrapu_add_mul.
Qed.

Lemma expired_due tick tm :
  - HALF < due tick tm < HALF -> expired tick (timeout_tick tm) = (due tick tm <=? 0).
Proof.
  intros Hd. unfold expired. change (RT_TICK_MAX / 2) with HALF in *.
  destruct (wraps_cong 32 (timeout_tick tm - tick)) as [k Hk]; [lia|].
  replace (tick - timeout_tick tm) with (- due tick tm + k * 2 ^ 32)
    by (unfold due; lia).
  rewrite wrapu_add_mul. unfold HALF, RT_TICK_MAX in *. unfold wrapu.
  apply eq_true_iff_eq. rewrite Z.ltb_lt, Z.leb_le.
  change (0xffffffff / 2) with 0x7fffffff in *. zlia.
Qed.

(** The comparison of the search loop decides "expires later". *)
Lemma link_test tick a b :
  -1 <= due tick a < HALF -> 0 <= due tick b < HALF ->
  (u32 (timeout_tick a - timeout_tick b) =? 0) = (due tick a =? due tick b) /\
  (u32 (timeout_tick a - timeout_tick b) <? RT_TICK_MAX / 2) = (due tick b <=? due tick a).
Proof.
  intros Ha Hb. rewrite (u32_diff_due tick).
  change (RT_TICK_MAX / 2) with 0x7fffffff in *. unfold HALF, RT_TICK_MAX in *.
  change (0xffffffff / 2) with 0x7fffffff in *. unfold wrapu.
  split; apply eq_true_iff_eq; rewrite ?Z.eqb_eq, ?Z.ltb_lt, ?Z.leb_le; zlia.
Qed.

Lemma linked_due lo s j : linked lo s j -> lo <= due_of s j < HALF.
Proof. intros (tm & E & _ & Hd). unfold due_of. by rewrite E. Qed.

Lemma timer_link_spec s new id l :
  Forall (linked (-1) s) l ->
  StronglySorted (fun i j => due_of s i <= due_of s j) l ->
  0 <= due (rt_tick s) new < HALF ->
  exists l1 l2, l = l1 ++ l2 /\
    timer_link (timers s) (timeout_tick new) id l = Some (l1 ++ id :: l2) /\
    Forall (fun j => due_of s j <= due (rt_tick s) new) l1 /\
    Forall (fun j => due (rt_tick s) new < due_of s j) l2.
Proof.
  intros Hl Hs Hn. induction l as [|j l IH]; [by exists [], []|].
  apply Forall_cons in Hl as [Hj Hl]. apply StronglySorted_inv in Hs as [Hs Hle].
  destruct (IH Hl Hs) as (l1 & l2 & -> & E & H1 & H2). simpl.
  pose proof (linked_due _ _ _ Hj) as Hd.
  destruct Hj as (tm & Etm & _ & Hdj). unfold due_of in Hd. rewrite Etm in *. simpl.
  destruct (link_test (rt_tick s) tm new Hdj Hn) as [T1 T2]. rewrite T1, T2, E. simpl.
  assert (due_of s j = due (rt_tick s) tm) as Ej by (unfold due_of; by rewrite Etm).
  destruct (Z.eqb_spec (due (rt_tick s) tm) (due (rt_tick s) new)); [|case_bool].
  - exists (j :: l1), l2. split_and!; try done. apply Forall_cons. split; [lia|done].
  - exists [], (j :: l1 ++ l2). split_and!; try done.
    apply Forall_cons. split; [lia|]. eapply Forall_impl; [exact Hle|].
    simpl. intros x. lia.
  - exists (j :: l1), l2. split_and!; try done. apply Forall_cons. split; [lia|done].
Qed.

Lemma StronglySorted_filter {A} (R : relation A) (P : A -> Prop) `{!forall x, Decision (P x)} l :
  StronglySorted R l -> StronglySorted R (filter P l).
Proof.
  induction 1 as [|x l Hs IH Hf]; [constructor|].
  destruct (decide (P x)).
  - rewrite filter_cons_True by done. constructor; [done|].
    by apply Forall_filter_sub.
  - by rewrite filter_cons_False by done.
Qed.

Lemma StronglySorted_insert {A} (R : relation A) l1 x l2 :
  StronglySorted R (l1 ++ l2) -> Forall (fun y => R y x) l1 -> Forall (R x) l2 ->
  StronglySorted R (l1 ++ x :: l2).
Proof.
  induction l1 as [|y l1 IH]; simpl; intros Hs H1 H2; [by constructor|].
  apply StronglySorted_inv in Hs as [Hs Hy]. apply Forall_cons in H1 as [Hyx H1].
  constructor; [by apply IH|].
  apply Forall_app in Hy as [? ?]. apply Forall_app. split; [done|].
  by apply Forall_cons.
Qed.

Lemma StronglySorted_ext {A} (R R' : relation A) l :
  (forall x y, x ∈ l -> y ∈ l -> R x y -> R' x y) ->
  StronglySorted R l -> StronglySorted R' l.
Proof.
  induction l as [|x l IH]; intros HR Hs; [constructor|].
  apply StronglySorted_inv in Hs as [Hs Hx]. constructor.
  - apply IH; [|done]. intros y z Hy Hz. apply HR; by right.
  - rewrite Forall_forall in Hx |- *. intros y Hy. apply HR; [left|by right|by apply Hx].
Qed.

(** Two states that agree on the tick and on the linked timers. *)
Lemma timer_wf_ext lo s s' :
  rt_tick s' = rt_tick s -> rt_timer_list s' = rt_timer_list s ->
  (forall j, j ∈ rt_timer_list s -> timers s' !! j = timers s !! j) ->
  timer_wf lo s -> timer_wf lo s'.
Proof.
  intros Et El Htm [Hn Hl Hs]. constructor; rewrite El; [done|..].
  - rewrite Forall_forall in Hl |- *. intros j Hj. specialize (Hl j Hj).
    unfold linked in *. by rewrite Htm, Et.
  - eapply StronglySorted_ext; [|exact Hs]. intros x y Hx Hy. simpl.
    unfold due_of. by rewrite !Htm, Et.
Qed.

Lemma timer_wf_remove lo id s : timer_wf lo s -> timer_wf lo (_rt_timer_remove id s).
Proof.
  intros [Hn Hl Hs]. constructor; simpl.
  - by apply NoDup_filter.
  - by apply Forall_filter_sub.
  - by apply StronglySorted_filter.
Qed.

Lemma not_linked_remove id s : id ∉ rt_timer_list (_rt_timer_remove id s).
Proof. simpl. rewrite list_elem_of_filter. naive_solver. Qed.

(** Changing a timer that is not linked does not disturb the list. *)
Lemma timer_wf_with_timer lo id tm s :
  timer_wf lo s -> id ∉ rt_timer_list s -> timer_wf lo (with_timer id tm s).
Proof.
  intros Hw Hn. eapply timer_wf_ext; [..|exact Hw]; try done.
  simpl. intros j Hj. rewrite lookup_insert_ne; [done|]. by intros ->.
Qed.

Lemma land_lnot_1 f : Z.land (Z.lor (Z.land f (Z.lnot 1)) 1) 1 = 1.
Proof.
  apply Z.bits_inj'. intros n Hn. rewrite !Z.land_spec, Z.lor_spec, Z.land_spec.
  destruct (decide (n = 0)) as [->|]; [by rewrite orb_true_r|].
  change 1 with (2 ^ 0). rewrite Z.pow2_bits_eqb by lia. case_bool; [lia|].
  by rewrite !andb_false_r.
Qed.

Lemma due_fresh tick n :
  0 <= n < HALF -> forall tm, timeout_tick tm = u32 (tick + n) -> due tick tm = n.
Proof.
  intros Hn tm E. unfold due. rewrite E. unfold HALF, RT_TICK_MAX in *.
  change (0xffffffff / 2) with 0x7fffffff in *.
  destruct (wrapu_cong 32 (tick + n)) as [k ->]; [lia|].
  unfold wraps. replace (tick + n + k * 2 ^ 32 - tick + 2 ^ (32 - 1))
    with (n + 2 ^ (32 - 1) + k * 2 ^ 32) by lia.
  rewrite Z_mod_plus_full, Z.mod_small; lia.
Qed.

Lemma linked_weaken lo lo' s l :
  lo' <= lo -> Forall (linked lo s) l -> Forall (linked lo' s) l.
Proof.
  intros Hle Hl. eapply Forall_impl; [exact Hl|]. intros j (tm & ? & ? & ?).
  exists tm. split_and!; try done; lia.
Qed.

Lemma timer_wf_weaken lo lo' s : lo' <= lo -> timer_wf lo s -> timer_wf lo' s.
Proof. intros Hle [? ? ?]. constructor; [done|by eapply linked_weaken|done]. Qed.

(** What [rt_timer_start] does: the timer leaves its old place, is due
    [init_tick] ticks from now, and is linked behind every timer that expires
    no later and before every timer that expires later. *)
Lemma timer_start_spec lo s id tm :
  -1 <= lo <= 0 ->
  timer_wf lo s -> timers s !! id = Some tm -> 0 <= init_tick tm < HALF ->
  exists s' tm' l1 l2,
    rt_timer_start id s = Some s' /\ timer_wf lo s' /\
    rt_tick s' = rt_tick s /\
    timers s' = <[id := tm']> (timers s) /\
    has_flag RT_TIMER_FLAG_ACTIVATED tm' = true /\
    init_tick tm' = init_tick tm /\ due (rt_tick s) tm' = init_tick tm /\
    timeout_func tm' = timeout_func tm /\ parameter tm' = parameter tm /\
    flag tm' = flag (add_flag RT_TIMER_FLAG_ACTIVATED (clear_flag RT_TIMER_FLAG_ACTIVATED tm)) /\
    filter (fun j => j <> id) (rt_timer_list s) = l1 ++ l2 /\
    rt_timer_list s' = l1 ++ id :: l2 /\
    Forall (fun j => due_of s j <= init_tick tm) l1 /\
    Forall (fun j => init_tick tm < due_of s j) l2.
Proof.
  intros Hlo Hw Htm Hi. pose proof (timer_wf_remove _ id s Hw) as [Hn Hl Hs].
  pose proof (not_linked_remove id s) as Hid.
  unfold rt_timer_start. rewrite Htm. cbn [mbind option_bind].
  change (init_tick (clear_flag _ tm)) with (init_tick tm).
  change (RT_TICK_MAX / 2) with HALF.
  destruct (Z.ltb_spec (init_tick tm) HALF); [cbn [negb]|lia].
  set (tm' := set_timeout _ _).
  assert (due (rt_tick s) tm' = init_tick tm) as Hd by (by apply due_fresh).
  destruct (timer_link_spec (_rt_timer_remove id s) tm' id
    (rt_timer_list (_rt_timer_remove id s))) as (l1 & l2 & El & E & H1 & H2);
    [eapply linked_weaken; [|exact Hl]; lia|exact Hs|simpl; rewrite Hd; lia|].
  rewrite E. cbn [mbind option_bind].
  eexists _, _, l1, l2. split; [done|].
  set (s' := mk_sys _ _ _ _).
  assert (forall j, j <> id -> due_of s' j = due_of s j) as Hother.
  { intros j Hj. unfold due_of. simpl. by rewrite lookup_insert_ne. }
  assert (due_of s' id = init_tick tm) as Hnew
    by (unfold due_of; simpl; by rewrite lookup_insert_eq).
  simpl in H1, H2, El. rewrite Hd in H1, H2.
  assert (forall j, j ∈ l1 ++ l2 -> j <> id) as Hne
    by (intros j Hj ->; rewrite <- El in Hj; by apply Hid).
  assert (has_flag RT_TIMER_FLAG_ACTIVATED (add_flag RT_TIMER_FLAG_ACTIVATED tm') = true)
    as Hact.
  { unfold has_flag. simpl. unfold RT_TIMER_FLAG_ACTIVATED. by rewrite land_lnot_1. }
  split; [constructor|by split_and!]; simpl.
  - rewrite <- Permutation_middle. apply NoDup_cons. simpl in Hn. rewrite El in Hn.
    split; [|done]. by intros Hin%Hne.
  - simpl in Hl. rewrite El in Hl. rewrite Forall_forall in Hl. apply Forall_forall.
    intros j Hj. destruct (decide (j = id)) as [->|Hji].
    + eexists. simpl. rewrite lookup_insert_eq. split; [done|]. split; [done|].
      change (lo <= due (rt_tick s) tm' < HALF). lia.
    + destruct (Hl j) as (tmj & Ej & ?); [set_solver|]. exists tmj. simpl in *.
      by rewrite lookup_insert_ne.
  - apply StronglySorted_insert.
    + simpl in Hs. rewrite El in Hs. eapply StronglySorted_ext; [|exact Hs].
      intros x y Hx Hy. simpl. rewrite !Hother by (by apply Hne). done.
    + rewrite Forall_forall in H1 |- *. intros x Hx. rewrite Hnew, Hother by (apply Hne; set_solver).
      by apply H1.
    + rewrite Forall_forall in H2 |- *. intros x Hx. rewrite Hnew, Hother by (apply Hne; set_solver).
      apply Z.lt_le_incl. by apply H2.
Qed.

Lemma timer_stop_wf lo s id s' e :
  timer_wf lo s -> rt_timer_stop id s = Some (s', e) ->
  timer_wf lo s' /\ rt_tick s' = rt_tick s.
Proof.
  intros Hw. unfold rt_timer_stop. destruct (timers s !! id) as [tm|]; [simpl|done].
  case_match; intros [= <- <-]; [done|]. split; [|done].
  apply timer_wf_with_timer; [by apply timer_wf_remove|apply not_linked_remove].
Qed.

(** ** Theorems *)

(** C3. rt_timer_start moves the timer to its place in expiry order, across
    the 32-bit wrap of the tick: it is due init_tick ticks from now, stands
    behind every timer due no later and before every timer due later, is
    marked active, and the list stays well formed. *)
Theorem rt_timer_start_expiry_order s id tm :
  timer_wf (-1) s -> timers s !! id = Some tm -> 0 <= init_tick tm < HALF ->
  exists s' tm' l1 l2,
    rt_timer_start id s = Some s' /\ timer_wf (-1) s' /\
    timers s' = <[id := tm']> (timers s) /\
    has_flag RT_TIMER_FLAG_ACTIVATED tm' = true /\
    due (rt_tick s) tm' = init_tick tm /\
    filter (fun j => j <> id) (rt_timer_list s) = l1 ++ l2 /\
    rt_timer_list s' = l1 ++ id :: l2 /\
    Forall (fun j => due_of s j <= init_tick tm) l1 /\
    Forall (fun j => init_tick tm < due_of s j) l2.
Proof.
  intros Hw Htm Hi. destruct (timer_start_spec (-1) s id tm ltac:(lia) Hw Htm Hi)
    as (s' & tm' & l1 & l2 & ?). exists s', tm', l1, l2. naive_solver.
Qed.

(** Two timers across the 32-bit wrap-around: now 0xfffffff0, timer 1 due at
    0xfffffff8, timer 2 about to be started for 0x20 ticks. *)
Definition sample_sys : timer_sys :=
  mk_sys 0xfffffff0
    {[ UserTimer 1 := mk_timer 1 (user_timeout_fn 1) 0 8 0xfffffff8;
       UserTimer 2 := mk_timer 0 (user_timeout_fn 2) 0 0x20 0 ]}
    [UserTimer 1] 0.

Lemma sample_sys_wf : timer_wf (-1) sample_sys.
Proof.
  constructor; simpl.
  - apply NoDup_singleton.
  - apply Forall_singleton. eexists. split; [reflexivity|]. split; [reflexivity|].
    vm_compute. intuition congruence.
  - repeat constructor.
Qed.

Lemma rt_timer_start_expiry_order_witness :
  exists s', rt_timer_start (UserTimer 2) sample_sys = Some s' /\ timer_wf (-1) s'.
Proof.
  destruct (rt_timer_start_expiry_order sample_sys (UserTimer 2)
    (mk_timer 0 (user_timeout_fn 2) 0 0x20 0) sample_sys_wf) as (s' & _ & _ & _ & E & W & _);
    [reflexivity|vm_compute; intuition congruence|]. exists s'. by split.
Defined.

(** rt_tick_from_millisecond at 1000 ticks per second is the identity up to
    2147482 ms, maps negative values to RT_WAITING_FOREVER, and overflows
    int arithmetic above 2147482 ms. *)
Theorem rt_tick_from_millisecond_range ms :
  - 2 ^ 31 <= ms < 2 ^ 31 ->
  rt_tick_from_millisecond ms =
  if ms <? 0 then Some RT_WAITING_FOREVER
  else if ms <=? 2147482 then Some ms else None.
Proof.
  intros Hms. unfold rt_tick_from_millisecond, int_range, RT_TICK_PER_SECOND.
  destruct (Z.ltb_spec ms 0); [done|].
  destruct (Z.leb_spec ms 2147482).
  - repeat case_bool; simpl; try lia. f_equal. symmetry.
    rewrite Z.quot_div_nonneg by lia. zlia.
  - repeat case_bool; simpl; try lia; done.
Qed.

Lemma rt_tick_from_millisecond_range_witness :
  rt_tick_from_millisecond 20 = Some 20 /\ rt_tick_from_millisecond 2147483 = None.
Proof.
  split; (rewrite rt_tick_from_millisecond_range by lia; reflexivity).
Defined.

End Timer.
