(* ===== verification/Sched.v ===== *)
(** * Threads and the scheduler: data and operations

    Models the uniprocessor configuration ([RT_THREAD_PRIORITY_MAX = 32], no
    SMP, no signals) of [src/scheduler.c] and [src/thread.c].

    An operation returns [None] where the C code would fail an [RT_ASSERT],
    dereference a null or dangling pointer, or link a list node that is already
    linked; [SchedInv.v] shows that none of this happens in a well-formed
    kernel.  [rt_schedule] selects the next thread and makes it current; the
    register-level context switch is outside the model.  A function that
    blocks is split at its call to [rt_schedule] into an entry part and the
    part the thread executes when it runs again. *)

From S2P Require Import Prelude RtList Timer KService.
Import RtList Timer KService.

Module Sched.

Definition RT_THREAD_PRIORITY_MAX : Z := 32.

(** ** Data *)

(** The heads of the lists a thread's [tlist] node can be linked into. *)
Inductive list_head :=
  | LReady (p : Z)     (** [rt_thread_priority_table[p]] *)
  | LDefunct           (** [rt_thread_defunct] *)
  | LSuspend (o : Z)   (** [suspend_thread] of IPC object [o] *)
  | LSender (o : Z).   (** [suspend_sender_thread] of mailbox [o] *)

#[export] Instance list_head_eq_dec : EqDecision list_head.
Proof. solve_decision. Defined.
#[export] Instance list_head_countable : Countable list_head.
Proof.
  refine (inj_countable'
    (fun h => match h with
              | LReady p => inl (inl p) | LDefunct => inl (inr ())
              | LSuspend o => inr (inl o) | LSender o => inr (inr o) end)
    (fun s => match s with
              | inl (inl p) => LReady p | inl (inr _) => LDefunct
              | inr (inl o) => LSuspend o | inr (inr o) => LSender o end) _).
  by intros [].
Defined.

(** [thread->stat & RT_THREAD_STAT_MASK]; the upper bits only carry signal
    state, which this configuration does not have. *)
Inductive thread_stat :=
  | RT_THREAD_INIT | RT_THREAD_READY | RT_THREAD_SUSPEND
  | RT_THREAD_RUNNING | RT_THREAD_CLOSE.

#[export] Instance thread_stat_eq_dec : EqDecision thread_stat.
Proof. solve_decision. Defined.

Record rt_thread := mk_thread {
  error : Z;                (** rt_err_t *)
  stat : thread_stat;
  current_priority : Z;     (** rt_uint8_t *)
  init_priority : Z;        (** rt_uint8_t *)
  number_mask : Z;          (** rt_uint32_t *)
  event_set : Z;            (** rt_uint32_t *)
  event_info : Z;           (** rt_uint8_t *)
  slice : Z;                (** [init_tick]: the time slice *)
  remaining_tick : Z;
  has_cleanup : bool;       (** [cleanup != RT_NULL] *)
  is_static : bool;         (** [rt_object_is_systemobject] *)
}.

Record kernel := mk_kernel {
  threads : gmap Z rt_thread;
  lists : gmap list_head (list Z);
  rt_thread_ready_priority_group : Z;    (** rt_uint32_t *)
  rt_scheduler_lock_nest : Z;            (** rt_int16_t *)
  rt_interrupt_nest : Z;                 (** rt_uint8_t *)
  rt_current_thread : option Z;
  rt_current_priority : Z;               (** rt_uint8_t *)
  thread_objects : list Z;               (** the object container of threads *)
  tsys : timer_sys;
}.

(** Field updates. *)
Definition set_threads (x : gmap Z rt_thread) (k : kernel) : kernel :=
  mk_kernel x (lists k) (rt_thread_ready_priority_group k) (rt_scheduler_lock_nest k)
    (rt_interrupt_nest k) (rt_current_thread k) (rt_current_priority k)
    (thread_objects k) (tsys k).
Definition set_lists (x : gmap list_head (list Z)) (k : kernel) : kernel :=
  mk_kernel (threads k) x (rt_thread_ready_priority_group k) (rt_scheduler_lock_nest k)
    (rt_interrupt_nest k) (rt_current_thread k) (rt_current_priority k)
    (thread_objects k) (tsys k).
Definition set_group (x : Z) (k : kernel) : kernel :=
  mk_kernel (threads k) (lists k) x (rt_scheduler_lock_nest k)
    (rt_interrupt_nest k) (rt_current_thread k) (rt_current_priority k)
    (thread_objects k) (tsys k).
Definition set_lock_nest (x : Z) (k : kernel) : kernel :=
  mk_kernel (threads k) (lists k) (rt_thread_ready_priority_group k) x
    (rt_interrupt_nest k) (rt_current_thread k) (rt_current_priority k)
    (thread_objects k) (tsys k).
Definition set_current (x : option Z) (p : Z) (k : kernel) : kernel :=
  mk_kernel (threads k) (lists k) (rt_thread_ready_priority_group k)
    (rt_scheduler_lock_nest k) (rt_interrupt_nest k) x p (thread_objects k) (tsys k).
Definition set_objects (x : list Z) (k : kernel) : kernel :=
  mk_kernel (threads k) (lists k) (rt_thread_ready_priority_group k)
    (rt_scheduler_lock_nest k) (rt_interrupt_nest k) (rt_current_thread k)
    (rt_current_priority k) x (tsys k).
Definition set_tsys (x : timer_sys) (k : kernel) : kernel :=
  mk_kernel (threads k) (lists k) (rt_thread_ready_priority_group k)
    (rt_scheduler_lock_nest k) (rt_interrupt_nest k) (rt_current_thread k)
    (rt_current_priority k) (thread_objects k) x.

Definition set_stat (x : thread_stat) (th : rt_thread) : rt_thread :=
  mk_thread (error th) x (current_priority th) (init_priority th) (number_mask th)
    (event_set th) (event_info th) (slice th) (remaining_tick th)
    (has_cleanup th) (is_static th).
Definition set_error (x : Z) (th : rt_thread) : rt_thread :=
  mk_thread x (stat th) (current_priority th) (init_priority th) (number_mask th)
    (event_set th) (event_info th) (slice th) (remaining_tick th)
    (has_cleanup th) (is_static th).
(** Priority together with the mask derived from it. *)
Definition set_priority (p : Z) (th : rt_thread) : rt_thread :=
  mk_thread (error th) (stat th) p (init_priority th) (u32 (Z.shiftl 1 p))
    (event_set th) (event_info th) (slice th) (remaining_tick th)
    (has_cleanup th) (is_static th).
Definition set_event (s i : Z) (th : rt_thread) : rt_thread :=
  mk_thread (error th) (stat th) (current_priority th) (init_priority th)
    (number_mask th) s i (slice th) (remaining_tick th) (has_cleanup th) (is_static th).
Definition set_remaining (x : Z) (th : rt_thread) : rt_thread :=
  mk_thread (error th) (stat th) (current_priority th) (init_priority th)
    (number_mask th) (event_set th) (event_info th) (slice th) x
    (has_cleanup th) (is_static th).

Definition upd_thread (t : Z) (f : rt_thread -> rt_thread) (k : kernel) : kernel :=
  set_threads (alter f t (threads k)) k.

(** ** Linking [thread->tlist]

    Unlinking is always defined; linking needs an initialised head and a node
    that is not linked anywhere. *)

Definition linkable (h : list_head) (t : Z) (k : kernel) : bool :=
  bool_decide (is_Some (lists k !! h) /\ map_Forall (fun _ xs => t ∉ xs) (lists k)).

Definition tlist_remove (t : Z) (k : kernel) : kernel :=
  set_lists (lremove t (lists k)) k.
Definition tlist_push_back (h : list_head) (t : Z) (k : kernel) : option kernel :=
  if linkable h t k then Some (set_lists (lpush_back h t (lists k)) k) else None.
Definition tlist_push_front (h : list_head) (t : Z) (k : kernel) : option kernel :=
  if linkable h t k then Some (set_lists (lpush_front h t (lists k)) k) else None.
Definition tlist_insert_before (h : list_head) (u t : Z) (k : kernel) : option kernel :=
  if linkable h t k && bool_decide (u ∈ lists k !!! h)
  then Some (set_lists (linsert_before u t (lists k)) k) else None.

(** ** scheduler.c *)

Definition _get_highest_priority_thread (k : kernel) : option (Z * Z) :=
  let highest_ready_priority :=
    u32 (__rt_ffs (i32 (rt_thread_ready_priority_group k)) - 1) in
  match lists k !! LReady highest_ready_priority with
  | Some (t :: _) => Some (t, highest_ready_priority)
  | _ => None
  end.

(** Initialises the 32 ready lists and the defunct list of a kernel whose
    other lists are [m]. *)
Definition rt_system_scheduler_init (k : kernel) : kernel :=
  let m := foldr (fun p m => <[LReady (Z.of_nat p) := []]> m) (lists k)
             (seq 0 (Z.to_nat RT_THREAD_PRIORITY_MAX)) in
  set_group 0 (set_lock_nest 0 (set_lists (<[LDefunct := []]> m) k)).

Definition rt_schedule_insert_thread (t : Z) (k : kernel) : option kernel :=
  th ← threads k !! t;
  if bool_decide (rt_current_thread k = Some t) then
    Some (upd_thread t (set_stat RT_THREAD_RUNNING) k)
  else
    let k := upd_thread t (set_stat RT_THREAD_READY) k in
    k ← tlist_push_back (LReady (current_priority th)) t k;
    Some (set_group (Z.lor (rt_thread_ready_priority_group k) (number_mask th)) k).

Definition rt_schedule_remove_thread (t : Z) (k : kernel) : option kernel :=
  th ← threads k !! t;
  let k := tlist_remove t k in
  xs ← lists k !! LReady (current_priority th);
  if bool_decide (xs = []) then
    Some (set_group (Z.land (rt_thread_ready_priority_group k)
                       (Z.lnot (number_mask th))) k)
  else Some k.

Definition rt_schedule (k : kernel) : option kernel :=
  if rt_scheduler_lock_nest k =? 0 then
    if negb (rt_thread_ready_priority_group k =? 0) then
      '(to_thread, highest) ← _get_highest_priority_thread k;
      cur ← rt_current_thread k;
      cth ← threads k !! cur;
      let '(to_thread, need_insert) :=
        if bool_decide (stat cth = RT_THREAD_RUNNING) then
          if current_priority cth <? highest then (cur, false) else (to_thread, true)
        else (to_thread, false) in
      if bool_decide (to_thread <> cur) then
        let k := set_current (Some to_thread) (u8 highest) k in
        k ← (if need_insert : bool then rt_schedule_insert_thread cur k else Some k);
        k ← rt_schedule_remove_thread to_thread k;
        Some (upd_thread to_thread (set_stat RT_THREAD_RUNNING) k)
      else
        k ← rt_schedule_remove_thread cur k;
        Some (upd_thread cur (set_stat RT_THREAD_RUNNING) k)
    else Some k
  else Some k.

Definition rt_system_scheduler_start (k : kernel) : option kernel :=
  '(to_thread, _) ← _get_highest_priority_thread k;
  let k := set_current (Some to_thread) (rt_current_priority k) k in
  k ← rt_schedule_remove_thread to_thread k;
  Some (upd_thread to_thread (set_stat RT_THREAD_RUNNING) k).

Definition rt_enter_critical (k : kernel) : kernel :=
  set_lock_nest (i16 (rt_scheduler_lock_nest k + 1)) k.

Definition rt_exit_critical (k : kernel) : option kernel :=
  let k := set_lock_nest (i16 (rt_scheduler_lock_nest k - 1)) k in
  if rt_scheduler_lock_nest k <=? 0 then rt_schedule (set_lock_nest 0 k) else Some k.

Definition rt_critical_level (k : kernel) : Z := u16 (rt_scheduler_lock_nest k).

(** ** thread.c *)

Definition rt_thread_self (k : kernel) : option Z := rt_current_thread k.

(** The thread timer, and the timed part of every blocking call. *)
Definition stop_thread_timer (t : Z) (k : kernel) : option kernel :=
  r ← rt_timer_stop (ThreadTimer t) (tsys k); Some (set_tsys r.1 k).
Definition start_thread_timer (t time : Z) (k : kernel) : option kernel :=
  s ← set_time_and_start (ThreadTimer t) time (tsys k); Some (set_tsys s k).

Definition rt_thread_suspend (t : Z) (k : kernel) : option (kernel * Z) :=
  th ← threads k !! t;
  if bool_decide (stat th <> RT_THREAD_READY /\ stat th <> RT_THREAD_RUNNING) then
    Some (k, - RT_ERROR)
  else
    _ ← RT_ASSERT (bool_decide
          (stat th = RT_THREAD_RUNNING -> rt_thread_self k = Some t));
    k ← rt_schedule_remove_thread t k;
    let k := upd_thread t (set_stat RT_THREAD_SUSPEND) k in
    k ← stop_thread_timer t k;
    Some (k, RT_EOK).

Definition rt_thread_resume (t : Z) (k : kernel) : option (kernel * Z) :=
  th ← threads k !! t;
  if bool_decide (stat th <> RT_THREAD_SUSPEND) then Some (k, - RT_ERROR)
  else
    let k := tlist_remove t k in
    k ← stop_thread_timer t k;
    k ← rt_schedule_insert_thread t k;
    Some (k, RT_EOK).

Definition rt_thread_timeout (t : Z) (k : kernel) : option kernel :=
  th ← threads k !! t;
  _ ← RT_ASSERT (bool_decide (stat th = RT_THREAD_SUSPEND));
  let k := upd_thread t (set_error (- RT_ETIMEOUT)) k in
  let k := tlist_remove t k in
  k ← rt_schedule_insert_thread t k;
  rt_schedule k.

Definition _rt_thread_init (t priority tick : Z) (static : bool) (k : kernel)
  : option kernel :=
  _ ← RT_ASSERT (priority <? RT_THREAD_PRIORITY_MAX);
  (* rt_list_init of a linked node would tear its list *)
  _ ← RT_ASSERT (bool_decide (map_Forall (fun _ xs => t ∉ xs) (lists k)));
  let ev := default 0 (event_set <$> threads k !! t) in
  let info := default 0 (event_info <$> threads k !! t) in
  let k := set_threads (<[t := mk_thread RT_EOK RT_THREAD_INIT priority priority 0 ev info
                               tick tick false static]> (threads k)) k in
  Some (set_tsys (_rt_timer_init (ThreadTimer t) rt_thread_timeout_fn t 0
                    RT_TIMER_FLAG_ONE_SHOT (tsys k)) k).

(** [rt_object_init] links the new object at the front of its container. *)
Definition rt_thread_init (t priority tick : Z) (k : kernel) : option kernel :=
  _rt_thread_init t priority tick true (set_objects (t :: thread_objects k) k).

(** [obj] is the result of [rt_object_allocate], [stack_ok] whether the stack
    could be allocated. *)
Definition rt_thread_create (obj : option Z) (stack_ok : bool) (priority tick : Z)
    (k : kernel) : option (kernel * option Z) :=
  match obj with
  | None => Some (k, None)
  | Some t =>
      let k := set_objects (t :: thread_objects k) k in
      if stack_ok then
        k ← _rt_thread_init t priority tick false k; Some (k, Some t)
      else (* rt_object_delete *)
        Some (set_objects (filter (fun u => u <> t) (thread_objects k)) k, None)
  end.

Definition rt_thread_startup (t : Z) (k : kernel) : option (kernel * Z) :=
  th ← threads k !! t;
  _ ← RT_ASSERT (bool_decide (stat th = RT_THREAD_INIT));
  let k := upd_thread t (fun th => set_priority (init_priority th) th) k in
  let k := upd_thread t (set_stat RT_THREAD_SUSPEND) k in
  '(k, _) ← rt_thread_resume t k;
  match rt_thread_self k with
  | Some _ => k ← rt_schedule k; Some (k, RT_EOK)
  | None => Some (k, RT_EOK)
  end.

(** Closing a thread: unless it is static and has no cleanup function it is
    handed to the idle thread through the defunct list. *)
Definition close_thread (t : Z) (k : kernel) : option kernel :=
  th ← threads k !! t;
  if is_static th && negb (has_cleanup th) then
    Some (set_objects (filter (fun u => u <> t) (thread_objects k)) k)
  else tlist_push_front LDefunct t k.

Definition detach_thread_timer (t : Z) (k : kernel) : kernel :=
  set_tsys (rt_timer_detach (ThreadTimer t) (tsys k)) k.

Definition rt_thread_exit (k : kernel) : option kernel :=
  t ← rt_thread_self k;
  k ← rt_schedule_remove_thread t k;
  let k := upd_thread t (set_stat RT_THREAD_CLOSE) k in
  let k := detach_thread_timer t k in
  k ← close_thread t k;
  rt_schedule k.

Definition rt_thread_detach (t : Z) (k : kernel) : option (kernel * Z) :=
  th ← threads k !! t;
  _ ← RT_ASSERT (is_static th);
  k ← (if bool_decide (stat th <> RT_THREAD_INIT) then rt_schedule_remove_thread t k
       else Some k);
  let k := detach_thread_timer t k in
  let k := upd_thread t (set_stat RT_THREAD_CLOSE) k in
  k ← close_thread t k;
  Some (k, RT_EOK).

Definition rt_thread_delete (t : Z) (k : kernel) : option (kernel * Z) :=
  th ← threads k !! t;
  _ ← RT_ASSERT (negb (is_static th));
  k ← (if bool_decide (stat th <> RT_THREAD_INIT) then rt_schedule_remove_thread t k
       else Some k);
  let k := detach_thread_timer t k in
  let k := upd_thread t (set_stat RT_THREAD_CLOSE) k in
  k ← tlist_push_front LDefunct t k;
  Some (k, RT_EOK).

Definition rt_thread_yield (k : kernel) : option (kernel * Z) :=
  k ← rt_schedule k; Some (k, RT_EOK).

(** [rt_thread_sleep] up to and including its call to [rt_schedule]. *)
Definition rt_thread_sleep (tick : Z) (k : kernel) : option kernel :=
  t ← rt_thread_self k;
  '(k, _) ← rt_thread_suspend t k;
  k ← start_thread_timer t tick k;
  rt_schedule k.

(** ... and what the thread does when it runs again. *)
Definition rt_thread_sleep_resume (t : Z) (k : kernel) : option (kernel * Z) :=
  th ← threads k !! t;
  Some (if error th =? - RT_ETIMEOUT then upd_thread t (set_error RT_EOK) k else k,
        RT_EOK).

Definition rt_thread_delay (tick : Z) (k : kernel) : option kernel := rt_thread_sleep tick k.

Definition rt_thread_mdelay (ms : Z) (k : kernel) : option kernel :=
  tick ← rt_tick_from_millisecond ms; rt_thread_sleep (u32 tick) k.

Inductive thread_cmd :=
  | RT_THREAD_CTRL_STARTUP
  | RT_THREAD_CTRL_CLOSE
  | RT_THREAD_CTRL_CHANGE_PRIORITY (p : Z)
  | RT_THREAD_CTRL_OTHER.

Definition rt_thread_control (t : Z) (cmd : thread_cmd) (k : kernel)
  : option (kernel * Z) :=
  match cmd with
  | RT_THREAD_CTRL_CHANGE_PRIORITY p =>
      th ← threads k !! t;
      if bool_decide (stat th = RT_THREAD_READY) then
        k ← rt_schedule_remove_thread t k;
        let k := upd_thread t (set_priority p) k in
        k ← rt_schedule_insert_thread t k;
        Some (k, RT_EOK)
      else Some (upd_thread t (set_priority p) k, RT_EOK)
  | RT_THREAD_CTRL_STARTUP => rt_thread_startup t k
  | RT_THREAD_CTRL_CLOSE => rt_thread_delete t k
  | RT_THREAD_CTRL_OTHER => Some (k, RT_EOK)
  end.

End Sched.
