(* ===== verification/SchedInv.v ===== *)
(** * Scheduler invariants

    The well-formedness invariant of the kernel state of [Sched.v] and its
    preservation by every scheduler and thread operation.  The parts of the
    invariant are:
    - [link_inv]: list membership, thread state and the ready bitmap agree;
    - [prio_inv]: priorities are in range and the priority mask matches;
    - [cur_inv]: the current thread is the running one;
    - [timer_inv]: the timer list is in expiry order and only suspended
      threads have their timer running. *)

From S2P Require Import Prelude RtList Timer KService Sched.
Import RtList Timer KService Sched.

Module SchedInv.

(** ** Invariants *)

(** The state a thread must be in to be linked behind a head. *)
Definition stat_for (h : list_head) (th : rt_thread) : Prop :=
  match h with
  | LReady p => stat th = RT_THREAD_READY /\ current_priority th = p
  | LDefunct => stat th = RT_THREAD_CLOSE
  | LSuspend _ | LSender _ => stat th = RT_THREAD_SUSPEND
  end.

(** [x], when given, is a thread that has been taken out of all lists and whose
    state is about to change. *)
Record link_inv (x : option Z) (k : kernel) : Prop := {
  li_unique : unique (lists k);
  li_ready_heads : forall p, is_Some (lists k !! LReady p) <-> 0 <= p < 32;
  li_defunct : is_Some (lists k !! LDefunct);
  li_range : 0 <= rt_thread_ready_priority_group k < 2 ^ 32;
  li_group : forall p xs, lists k !! LReady p = Some xs ->
    Z.testbit (rt_thread_ready_priority_group k) p = true <-> xs <> [];
  li_stat : forall h xs t, lists k !! h = Some xs -> t ∈ xs ->
    exists th, threads k !! t = Some th /\ stat_for h th;
  li_ready : forall t th, threads k !! t = Some th -> stat th = RT_THREAD_READY ->
    x <> Some t -> exists xs, lists k !! LReady (current_priority th) = Some xs /\ t ∈ xs;
  li_exempt : forall t, x = Some t -> absent t (lists k);
}.

Definition prio_ok (th : rt_thread) : Prop :=
  0 <= current_priority th < 32 /\ 0 <= init_priority th < 32 /\
  (number_mask th = 2 ^ current_priority th \/
   ((stat th = RT_THREAD_INIT \/ stat th = RT_THREAD_CLOSE) /\ number_mask th = 0)).

Definition prio_inv (k : kernel) : Prop :=
  forall t th, threads k !! t = Some th -> prio_ok th.

Record cur_inv (k : kernel) : Prop := {
  ci_running : forall t th, threads k !! t = Some th ->
    stat th = RT_THREAD_RUNNING -> rt_current_thread k = Some t;
  ci_current : forall t, rt_current_thread k = Some t ->
    exists th, threads k !! t = Some th /\
      stat th <> RT_THREAD_READY /\ stat th <> RT_THREAD_INIT;
}.

(** The timer of a live thread. *)
Definition thread_timer_ok (t : Z) (s : timer_sys) : Prop :=
  exists tm, timers s !! ThreadTimer t = Some tm /\
    timeout_func tm = rt_thread_timeout_fn /\ parameter tm = t /\
    has_flag RT_TIMER_FLAG_PERIODIC tm = false.

(** A timer is at most overdue while the tick interrupt is being handled. *)
Definition slack (k : kernel) : Z := if rt_interrupt_nest k =? 0 then 0 else -1.

Record timer_inv (k : kernel) : Prop := {
  ti_wf : timer_wf (slack k) (tsys k);
  ti_exists : forall t th, threads k !! t = Some th -> stat th <> RT_THREAD_CLOSE ->
    thread_timer_ok t (tsys k);
  ti_suspended : forall t, ThreadTimer t ∈ rt_timer_list (tsys k) ->
    exists th, threads k !! t = Some th /\ stat th = RT_THREAD_SUSPEND;
}.

Record kernel_inv (k : kernel) : Prop := {
  kv_link : link_inv None k;
  kv_prio : prio_inv k;
  kv_cur : cur_inv k;
  kv_timer : timer_inv k;
}.

(** ** Bitmap lemmas *)

Lemma mask_pow2 p : 0 <= p < 32 -> u32 (Z.shiftl 1 p) = 2 ^ p.
Proof.
  intros Hp. rewrite Z.shiftl_1_l. apply wrapu_small.
  split; [by apply Z.pow_nonneg|]. apply Z.pow_lt_mono_r; lia.
Qed.

Lemma testbit_set g p q :
  0 <= p -> 0 <= q -> Z.testbit (Z.lor g (2 ^ p)) q = Z.testbit g q || (p =? q).
Proof. intros Hp Hq. by rewrite Z.lor_spec, Z.pow2_bits_eqb. Qed.

Lemma testbit_clear g p q :
  0 <= p -> 0 <= q ->
  Z.testbit (Z.land g (Z.lnot (2 ^ p))) q = Z.testbit g q && negb (p =? q).
Proof. intros Hp Hq. by rewrite Z.land_spec, Z.lnot_spec, Z.pow2_bits_eqb by lia. Qed.

Lemma lor_range g p : 0 <= g < 2 ^ 32 -> 0 <= p < 32 -> 0 <= Z.lor g (2 ^ p) < 2 ^ 32.
Proof.
  intros Hg Hp. split; [apply Z.lor_nonneg; split; [lia|by apply Z.pow_nonneg]|]. apply Z.log2_lt_cancel.
  rewrite Z.log2_lor by (lia || by apply Z.pow_nonneg).
  rewrite (Z.log2_pow2 p), (Z.log2_pow2 32) by lia.
  destruct (decide (g = 0)) as [->|]; [change (Z.log2 0) with 0; lia|].
  assert (Z.log2 g < 32) by (apply Z.log2_lt_pow2; lia). lia.
Qed.

Lemma land_lnot_range g m : 0 <= g < 2 ^ 32 -> 0 <= Z.land g (Z.lnot m) < 2 ^ 32.
Proof.
  intros Hg. replace (Z.land g (Z.lnot m)) with (Z.land g (Z.lnot m) mod 2 ^ 32).
  { by apply Z.mod_pos_bound. }
  rewrite <- Z.land_ones by lia.
  rewrite (Z.land_comm g), <- Z.land_assoc, Z.land_ones by lia.
  by rewrite Z.mod_small.
Qed.

Lemma land_lnot_0 g : Z.land g (Z.lnot 0) = g.
Proof. change (Z.lnot 0) with (-1). apply Z.land_m1_r. Qed.

(** ** List store lemmas *)

Lemma lookup_lpush_back h t (m : gmap list_head (list Z)) j :
  lpush_back h t m !! j = if decide (j = h) then (fun xs => xs ++ [t]) <$> m !! h
                          else m !! j.
Proof. unfold lpush_back. rewrite lookup_alter. repeat case_decide; congruence. Qed.

Lemma lookup_lpush_front h t (m : gmap list_head (list Z)) j :
  lpush_front h t m !! j = if decide (j = h) then (fun xs => t :: xs) <$> m !! h
                           else m !! j.
Proof. unfold lpush_front. rewrite lookup_alter. repeat case_decide; congruence. Qed.

Lemma absent_map_Forall (t : Z) (m : gmap list_head (list Z)) :
  map_Forall (fun _ xs => t ∉ xs) m <-> absent t m.
Proof. done. Qed.

Lemma linkable_true h t k :
  is_Some (lists k !! h) -> absent t (lists k) -> linkable h t k = true.
Proof. intros. by apply bool_decide_eq_true_2. Qed.

Lemma absent_lremove_other t u (m : gmap list_head (list Z)) :
  absent u m -> absent u (lremove t m).
Proof.
  intros Ha h xs. rewrite lookup_lremove, fmap_Some. intros (ys & Hh & ->).
  rewrite list_elem_of_filter. intros [_ ?]. by eapply Ha.
Qed.

Lemma lremove_absent t (m : gmap list_head (list Z)) : absent t m -> lremove t m = m.
Proof.
  intros Ha. apply map_eq. intros h. rewrite lookup_lremove.
  destruct (m !! h) as [xs|] eqn:E; [simpl|done].
  by rewrite filter_absent by (by eapply Ha).
Qed.

(** ** Preservation of [link_inv]

    An operation takes a thread out of all lists ([link_remove]), changes its
    state while it is exempt ([link_upd]) and links it again ([link_insert]) or
    leaves it unlinked ([link_unexempt]). *)

Lemma link_exempt k t : link_inv None k -> absent t (lists k) -> link_inv (Some t) k.
Proof. intros [] Ha. constructor; try done; [naive_solver|]. by intros ? [= ->]. Qed.

Lemma link_unexempt k t :
  link_inv (Some t) k ->
  (forall th, threads k !! t = Some th -> stat th <> RT_THREAD_READY) -> link_inv None k.
Proof.
  intros [] Hs. constructor; try done. intros u th Hu Hr _.
  apply li_ready0; [done|done|]. intros [= ->]. by eapply Hs.
Qed.

Lemma link_upd k t f : link_inv (Some t) k -> link_inv (Some t) (upd_thread t f k).
Proof.
  intros []. constructor; simpl; try done.
  - intros h xs u Hh Hu. rewrite lookup_alter_ne; [eauto|].
    intros ->. by eapply li_exempt0.
  - intros u th Hu Hr Hn. rewrite lookup_alter_ne in Hu by congruence. eauto.
Qed.

(** Only the state and the priority of threads matter. *)
Lemma link_ext x k k' :
  lists k' = lists k ->
  rt_thread_ready_priority_group k' = rt_thread_ready_priority_group k ->
  (forall t, (fun th => (stat th, current_priority th)) <$> threads k' !! t =
             (fun th => (stat th, current_priority th)) <$> threads k !! t) ->
  link_inv x k -> link_inv x k'.
Proof.
  intros El Eg Et []. constructor; rewrite ?El, ?Eg; try done.
  - intros h xs t Hh Ht. destruct (li_stat0 h xs t Hh Ht) as (th & E & Hs).
    specialize (Et t). rewrite E in Et. apply fmap_Some in Et as (th' & E' & [= Es Ep]).
    exists th'. split; [done|]. destruct h; simpl in *; rewrite <- ?Es, <- ?Ep; done.
  - intros t th' E' Hr Hx. specialize (Et t). rewrite E' in Et. symmetry in Et.
    apply fmap_Some in Et as (th & E & [= Es Ep]). rewrite Ep. apply (li_ready0 t th);
      congruence.
Qed.

(** Threads outside every list: running, initial, or freshly removed. *)
Lemma link_absent x k t th :
  link_inv x k -> threads k !! t = Some th ->
  stat th = RT_THREAD_RUNNING \/ stat th = RT_THREAD_INIT -> absent t (lists k).
Proof.
  intros [] Ht Hs h xs Hh Hin. destruct (li_stat0 h xs t Hh Hin) as (th' & Ht' & Hst).
  simplify_eq. destruct h; simpl in Hst; naive_solver congruence.
Qed.

Lemma filter_ne_nil_other t (xs : list Z) u :
  u ∈ xs -> u <> t -> filter (fun v => v <> t) xs <> [].
Proof. intros Hu Hne E. apply (not_elem_of_nil u). rewrite <- E. by apply list_elem_of_filter. Qed.

(** The group after [t] has left the list of its priority. *)
Definition group_after_remove (t : Z) (th : rt_thread) (k : kernel) : Z :=
  if bool_decide ((fun xs => filter (fun u => u <> t) xs) <$>
                    lists k !! LReady (current_priority th) = Some [])
  then Z.land (rt_thread_ready_priority_group k) (Z.lnot (number_mask th))
  else rt_thread_ready_priority_group k.

Definition removed (t : Z) (th : rt_thread) (k : kernel) : kernel :=
  set_group (group_after_remove t th k) (tlist_remove t k).

Lemma remove_thread_eq k t th :
  link_inv None k -> threads k !! t = Some th -> prio_ok th ->
  rt_schedule_remove_thread t k = Some (removed t th k).
Proof.
  intros Hl Ht (Hp & _). unfold rt_schedule_remove_thread, removed, group_after_remove.
  rewrite Ht. cbn [mbind option_bind]. simpl lists. rewrite lookup_lremove.
  destruct (proj2 (li_ready_heads _ _ Hl (current_priority th)) Hp) as [xs E].
  rewrite E. simpl.
  by destruct (filter _ xs).
Qed.

Lemma group_after_remove_bit k t th q xs :
  link_inv None k -> threads k !! t = Some th -> prio_ok th ->
  lists k !! LReady q = Some xs ->
  Z.testbit (group_after_remove t th k) q = true <-> filter (fun u => u <> t) xs <> [].
Proof.
  intros Hl Ht (Hp & _ & Hm) Hq.
  pose proof (proj1 (li_ready_heads _ _ Hl q) ltac:(eauto)) as Hq32.
  assert (q <> current_priority th -> t ∉ xs) as Hother.
  { intros Hne Hin. destruct (li_stat _ _ Hl _ _ _ Hq Hin) as (? & ? & _ & ?). congruence. }
  unfold group_after_remove. case_bool_decide as Hb.
  - assert (q = current_priority th -> filter (fun u => u <> t) xs = []) as Hnil
      by (intros ->; rewrite Hq in Hb; by injection Hb).
    destruct Hm as [->|[Hs ->]].
    + rewrite testbit_clear by lia. rewrite <- (andb_comm _ (Z.testbit _ _)).
      case_bool; simpl; [subst; naive_solver|].
      rewrite (li_group _ _ Hl _ _ Hq). by rewrite filter_absent by (by apply Hother).
    + rewrite land_lnot_0, (li_group _ _ Hl _ _ Hq).
      rewrite filter_absent; [done|]. intros Hin.
      destruct (li_stat _ _ Hl _ _ _ Hq Hin) as (? & ? & ? & _). naive_solver congruence.
  - rewrite (li_group _ _ Hl _ _ Hq).
    destruct (decide (q = current_priority th)) as [->|Hne];
      [|by rewrite filter_absent by (by apply Hother)].
    rewrite Hq in Hb. split; [intros _ E; apply Hb; simpl; by rewrite E|by intros Hx ->].
Qed.

Lemma link_remove k t th :
  link_inv None k -> threads k !! t = Some th -> prio_ok th ->
  link_inv (Some t) (removed t th k).
Proof.
  intros Hl Ht Hp. pose proof Hl as []. constructor; simpl.
  - by apply unique_lremove.
  - intros p. rewrite lookup_lremove, fmap_is_Some. apply li_ready_heads0.
  - by rewrite lookup_lremove, fmap_is_Some.
  - unfold group_after_remove. case_bool_decide; [by apply land_lnot_range|done].
  - intros q xs. rewrite lookup_lremove, fmap_Some. intros (ys & Hq & ->).
    by apply group_after_remove_bit.
  - intros h xs u. rewrite lookup_lremove, fmap_Some.
    intros (ys & Hh & ->) [_ Hu]%list_elem_of_filter. eauto.
  - intros u thu Hu Hr Hn. destruct (li_ready0 u thu Hu Hr) as (xs & E & Hin); [done|].
    rewrite lookup_lremove, E. eexists. split; [done|].
    apply list_elem_of_filter. split; [congruence|done].
  - intros u [= ->]. apply absent_lremove.
Qed.

(** Leaving a list that is not a ready queue needs no bitmap update. *)
Lemma link_unlink k t th :
  link_inv None k -> threads k !! t = Some th -> stat th <> RT_THREAD_READY ->
  link_inv (Some t) (tlist_remove t k).
Proof.
  intros Hl Ht Hs. pose proof Hl as [].
  assert (forall p xs, lists k !! LReady p = Some xs -> t ∉ xs) as Hnr.
  { intros p xs Hp Hin. destruct (li_stat0 _ _ _ Hp Hin) as (? & ? & ? & _). congruence. }
  constructor; simpl; [by apply unique_lremove|..|by intros ? [= ->]; apply absent_lremove].
  - intros p. rewrite lookup_lremove, fmap_is_Some. apply li_ready_heads0.
  - by rewrite lookup_lremove, fmap_is_Some.
  - done.
  - intros q xs. rewrite lookup_lremove, fmap_Some. intros (ys & Hq & ->).
    rewrite filter_absent by eauto. by apply li_group0.
  - intros h xs u. rewrite lookup_lremove, fmap_Some.
    intros (ys & Hh & ->) [_ Hu]%list_elem_of_filter. eauto.
  - intros u thu Hu Hr Hn. destruct (li_ready0 u thu Hu Hr) as (xs & E & Hin); [done|].
    rewrite lookup_lremove, E. eexists. split; [done|].
    apply list_elem_of_filter. split; [congruence|done].
Qed.

(** The group after [t] has been linked behind [h]. *)
Definition group_after_insert (h : list_head) (g : Z) : Z :=
  match h with LReady p => Z.lor g (2 ^ p) | _ => g end.

Lemma link_insert k t th h ys zs :
  link_inv (Some t) k -> threads k !! t = Some th -> stat_for h th ->
  lists k !! h = Some (ys ++ zs) ->
  link_inv None (set_group (group_after_insert h (rt_thread_ready_priority_group k))
                   (set_lists (<[h := ys ++ t :: zs]> (lists k)) k)).
Proof.
  intros Hl Ht Hs Hh. pose proof Hl as []. pose proof (li_exempt0 t eq_refl) as Ha.
  constructor; simpl; [..|done].
  - eapply unique_insert; [done|done|done|by rewrite Permutation_middle].
  - intros p. rewrite <- li_ready_heads0. rewrite lookup_insert. case_decide; [|done].
    subst. rewrite Hh. naive_solver.
  - rewrite lookup_insert. case_decide; naive_solver.
  - destruct h as [p| | |]; simpl; try done. apply lor_range; [done|].
    apply li_ready_heads0. eauto.
  - intros p xs. rewrite lookup_insert. case_decide as E.
    + intros [= <-]. subst. simpl. assert (0 <= p < 32) by (apply li_ready_heads0; eauto).
      rewrite testbit_set, Z.eqb_refl, orb_true_r by lia. split; [|done]. by destruct ys.
    + intros Hp. rewrite <- (li_group0 p xs Hp).
      assert (0 <= p < 32) by (apply li_ready_heads0; eauto).
      destruct h as [q| | |]; simpl; try done.
      assert (0 <= q < 32) by (apply li_ready_heads0; eauto).
      rewrite testbit_set by lia. case_bool; [congruence|]. by rewrite orb_false_r.
  - intros j xs u. rewrite lookup_insert. case_decide as E; [|eauto].
    intros [= <-] Hu. subst. destruct (decide (u = t)) as [->|]; [eauto|].
    apply (li_stat0 j (ys ++ zs)); [done|set_solver].
  - intros u thu Hu Hr _. destruct (decide (u = t)) as [->|Hne].
    + simplify_eq. destruct h; simpl in Hs; try congruence. destruct Hs as [_ <-].
      exists (ys ++ t :: zs). rewrite lookup_insert_eq. set_solver.
    + destruct (li_ready0 u thu Hu Hr) as (xs & E & Hin); [congruence|].
      destruct (decide (h = LReady (current_priority thu))) as [->|Hne'].
      * exists (ys ++ t :: zs). rewrite lookup_insert_eq. simplify_eq. set_solver.
      * exists xs. by rewrite lookup_insert_ne.
Qed.

(** ** Reading updated thread tables *)

Ltac alter_cases :=
  repeat match goal with
  | H : alter _ _ _ !! _ = Some _ |- _ =>
      rewrite lookup_alter in H; case_decide; [apply fmap_Some in H as (? & ? & ->)|]
  | |- context [alter _ _ _ !! _] => rewrite lookup_alter; case_decide
  end; subst; simplify_eq.

Lemma prio_ok_mask th :
  prio_ok th -> stat th <> RT_THREAD_INIT -> stat th <> RT_THREAD_CLOSE ->
  number_mask th = 2 ^ current_priority th.
Proof. intros (_ & _ & [Hm|[Hs _]]); naive_solver. Qed.

Lemma prio_ok_set_stat s th :
  prio_ok th ->
  (stat th <> RT_THREAD_INIT /\ stat th <> RT_THREAD_CLOSE) \/ s = RT_THREAD_CLOSE ->
  prio_ok (set_stat s th).
Proof.
  intros Hp Hs. pose proof Hp as (? & ? & Hm). split; [done|]. split; [done|]. simpl.
  destruct Hs as [[? ?]| ->]; [left; by apply prio_ok_mask|naive_solver].
Qed.

Lemma prio_upd k t f :
  prio_inv k -> (forall th, threads k !! t = Some th -> prio_ok (f th)) ->
  prio_inv (upd_thread t f k).
Proof. intros Hp Hf u thu Hu. simpl in Hu. alter_cases; eauto. Qed.

Lemma prio_upd_stat k t s th :
  prio_inv k -> threads k !! t = Some th ->
  (stat th <> RT_THREAD_INIT /\ stat th <> RT_THREAD_CLOSE) \/ s = RT_THREAD_CLOSE ->
  prio_inv (upd_thread t (set_stat s) k).
Proof.
  intros Hp Ht Hs. apply prio_upd; [done|]. intros th' Ht'. simplify_eq.
  apply prio_ok_set_stat; [by eapply Hp|done].
Qed.

(** The timer invariant survives state changes that keep the suspended threads
    with a running timer suspended and close threads only. *)
Lemma slack_range k : -1 <= slack k <= 0.
Proof. unfold slack. case_bool; lia. Qed.

Lemma timer_inv_ext k k' :
  tsys k' = tsys k -> rt_interrupt_nest k' = rt_interrupt_nest k ->
  (forall t th', threads k' !! t = Some th' -> stat th' <> RT_THREAD_CLOSE ->
     exists th, threads k !! t = Some th /\ stat th <> RT_THREAD_CLOSE) ->
  (forall t th, threads k !! t = Some th -> stat th = RT_THREAD_SUSPEND ->
     ThreadTimer t ∈ rt_timer_list (tsys k) ->
     exists th', threads k' !! t = Some th' /\ stat th' = RT_THREAD_SUSPEND) ->
  timer_inv k -> timer_inv k'.
Proof.
  intros E En H1 H2 [Hw He Hs]. constructor; rewrite E; [unfold slack in *; by rewrite En|..].
  - intros t th' Ht Hc. destruct (H1 t th' Ht Hc) as (th & ? & ?). eauto.
  - intros t Ht. destruct (Hs t Ht) as (th & ? & ?). eauto.
Qed.

Lemma timer_upd_stat k t s th :
  timer_inv k -> threads k !! t = Some th -> stat th <> RT_THREAD_CLOSE ->
  ThreadTimer t ∉ rt_timer_list (tsys k) \/ stat th <> RT_THREAD_SUSPEND
    \/ s = RT_THREAD_SUSPEND ->
  timer_inv (upd_thread t (set_stat s) k).
Proof.
  intros Hi Ht Hc Hs. eapply timer_inv_ext; [..|exact Hi]; simpl; [done|done|..].
  - intros u th' Hu Hc'. alter_cases; eauto.
  - intros u thu Hu Hsu Hin. alter_cases; [|eauto]. eexists. split; [by rewrite Ht|].
    simpl. naive_solver.
Qed.

(** ** Linking operations *)

Lemma push_back_eq k h t xs :
  lists k !! h = Some xs -> absent t (lists k) ->
  tlist_push_back h t k = Some (set_lists (<[h := xs ++ [t]]> (lists k)) k).
Proof.
  intros Hh Ha. unfold tlist_push_back. rewrite linkable_true by eauto.
  unfold lpush_back. by rewrite (alter_lookup _ _ _ _ Hh).
Qed.

Lemma push_front_eq k h t xs :
  lists k !! h = Some xs -> absent t (lists k) ->
  tlist_push_front h t k = Some (set_lists (<[h := t :: xs]> (lists k)) k).
Proof.
  intros Hh Ha. unfold tlist_push_front. rewrite linkable_true by eauto.
  unfold lpush_front. by rewrite (alter_lookup _ _ _ _ Hh).
Qed.

Definition enqueued (t : Z) (th : rt_thread) (k : kernel) : kernel :=
  let p := current_priority th in
  set_group (Z.lor (rt_thread_ready_priority_group k) (2 ^ p))
    (set_lists (<[LReady p := (lists k !!! LReady p) ++ [t]]> (lists k))
       (upd_thread t (set_stat RT_THREAD_READY) k)).

Lemma insert_thread_ready k t th :
  link_inv (Some t) k -> threads k !! t = Some th -> prio_ok th ->
  stat th <> RT_THREAD_INIT -> stat th <> RT_THREAD_CLOSE ->
  rt_current_thread k <> Some t ->
  rt_schedule_insert_thread t k = Some (enqueued t th k) /\ link_inv None (enqueued t th k).
Proof.
  intros Hl Ht Hp Hi Hc Hcur. pose proof (prio_ok_mask th Hp Hi Hc) as Hm.
  destruct Hp as (Hp & _ & _).
  destruct (proj2 (li_ready_heads _ _ Hl (current_priority th)) Hp) as [xs E].
  unfold rt_schedule_insert_thread, enqueued. rewrite Ht. cbn [mbind option_bind].
  rewrite bool_decide_eq_false_2 by done.
  rewrite (push_back_eq _ _ _ xs); [|done|by apply (li_exempt _ _ Hl)].
  cbn [mbind option_bind]. simpl. rewrite Hm, (lookup_total_correct _ _ _ E).
  split; [done|].
  apply (link_insert (upd_thread t (set_stat RT_THREAD_READY) k) t
    (set_stat RT_THREAD_READY th) (LReady (current_priority th)) xs []).
  - by apply link_upd.
  - simpl. by rewrite lookup_alter_eq, Ht.
  - done.
  - simpl. by rewrite app_nil_r.
Qed.

(** [rt_schedule_insert_thread] in general: what a resumed thread becomes. *)
Definition resumed_stat (t : Z) (k : kernel) : thread_stat :=
  if bool_decide (rt_current_thread k = Some t) then RT_THREAD_RUNNING else RT_THREAD_READY.

Definition inserted (t : Z) (th : rt_thread) (k : kernel) : kernel :=
  if bool_decide (rt_current_thread k = Some t)
  then upd_thread t (set_stat RT_THREAD_RUNNING) k else enqueued t th k.

Lemma insert_thread_eq k t th :
  link_inv (Some t) k -> threads k !! t = Some th -> prio_ok th ->
  stat th <> RT_THREAD_INIT -> stat th <> RT_THREAD_CLOSE ->
  rt_schedule_insert_thread t k = Some (inserted t th k) /\ link_inv None (inserted t th k).
Proof.
  intros Hl Ht Hp Hi Hc. unfold inserted. case_bool_decide as Hcur.
  - unfold rt_schedule_insert_thread. rewrite Ht. cbn [mbind option_bind].
    rewrite bool_decide_eq_true_2 by done. split; [done|].
    eapply link_unexempt; [by apply link_upd|]. simpl. intros th'.
    rewrite lookup_alter_eq, Ht. by intros [= <-].
  - by apply insert_thread_ready.
Qed.

Lemma inserted_threads t th k :
  threads (inserted t th k) = alter (set_stat (resumed_stat t k)) t (threads k).
Proof. unfold inserted, resumed_stat. by case_bool_decide. Qed.
Lemma inserted_tsys t th k : tsys (inserted t th k) = tsys k.
Proof. unfold inserted. by case_bool_decide. Qed.
Lemma inserted_current t th k : rt_current_thread (inserted t th k) = rt_current_thread k.
Proof. unfold inserted. by case_bool_decide. Qed.
Lemma inserted_lock t th k : rt_scheduler_lock_nest (inserted t th k) = rt_scheduler_lock_nest k.
Proof. unfold inserted. by case_bool_decide. Qed.

Lemma inserted_nest t th k : rt_interrupt_nest (inserted t th k) = rt_interrupt_nest k.
Proof. unfold inserted. by case_bool_decide. Qed.

#[export] Hint Rewrite inserted_nest inserted_threads inserted_tsys inserted_current inserted_lock : rtt_rw.

(** ** Selection of the next thread *)

Lemma highest_spec k :
  link_inv None k -> rt_thread_ready_priority_group k <> 0 ->
  exists t p xs, _get_highest_priority_thread k = Some (t, p) /\
    lists k !! LReady p = Some (t :: xs) /\ 0 <= p < 32 /\
    forall q ys, 0 <= q < p -> lists k !! LReady q = Some ys -> ys = [].
Proof.
  intros Hl Hg. pose proof (li_range _ _ Hl) as Hr.
  destruct (ffs_group (rt_thread_ready_priority_group k)) as (Hf & Hb & Hlow); [lia|].
  set (p := __rt_ffs (i32 (rt_thread_ready_priority_group k)) - 1) in *.
  assert (0 <= p < 32) as Hp by lia.
  destruct (proj2 (li_ready_heads _ _ Hl p) Hp) as [[|t xs] E].
  { apply (li_group _ _ Hl _ _ E) in Hb. done. }
  exists t, p, xs. unfold _get_highest_priority_thread. fold p.
  rewrite wrapu_small by lia. rewrite E. do 3 (split; [done|]).
  intros q ys Hq Hqy. destruct ys; [done|].
  assert (Z.testbit (rt_thread_ready_priority_group k) q = true) as Hbit
    by (by apply (li_group _ _ Hl _ _ Hqy)).
  by rewrite Hlow in Hbit by lia.
Qed.

(** Taking a runnable thread out of its queue and making it the running one. *)
Lemma run_thread k t th :
  link_inv None k -> prio_inv k -> timer_inv k -> threads k !! t = Some th ->
  stat th = RT_THREAD_READY \/ stat th = RT_THREAD_RUNNING ->
  rt_current_thread k = Some t ->
  (forall u thu, threads k !! u = Some thu -> stat thu = RT_THREAD_RUNNING -> u = t) ->
  rt_schedule_remove_thread t k = Some (removed t th k) /\
  kernel_inv (upd_thread t (set_stat RT_THREAD_RUNNING) (removed t th k)).
Proof.
  intros Hl Hp Hti Ht Hs Hcur Honly. pose proof (Hp _ _ Ht) as Hpt.
  split; [by apply remove_thread_eq|].
  assert (stat th <> RT_THREAD_SUSPEND /\ stat th <> RT_THREAD_INIT /\
          stat th <> RT_THREAD_CLOSE) as (Hns & Hni & Hnc) by (destruct Hs; split_and!; congruence).
  constructor.
  - eapply link_unexempt; [by apply link_upd, link_remove|]. simpl. intros th' E.
    alter_cases. done.
  - eapply prio_upd_stat; [exact Hp|exact Ht|naive_solver].
  - constructor; simpl.
    + intros u thu Hu Hr. alter_cases; [done|]. rewrite Hcur. f_equal. symmetry. eauto.
    + intros u Hu. assert (u = t) as -> by congruence.
      exists (set_stat RT_THREAD_RUNNING th). by rewrite lookup_alter_eq, Ht.
  - eapply (timer_upd_stat (removed t th k)); [|exact Ht|done|by right; left].
    eapply timer_inv_ext; [..|exact Hti]; simpl; eauto.
Qed.

(** The state after a switch from [cur] to [to]. *)
Definition switched (cur : Z) (cth : rt_thread) (to : Z) (tth : rt_thread) (k : kernel)
  : kernel :=
  let k := set_current (Some to) (current_priority tth) k in
  let k := if bool_decide (stat cth = RT_THREAD_RUNNING) then enqueued cur cth k else k in
  upd_thread to (set_stat RT_THREAD_RUNNING) (removed to tth k).

Lemma schedule_switch k cur cth to tth xs :
  kernel_inv k -> rt_current_thread k = Some cur -> threads k !! cur = Some cth ->
  threads k !! to = Some tth -> lists k !! LReady (current_priority tth) = Some (to :: xs) ->
  to <> cur ->
  let k1 := set_current (Some to) (current_priority tth) k in
  exists k2,
    (if bool_decide (stat cth = RT_THREAD_RUNNING)
     then rt_schedule_insert_thread cur k1 else Some k1) = Some k2 /\
    rt_schedule_remove_thread to k2 = Some (removed to tth k2) /\
    switched cur cth to tth k =
      upd_thread to (set_stat RT_THREAD_RUNNING) (removed to tth k2) /\
    kernel_inv (switched cur cth to tth k).
Proof.
  intros [Hl Hp Hc Ht] Hcur Hcth Htth Hh Hne k1. pose proof (Hp _ _ Hcth) as Hpc.
  assert (stat tth = RT_THREAD_READY) as Hrdy.
  { destruct (li_stat _ _ Hl _ _ to Hh) as (? & ? & ? & _); [left|congruence]. }
  assert (link_inv None k1) as Hl1 by (by eapply link_ext; [..|exact Hl]).
  assert (forall u thu, threads k !! u = Some thu -> stat thu = RT_THREAD_RUNNING -> u = cur)
    as Honly by (intros u thu Hu Hr; pose proof (ci_running _ Hc _ _ Hu Hr); congruence).
  unfold switched. case_bool_decide as Hr.
  - destruct (insert_thread_ready k1 cur cth) as [E Hl2]; try done; try congruence.
    { apply link_exempt; [done|]. by eapply link_absent; [exact Hl1|exact Hcth|left]. }
    { simpl. congruence. }
    exists (enqueued cur cth k1). split; [done|].
    destruct (run_thread (enqueued cur cth k1) to tth) as [E' Hk]; try done; simpl.
    + eapply prio_upd_stat; [exact Hp|exact Hcth|left; split; congruence].
    + eapply timer_inv_ext; [..|exact Ht]; simpl; [done|done|..].
      * intros u th' Hu Hc'. alter_cases; [|eauto]. eexists. split; [done|congruence].
      * intros u thu Hu Hsu Hin. alter_cases; [congruence|eauto].
    + by rewrite lookup_alter_ne.
    + by left.
    + intros u thu Hu Hru. alter_cases. pose proof (Honly u thu). naive_solver.
  - exists k1. split; [done|].
    destruct (run_thread k1 to tth) as [E' Hk]; try done.
    + eapply timer_inv_ext; [..|exact Ht]; simpl; eauto.
    + by left.
    + simpl. intros u thu Hu Hru. pose proof (Honly u thu Hu Hru). subst. congruence.
Qed.

(** The three outcomes of [rt_schedule] when the scheduler is not locked. *)
Lemma schedule_cases k cur cth :
  kernel_inv k -> rt_scheduler_lock_nest k = 0 ->
  rt_current_thread k = Some cur -> threads k !! cur = Some cth ->
  (rt_thread_ready_priority_group k = 0 /\ rt_schedule k = Some k) \/
  exists to tth xs,
    threads k !! to = Some tth /\ stat tth = RT_THREAD_READY /\
    lists k !! LReady (current_priority tth) = Some (to :: xs) /\
    (forall q ys, 0 <= q < current_priority tth -> lists k !! LReady q = Some ys -> ys = []) /\
    ((stat cth = RT_THREAD_RUNNING /\ current_priority cth < current_priority tth /\
      rt_schedule k = Some (upd_thread cur (set_stat RT_THREAD_RUNNING) (removed cur cth k)) /\
      kernel_inv (upd_thread cur (set_stat RT_THREAD_RUNNING) (removed cur cth k))) \/
     (to <> cur /\
      (stat cth = RT_THREAD_RUNNING -> current_priority tth <= current_priority cth) /\
      rt_schedule k = Some (switched cur cth to tth k) /\
      kernel_inv (switched cur cth to tth k))).
Proof.
  intros Hk Hlock Hcur Hcth. pose proof Hk as [Hl Hp Hc Hti].
  unfold rt_schedule. rewrite Hlock, Z.eqb_refl.
  destruct (Z.eqb_spec (rt_thread_ready_priority_group k) 0) as [|Hg]; [by left|right].
  cbn [negb]. destruct (highest_spec k Hl Hg) as (to & p & xs & E & Hh & Hp32 & Hlow).
  destruct (li_stat _ _ Hl _ _ to Hh) as (tth & Htth & Hr & <-); [left|].
  exists to, tth, xs. rewrite E, Hcur. cbn [mbind option_bind]. rewrite Hcth. cbn [mbind option_bind].
  do 4 (split; [done|]).
  assert (to <> cur) as Hne.
  { intros ->. simplify_eq. destruct (ci_current _ Hc _ Hcur) as (? & ? & ? & _). congruence. }
  rewrite (wrapu_small 8) by lia.
  destruct (schedule_switch k cur cth to tth xs) as (k2 & E1 & E2 & E3 & Hk2); try done.
  case_bool_decide as Hrun; [destruct (Z.ltb_spec (current_priority cth) (current_priority tth))|].
  - left. rewrite bool_decide_eq_false_2 by naive_solver.
    destruct (run_thread k cur cth) as [E' Hk']; try done; [by right| |].
    { intros u thu Hu Hru. pose proof (ci_running _ Hc _ _ Hu Hru). congruence. }
    by rewrite E'.
  - right. rewrite bool_decide_eq_true_2 by done. rewrite E1. cbn [mbind option_bind].
    rewrite E2. cbn [mbind option_bind]. rewrite <- E3. by split_and!.
  - right. rewrite bool_decide_eq_true_2 by done. cbn [mbind option_bind].
    injection E1 as <-. rewrite E2. cbn [mbind option_bind]. rewrite <- E3. by split_and!.
Qed.

(** [rt_schedule] never faults and preserves the invariant. *)
Lemma schedule_inv k :
  kernel_inv k -> is_Some (rt_current_thread k) ->
  exists k', rt_schedule k = Some k' /\ kernel_inv k'.
Proof.
  intros Hk [cur Hcur]. destruct (decide (rt_scheduler_lock_nest k = 0)) as [Hz|Hz].
  - destruct (ci_current _ (kv_cur _ Hk) _ Hcur) as (cth & Hcth & _).
    destruct (schedule_cases k cur cth Hk Hz Hcur Hcth)
      as [(_ & ->)|(to & tth & xs & _ & _ & _ & _ & [(_ & _ & -> & ?)|(_ & _ & -> & ?)])]; eauto.
  - exists k. split; [|done]. unfold rt_schedule. by rewrite (proj2 (Z.eqb_neq _ _) Hz).
Qed.

Lemma schedule_current k k' :
  kernel_inv k -> is_Some (rt_current_thread k) -> rt_schedule k = Some k' ->
  is_Some (rt_current_thread k').
Proof.
  intros Hk [cur Hcur] E. destruct (decide (rt_scheduler_lock_nest k = 0)) as [Hz|Hz].
  - destruct (ci_current _ (kv_cur _ Hk) _ Hcur) as (cth & Hcth & _).
    destruct (schedule_cases k cur cth Hk Hz Hcur Hcth)
      as [(_ & E')|(to & tth & xs & _ & _ & _ & _ & [(_ & _ & E' & _)|(_ & _ & E' & _)])];
      rewrite E' in E; injection E as <-; simpl; [eauto..|].
    unfold switched. case_bool_decide; simpl; eauto.
  - unfold rt_schedule in E. rewrite (proj2 (Z.eqb_neq _ _) Hz) in E. injection E as <-. eauto.
Qed.

End SchedInv.
