(* ===== verification/ThreadOps.v ===== *)
(** * Thread operations preserve the kernel invariant

    For every operation of [thread.c] and [scheduler.c]: under the caller's
    obligations it does not fault, it re-establishes [kernel_inv], and its
    effect on the thread, its list and its timer is as documented.  The last
    part closes the operations under sequencing. *)

From S2P Require Import Prelude RtList Timer KService Sched SchedInv.
Import RtList Timer KService Sched SchedInv.

Module ThreadOps.

(** ** Thread timers *)

(** What a timer operation on behalf of thread [t] may change. *)
Record timer_frame (t : Z) (s s' : timer_sys) : Prop := {
  tf_wf : forall lo, -1 <= lo <= 0 -> timer_wf lo s -> timer_wf lo s';
  tf_ok : forall u, thread_timer_ok u s -> thread_timer_ok u s';
  tf_list : forall j, j <> ThreadTimer t ->
    j ∈ rt_timer_list s' <-> j ∈ rt_timer_list s;
  tf_tick : rt_tick s' = rt_tick s;
}.

Lemma timer_ok_with u id tm tm' s :
  timers s !! id = Some tm -> timeout_func tm' = timeout_func tm ->
  parameter tm' = parameter tm ->
  has_flag RT_TIMER_FLAG_PERIODIC tm' = has_flag RT_TIMER_FLAG_PERIODIC tm ->
  thread_timer_ok u s -> forall s', timers s' = <[id := tm']> (timers s) ->
  thread_timer_ok u s'.
Proof.
  intros Hid Hf Hp Hg (tmu & Hu & H1 & H2 & H3) s' E. unfold thread_timer_ok. rewrite E.
  rewrite lookup_insert. case_decide; [|by exists tmu].
  exists tm'. subst. simplify_eq. split_and!; congruence.
Qed.

Lemma periodic_clear_activated tm :
  has_flag RT_TIMER_FLAG_PERIODIC (clear_flag RT_TIMER_FLAG_ACTIVATED tm) =
  has_flag RT_TIMER_FLAG_PERIODIC tm.
Proof.
  unfold has_flag, clear_flag. simpl. do 2 f_equal.
  rewrite <- Z.land_assoc. f_equal.
Qed.

Lemma periodic_add_activated tm :
  has_flag RT_TIMER_FLAG_PERIODIC (add_flag RT_TIMER_FLAG_ACTIVATED tm) =
  has_flag RT_TIMER_FLAG_PERIODIC tm.
Proof.
  unfold has_flag, add_flag. simpl. do 2 f_equal.
  rewrite Z.land_lor_distr_l. change (Z.land RT_TIMER_FLAG_ACTIVATED RT_TIMER_FLAG_PERIODIC)
    with 0. by rewrite Z.lor_0_r.
Qed.

Lemma stop_thread_timer_spec k t :
  timer_wf (-1) (tsys k) -> thread_timer_ok t (tsys k) ->
  exists s', stop_thread_timer t k = Some (set_tsys s' k) /\
    timer_frame t (tsys k) s' /\ ThreadTimer t ∉ rt_timer_list s'.
Proof.
  intros Hw (tm & Htm & Hok). unfold stop_thread_timer, rt_timer_stop.
  rewrite Htm. cbn [mbind option_bind].
  destruct (has_flag RT_TIMER_FLAG_ACTIVATED tm) eqn:Ha; simpl.
  - eexists. split; [done|]. split; [constructor|]; simpl.
    + intros lo _ Hlo.
      apply timer_wf_with_timer; [by apply timer_wf_remove|apply not_linked_remove].
    + intros u Hu. eapply timer_ok_with; [exact Htm| | | |exact Hu|reflexivity]; try done.
      apply periodic_clear_activated.
    + intros j Hj. rewrite list_elem_of_filter. naive_solver.
    + done.
    + rewrite list_elem_of_filter. naive_solver.
  - exists (tsys k). split; [done|]. split; [by constructor|]. intros Hin.
    pose proof (tw_linked _ _ Hw) as Hl. rewrite Forall_forall in Hl.
    destruct (Hl _ Hin) as (tm' & ? & ? & _). congruence.
Qed.

Lemma start_thread_timer_spec k t time :
  timer_wf (-1) (tsys k) -> thread_timer_ok t (tsys k) ->
  ThreadTimer t ∉ rt_timer_list (tsys k) -> 0 <= time < HALF ->
  exists s', start_thread_timer t time k = Some (set_tsys s' k) /\
    timer_frame t (tsys k) s' /\ ThreadTimer t ∈ rt_timer_list s' /\
    due_of s' (ThreadTimer t) = time.
Proof.
  intros Hw Hok Hn Ht. pose proof Hok as (tm & Htm & H1 & H2 & H3).
  unfold start_thread_timer, set_time_and_start, rt_timer_control.
  rewrite Htm. cbn [mbind option_bind fst].
  set (s1 := with_timer _ _ _).
  destruct (timer_start_spec (-1) s1 (ThreadTimer t) (set_init_tick time tm) ltac:(lia))
    as (s' & tm' & l1 & l2 & E & Hw' & Etick & Etm & _ & _ & Hdue & Hf & Hp & Hfl & El & El' & _).
  { by apply timer_wf_with_timer. }
  { simpl. by rewrite lookup_insert_eq. }
  { done. }
  rewrite E. cbn [mbind option_bind]. exists s'. split; [done|].
  assert (timers s' = <[ThreadTimer t := tm']> (timers (tsys k))) as Etm'.
  { rewrite Etm. simpl. by rewrite insert_insert_eq. }
  simpl in El. rewrite filter_absent in El by done.
  split; [constructor|]; try done.
  - intros lo Hlo Hwl.
    destruct (timer_start_spec lo s1 (ThreadTimer t) (set_init_tick time tm) Hlo)
      as (s2 & ? & ? & ? & E2 & Hw2 & _); [by apply timer_wf_with_timer
      |simpl; by rewrite lookup_insert_eq|done|]. congruence.
  - intros u Hu. eapply timer_ok_with; [exact Htm|by rewrite Hf|by rewrite Hp| |exact Hu|exact Etm'].
    transitivity (has_flag RT_TIMER_FLAG_PERIODIC
      (add_flag RT_TIMER_FLAG_ACTIVATED (clear_flag RT_TIMER_FLAG_ACTIVATED tm))).
    + unfold has_flag. by rewrite Hfl.
    + by rewrite periodic_add_activated, periodic_clear_activated.
  - intros j Hj. rewrite El', El. rewrite !elem_of_app, elem_of_cons. naive_solver.
  - split; [rewrite El'; set_solver +|]. unfold due_of. rewrite Etm', lookup_insert_eq, Etick.
    exact Hdue.
Qed.

(** A timer operation inside a kernel operation. *)
Lemma timer_inv_tsys k t s' :
  timer_inv k -> timer_frame t (tsys k) s' ->
  (ThreadTimer t ∈ rt_timer_list s' ->
     exists th, threads k !! t = Some th /\ stat th = RT_THREAD_SUSPEND) ->
  timer_inv (set_tsys s' k).
Proof.
  intros [Hw He Hs] [Hw' Hok Hl _] Ht. constructor; simpl;
    [apply Hw'; [apply slack_range|done]|eauto|].
  intros u Hu. destruct (decide (u = t)) as [->|Hne]; [by apply Ht|].
  apply Hs, Hl; [congruence|done].
Qed.

(** ** Suspend *)

Definition suspended (t : Z) (th : rt_thread) (s' : timer_sys) (k : kernel) : kernel :=
  set_tsys s' (upd_thread t (set_stat RT_THREAD_SUSPEND) (removed t th k)).

Lemma cur_upd_stat k t s th :
  cur_inv k -> threads k !! t = Some th ->
  (s = RT_THREAD_RUNNING -> rt_current_thread k = Some t) ->
  (rt_current_thread k = Some t -> s <> RT_THREAD_READY /\ s <> RT_THREAD_INIT) ->
  cur_inv (upd_thread t (set_stat s) k).
Proof.
  intros [Hr Hc] Ht H1 H2. constructor; simpl.
  - intros u thu Hu Hs. alter_cases; simpl in *; subst; eauto.
  - intros u Hu. destruct (Hc u Hu) as (thu & E & ?). alter_cases; [|eauto].
    eexists. split; [by rewrite Ht|]. simpl. eauto.
Qed.

Lemma cur_ext k k' :
  threads k' = threads k -> rt_current_thread k' = rt_current_thread k ->
  cur_inv k -> cur_inv k'.
Proof. intros Et Ec [Hr Hc]. constructor; rewrite Et, ?Ec; done. Qed.

Lemma suspend_spec k t th :
  kernel_inv k -> threads k !! t = Some th ->
  stat th = RT_THREAD_READY \/ stat th = RT_THREAD_RUNNING ->
  exists s', rt_thread_suspend t k = Some (suspended t th s' k, RT_EOK) /\
    kernel_inv (suspended t th s' k) /\
    timer_frame t (tsys k) s' /\ ThreadTimer t ∉ rt_timer_list s'.
Proof.
  intros [Hl Hp Hc Hti] Ht Hs. pose proof (Hp _ _ Ht) as Hpt.
  assert (stat th <> RT_THREAD_INIT /\ stat th <> RT_THREAD_CLOSE /\
          stat th <> RT_THREAD_SUSPEND) as (Hni & Hnc & Hns)
    by (destruct Hs; split_and!; congruence).
  unfold rt_thread_suspend. rewrite Ht. cbn [mbind option_bind].
  rewrite bool_decide_eq_false_2 by naive_solver.
  rewrite bool_decide_eq_true_2 by (intros ?; by eapply (ci_running _ Hc)).
  cbn [RT_ASSERT mbind option_bind].
  rewrite (remove_thread_eq k t th) by done. cbn [mbind option_bind].
  assert (timer_inv (upd_thread t (set_stat RT_THREAD_SUSPEND) (removed t th k))) as Hti'.
  { apply (timer_upd_stat (removed t th k) t RT_THREAD_SUSPEND th); [|done|done|by right; right].
    by eapply timer_inv_ext; [..|exact Hti]; simpl; eauto. }
  destruct (stop_thread_timer_spec
    (upd_thread t (set_stat RT_THREAD_SUSPEND) (removed t th k)) t) as (s' & -> & Hf & Hn).
  { eapply timer_wf_weaken; [|by apply ti_wf]. apply slack_range. }
  { apply (ti_exists _ Hti _ _ Ht Hnc). }
  exists s'. split; [done|]. split; [|done]. constructor.
  - eapply link_ext; [..|eapply link_unexempt; [apply link_upd, (link_remove k t th); done|]];
      try done. simpl. intros th' E. alter_cases. done.
  - eapply prio_upd_stat; [exact Hp|exact Ht|naive_solver].
  - eapply cur_ext; [..|apply (cur_upd_stat k t RT_THREAD_SUSPEND th)]; done.
  - eapply timer_inv_tsys; [exact Hti'|exact Hf|done].
Qed.

(** ** Resume *)

Definition resumed (t : Z) (th : rt_thread) (s' : timer_sys) (k : kernel) : kernel :=
  inserted t th (set_tsys s' (tlist_remove t k)).

(** Making a suspended thread whose timer is stopped runnable again. *)
Lemma wake_inv k t th :
  link_inv (Some t) k -> prio_inv k -> cur_inv k -> timer_inv k ->
  threads k !! t = Some th -> stat th = RT_THREAD_SUSPEND ->
  ThreadTimer t ∉ rt_timer_list (tsys k) ->
  rt_schedule_insert_thread t k = Some (inserted t th k) /\ kernel_inv (inserted t th k).
Proof.
  intros Hl Hp Hc Hti Ht Hs Hn. pose proof (Hp _ _ Ht) as Hpt.
  destruct (insert_thread_eq k t th) as [E Hli]; try done; try congruence.
  split; [done|]. constructor; [done|..].
  - assert (prio_inv (upd_thread t (set_stat (resumed_stat t k)) k)) as Hp'.
    { eapply prio_upd_stat; [exact Hp|exact Ht|left; split; congruence]. }
    intros u thu. rewrite inserted_threads. apply Hp'.
  - assert (cur_inv (upd_thread t (set_stat (resumed_stat t k)) k)) as [H1 H2].
    { eapply cur_upd_stat; [done|exact Ht|..]; unfold resumed_stat; case_bool_decide; naive_solver. }
    constructor; rewrite inserted_threads, inserted_current; [apply H1|apply H2].
  - assert (timer_inv (upd_thread t (set_stat (resumed_stat t k)) k)) as Hti'.
    { eapply timer_upd_stat; [done|exact Ht|congruence|by left]. }
    eapply timer_inv_ext; [..|exact Hti']; 
      rewrite ?inserted_tsys, ?inserted_nest, ?inserted_threads; eauto.
Qed.

Lemma resume_spec k t th :
  kernel_inv k -> threads k !! t = Some th -> stat th = RT_THREAD_SUSPEND ->
  exists s', rt_thread_resume t k = Some (resumed t th s' k, RT_EOK) /\
    kernel_inv (resumed t th s' k) /\
    timer_frame t (tsys k) s' /\ ThreadTimer t ∉ rt_timer_list s'.
Proof.
  intros [Hl Hp Hc Hti] Ht Hs. unfold rt_thread_resume. rewrite Ht. cbn [mbind option_bind].
  rewrite bool_decide_eq_false_2 by naive_solver.
  destruct (stop_thread_timer_spec (tlist_remove t k) t) as (s' & -> & Hf & Hn).
  { eapply timer_wf_weaken; [|apply (ti_wf _ Hti)]. apply slack_range. }
  { apply (ti_exists _ Hti _ _ Ht). congruence. }
  cbn [mbind option_bind].
  destruct (wake_inv (set_tsys s' (tlist_remove t k)) t th) as [E Hk]; try done.
  - eapply link_ext; [..|apply (link_unlink k t th); [done|done|congruence]]; done.
  - by eapply cur_ext; [..|exact Hc].
  - eapply timer_inv_tsys; [|exact Hf|done].
    by eapply timer_inv_ext; [..|exact Hti]; simpl; eauto.
  - exists s'. rewrite E. cbn [mbind option_bind]. by split_and!.
Qed.

(** ** Timeout *)

Lemma link_upd_same k x t f :
  link_inv x k ->
  (forall th, stat (f th) = stat th /\ current_priority (f th) = current_priority th) ->
  link_inv x (upd_thread t f k).
Proof.
  intros Hl Hf. eapply link_ext; [..|exact Hl]; [done|done|]. intros u. simpl.
  rewrite lookup_alter. case_decide; [subst|done].
  destruct (threads k !! u) as [th|]; [simpl|done]. destruct (Hf th). congruence.
Qed.

(** An update of fields that no invariant reads. *)
Lemma kernel_upd_same k t f :
  kernel_inv k ->
  (forall th, stat (f th) = stat th /\ current_priority (f th) = current_priority th /\
     init_priority (f th) = init_priority th /\ number_mask (f th) = number_mask th) ->
  kernel_inv (upd_thread t f k).
Proof.
  intros [Hl Hp Hc Hti] Hf. constructor.
  - apply link_upd_same; [done|]. intros th. destruct (Hf th) as (? & ? & _). done.
  - apply prio_upd; [done|]. intros th Ht. destruct (Hf th) as (E1 & E2 & E3 & E4).
    unfold prio_ok. rewrite E1, E2, E3, E4. by eapply Hp.
  - destruct Hc as [Hr Hcu]. constructor; simpl.
    + intros u thu Hu Hs. alter_cases; [|eauto].
      eapply Hr; [done|]. by rewrite <- (proj1 (Hf _)).
    + intros u Hu. destruct (Hcu u Hu) as (thu & E & ?). alter_cases; [|eauto].
      eexists. rewrite E. split; [done|]. by rewrite (proj1 (Hf _)).
  - eapply timer_inv_ext; [..|exact Hti]; simpl; [done|done|..].
    + intros u thu Hu Hs. alter_cases; [|eauto]. eexists. split; [done|].
      by rewrite <- (proj1 (Hf _)).
    + intros u thu Hu Hs Hin. alter_cases; [|eauto]. eexists. rewrite Hu.
      split; [done|]. by rewrite (proj1 (Hf _)).
Qed.

Lemma timeout_spec k t th :
  kernel_inv k -> threads k !! t = Some th -> stat th = RT_THREAD_SUSPEND ->
  ThreadTimer t ∉ rt_timer_list (tsys k) -> is_Some (rt_current_thread k) ->
  let k1 := tlist_remove t (upd_thread t (set_error (- RT_ETIMEOUT)) k) in
  rt_thread_timeout t k = rt_schedule (inserted t (set_error (- RT_ETIMEOUT) th) k1) /\
  kernel_inv (inserted t (set_error (- RT_ETIMEOUT) th) k1) /\
  exists k', rt_thread_timeout t k = Some k' /\ kernel_inv k'.
Proof.
  intros Hk Ht Hs Hn Hcur k1. unfold rt_thread_timeout. rewrite Ht. cbn [mbind option_bind].
  rewrite bool_decide_eq_true_2 by done. cbn [RT_ASSERT mbind option_bind]. fold k1.
  pose proof (kernel_upd_same k t (set_error (- RT_ETIMEOUT)) Hk) as [Hl Hp Hc Hti]; [done|].
  assert (threads k1 !! t = Some (set_error (- RT_ETIMEOUT) th)) as Ht1
    by (simpl; by rewrite lookup_alter_eq, Ht).
  destruct (wake_inv k1 t (set_error (- RT_ETIMEOUT) th)) as [E Hk']; try done.
  - eapply link_unlink; [done|exact Ht1|simpl; congruence].
  - by eapply cur_ext; [..|exact Hc].
  - by eapply timer_inv_ext; [..|exact Hti]; simpl; eauto.
  - rewrite E. cbn [mbind option_bind]. split; [done|]. split; [done|].
    apply schedule_inv; [done|]. by rewrite inserted_current.
Qed.

(** ** Creation *)

Definition fresh (t : Z) (k : kernel) : Prop :=
  absent t (lists k) /\ rt_current_thread k <> Some t /\
  forall th, threads k !! t = Some th -> stat th = RT_THREAD_CLOSE.

Lemma thread_init_inv k t priority tick static :
  kernel_inv k -> fresh t k -> 0 <= priority < RT_THREAD_PRIORITY_MAX ->
  exists k' th, _rt_thread_init t priority tick static k = Some k' /\ kernel_inv k' /\
    threads k' = <[t := th]> (threads k) /\ stat th = RT_THREAD_INIT /\
    init_priority th = priority /\ lists k' = lists k /\
    rt_current_thread k' = rt_current_thread k.
Proof.
  intros [Hl Hp Hc Hti] (Ha & Hcur & Hcl) Hpr. unfold _rt_thread_init.
  rewrite (proj2 (Z.ltb_lt _ _)) by lia. rewrite bool_decide_eq_true_2 by done.
  cbn [RT_ASSERT mbind option_bind]. do 2 eexists. split; [done|].
  split; [|by split_and!]. set (th := mk_thread _ _ _ _ _ _ _ _ _ _ _).
  assert (ThreadTimer t ∉ rt_timer_list (tsys k)) as Hn.
  { intros Hin. destruct (ti_suspended _ Hti _ Hin) as (th' & E & ?).
    specialize (Hcl _ E). congruence. }
  constructor.
  - destruct Hl. constructor; simpl; try done.
    + intros h xs u Hh Hu. rewrite lookup_insert_ne; [eauto|]. intros ->. by eapply Ha.
    + intros u thu. rewrite lookup_insert. case_decide; [by intros [= <-]|eauto].
  - intros u thu. simpl. rewrite lookup_insert. case_decide; [|eauto].
    intros [= <-]. unfold prio_ok. simpl. unfold RT_THREAD_PRIORITY_MAX in *. naive_solver.
  - destruct Hc as [Hr Hcu]. constructor; simpl.
    + intros u thu. rewrite lookup_insert. case_decide; [by intros [= <-]|eauto].
    + intros u Hu. rewrite lookup_insert_ne by congruence. eauto.
  - destruct Hti as [Hw He Hs]. constructor; simpl.
    + by apply timer_wf_with_timer.
    + intros u thu. unfold thread_timer_ok. simpl. rewrite !lookup_insert.
      repeat case_decide; simplify_eq; [intros; by eexists|]. intros Hu Hu'. by eapply He.
    + intros u Hu. rewrite lookup_insert_ne; [eauto|]. by intros ->.
Qed.

(** ** Start-up *)

(** Starting a thread makes it ready; then the scheduler runs, if it is started. *)
Lemma startup_resumes k t th :
  kernel_inv k -> threads k !! t = Some th -> stat th = RT_THREAD_INIT ->
  exists k2, kernel_inv k2 /\
    threads k2 = <[t := set_stat RT_THREAD_READY (set_priority (init_priority th) th)]> (threads k) /\
    rt_current_thread k2 = rt_current_thread k /\ rt_scheduler_lock_nest k2 = rt_scheduler_lock_nest k /\
    rt_interrupt_nest k2 = rt_interrupt_nest k /\
    rt_thread_startup t k =
      (match rt_thread_self k2 with Some _ => k ← rt_schedule k2; Some (k, RT_EOK) | None => Some (k2, RT_EOK) end).
Proof.
  intros [Hl Hp Hc Hti] Ht Hs. unfold rt_thread_startup. rewrite Ht. cbn [mbind option_bind].
  rewrite bool_decide_eq_true_2 by done. cbn [RT_ASSERT mbind option_bind].
  set (k1 := upd_thread t (set_stat _) _).
  set (th1 := set_stat RT_THREAD_SUSPEND (set_priority (init_priority th) th)).
  assert (threads k1 !! t = Some th1) as Ht1
    by (simpl; by rewrite !lookup_alter_eq, Ht).
  pose proof (Hp _ _ Ht) as (? & Hip & _).
  assert (rt_current_thread k <> Some t) as Hnc.
  { intros E. destruct (ci_current _ Hc _ E) as (? & ? & ? & ?). congruence. }
  assert (kernel_inv k1) as Hk1.
  { constructor.
    - eapply link_unexempt; [do 2 apply link_upd; apply link_exempt; [done|]|].
      + eapply link_absent; [done|exact Ht|by right].
      + fold k1. rewrite Ht1. by intros ? [= <-].
    - intros u thu Hu. destruct (decide (u = t)) as [->|Hne].
      + rewrite Ht1 in Hu. injection Hu as <-. split; [done|]. split; [done|]. left.
        apply mask_pow2. done.
      + simpl in Hu. rewrite !lookup_alter_ne in Hu by done. eauto.
    - destruct Hc as [Hr Hcu]. constructor; simpl.
      + intros u thu Hu Hru. alter_cases; eauto.
      + intros u Hu. rewrite !lookup_alter_ne by congruence. eauto.
    - eapply timer_inv_ext; [..|exact Hti]; simpl; [done|done|..].
      + intros u thu Hu Hru. alter_cases; [|eauto]. eexists. split; [done|congruence].
      + intros u thu Hu Hru. alter_cases; [congruence|eauto]. }
  destruct (resume_spec k1 t th1 Hk1 Ht1) as (s' & -> & Hk2 & _); [done|].
  cbn [mbind option_bind]. exists (resumed t th1 s' k1). split; [done|]. unfold resumed. autorewrite with rtt_rw.
  split_and!; [|done..]. apply map_eq. intros u. unfold resumed_stat. cbn. rewrite bool_decide_eq_false_2 by done.
  destruct (decide (u = t)) as [->|Hne]; [by rewrite !lookup_alter_eq, lookup_insert_eq, Ht|].
  by rewrite !lookup_alter_ne, lookup_insert_ne.
Qed.

Lemma startup_inv k t th :
  kernel_inv k -> threads k !! t = Some th -> stat th = RT_THREAD_INIT ->
  exists k', rt_thread_startup t k = Some (k', RT_EOK) /\ kernel_inv k'.
Proof.
  intros Hk Ht Hs. destruct (startup_resumes k t th Hk Ht Hs) as (k2 & Hk2 & _ & _ & _ & _ & ->). unfold rt_thread_self.
  destruct (rt_current_thread k2) as [cur|] eqn:E; [|eauto].
  destruct (schedule_inv _ Hk2) as (k' & -> & Hk'); [by rewrite E|]. eauto.
Qed.

(** ** Closing *)

Lemma closing_inv k t :
  link_inv (Some t) k -> prio_inv k -> cur_inv k -> timer_inv k -> is_Some (threads k !! t) ->
  let k2 := detach_thread_timer t (upd_thread t (set_stat RT_THREAD_CLOSE) k) in
  link_inv (Some t) k2 /\ prio_inv k2 /\ cur_inv k2 /\ timer_inv k2.
Proof.
  intros Hl Hp Hc [Hw He Hs] [th Ht] k2. split_and!.
  - by eapply link_ext; [..|apply link_upd, Hl].
  - eapply prio_upd_stat; [exact Hp|exact Ht|by right].
  - eapply cur_ext; [..|apply (cur_upd_stat k t RT_THREAD_CLOSE th)]; done.
  - constructor; simpl.
    + eapply timer_wf_ext; [..|apply (timer_wf_remove _ (ThreadTimer t)), Hw]; try done.
      simpl. intros j [Hj _]%list_elem_of_filter. by rewrite lookup_delete_ne.
    + intros u thu Hu Hcl. alter_cases. unfold thread_timer_ok. simpl.
      rewrite lookup_delete_ne by congruence. by eapply He.
    + intros u [Hne Hu]%list_elem_of_filter. rewrite lookup_alter_ne by congruence. eauto.
Qed.

(** A closed thread is linked nowhere but possibly in the defunct list. *)
Definition closed (t : Z) (th : rt_thread) (k' : kernel) : Prop :=
  threads k' !! t = Some (set_stat RT_THREAD_CLOSE th) /\
  ThreadTimer t ∉ rt_timer_list (tsys k') /\
  (is_static th && negb (has_cleanup th) = true -> t ∉ thread_objects k' /\ absent t (lists k')) /\
  (is_static th && negb (has_cleanup th) = false ->
     exists xs, lists k' !! LDefunct = Some (t :: xs)).

Lemma defunct_inv k t th :
  link_inv (Some t) k -> prio_inv k -> cur_inv k -> timer_inv k ->
  threads k !! t = Some th -> stat th = RT_THREAD_CLOSE ->
  exists k' xs, tlist_push_front LDefunct t k = Some k' /\ kernel_inv k' /\
    threads k' = threads k /\ tsys k' = tsys k /\ rt_current_thread k' = rt_current_thread k /\
    lists k' !! LDefunct = Some (t :: xs).
Proof.
  intros Hl Hp Hc Hti Ht Hs. destruct (li_defunct _ _ Hl) as [xs Hd].
  rewrite (push_front_eq _ _ _ xs Hd) by (by apply (li_exempt _ _ Hl)).
  eexists _, xs. split; [done|]. split; [|simpl; by rewrite lookup_insert_eq].
  constructor.
  - by apply (link_insert k t th LDefunct [] xs).
  - done.
  - by eapply cur_ext; [..|exact Hc].
  - by eapply timer_inv_ext; [..|exact Hti]; simpl; eauto.
Qed.

Lemma close_thread_inv k t th0 :
  link_inv (Some t) k -> prio_inv k -> cur_inv k -> timer_inv k ->
  threads k !! t = Some (set_stat RT_THREAD_CLOSE th0) ->
  exists k', close_thread t k = Some k' /\ kernel_inv k' /\ closed t th0 k' /\
    rt_current_thread k' = rt_current_thread k.
Proof.
  intros Hl Hp Hc Hti Ht.
  assert (ThreadTimer t ∉ rt_timer_list (tsys k)) as Hn.
  { intros Hin. destruct (ti_suspended _ Hti _ Hin) as (? & ? & ?). simplify_eq. }
  unfold close_thread. rewrite Ht. cbn [mbind option_bind]. simpl.
  destruct (is_static th0 && negb (has_cleanup th0)) eqn:Hb.
  - eexists. split; [done|]. split; [constructor|].
    + eapply link_ext; [..|eapply link_unexempt; [exact Hl|]]; try done.
      rewrite Ht. by intros ? [= <-].
    + done.
    + by eapply cur_ext; [..|exact Hc].
    + by eapply timer_inv_ext; [..|exact Hti]; simpl; eauto.
    + split; [|done]. split_and!; try done; [|congruence]. intros _. split.
      * simpl. rewrite list_elem_of_filter. naive_solver.
      * by apply (li_exempt _ _ Hl).
  - destruct (defunct_inv k t (set_stat RT_THREAD_CLOSE th0))
      as (k' & xs & -> & Hk' & Et & Es & Ec & Ed); try done.
    exists k'. split; [done|]. split; [done|]. split; [|done].
    unfold closed. rewrite Et, Es. split_and!; try done; [congruence|eauto].
Qed.

(** The thread is out of every list before it is closed. *)
Lemma unqueue_inv k t th :
  kernel_inv k -> threads k !! t = Some th ->
  exists k1,
    (if bool_decide (stat th <> RT_THREAD_INIT) then rt_schedule_remove_thread t k else Some k)
      = Some k1 /\
    link_inv (Some t) k1 /\ prio_inv k1 /\ cur_inv k1 /\ timer_inv k1 /\
    threads k1 = threads k /\ rt_current_thread k1 = rt_current_thread k.
Proof.
  intros [Hl Hp Hc Hti] Ht. case_bool_decide as Hs.
  - rewrite (remove_thread_eq k t th) by eauto. eexists. split; [done|].
    split; [by apply link_remove; eauto|]. split; [done|].
    split; [by eapply cur_ext; [..|exact Hc]|]. split; [|done].
    by eapply timer_inv_ext; [..|exact Hti]; simpl; eauto.
  - exists k. split; [done|]. split; [|done]. apply link_exempt; [done|].
    eapply link_absent; [done|done|]. right. by destruct (decide (stat th = RT_THREAD_INIT)).
Qed.

Lemma thread_exit_inv k t th :
  kernel_inv k -> rt_current_thread k = Some t -> threads k !! t = Some th ->
  exists k1 k', kernel_inv k1 /\ closed t th k1 /\
    rt_schedule k1 = Some k' /\ rt_thread_exit k = Some k' /\ kernel_inv k'.
Proof.
  intros Hk Hcur Ht. unfold rt_thread_exit, rt_thread_self. rewrite Hcur.
  cbn [mbind option_bind].
  assert (bool_decide (stat th <> RT_THREAD_INIT) = true) as Hb.
  { apply bool_decide_eq_true_2.
    destruct (ci_current _ (kv_cur _ Hk) _ Hcur) as (? & ? & _ & ?). congruence. }
  destruct (unqueue_inv k t th Hk Ht) as (k1 & E & Hl & Hp & Hc & Hti & Et & Ec).
  rewrite Hb in E. rewrite E. cbn [mbind option_bind].
  destruct (closing_inv k1 t Hl Hp Hc Hti) as (Hl2 & Hp2 & Hc2 & Hti2);
    [rewrite Et; eauto|].
  destruct (close_thread_inv _ t th Hl2 Hp2 Hc2 Hti2) as (k3 & -> & Hk3 & Hcl & Ec3).
  { simpl. by rewrite lookup_alter_eq, Et, Ht. }
  cbn [mbind option_bind].
  destruct (schedule_inv k3 Hk3) as (k' & E' & Hk'); [rewrite Ec3; simpl; rewrite Ec; eauto|].
  exists k3, k'. by split_and!.
Qed.

Lemma thread_detach_inv k t th :
  kernel_inv k -> threads k !! t = Some th -> is_static th = true ->
  exists k', rt_thread_detach t k = Some (k', RT_EOK) /\ kernel_inv k' /\ closed t th k'.
Proof.
  intros Hk Ht Hst. unfold rt_thread_detach. rewrite Ht. cbn [mbind option_bind].
  rewrite Hst. cbn [RT_ASSERT mbind option_bind].
  destruct (unqueue_inv k t th Hk Ht) as (k1 & -> & Hl & Hp & Hc & Hti & Et & Ec).
  cbn [mbind option_bind].
  destruct (closing_inv k1 t Hl Hp Hc Hti) as (Hl2 & Hp2 & Hc2 & Hti2);
    [rewrite Et; eauto|].
  change (upd_thread t (set_stat RT_THREAD_CLOSE) (detach_thread_timer t k1)) with
    (detach_thread_timer t (upd_thread t (set_stat RT_THREAD_CLOSE) k1)).
  destruct (close_thread_inv _ t th Hl2 Hp2 Hc2 Hti2) as (k3 & -> & Hk3 & Hcl & Ec3).
  { simpl. by rewrite lookup_alter_eq, Et, Ht. }
  exists k3. by split_and!.
Qed.

Lemma thread_delete_inv k t th :
  kernel_inv k -> threads k !! t = Some th -> is_static th = false ->
  exists k', rt_thread_delete t k = Some (k', RT_EOK) /\ kernel_inv k' /\ closed t th k'.
Proof.
  intros Hk Ht Hst. unfold rt_thread_delete. rewrite Ht. cbn [mbind option_bind].
  rewrite Hst. cbn [negb RT_ASSERT mbind option_bind].
  destruct (unqueue_inv k t th Hk Ht) as (k1 & -> & Hl & Hp & Hc & Hti & Et & Ec).
  cbn [mbind option_bind].
  destruct (closing_inv k1 t Hl Hp Hc Hti) as (Hl2 & Hp2 & Hc2 & Hti2);
    [rewrite Et; eauto|].
  change (upd_thread t (set_stat RT_THREAD_CLOSE) (detach_thread_timer t k1)) with
    (detach_thread_timer t (upd_thread t (set_stat RT_THREAD_CLOSE) k1)).
  set (k2 := detach_thread_timer _ _) in *.
  assert (threads k2 !! t = Some (set_stat RT_THREAD_CLOSE th)) as Ht2
    by (simpl; by rewrite lookup_alter_eq, Et, Ht).
  destruct (defunct_inv k2 t _ Hl2 Hp2 Hc2 Hti2 Ht2) as (k3 & xs & -> & Hk3 & Et3 & Es3 & _ & Ed);
    [done|].
  exists k3. split; [done|]. split; [done|]. unfold closed. rewrite Et3, Es3, Hst.
  split_and!; [done| |done|eauto]. simpl. rewrite list_elem_of_filter. naive_solver.
Qed.

(** ** Sleeping *)

(** The kernel in which the scheduler is called for a thread that goes to sleep. *)
Lemma sleep_suspends k t th tick :
  kernel_inv k -> rt_current_thread k = Some t -> threads k !! t = Some th ->
  stat th = RT_THREAD_RUNNING -> 0 <= tick < HALF ->
  exists k1, kernel_inv k1 /\ threads k1 = alter (set_stat RT_THREAD_SUSPEND) t (threads k) /\
    rt_current_thread k1 = Some t /\ rt_scheduler_lock_nest k1 = rt_scheduler_lock_nest k /\
    rt_interrupt_nest k1 = rt_interrupt_nest k /\ absent t (lists k1) /\ ThreadTimer t ∈ rt_timer_list (tsys k1) /\ due_of (tsys k1) (ThreadTimer t) = tick /\
    rt_thread_sleep tick k = rt_schedule k1.
Proof.
  intros Hk Hcur Ht Hs Htick. unfold rt_thread_sleep, rt_thread_self. rewrite Hcur.
  cbn [mbind option_bind].
  destruct (suspend_spec k t th Hk Ht) as (s' & -> & Hk1 & Hf & Hn); [by right|].
  cbn [mbind option_bind]. pose proof Hk1 as [Hl Hp Hc Hti].
  assert (threads (suspended t th s' k) !! t = Some (set_stat RT_THREAD_SUSPEND th)) as Ht1
    by (simpl; by rewrite lookup_alter_eq, Ht).
  destruct (start_thread_timer_spec (suspended t th s' k) t tick) as (s2 & -> & Hf2 & Hin & Hd);
    try done.
  { eapply timer_wf_weaken; [|by apply ti_wf]. apply slack_range. }
  { by eapply (ti_exists _ Hti _ _ Ht1). }
  cbn [mbind option_bind].
  assert (kernel_inv (set_tsys s2 (suspended t th s' k))) as Hk2.
  { constructor.
    - by eapply link_ext; [..|exact Hl].
    - done.
    - by eapply cur_ext; [..|exact Hc].
    - eapply timer_inv_tsys; [done|exact Hf2|]. intros _. eauto. }
  exists (set_tsys s2 (suspended t th s' k)). split_and!; try done. apply absent_lremove.
Qed.

Lemma sleep_inv k t th tick :
  kernel_inv k -> rt_current_thread k = Some t -> threads k !! t = Some th ->
  stat th = RT_THREAD_RUNNING -> 0 <= tick < HALF ->
  exists k1 k', kernel_inv k1 /\ threads k1 !! t = Some (set_stat RT_THREAD_SUSPEND th) /\
    absent t (lists k1) /\ ThreadTimer t ∈ rt_timer_list (tsys k1) /\ due_of (tsys k1) (ThreadTimer t) = tick /\
    rt_schedule k1 = Some k' /\ rt_thread_sleep tick k = Some k' /\ kernel_inv k'.
Proof.
  intros Hk Hcur Ht Hs Htick. destruct (sleep_suspends k t th tick Hk Hcur Ht Hs Htick) as (k1 & Hk1 & Et & Ec & _ & _ & Ha & Hin & Hd & E).
  destruct (schedule_inv _ Hk1) as (k' & E' & Hk'); [by rewrite Ec|]. exists k1, k'. split_and!; try done; [|congruence].
  by rewrite Et, lookup_alter_eq, Ht.
Qed.

(** ** Priority change *)

Lemma prio_ok_set_priority p th :
  prio_ok th -> 0 <= p < RT_THREAD_PRIORITY_MAX -> prio_ok (set_priority p th).
Proof.
  intros (_ & Hi & _) Hp. split; [done|]. split; [done|]. left. by apply mask_pow2.
Qed.

Lemma link_upd_priority k t p th :
  link_inv None k -> threads k !! t = Some th -> stat th <> RT_THREAD_READY ->
  link_inv None (upd_thread t (set_priority p) k).
Proof.
  intros Hl Ht Hs. destruct Hl. constructor; simpl; try done.
  - intros h xs u Hh Hu. destruct (li_stat0 h xs u Hh Hu) as (thu & Eu & Hst).
    alter_cases; [|eauto]. rewrite Ht. eexists. split; [done|].
    destruct h; simpl in *; try done. by destruct Hst.
  - intros u thu Hu Hr _. alter_cases. eauto.
Qed.

Definition reprioritized (t p : Z) (th : rt_thread) (k : kernel) : kernel :=
  if bool_decide (stat th = RT_THREAD_READY)
  then enqueued t (set_priority p th) (upd_thread t (set_priority p) (removed t th k))
  else upd_thread t (set_priority p) k.

Lemma reprioritized_threads t p th k :
  threads k !! t = Some th -> threads (reprioritized t p th k) = <[t := set_priority p th]> (threads k).
Proof.
  intros Ht. unfold reprioritized. case_bool_decide as Hs; simpl; apply map_eq; intros u;
    rewrite lookup_insert, !lookup_alter; destruct (decide (t = u)) as [<-|]; try done;
    rewrite ?decide_True by done; rewrite Ht; [|done].
  unfold set_stat, set_priority. simpl. by rewrite Hs.
Qed.

Lemma change_priority_inv k t th p :
  kernel_inv k -> threads k !! t = Some th -> 0 <= p < RT_THREAD_PRIORITY_MAX ->
  rt_thread_control t (RT_THREAD_CTRL_CHANGE_PRIORITY p) k
    = Some (reprioritized t p th k, RT_EOK) /\ kernel_inv (reprioritized t p th k).
Proof.
  intros Hk Ht Hpr. pose proof Hk as [Hl Hp Hc Hti].
  pose proof (prio_ok_set_priority p th (Hp _ _ Ht) Hpr) as Hpt.
  pose proof (reprioritized_threads t p th k Ht) as Eth.
  assert (rt_thread_control t (RT_THREAD_CTRL_CHANGE_PRIORITY p) k
    = Some (reprioritized t p th k, RT_EOK) /\ link_inv None (reprioritized t p th k)) as [E Hl'].
  { unfold rt_thread_control, reprioritized. rewrite Ht. cbn [mbind option_bind].
    case_bool_decide as Hs; [|split; [done|by eapply link_upd_priority]].
    rewrite (remove_thread_eq k t th) by eauto. cbn [mbind option_bind].
    destruct (insert_thread_ready (upd_thread t (set_priority p) (removed t th k)) t
      (set_priority p th)) as [E Hl2]; try done; [..|by rewrite E].
    - apply link_upd. by apply link_remove; eauto.
    - simpl. by rewrite lookup_alter_eq, Ht.
    - simpl; congruence.
    - simpl; congruence.
    - intros Ec. destruct (ci_current _ Hc _ Ec) as (? & ? & ? & _). congruence. }
  split; [done|]. constructor; [done|..].
  - intros u thu. rewrite Eth, lookup_insert. case_decide; [by intros [= <-]|eauto].
  - destruct Hc as [Hr Hcu].
    assert (rt_current_thread (reprioritized t p th k) = rt_current_thread k) as Ec
      by (unfold reprioritized; by case_bool_decide).
    constructor; rewrite Eth, Ec.
    + intros u thu. rewrite lookup_insert. case_decide; [|apply Hr].
      subst. intros [= <-] Hs. by eapply Hr.
    + intros u Hu. destruct (Hcu u Hu) as (thu & E' & ?). rewrite lookup_insert.
      case_decide; [subst|eauto]. simplify_eq. eauto.
  - eapply timer_inv_ext; [..|exact Hti]; rewrite ?Eth;
      [unfold reprioritized; by case_bool_decide..| |].
    + intros u thu. rewrite lookup_insert. case_decide; [|eauto]. subst. intros [= <-] ?. eauto.
    + intros u thu Hu Hsu Hin. rewrite lookup_insert. case_decide; [|eauto].
      subst. simplify_eq. eauto.
Qed.

(** ** Scheduler start and scheduler lock *)

Lemma scheduler_start_inv k :
  kernel_inv k -> rt_current_thread k = None -> rt_thread_ready_priority_group k <> 0 ->
  exists k' t th, rt_system_scheduler_start k = Some k' /\ kernel_inv k' /\
    rt_current_thread k' = Some t /\ threads k' !! t = Some th /\
    stat th = RT_THREAD_RUNNING /\
    forall u thu, threads k !! u = Some thu -> stat thu = RT_THREAD_READY ->
      current_priority th <= current_priority thu.
Proof.
  intros [Hl Hp Hc Hti] Hcur Hg. unfold rt_system_scheduler_start.
  destruct (highest_spec k Hl Hg) as (t & p & xs & -> & Hh & Hp32 & Hlow).
  cbn [mbind option_bind].
  destruct (li_stat _ _ Hl _ _ t Hh) as (th & Ht & Hr & <-); [left|].
  set (k1 := set_current _ _ _).
  destruct (run_thread k1 t th) as [E Hk']; try done.
  - by eapply link_ext; [..|exact Hl].
  - by eapply timer_inv_ext; [..|exact Hti]; simpl; eauto.
  - by left.
  - intros u thu Hu Hru. pose proof (ci_running _ Hc _ _ Hu Hru). congruence.
  - rewrite E. cbn [mbind option_bind]. eexists _, t, (set_stat RT_THREAD_RUNNING th).
    split; [done|]. split; [done|]. split; [done|].
    split; [simpl; by rewrite lookup_alter_eq, Ht|]. split; [done|].
    intros u thu Hu Hru. simpl.
    destruct (li_ready _ _ Hl u thu Hu Hru) as (ys & Ey & Hin); [done|].
    destruct (Z.le_gt_cases (current_priority th) (current_priority thu)); [done|].
    pose proof (Hp _ _ Hu) as (? & _).
    rewrite (Hlow (current_priority thu) ys) in Hin by (done || lia).
    by apply not_elem_of_nil in Hin.
Qed.

Lemma set_lock_nest_inv k n : kernel_inv k -> kernel_inv (set_lock_nest n k).
Proof.
  intros [Hl Hp Hc Hti]. constructor.
  - by eapply link_ext; [..|exact Hl].
  - done.
  - by eapply cur_ext; [..|exact Hc].
  - by eapply timer_inv_ext; [..|exact Hti]; simpl; eauto.
Qed.

Lemma exit_critical_inv k :
  kernel_inv k -> is_Some (rt_current_thread k) ->
  exists k', rt_exit_critical k = Some k' /\ kernel_inv k'.
Proof.
  intros Hk Hcur. unfold rt_exit_critical. case_bool.
  - apply schedule_inv; [by do 2 apply set_lock_nest_inv|done].
  - eexists. split; [done|]. by apply set_lock_nest_inv.
Qed.

(** ** Sequences of operations *)

(** The calls of the thread API, made by a thread or by start-up code. *)
Inductive kop :=
  | OpInit (t priority tick : Z) | OpStartup (t : Z) | OpStart
  | OpSuspend (t : Z) | OpResume (t : Z) | OpExit | OpDetach (t : Z) | OpDelete (t : Z)
  | OpYield | OpSleep (tick : Z) | OpPriority (t p : Z)
  | OpEnterCritical | OpExitCritical.

Definition exec (op : kop) (k : kernel) : option kernel :=
  match op with
  | OpInit t p tick => rt_thread_init t p tick k
  | OpStartup t => fst <$> rt_thread_startup t k
  | OpStart => rt_system_scheduler_start k
  | OpSuspend t => fst <$> rt_thread_suspend t k
  | OpResume t => fst <$> rt_thread_resume t k
  | OpExit => rt_thread_exit k
  | OpDetach t => fst <$> rt_thread_detach t k
  | OpDelete t => fst <$> rt_thread_delete t k
  | OpYield => fst <$> rt_thread_yield k
  | OpSleep tick => rt_thread_sleep tick k
  | OpPriority t p => fst <$> rt_thread_control t (RT_THREAD_CTRL_CHANGE_PRIORITY p) k
  | OpEnterCritical => Some (rt_enter_critical k)
  | OpExitCritical => rt_exit_critical k
  end.

(** What the caller has to respect. *)
Definition thread_in (k : kernel) (t : Z) (P : rt_thread -> bool) : bool :=
  match threads k !! t with Some th => P th | None => false end.

Definition current_running (k : kernel) : bool :=
  match rt_current_thread k with
  | Some t => thread_in k t (fun th => bool_decide (stat th = RT_THREAD_RUNNING))
  | None => false
  end.

Definition legal (op : kop) (k : kernel) : bool :=
  match op with
  | OpInit t p _ =>
      bool_decide (map_Forall (fun _ xs => t ∉ xs) (lists k)) &&
      bool_decide (rt_current_thread k <> Some t) &&
      (bool_decide (threads k !! t = None) ||
       thread_in k t (fun th => bool_decide (stat th = RT_THREAD_CLOSE))) &&
      (0 <=? p) && (p <? RT_THREAD_PRIORITY_MAX)
  | OpStartup t => thread_in k t (fun th => bool_decide (stat th = RT_THREAD_INIT))
  | OpStart => bool_decide (rt_current_thread k = None) &&
               negb (rt_thread_ready_priority_group k =? 0)
  | OpSuspend t | OpResume t => thread_in k t (fun _ => true)
  | OpExit | OpYield | OpExitCritical => bool_decide (is_Some (rt_current_thread k))
  | OpDetach t => thread_in k t is_static
  | OpDelete t => thread_in k t (fun th => negb (is_static th))
  | OpSleep tick => current_running k && (0 <=? tick) && (tick <? HALF)
  | OpPriority t p => thread_in k t (fun _ => true) && (0 <=? p) && (p <? RT_THREAD_PRIORITY_MAX)
  | OpEnterCritical => true
  end.

(** The state [rtthread_startup] reaches before it creates threads. *)
Definition boot : kernel :=
  rt_system_scheduler_init
    (mk_kernel ∅ ∅ 0 0 0 None (RT_THREAD_PRIORITY_MAX - 1) [] (rt_system_timer_init 0)).

Inductive reachable : kernel -> Prop :=
  | reach_boot : reachable boot
  | reach_step k op k' :
      reachable k -> legal op k = true -> exec op k = Some k' -> reachable k'.

Lemma thread_in_true k t P :
  thread_in k t P = true -> exists th, threads k !! t = Some th /\ P th = true.
Proof. unfold thread_in. destruct (threads k !! t); [eauto|done]. Qed.

Ltac legal_split H :=
  repeat match type of H with _ && _ = true => apply andb_true_iff in H as [H ?] end.

Lemma init_heads (m : gmap list_head (list Z)) (l : list nat) h :
  foldr (fun p m => <[LReady (Z.of_nat p) := []]> m) m l !! h =
  if decide (h ∈ LReady ∘ Z.of_nat <$> l) then Some [] else m !! h.
Proof.
  induction l as [|p l IH]; simpl; [done|].
  rewrite lookup_insert, IH. repeat case_decide; try done; set_solver.
Qed.

Lemma init_lookup k h :
  lists (rt_system_scheduler_init k) !! h =
  match h with
  | LReady p => if decide (0 <= p < 32) then Some [] else lists k !! h
  | LDefunct => Some []
  | _ => lists k !! h
  end.
Proof.
  unfold rt_system_scheduler_init. cbn [lists set_lists set_lock_nest set_group].
  rewrite lookup_insert. destruct h as [p| |o|o]; [|by rewrite decide_True|..];
    rewrite decide_False by done; rewrite init_heads.
  - assert (LReady p ∈ (LReady ∘ Z.of_nat <$> seq 0 (Z.to_nat RT_THREAD_PRIORITY_MAX)) <->
            0 <= p < 32) as Hin.
    { rewrite list_elem_of_fmap. unfold RT_THREAD_PRIORITY_MAX. split.
      - intros (n & [= ->] & Hn%elem_of_seq). lia.
      - intros Hp. exists (Z.to_nat p). unfold compose. rewrite Z2Nat.id by lia.
        split; [done|]. apply elem_of_seq. lia. }
    repeat case_decide; tauto || done.
  - rewrite decide_False; [done|]. by intros (? & ? & _)%list_elem_of_fmap.
  - rewrite decide_False; [done|]. by intros (? & ? & _)%list_elem_of_fmap.
Qed.

(** A kernel without threads in which at most some IPC objects exist. *)
Record no_threads (k : kernel) : Prop := {
  nt_threads : threads k = ∅;
  nt_current : rt_current_thread k = None;
  nt_empty : forall h xs, lists k !! h = Some xs -> xs = [];
  nt_ready : forall p, lists k !! LReady p = None;
}.

Lemma init_inv k tick :
  no_threads k ->
  kernel_inv (rt_system_scheduler_init (set_tsys (rt_system_timer_init tick) k)).
Proof.
  intros [Ht Hcur He Hr]. set (k' := rt_system_scheduler_init _).
  assert (threads k' = ∅) as Et by exact Ht.
  assert (forall h xs, lists k' !! h = Some xs -> xs = []) as Hnil.
  { intros h xs. unfold k'. rewrite init_lookup. cbn [lists set_tsys].
    destruct h; repeat case_decide; (intros [= <-]; done) || eauto. }
  constructor.
  - constructor.
    + split; [intros h xs ->%Hnil; constructor|].
      intros h1 h2 xs1 xs2 t ->%Hnil _ Hin. by apply not_elem_of_nil in Hin.
    + intros p. unfold k'. rewrite init_lookup. cbn [lists set_tsys]. rewrite Hr.
      by case_decide; split.
    + unfold k'. rewrite init_lookup. eauto.
    + done.
    + intros p xs ->%Hnil. simpl. by rewrite Z.bits_0.
    + intros h xs t ->%Hnil Hin. by apply not_elem_of_nil in Hin.
    + intros t th. by rewrite Et.
    + done.
  - intros t th. by rewrite Et.
  - constructor; [intros t th; by rewrite Et|]. cbn. by rewrite Hcur.
  - constructor; [|intros t th; by rewrite Et|intros t Hin; by apply not_elem_of_nil in Hin].
    constructor; simpl; constructor.
Qed.

Lemma boot_inv : kernel_inv boot.
Proof.
  apply (init_inv (mk_kernel ∅ ∅ 0 0 0 None (RT_THREAD_PRIORITY_MAX - 1) [] (rt_system_timer_init 0)) 0).
  by constructor.
Qed.

Lemma set_objects_inv k l : kernel_inv k -> kernel_inv (set_objects l k).
Proof.
  intros [Hl Hp Hc Hti]. constructor; [by eapply link_ext; [..|exact Hl]|done|..].
  - by eapply cur_ext; [..|exact Hc].
  - by eapply timer_inv_ext; [..|exact Hti]; simpl; eauto.
Qed.

Lemma legal_fresh k t :
  absent t (lists k) -> rt_current_thread k <> Some t ->
  bool_decide (threads k !! t = None) ||
    thread_in k t (fun th => bool_decide (stat th = RT_THREAD_CLOSE)) = true ->
  fresh t k.
Proof.
  intros Ha Hc Hb. split; [done|]. split; [done|]. intros th Ht.
  apply orb_true_iff in Hb as [Hb|(th' & E & Hb)%thread_in_true];
    apply bool_decide_eq_true in Hb; congruence.
Qed.

(** Every legal call succeeds and preserves the invariant. *)
Lemma exec_inv op k :
  kernel_inv k -> legal op k = true -> exists k', exec op k = Some k' /\ kernel_inv k'.
Proof.
  intros Hk Hg. destruct op as [t p tick|t| |t|t| |t|t| |tick|t p| |];
    simpl in Hg; legal_split Hg; cbn [exec];
    try (apply thread_in_true in Hg as (th & Ht & Hg));
    try (apply bool_decide_eq_true in Hg).
  - destruct (thread_init_inv (set_objects (t :: thread_objects k) k) t p tick true)
      as (k' & th & E & Hk' & _); [by apply set_objects_inv| |lia|eauto].
    apply (legal_fresh k t); [done|by eapply bool_decide_eq_true|done].
  - destruct (startup_inv k t th Hk Ht Hg) as (k' & -> & ?). by eexists.
  - destruct (scheduler_start_inv k Hk Hg) as (k' & ? & ? & -> & ? & _); [|eauto].
    intros E. by rewrite E in *.
  - destruct (decide (stat th = RT_THREAD_READY \/ stat th = RT_THREAD_RUNNING)) as [Hs|Hs].
    + destruct (suspend_spec k t th Hk Ht Hs) as (s' & -> & ? & _). by eexists.
    + unfold rt_thread_suspend. rewrite Ht. cbn [mbind option_bind].
      rewrite bool_decide_eq_true_2 by naive_solver. by eexists.
  - destruct (decide (stat th = RT_THREAD_SUSPEND)) as [Hs|Hs].
    + destruct (resume_spec k t th Hk Ht Hs) as (s' & -> & ? & _). by eexists.
    + unfold rt_thread_resume. rewrite Ht. cbn [mbind option_bind].
      rewrite bool_decide_eq_true_2 by done. by eexists.
  - destruct Hg as [t Hcur]. destruct (ci_current _ (kv_cur _ Hk) _ Hcur) as (th & Ht & _).
    destruct (thread_exit_inv k t th Hk Hcur Ht) as (_ & k' & _ & _ & _ & ? & ?). eauto.
  - destruct (thread_detach_inv k t th Hk Ht Hg) as (k' & -> & ? & _). by eexists.
  - apply negb_true_iff in Hg.
    destruct (thread_delete_inv k t th Hk Ht Hg) as (k' & -> & ? & _). by eexists.
  - unfold rt_thread_yield. destruct (schedule_inv k Hk Hg) as (k' & -> & ?). by eexists.
  - unfold current_running in Hg. destruct (rt_current_thread k) as [t|] eqn:Hcur; [|done].
    apply thread_in_true in Hg as (th & Ht & Hg). apply bool_decide_eq_true in Hg.
    destruct (sleep_inv k t th tick Hk Hcur Ht Hg) as (_ & k' & _ & _ & _ & _ & _ & _ & ? & ?);
      [lia|eauto].
  - destruct (change_priority_inv k t th p Hk Ht) as (-> & ?); [lia|]. by eexists.
  - eexists. split; [done|]. by apply set_lock_nest_inv.
  - by apply exit_critical_inv.
Qed.

Lemma reachable_kernel_inv k : reachable k -> kernel_inv k.
Proof.
  induction 1 as [|k op k' _ IH Hg E]; [apply boot_inv|].
  destruct (exec_inv op k IH Hg) as (k2 & E2 & ?). congruence.
Qed.

(** Running a list of calls, stopping at an illegal one. *)
Fixpoint run (ops : list kop) (k : kernel) : option kernel :=
  match ops with
  | [] => Some k
  | op :: ops => if legal op k then k ← exec op k; run ops k else None
  end.

Lemma run_reachable ops k k' : reachable k -> run ops k = Some k' -> reachable k'.
Proof.
  revert k. induction ops as [|op ops IH]; simpl; intros k Hr; [by intros [= <-]|].
  destruct (legal op k) eqn:Hg; [|done].
  destruct (exec op k) as [k1|] eqn:E; [simpl|done]. intros H. apply (IH k1); [|done].
  by eapply reach_step.
Qed.

(** Two threads of priority 10 and one of priority 20, started: thread 1 runs. *)
Definition sample_ops : list kop :=
  [OpInit 1 10 5; OpInit 2 10 5; OpInit 3 20 5;
   OpStartup 1; OpStartup 2; OpStartup 3; OpStart].
Definition sample : kernel := default boot (run sample_ops boot).

Lemma sample_reachable : reachable sample.
Proof.
  unfold sample. destruct (run sample_ops boot) as [k|] eqn:E; simpl; [|constructor].
  by eapply run_reachable; [constructor|].
Qed.

Lemma sample_inv : kernel_inv sample.
Proof. apply reachable_kernel_inv, sample_reachable. Qed.

Example sample_run :
  run sample_ops boot <> None /\ rt_current_thread sample = Some 1 /\
  lists sample !! LReady 10 = Some [2] /\ lists sample !! LReady 20 = Some [3] /\
  rt_thread_ready_priority_group sample = 2 ^ 10 + 2 ^ 20.
Proof. vm_compute. by split_and!. Qed.

(* Keep automation from evaluating the sample; [vm_compute] still does. *)
#[global] Opaque sample.

(** ** Theorems *)

Lemma ready_bound k p u thu :
  link_inv None k -> prio_inv k ->
  (forall q ys, 0 <= q < p -> lists k !! LReady q = Some ys -> ys = []) ->
  threads k !! u = Some thu -> stat thu = RT_THREAD_READY -> p <= current_priority thu.
Proof.
  intros Hl Hp Hlow Hu Hr. destruct (li_ready _ _ Hl u thu Hu Hr) as (ys & Ey & Hin); [done|].
  destruct (Z.le_gt_cases p (current_priority thu)); [done|].
  pose proof (Hp _ _ Hu) as (? & _).
  rewrite (Hlow (current_priority thu) ys) in Hin by (done || lia).
  by apply not_elem_of_nil in Hin.
Qed.

(** The queue the preempted thread is appended to. *)
Lemma switched_queue cur cth to tth k :
  kernel_inv k -> to <> cur -> threads k !! cur = Some cth -> stat cth = RT_THREAD_RUNNING ->
  exists xs, lists (switched cur cth to tth k) !! LReady (current_priority cth) =
             Some (xs ++ [cur]).
Proof.
  intros Hk Hne Hc Hr. unfold switched. rewrite bool_decide_eq_true_2 by done.
  simpl. rewrite lookup_lremove, lookup_insert_eq. simpl.
  rewrite filter_app, filter_cons_True by done. eauto.
Qed.

(** C1. In a well-formed kernel rt_schedule never faults and preserves the
    invariant; when the scheduler is unlocked and some thread is ready, the
    thread it makes current is RUNNING, no ready thread has a better
    (smaller) priority, a newly chosen thread was the head of its priority
    queue, and a preempted running thread is appended to the tail of its own
    queue (round robin). *)
Theorem rt_schedule_highest_priority k cur cth :
  kernel_inv k -> rt_current_thread k = Some cur -> threads k !! cur = Some cth ->
  exists k', rt_schedule k = Some k' /\ kernel_inv k' /\
    (rt_scheduler_lock_nest k <> 0 \/ rt_thread_ready_priority_group k = 0 -> k' = k) /\
    (rt_scheduler_lock_nest k = 0 -> rt_thread_ready_priority_group k <> 0 ->
     exists t th,
       rt_current_thread k' = Some t /\ threads k' !! t = Some th /\
       stat th = RT_THREAD_RUNNING /\
       (forall u thu, threads k' !! u = Some thu -> stat thu = RT_THREAD_READY ->
          current_priority th <= current_priority thu) /\
       (t <> cur -> exists xs, lists k !! LReady (current_priority th) = Some (t :: xs)) /\
       (t <> cur -> stat cth = RT_THREAD_RUNNING ->
          exists xs, lists k' !! LReady (current_priority cth) = Some (xs ++ [cur]))).
Proof.
  intros Hk Hcur Hcth. destruct (decide (rt_scheduler_lock_nest k = 0)) as [Hz|Hz].
  2: { exists k. unfold rt_schedule. rewrite (proj2 (Z.eqb_neq _ _) Hz). naive_solver. }
  pose proof Hk as [Hl Hp Hc Hti].
  destruct (schedule_cases k cur cth Hk Hz Hcur Hcth)
    as [(Hg & ->)|(to & tth & xs & Htth & Hr & Hh & Hlow & Hcase)]; [naive_solver|].
  assert (rt_thread_ready_priority_group k <> 0) as Hg.
  { intros E. assert (Z.testbit 0 (current_priority tth) = true) as Hb.
    - rewrite <- E. by apply (li_group _ _ Hl _ _ Hh).
    - by rewrite Z.bits_0 in Hb. }
  destruct Hcase as [(Hrun & Hlt & -> & Hk')|(Hne & Hle & -> & Hk')];
    (eexists; split; [done|]; split; [done|]; split; [naive_solver|]; intros _ _).
  - exists cur, (set_stat RT_THREAD_RUNNING cth). simpl. rewrite lookup_alter_eq, Hcth.
    split_and!; try done. intros u thu Hu Hru. alter_cases.
    pose proof (ready_bound k _ u thu Hl Hp Hlow Hu Hru). lia.
  - exists to, (set_stat RT_THREAD_RUNNING tth).
    assert (threads (switched cur cth to tth k) !! to = Some (set_stat RT_THREAD_RUNNING tth))
      as Hto.
    { unfold switched. case_bool_decide; simpl; rewrite lookup_alter_eq;
        rewrite ?lookup_alter_ne by done; by rewrite Htth. }
    split_and!; try done;
      [unfold switched; by case_bool_decide| |eauto|intros _ Hrun; by eapply switched_queue].
    intros u thu Hu Hru. simpl.
    unfold switched in Hu. case_bool_decide as Hrun; simpl in Hu; alter_cases.
    + by apply Hle.
    + by eapply ready_bound.
    + by eapply ready_bound.
Qed.

Lemma rt_schedule_highest_priority_witness :
  exists k' th, rt_schedule sample = Some k' /\ rt_current_thread k' = Some 2 /\
    threads k' !! 2 = Some th /\
    forall u thu, threads k' !! u = Some thu -> stat thu = RT_THREAD_READY ->
      current_priority th <= current_priority thu.
Proof.
  destruct (threads sample !! 1) as [cth|] eqn:E1; [|by vm_compute in E1].
  destruct (rt_schedule_highest_priority sample 1 cth sample_inv) as (k' & E & _ & _ & H);
    [by vm_compute|done|].
  destruct H as (t & th & Hc & Ht & _ & Hb & _); [by vm_compute|by vm_compute|].
  exists k', th. split; [done|].
  assert (rt_current_thread <$> rt_schedule sample = Some (Some 2)) as E2 by (by vm_compute).
  rewrite E in E2. injection E2 as E2. rewrite E2 in Hc. injection Hc as <-. by split_and!.
Defined.

(** Every kernel state reachable from boot by any sequence of thread and
    scheduler calls whose callers respect their documented obligations
    satisfies the kernel invariant (list membership, thread state, ready
    bitmap, priority masks, current thread and thread timers agree), and
    every further legal call succeeds: no assertion fails, no list node is
    linked twice and no dangling pointer is followed. *)
Theorem thread_api_safe k :
  reachable k ->
  kernel_inv k /\
  (forall op, legal op k = true -> exists k', exec op k = Some k' /\ reachable k').
Proof.
  intros Hr. pose proof (reachable_kernel_inv k Hr) as Hk. split; [done|].
  intros op Hg. destruct (exec_inv op k Hk Hg) as (k' & E & _).
  exists k'. split; [done|]. by eapply reach_step.
Qed.

Lemma thread_api_safe_witness :
  exists k', rt_thread_sleep 100 sample = Some k' /\ reachable k'.
Proof.
  apply (proj2 (thread_api_safe sample sample_reachable) (OpSleep 100)). by vm_compute.
Defined.

(** rt_thread_detach (static threads) and rt_thread_delete (dynamic ones)
    succeed in any state of the thread and leave it closed, its timer
    unlinked, and linked in no list except the defunct list, where it is put
    unless it is static and has no cleanup function. *)
Theorem rt_thread_close_everywhere k t th :
  kernel_inv k -> threads k !! t = Some th ->
  exists k',
    (if is_static th then rt_thread_detach t k else rt_thread_delete t k)
      = Some (k', RT_EOK) /\
    kernel_inv k' /\ closed t th k' /\
    (forall h xs, lists k' !! h = Some xs -> t ∈ xs -> h = LDefunct).
Proof.
  intros Hk Ht.
  assert (forall k', kernel_inv k' -> closed t th k' ->
    forall h xs, lists k' !! h = Some xs -> t ∈ xs -> h = LDefunct) as Hd.
  { intros k' [Hl _ _ _] (E & _) h xs Hh Hin.
    destruct (li_stat _ _ Hl _ _ _ Hh Hin) as (th' & E' & Hs).
    rewrite E in E'. injection E' as <-. destruct h; simpl in Hs; naive_solver. }
  destruct (is_static th) eqn:Hst.
  - destruct (thread_detach_inv k t th Hk Ht Hst) as (k' & -> & ? & ?). eauto 10.
  - destruct (thread_delete_inv k t th Hk Ht Hst) as (k' & -> & ? & ?). eauto 10.
Qed.

Lemma rt_thread_close_everywhere_witness :
  exists k', rt_thread_detach 2 sample = Some (k', RT_EOK) /\
    forall h xs, lists k' !! h = Some xs -> 2 ∈ xs -> h = LDefunct.
Proof.
  destruct (threads sample !! 2) as [th|] eqn:E; [|by vm_compute in E].
  destruct (rt_thread_close_everywhere sample 2 th sample_inv E) as (k' & H & _ & _ & Hd).
  assert (is_static th = true) as Hs.
  { assert (is_static <$> threads sample !! 2 = Some true) as Es by (by vm_compute).
    rewrite E in Es. by injection Es. }
  rewrite Hs in H. eauto.
Defined.

(** rt_thread_sleep suspends the running thread, takes it out of every list
    and arms its timer to expire after exactly the requested number of ticks
    before it reschedules; it does not fault and preserves the kernel
    invariant. *)
Theorem rt_thread_sleep_arms_timer k t th tick :
  kernel_inv k -> rt_current_thread k = Some t -> threads k !! t = Some th ->
  stat th = RT_THREAD_RUNNING -> 0 <= tick < HALF ->
  exists k1 k', rt_thread_sleep tick k = Some k' /\ kernel_inv k' /\
    rt_schedule k1 = Some k' /\
    threads k1 !! t = Some (set_stat RT_THREAD_SUSPEND th) /\
    absent t (lists k1) /\
    ThreadTimer t ∈ rt_timer_list (tsys k1) /\ due_of (tsys k1) (ThreadTimer t) = tick.
Proof.
  intros Hk Hcur Ht Hs Htick.
  destruct (sleep_inv k t th tick Hk Hcur Ht Hs Htick) as (k1 & k' & H).
  exists k1, k'. naive_solver.
Qed.

Lemma rt_thread_sleep_arms_timer_witness :
  exists k1 k', rt_thread_sleep 100 sample = Some k' /\ rt_schedule k1 = Some k' /\
    due_of (tsys k1) (ThreadTimer 1) = 100.
Proof.
  destruct (threads sample !! 1) as [th|] eqn:E; [|by vm_compute in E].
  assert (stat <$> threads sample !! 1 = Some RT_THREAD_RUNNING) as Es by (by vm_compute).
  rewrite E in Es. injection Es as Es.
  destruct (rt_thread_sleep_arms_timer sample 1 th 100 sample_inv)
    as (k1 & k' & ? & _ & ? & _ & _ & _ & ?);
    [by vm_compute|done|done|vm_compute; intuition congruence|].
  exists k1, k'. by split_and!.
Defined.

End ThreadOps.
