(* ===== verification/Ipc.v ===== *)
(** * Common part of the IPC objects

    The wait lists of [src/ipc.c] ([rt_ipc_list_suspend], [rt_ipc_list_resume],
    [rt_ipc_list_resume_all]) and the lemmas the semaphore, mutex, event,
    mailbox and message queue models share: what suspending the caller on a
    wait list, waking the first waiter, waking all of them and rescheduling do
    to the kernel state and what they leave alone. *)

From S2P Require Import Prelude RtList Timer KService Sched SchedInv ThreadOps.
Import RtList Timer KService Sched SchedInv ThreadOps.

Module Ipc.

(** ** Operations *)

Definition RT_IPC_FLAG_FIFO : Z := 0.
Definition RT_IPC_FLAG_PRIO : Z := 1.

(** How a possibly blocking call ends at the point where it either returns or
    has switched away: [Blocked t] means that thread [t] continues with the
    call's resume part when it runs again. *)
Inductive ipc_result := Done (err : Z) | Blocked (t : Z).

Definition rt_ipc_object_init (h : list_head) (k : kernel) : kernel :=
  set_lists (<[h := []]> (lists k)) k.

(** The search of the priority case: the first waiter with a worse priority;
    [None] if a queued node is not a thread. *)
Fixpoint find_worse (ths : gmap Z rt_thread) (p : Z) (xs : list Z) : option (option Z) :=
  match xs with
  | [] => Some None
  | u :: xs =>
      sthread ← ths !! u;
      if p <? current_priority sthread then Some (Some u) else find_worse ths p xs
  end.

Definition rt_ipc_list_suspend (h : list_head) (t flag : Z) (k : kernel) : option kernel :=
  '(k, _) ← rt_thread_suspend t k;
  if flag =? RT_IPC_FLAG_FIFO then tlist_push_back h t k
  else if flag =? RT_IPC_FLAG_PRIO then
    th ← threads k !! t;
    xs ← lists k !! h;
    n ← find_worse (threads k) (current_priority th) xs;
    match n with
    | Some u => tlist_insert_before h u t k
    | None => tlist_push_back h t k
    end
  else Some k.

Definition rt_ipc_list_resume (h : list_head) (k : kernel) : option kernel :=
  xs ← lists k !! h;
  thread ← head xs;
  '(k, _) ← rt_thread_resume thread k;
  Some k.

(** One iteration per unit of fuel. *)
Fixpoint resume_all_loop (fuel : nat) (h : list_head) (k : kernel) : option kernel :=
  xs ← lists k !! h;
  match xs, fuel with
  | [], _ => Some k
  | _, O => None
  | thread :: _, S fuel =>
      let k := upd_thread thread (set_error (- RT_ERROR)) k in
      '(k, _) ← rt_thread_resume thread k;
      resume_all_loop fuel h k
  end.

Definition rt_ipc_list_resume_all (h : list_head) (k : kernel) : option kernel :=
  xs ← lists k !! h; resume_all_loop (length xs) h k.

(** [RT_DEBUG_IN_THREAD_CONTEXT]. *)
Definition in_thread_context (k : kernel) : option Z :=
  t ← rt_thread_self k; _ ← RT_ASSERT (rt_interrupt_nest k =? 0); Some t.

(** The waiting part that every blocking call shares: queue the caller, arm
    its timer if there is a time limit. *)
Definition wait_on (h : list_head) (t flag time : Z) (k : kernel) : option kernel :=
  k ← rt_ipc_list_suspend h t flag k;
  if 0 <? time then start_thread_timer t time k else Some k.

(** The end of a send or receive: wake the first thread waiting for it. *)
Definition wake_first (h : list_head) (k : kernel) : option kernel :=
  xs ← lists k !! h;
  if bool_decide (xs <> []) then k ← rt_ipc_list_resume h k; rt_schedule k else Some k.

(** ** Frames *)

Definition is_wait (h : list_head) : Prop :=
  match h with LSuspend _ | LSender _ => True | _ => False end.

(** Everything but runnable threads' states and the ready queues is kept. *)
Record sched_frame (k k' : kernel) : Prop := {
  sf_waits : forall h, is_wait h -> lists k' !! h = lists k !! h;
  sf_tsys : tsys k' = tsys k;
  sf_threads : forall t th', threads k' !! t = Some th' ->
    exists th, threads k !! t = Some th /\ th' = set_stat (stat th') th /\
      (stat th = stat th' \/
       (stat th = RT_THREAD_READY \/ stat th = RT_THREAD_RUNNING) /\
       (stat th' = RT_THREAD_READY \/ stat th' = RT_THREAD_RUNNING));
  sf_dom : forall t, is_Some (threads k !! t) -> is_Some (threads k' !! t);
  sf_nest : rt_interrupt_nest k' = rt_interrupt_nest k;
  sf_objects : thread_objects k' = thread_objects k;
}.

Lemma set_stat_id th : set_stat (stat th) th = th.
Proof. by destruct th. Qed.

Lemma sched_frame_refl k : sched_frame k k.
Proof. constructor; try done. intros t th Ht. exists th. rewrite set_stat_id. eauto. Qed.

Lemma wait_not_in k h xs t th :
  link_inv None k -> is_wait h -> lists k !! h = Some xs -> threads k !! t = Some th ->
  stat th <> RT_THREAD_SUSPEND -> t ∉ xs.
Proof.
  intros Hl Hw Hh Ht Hs Hin. destruct (li_stat _ _ Hl _ _ _ Hh Hin) as (? & ? & ?).
  simplify_eq. destruct h; simpl in *; naive_solver.
Qed.

Lemma alter_is_Some (f : rt_thread -> rt_thread) t (m : gmap Z rt_thread) u :
  is_Some (m !! u) -> is_Some (alter f t m !! u).
Proof. intros [x Hu]. rewrite lookup_alter. case_decide; subst; rewrite Hu; eauto. Qed.

(** Removing a thread that is not suspended does not touch the wait lists. *)
Lemma lremove_waits k t th h :
  link_inv None k -> threads k !! t = Some th -> stat th <> RT_THREAD_SUSPEND -> is_wait h ->
  lremove t (lists k) !! h = lists k !! h.
Proof.
  intros Hl Ht Hs Hw. rewrite lookup_lremove. destruct (lists k !! h) as [xs|] eqn:E; [simpl|done].
  rewrite filter_absent; [done|]. by eapply wait_not_in.
Qed.

Lemma run_frame k t th c p :
  link_inv None k -> threads k !! t = Some th ->
  stat th = RT_THREAD_READY \/ stat th = RT_THREAD_RUNNING ->
  sched_frame k (upd_thread t (set_stat RT_THREAD_RUNNING) (removed t th (set_current c p k))).
Proof.
  intros Hl Ht Hs. constructor; simpl; try done.
  - intros h Hw. eapply lremove_waits; [done|done|naive_solver congruence|done].
  - intros u th' Hu. alter_cases; [exists th; simpl; auto 10|].
    exists th'. rewrite set_stat_id. eauto.
  - intros u. apply alter_is_Some.
Qed.

Lemma schedule_frame k k' :
  kernel_inv k -> is_Some (rt_current_thread k) -> rt_schedule k = Some k' -> sched_frame k k'.
Proof.
  intros Hk [cur Hcur] E. destruct (decide (rt_scheduler_lock_nest k = 0)) as [Hz|Hz].
  2: { unfold rt_schedule in E. rewrite (proj2 (Z.eqb_neq _ _) Hz) in E. injection E as <-.
       apply sched_frame_refl. }
  pose proof Hk as [Hl Hp Hc Hti].
  destruct (ci_current _ Hc _ Hcur) as (cth & Hcth & _).
  destruct (schedule_cases k cur cth Hk Hz Hcur Hcth)
    as [(_ & E')|(to & tth & xs & Htth & Hr & Hh & _ & [(Hrun & _ & E' & _)|(Hne & _ & E' & _)])];
    rewrite E' in E; injection E as <-.
  - apply sched_frame_refl.
  - constructor; simpl; try done.
    + intros h Hw. eapply lremove_waits; [done|done|congruence|done].
    + intros u th' Hu. alter_cases; [exists cth; simpl; auto 10|].
      exists th'. rewrite set_stat_id. eauto.
    + intros u. apply alter_is_Some.
  - unfold switched. case_bool_decide as Hrun.
    2: { apply run_frame; [done|done|by left]. }
    constructor; simpl; try done.
    + intros h Hw. rewrite lookup_lremove, lookup_insert_ne by (by intros <-).
      rewrite <- lookup_lremove. eapply lremove_waits; [done|done|congruence|done].
    + intros u th' Hu. alter_cases;
        [exists tth; simpl; auto 10|exists cth; simpl; auto 10|].
      exists th'. rewrite set_stat_id. eauto.
    + intros u Hu. by do 2 apply alter_is_Some.
Qed.

(** ** Queueing the caller *)

Definition prio_of (k : kernel) (u : Z) : Z :=
  match threads k !! u with Some th => current_priority th | None => 0 end.

(** Where a waiter of priority [p] goes: at the end, or before the first waiter
    with a worse priority. *)
Definition queue_pos (flag : Z) (k : kernel) (p : Z) (ys zs : list Z) : Prop :=
  (flag = RT_IPC_FLAG_FIFO /\ zs = []) \/
  (flag = RT_IPC_FLAG_PRIO /\ Forall (fun u => prio_of k u <= p) ys /\
   match zs with [] => True | u :: _ => p < prio_of k u end).

Lemma find_worse_spec k p xs :
  Forall (fun u => is_Some (threads k !! u)) xs ->
  exists ys zs, xs = ys ++ zs /\ find_worse (threads k) p xs = Some (head zs) /\
    Forall (fun u => prio_of k u <= p) ys /\
    match zs with [] => True | u :: _ => p < prio_of k u end.
Proof.
  induction 1 as [|u xs [th Hu] _ IH]; [by exists [], []|]. simpl. rewrite Hu. simpl.
  assert (prio_of k u = current_priority th) as Ep by (unfold prio_of; by rewrite Hu).
  case_bool.
  - exists [], (u :: xs). split_and!; try done. lia.
  - destruct IH as (ys & zs & -> & E & Hy & Hz). exists (u :: ys), zs.
    split_and!; try done. apply Forall_cons. split; [lia|done].
Qed.

(** Linking the suspended thread [t] into a wait list. *)
Record linked_in (h : list_head) (ys : list Z) (t : Z) (zs : list Z) (k k' : kernel) : Prop := {
  lk_inv : kernel_inv k';
  lk_list : lists k' !! h = Some (ys ++ t :: zs);
  lk_other : forall h', h' <> h -> lists k' !! h' = lists k !! h';
  lk_rest : k' = set_lists (lists k') k;
}.

Lemma link_wait k h t th ys zs :
  kernel_inv k -> is_wait h -> threads k !! t = Some th -> stat th = RT_THREAD_SUSPEND ->
  absent t (lists k) -> lists k !! h = Some (ys ++ zs) ->
  linked_in h ys t zs k (set_lists (<[h := ys ++ t :: zs]> (lists k)) k).
Proof.
  intros [Hl Hp Hc Hti] Hw Ht Hs Ha Hh. constructor; simpl; try done.
  - constructor; [|done|..].
    + eapply link_ext; [..|apply (link_insert k t th h ys zs)]; try done.
      * by destruct h.
      * by apply link_exempt.
      * by destruct h.
    + by eapply cur_ext; [..|exact Hc].
    + by eapply timer_inv_ext; [..|exact Hti]; simpl; eauto.
  - by rewrite lookup_insert_eq.
  - intros h' Hne. by rewrite lookup_insert_ne.
Qed.

Lemma tlist_link_wait k h t th flag xs :
  kernel_inv k -> is_wait h -> threads k !! t = Some th -> stat th = RT_THREAD_SUSPEND ->
  absent t (lists k) -> lists k !! h = Some xs ->
  flag = RT_IPC_FLAG_FIFO \/ flag = RT_IPC_FLAG_PRIO ->
  exists ys zs k', xs = ys ++ zs /\ queue_pos flag k (current_priority th) ys zs /\
    linked_in h ys t zs k k' /\
    (if flag =? RT_IPC_FLAG_FIFO then tlist_push_back h t k
     else if flag =? RT_IPC_FLAG_PRIO then
       th ← threads k !! t;
       xs ← lists k !! h;
       n ← find_worse (threads k) (current_priority th) xs;
       match n with
       | Some u => tlist_insert_before h u t k
       | None => tlist_push_back h t k
       end
     else Some k) = Some k'.
Proof.
  intros Hk Hw Ht Hs Ha Hh [->| ->]; simpl.
  - exists xs, [], (set_lists (<[h := xs ++ [t]]> (lists k)) k).
    split; [by rewrite app_nil_r|]. split; [by left|].
    split; [by eapply link_wait; rewrite ?app_nil_r|]. by apply push_back_eq.
  - rewrite Ht. cbn [mbind option_bind]. rewrite Hh. cbn [mbind option_bind].
    destruct (find_worse_spec k (current_priority th) xs) as (ys' & zs' & -> & -> & Hy & Hz).
    { apply Forall_forall. intros u Hu.
      destruct (li_stat _ _ (kv_link _ Hk) _ _ _ Hh Hu) as (? & ? & _). eauto. }
    cbn [mbind option_bind].
    exists ys', zs', (set_lists (<[h := ys' ++ t :: zs']> (lists k)) k).
    split; [done|]. split; [by right|]. split; [by eapply link_wait|].
    destruct zs' as [|u zs']; simpl.
    + rewrite app_nil_r in Hh. by apply push_back_eq.
    + unfold tlist_insert_before. rewrite linkable_true by eauto.
      rewrite bool_decide_eq_true_2; simpl.
      * by rewrite (linsert_before_eq _ h u t ys' zs') by (done || apply (kv_link _ Hk)).
      * rewrite (lookup_total_correct _ _ _ Hh). set_solver +.
Qed.

(** Suspending a runnable thread on a wait list. *)
Record waiting (h : list_head) (ys : list Z) (t : Z) (zs : list Z) (k k' : kernel) : Prop := {
  wa_inv : kernel_inv k';
  wa_list : lists k' !! h = Some (ys ++ t :: zs);
  wa_other : forall h', is_wait h' -> h' <> h -> lists k' !! h' = lists k !! h';
  wa_threads : threads k' = alter (set_stat RT_THREAD_SUSPEND) t (threads k);
  wa_timer : timer_frame t (tsys k) (tsys k');
  wa_current : rt_current_thread k' = rt_current_thread k;
  wa_lock : rt_scheduler_lock_nest k' = rt_scheduler_lock_nest k;
  wa_nest : rt_interrupt_nest k' = rt_interrupt_nest k;
}.

Lemma linked_waiting k k' h t th s' ys zs :
  kernel_inv k -> threads k !! t = Some th -> stat th <> RT_THREAD_SUSPEND ->
  timer_frame t (tsys k) s' -> linked_in h ys t zs (suspended t th s' k) k' ->
  waiting h ys t zs k k'.
Proof.
  intros Hk Ht Hs Hf [Hi Hl Ho Hr]. rewrite Hr in Hi |- *. constructor; simpl; try done.
  intros h' Hw' Hne. rewrite Ho by done. simpl. by eapply lremove_waits; [apply Hk|..].
Qed.

Lemma ipc_list_suspend_spec k h t th flag xs :
  kernel_inv k -> is_wait h -> threads k !! t = Some th ->
  stat th = RT_THREAD_READY \/ stat th = RT_THREAD_RUNNING ->
  lists k !! h = Some xs -> flag = RT_IPC_FLAG_FIFO \/ flag = RT_IPC_FLAG_PRIO ->
  exists ys zs k', rt_ipc_list_suspend h t flag k = Some k' /\ xs = ys ++ zs /\
    queue_pos flag k (current_priority th) ys zs /\ waiting h ys t zs k k' /\
    ThreadTimer t ∉ rt_timer_list (tsys k').
Proof.
  intros Hk Hw Ht Hs Hh Hf. unfold rt_ipc_list_suspend.
  destruct (suspend_spec k t th Hk Ht Hs) as (s' & -> & Hk1 & Htf & Hn).
  cbn [mbind option_bind]. set (k1 := suspended t th s' k) in *.
  assert (stat th <> RT_THREAD_SUSPEND) as Hns by (destruct Hs; congruence).
  assert (lists k1 !! h = Some xs) as Hh1.
  { simpl. rewrite <- Hh. eapply lremove_waits; [apply Hk|done|done|done]. }
  assert (threads k1 !! t = Some (set_stat RT_THREAD_SUSPEND th)) as Ht1
    by (simpl; by rewrite lookup_alter_eq, Ht).
  destruct (tlist_link_wait k1 h t (set_stat RT_THREAD_SUSPEND th) flag xs)
    as (ys & zs & k' & -> & Hq & Hlk & E); try done.
  { apply absent_lremove. }
  exists ys, zs, k'. split; [done|]. split; [done|]. split.
  - destruct Hq as [?|(? & H1 & H2)]; [by left|right]. split; [done|].
    assert (forall u, prio_of k1 u = prio_of k u) as Ep.
    { intros u. unfold prio_of. simpl. rewrite lookup_alter. case_decide; [subst|done].
      by rewrite Ht. }
    split; [|destruct zs as [|z zs]; [done|by rewrite <- (Ep z)]].
    eapply Forall_impl; [exact H1|]. intros u Hu. by rewrite <- (Ep u).
  - split; [by eapply linked_waiting|]. by rewrite (lk_rest _ _ _ _ _ _ Hlk).
Qed.

(** Arming the timer of a thread that was just queued. *)
Lemma wait_timer_spec k k1 h t th ys zs time :
  threads k !! t = Some th -> waiting h ys t zs k k1 -> ThreadTimer t ∉ rt_timer_list (tsys k1) ->
  0 < time < HALF ->
  exists k', start_thread_timer t time k1 = Some k' /\ waiting h ys t zs k k' /\
    due_of (tsys k') (ThreadTimer t) = time /\ ThreadTimer t ∈ rt_timer_list (tsys k').
Proof.
  intros Ht Hwa Hn Htm.
  destruct Hwa as [Hi Hl Ho Hth Htf Hc Hlk Hne]. pose proof Hi as [Hli Hpi Hci Hti].
  assert (threads k1 !! t = Some (set_stat RT_THREAD_SUSPEND th)) as Ht1
    by (rewrite Hth, lookup_alter_eq; by rewrite Ht).
  destruct (start_thread_timer_spec k1 t time) as (s2 & -> & Hf2 & Hin & Hd).
  { eapply timer_wf_weaken; [|by apply ti_wf]. apply slack_range. }
  { by eapply (ti_exists _ Hti _ _ Ht1). }
  { done. }
  { lia. }
  exists (set_tsys s2 k1). split; [done|]. split; [constructor|]; simpl; try done.
  - constructor; [by eapply link_ext; [..|exact Hli]|done|by eapply cur_ext; [..|exact Hci]|].
    eapply timer_inv_tsys; [done|done|]. intros _. eauto.
  - destruct Htf as [W1 O1 L1 T1], Hf2 as [W2 O2 L2 T2].
    constructor; [eauto|eauto| |congruence]. intros j Hj. rewrite L2, L1 by done. done.
Qed.

Lemma wait_on_spec k h t th flag time xs :
  kernel_inv k -> is_wait h -> threads k !! t = Some th ->
  stat th = RT_THREAD_READY \/ stat th = RT_THREAD_RUNNING ->
  lists k !! h = Some xs -> flag = RT_IPC_FLAG_FIFO \/ flag = RT_IPC_FLAG_PRIO ->
  time < HALF ->
  exists ys zs k', wait_on h t flag time k = Some k' /\ xs = ys ++ zs /\
    queue_pos flag k (current_priority th) ys zs /\ waiting h ys t zs k k' /\
    (if 0 <? time then due_of (tsys k') (ThreadTimer t) = time /\
                       ThreadTimer t ∈ rt_timer_list (tsys k')
     else ThreadTimer t ∉ rt_timer_list (tsys k')).
Proof.
  intros Hk Hw Ht Hs Hh Hf Htm. unfold wait_on.
  destruct (ipc_list_suspend_spec k h t th flag xs Hk Hw Ht Hs Hh Hf)
    as (ys & zs & k1 & -> & -> & Hq & Hwa & Hn). cbn [mbind option_bind].
  destruct (Z.ltb_spec 0 time) as [Hpos|Hneg]; [|by exists ys, zs, k1].
  destruct (wait_timer_spec k k1 h t th ys zs time) as (k' & E & H'); [done..|lia|].
  exists ys, zs, k'. do 3 (split; [done|]). exact H'.
Qed.

(** ** Waking threads *)

(** The effect of resuming the suspended thread [t]. *)
Record woken (t : Z) (k k' : kernel) : Prop := {
  wk_inv : kernel_inv k';
  wk_lists : forall h, is_wait h ->
    lists k' !! h = (fun xs => filter (fun u => u <> t) xs) <$> lists k !! h;
  wk_threads : threads k' = alter (set_stat (resumed_stat t k)) t (threads k);
  wk_timer : timer_frame t (tsys k) (tsys k');
  wk_stopped : ThreadTimer t ∉ rt_timer_list (tsys k');
  wk_current : rt_current_thread k' = rt_current_thread k;
  wk_lock : rt_scheduler_lock_nest k' = rt_scheduler_lock_nest k;
  wk_nest : rt_interrupt_nest k' = rt_interrupt_nest k;
}.

Lemma inserted_waits t th k h : is_wait h -> lists (inserted t th k) !! h = lists k !! h.
Proof.
  intros Hw. unfold inserted. case_bool_decide; [done|]. simpl.
  rewrite lookup_insert_ne; [done|]. by intros <-.
Qed.

Lemma resume_woken k t th :
  kernel_inv k -> threads k !! t = Some th -> stat th = RT_THREAD_SUSPEND ->
  exists k', rt_thread_resume t k = Some (k', RT_EOK) /\ woken t k k'.
Proof.
  intros Hk Ht Hs. destruct (resume_spec k t th Hk Ht Hs) as (s' & -> & Hk' & Hf & Hn).
  eexists. split; [done|]. unfold resumed in *. constructor; [done|..].
  - intros h Hw. rewrite inserted_waits by done. apply lookup_lremove.
  - by rewrite inserted_threads.
  - by rewrite inserted_tsys.
  - by rewrite inserted_tsys.
  - by rewrite inserted_current.
  - by rewrite inserted_lock.
  - unfold inserted. by case_bool_decide.
Qed.

Lemma waiter_suspended k h xs t :
  kernel_inv k -> is_wait h -> lists k !! h = Some xs -> t ∈ xs ->
  exists th, threads k !! t = Some th /\ stat th = RT_THREAD_SUSPEND.
Proof.
  intros Hk Hw Hh Hin. destruct (li_stat _ _ (kv_link _ Hk) _ _ _ Hh Hin) as (th & ? & Hs).
  exists th. split; [done|]. by destruct h.
Qed.

(** Waking a waiter of [h] leaves the other wait lists alone. *)
Lemma woken_lists k k' h t xs :
  kernel_inv k -> woken t k k' -> lists k !! h = Some xs -> t ∈ xs ->
  forall h', is_wait h' -> h' <> h -> lists k' !! h' = lists k !! h'.
Proof.
  intros Hk Hwk Hh Hin h' Hw' Hne. rewrite (wk_lists _ _ _ Hwk) by done.
  destruct (lists k !! h') as [ys|] eqn:E; [simpl|done]. rewrite filter_absent; [done|].
  intros Hin'. apply Hne. eapply (proj2 (li_unique _ _ (kv_link _ Hk))); eauto.
Qed.

Lemma woken_head k k' h t xs :
  kernel_inv k -> woken t k k' -> is_wait h -> lists k !! h = Some (t :: xs) ->
  lists k' !! h = Some xs.
Proof.
  intros Hk Hwk Hw Hh. rewrite (wk_lists _ _ _ Hwk), Hh by done. simpl. f_equal.
  apply (filter_split t [] xs). by apply (li_unique _ _ (kv_link _ Hk)) in Hh.
Qed.

Lemma ipc_list_resume_spec k h t xs :
  kernel_inv k -> is_wait h -> lists k !! h = Some (t :: xs) ->
  exists k', rt_ipc_list_resume h k = Some k' /\ woken t k k' /\ lists k' !! h = Some xs /\
    (forall h', is_wait h' -> h' <> h -> lists k' !! h' = lists k !! h').
Proof.
  intros Hk Hw Hh. unfold rt_ipc_list_resume. rewrite Hh. cbn [mbind option_bind head].
  destruct (waiter_suspended k h (t :: xs) t Hk Hw Hh) as (th & Ht & Hs); [left|].
  destruct (resume_woken k t th Hk Ht Hs) as (k' & -> & Hwk). exists k'. split; [done|].
  split; [done|]. split; [by eapply woken_head|]. eapply woken_lists; eauto. left.
Qed.

Lemma resume_all_spec h xs : forall k,
  kernel_inv k -> is_wait h -> lists k !! h = Some xs ->
  exists k', resume_all_loop (length xs) h k = Some k' /\ kernel_inv k' /\
    lists k' !! h = Some [] /\
    (forall h', is_wait h' -> h' <> h -> lists k' !! h' = lists k !! h') /\
    (forall u, u ∉ xs -> threads k' !! u = threads k !! u) /\
    (forall u, u ∈ xs -> exists th, threads k !! u = Some th /\
       threads k' !! u = Some (set_stat (resumed_stat u k) (set_error (- RT_ERROR) th))) /\
    rt_current_thread k' = rt_current_thread k /\
    rt_interrupt_nest k' = rt_interrupt_nest k.
Proof.
  induction xs as [|t xs IH]; intros k Hk Hw Hh; simpl; rewrite Hh; cbn [mbind option_bind].
  { exists k. split_and!; try done. intros u Hu. by apply not_elem_of_nil in Hu. }
  destruct (waiter_suspended k h (t :: xs) t Hk Hw Hh) as (th & Ht & Hs); [left|].
  set (k1 := upd_thread t (set_error (- RT_ERROR)) k).
  assert (kernel_inv k1) as Hk1 by (by apply kernel_upd_same).
  destruct (resume_woken k1 t (set_error (- RT_ERROR) th) Hk1) as (k2 & -> & Hwk); [|done|].
  { simpl. by rewrite lookup_alter_eq, Ht. }
  cbn [mbind option_bind].
  assert (lists k2 !! h = Some xs) as Hh2 by (by eapply woken_head; [exact Hk1|..]).
  assert (t ∉ xs) as Hnin.
  { apply (li_unique _ _ (kv_link _ Hk)) in Hh. by apply NoDup_cons in Hh as [? _]. }
  destruct (IH k2 (wk_inv _ _ _ Hwk) Hw Hh2) as (k' & E & Hk' & Hnil & Hoth & Hout & Hin & Hc & Hne).
  exists k'. split; [done|]. split; [done|]. split; [done|].
  assert (forall u, u <> t -> threads k2 !! u = threads k !! u) as Hsame.
  { intros u Hu. rewrite (wk_threads _ _ _ Hwk). simpl. by rewrite !lookup_alter_ne. }
  pose proof (wk_current _ _ _ Hwk) as Hc2. split_and!.
  - intros h' Hw' Hne'. rewrite Hoth by done. eapply (woken_lists k1); eauto. left.
  - intros u Hu. apply not_elem_of_cons in Hu as [? ?]. rewrite Hout by done. by apply Hsame.
  - intros u [->|Hu]%elem_of_cons.
    + exists th. split; [done|]. rewrite Hout by done. rewrite (wk_threads _ _ _ Hwk).
      simpl. by rewrite !lookup_alter_eq, Ht.
    + destruct (Hin u Hu) as (thu & E1 & E2). exists thu.
      rewrite Hsame in E1 by congruence. split; [done|]. rewrite E2. do 2 f_equal.
      unfold resumed_stat. by rewrite Hc2.
  - by rewrite Hc, Hc2.
  - rewrite Hne. apply (wk_nest _ _ _ Hwk).
Qed.

(** ** What the kernel promises to an IPC object, and asks of it

    The state of an object is its own record together with its wait lists and
    the event fields of the threads.  Everything else the kernel does either
    leaves this view alone ([same_view]) or takes one waiter away, when its
    timer expires or it is closed ([one_leaves]).  An instance of [IpcObject] is
    an object invariant that survives both. *)

Definition of_object (o : Z) (h : list_head) : Prop := h = LSuspend o \/ h = LSender o.

Definition event_view (k : kernel) (t : Z) : option (Z * Z) :=
  (fun th => (event_set th, event_info th)) <$> threads k !! t.

Definition same_view (o : Z) (k k' : kernel) : Prop :=
  (forall h, of_object o h -> lists k' !! h = lists k !! h) /\
  (forall t, event_view k' t = event_view k t).

Definition one_leaves (o t : Z) (k k' : kernel) : Prop :=
  (forall h, of_object o h ->
     lists k' !! h = (fun xs => filter (fun u => u <> t) xs) <$> lists k !! h) /\
  (forall u, event_view k' u = event_view k u).

Class IpcObject (A : Type) := {
  ipc_inv : Z -> A -> kernel -> Prop;
  ipc_inv_view : forall o a k k', same_view o k k' -> ipc_inv o a k -> ipc_inv o a k';
  ipc_inv_leave : forall o a k k' t, one_leaves o t k k' -> ipc_inv o a k -> ipc_inv o a k';
}.

Lemma of_object_wait o h : of_object o h -> is_wait h.
Proof. by intros [->| ->]. Qed.

Lemma sched_frame_view o k k' : sched_frame k k' -> same_view o k k'.
Proof.
  intros [Hw _ Ht Hd _ _]. split; [intros h Hh; by eapply Hw, of_object_wait|].
  intros t. unfold event_view. destruct (threads k' !! t) as [th'|] eqn:E'.
  - destruct (Ht t th' E') as (th & E & Eth & _). rewrite E, Eth. by destruct th'.
  - destruct (threads k !! t) as [th|] eqn:E; [|done].
    destruct (Hd t) as [? ?]; [eauto|congruence].
Qed.

(** Rescheduling never disturbs an object. *)
Lemma schedule_ipc_inv {A} `{!IpcObject A} o (a : A) k k' :
  kernel_inv k -> is_Some (rt_current_thread k) -> rt_schedule k = Some k' ->
  ipc_inv o a k -> ipc_inv o a k'.
Proof. intros Hk Hc E. by eapply ipc_inv_view, sched_frame_view, schedule_frame. Qed.

(** The calling thread: it is running and no interrupt is active. *)
Record caller (k : kernel) (t : Z) (th : rt_thread) : Prop := {
  ca_current : rt_current_thread k = Some t;
  ca_thread : threads k !! t = Some th;
  ca_running : stat th = RT_THREAD_RUNNING;
  ca_nest : rt_interrupt_nest k = 0;
}.

Lemma in_thread_context_caller k t th : caller k t th -> in_thread_context k = Some t.
Proof.
  intros [Hc _ _ Hn]. unfold in_thread_context, rt_thread_self. rewrite Hc.
  cbn [mbind option_bind]. by rewrite Hn.
Qed.

(** A thread suspended before a reschedule is suspended after it, unchanged. *)
Lemma sched_frame_suspended k k' t th :
  sched_frame k k' -> threads k !! t = Some th -> stat th = RT_THREAD_SUSPEND ->
  threads k' !! t = Some th.
Proof.
  intros Hf Ht Hs. destruct (sf_dom _ _ Hf t) as [th' E]; [eauto|].
  destruct (sf_threads _ _ Hf t th' E) as (th2 & E2 & Eth & Hst). rewrite E. f_equal.
  assert (th2 = th) as -> by congruence. rewrite Hs in Hst.
  assert (stat th' = RT_THREAD_SUSPEND) as Hs' by (destruct Hst as [?|[[] _]]; congruence).
  rewrite Eth, Hs', <- Hs. apply set_stat_id.
Qed.

(** A runnable thread stays runnable. *)
Lemma sched_frame_runnable k k' t th :
  sched_frame k k' -> threads k !! t = Some th ->
  stat th = RT_THREAD_READY \/ stat th = RT_THREAD_RUNNING ->
  exists s, threads k' !! t = Some (set_stat s th) /\
            (s = RT_THREAD_READY \/ s = RT_THREAD_RUNNING).
Proof.
  intros Hf Ht Hs. destruct (sf_dom _ _ Hf t) as [th' E]; [eauto|].
  destruct (sf_threads _ _ Hf t th' E) as (th2 & E2 & Eth & Hst).
  assert (th2 = th) as -> by congruence. exists (stat th'). rewrite <- Eth. split; [done|].
  destruct Hst as [<-|[_ ?]]; done.
Qed.

Lemma sched_frame_prio k k' u : sched_frame k k' -> prio_of k' u = prio_of k u.
Proof.
  intros Hf. unfold prio_of. destruct (threads k' !! u) as [th'|] eqn:E'.
  - destruct (sf_threads _ _ Hf u th' E') as (th & -> & -> & _). done.
  - destruct (threads k !! u) as [th|] eqn:E; [|done].
    destruct (sf_dom _ _ Hf u) as [? ?]; [eauto|congruence].
Qed.

Lemma prio_of_upd k t f :
  (forall th, current_priority (f th) = current_priority th) ->
  forall u, prio_of (upd_thread t f k) u = prio_of k u.
Proof.
  intros Hf u. unfold prio_of. simpl. rewrite lookup_alter. case_decide; [subst|done].
  destruct (threads k !! u) as [th|]; [simpl; by rewrite Hf|done].
Qed.

Lemma queue_pos_ext flag k k' p ys zs :
  (forall u, u ∈ ys ++ zs -> prio_of k' u = prio_of k u) ->
  queue_pos flag k p ys zs -> queue_pos flag k' p ys zs.
Proof.
  intros Hp [?|(? & Hy & Hz)]; [by left|right]. split; [done|]. split.
  - rewrite Forall_forall in Hy |- *. intros u Hu. rewrite Hp by set_solver. by apply Hy.
  - destruct zs as [|z zs]; [done|]. rewrite Hp by set_solver. done.
Qed.

(** The blocking tail of a call: queue the caller, arm the timer, switch. *)
(** The switch away of a caller that has queued itself. *)
Lemma blocked_schedule k k1 h t th ys zs :
  caller k t th -> is_wait h -> waiting h ys t zs k k1 ->
  exists k', rt_schedule k1 = Some k' /\ kernel_inv k' /\ lists k' !! h = Some (ys ++ t :: zs) /\
    (forall h', is_wait h' -> h' <> h -> lists k' !! h' = lists k !! h') /\
    threads k' !! t = Some (set_stat RT_THREAD_SUSPEND th) /\
    (forall u, event_view k' u = event_view k u) /\
    (forall u, prio_of k' u = prio_of k u) /\ tsys k' = tsys k1.
Proof.
  intros [Hcur Ht Hr Hn] Hw Hwa.
  destruct (schedule_inv k1) as (k' & E2 & Hk'); [apply Hwa|rewrite (wa_current _ _ _ _ _ _ Hwa); eauto|].
  exists k'. destruct Hwa as [Hi Hl Ho Hth Htf Hc Hlk Hne].
  assert (sched_frame k1 k') as Hsf by (eapply schedule_frame; [done|rewrite Hc; eauto|done]).
  do 2 (split; [done|]). split; [by rewrite (sf_waits _ _ Hsf)|].
  split; [intros h' Hw' Hne'; rewrite (sf_waits _ _ Hsf) by done; by apply Ho|].
  split; [|split; [|split; [|by rewrite (sf_tsys _ _ Hsf)]]].
  - eapply sched_frame_suspended; [done| |done]. rewrite Hth, lookup_alter_eq. by rewrite Ht.
  - intros u. rewrite (proj2 (sched_frame_view 0 _ _ Hsf)). unfold event_view. rewrite Hth.
    rewrite lookup_alter. case_decide; [subst|done]. by rewrite Ht.
  - intros u. rewrite (sched_frame_prio _ _ _ Hsf). unfold prio_of. rewrite Hth.
    rewrite lookup_alter. case_decide; [subst|done]. by rewrite Ht.
Qed.

Lemma block_spec k h t th flag time xs :
  kernel_inv k -> caller k t th -> is_wait h -> lists k !! h = Some xs ->
  flag = RT_IPC_FLAG_FIFO \/ flag = RT_IPC_FLAG_PRIO -> time < HALF ->
  exists ys zs k1 k', wait_on h t flag time k = Some k1 /\ rt_schedule k1 = Some k' /\
    xs = ys ++ zs /\ queue_pos flag k (current_priority th) ys zs /\
    kernel_inv k' /\ lists k' !! h = Some (ys ++ t :: zs) /\
    (forall h', is_wait h' -> h' <> h -> lists k' !! h' = lists k !! h') /\
    threads k' !! t = Some (set_stat RT_THREAD_SUSPEND th) /\
    (forall u, event_view k' u = event_view k u) /\
    (forall u, prio_of k' u = prio_of k u) /\
    (if 0 <? time then due_of (tsys k') (ThreadTimer t) = time /\
                       ThreadTimer t ∈ rt_timer_list (tsys k')
     else ThreadTimer t ∉ rt_timer_list (tsys k')).
Proof.
  intros Hk Hca Hw Hh Hf Htm. pose proof Hca as [Hcur Ht Hr Hn].
  destruct (wait_on_spec k h t th flag time xs) as (ys & zs & k1 & E1 & Exs & Hq & Hwa & Htime);
    try done; [by right|].
  destruct (blocked_schedule k k1 h t th ys zs Hca Hw Hwa)
    as (k' & E2 & H1 & H2 & H3 & H4 & H5 & H6 & Hts).
  exists ys, zs, k1, k'. rewrite Hts. by split_and!.
Qed.

(** The waking tail of a call: wake the first waiter and reschedule. *)
Lemma wake_spec k h t xs :
  kernel_inv k -> is_Some (rt_current_thread k) -> is_wait h -> lists k !! h = Some (t :: xs) ->
  exists th k1 k' s, rt_ipc_list_resume h k = Some k1 /\ rt_schedule k1 = Some k' /\
    kernel_inv k' /\ lists k' !! h = Some xs /\
    (forall h', is_wait h' -> h' <> h -> lists k' !! h' = lists k !! h') /\
    threads k !! t = Some th /\ threads k' !! t = Some (set_stat s th) /\
    (s = RT_THREAD_READY \/ s = RT_THREAD_RUNNING) /\
    ThreadTimer t ∉ rt_timer_list (tsys k') /\
    (forall u, event_view k' u = event_view k u) /\
    (forall u, prio_of k' u = prio_of k u).
Proof.
  intros Hk Hcur Hw Hh.
  destruct (ipc_list_resume_spec k h t xs Hk Hw Hh) as (k1 & E1 & Hwk & Hh1 & Ho).
  destruct (waiter_suspended k h (t :: xs) t Hk Hw Hh) as (th & Ht & Hs); [left|].
  pose proof (wk_current _ _ _ Hwk) as Hc.
  destruct (schedule_inv k1) as (k' & E2 & Hk'); [apply Hwk|by rewrite Hc|].
  assert (sched_frame k1 k') as Hsf by (eapply schedule_frame; [apply Hwk|by rewrite Hc|done]).
  assert (threads k1 !! t = Some (set_stat (resumed_stat t k) th)) as Ht1
    by (rewrite (wk_threads _ _ _ Hwk), lookup_alter_eq; by rewrite Ht).
  destruct (sched_frame_runnable k1 k' t _ Hsf Ht1) as (s & Hs' & Hrun);
    [unfold resumed_stat; simpl; case_bool_decide; auto|].
  exists th, k1, k', s. do 3 (split; [done|]). split; [by rewrite (sf_waits _ _ Hsf)|].
  split; [intros h' ? ?; rewrite (sf_waits _ _ Hsf) by done; by apply Ho|].
  split; [done|]. split; [done|]. split; [done|].
  split; [rewrite (sf_tsys _ _ Hsf); apply Hwk|].
  split; intros u; rewrite ?(proj2 (sched_frame_view 0 _ _ Hsf)), ?(sched_frame_prio _ _ _ Hsf);
    unfold event_view, prio_of;
    rewrite (wk_threads _ _ _ Hwk), lookup_alter; (case_decide; [subst|done]); by rewrite Ht.
Qed.

Definition woke_first (h : list_head) (k k' : kernel) : Prop :=
  (lists k !! h = Some [] /\ k' = k) \/
  exists t xs th st, lists k !! h = Some (t :: xs) /\ lists k' !! h = Some xs /\
    threads k !! t = Some th /\ threads k' !! t = Some (set_stat st th) /\
    (st = RT_THREAD_READY \/ st = RT_THREAD_RUNNING) /\
    ThreadTimer t ∉ rt_timer_list (tsys k').

Lemma wake_first_spec k h :
  kernel_inv k -> is_Some (rt_current_thread k) -> is_wait h -> is_Some (lists k !! h) ->
  exists k', wake_first h k = Some k' /\ kernel_inv k' /\ woke_first h k k' /\
    (exists xs, lists k !! h = Some xs /\ lists k' !! h = Some (tail xs)) /\
    (forall h', is_wait h' -> h' <> h -> lists k' !! h' = lists k !! h').
Proof.
  intros Hk Hcur Hw [[|t xs] Hh]; unfold wake_first; rewrite Hh; cbn [mbind option_bind].
  - exists k. simpl. split_and!; try done; [by left|by exists []].
  - destruct (wake_spec k h t xs) as
      (th & k1 & k' & st & -> & E2 & Hk' & Hl & Ho & Ht & Ht' & Hst & Hn & _); try done.
    exists k'. simpl. split_and!; try done; [|by exists (t :: xs)].
    right. exists t, xs, th, st. by split_and!.
Qed.

(** Changing a priority leaves every object alone. *)
Lemma reprioritized_frame k t p th :
  kernel_inv k -> threads k !! t = Some th ->
  (forall h, is_wait h -> lists (reprioritized t p th k) !! h = lists k !! h) /\
  rt_current_thread (reprioritized t p th k) = rt_current_thread k /\
  rt_interrupt_nest (reprioritized t p th k) = rt_interrupt_nest k /\
  (forall u, event_view (reprioritized t p th k) u = event_view k u).
Proof.
  intros Hk Ht.
  assert (forall u, event_view (reprioritized t p th k) u = event_view k u) as He.
  { intros u. unfold event_view. rewrite reprioritized_threads by done. rewrite lookup_insert.
    case_decide; [subst|done]. by rewrite Ht. }
  unfold reprioritized in *. case_bool_decide as Hs; [|done].
  split_and!; try done. intros h Hw. simpl.
  rewrite lookup_insert_ne by (by intros <-).
  eapply lremove_waits; [apply Hk|done|congruence|done].
Qed.

(** A new, empty wait list. *)
Lemma object_init_inv k h :
  kernel_inv k -> is_wait h -> lists k !! h = None -> kernel_inv (rt_ipc_object_init h k).
Proof.
  intros [Hl Hp Hc Hti] Hw Hn. constructor; [|done|..].
  - destruct Hl. constructor; simpl; try done.
    + destruct li_unique0 as [Hnd Hu]. split.
      * intros j xs. rewrite lookup_insert. case_decide; [intros [= <-]; constructor|eauto].
      * intros h1 h2 xs1 xs2 t. rewrite !lookup_insert.
        repeat case_decide; intros E1 E2 H1 H2; simplify_eq; eauto;
          by apply not_elem_of_nil in H1 || apply not_elem_of_nil in H2.
    + intros p. rewrite lookup_insert_ne by (by intros ->). apply li_ready_heads0.
    + by rewrite lookup_insert_ne by (by intros ->).
    + intros p xs. rewrite lookup_insert_ne by (by intros ->). apply li_group0.
    + intros j xs t. rewrite lookup_insert. case_decide; [|eauto].
      intros [= <-] Hin. by apply not_elem_of_nil in Hin.
    + intros t th Ht Hr Hx. rewrite lookup_insert_ne by (by intros ->). eauto.
  - by eapply cur_ext; [..|exact Hc].
  - by eapply timer_inv_ext; [..|exact Hti]; simpl; eauto.
Qed.

Lemma caller_object_init k t th h : caller k t th -> caller (rt_ipc_object_init h k) t th.
Proof. intros []. by constructor. Qed.

(** ** Threads that sleep on no list *)

Definition sleeping (k : kernel) (t : Z) : Prop := exists th, threads k !! t = Some th /\ stat th = RT_THREAD_SUSPEND.
Definition runnable (k : kernel) (t : Z) : Prop :=
  exists th, threads k !! t = Some th /\ (stat th = RT_THREAD_READY \/ stat th = RT_THREAD_RUNNING).

(** A suspended thread is made ready; every other thread stays as it is. *)
Lemma resume_schedule_spec k t th :
  kernel_inv k -> is_Some (rt_current_thread k) -> threads k !! t = Some th -> stat th = RT_THREAD_SUSPEND ->
  exists k1 k' s, rt_thread_resume t k = Some (k1, RT_EOK) /\ rt_schedule k1 = Some k' /\ kernel_inv k' /\ is_Some (rt_current_thread k') /\
    threads k' !! t = Some (set_stat s th) /\ (s = RT_THREAD_READY \/ s = RT_THREAD_RUNNING) /\ ThreadTimer t ∉ rt_timer_list (tsys k') /\
    (forall u, u <> t -> sleeping k u -> sleeping k' u) /\ (forall u, u <> t -> runnable k u -> runnable k' u) /\
    (forall h, is_wait h -> lists k' !! h = (fun xs => filter (fun u => u <> t) xs) <$> lists k !! h).
Proof.
  intros Hk Hcur Ht Hs. destruct (resume_woken k t th Hk Ht Hs) as (k1 & E1 & Hwk).
  pose proof (wk_current _ _ _ Hwk) as Hc.
  destruct (schedule_inv k1) as (k' & E2 & Hk'); [apply Hwk|by rewrite Hc|].
  assert (sched_frame k1 k') as Hsf by (eapply schedule_frame; [apply Hwk|by rewrite Hc|done]).
  assert (threads k1 !! t = Some (set_stat (resumed_stat t k) th)) as Ht1
    by (rewrite (wk_threads _ _ _ Hwk), lookup_alter_eq; by rewrite Ht).
  destruct (sched_frame_runnable k1 k' t _ Hsf Ht1) as (s & Hs' & Hrun);
    [unfold resumed_stat; simpl; case_bool_decide; auto|].
  exists k1, k', s. split_and!; try done.
  - eapply schedule_current; [apply Hwk| |exact E2]. by rewrite Hc.
  - rewrite (sf_tsys _ _ Hsf). apply Hwk.
  - intros u Hne (uh & Hu & Hus). exists uh. split; [|done]. eapply sched_frame_suspended; [exact Hsf| |done].
    by rewrite (wk_threads _ _ _ Hwk), lookup_alter_ne by done.
  - intros u Hne (uh & Hu & Hus). destruct (sched_frame_runnable k1 k' u uh Hsf) as (s2 & E & H); [|done|].
    + by rewrite (wk_threads _ _ _ Hwk), lookup_alter_ne by done.
    + by eexists.
  - intros h Hw. rewrite (sf_waits _ _ Hsf) by done. by apply (wk_lists _ _ _ Hwk).
Qed.

(** The running thread suspends itself, with or without a time limit. *)
Lemma suspend_schedule_spec k t th tick :
  kernel_inv k -> caller k t th -> tick = RT_WAITING_FOREVER \/ 0 <= tick < HALF ->
  exists k1 k2 k', rt_thread_suspend t k = Some (k1, RT_EOK) /\
    (if negb (tick =? RT_WAITING_FOREVER) then start_thread_timer t tick k1 else Some k1) = Some k2 /\
    rt_schedule k2 = Some k' /\ kernel_inv k' /\ is_Some (rt_current_thread k') /\
    threads k' !! t = Some (set_stat RT_THREAD_SUSPEND th) /\
    (if negb (tick =? RT_WAITING_FOREVER) then due_of (tsys k') (ThreadTimer t) = tick /\ ThreadTimer t ∈ rt_timer_list (tsys k')
     else ThreadTimer t ∉ rt_timer_list (tsys k')) /\
    (forall u, u <> t -> sleeping k u -> sleeping k' u) /\
    (forall h, is_wait h -> lists k' !! h = (fun xs => filter (fun u => u <> t) xs) <$> lists k !! h).
Proof.
  intros Hk [Hcur Ht Hr Hn] Htick.
  destruct (suspend_spec k t th Hk Ht) as (s' & E1 & Hk1 & Hf & Hnt); [by right|].
  set (k1 := suspended t th s' k) in *. pose proof Hk1 as [Hl Hp Hc Hti].
  assert (threads k1 !! t = Some (set_stat RT_THREAD_SUSPEND th)) as Ht1 by (simpl; by rewrite lookup_alter_eq, Ht).
  assert (exists k2, (if negb (tick =? RT_WAITING_FOREVER) then start_thread_timer t tick k1 else Some k1) = Some k2 /\ kernel_inv k2 /\
    threads k2 = threads k1 /\ lists k2 = lists k1 /\ rt_current_thread k2 = Some t /\
    (if negb (tick =? RT_WAITING_FOREVER) then due_of (tsys k2) (ThreadTimer t) = tick /\ ThreadTimer t ∈ rt_timer_list (tsys k2)
     else ThreadTimer t ∉ rt_timer_list (tsys k2))) as (k2 & E2 & Hk2 & Eth & Els & Ec & Htm).
  { destruct (Z.eqb_spec tick RT_WAITING_FOREVER) as [->|Hne]; cbn [negb].
    - exists k1. by split_and!.
    - destruct Htick as [?|Htick]; [done|].
      destruct (start_thread_timer_spec k1 t tick) as (s2 & -> & Hf2 & Hin & Hd); try done.
      { eapply timer_wf_weaken; [|by apply ti_wf]. apply slack_range. }
      { by eapply (ti_exists _ Hti _ _ Ht1). }
      exists (set_tsys s2 k1). split_and!; try done. constructor.
      + by eapply link_ext; [..|exact Hl].
      + done.
      + by eapply cur_ext; [..|exact Hc].
      + eapply timer_inv_tsys; [done|exact Hf2|]. intros _. eauto. }
  destruct (schedule_inv k2 Hk2) as (k' & E3 & Hk'); [rewrite Ec; eauto|].
  assert (sched_frame k2 k') as Hsf by (eapply schedule_frame; [done|rewrite Ec; eauto|done]).
  exists k1, k2, k'. split_and!; try done.
  - eapply schedule_current; [exact Hk2| |exact E3]. by rewrite Ec.
  - eapply sched_frame_suspended; [exact Hsf|by rewrite Eth|done].
  - by rewrite (sf_tsys _ _ Hsf).
  - intros u Hne (uh & Hu & Hus). exists uh. split; [|done]. eapply sched_frame_suspended; [exact Hsf| |done].
    rewrite Eth. simpl. by rewrite lookup_alter_ne by done.
  - intros h Hw. rewrite (sf_waits _ _ Hsf), Els by done. apply lookup_lremove.
Qed.

Definition callerb (k : kernel) (t : Z) : bool :=
  bool_decide (rt_current_thread k = Some t) && bool_decide (stat <$> threads k !! t = Some RT_THREAD_RUNNING) && (rt_interrupt_nest k =? 0).

Lemma callerb_true k t : callerb k t = true -> exists th, caller k t th.
Proof.
  intros [[H1%bool_decide_eq_true H2%bool_decide_eq_true]%andb_true_iff H3%Z.eqb_eq]%andb_true_iff.
  destruct (threads k !! t) as [th|] eqn:E; [|done]. injection H2 as H2. by exists th.
Qed.

(** The started sample kernel with an IPC object 7 that nobody waits on. *)
Definition sample_ipc : kernel := rt_ipc_object_init (LSuspend 7) sample.

Lemma sample_ipc_inv : kernel_inv sample_ipc.
Proof. apply object_init_inv; [apply sample_inv|done|by vm_compute]. Qed.

Lemma sample_ipc_list : lists sample_ipc !! LSuspend 7 = Some [].
Proof. by vm_compute. Qed.

Lemma sample_ipc_caller : exists th, caller sample_ipc 1 th.
Proof.
  destruct (threads sample_ipc !! 1) as [th|] eqn:E; [|by vm_compute in E].
  exists th. constructor; [by vm_compute|done| |by vm_compute].
  assert (stat <$> threads sample_ipc !! 1 = Some RT_THREAD_RUNNING) as Es by (by vm_compute).
  rewrite E in Es. by injection Es.
Qed.

#[global] Opaque sample_ipc.

End Ipc.
