(* ===== verification/Sem.v ===== *)
(** * Counting semaphores

    Models [rt_sem_*] of [src/ipc.c].  A release hands its token to the first
    waiter directly; the value counts the tokens nobody waits for.  The
    invariant is that both do not coexist; the main results are the functional
    behaviour of take and release and the conservation of tokens over any
    sequence of calls, time-outs and other kernel activity. *)

From S2P Require Import Prelude RtList Timer KService Sched SchedInv ThreadOps Ipc.
Import RtList Timer KService Sched SchedInv ThreadOps Ipc.

Module Sem.

(** ** Data and operations *)

Record rt_semaphore := mk_sem {
  value : Z;            (** rt_uint16_t *)
  flag : Z;             (** [parent.parent.flag] *)
  static : bool;        (** [rt_object_is_systemobject] *)
}.

Definition set_value (v : Z) (s : rt_semaphore) : rt_semaphore := mk_sem v (flag s) (static s).

(** [value] is a [rt_uint32_t] argument stored into a [rt_uint16_t]. *)
Definition rt_sem_init (o v fl : Z) (k : kernel) : rt_semaphore * kernel :=
  (mk_sem (u16 v) fl true, rt_ipc_object_init (LSuspend o) k).

Definition rt_sem_create (obj : option Z) (v fl : Z) (k : kernel)
  : option (option (Z * rt_semaphore) * kernel) :=
  _ ← RT_ASSERT (rt_interrupt_nest k =? 0);
  match obj with
  | None => Some (None, k)
  | Some o => Some (Some (o, mk_sem (u16 v) fl false), rt_ipc_object_init (LSuspend o) k)
  end.

Definition rt_sem_detach (o : Z) (s : rt_semaphore) (k : kernel) : option (kernel * Z) :=
  _ ← RT_ASSERT (static s);
  k ← rt_ipc_list_resume_all (LSuspend o) k;
  Some (k, RT_EOK).

(** Deleting also frees the object: its list head is gone. *)
Definition rt_sem_delete (o : Z) (s : rt_semaphore) (k : kernel) : option (kernel * Z) :=
  _ ← RT_ASSERT (rt_interrupt_nest k =? 0);
  _ ← RT_ASSERT (negb (static s));
  k ← rt_ipc_list_resume_all (LSuspend o) k;
  Some (set_lists (delete (LSuspend o) (lists k)) k, RT_EOK).

Definition rt_sem_take (o time : Z) (s : rt_semaphore) (k : kernel)
  : option (rt_semaphore * kernel * ipc_result) :=
  if 0 <? value s then Some (set_value (u16 (value s - 1)) s, k, Done RT_EOK)
  else if time =? 0 then Some (s, k, Done (- RT_ETIMEOUT))
  else
    t ← in_thread_context k;
    let k := upd_thread t (set_error RT_EOK) k in
    k ← wait_on (LSuspend o) t (flag s) time k;
    k ← rt_schedule k;
    Some (s, k, Blocked t).

(** After the switch back. *)
Definition rt_sem_take_resume (t : Z) (k : kernel) : option Z :=
  th ← threads k !! t;
  if negb (error th =? RT_EOK) then Some (error th) else Some RT_EOK.

Definition rt_sem_trytake (o : Z) (s : rt_semaphore) (k : kernel)
  : option (rt_semaphore * kernel * ipc_result) := rt_sem_take o 0 s k.

Definition rt_sem_release (o : Z) (s : rt_semaphore) (k : kernel)
  : option (rt_semaphore * kernel * Z) :=
  xs ← lists k !! LSuspend o;
  if bool_decide (xs <> []) then
    k ← rt_ipc_list_resume (LSuspend o) k;
    k ← rt_schedule k;
    Some (s, k, RT_EOK)
  else Some (set_value (u16 (value s + 1)) s, k, RT_EOK).

Inductive sem_cmd := RT_IPC_CMD_RESET (v : Z) | RT_IPC_CMD_OTHER.

Definition rt_sem_control (o : Z) (cmd : sem_cmd) (s : rt_semaphore) (k : kernel)
  : option (rt_semaphore * kernel * Z) :=
  match cmd with
  | RT_IPC_CMD_RESET v =>
      k ← rt_ipc_list_resume_all (LSuspend o) k;
      let s := set_value (u16 v) s in
      k ← rt_schedule k;
      Some (s, k, RT_EOK)
  | RT_IPC_CMD_OTHER => Some (s, k, - RT_ERROR)
  end.

(** ** Invariant *)

Record sem_inv (o : Z) (s : rt_semaphore) (k : kernel) : Prop := {
  si_value : 0 <= value s < 2 ^ 16;
  si_flag : flag s = RT_IPC_FLAG_FIFO \/ flag s = RT_IPC_FLAG_PRIO;
  si_waiters : exists xs, lists k !! LSuspend o = Some xs /\ (0 < value s -> xs = []);
}.

#[export] Program Instance sem_object : IpcObject rt_semaphore := {| ipc_inv := sem_inv |}.
Next Obligation.
  intros o s k k' [Hv _] [? ? (xs & E & H)]. constructor; [done|done|].
  exists xs. by rewrite Hv by (by left).
Qed.
Next Obligation.
  intros o s k k' t [Hv _] [? ? (xs & E & H)]. constructor; [done|done|].
  rewrite Hv, E by (by left). eexists. split; [done|]. intros Hp. by rewrite H.
Qed.

(** ** Lemmas *)

Lemma sem_inv_lists o s k k' xs v :
  sem_inv o s k -> lists k' !! LSuspend o = Some xs -> 0 <= v < 2 ^ 16 ->
  (0 < v -> xs = []) -> sem_inv o (set_value v s) k'.
Proof. intros [? ? _] E Hv Hx. constructor; [done|done|eauto]. Qed.

Lemma caller_error k t th e :
  caller k t th -> caller (upd_thread t (set_error e) k) t (set_error e th).
Proof. intros [Hc Ht Hr Hn]. constructor; try done. simpl. by rewrite lookup_alter_eq, Ht. Qed.

Lemma event_view_upd k t f :
  (forall th, event_set (f th) = event_set th /\ event_info (f th) = event_info th) ->
  forall u, event_view (upd_thread t f k) u = event_view k u.
Proof.
  intros Hf u. unfold event_view. simpl. rewrite lookup_alter. case_decide; [subst|done].
  destruct (threads k !! u) as [th|]; [simpl|done]. destruct (Hf th). congruence.
Qed.

(** The three ways [rt_sem_take] ends. *)
Lemma sem_take_spec o s k cur cth time :
  kernel_inv k -> sem_inv o s k -> caller k cur cth -> time < HALF ->
  exists s' k' r, rt_sem_take o time s k = Some (s', k', r) /\
    kernel_inv k' /\ sem_inv o s' k' /\
    ((0 < value s /\ r = Done RT_EOK /\ s' = set_value (value s - 1) s /\ k' = k) \/
     (value s = 0 /\ time = 0 /\ r = Done (- RT_ETIMEOUT) /\ s' = s /\ k' = k) \/
     (value s = 0 /\ time <> 0 /\ r = Blocked cur /\ s' = s /\
      exists ys zs, lists k !! LSuspend o = Some (ys ++ zs) /\
        lists k' !! LSuspend o = Some (ys ++ cur :: zs) /\
        queue_pos (flag s) k (current_priority cth) ys zs /\
        threads k' !! cur = Some (set_stat RT_THREAD_SUSPEND (set_error RT_EOK cth)) /\
        (0 < time -> due_of (tsys k') (ThreadTimer cur) = time))).
Proof.
  intros Hk Hs Hca Htm. pose proof Hs as [Hv Hf (xs & Exs & Hx)]. unfold rt_sem_take.
  destruct (Z.ltb_spec 0 (value s)) as [Hpos|Hz].
  { rewrite wrapu_small by lia. do 3 eexists. split; [done|]. split; [done|].
    split; [|by left]. apply (sem_inv_lists o s k k xs); [done|done|lia|]. intros _. auto. }
  assert (value s = 0) as Hv0 by lia.
  destruct (Z.eqb_spec time 0) as [->|Hne].
  { do 3 eexists. split; [done|]. split; [done|]. split; [done|]. auto 10. }
  rewrite (in_thread_context_caller k cur cth Hca). cbn [mbind option_bind].
  set (k1 := upd_thread cur (set_error RT_EOK) k).
  destruct (block_spec k1 (LSuspend o) cur (set_error RT_EOK cth) (flag s) time xs)
    as (ys & zs & k2 & k' & E1 & E2 & -> & Hq & Hk' & Hl & _ & Hth & _ & _ & Hti); try done.
  { by apply kernel_upd_same. }
  { by apply caller_error. }
  rewrite E1. cbn [mbind option_bind]. rewrite E2. cbn [mbind option_bind].
  do 3 eexists. split; [done|]. split; [done|]. split.
  - constructor; [done|done|]. eexists. split; [done|lia].
  - right; right. do 4 (split; [done|]). exists ys, zs. do 2 (split; [done|]).
    split; [|split; [done|]].
    + eapply queue_pos_ext; [|exact Hq]. intros u _. symmetry. by apply prio_of_upd.
    + intros Hp. rewrite (proj2 (Z.ltb_lt 0 time) Hp) in Hti. by destruct Hti.
Qed.

(** Release: hand over to the first waiter, or count. *)
Lemma sem_release_spec o s k :
  kernel_inv k -> sem_inv o s k -> is_Some (rt_current_thread k) ->
  exists s' k', rt_sem_release o s k = Some (s', k', RT_EOK) /\ kernel_inv k' /\
    sem_inv o s' k' /\
    ((lists k !! LSuspend o = Some [] /\ s' = set_value (u16 (value s + 1)) s /\ k' = k) \/
     (exists t xs th st, lists k !! LSuspend o = Some (t :: xs) /\
        value s = 0 /\ s' = s /\ lists k' !! LSuspend o = Some xs /\
        threads k !! t = Some th /\ threads k' !! t = Some (set_stat st th) /\
        (st = RT_THREAD_READY \/ st = RT_THREAD_RUNNING) /\
        ThreadTimer t ∉ rt_timer_list (tsys k'))).
Proof.
  intros Hk Hs Hcur. pose proof Hs as [Hv Hf (xs & Exs & Hx)]. unfold rt_sem_release.
  rewrite Exs. cbn [mbind option_bind]. destruct xs as [|t xs]; simpl.
  { do 2 eexists. split; [done|]. split; [done|]. split; [|by left].
    apply (sem_inv_lists o s k k []); [done|done| |done].
    pose proof (wrapu_range 16 (value s + 1)). lia. }
  destruct (wake_spec k (LSuspend o) t xs) as
    (th & k1 & k' & st & -> & E2 & Hk' & Hl & _ & Ht & Ht' & Hst & Hn & _); try done.
  cbn [mbind option_bind]. rewrite E2. cbn [mbind option_bind].
  assert (value s = 0) as Hv0.
  { destruct (decide (0 < value s)) as [Hp|]; [by specialize (Hx Hp)|lia]. }
  do 2 eexists. split; [done|]. split; [done|]. split.
  - constructor; [done|done|]. eexists. split; [done|lia].
  - right. exists t, xs, th, st. by split_and!.
Qed.

(** ** Histories

    [sem_trace o v0 rel got s k]: the semaphore started with [v0] tokens, since
    then [rel] releases have been made and [got] takes have been granted, by a
    take that found a token or by a release that found a waiter. *)
Inductive sem_trace (o v0 : Z) : Z -> Z -> rt_semaphore -> kernel -> Prop :=
  | tr_start s k :
      kernel_inv k -> sem_inv o s k -> value s = v0 -> sem_trace o v0 0 0 s k
  | tr_take rel got s k cur cth time s' k' r :
      sem_trace o v0 rel got s k -> caller k cur cth -> time < HALF ->
      rt_sem_take o time s k = Some (s', k', r) ->
      sem_trace o v0 rel (match r with Done 0 => got + 1 | _ => got end) s' k'
  | tr_release rel got s k s' k' e :
      sem_trace o v0 rel got s k -> is_Some (rt_current_thread k) -> value s < 0xffff ->
      rt_sem_release o s k = Some (s', k', e) ->
      sem_trace o v0 (rel + 1)
        (if bool_decide (lists k !! LSuspend o = Some []) then got else got + 1) s' k'
  | tr_kernel rel got s k k' :
      sem_trace o v0 rel got s k -> kernel_inv k' ->
      same_view o k k' \/ (exists t, one_leaves o t k k') ->
      sem_trace o v0 rel got s k'.

Lemma sem_trace_inv o v0 rel got s k :
  sem_trace o v0 rel got s k ->
  kernel_inv k /\ sem_inv o s k /\ value s + got = v0 + rel.
Proof.
  induction 1 as [s k Hk Hs Hv
    | rel got s k cur cth time s' k' r _ (Hk & Hs & Hv) Hca Htm E
    | rel got s k s' k' e _ (Hk & Hs & Hv) Hcur Hlt E
    | rel got s k k' _ (Hk & Hs & Hv) Hk' Hstep].
  - split_and!; try done. lia.
  - destruct (sem_take_spec o s k cur cth time Hk Hs Hca Htm)
      as (s2 & k2 & r2 & E2 & Hk2 & Hs2 & Hcase).
    rewrite E2 in E. injection E as <- <- <-. split; [done|]. split; [done|].
    destruct Hcase as [(_ & -> & -> & _)|[(_ & _ & -> & -> & _)|(_ & _ & -> & -> & _)]];
      simpl; lia.
  - destruct (sem_release_spec o s k Hk Hs Hcur) as (s2 & k2 & E2 & Hk2 & Hs2 & Hcase).
    rewrite E2 in E. injection E as <- <- _. split; [done|]. split; [done|].
    pose proof (si_value _ _ _ Hs).
    destruct Hcase as [(-> & -> & _)|(t & xs & ? & ? & -> & ? & -> & _)]; simpl.
    + rewrite wrapu_small by lia. lia.
    + lia.
  - split; [done|]. split; [|done].
    destruct Hstep as [?|[t ?]]; [by eapply (ipc_inv_view (IpcObject:=sem_object))|by eapply (ipc_inv_leave (IpcObject:=sem_object))].
Qed.

(** ** Theorems *)

Definition sample_sem : rt_semaphore := mk_sem 0 RT_IPC_FLAG_PRIO true.

Lemma sample_sem_inv : sem_inv 7 sample_sem sample_ipc.
Proof.
  constructor; [done|by right|]. exists []. split; [apply sample_ipc_list|done].
Qed.

(** rt_sem_take takes a token if there is one; with none it returns
    -RT_ETIMEOUT at once for time 0, and otherwise suspends the caller at
    its place in the wait queue (FIFO or priority order) with its timer due
    after exactly time ticks; it never faults and preserves both invariants. *)
Theorem rt_sem_take_correct o s k cur cth time :
  kernel_inv k -> sem_inv o s k -> caller k cur cth -> time < HALF ->
  exists s' k' r, rt_sem_take o time s k = Some (s', k', r) /\
    kernel_inv k' /\ sem_inv o s' k' /\
    ((0 < value s /\ r = Done RT_EOK /\ s' = set_value (value s - 1) s /\ k' = k) \/
     (value s = 0 /\ time = 0 /\ r = Done (- RT_ETIMEOUT) /\ s' = s /\ k' = k) \/
     (value s = 0 /\ time <> 0 /\ r = Blocked cur /\ s' = s /\
      exists ys zs, lists k !! LSuspend o = Some (ys ++ zs) /\
        lists k' !! LSuspend o = Some (ys ++ cur :: zs) /\
        queue_pos (flag s) k (current_priority cth) ys zs /\
        threads k' !! cur = Some (set_stat RT_THREAD_SUSPEND (set_error RT_EOK cth)) /\
        (0 < time -> due_of (tsys k') (ThreadTimer cur) = time))).
Proof. apply sem_take_spec. Qed.

Lemma rt_sem_take_correct_witness :
  exists k', rt_sem_take 7 50 sample_sem sample_ipc = Some (sample_sem, k', Blocked 1) /\
    due_of (tsys k') (ThreadTimer 1) = 50.
Proof.
  destruct sample_ipc_caller as [cth Hca].
  destruct (rt_sem_take_correct 7 sample_sem sample_ipc 1 cth 50 sample_ipc_inv
    sample_sem_inv Hca) as (s' & k' & r & E & _ & _ & H); [by vm_compute|].
  destruct H as [[H _]|[(_ & H & _)|(_ & _ & -> & -> & ys & zs & _ & _ & _ & _ & Hd)]];
    [by vm_compute in H|done|].
  exists k'. split; [done|]. by apply Hd.
Defined.

(** C9. rt_sem_release hands the token to the first waiter, which becomes
    runnable with its timer disarmed while the count stays 0; with no waiter
    it increments the count modulo 2^16. Both invariants are preserved. *)
Theorem rt_sem_release_correct o s k :
  kernel_inv k -> sem_inv o s k -> is_Some (rt_current_thread k) ->
  exists s' k', rt_sem_release o s k = Some (s', k', RT_EOK) /\ kernel_inv k' /\
    sem_inv o s' k' /\
    ((lists k !! LSuspend o = Some [] /\ s' = set_value (u16 (value s + 1)) s /\ k' = k) \/
     (exists t xs th st, lists k !! LSuspend o = Some (t :: xs) /\
        value s = 0 /\ s' = s /\ lists k' !! LSuspend o = Some xs /\
        threads k !! t = Some th /\ threads k' !! t = Some (set_stat st th) /\
        (st = RT_THREAD_READY \/ st = RT_THREAD_RUNNING) /\
        ThreadTimer t ∉ rt_timer_list (tsys k'))).
Proof. apply sem_release_spec. Qed.

(** The 65536th token is lost together with all the others. *)
Lemma rt_sem_release_correct_witness :
  exists s', rt_sem_release 7 (mk_sem 0xffff RT_IPC_FLAG_FIFO true) sample_ipc =
             Some (s', sample_ipc, RT_EOK) /\ value s' = 0.
Proof.
  destruct (rt_sem_release_correct 7 (mk_sem 0xffff RT_IPC_FLAG_FIFO true) sample_ipc
    sample_ipc_inv) as (s' & k' & E & _ & _ & H).
  - constructor; [done|by left|]. exists []. split; [apply sample_ipc_list|done].
  - by vm_compute; eexists.
  - destruct H as [(_ & -> & ->)|(t & xs & th & st & H & _)].
    + eexists. split; [exact E|]. by vm_compute.
    + rewrite sample_ipc_list in H. done.
Defined.



End Sem.
