(* ===== verification/Clock.v ===== *)
(** * The tick interrupt and timer expiry

    Models [rt_timer_check] of [src/timer.c], [rt_tick_increase] of
    [src/clock.c], the interrupt nesting counter of [src/irq.c] and the
    [SysTick_Handler] of [drv_common.c].  Timeout functions other than
    [rt_thread_timeout] belong to the application: they are a parameter, and
    [TimerCallbacks] states the discipline a callback has to follow. *)

From S2P Require Import Prelude RtList Timer KService Sched SchedInv ThreadOps Ipc.
Import RtList Timer KService Sched SchedInv ThreadOps Ipc.
From Stdlib Require Import Sorted.

Module Clock.

(** ** Interrupt nesting *)

Definition set_nest (x : Z) (k : kernel) : kernel :=
  mk_kernel (threads k) (lists k) (rt_thread_ready_priority_group k)
    (rt_scheduler_lock_nest k) x (rt_current_thread k) (rt_current_priority k)
    (thread_objects k) (tsys k).

Definition rt_interrupt_enter (k : kernel) : kernel := set_nest (u8 (rt_interrupt_nest k + 1)) k.
Definition rt_interrupt_leave (k : kernel) : kernel := set_nest (u8 (rt_interrupt_nest k - 1)) k.
Definition rt_interrupt_get_nest (k : kernel) : Z := rt_interrupt_nest k.

Section clock.

(** The application's timeout functions: function number and parameter. *)
Variable callback : Z -> Z -> kernel -> option kernel.

(** ** Operations *)

Definition call_timeout (f : timeout_fn) (param : Z) (k : kernel) : option kernel :=
  match f with
  | rt_thread_timeout_fn => rt_thread_timeout param k
  | user_timeout_fn f => callback f param k
  end.

(** One iteration of the [while] loop per unit of fuel. *)
Fixpoint timer_check_loop (fuel : nat) (current_tick : Z) (k : kernel) : option kernel :=
  match rt_timer_list (tsys k) with
  | [] => Some k
  | id :: _ =>
      match fuel with
      | O => None
      | S fuel =>
          t ← timers (tsys k) !! id;
          if expired current_tick (timeout_tick t) then
            let k := set_tsys (_rt_timer_remove id (tsys k)) k in
            k ← call_timeout (timeout_func t) (parameter t) k;
            let current_tick := rt_tick_get (tsys k) in
            t ← timers (tsys k) !! id;
            let periodic := has_flag RT_TIMER_FLAG_PERIODIC t
                            && has_flag RT_TIMER_FLAG_ACTIVATED t in
            let k := set_tsys (with_timer id (clear_flag RT_TIMER_FLAG_ACTIVATED t) (tsys k)) k in
            if periodic then
              s ← rt_timer_start id (tsys k);
              timer_check_loop fuel current_tick (set_tsys s k)
            else timer_check_loop fuel current_tick k
          else Some k
      end
  end.

Definition rt_timer_check (k : kernel) : option kernel :=
  timer_check_loop (S (length (rt_timer_list (tsys k)))) (rt_tick_get (tsys k)) k.

Definition rt_tick_increase (k : kernel) : option kernel :=
  let k := set_tsys (rt_tick_set (u32 (rt_tick (tsys k) + 1)) (tsys k)) k in
  thread ← rt_thread_self k;
  th ← threads k !! thread;
  let r := u32 (remaining_tick th - 1) in
  k ← (if r =? 0 then
         '(k, _) ← rt_thread_yield (upd_thread thread (set_remaining (slice th)) k); Some k
       else Some (upd_thread thread (set_remaining r) k));
  rt_timer_check k.

(** [HAL_IncTick] only counts for the vendor library. *)
Definition SysTick_Handler (k : kernel) : option kernel :=
  let k := rt_interrupt_enter k in
  k ← rt_tick_increase k;
  Some (rt_interrupt_leave k).

(** ** Discipline of callbacks *)

Definition overdue (s : timer_sys) (j : timer_id) : Prop :=
  j ∈ rt_timer_list s /\ due_of s j <= 0.

(** User timers call user functions, and a periodic one has a positive period:
    a period of 0 would expire again at once, forever. *)
Definition user_timers_ok (s : timer_sys) : Prop :=
  forall n tm, timers s !! UserTimer n = Some tm ->
    (exists f, timeout_func tm = user_timeout_fn f) /\
    (has_flag RT_TIMER_FLAG_PERIODIC tm = true -> 0 < init_tick tm < HALF).

(** What running the timeout function of the unlinked timer [id] may do. *)
Record timeout_post (id : timer_id) (k k' : kernel) : Prop := {
  tp_inv : kernel_inv k';
  tp_current : is_Some (rt_current_thread k');
  tp_nest : rt_interrupt_nest k' = rt_interrupt_nest k;
  tp_tick : rt_tick (tsys k') = rt_tick (tsys k);
  tp_overdue : forall j, overdue (tsys k') j -> overdue (tsys k) j;
  tp_unlinked : id ∉ rt_timer_list (tsys k');
  tp_exists : is_Some (timers (tsys k') !! id);
  tp_user : user_timers_ok (tsys k');
}.

Class TimerCallbacks : Prop := {
  callback_ok : forall f p n k,
    kernel_inv k -> is_Some (rt_current_thread k) -> user_timers_ok (tsys k) ->
    is_Some (timers (tsys k) !! UserTimer n) -> UserTimer n ∉ rt_timer_list (tsys k) ->
    exists k', callback f p k = Some k' /\ timeout_post (UserTimer n) k k';
}.

(** ** Expiry *)

Lemma set_tsys_inv k s' :
  kernel_inv k -> timer_wf (slack k) s' ->
  (forall u, thread_timer_ok u (tsys k) -> thread_timer_ok u s') ->
  (forall t, ThreadTimer t ∈ rt_timer_list s' -> ThreadTimer t ∈ rt_timer_list (tsys k)) ->
  kernel_inv (set_tsys s' k).
Proof.
  intros [Hl Hp Hc [Hw He Hs]] Hw' Hok Hsub. constructor.
  - by eapply link_ext; [..|exact Hl].
  - done.
  - by eapply cur_ext; [..|exact Hc].
  - constructor; simpl; eauto.
Qed.

Lemma remove_timer_inv k id : kernel_inv k -> kernel_inv (set_tsys (_rt_timer_remove id (tsys k)) k).
Proof.
  intros Hk. apply set_tsys_inv; [done|apply timer_wf_remove, Hk|done|].
  intros t Ht. simpl in Ht. by apply list_elem_of_filter in Ht as [_ ?].
Qed.

(** In a sorted list, a head that has not expired means nothing has. *)
Lemma sorted_head_due s id l :
  rt_timer_list s = id :: l ->
  StronglySorted (fun i j => due_of s i <= due_of s j) (rt_timer_list s) ->
  forall j, j ∈ rt_timer_list s -> due_of s id <= due_of s j.
Proof.
  intros E Hs j Hj. rewrite E in *. apply StronglySorted_inv in Hs as [_ Hf].
  apply elem_of_cons in Hj as [->|Hj]; [lia|]. rewrite Forall_forall in Hf. by apply Hf.
Qed.

Lemma due_bounds k j :
  kernel_inv k -> j ∈ rt_timer_list (tsys k) -> -1 <= due_of (tsys k) j < HALF.
Proof.
  intros Hk Hj. pose proof (tw_linked _ _ (ti_wf _ (kv_timer _ Hk))) as Hl.
  rewrite Forall_forall in Hl. pose proof (linked_due _ _ _ (Hl j Hj)).
  pose proof (slack_range k). lia.
Qed.

(** The number of overdue timers, which each iteration decreases. *)
Definition overdue_list (s : timer_sys) : list timer_id :=
  filter (fun j => due_of s j <= 0) (rt_timer_list s).

Lemma overdue_list_spec s j : j ∈ overdue_list s <-> overdue s j.
Proof. unfold overdue_list, overdue. rewrite list_elem_of_filter. tauto. Qed.

Lemma overdue_decreases k id s2 :
  kernel_inv k -> overdue (tsys k) id -> NoDup (rt_timer_list s2) ->
  (forall j, overdue s2 j -> overdue (tsys k) j /\ j <> id) ->
  (length (overdue_list s2) < length (overdue_list (tsys k)))%nat.
Proof.
  intros Hk Hid Hnd Hsub. apply (submseteq_length (id :: overdue_list s2)).
  apply NoDup_submseteq.
  - apply NoDup_cons. split; [|by apply NoDup_filter].
    rewrite overdue_list_spec. intros H. by apply Hsub in H as [_ ?].
  - intros j [->|Hj]%elem_of_cons; rewrite overdue_list_spec; [done|].
    apply overdue_list_spec in Hj. by apply Hsub.
Qed.

Lemma thread_timeout_post k t th :
  kernel_inv k -> is_Some (rt_current_thread k) -> user_timers_ok (tsys k) ->
  threads k !! t = Some th -> stat th = RT_THREAD_SUSPEND ->
  ThreadTimer t ∉ rt_timer_list (tsys k) ->
  exists k', rt_thread_timeout t k = Some k' /\ timeout_post (ThreadTimer t) k k' /\
    tsys k' = tsys k.
Proof.
  intros Hk Hcur Hu Ht Hs Hn.
  destruct (timeout_spec k t th Hk Ht Hs Hn Hcur) as (E & Hki & k' & E' & Hk').
  exists k'. split; [done|]. rewrite E in E'.
  assert (sched_frame (inserted t (set_error (- RT_ETIMEOUT) th)
    (tlist_remove t (upd_thread t (set_error (- RT_ETIMEOUT)) k))) k') as Hsf.
  { eapply schedule_frame; [done|by rewrite inserted_current|done]. }
  assert (tsys k' = tsys k) as Ets by (rewrite (sf_tsys _ _ Hsf), inserted_tsys; done).
  split; [|done]. constructor; rewrite ?Ets; try done.
  - destruct Hcur as [c Hc].
    eapply schedule_current; [exact Hki| |exact E']. rewrite inserted_current. eauto.
  - rewrite (sf_nest _ _ Hsf). by rewrite inserted_nest.
  - destruct (ti_exists _ (kv_timer _ Hk) _ _ Ht) as (tm & ? & _); [congruence|eauto].
Qed.

Lemma user_timers_with id tm tm' s :
  user_timers_ok s -> timers s !! id = Some tm ->
  timeout_func tm' = timeout_func tm -> init_tick tm' = init_tick tm ->
  has_flag RT_TIMER_FLAG_PERIODIC tm' = has_flag RT_TIMER_FLAG_PERIODIC tm ->
  forall s', timers s' = <[id := tm']> (timers s) -> user_timers_ok s'.
Proof.
  intros Hu Hid Hf Hi Hp s' E n tmn. rewrite E, lookup_insert. case_decide; [|apply Hu].
  intros [= <-]. subst. rewrite Hf, Hi, Hp. by apply (Hu n tm).
Qed.

(** The end of an iteration: mark the timer inactive or start it again. *)
Definition rearm (id : timer_id) (t : rt_timer) (k : kernel) : option kernel :=
  let k2 := set_tsys (with_timer id (clear_flag RT_TIMER_FLAG_ACTIVATED t) (tsys k)) k in
  if has_flag RT_TIMER_FLAG_PERIODIC t && has_flag RT_TIMER_FLAG_ACTIVATED t
  then s ← rt_timer_start id (tsys k2); Some (set_tsys s k2) else Some k2.

Lemma check_loop_step fuel tick id l k t :
  rt_timer_list (tsys k) = id :: l -> timers (tsys k) !! id = Some t ->
  expired tick (timeout_tick t) = true ->
  timer_check_loop (S fuel) tick k =
    (k1 ← call_timeout (timeout_func t) (parameter t)
            (set_tsys (_rt_timer_remove id (tsys k)) k);
     t1 ← timers (tsys k1) !! id;
     k3 ← rearm id t1 k1;
     timer_check_loop fuel (rt_tick_get (tsys k1)) k3).
Proof.
  intros El Ht He. cbn [timer_check_loop]. rewrite El, Ht. cbn [mbind option_bind]. rewrite He.
  destruct (call_timeout _ _ _) as [k1|]; cbn [mbind option_bind]; [|done].
  destruct (timers (tsys k1) !! id) as [t1|]; cbn [mbind option_bind]; [|done].
  unfold rearm. destruct (_ && _); [|done].
  by destruct (rt_timer_start id _).
Qed.

Lemma rearm_inv id tm k :
  kernel_inv k -> user_timers_ok (tsys k) -> timers (tsys k) !! id = Some tm ->
  id ∉ rt_timer_list (tsys k) ->
  (forall t, id = ThreadTimer t -> has_flag RT_TIMER_FLAG_PERIODIC tm = false) ->
  exists k3, rearm id tm k = Some k3 /\ kernel_inv k3 /\ user_timers_ok (tsys k3) /\
    rt_tick (tsys k3) = rt_tick (tsys k) /\
    rt_current_thread k3 = rt_current_thread k /\ rt_interrupt_nest k3 = rt_interrupt_nest k /\
    (forall j, overdue (tsys k3) j -> overdue (tsys k) j).
Proof.
  intros Hk Hu Htm Hn Hth. unfold rearm.
  set (s2 := with_timer id _ _). set (k2 := set_tsys s2 k).
  assert (forall u, thread_timer_ok u (tsys k) -> thread_timer_ok u s2) as Hok2.
  { intros u Hou. eapply timer_ok_with; [exact Htm| | | |exact Hou|reflexivity]; try done.
    apply periodic_clear_activated. }
  assert (user_timers_ok s2) as Hu2.
  { eapply user_timers_with; [exact Hu|exact Htm| | | |reflexivity]; try done.
    apply periodic_clear_activated. }
  assert (timer_wf (slack k) s2) as Hw2 by (apply timer_wf_with_timer; [apply Hk|done]).
  assert (forall j, j ∈ rt_timer_list (tsys k) -> due_of s2 j = due_of (tsys k) j) as Hd2.
  { intros j Hj. unfold due_of, s2. simpl. rewrite lookup_insert_ne by (by intros ->). done. }
  assert (kernel_inv k2) as Hk2 by (by apply set_tsys_inv).
  destruct (_ && _) eqn:Hb.
  - apply andb_true_iff in Hb as [Hp _].
    destruct id as [t|n]; [by rewrite (Hth t eq_refl) in Hp|].
    destruct (Hu n tm Htm) as [_ Hi]. specialize (Hi Hp).
    change (tsys k2) with s2.
    destruct (timer_start_spec (slack k) s2 (UserTimer n) (clear_flag RT_TIMER_FLAG_ACTIVATED tm))
      as (s3 & tm3 & l1 & l2 & -> & Hw3 & Et & Etm & _ & Ei & Hdue & Ef & Epa & Efl & El & El3 & _).
    { apply slack_range. }
    { done. }
    { simpl. by rewrite lookup_insert_eq. }
    { simpl. lia. }
    cbn [mbind option_bind]. eexists. split; [done|].
    assert (timers s3 = <[UserTimer n := tm3]> (timers (tsys k))) as Etm'
      by (rewrite Etm; simpl; by rewrite insert_insert_eq).
    assert (has_flag RT_TIMER_FLAG_PERIODIC tm3 = has_flag RT_TIMER_FLAG_PERIODIC tm) as Epe.
    { unfold has_flag at 1. rewrite Efl. fold (has_flag RT_TIMER_FLAG_PERIODIC
        (add_flag RT_TIMER_FLAG_ACTIVATED (clear_flag RT_TIMER_FLAG_ACTIVATED
          (clear_flag RT_TIMER_FLAG_ACTIVATED tm)))).
      by rewrite periodic_add_activated, !periodic_clear_activated. }
    simpl in El. rewrite filter_absent in El by done.
    split; [|split; [|split; [done|split; [done|split; [done|]]]]].
    + change (set_tsys s3 k2) with (set_tsys s3 k). apply set_tsys_inv; [done|done|..].
      * intros u Hou. eapply timer_ok_with; [exact Htm| | | |exact Hou|exact Etm']; try done.
      * intros t. rewrite El3, El, !elem_of_app, elem_of_cons. naive_solver.
    + simpl. eapply user_timers_with; [exact Hu|exact Htm| | | |exact Etm']; try done.
    + simpl. intros j [Hj Hdj]. destruct (decide (j = UserTimer n)) as [->|Hne].
      * unfold due_of in Hdj. rewrite Etm', lookup_insert_eq, Et in Hdj. simpl in *. lia.
      * split; [rewrite El3 in Hj; rewrite El; set_solver|].
        unfold due_of in *. rewrite Etm', lookup_insert_ne, Et in Hdj by done. done.
  - eexists. split; [done|]. split; [done|]. split; [done|]. do 3 (split; [done|]).
    intros j [Hj Hdj]. split; [done|]. by rewrite <- Hd2.
Qed.

Context `{!TimerCallbacks}.

(** Running the timeout function of the head timer, once it is unlinked. *)
Lemma call_timeout_post k id l t :
  kernel_inv k -> is_Some (rt_current_thread k) -> user_timers_ok (tsys k) ->
  rt_timer_list (tsys k) = id :: l -> timers (tsys k) !! id = Some t ->
  let k0 := set_tsys (_rt_timer_remove id (tsys k)) k in
  exists k1 t1, call_timeout (timeout_func t) (parameter t) k0 = Some k1 /\
    timeout_post id k0 k1 /\ timers (tsys k1) !! id = Some t1 /\
    (forall u, id = ThreadTimer u -> has_flag RT_TIMER_FLAG_PERIODIC t1 = false).
Proof.
  intros Hk Hcur Hu El Ht k0.
  assert (kernel_inv k0) as Hk0 by (by apply remove_timer_inv).
  assert (id ∉ rt_timer_list (tsys k0)) as Hn by apply not_linked_remove.
  destruct id as [u|n].
  - destruct (ti_suspended _ (kv_timer _ Hk) u) as (th & Hth & Hs); [rewrite El; left|].
    destruct (ti_exists _ (kv_timer _ Hk) u th Hth) as (tm & Etm & Hf & Hp & Hper); [congruence|].
    assert (tm = t) as -> by congruence. rewrite Hf, Hp.
    destruct (thread_timeout_post k0 u th) as (k1 & E & Hpost & Ets); try done.
    exists k1, t. rewrite Ets. by split_and!.
  - destruct (Hu n t Ht) as [(f & ->) _].
    destruct (callback_ok f (parameter t) n k0) as (k1 & E & Hpost); try done.
    destruct (tp_exists _ _ _ Hpost) as [t1 Ht1]. exists k1, t1. by split_and!.
Qed.

Lemma check_loop_inv fuel : forall k,
  kernel_inv k -> is_Some (rt_current_thread k) -> user_timers_ok (tsys k) ->
  (length (overdue_list (tsys k)) < fuel)%nat ->
  exists k', timer_check_loop fuel (rt_tick (tsys k)) k = Some k' /\ kernel_inv k' /\
    (forall j, j ∈ rt_timer_list (tsys k') -> 0 < due_of (tsys k') j) /\
    rt_tick (tsys k') = rt_tick (tsys k) /\ rt_interrupt_nest k' = rt_interrupt_nest k /\
    is_Some (rt_current_thread k') /\ user_timers_ok (tsys k').
Proof.
  induction fuel as [|fuel IH]; intros k Hk Hcur Hu Hfuel; [lia|].
  destruct (rt_timer_list (tsys k)) as [|id l] eqn:El.
  { exists k. cbn [timer_check_loop]. rewrite El. split_and!; try done.
    intros j Hj. by apply not_elem_of_nil in Hj. }
  assert (id ∈ rt_timer_list (tsys k)) as Hin by (rewrite El; left).
  pose proof (due_bounds k id Hk Hin) as Hb. pose proof (ti_wf _ (kv_timer _ Hk)) as [Hnd Hl Hs].
  destruct (proj1 (Forall_forall _ _) Hl id Hin) as (t & Ht & _).
  assert (due_of (tsys k) id = due (rt_tick (tsys k)) t) as Hd by (unfold due_of; by rewrite Ht).
  assert (expired (rt_tick (tsys k)) (timeout_tick t) = (due_of (tsys k) id <=? 0)) as He.
  { rewrite Hd. apply expired_due. assert (HALF = 0x7fffffff) by reflexivity. lia. }
  destruct (Z.leb_spec (due_of (tsys k) id) 0) as [Hle|Hgt].
  2: { exists k. cbn [timer_check_loop]. rewrite El, Ht. cbn [mbind option_bind]. rewrite He.
       split_and!; try done. intros j Hj. rewrite <- El in Hj.
       pose proof (sorted_head_due (tsys k) id l El Hs j Hj). lia. }
  rewrite (check_loop_step fuel _ id l k t El Ht He).
  destruct (call_timeout_post k id l t Hk Hcur Hu El Ht) as (k1 & t1 & -> & Hpost & Ht1 & Hper).
  cbn [mbind option_bind]. rewrite Ht1. cbn [mbind option_bind].
  destruct Hpost as [Hk1 Hc1 Hn1 Htk1 Ho1 Hid1 _ Hu1].
  destruct (rearm_inv id t1 k1 Hk1 Hu1 Ht1 Hid1 Hper)
    as (k3 & -> & Hk3 & Hu3 & Htk3 & Hc3 & Hn3 & Ho3).
  cbn [mbind option_bind]. unfold rt_tick_get. rewrite <- Htk3.
  destruct (IH k3) as (k' & E & Hk' & Hdue & Htk & Hne & Hc & Huu); try done.
  - by rewrite Hc3.
  - apply Nat.succ_lt_mono. eapply Nat.le_lt_trans; [|exact Hfuel].
    apply (overdue_decreases k id (tsys k3)); [done|done|by apply (ti_wf _ (kv_timer _ Hk3))|].
    intros j Hj. apply Ho3, Ho1 in Hj as [Hj Hdj]. simpl in Hj.
    apply list_elem_of_filter in Hj as [Hne Hj]. by repeat split.
  - exists k'. split; [done|]. split; [done|]. split; [done|]. simpl in *. split_and!; congruence || done.
Qed.

Lemma timer_check_inv k :
  kernel_inv k -> is_Some (rt_current_thread k) -> user_timers_ok (tsys k) ->
  exists k', rt_timer_check k = Some k' /\ kernel_inv k' /\
    (forall j, j ∈ rt_timer_list (tsys k') -> 0 < due_of (tsys k') j) /\
    rt_tick (tsys k') = rt_tick (tsys k) /\ rt_interrupt_nest k' = rt_interrupt_nest k /\
    is_Some (rt_current_thread k') /\ user_timers_ok (tsys k').
Proof.
  intros. apply check_loop_inv; try done. unfold overdue_list.
  pose proof (length_filter (fun j => due_of (tsys k) j <= 0) (rt_timer_list (tsys k))). lia.
Qed.

(** ** One tick *)

Lemma due_tick tick tm :
  0 <= due tick tm -> due (u32 (tick + 1)) tm = due tick tm - 1.
Proof.
  intros Hd. unfold due in *. destruct (wrapu_cong 32 (tick + 1)) as [c ->]; [lia|].
  unfold wraps in *. replace (timeout_tick tm - (tick + 1 + c * 2 ^ 32) + 2 ^ (32 - 1))
    with (timeout_tick tm - tick + 2 ^ (32 - 1) - 1 + (- c) * 2 ^ 32) by lia.
  rewrite Z_mod_plus_full. zlia.
Qed.

Lemma timer_wf_tick s :
  timer_wf 0 s -> timer_wf (-1) (rt_tick_set (u32 (rt_tick s + 1)) s).
Proof.
  intros [Hn Hl Hs].
  assert (forall j, j ∈ rt_timer_list s ->
    due_of (rt_tick_set (u32 (rt_tick s + 1)) s) j = due_of s j - 1) as Hd.
  { intros j Hj. rewrite Forall_forall in Hl. destruct (Hl j Hj) as (tm & E & _ & ?).
    unfold due_of. simpl. rewrite E. apply due_tick. lia. }
  constructor; simpl; [done|..].
  - rewrite Forall_forall in Hl |- *. intros j Hj. destruct (Hl j Hj) as (tm & E & ? & Hb).
    exists tm. split; [done|]. split; [done|]. simpl. rewrite due_tick by lia. lia.
  - eapply StronglySorted_ext; [|exact Hs]. simpl. intros x y Hx Hy Hle. rewrite !Hd by done. lia.
Qed.

Lemma tick_increase_inv k :
  kernel_inv k -> timer_wf 0 (tsys k) -> rt_interrupt_nest k <> 0 ->
  is_Some (rt_current_thread k) -> user_timers_ok (tsys k) ->
  exists k', rt_tick_increase k = Some k' /\ kernel_inv k' /\
    (forall j, j ∈ rt_timer_list (tsys k') -> 0 < due_of (tsys k') j) /\
    rt_tick (tsys k') = u32 (rt_tick (tsys k) + 1) /\
    rt_interrupt_nest k' = rt_interrupt_nest k /\
    is_Some (rt_current_thread k') /\ user_timers_ok (tsys k').
Proof.
  intros Hk Hw Hne [t Hcur] Hu. unfold rt_tick_increase.
  set (k1 := set_tsys _ k). assert (kernel_inv k1) as Hk1.
  { apply set_tsys_inv; [done| |done|done]. unfold slack.
    rewrite (proj2 (Z.eqb_neq _ _) Hne). by apply timer_wf_tick. }
  unfold rt_thread_self. change (rt_current_thread k1) with (rt_current_thread k).
  rewrite Hcur. cbn [mbind option_bind].
  destruct (ci_current _ (kv_cur _ Hk1) t Hcur) as (th & Ht & _). rewrite Ht.
  cbn [mbind option_bind].
  assert (forall r, kernel_inv (upd_thread t (set_remaining r) k1)) as Hup
    by (intros r; by apply kernel_upd_same).
  destruct (_ =? 0).
  - unfold rt_thread_yield.
    destruct (schedule_inv (upd_thread t (set_remaining (slice th)) k1)) as (k2 & E2 & Hk2);
      [apply Hup|simpl; eauto|]. rewrite E2. cbn [mbind option_bind].
    pose proof (schedule_frame _ _ (Hup _) ltac:(simpl; eauto) E2) as Hsf.
    destruct (timer_check_inv k2 Hk2) as (k' & E & Hk' & Hd & Htk & Hn & Hc & Hu').
    { eapply schedule_current; [apply Hup|simpl; eauto|done]. }
    { by rewrite (sf_tsys _ _ Hsf). }
    exists k'. rewrite (sf_tsys _ _ Hsf) in Htk. rewrite (sf_nest _ _ Hsf) in Hn. by split_and!.
  - cbn [mbind option_bind].
    destruct (timer_check_inv (upd_thread t (set_remaining (u32 (remaining_tick th - 1))) k1))
      as (k' & E & Hk' & Hd & Htk & Hn & Hc & Hu'); [apply Hup|simpl; eauto|done|].
    exists k'. by split_and!.
Qed.

Lemma systick_inv k :
  kernel_inv k -> rt_interrupt_nest k = 0 -> is_Some (rt_current_thread k) ->
  user_timers_ok (tsys k) ->
  exists k', SysTick_Handler k = Some k' /\ kernel_inv k' /\ rt_interrupt_nest k' = 0 /\
    rt_tick (tsys k') = u32 (rt_tick (tsys k) + 1) /\
    (forall j, j ∈ rt_timer_list (tsys k') -> 0 < due_of (tsys k') j) /\
    is_Some (rt_current_thread k') /\ user_timers_ok (tsys k').
Proof.
  intros Hk Hn Hcur Hu. unfold SysTick_Handler.
  assert (timer_wf 0 (tsys k)) as Hw0.
  { pose proof (ti_wf _ (kv_timer _ Hk)) as Hw. unfold slack in Hw. by rewrite Hn in Hw. }
  assert (rt_interrupt_nest (rt_interrupt_enter k) = 1) as Hn1 by (simpl; by rewrite Hn).
  destruct (tick_increase_inv (rt_interrupt_enter k)) as (k1 & -> & Hk1 & Hd & Htk & Hne & Hc & Hu1).
  - destruct Hk as [Hl Hp Hc [Hw He Hs]]. constructor; [by eapply link_ext; [..|exact Hl]|done|..].
    + by eapply cur_ext; [..|exact Hc].
    + constructor; [|done|done]. unfold slack. rewrite Hn1. simpl.
      by eapply timer_wf_weaken; [|exact Hw0].
  - done.
  - by rewrite Hn1.
  - done.
  - done.
  - cbn [mbind option_bind]. eexists. split; [done|].
    rewrite Hn1 in Hne. split; [|simpl; rewrite Hne; by split_and!].
    destruct Hk1 as [Hl Hp Hc1 [[Hnd Hlk Hso] He Hs]].
    constructor; [by eapply link_ext; [..|exact Hl]|done|..].
    + by eapply cur_ext; [..|exact Hc1].
    + constructor; [|done|done]. unfold slack. simpl. rewrite Hne. simpl.
      constructor; [done| |done]. rewrite Forall_forall in Hlk |- *. intros j Hj.
      destruct (Hlk j Hj) as (tm & E & Ha & Hb). exists tm. split; [done|]. split; [done|].
      specialize (Hd j Hj). unfold due_of in Hd. rewrite E in Hd. lia.
Qed.

(** ** Threads and ticks together *)

(** States reachable by thread calls and by tick interrupts; the application
    keeps its own timers in order. *)
Inductive sys_reachable : kernel -> Prop :=
  | sys_boot : sys_reachable boot
  | sys_call k op k' :
      sys_reachable k -> legal op k = true -> exec op k = Some k' -> sys_reachable k'
  | sys_tick k k' :
      sys_reachable k -> rt_interrupt_nest k = 0 -> is_Some (rt_current_thread k) ->
      user_timers_ok (tsys k) -> SysTick_Handler k = Some k' -> sys_reachable k'.

Lemma sys_reachable_inv k : sys_reachable k -> kernel_inv k.
Proof.
  induction 1 as [|k op k' _ IH Hg E|k k' _ IH Hn Hc Hu E]; [apply boot_inv|..].
  - destruct (exec_inv op k IH Hg) as (k2 & E2 & ?). congruence.
  - destruct (systick_inv k IH Hn Hc Hu) as (k2 & E2 & ? & _). congruence.
Qed.



End clock.

(** ** Time-outs of waiting threads *)

Lemma timeout_leaves k t th :
  kernel_inv k -> threads k !! t = Some th -> stat th = RT_THREAD_SUSPEND ->
  ThreadTimer t ∉ rt_timer_list (tsys k) -> is_Some (rt_current_thread k) ->
  exists k' s, rt_thread_timeout t k = Some k' /\ kernel_inv k' /\
    threads k' !! t = Some (set_stat s (set_error (- RT_ETIMEOUT) th)) /\
    (s = RT_THREAD_READY \/ s = RT_THREAD_RUNNING) /\
    (forall o, one_leaves o t k k').
Proof.
  intros Hk Ht Hs Hn Hcur.
  destruct (timeout_spec k t th Hk Ht Hs Hn Hcur) as (E & Hki & k' & E' & Hk').
  rewrite E in E'. set (k1 := tlist_remove t _) in *. set (th1 := set_error _ th) in *.
  assert (sched_frame (inserted t th1 k1) k') as Hsf.
  { eapply schedule_frame; [done|by rewrite inserted_current|done]. }
  assert (threads k1 !! t = Some th1) as Ht1 by (simpl; by rewrite lookup_alter_eq, Ht).
  destruct (sched_frame_runnable _ _ t (set_stat (resumed_stat t k1) th1) Hsf)
    as (s & Hs' & Hrun).
  { by rewrite inserted_threads, lookup_alter_eq, Ht1. }
  { unfold resumed_stat. simpl. case_bool_decide; auto. }
  exists k', s. split; [by rewrite E|]. split; [done|]. split; [done|]. split; [done|].
  intros o. split.
  - intros h Hh%of_object_wait. rewrite (sf_waits _ _ Hsf) by done.
    rewrite inserted_waits by done. apply lookup_lremove.
  - intros u. rewrite (proj2 (sched_frame_view o _ _ Hsf)). unfold event_view.
    rewrite inserted_threads. simpl. rewrite !lookup_alter.
    repeat case_decide; subst; try done; by rewrite Ht.
Qed.

(** rt_thread_timeout makes a suspended thread runnable with error
    -RT_ETIMEOUT, preserves the kernel invariant, and preserves the
    invariant of every IPC object the thread may have been waiting on. *)
Theorem rt_thread_timeout_wakes k t th :
  kernel_inv k -> threads k !! t = Some th -> stat th = RT_THREAD_SUSPEND ->
  ThreadTimer t ∉ rt_timer_list (tsys k) -> is_Some (rt_current_thread k) ->
  exists k' s, rt_thread_timeout t k = Some k' /\ kernel_inv k' /\
    threads k' !! t = Some (set_stat s (set_error (- RT_ETIMEOUT) th)) /\
    (s = RT_THREAD_READY \/ s = RT_THREAD_RUNNING) /\
    (forall A (HA : IpcObject A) o (a : A), ipc_inv o a k -> ipc_inv o a k').
Proof.
  intros Hk Ht Hs Hn Hcur.
  destruct (timeout_leaves k t th Hk Ht Hs Hn Hcur) as (k' & s & ? & ? & ? & ? & Hl).
  exists k', s. split_and!; try done. intros A HA o a. by eapply ipc_inv_leave.
Qed.

(** ** Restarting a one-shot timer from its own callback *)

(** A one-shot timer that its own callback starts again stays linked in the
    timer list but has lost its ACTIVATED flag, so a later rt_timer_stop
    refuses it with -RT_ERROR and leaves it armed. *)
Theorem restart_in_callback_unstoppable callback fuel tick k id l t k1 t1 :
  rt_timer_list (tsys k) = id :: l -> timers (tsys k) !! id = Some t ->
  expired tick (timeout_tick t) = true ->
  call_timeout callback (timeout_func t) (parameter t)
    (set_tsys (_rt_timer_remove id (tsys k)) k) = Some k1 ->
  id ∈ rt_timer_list (tsys k1) -> timers (tsys k1) !! id = Some t1 ->
  has_flag RT_TIMER_FLAG_PERIODIC t1 = false ->
  exists k3, timer_check_loop callback (S fuel) tick k =
             timer_check_loop callback fuel (rt_tick (tsys k1)) k3 /\
    id ∈ rt_timer_list (tsys k3) /\
    rt_timer_stop id (tsys k3) = Some (tsys k3, - RT_ERROR).
Proof.
  intros El Ht He Hcall Hin Ht1 Hp.
  rewrite (check_loop_step callback fuel tick id l k t El Ht He), Hcall.
  cbn [mbind option_bind]. rewrite Ht1. cbn [mbind option_bind]. unfold rearm. rewrite Hp.
  cbn [andb mbind option_bind]. eexists. split; [done|]. split; [done|].
  unfold rt_timer_stop. simpl. rewrite lookup_insert_eq. cbn [mbind option_bind].
  unfold has_flag, clear_flag, RT_TIMER_FLAG_ACTIVATED. simpl.
  rewrite <- Z.land_assoc. change (Z.land (Z.lnot 1) 1) with 0. by rewrite Z.land_0_r.
Qed.

(** *** Witnesses *)

(** An application whose callbacks do nothing. *)
Definition no_callback (f p : Z) (k : kernel) : option kernel := Some k.

#[export] Instance no_callback_ok : TimerCallbacks no_callback.
Proof.
  constructor. intros f p n k Hk Hc Hu He Hn. exists k. split; [done|]. by constructor.
Qed.

Definition is_user (j : timer_id) : bool :=
  match j with UserTimer _ => true | ThreadTimer _ => false end.

Lemma no_user_timers s :
  bool_decide (map_Forall (fun j _ => is_user j = false) (timers s)) = true ->
  user_timers_ok s.
Proof. intros Hb%bool_decide_eq_true n tm H. by specialize (Hb _ _ H). Qed.

Lemma reachable_sys cb k : reachable k -> sys_reachable cb k.
Proof. induction 1 as [|k op k' _ IH Hg E]; [constructor|]. by eapply sys_call. Qed.


(** A thread that sleeps one tick is due at the next tick interrupt. *)
Definition sample_asleep : kernel := default sample (rt_thread_sleep 1 sample).

Lemma sample_asleep_inv : kernel_inv sample_asleep.
Proof.
  unfold sample_asleep. destruct (rt_thread_sleep 1 sample) as [k|] eqn:E; simpl;
    [|apply sample_inv].
  apply reachable_kernel_inv. eapply (reach_step sample (OpSleep 1));
    [apply sample_reachable|by vm_compute|exact E].
Qed.


Lemma rt_thread_timeout_wakes_witness :
  exists k k' th s, rt_thread_timeout 1 k = Some k' /\
    threads k' !! 1 = Some (set_stat s (set_error (- RT_ETIMEOUT) th)).
Proof.
  set (k := set_tsys (_rt_timer_remove (ThreadTimer 1) (tsys sample_asleep)) sample_asleep).
  destruct (threads k !! 1) as [th|] eqn:E; [|by vm_compute in E].
  assert (stat <$> threads k !! 1 = Some RT_THREAD_SUSPEND) as Es by (by vm_compute).
  rewrite E in Es. injection Es as Es.
  destruct (rt_thread_timeout_wakes k 1 th) as (k' & s & H1 & _ & H2 & _);
    [apply remove_timer_inv, sample_asleep_inv|exact E|exact Es|apply not_linked_remove
    |by vm_compute; eexists|].
  exists k, k', th, s. split; [exact H1|exact H2].
Defined.

(** Timer 1 is due now and its callback starts it again for 5 ticks. *)
Definition restart_callback (f p : Z) (k : kernel) : option kernel :=
  s ← set_time_and_start (UserTimer p) 5 (tsys k); Some (set_tsys s k).

Definition sample_user : kernel :=
  set_tsys (mk_sys 100 {[ UserTimer 1 := mk_timer 1 (user_timeout_fn 0) 1 5 100 ]}
              [UserTimer 1] 0) boot.

Lemma restart_in_callback_unstoppable_witness :
  exists k3, UserTimer 1 ∈ rt_timer_list (tsys k3) /\
    rt_timer_stop (UserTimer 1) (tsys k3) = Some (tsys k3, - RT_ERROR).
Proof.
  set (t := mk_timer 1 (user_timeout_fn 0) 1 5 100).
  set (k0 := set_tsys (_rt_timer_remove (UserTimer 1) (tsys sample_user)) sample_user).
  destruct (restart_callback 0 1 k0) as [k1|] eqn:E1; [|by vm_compute in E1].
  destruct (timers (tsys k1) !! UserTimer 1) as [t1|] eqn:E2.
  - destruct (restart_in_callback_unstoppable restart_callback 1 100 sample_user (UserTimer 1)
      [] t k1 t1) as (k3 & _ & H1 & H2);
      [done|done|done|exact E1| |exact E2| |exists k3; split; [exact H1|exact H2]].
    + assert (option_map (fun k => rt_timer_list (tsys k)) (restart_callback 0 1 k0)
        = Some [UserTimer 1]) as El by (by vm_compute).
      rewrite E1 in El. injection El as ->. left.
    + assert (option_map (fun k => has_flag RT_TIMER_FLAG_PERIODIC <$> timers (tsys k) !! UserTimer 1)
        (restart_callback 0 1 k0) = Some (Some false)) as Ef by (by vm_compute).
      rewrite E1 in Ef. simpl in Ef. rewrite E2 in Ef. by injection Ef.
  - exfalso. assert (option_map (fun k => bool_decide (timers (tsys k) !! UserTimer 1 = None))
      (restart_callback 0 1 k0) = Some false) as Ef by (by vm_compute).
    rewrite E1 in Ef. simpl in Ef. rewrite E2 in Ef. by rewrite bool_decide_eq_true_2 in Ef.
Defined.

End Clock.
