(* ===== verification/Mutex.v ===== *)
(** * Mutexes

    Models [rt_mutex_*] of [src/ipc.c]: recursive mutexes with priority
    inheritance.  The invariant ties value, owner, hold count and wait list
    together; the theorems give the behaviour of take and release on every
    branch, direct hand-over to the first waiter included. *)

From S2P Require Import Prelude RtList Timer KService Sched SchedInv ThreadOps Ipc Clock.
Import RtList Timer KService Sched SchedInv ThreadOps Ipc Clock.

Module Mutex.

(** ** Data and operations *)

Record rt_mutex := mk_mutex {
  value : Z;                (** rt_uint16_t *)
  original_priority : Z;    (** rt_uint8_t *)
  hold : Z;                 (** rt_uint8_t *)
  owner : option Z;         (** struct rt_thread * *)
  flag : Z;
  static : bool;
}.

Definition rt_mutex_init (o fl : Z) (k : kernel) : rt_mutex * kernel :=
  (mk_mutex 1 0xff 0 None fl true, rt_ipc_object_init (LSuspend o) k).

Definition rt_mutex_create (obj : option Z) (fl : Z) (k : kernel)
  : option (option (Z * rt_mutex) * kernel) :=
  _ ← RT_ASSERT (rt_interrupt_nest k =? 0);
  match obj with
  | None => Some (None, k)
  | Some o => Some (Some (o, mk_mutex 1 0xff 0 None fl false), rt_ipc_object_init (LSuspend o) k)
  end.

Definition rt_mutex_detach (o : Z) (m : rt_mutex) (k : kernel) : option (kernel * Z) :=
  _ ← RT_ASSERT (static m);
  k ← rt_ipc_list_resume_all (LSuspend o) k;
  Some (k, RT_EOK).

Definition rt_mutex_delete (o : Z) (m : rt_mutex) (k : kernel) : option (kernel * Z) :=
  _ ← RT_ASSERT (rt_interrupt_nest k =? 0);
  _ ← RT_ASSERT (negb (static m));
  k ← rt_ipc_list_resume_all (LSuspend o) k;
  Some (set_lists (delete (LSuspend o) (lists k)) k, RT_EOK).

(** [rt_mutex_take] from the label [__again] on, for calling thread [t]. *)
Definition mutex_again (o time t : Z) (m : rt_mutex) (k : kernel)
  : option (rt_mutex * kernel * ipc_result) :=
  th ← threads k !! t;
  if 0 <? value m then
    Some (mk_mutex (u16 (value m - 1)) (current_priority th) (u8 (hold m + 1)) (Some t)
            (flag m) (static m), k, Done RT_EOK)
  else if time =? 0 then
    Some (m, upd_thread t (set_error (- RT_ETIMEOUT)) k, Done (- RT_ETIMEOUT))
  else
    w ← owner m;
    wth ← threads k !! w;
    k ← (if current_priority th <? current_priority wth then
           '(k, _) ← rt_thread_control w (RT_THREAD_CTRL_CHANGE_PRIORITY (current_priority th)) k;
           Some k
         else Some k);
    k ← wait_on (LSuspend o) t (flag m) time k;
    k ← rt_schedule k;
    Some (m, k, Blocked t).

Definition rt_mutex_take (o time : Z) (m : rt_mutex) (k : kernel)
  : option (rt_mutex * kernel * ipc_result) :=
  t ← in_thread_context k;
  let k := upd_thread t (set_error RT_EOK) k in
  if bool_decide (owner m = Some t) then
    Some (mk_mutex (value m) (original_priority m) (u8 (hold m + 1)) (owner m) (flag m)
            (static m), k, Done RT_EOK)
  else mutex_again o time t m k.

(** After the switch back: an interrupted wait is tried again. *)
Definition rt_mutex_take_resume (o time t : Z) (m : rt_mutex) (k : kernel)
  : option (rt_mutex * kernel * ipc_result) :=
  th ← threads k !! t;
  if negb (error th =? RT_EOK) then
    if error th =? - RT_EINTR then mutex_again o time t m k else Some (m, k, Done (error th))
  else Some (m, k, Done RT_EOK).

Definition rt_mutex_release (o : Z) (m : rt_mutex) (k : kernel)
  : option (rt_mutex * kernel * Z) :=
  t ← in_thread_context k;
  if bool_decide (owner m <> Some t) then
    Some (m, upd_thread t (set_error (- RT_ERROR)) k, - RT_ERROR)
  else
    let hold' := u8 (hold m - 1) in
    if hold' =? 0 then
      th ← threads k !! t;
      k ← (if negb (original_priority m =? current_priority th) then
             '(k, _) ← rt_thread_control t
                         (RT_THREAD_CTRL_CHANGE_PRIORITY (original_priority m)) k;
             Some k
           else Some k);
      xs ← lists k !! LSuspend o;
      match xs with
      | u :: _ =>
          uth ← threads k !! u;
          let m := mk_mutex (value m) (current_priority uth) (u8 (hold' + 1)) (Some u)
                     (flag m) (static m) in
          k ← rt_ipc_list_resume (LSuspend o) k;
          k ← rt_schedule k;
          Some (m, k, RT_EOK)
      | [] =>
          Some (mk_mutex (u16 (value m + 1)) 0xff hold' None (flag m) (static m), k, RT_EOK)
      end
    else
      Some (mk_mutex (value m) (original_priority m) hold' (owner m) (flag m) (static m), k,
            RT_EOK).

Definition rt_mutex_control (m : rt_mutex) : Z := - RT_ERROR.

(** ** Invariant *)

Record mutex_inv (o : Z) (m : rt_mutex) (k : kernel) : Prop := {
  mi_flag : flag m = RT_IPC_FLAG_FIFO \/ flag m = RT_IPC_FLAG_PRIO;
  mi_list : is_Some (lists k !! LSuspend o);
  mi_free : owner m = None ->
    value m = 1 /\ hold m = 0 /\ lists k !! LSuspend o = Some [];
  mi_owned : forall t, owner m = Some t ->
    value m = 0 /\ 1 <= hold m < 256 /\ 0 <= original_priority m < 32 /\
    is_Some (threads k !! t) /\
    (forall xs, lists k !! LSuspend o = Some xs -> t ∉ xs);
}.

Lemma event_view_is_Some k k' t :
  event_view k' t = event_view k t -> is_Some (threads k !! t) -> is_Some (threads k' !! t).
Proof.
  unfold event_view. intros E [th H]. rewrite H in E. apply fmap_Some in E as (? & ? & _). eauto.
Qed.

#[export] Program Instance mutex_object : IpcObject rt_mutex := {| ipc_inv := mutex_inv |}.
Next Obligation.
  intros o m k k' [Hv He] [? ? Hf Ho]. pose proof (Hv (LSuspend o) (or_introl eq_refl)) as E.
  constructor; rewrite ?E; try done. intros t Ht. destruct (Ho t Ht) as (? & ? & ? & ? & ?).
  split_and!; try done; try lia. eapply event_view_is_Some; [apply He|done].
Qed.
Next Obligation.
  intros o m k k' t [Hv He] [? Hl Hf Ho]. pose proof (Hv (LSuspend o) (or_introl eq_refl)) as E.
  constructor; rewrite ?E; try done.
  - destruct Hl as [xs ->]. simpl. eauto.
  - intros Hn. destruct (Hf Hn) as (? & ? & ->). done.
  - intros u Hu. destruct (Ho u Hu) as (? & ? & ? & ? & Hx).
    split_and!; try done; try lia; [eapply event_view_is_Some; [apply He|done]|].
    intros xs (ys & Ey & ->)%fmap_Some. rewrite list_elem_of_filter. intros [_ Hin].
    by eapply Hx.
Qed.

(** ** Lemmas *)

(** Priority inheritance: the owner gets the better of the two priorities. *)
Lemma inherit_spec k w wth p :
  kernel_inv k -> threads k !! w = Some wth -> 0 <= p < 32 ->
  exists k', (if p <? current_priority wth then
                '(k, _) ← rt_thread_control w (RT_THREAD_CTRL_CHANGE_PRIORITY p) k; Some k
              else Some k) = Some k' /\ kernel_inv k' /\
    (forall h, is_wait h -> lists k' !! h = lists k !! h) /\
    (forall u, u <> w -> threads k' !! u = threads k !! u) /\
    (exists wth', threads k' !! w = Some wth' /\ stat wth' = stat wth /\
       current_priority wth' = Z.min p (current_priority wth)) /\
    rt_current_thread k' = rt_current_thread k /\
    rt_interrupt_nest k' = rt_interrupt_nest k /\
    (forall u, event_view k' u = event_view k u).
Proof.
  intros Hk Hw Hp. destruct (Z.ltb_spec p (current_priority wth)).
  - destruct (change_priority_inv k w wth p Hk Hw Hp) as [-> Hk'].
    destruct (reprioritized_frame k w p wth Hk Hw) as (H1 & H2 & H3 & H4).
    cbn [mbind option_bind]. eexists. split; [done|]. split; [done|]. split; [done|].
    rewrite reprioritized_threads by done. split; [intros u Hu; by rewrite lookup_insert_ne|].
    split; [|done]. eexists. rewrite lookup_insert_eq. split; [done|]. split; [done|].
    simpl. lia.
  - exists k. split_and!; try done. exists wth. split_and!; try done. lia.
Qed.

Lemma caller_prio k t th : kernel_inv k -> caller k t th -> 0 <= current_priority th < 32.
Proof. intros Hk Hc. by destruct (kv_prio _ Hk _ _ (ca_thread _ _ _ Hc)) as (? & _). Qed.

Lemma mutex_inv_ext o m k k' :
  lists k' !! LSuspend o = lists k !! LSuspend o ->
  (forall u, is_Some (threads k !! u) -> is_Some (threads k' !! u)) ->
  mutex_inv o m k -> mutex_inv o m k'.
Proof.
  intros El Et [? ? Hf Ho]. constructor; rewrite ?El; try done.
  intros t Ht. destruct (Ho t Ht) as (? & ? & ? & ? & ?). split_and!; eauto; lia.
Qed.

Lemma mutex_inv_upd o m k t f : mutex_inv o m k -> mutex_inv o m (upd_thread t f k).
Proof. apply mutex_inv_ext; [done|]. intros u. apply alter_is_Some. Qed.

(** What a blocked take leaves: the caller queued, the owner's priority raised. *)
Definition mutex_blocked (o : Z) (m : rt_mutex) (k k' : kernel) (cur : Z) (cth : rt_thread)
    (w time : Z) : Prop :=
  prio_of k' w = Z.min (current_priority cth) (prio_of k w) /\
  (forall u, u <> w -> prio_of k' u = prio_of k u) /\
  threads k' !! cur = Some (set_stat RT_THREAD_SUSPEND (set_error RT_EOK cth)) /\
  (0 < time -> due_of (tsys k') (ThreadTimer cur) = time) /\
  exists ys zs, lists k !! LSuspend o = Some (ys ++ zs) /\
    lists k' !! LSuspend o = Some (ys ++ cur :: zs) /\
    queue_pos (flag m) k (current_priority cth) ys zs.

Lemma mutex_block k o m cur cth w time :
  kernel_inv k -> mutex_inv o m k -> caller k cur cth -> owner m = Some w -> w <> cur ->
  time <> 0 -> time < HALF -> error cth = RT_EOK ->
  exists k', mutex_again o time cur m k = Some (m, k', Blocked cur) /\ kernel_inv k' /\
    mutex_inv o m k' /\ mutex_blocked o m k k' cur cth w time.
Proof.
  intros Hk Hm Hca Hw Hne Hnz Htm Herr. pose proof Hm as [Hf [xs Exs] _ Ho].
  destruct (Ho w Hw) as (Hv & _ & _ & [wth Hwth] & Hnin).
  pose proof (caller_prio _ _ _ Hk Hca) as Hcp. unfold mutex_again.
  rewrite (ca_thread _ _ _ Hca). cbn [mbind option_bind]. rewrite Hv.
  rewrite (proj2 (Z.eqb_neq _ _) Hnz), Hw. cbn [Z.ltb Z.compare mbind option_bind].
  rewrite Hwth. cbn [mbind option_bind].
  destruct (inherit_spec k w wth (current_priority cth) Hk Hwth Hcp)
    as (k1 & -> & Hk1 & Hl1 & Ht1 & (wth' & Ew & _ & Ep) & Hc1 & Hn1 & Hev1).
  cbn [mbind option_bind].
  assert (caller k1 cur cth) as Hca1.
  { destruct Hca. constructor; [congruence|by rewrite Ht1|done|congruence]. }
  destruct (block_spec k1 (LSuspend o) cur cth (flag m) time xs)
    as (ys & zs & k2 & k' & -> & E2 & -> & Hq & Hk' & Hl & Hoth & Hth & Hev & Hpr & Hti); try done.
  { by rewrite Hl1. }
  cbn [mbind option_bind]. rewrite E2. cbn [mbind option_bind].
  assert (forall u, u <> w -> prio_of k1 u = prio_of k u) as Hp1
    by (intros u Hu; unfold prio_of; by rewrite Ht1).
  exists k'. split; [done|]. split; [done|]. split.
  - constructor; [done|by rewrite Hl|congruence|]. intros t Ht. assert (t = w) as -> by congruence.
    destruct (Ho w Hw) as (? & ? & ? & Hsm & _). split_and!; try done; try lia.
    + eapply event_view_is_Some; [by rewrite Hev, Hev1|done].
    + intros xs. rewrite Hl. intros [= <-]. specialize (Hnin _ Exs). set_solver.
  - split_and!.
    + rewrite Hpr. unfold prio_of. by rewrite Ew, Hwth.
    + intros u Hu. rewrite Hpr. by apply Hp1.
    + rewrite Hth. do 2 f_equal. destruct cth. simpl in *. by subst.
    + intros Hp. rewrite (proj2 (Z.ltb_lt 0 time) Hp) in Hti. by destruct Hti.
    + exists ys, zs. split_and!; [done|done|]. eapply queue_pos_ext; [|exact Hq].
      intros u Hu. symmetry. apply Hp1. intros ->. by eapply Hnin.
Qed.

Lemma mutex_take_spec o m k cur cth time :
  kernel_inv k -> mutex_inv o m k -> caller k cur cth -> time < HALF ->
  (owner m = Some cur -> hold m < 255) ->
  exists m' k' r, rt_mutex_take o time m k = Some (m', k', r) /\
    kernel_inv k' /\ mutex_inv o m' k' /\
    ((owner m = Some cur /\ r = Done RT_EOK /\ owner m' = Some cur /\ hold m' = hold m + 1 /\
      original_priority m' = original_priority m /\ lists k' = lists k) \/
     (owner m = None /\ r = Done RT_EOK /\ owner m' = Some cur /\ hold m' = 1 /\
      original_priority m' = current_priority cth /\ lists k' = lists k) \/
     (exists w, owner m = Some w /\ w <> cur /\ m' = m /\
       ((time = 0 /\ r = Done (- RT_ETIMEOUT) /\ lists k' = lists k) \/
        (time <> 0 /\ r = Blocked cur /\ mutex_blocked o m k k' cur cth w time)))).
Proof.
  intros Hk Hm Hca Htm Hh. pose proof Hm as [Hf [xs Exs] Hfree Ho]. unfold rt_mutex_take.
  rewrite (in_thread_context_caller k cur cth Hca). cbn [mbind option_bind].
  set (k1 := upd_thread cur (set_error RT_EOK) k).
  assert (kernel_inv k1) as Hk1 by (by apply kernel_upd_same).
  pose proof (mutex_inv_upd o m k cur (set_error RT_EOK) Hm) as Hm1. fold k1 in Hm1.
  assert (caller k1 cur (set_error RT_EOK cth)) as Hca1.
  { destruct Hca. constructor; try done. simpl. by rewrite lookup_alter_eq, ca_thread0. }
  case_bool_decide as Hown.
  { destruct (Ho cur Hown) as (? & ? & ? & ? & ?). specialize (Hh Hown).
    rewrite wrapu_small by lia. do 3 eexists. split; [done|]. split; [done|]. split.
    - constructor; simpl; try done; [congruence|]. intros t Ht.
      destruct (mi_owned _ _ _ Hm1 t Ht) as (? & ? & ? & ? & ?). split_and!; try done; lia.
    - left. by split_and!. }
  destruct (owner m) as [w|] eqn:Hw.
  - destruct (Ho w eq_refl) as (Hv & _). destruct (decide (time = 0)) as [->|Hnz].
    + unfold mutex_again. rewrite (ca_thread _ _ _ Hca1). cbn [mbind option_bind]. rewrite Hv.
      simpl. do 3 eexists. split; [done|]. split; [by apply kernel_upd_same|].
      split; [by apply mutex_inv_upd|]. right; right. exists w. split_and!; try done.
      { congruence. } by left.
    + destruct (mutex_block k1 o m cur (set_error RT_EOK cth) w time)
        as (k' & -> & Hk' & Hm' & Hb); try done; [congruence|].
      do 3 eexists. split; [done|]. split; [done|]. split; [done|]. right; right.
      exists w. split_and!; try done; [congruence|]. right. split_and!; try done.
      destruct Hb as (H1 & H2 & H3 & H4 & ys & zs & H5 & H6 & H7).
      assert (forall u, prio_of k1 u = prio_of k u) as Hpe by (by apply prio_of_upd).
      split_and!; [by rewrite H1, Hpe|intros; by rewrite H2, Hpe|done|done|].
      exists ys, zs. split_and!; [done|done|].
      eapply queue_pos_ext; [|exact H7]. intros u _. symmetry. apply Hpe.
  - destruct (Hfree eq_refl) as (Hv & Hhold & Hnil). unfold mutex_again.
    rewrite (ca_thread _ _ _ Hca1). cbn [mbind option_bind]. rewrite Hv, Hhold. simpl.
    pose proof (caller_prio _ _ _ Hk Hca).
    do 3 eexists. split; [done|]. split; [done|]. split.
    + constructor; simpl; try done. intros t [= <-].
      split_and!; try done; try lia.
      * eexists. exact (ca_thread _ _ _ Hca1).
      * intros ys. rewrite Hnil. intros [= <-]. apply not_elem_of_nil.
    + right; left. by split_and!.
Qed.

(** Restoring the priority recorded when the mutex was taken. *)
Lemma restore_spec k t th p :
  kernel_inv k -> threads k !! t = Some th -> 0 <= p < 32 ->
  exists k', (if negb (p =? current_priority th) then
                '(k, _) ← rt_thread_control t (RT_THREAD_CTRL_CHANGE_PRIORITY p) k; Some k
              else Some k) = Some k' /\ kernel_inv k' /\
    (forall h, is_wait h -> lists k' !! h = lists k !! h) /\
    (forall u, u <> t -> threads k' !! u = threads k !! u) /\
    prio_of k' t = p /\ is_Some (threads k' !! t) /\
    rt_current_thread k' = rt_current_thread k.
Proof.
  intros Hk Ht Hp. destruct (Z.eqb_spec p (current_priority th)); cbn [negb].
  - exists k. split_and!; try done. unfold prio_of. by rewrite Ht.
  - destruct (change_priority_inv k t th p Hk Ht Hp) as [-> Hk'].
    destruct (reprioritized_frame k t p th Hk Ht) as (H1 & H2 & _).
    cbn [mbind option_bind]. eexists. split; [done|]. split; [done|]. split; [done|].
    unfold prio_of. rewrite reprioritized_threads by done.
    split; [intros u Hu; by rewrite lookup_insert_ne|]. rewrite lookup_insert_eq. eauto.
Qed.

Lemma prio_of_eq k k' u : threads k' !! u = threads k !! u -> prio_of k' u = prio_of k u.
Proof. unfold prio_of. by intros ->. Qed.

(** What the last release of a held mutex leaves. *)
Definition mutex_released (o : Z) (m m' : rt_mutex) (k k' : kernel) (cur : Z) : Prop :=
  prio_of k' cur = original_priority m /\
  ((lists k !! LSuspend o = Some [] /\ owner m' = None /\ value m' = 1) \/
   exists u xs uth s, lists k !! LSuspend o = Some (u :: xs) /\
     owner m' = Some u /\ hold m' = 1 /\ original_priority m' = prio_of k u /\
     lists k' !! LSuspend o = Some xs /\ threads k !! u = Some uth /\
     threads k' !! u = Some (set_stat s uth) /\
     (s = RT_THREAD_READY \/ s = RT_THREAD_RUNNING)).

Lemma mutex_handover k1 o m cur u xs uth :
  kernel_inv k1 -> is_Some (rt_current_thread k1) -> threads k1 !! u = Some uth ->
  lists k1 !! LSuspend o = Some (u :: xs) -> mutex_inv o m k1 -> owner m = Some cur ->
  let m' := mk_mutex (value m) (current_priority uth) (u8 (0 + 1)) (Some u) (flag m) (static m) in
  exists k2 k' s, rt_ipc_list_resume (LSuspend o) k1 = Some k2 /\ rt_schedule k2 = Some k' /\
    kernel_inv k' /\ mutex_inv o m' k' /\ lists k' !! LSuspend o = Some xs /\
    threads k' !! u = Some (set_stat s uth) /\
    (s = RT_THREAD_READY \/ s = RT_THREAD_RUNNING) /\
    (forall v, prio_of k' v = prio_of k1 v).
Proof.
  intros Hk Hc Hu Hl Hm Hown m'. pose proof (li_unique _ _ (kv_link _ Hk)) as [Hnd _].
  destruct (wake_spec k1 (LSuspend o) u xs) as
    (th & k2 & k' & s & E1 & E2 & Hk' & Hl' & _ & Hth & Hth' & Hs & _ & _ & Hpr); try done.
  assert (th = uth) as -> by congruence.
  exists k2, k', s. split_and!; try done.
  destruct (mi_owned _ _ _ Hm cur Hown) as (Hv & _). destruct (kv_prio _ Hk _ _ Hu) as (Hp & _).
  constructor; simpl; try done; [apply Hm|].
  intros t [= <-]. split_and!; try done; try lia.
  intros ys. rewrite Hl'. intros [= <-]. apply Hnd in Hl. by apply NoDup_cons in Hl as [? _].
Qed.

Lemma mutex_release_spec o m k cur cth :
  kernel_inv k -> mutex_inv o m k -> caller k cur cth ->
  exists m' k' e, rt_mutex_release o m k = Some (m', k', e) /\
    kernel_inv k' /\ mutex_inv o m' k' /\
    ((owner m <> Some cur /\ e = - RT_ERROR /\ m' = m /\ lists k' = lists k) \/
     (owner m = Some cur /\ e = RT_EOK /\ 1 < hold m /\ owner m' = Some cur /\
      hold m' = hold m - 1 /\ original_priority m' = original_priority m /\ k' = k) \/
     (owner m = Some cur /\ e = RT_EOK /\ hold m = 1 /\ mutex_released o m m' k k' cur)).
Proof.
  intros Hk Hm Hca. pose proof Hm as [Hf [xs Exs] Hfree Ho]. unfold rt_mutex_release.
  rewrite (in_thread_context_caller k cur cth Hca). cbn [mbind option_bind].
  case_bool_decide as Hown.
  { do 3 eexists. split; [done|]. split; [by apply kernel_upd_same|].
    split; [by apply mutex_inv_upd|]. by left. }
  destruct (Ho cur Hown) as (Hv & Hh & Hop & Hth & Hnin).
  rewrite (wrapu_small 8) by lia. destruct (Z.eqb_spec (hold m - 1) 0) as [Hz|Hnz].
  2: { do 3 eexists. split; [done|]. split; [done|]. split.
       - constructor; simpl; try done; [congruence|]. intros t Ht.
         assert (t = cur) as -> by congruence. split_and!; try done; lia.
       - right; left. simpl. split_and!; try done; lia. }
  rewrite (ca_thread _ _ _ Hca). cbn [mbind option_bind].
  destruct (restore_spec k cur cth (original_priority m) Hk (ca_thread _ _ _ Hca) Hop)
    as (k1 & -> & Hk1 & Hl1 & Ht1 & Hp1 & Hs1 & Hc1).
  cbn [mbind option_bind]. rewrite Hl1, Exs by done. cbn [mbind option_bind].
  assert (forall u, is_Some (threads k !! u) -> is_Some (threads k1 !! u)) as Hdom.
  { intros u Hu. destruct (decide (u = cur)) as [->|]; [done|by rewrite Ht1]. }
  assert (mutex_inv o m k1) as Hm1 by (eapply mutex_inv_ext; [by rewrite Hl1|done|done]).
  destruct xs as [|u xs].
  { rewrite Hv, Hz. do 3 eexists. split; [done|]. split; [done|]. split.
    - constructor; simpl; try done; by rewrite Hl1, Exs.
    - right; right. split_and!; try done; [lia|]. split; [done|]. by left. }
  assert (u <> cur) as Hne by (intros ->; apply (Hnin _ Exs); left).
  destruct (waiter_suspended k (LSuspend o) (u :: xs) u) as (uth & Hu & _); try done; [left|].
  rewrite Ht1, Hu by done. cbn [mbind option_bind]. rewrite Hz.
  destruct (mutex_handover k1 o m cur u xs uth)
    as (k2 & k' & s & -> & E2 & Hk' & Hm' & Hl' & Hu' & Hs & Hpr); try done.
  { rewrite Hc1. rewrite (ca_current _ _ _ Hca). eauto. }
  { by rewrite Ht1. }
  { by rewrite Hl1. }
  cbn [mbind option_bind]. rewrite E2. cbn [mbind option_bind].
  do 3 eexists. split; [done|]. split; [done|]. split; [done|]. right; right.
  split_and!; try done; [lia|]. split; [by rewrite Hpr|]. right. exists u, xs, uth, s.
  split_and!; try done. simpl. unfold prio_of. by rewrite Hu.
Qed.

(** ** Theorems *)

Definition sample_mutex : rt_mutex := mk_mutex 1 0xff 0 None RT_IPC_FLAG_PRIO true.

Lemma sample_mutex_inv : mutex_inv 7 sample_mutex sample_ipc.
Proof.
  constructor; simpl; [by right|rewrite sample_ipc_list; eauto| |done].
  intros _. split; [done|]. split; [done|]. apply sample_ipc_list.
Qed.

(** C17. rt_mutex_take nests for the owner, acquires a free mutex, and
    otherwise times out at once or blocks: the owner inherits the caller's
    priority if that is better, and the caller is queued at its place with
    its timer armed. Both invariants are preserved. *)
Theorem rt_mutex_take_correct o m k cur cth time :
  kernel_inv k -> mutex_inv o m k -> caller k cur cth -> time < HALF ->
  (owner m = Some cur -> hold m < 255) ->
  exists m' k' r, rt_mutex_take o time m k = Some (m', k', r) /\
    kernel_inv k' /\ mutex_inv o m' k' /\
    ((owner m = Some cur /\ r = Done RT_EOK /\ owner m' = Some cur /\ hold m' = hold m + 1 /\
      original_priority m' = original_priority m /\ lists k' = lists k) \/
     (owner m = None /\ r = Done RT_EOK /\ owner m' = Some cur /\ hold m' = 1 /\
      original_priority m' = current_priority cth /\ lists k' = lists k) \/
     (exists w, owner m = Some w /\ w <> cur /\ m' = m /\
       ((time = 0 /\ r = Done (- RT_ETIMEOUT) /\ lists k' = lists k) \/
        (time <> 0 /\ r = Blocked cur /\ mutex_blocked o m k k' cur cth w time)))).
Proof. apply mutex_take_spec. Qed.

(** Mutex 7 is held by thread 3 (priority 20); thread 1 (priority 10) waits. *)
Definition held_mutex : rt_mutex := mk_mutex 0 20 1 (Some 3) RT_IPC_FLAG_PRIO true.

Lemma held_mutex_inv : mutex_inv 7 held_mutex sample_ipc.
Proof.
  constructor; simpl; [by right|rewrite sample_ipc_list; eauto|done|].
  intros t [= <-]. split; [done|]. split; [lia|]. split; [lia|].
  split; [by vm_compute; eexists|].
  intros xs. rewrite sample_ipc_list. intros [= <-]. apply not_elem_of_nil.
Qed.

Lemma rt_mutex_take_correct_witness :
  exists k', rt_mutex_take 7 (-1) held_mutex sample_ipc = Some (held_mutex, k', Blocked 1) /\
    prio_of sample_ipc 3 = 20 /\ prio_of k' 3 = 10.
Proof.
  destruct sample_ipc_caller as [cth Hca].
  destruct (rt_mutex_take_correct 7 held_mutex sample_ipc 1 cth (-1) sample_ipc_inv
    held_mutex_inv Hca) as (m' & k' & r & E & _ & _ & H); [by vm_compute|done|].
  destruct H as [[H _]|[[H _]|(w & Hw & _ & -> & [[H _]|(_ & -> & Hb & _)])]]; [done..|].
  injection Hw as <-. exists k'. split; [exact E|]. split; [by vm_compute|].
  rewrite Hb. assert (current_priority <$> threads sample_ipc !! 1 = Some 10) as Ep
    by (by vm_compute).
  rewrite (ca_thread _ _ _ Hca) in Ep. injection Ep as ->. by vm_compute.
Defined.

(** C18. rt_mutex_release is refused to a non-owner, un-nests for a nested
    owner, and at the last release restores the owner's original priority
    and passes the mutex to the first waiter, or frees it if nobody waits.
    Both invariants are preserved. *)
Theorem rt_mutex_release_correct o m k cur cth :
  kernel_inv k -> mutex_inv o m k -> caller k cur cth ->
  exists m' k' e, rt_mutex_release o m k = Some (m', k', e) /\
    kernel_inv k' /\ mutex_inv o m' k' /\
    ((owner m <> Some cur /\ e = - RT_ERROR /\ m' = m /\ lists k' = lists k) \/
     (owner m = Some cur /\ e = RT_EOK /\ 1 < hold m /\ owner m' = Some cur /\
      hold m' = hold m - 1 /\ original_priority m' = original_priority m /\ k' = k) \/
     (owner m = Some cur /\ e = RT_EOK /\ hold m = 1 /\ mutex_released o m m' k k' cur)).
Proof. apply mutex_release_spec. Qed.

Lemma rt_mutex_release_correct_witness :
  exists k', rt_mutex_release 7 held_mutex sample_ipc = Some (held_mutex, k', - RT_ERROR).
Proof.
  destruct sample_ipc_caller as [cth Hca].
  destruct (rt_mutex_release_correct 7 held_mutex sample_ipc 1 cth sample_ipc_inv
    held_mutex_inv Hca) as (m' & k' & e & E & _ & _ & H).
  destruct H as [(_ & -> & -> & _)|[[H _]|[H _]]]; [|done..]. exists k'. exact E.
Defined.

(** ** Nested mutexes

    Thread 3 (priority 20) takes mutex 7; thread 1 (priority 10) waits for it,
    so thread 3 is raised to 10; thread 3 now takes mutex 8, which records 10 as
    the priority to go back to; it releases 7 (back to 20) and then 8. *)
Definition nested_mutexes : option (rt_mutex * rt_mutex * kernel) :=
  k ← rt_thread_sleep 5 (rt_ipc_object_init (LSuspend 8) sample_ipc);
  k ← rt_thread_sleep 100 k;
  '(m7, k, _) ← rt_mutex_take 7 (-1) sample_mutex k;
  k ← Nat.iter 5 (fun ok => k ← ok; SysTick_Handler no_callback k) (Some k);
  '(m7, k, _) ← rt_mutex_take 7 (-1) m7 k;
  '(m8, k, _) ← rt_mutex_take 8 (-1) sample_mutex k;
  '(m7, k, _) ← rt_mutex_release 7 m7 k;
  '(m7, k, _) ← rt_mutex_release 7 m7 k;
  k ← rt_thread_sleep 100 k;
  '(m8, k, _) ← rt_mutex_release 8 m8 k;
  Some (m7, m8, k).

(** Releasing two mutexes in the order they were taken can leave a thread at
    an inherited priority although it holds no mutex: the second mutex
    recorded the raised priority as the original one. *)
Theorem nested_mutexes_keep_raised_priority :
  match nested_mutexes with
  | Some (m7, m8, k) =>
      owner m7 = None /\ owner m8 = None /\
      init_priority <$> threads k !! 3 = Some 20 /\ prio_of k 3 = 10
  | None => False
  end.
Proof. vm_compute. by split_and!. Qed.

End Mutex.
