(* ===== verification/Event.v ===== *)
(** * Events

    Models [rt_event_*] of [src/ipc.c].  A waiter asks for all ([AND]) or any
    ([OR]) of a set of event bits and may clear what it receives.  The
    reference definition [deliver] says, in terms of the waiters' requests
    alone, which of them a send satisfies, what each receives and what is left;
    [rt_event_send] is shown to implement it and to leave no satisfied waiter
    behind. *)

From S2P Require Import Prelude RtList Timer KService Sched SchedInv ThreadOps Ipc.
Import RtList Timer KService Sched SchedInv ThreadOps Ipc.

Module Event.

(** ** Data and operations *)

Definition RT_EVENT_FLAG_AND : Z := 0x01.
Definition RT_EVENT_FLAG_OR : Z := 0x02.
Definition RT_EVENT_FLAG_CLEAR : Z := 0x04.

Record rt_event := mk_event {
  set : Z;          (** rt_uint32_t *)
  flag : Z;
  static : bool;
}.

Definition with_set (s : Z) (e : rt_event) : rt_event := mk_event s (flag e) (static e).

(** [x & f] as a condition. *)
Definition has (f x : Z) : bool := negb (Z.land x f =? 0).

Definition rt_event_init (o fl : Z) (k : kernel) : rt_event * kernel :=
  (mk_event 0 fl true, rt_ipc_object_init (LSuspend o) k).

Definition rt_event_create (obj : option Z) (fl : Z) (k : kernel)
  : option (option (Z * rt_event) * kernel) :=
  _ ← RT_ASSERT (rt_interrupt_nest k =? 0);
  match obj with
  | None => Some (None, k)
  | Some o => Some (Some (o, mk_event 0 fl false), rt_ipc_object_init (LSuspend o) k)
  end.

Definition rt_event_detach (o : Z) (e : rt_event) (k : kernel) : option (kernel * Z) :=
  _ ← RT_ASSERT (static e);
  k ← rt_ipc_list_resume_all (LSuspend o) k;
  Some (k, RT_EOK).

Definition rt_event_delete (o : Z) (e : rt_event) (k : kernel) : option (kernel * Z) :=
  _ ← RT_ASSERT (negb (static e));
  _ ← RT_ASSERT (rt_interrupt_nest k =? 0);
  k ← rt_ipc_list_resume_all (LSuspend o) k;
  Some (set_lists (delete (LSuspend o) (lists k)) k, RT_EOK).

(** The loop of [rt_event_send] over the nodes still to visit.  [n] is advanced
    before the thread is resumed, so the nodes visited are those of the list at
    the start. *)
Fixpoint event_send_loop (xs : list Z) (eset : Z) (k : kernel) (need_schedule : bool)
  : option (Z * kernel * bool) :=
  match xs with
  | [] => Some (eset, k, need_schedule)
  | t :: xs =>
      thread ← threads k !! t;
      let '(status, k) :=
        if has RT_EVENT_FLAG_AND (event_info thread) then
          if Z.land (event_set thread) eset =? event_set thread then (true, k) else (false, k)
        else if has RT_EVENT_FLAG_OR (event_info thread) then
          if negb (Z.land (event_set thread) eset =? 0) then
            (true, upd_thread t (fun th => set_event (Z.land (event_set thread) eset)
                                             (event_info th) th) k)
          else (false, k)
        else (false, k) in
      if status : bool then
        thread ← threads k !! t;
        let eset := if has RT_EVENT_FLAG_CLEAR (event_info thread)
                    then Z.land eset (Z.lnot (event_set thread)) else eset in
        '(k, _) ← rt_thread_resume t k;
        event_send_loop xs eset k true
      else event_send_loop xs eset k need_schedule
  end.

Definition rt_event_send (o s : Z) (e : rt_event) (k : kernel)
  : option (rt_event * kernel * Z) :=
  if s =? 0 then Some (e, k, - RT_ERROR)
  else
    let eset := Z.lor (set e) s in
    xs ← lists k !! LSuspend o;
    '(eset, k, need_schedule) ← event_send_loop xs eset k false;
    k ← (if need_schedule : bool then rt_schedule k else Some k);
    Some (with_set eset e, k, RT_EOK).

(** The last component is what is stored through [recved], if anything. *)
Definition rt_event_recv (o s opt timeout : Z) (e : rt_event) (k : kernel)
  : option (rt_event * kernel * ipc_result * option Z) :=
  t ← in_thread_context k;
  if s =? 0 then Some (e, k, Done (- RT_ERROR), None)
  else
    let k := upd_thread t (set_error RT_EOK) k in
    status ← (if has RT_EVENT_FLAG_AND opt then Some (Z.land (set e) s =? s)
              else if has RT_EVENT_FLAG_OR opt then Some (negb (Z.land (set e) s =? 0))
              else None);
    if status : bool then
      let e' := if has RT_EVENT_FLAG_CLEAR opt
                then with_set (Z.land (set e) (Z.lnot s)) e else e in
      Some (e', k, Done RT_EOK, Some (Z.land (set e) s))
    else if timeout =? 0 then
      Some (e, upd_thread t (set_error (- RT_ETIMEOUT)) k, Done (- RT_ETIMEOUT), None)
    else
      let k := upd_thread t (set_event s opt) k in
      k ← wait_on (LSuspend o) t (flag e) timeout k;
      k ← rt_schedule k;
      Some (e, k, Blocked t, None).

(** After the switch back. *)
Definition rt_event_recv_resume (t : Z) (k : kernel) : option (Z * option Z) :=
  th ← threads k !! t;
  if negb (error th =? RT_EOK) then Some (error th, None)
  else Some (error th, Some (event_set th)).

Inductive event_cmd := RT_IPC_CMD_RESET | RT_IPC_CMD_OTHER.

Definition rt_event_control (o : Z) (cmd : event_cmd) (e : rt_event) (k : kernel)
  : option (rt_event * kernel * Z) :=
  match cmd with
  | RT_IPC_CMD_RESET =>
      k ← rt_ipc_list_resume_all (LSuspend o) k;
      let e := with_set 0 e in
      k ← rt_schedule k;
      Some (e, k, RT_EOK)
  | RT_IPC_CMD_OTHER => Some (e, k, - RT_ERROR)
  end.

(** ** Reference definition *)

(** What a request for [want] with options [info] receives from [eset]. *)
Definition event_match (info want eset : Z) : option Z :=
  if has RT_EVENT_FLAG_AND info then
    if Z.land want eset =? want then Some want else None
  else if has RT_EVENT_FLAG_OR info then
    if Z.land want eset =? 0 then None else Some (Z.land want eset)
  else None.

(** Offer [eset] to the waiters in order: what is left of the set, who goes on
    waiting, and who receives what.  [view t] is the request of [t]. *)
Fixpoint deliver (view : Z -> Z * Z) (xs : list Z) (eset : Z)
  : Z * list Z * list (Z * Z) :=
  match xs with
  | [] => (eset, [], [])
  | t :: xs =>
      let '(want, info) := view t in
      match event_match info want eset with
      | None =>
          let '(eset', waiting, woken) := deliver view xs eset in (eset', t :: waiting, woken)
      | Some got =>
          let eset := if has RT_EVENT_FLAG_CLEAR info then Z.land eset (Z.lnot got) else eset in
          let '(eset', waiting, woken) := deliver view xs eset in
          (eset', waiting, (t, got) :: woken)
      end
  end.

Definition request (k : kernel) (t : Z) : Z * Z := default (0, 0) (event_view k t).

(** ** Invariant *)

(** Nobody waits for what is already there. *)
Record event_inv (o : Z) (e : rt_event) (k : kernel) : Prop := {
  ei_set : 0 <= set e < 2 ^ 32;
  ei_flag : flag e = RT_IPC_FLAG_FIFO \/ flag e = RT_IPC_FLAG_PRIO;
  ei_waiters : exists xs, lists k !! LSuspend o = Some xs /\
    forall t, t ∈ xs -> event_match (request k t).2 (request k t).1 (set e) = None;
}.

#[export] Program Instance event_object : IpcObject rt_event := {| ipc_inv := event_inv |}.
Next Obligation.
  intros o e k k' [Hv He] [? ? (xs & E & H)]. constructor; [done|done|].
  exists xs. rewrite Hv by (by left). split; [done|]. intros t Ht. unfold request.
  rewrite He. by apply H.
Qed.
Next Obligation.
  intros o e k k' u [Hv He] [? ? (xs & E & H)]. constructor; [done|done|].
  rewrite Hv, E by (by left). eexists. split; [done|].
  intros t [_ Ht]%list_elem_of_filter. unfold request. rewrite He. by apply H.
Qed.

(** ** Properties of the reference definition *)

(** [a] holds no bit that [b] lacks. *)
Definition bits_le (a b : Z) : Prop := Z.land a b = a.

Lemma bits_le_refl a : bits_le a a.
Proof. apply Z.land_diag. Qed.

Lemma bits_le_trans a b c : bits_le a b -> bits_le b c -> bits_le a c.
Proof. unfold bits_le. intros <- Hbc. by rewrite <- Z.land_assoc, Hbc. Qed.

Lemma bits_le_ldiff a b : bits_le (Z.land a b) a.
Proof. unfold bits_le. by rewrite <- Z.land_assoc, (Z.land_comm b a), Z.land_assoc, Z.land_diag. Qed.

(** A smaller set satisfies no more requests. *)
Lemma event_match_mono info want a b :
  bits_le a b -> event_match info want b = None -> event_match info want a = None.
Proof.
  unfold bits_le, event_match. intros Hab. destruct (has RT_EVENT_FLAG_AND info).
  - destruct (Z.eqb_spec (Z.land want b) want) as [|Hb]; [done|].
    destruct (Z.eqb_spec (Z.land want a) want) as [Ha|]; [|done]. destruct Hb.
    rewrite <- Ha, <- Z.land_assoc, Hab. done.
  - destruct (has RT_EVENT_FLAG_OR info); [|done].
    destruct (Z.eqb_spec (Z.land want b) 0) as [Hb|]; [|done]. intros _.
    destruct (Z.eqb_spec (Z.land want a) 0) as [|Ha]; [done|]. destruct Ha.
    rewrite <- Hab, (Z.land_comm a b), Z.land_assoc, Hb. done.
Qed.

Lemma deliver_spec view xs : forall eset eset' waiting woken,
  deliver view xs eset = (eset', waiting, woken) ->
  bits_le eset' eset /\
  (forall t, t ∈ waiting -> t ∈ xs /\ event_match (view t).2 (view t).1 eset' = None) /\
  (forall t got, (t, got) ∈ woken -> t ∈ xs) /\
  (forall t, t ∈ xs -> t ∈ waiting \/ t ∈ woken.*1).
Proof.
  induction xs as [|t xs IH]; simpl; intros eset eset' waiting woken.
  - intros [= <- <- <-]. split_and!; try (intros; by exfalso; eapply not_elem_of_nil).
    apply bits_le_refl.
  - destruct (view t) as [want info] eqn:Ev.
    destruct (event_match info want eset) as [got|] eqn:Em.
    + destruct (deliver view xs _) as [[s w] k] eqn:Ed. intros [= <- <- <-].
      apply IH in Ed as (H1 & H2 & H3 & H4). split_and!.
      * eapply bits_le_trans; [exact H1|]. destruct (has _ info);
          [apply bits_le_ldiff|apply bits_le_refl].
      * intros u Hu. apply H2 in Hu as [? ?]. split; [by right|done].
      * intros u g [[= -> ->]|Hu]%elem_of_cons; [left|right; eauto].
      * intros u [->|Hu]%elem_of_cons; [right; left|]. apply H4 in Hu as [?|?]; [by left|].
        right. by right.
    + destruct (deliver view xs eset) as [[s w] k] eqn:Ed. intros [= <- <- <-].
      apply IH in Ed as (H1 & H2 & H3 & H4). split_and!.
      * done.
      * intros u [->|Hu]%elem_of_cons.
        -- split; [left|]. rewrite Ev. by eapply event_match_mono.
        -- apply H2 in Hu as [? ?]. split; [by right|done].
      * intros u g Hu. right. eauto.
      * intros u [->|Hu]%elem_of_cons; [left; left|]. apply H4 in Hu as [?|?]; [|by right].
        left. by right.
Qed.

Lemma deliver_ext view view' xs : forall eset,
  (forall t, t ∈ xs -> view' t = view t) -> deliver view' xs eset = deliver view xs eset.
Proof.
  induction xs as [|t xs IH]; simpl; intros eset Hv; [done|].
  rewrite Hv by left. destruct (view t) as [want info].
  destruct (event_match info want eset); rewrite IH; try done; intros u Hu; apply Hv; by right.
Qed.

(** ** The send loop *)

Lemma set_event_id th : set_event (event_set th) (event_info th) th = th.
Proof. by destruct th. Qed.

(** The test of one waiter: on success its received set is stored. *)
Definition tried (t : Z) (got : Z) (k : kernel) : kernel :=
  upd_thread t (fun th => set_event got (event_info th) th) k.

Lemma try_waiter k t th eset :
  threads k !! t = Some th ->
  (if has RT_EVENT_FLAG_AND (event_info th) then
     if Z.land (event_set th) eset =? event_set th then (true, k) else (false, k)
   else if has RT_EVENT_FLAG_OR (event_info th) then
     if negb (Z.land (event_set th) eset =? 0) then
       (true, upd_thread t (fun th' => set_event (Z.land (event_set th) eset)
                                         (event_info th') th') k)
     else (false, k)
   else (false, k)) =
  match event_match (event_info th) (event_set th) eset with
  | Some got => (true, tried t got k)
  | None => (false, k)
  end.
Proof.
  intros Ht. unfold event_match. destruct (has RT_EVENT_FLAG_AND (event_info th)).
  - destruct (_ =? _); [|done]. f_equal. unfold tried, upd_thread.
    destruct k. unfold set_threads. simpl in *. f_equal. symmetry. apply map_eq. intros u.
    rewrite lookup_alter. case_decide; [subst|done]. rewrite Ht. simpl. f_equal.
    apply set_event_id.
  - destruct (has RT_EVENT_FLAG_OR (event_info th)); [|done]. by destruct (_ =? 0).
Qed.

Lemma tried_inv k t got : kernel_inv k -> kernel_inv (tried t got k).
Proof. intros Hk. by apply kernel_upd_same. Qed.

Record sent (h : list_head) (ys xs waiting : list Z) (woken : list (Z * Z)) (k k' : kernel)
  : Prop := {
  se_inv : kernel_inv k';
  se_list : lists k' !! h = Some (ys ++ waiting);
  se_other : forall h', is_wait h' -> h' <> h -> lists k' !! h' = lists k !! h';
  se_current : rt_current_thread k' = rt_current_thread k;
  se_rest : forall u, u ∉ woken.*1 -> threads k' !! u = threads k !! u;
  se_woken : forall u got, (u, got) ∈ woken -> exists th, threads k !! u = Some th /\
    threads k' !! u = Some (set_stat (resumed_stat u k) (set_event got (event_info th) th));
}.

Lemma event_send_loop_spec h xs : forall k eset b ys eset' waiting woken,
  kernel_inv k -> is_wait h -> lists k !! h = Some (ys ++ xs) ->
  deliver (request k) xs eset = (eset', waiting, woken) ->
  exists k', event_send_loop xs eset k b = Some (eset', k', b || bool_decide (woken <> [])) /\
    sent h ys xs waiting woken k k'.
Proof.
  induction xs as [|t xs IH]; intros k eset b ys eset' waiting woken Hk Hw Hh Hd.
  { injection Hd as <- <- <-. exists k. simpl. rewrite orb_false_r. split; [done|].
    constructor; try done. intros u got Hu. by apply not_elem_of_nil in Hu. }
  pose proof (proj1 (li_unique _ _ (kv_link _ Hk)) _ _ Hh) as Hnd.
  assert (t ∉ xs) as Hnin.
  { apply NoDup_app in Hnd as (_ & _ & Hnd). by apply NoDup_cons in Hnd as [? _]. }
  destruct (waiter_suspended k h _ t Hk Hw Hh) as (th & Ht & Hs); [set_solver|].
  assert (request k t = (event_set th, event_info th)) as Er
    by (unfold request, event_view; by rewrite Ht).
  cbn [event_send_loop]. rewrite Ht. cbn [mbind option_bind]. rewrite try_waiter by done.
  cbn [deliver] in Hd. rewrite Er in Hd.
  destruct (event_match (event_info th) (event_set th) eset) as [got|] eqn:Em.
  2: { destruct (deliver (request k) xs eset) as [[s w] d] eqn:Ed. injection Hd as <- <- <-.
       destruct (IH k eset b (ys ++ [t]) s w d) as (k' & E & [H1 H2 H3 H4 H5 H6]); try done.
       - by rewrite <- app_assoc.
       - exists k'. split; [done|]. rewrite <- app_assoc in H2. by constructor. }
  set (k1 := tried t got k). set (th1 := set_event got (event_info th) th).
  assert (kernel_inv k1) as Hk1 by (by apply tried_inv).
  assert (threads k1 !! t = Some th1) as Ht1 by (simpl; by rewrite lookup_alter_eq, Ht).
  rewrite Ht1. cbn [mbind option_bind].
  destruct (resume_woken k1 t th1 Hk1 Ht1 Hs) as (k2 & -> & Hwk). cbn [mbind option_bind].
  change (event_info th1) with (event_info th). change (event_set th1) with got.
  set (eset1 := if has RT_EVENT_FLAG_CLEAR (event_info th) then _ else _) in *.
  assert (forall u, u <> t -> threads k2 !! u = threads k !! u) as Hsame.
  { intros u Hu. rewrite (wk_threads _ _ _ Hwk). simpl. by rewrite !lookup_alter_ne. }
  assert (deliver (request k2) xs eset1 = deliver (request k) xs eset1) as Eext.
  { apply deliver_ext. intros u Hu. unfold request, event_view. rewrite Hsame; [done|].
    by intros ->. }
  destruct (deliver (request k) xs eset1) as [[s w] d] eqn:Ed. injection Hd as <- <- <-.
  destruct (IH k2 eset1 true ys s w d) as (k' & E & [H1 H2 H3 H4 H5 H6]); try done.
  { apply Hwk. }
  { rewrite (wk_lists _ _ _ Hwk) by done. change (lists k1) with (lists k). rewrite Hh.
    simpl. by rewrite filter_split. }
  rewrite bool_decide_eq_true_2 by done. rewrite orb_true_r.
  exists k'. split; [done|].
  pose proof (proj1 (proj2 (proj2 (deliver_spec _ _ _ _ _ _ Ed)))) as Hdin.
  pose proof (wk_current _ _ _ Hwk) as Hc2.
  constructor; [done|done|..].
  - intros h' Hw' Hne. rewrite H3 by done. eapply (woken_lists k1); eauto. set_solver.
  - by rewrite H4, Hc2.
  - simpl. intros u Hu. apply not_elem_of_cons in Hu as [Hu1 Hu2]. rewrite H5 by done. by apply Hsame.
  - intros u g [[= -> ->]|Hu]%elem_of_cons.
    + exists th. split; [done|]. rewrite H5, (wk_threads _ _ _ Hwk).
      * rewrite lookup_alter_eq, Ht1. done.
      * intros ([v g] & Ev & Hv)%list_elem_of_fmap. simpl in Ev. subst. by apply Hnin, (Hdin v g).
    + destruct (H6 u g Hu) as (thu & E1 & E2). exists thu.
      rewrite Hsame in E1 by (intros ->; by apply Hnin, (Hdin t g)). split; [done|].
      rewrite E2. do 2 f_equal. unfold resumed_stat. by rewrite Hc2.
Qed.

(** ** Send and receive *)

Lemma land_range a b : 0 <= b < 2 ^ 32 -> 0 <= Z.land a b < 2 ^ 32.
Proof.
  intros Hb. rewrite <- (Z.lnot_involutive a), Z.land_comm. by apply land_lnot_range.
Qed.

Lemma lor_range_u32 a b : 0 <= a < 2 ^ 32 -> 0 <= b < 2 ^ 32 -> 0 <= Z.lor a b < 2 ^ 32.
Proof.
  intros Ha Hb. replace (Z.lor a b) with (Z.lor a b mod 2 ^ 32); [by apply Z.mod_pos_bound|].
  rewrite <- Z.land_ones, Z.land_lor_distr_l, !Z.land_ones by lia.
  by rewrite !Z.mod_small.
Qed.

Lemma clear_received a b : Z.land a (Z.lnot (Z.land b a)) = Z.land a (Z.lnot b).
Proof.
  apply Z.bits_inj'. intros n Hn. rewrite !Z.land_spec, !Z.lnot_spec, Z.land_spec by done.
  by destruct (Z.testbit a n), (Z.testbit b n).
Qed.

Lemma request_view k k' t : event_view k' t = event_view k t -> request k' t = request k t.
Proof. unfold request. by intros ->. Qed.

Lemma event_send_spec o s e k :
  kernel_inv k -> event_inv o e k -> is_Some (rt_current_thread k) -> 0 < s < 2 ^ 32 ->
  exists e' k' xs waiting woken, rt_event_send o s e k = Some (e', k', RT_EOK) /\
    kernel_inv k' /\ event_inv o e' k' /\
    lists k !! LSuspend o = Some xs /\ lists k' !! LSuspend o = Some waiting /\
    deliver (request k) xs (Z.lor (set e) s) = (set e', waiting, woken) /\
    (forall u got, (u, got) ∈ woken -> exists th st, threads k !! u = Some th /\
       threads k' !! u = Some (set_stat st (set_event got (event_info th) th)) /\
       (st = RT_THREAD_READY \/ st = RT_THREAD_RUNNING)).
Proof.
  intros Hk [Hset Hf (xs & Exs & Hx)] Hcur Hs. unfold rt_event_send.
  destruct (Z.eqb_spec s 0); [lia|]. rewrite Exs. cbn [mbind option_bind].
  destruct (deliver (request k) xs (Z.lor (set e) s)) as [[eset' waiting] woken] eqn:Ed.
  destruct (event_send_loop_spec (LSuspend o) xs k (Z.lor (set e) s) false [] eset' waiting woken)
    as (k1 & -> & [H1 H2 _ H4 H5 H6]); try done.
  cbn [mbind option_bind orb].
  assert (exists k', (if bool_decide (woken <> []) then rt_schedule k1 else Some k1) = Some k' /\
    kernel_inv k' /\ sched_frame k1 k') as (k' & -> & Hk' & Hsf).
  { case_bool_decide; [|exists k1; split_and!; [done|done|apply sched_frame_refl]].
    assert (is_Some (rt_current_thread k1)) as Hc1 by (by rewrite H4).
    destruct (schedule_inv k1 H1 Hc1) as (k' & E & ?). exists k'. split_and!; try done.
    by apply schedule_frame. }
  cbn [mbind option_bind].
  destruct (deliver_spec _ _ _ _ _ _ Ed) as (Hle & Hwait & Hwin & _).
  do 2 eexists. exists xs, waiting, woken. split; [done|]. split; [done|].
  assert (lists k' !! LSuspend o = Some waiting) as Hl' by (by rewrite (sf_waits _ _ Hsf)).
  split; [constructor; simpl|split; [done|split; [done|split; [done|]]]].
  - unfold bits_le in Hle. rewrite <- Hle. apply land_range. apply lor_range_u32; lia.
  - done.
  - exists waiting. split; [done|]. intros t Ht. destruct (Hwait t Ht) as [Hin Hm].
    rewrite (request_view k k' t); [done|].
    rewrite (proj2 (sched_frame_view o _ _ Hsf)). unfold event_view. rewrite H5; [done|].
    intros ([v g] & Ev & Hv)%list_elem_of_fmap. simpl in Ev. subst.
    destruct (H6 v g Hv) as (th & Eth & Eth').
    destruct (waiter_suspended k1 (LSuspend o) waiting v) as (th2 & E2 & Hs2); try done.
    rewrite Eth' in E2. injection E2 as <-. simpl in Hs2. unfold resumed_stat in Hs2.
    by case_bool_decide.
  - intros u got Hu. destruct (H6 u got Hu) as (th & E1 & E2). exists th.
    destruct (sched_frame_runnable _ _ _ _ Hsf E2) as (st & E3 & Hst); [|eauto].
    unfold resumed_stat. simpl. case_bool_decide; auto.
Qed.

Lemma event_recv_test e s opt :
  has RT_EVENT_FLAG_AND opt || has RT_EVENT_FLAG_OR opt = true ->
  (if has RT_EVENT_FLAG_AND opt then Some (Z.land (set e) s =? s)
   else if has RT_EVENT_FLAG_OR opt then Some (negb (Z.land (set e) s =? 0)) else None)
  = Some (bool_decide (is_Some (event_match opt s (set e)))) /\
  (forall got, event_match opt s (set e) = Some got -> got = Z.land (set e) s).
Proof.
  intros Ho. unfold event_match. rewrite (Z.land_comm s (set e)).
  destruct (has RT_EVENT_FLAG_AND opt).
  - destruct (Z.eqb_spec (Z.land (set e) s) s); split; try done. congruence.
  - destruct (has RT_EVENT_FLAG_OR opt); [|done].
    destruct (Z.eqb_spec (Z.land (set e) s) 0); split; try done. congruence.
Qed.

Lemma event_recv_spec o s opt timeout e k cur cth :
  kernel_inv k -> event_inv o e k -> caller k cur cth -> timeout < HALF -> s <> 0 ->
  has RT_EVENT_FLAG_AND opt || has RT_EVENT_FLAG_OR opt = true ->
  exists e' k' r rv, rt_event_recv o s opt timeout e k = Some (e', k', r, rv) /\
    kernel_inv k' /\ event_inv o e' k' /\
    match event_match opt s (set e) with
    | Some got =>
        r = Done RT_EOK /\ rv = Some got /\ lists k' = lists k /\
        set e' = if has RT_EVENT_FLAG_CLEAR opt then Z.land (set e) (Z.lnot got) else set e
    | None =>
        e' = e /\ rv = None /\
        ((timeout = 0 /\ r = Done (- RT_ETIMEOUT) /\ lists k' = lists k) \/
         (timeout <> 0 /\ r = Blocked cur /\ request k' cur = (s, opt) /\
          (0 < timeout -> due_of (tsys k') (ThreadTimer cur) = timeout) /\
          exists ys zs, lists k !! LSuspend o = Some (ys ++ zs) /\
            lists k' !! LSuspend o = Some (ys ++ cur :: zs) /\
            queue_pos (flag e) k (current_priority cth) ys zs))
    end.
Proof.
  intros Hk He Hca Htm Hs Hopt. pose proof He as [Hset Hf (xs & Exs & Hx)].
  unfold rt_event_recv. rewrite (in_thread_context_caller k cur cth Hca).
  cbn [mbind option_bind]. rewrite (proj2 (Z.eqb_neq s 0) Hs).
  destruct (event_recv_test e s opt Hopt) as [-> Hgot]. cbn [mbind option_bind].
  set (k1 := upd_thread cur (set_error RT_EOK) k).
  assert (kernel_inv k1) as Hk1 by (by apply kernel_upd_same).
  assert (forall e' k', lists k' !! LSuspend o = lists k !! LSuspend o ->
    (forall t, event_view k' t = event_view k t) -> flag e' = flag e ->
    bits_le (set e') (set e) -> event_inv o e' k') as Hshrink.
  { intros e' k' El Ev Ef Hle. constructor; [|by rewrite Ef|].
    - unfold bits_le in Hle. rewrite <- Hle. by apply land_range.
    - exists xs. split; [by rewrite El|]. intros t Ht. rewrite (request_view k k') by done.
      eapply event_match_mono; [done|]. by apply Hx. }
  assert (forall t f, (forall th, event_set (f th) = event_set th /\ event_info (f th) = event_info th) ->
    forall k u, event_view (upd_thread t f k) u = event_view k u) as Hevu.
  { intros t f Hff k0 u. unfold event_view. simpl. rewrite lookup_alter. case_decide; [subst|done].
    destruct (threads k0 !! u) as [th|]; [simpl|done]. destruct (Hff th). congruence. }
  destruct (event_match opt s (set e)) as [got|] eqn:Em; simpl.
  { rewrite (Hgot got eq_refl). do 4 eexists. split; [done|]. split; [done|]. split.
    - apply Hshrink; [done|by apply Hevu|by case_match|].
      case_match; [apply bits_le_ldiff|apply bits_le_refl].
    - split_and!; try done. case_match; [simpl|done].
      by rewrite (Z.land_comm (set e) s), clear_received. }
  destruct (Z.eqb_spec timeout 0) as [->|Hnz].
  { do 4 eexists. split; [done|]. split; [by apply kernel_upd_same|].
    split; [|split_and!; try done; by left].
    apply Hshrink; [done| |done|apply bits_le_refl]. intros t.
    rewrite Hevu by done. by apply Hevu. }
  set (k2 := upd_thread cur (set_event s opt) k1).
  assert (caller k2 cur (set_event s opt (set_error RT_EOK cth))) as Hca2.
  { destruct Hca. constructor; try done. simpl. by rewrite !lookup_alter_eq, ca_thread0. }
  destruct (block_spec k2 (LSuspend o) cur (set_event s opt (set_error RT_EOK cth)) (flag e)
    timeout xs) as (ys & zs & k3 & k' & -> & E2 & -> & Hq & Hk' & Hl & _ & Hth & Hev & Hpr & Hti);
    try done.
  { by apply kernel_upd_same. }
  cbn [mbind option_bind]. rewrite E2. cbn [mbind option_bind].
  assert (request k' cur = (s, opt)) as Hreq by (unfold request, event_view; by rewrite Hth).
  assert (forall t, t <> cur -> request k' t = request k t) as Hreq'.
  { intros t Ht. apply request_view. rewrite Hev. unfold event_view. simpl.
    by rewrite !lookup_alter_ne. }
  do 4 eexists. split; [done|]. split; [done|]. split.
  - constructor; [done|done|]. eexists. split; [done|]. intros t Ht.
    destruct (decide (t = cur)) as [->|Hne]; [by rewrite Hreq|]. rewrite Hreq' by done.
    apply Hx. set_solver.
  - split; [done|]. split; [done|]. right. split_and!; try done.
    + intros Hp. rewrite (proj2 (Z.ltb_lt 0 timeout) Hp) in Hti. by destruct Hti.
    + exists ys, zs. split_and!; try done. eapply queue_pos_ext; [|exact Hq].
      intros u _. unfold k2, k1. rewrite (prio_of_upd _ cur (set_event s opt)) by done.
      symmetry. by apply prio_of_upd.
Qed.

(** ** Theorems *)

Definition sample_event : rt_event := mk_event 0x5 RT_IPC_FLAG_FIFO true.

Lemma sample_event_inv : event_inv 7 sample_event sample_ipc.
Proof.
  constructor; [done|by left|]. exists []. split; [apply sample_ipc_list|].
  intros t Ht. by apply not_elem_of_nil in Ht.
Qed.

(** C19. rt_event_send computes the abstract delivery: the waiters are
    visited in queue order, each whose AND/OR request is satisfied by the
    current set is woken with the events it received and, with CLEAR,
    consumes them before the next waiter is examined; the others stay queued
    in order. *)
Theorem rt_event_send_delivers o s e k :
  kernel_inv k -> event_inv o e k -> is_Some (rt_current_thread k) -> 0 < s < 2 ^ 32 ->
  exists e' k' xs waiting woken, rt_event_send o s e k = Some (e', k', RT_EOK) /\
    kernel_inv k' /\ event_inv o e' k' /\
    lists k !! LSuspend o = Some xs /\ lists k' !! LSuspend o = Some waiting /\
    deliver (request k) xs (Z.lor (set e) s) = (set e', waiting, woken) /\
    (forall u got, (u, got) ∈ woken -> exists th st, threads k !! u = Some th /\
       threads k' !! u = Some (set_stat st (set_event got (event_info th) th)) /\
       (st = RT_THREAD_READY \/ st = RT_THREAD_RUNNING)).
Proof. apply event_send_spec. Qed.

Lemma rt_event_send_delivers_witness :
  exists e' k', rt_event_send 7 0x8 sample_event sample_ipc = Some (e', k', RT_EOK) /\
    event_inv 7 e' k' /\ set e' = 0xd.
Proof.
  destruct (rt_event_send_delivers 7 0x8 sample_event sample_ipc sample_ipc_inv sample_event_inv)
    as (e' & k' & xs & waiting & woken & E & _ & He & Exs & _ & Hd & _);
    [by vm_compute; eexists|lia|].
  rewrite sample_ipc_list in Exs. injection Exs as <-. simpl in Hd. injection Hd as Hd _ _.
  exists e', k'. split; [exact E|]. split; [exact He|]. by rewrite <- Hd.
Defined.

(** rt_event_recv returns the matching events at once (clearing exactly them
    under CLEAR), and otherwise times out at once or records the request and
    suspends the caller in the wait queue with its timer armed. *)
Theorem rt_event_recv_correct o s opt timeout e k cur cth :
  kernel_inv k -> event_inv o e k -> caller k cur cth -> timeout < HALF -> s <> 0 ->
  has RT_EVENT_FLAG_AND opt || has RT_EVENT_FLAG_OR opt = true ->
  exists e' k' r rv, rt_event_recv o s opt timeout e k = Some (e', k', r, rv) /\
    kernel_inv k' /\ event_inv o e' k' /\
    match event_match opt s (set e) with
    | Some got =>
        r = Done RT_EOK /\ rv = Some got /\ lists k' = lists k /\
        set e' = if has RT_EVENT_FLAG_CLEAR opt then Z.land (set e) (Z.lnot got) else set e
    | None =>
        e' = e /\ rv = None /\
        ((timeout = 0 /\ r = Done (- RT_ETIMEOUT) /\ lists k' = lists k) \/
         (timeout <> 0 /\ r = Blocked cur /\ request k' cur = (s, opt) /\
          (0 < timeout -> due_of (tsys k') (ThreadTimer cur) = timeout) /\
          exists ys zs, lists k !! LSuspend o = Some (ys ++ zs) /\
            lists k' !! LSuspend o = Some (ys ++ cur :: zs) /\
            queue_pos (flag e) k (current_priority cth) ys zs))
    end.
Proof. apply event_recv_spec. Qed.

Lemma rt_event_recv_correct_witness :
  exists e' k', rt_event_recv 7 0x6 0x6 0 sample_event sample_ipc =
    Some (e', k', Done RT_EOK, Some 0x4) /\ set e' = 0x1.
Proof.
  destruct sample_ipc_caller as [cth Hca].
  destruct (rt_event_recv_correct 7 0x6 0x6 0 sample_event sample_ipc 1 cth sample_ipc_inv
    sample_event_inv Hca) as (e' & k' & r & rv & E & _ & _ & H); [done|done|done|].
  destruct H as (-> & -> & _ & H). exists e', k'. split; [exact E|exact H].
Defined.

End Event.
