(* ===== verification/Mailbox.v ===== *)
(** * Mailboxes

    Models [rt_mb_*] of [src/ipc.c]: a bounded FIFO of machine words in a
    circular array, with a wait list for receivers and one for senders.  The
    blocking loops are cut at their call to [rt_schedule]; the local variables
    that survive it ([timeout], [tick_delta]) are part of the blocked result. *)

From S2P Require Import Prelude RtList Timer KService Sched SchedInv ThreadOps Ipc.
Import RtList Timer KService Sched SchedInv ThreadOps Ipc.

Module Mailbox.

(** ** Data and operations *)

Record rt_mailbox := mk_mb {
  msg_pool : list Z;     (** rt_ubase_t array *)
  size : Z;              (** rt_uint16_t *)
  entry : Z;             (** rt_uint16_t *)
  in_offset : Z;         (** rt_uint16_t *)
  out_offset : Z;        (** rt_uint16_t *)
  flag : Z;
  static : bool;
}.

Inductive mb_result := MbDone (err : Z) | MbBlocked (t timeout tick_delta : Z).

Definition mb_lists_init (o : Z) (k : kernel) : kernel :=
  rt_ipc_object_init (LSender o) (rt_ipc_object_init (LSuspend o) k).

Definition rt_mb_init (o : Z) (pool : list Z) (sz fl : Z) (k : kernel) : rt_mailbox * kernel :=
  (mk_mb pool (u16 sz) 0 0 0 fl true, mb_lists_init o k).

(** [pool] is the result of the allocation for the messages. *)
Definition rt_mb_create (obj : option Z) (pool : option (list Z)) (sz fl : Z) (k : kernel)
  : option (option (Z * rt_mailbox) * kernel) :=
  _ ← RT_ASSERT (rt_interrupt_nest k =? 0);
  match obj, pool with
  | None, _ => Some (None, k)
  | Some o, None => Some (None, k)
  | Some o, Some p => Some (Some (o, mk_mb p (u16 sz) 0 0 0 fl false), mb_lists_init o k)
  end.

Definition rt_mb_detach (o : Z) (mb : rt_mailbox) (k : kernel) : option (kernel * Z) :=
  _ ← RT_ASSERT (static mb);
  k ← rt_ipc_list_resume_all (LSuspend o) k;
  k ← rt_ipc_list_resume_all (LSender o) k;
  Some (k, RT_EOK).

Definition rt_mb_delete (o : Z) (mb : rt_mailbox) (k : kernel) : option (kernel * Z) :=
  _ ← RT_ASSERT (rt_interrupt_nest k =? 0);
  _ ← RT_ASSERT (negb (static mb));
  k ← rt_ipc_list_resume_all (LSuspend o) k;
  k ← rt_ipc_list_resume_all (LSender o) k;
  Some (set_lists (delete (LSender o) (delete (LSuspend o) (lists k))) k, RT_EOK).

(** Queue the caller on [h] and switch away; the start tick is remembered if
    there is a time limit. *)
Definition mb_block (h : list_head) (timeout : Z) (mb : rt_mailbox) (k : kernel)
  : option (kernel * mb_result) :=
  t ← in_thread_context k;
  k ← wait_on h t (flag mb) timeout k;
  let tick_delta := if 0 <? timeout then rt_tick_get (tsys k) else 0 in
  k ← rt_schedule k;
  Some (k, MbBlocked t timeout tick_delta).

(** [rt_mb_send_wait] from the test of its loop on. *)
Definition mb_send_step (o v timeout : Z) (mb : rt_mailbox) (k : kernel)
  : option (rt_mailbox * kernel * mb_result) :=
  if entry mb =? size mb then
    t ← rt_thread_self k;
    let k := upd_thread t (set_error RT_EOK) k in
    if timeout =? 0 then Some (mb, k, MbDone (- RT_EFULL))
    else '(k, r) ← mb_block (LSender o) timeout mb k; Some (mb, k, r)
  else
    let pool := zset (msg_pool mb) (in_offset mb) v in
    let inn := u16 (in_offset mb + 1) in
    let inn := if size mb <=? inn then 0 else inn in
    let mb := mk_mb pool (size mb) (u16 (entry mb + 1)) inn (out_offset mb) (flag mb) (static mb) in
    k ← wake_first (LSuspend o) k;
    Some (mb, k, MbDone RT_EOK).

Definition rt_mb_send_wait (o v timeout : Z) (mb : rt_mailbox) (k : kernel)
  : option (rt_mailbox * kernel * mb_result) :=
  if (entry mb =? size mb) && (timeout =? 0) then Some (mb, k, MbDone (- RT_EFULL))
  else mb_send_step o v timeout mb k.

(** The recalculation of the time limit after a wait: [int] minus
    [rt_uint32_t] is computed unsigned and stored back into the [int]. *)
Definition remaining_timeout (timeout tick_delta : Z) (k : kernel) : Z :=
  if 0 <? timeout then
    let d := u32 (rt_tick_get (tsys k) - tick_delta) in
    let t := i32 (u32 (timeout - d)) in
    if t <? 0 then 0 else t
  else timeout.

Definition rt_mb_send_wait_resume (o v t timeout tick_delta : Z) (mb : rt_mailbox) (k : kernel)
  : option (rt_mailbox * kernel * mb_result) :=
  th ← threads k !! t;
  if negb (error th =? RT_EOK) then Some (mb, k, MbDone (error th))
  else mb_send_step o v (remaining_timeout timeout tick_delta k) mb k.

Definition rt_mb_send (o v : Z) (mb : rt_mailbox) (k : kernel)
  : option (rt_mailbox * kernel * mb_result) := rt_mb_send_wait o v 0 mb k.

(** [rt_mb_recv] from the test of its loop on; the last component is the value
    stored through [value], if any. *)
Definition mb_recv_step (o timeout : Z) (mb : rt_mailbox) (k : kernel)
  : option (rt_mailbox * kernel * mb_result * option Z) :=
  if entry mb =? 0 then
    t ← rt_thread_self k;
    let k := upd_thread t (set_error RT_EOK) k in
    if timeout =? 0 then
      Some (mb, upd_thread t (set_error (- RT_ETIMEOUT)) k, MbDone (- RT_ETIMEOUT), None)
    else '(k, r) ← mb_block (LSuspend o) timeout mb k; Some (mb, k, r, None)
  else
    let value := zget (msg_pool mb) (out_offset mb) in
    let out := u16 (out_offset mb + 1) in
    let out := if size mb <=? out then 0 else out in
    let mb := mk_mb (msg_pool mb) (size mb) (u16 (entry mb - 1)) (in_offset mb) out (flag mb)
                (static mb) in
    k ← wake_first (LSender o) k;
    Some (mb, k, MbDone RT_EOK, Some value).

Definition rt_mb_recv (o timeout : Z) (mb : rt_mailbox) (k : kernel)
  : option (rt_mailbox * kernel * mb_result * option Z) :=
  if (entry mb =? 0) && (timeout =? 0) then Some (mb, k, MbDone (- RT_ETIMEOUT), None)
  else mb_recv_step o timeout mb k.

Definition rt_mb_recv_resume (o t timeout tick_delta : Z) (mb : rt_mailbox) (k : kernel)
  : option (rt_mailbox * kernel * mb_result * option Z) :=
  th ← threads k !! t;
  if negb (error th =? RT_EOK) then Some (mb, k, MbDone (error th), None)
  else mb_recv_step o (remaining_timeout timeout tick_delta k) mb k.

Inductive mb_cmd := RT_IPC_CMD_RESET | RT_IPC_CMD_OTHER.

Definition rt_mb_control (o : Z) (cmd : mb_cmd) (mb : rt_mailbox) (k : kernel)
  : option (rt_mailbox * kernel * Z) :=
  match cmd with
  | RT_IPC_CMD_RESET =>
      k ← rt_ipc_list_resume_all (LSuspend o) k;
      k ← rt_ipc_list_resume_all (LSender o) k;
      let mb := mk_mb (msg_pool mb) (size mb) 0 0 0 (flag mb) (static mb) in
      k ← rt_schedule k;
      Some (mb, k, RT_EOK)
  | RT_IPC_CMD_OTHER => Some (mb, k, - RT_ERROR)
  end.

(** ** Invariant and abstraction *)

Record mb_inv (o : Z) (mb : rt_mailbox) (k : kernel) : Prop := {
  mb_size : 0 < size mb < 2 ^ 16;
  mb_pool : zlen (msg_pool mb) = size mb;
  mb_entry : 0 <= entry mb <= size mb;
  mb_out : 0 <= out_offset mb < size mb;
  mb_in : in_offset mb = (out_offset mb + entry mb) mod size mb;
  mb_flag : flag mb = RT_IPC_FLAG_FIFO \/ flag mb = RT_IPC_FLAG_PRIO;
  mb_receivers : is_Some (lists k !! LSuspend o);
  mb_senders : is_Some (lists k !! LSender o);
}.

(** The mails in the box, oldest first. *)
Definition mails (mb : rt_mailbox) : list Z :=
  ring (msg_pool mb) (size mb) (out_offset mb) (entry mb).

Lemma mb_inv_lists o mb k k' :
  is_Some (lists k' !! LSuspend o) -> is_Some (lists k' !! LSender o) ->
  mb_inv o mb k -> mb_inv o mb k'.
Proof. intros ? ? []. by constructor. Qed.

#[export] Program Instance mb_object : IpcObject rt_mailbox := {| ipc_inv := mb_inv |}.
Next Obligation.
  intros o mb k k' [Hv _] Hi. eapply mb_inv_lists; [..|exact Hi];
    rewrite Hv by (by left + by right); apply Hi.
Qed.
Next Obligation.
  intros o mb k k' t [Hv _] Hi. eapply mb_inv_lists; [..|exact Hi];
    rewrite Hv by (by left + by right); rewrite fmap_is_Some; apply Hi.
Qed.

(** ** Lemmas *)

Lemma mb_block_spec k o h timeout mb cur cth :
  kernel_inv k -> mb_inv o mb k -> caller k cur cth -> h = LSuspend o \/ h = LSender o ->
  timeout < HALF ->
  exists ys zs k' d, mb_block h timeout mb k = Some (k', MbBlocked cur timeout d) /\
    kernel_inv k' /\ mb_inv o mb k' /\
    lists k !! h = Some (ys ++ zs) /\ lists k' !! h = Some (ys ++ cur :: zs) /\
    queue_pos (flag mb) k (current_priority cth) ys zs /\
    threads k' !! cur = Some (set_stat RT_THREAD_SUSPEND cth) /\
    (0 < timeout -> due_of (tsys k') (ThreadTimer cur) = timeout).
Proof.
  intros Hk Hi Hca Hh Htm. unfold mb_block. rewrite (in_thread_context_caller k cur cth Hca).
  cbn [mbind option_bind].
  assert (is_wait h) as Hw by (by destruct Hh as [->| ->]).
  assert (is_Some (lists k !! h)) as [xs Exs] by (destruct Hh as [->| ->]; apply Hi).
  destruct (block_spec k h cur cth (flag mb) timeout xs)
    as (ys & zs & k1 & k' & -> & E2 & -> & Hq & Hk' & Hl & Ho & Hth & _ & _ & Hti);
    try done; [apply Hi|].
  cbn [mbind option_bind]. rewrite E2. cbn [mbind option_bind].
  eexists ys, zs, k', _. split; [done|]. split; [done|]. split; [|split_and!; try done].
  - assert (forall h', is_wait h' -> is_Some (lists k !! h') -> is_Some (lists k' !! h')) as Hs.
    { intros h' Hw' Hx. destruct (decide (h' = h)) as [->|Hne]; [by rewrite Hl|by rewrite Ho]. }
    eapply mb_inv_lists; [..|exact Hi]; apply Hs; try done; apply Hi.
  - intros Hp. rewrite (proj2 (Z.ltb_lt 0 timeout) Hp) in Hti. by destruct Hti.
Qed.

Lemma mb_wake k o h mb :
  kernel_inv k -> mb_inv o mb k -> is_Some (rt_current_thread k) ->
  h = LSuspend o \/ h = LSender o ->
  exists k', wake_first h k = Some k' /\ kernel_inv k' /\ mb_inv o mb k' /\ woke_first h k k'.
Proof.
  intros Hk Hi Hcur Hh. assert (is_wait h) as Hw by (by destruct Hh as [->| ->]).
  destruct (wake_first_spec k h) as (k' & E & Hk' & Hwf & (xs & E1 & E2) & Ho); try done.
  { destruct Hh as [->| ->]; apply Hi. }
  exists k'. split_and!; try done.
  assert (forall h', is_wait h' -> is_Some (lists k !! h') -> is_Some (lists k' !! h')) as Hs.
  { intros h' Hw' Hx. destruct (decide (h' = h)) as [->|Hne]; [by rewrite E2|by rewrite Ho]. }
  eapply mb_inv_lists; [..|exact Hi]; apply Hs; try done; apply Hi.
Qed.

Lemma mb_send_spec o v timeout mb k cur cth :
  kernel_inv k -> mb_inv o mb k -> caller k cur cth -> timeout < HALF ->
  exists mb' k' r, rt_mb_send_wait o v timeout mb k = Some (mb', k', r) /\
    kernel_inv k' /\ mb_inv o mb' k' /\ size mb' = size mb /\
    ((entry mb < size mb /\ r = MbDone RT_EOK /\ mails mb' = mails mb ++ [v] /\
      woke_first (LSuspend o) k k') \/
     (entry mb = size mb /\ timeout = 0 /\ r = MbDone (- RT_EFULL) /\ mb' = mb /\ k' = k) \/
     (entry mb = size mb /\ timeout <> 0 /\ mb' = mb /\
      exists d ys zs, r = MbBlocked cur timeout d /\
        lists k !! LSender o = Some (ys ++ zs) /\ lists k' !! LSender o = Some (ys ++ cur :: zs) /\
        queue_pos (flag mb) k (current_priority cth) ys zs /\
        (0 < timeout -> due_of (tsys k') (ThreadTimer cur) = timeout))).
Proof.
  intros Hk Hi Hca Htm. pose proof Hi as [Hsz Hpl Hen Hou Hin Hf Hr Hs].
  unfold rt_mb_send_wait, mb_send_step.
  destruct (Z.eqb_spec (entry mb) (size mb)) as [Hfull|Hnf]; cbn [andb].
  - destruct (Z.eqb_spec timeout 0) as [->|Hnz].
    { do 3 eexists. split; [done|]. split_and!; try done. right; left. by split_and!. }
    unfold rt_thread_self. rewrite (ca_current _ _ _ Hca). cbn [mbind option_bind].
    set (k1 := upd_thread cur (set_error RT_EOK) k).
    destruct (mb_block_spec k1 o (LSender o) timeout mb cur (set_error RT_EOK cth))
      as (ys & zs & k' & d & -> & Hk' & Hi' & Hl & Hl' & Hq & _ & Hd); try done.
    { by apply kernel_upd_same. }
    { destruct Hca. constructor; try done. simpl. by rewrite lookup_alter_eq, ca_thread0. }
    { by right. }
    cbn [mbind option_bind]. do 3 eexists. split; [done|]. split_and!; try done.
    right; right. split_and!; try done. exists d, ys, zs. split_and!; try done.
    eapply queue_pos_ext; [|exact Hq]. intros u _. symmetry. by apply prio_of_upd.
  - pose proof (Z.mod_pos_bound (out_offset mb + entry mb) (size mb) ltac:(lia)) as Hb.
    rewrite !wrapu_small by lia. rewrite advance_mod by lia.
    set (mb' := mk_mb _ _ _ _ _ _ _).
    assert (mb_inv o mb' k) as Hi'.
    { constructor; simpl; try done; try lia; [by rewrite zlen_zset|].
      rewrite Hin. rewrite Zplus_mod_idemp_l. f_equal. lia. }
    destruct (mb_wake k o (LSuspend o) mb') as (k' & -> & Hk' & Hi2 & Hwf); try done;
      [rewrite (ca_current _ _ _ Hca); eauto|by left|].
    cbn [mbind option_bind]. do 3 eexists. split; [done|]. split_and!; try done.
    left. split_and!; try done; [lia|]. unfold mails, mb'. simpl. rewrite Hin.
    apply ring_push; lia.
Qed.

Lemma mb_recv_spec o timeout mb k cur cth :
  kernel_inv k -> mb_inv o mb k -> caller k cur cth -> timeout < HALF ->
  exists mb' k' r rv, rt_mb_recv o timeout mb k = Some (mb', k', r, rv) /\
    kernel_inv k' /\ mb_inv o mb' k' /\ size mb' = size mb /\
    ((exists v, 0 < entry mb /\ r = MbDone RT_EOK /\ rv = Some v /\ mails mb = v :: mails mb' /\
      woke_first (LSender o) k k') \/
     (entry mb = 0 /\ timeout = 0 /\ r = MbDone (- RT_ETIMEOUT) /\ rv = None /\ mb' = mb /\
      k' = k) \/
     (entry mb = 0 /\ timeout <> 0 /\ rv = None /\ mb' = mb /\
      exists d ys zs, r = MbBlocked cur timeout d /\
        lists k !! LSuspend o = Some (ys ++ zs) /\ lists k' !! LSuspend o = Some (ys ++ cur :: zs) /\
        queue_pos (flag mb) k (current_priority cth) ys zs /\
        (0 < timeout -> due_of (tsys k') (ThreadTimer cur) = timeout))).
Proof.
  intros Hk Hi Hca Htm. pose proof Hi as [Hsz Hpl Hen Hou Hin Hf Hr Hs].
  unfold rt_mb_recv, mb_recv_step.
  destruct (Z.eqb_spec (entry mb) 0) as [Hempty|Hne]; cbn [andb].
  - destruct (Z.eqb_spec timeout 0) as [->|Hnz].
    { do 4 eexists. split; [done|]. split_and!; try done. right; left. by split_and!. }
    unfold rt_thread_self. rewrite (ca_current _ _ _ Hca). cbn [mbind option_bind].
    set (k1 := upd_thread cur (set_error RT_EOK) k).
    destruct (mb_block_spec k1 o (LSuspend o) timeout mb cur (set_error RT_EOK cth))
      as (ys & zs & k' & d & -> & Hk' & Hi' & Hl & Hl' & Hq & _ & Hd); try done.
    { by apply kernel_upd_same. }
    { destruct Hca. constructor; try done. simpl. by rewrite lookup_alter_eq, ca_thread0. }
    { by left. }
    cbn [mbind option_bind]. do 4 eexists. split; [done|]. split_and!; try done.
    right; right. split_and!; try done. exists d, ys, zs. split_and!; try done.
    eapply queue_pos_ext; [|exact Hq]. intros u _. symmetry. by apply prio_of_upd.
  - rewrite !wrapu_small by lia. rewrite advance_mod by lia.
    set (mb' := mk_mb _ _ _ _ _ _ _).
    pose proof (Z.mod_pos_bound (out_offset mb + 1) (size mb) ltac:(lia)) as Hb.
    assert (mb_inv o mb' k) as Hi'.
    { constructor; simpl; try done; try lia.
      rewrite Zplus_mod_idemp_l, Hin. f_equal. lia. }
    destruct (mb_wake k o (LSender o) mb') as (k' & -> & Hk' & Hi2 & Hwf); try done;
      [rewrite (ca_current _ _ _ Hca); eauto|by right|].
    cbn [mbind option_bind]. do 4 eexists. split; [done|]. split_and!; try done.
    left. eexists. split_and!; try done; [lia|]. unfold mails. simpl. apply ring_pop; lia.
Qed.

(** ** Theorems *)

Definition sample_mbk : kernel := rt_ipc_object_init (LSender 7) sample_ipc.
Definition sample_mb : rt_mailbox := mk_mb [0; 0; 42] 3 1 0 2 RT_IPC_FLAG_FIFO true.

Lemma sample_mbk_inv : kernel_inv sample_mbk.
Proof. apply object_init_inv; [apply sample_ipc_inv|done|by vm_compute]. Qed.

Lemma sample_mb_inv : mb_inv 7 sample_mb sample_mbk.
Proof.
  constructor; [simpl; lia|done|simpl; lia|simpl; lia|done|by left|..]; simpl.
  - rewrite lookup_insert_ne by done. rewrite sample_ipc_list. eauto.
  - rewrite lookup_insert_eq. eauto.
Qed.

Lemma sample_mb_caller : exists th, caller sample_mbk 1 th.
Proof.
  destruct sample_ipc_caller as [th Hca]. exists th. unfold sample_mbk.
  by apply caller_object_init.
Qed.

#[global] Opaque sample_mbk.

(** C35. A mailbox is a bounded FIFO: rt_mb_send_wait appends the mail and
    wakes the first receiver, rt_mb_recv removes and returns the oldest mail
    and wakes the first blocked sender; on a full or empty mailbox they
    return -RT_EFULL or -RT_ETIMEOUT or queue the caller with its timer
    armed. *)
Theorem mailbox_fifo o v timeout mb k cur cth :
  kernel_inv k -> mb_inv o mb k -> caller k cur cth -> timeout < HALF ->
  (exists mb' k' r, rt_mb_send_wait o v timeout mb k = Some (mb', k', r) /\
    kernel_inv k' /\ mb_inv o mb' k' /\ size mb' = size mb /\
    ((entry mb < size mb /\ r = MbDone RT_EOK /\ mails mb' = mails mb ++ [v] /\
      woke_first (LSuspend o) k k') \/
     (entry mb = size mb /\ timeout = 0 /\ r = MbDone (- RT_EFULL) /\ mb' = mb /\ k' = k) \/
     (entry mb = size mb /\ timeout <> 0 /\ mb' = mb /\
      exists d ys zs, r = MbBlocked cur timeout d /\
        lists k !! LSender o = Some (ys ++ zs) /\ lists k' !! LSender o = Some (ys ++ cur :: zs) /\
        queue_pos (flag mb) k (current_priority cth) ys zs /\
        (0 < timeout -> due_of (tsys k') (ThreadTimer cur) = timeout)))) /\
  (exists mb' k' r rv, rt_mb_recv o timeout mb k = Some (mb', k', r, rv) /\
    kernel_inv k' /\ mb_inv o mb' k' /\ size mb' = size mb /\
    ((exists v, 0 < entry mb /\ r = MbDone RT_EOK /\ rv = Some v /\ mails mb = v :: mails mb' /\
      woke_first (LSender o) k k') \/
     (entry mb = 0 /\ timeout = 0 /\ r = MbDone (- RT_ETIMEOUT) /\ rv = None /\ mb' = mb /\
      k' = k) \/
     (entry mb = 0 /\ timeout <> 0 /\ rv = None /\ mb' = mb /\
      exists d ys zs, r = MbBlocked cur timeout d /\
        lists k !! LSuspend o = Some (ys ++ zs) /\ lists k' !! LSuspend o = Some (ys ++ cur :: zs) /\
        queue_pos (flag mb) k (current_priority cth) ys zs /\
        (0 < timeout -> due_of (tsys k') (ThreadTimer cur) = timeout)))).
Proof. intros Hk Hi Hca Ht. split; [by apply (mb_send_spec o v)|by apply mb_recv_spec]. Qed.

Lemma mailbox_fifo_witness :
  (exists mb' k', rt_mb_send_wait 7 43 0 sample_mb sample_mbk = Some (mb', k', MbDone RT_EOK) /\
    mails mb' = [42; 43]) /\
  (exists mb' k', rt_mb_recv 7 0 sample_mb sample_mbk = Some (mb', k', MbDone RT_EOK, Some 42) /\
    mails mb' = []).
Proof.
  destruct sample_mb_caller as [cth Hca].
  destruct (mailbox_fifo 7 43 0 sample_mb sample_mbk 1 cth sample_mbk_inv sample_mb_inv Hca)
    as [(mb' & k' & r & E & _ & _ & _ & H) (mb2 & k2 & r2 & rv & E2 & _ & _ & _ & H2)]; [done|].
  destruct H as [(_ & -> & Hm & _)|[[H _]|[H _]]]; [|discriminate H..].
  destruct H2 as [(v & _ & -> & -> & Hm2 & _)|[[H2 _]|[H2 _]]]; [|discriminate H2..].
  change (mails sample_mb) with [42] in Hm2. injection Hm2 as <- Hm2.
  split; [exists mb', k'|exists mb2, k2]; split;
    [exact E|exact Hm|exact E2|exact (eq_sym Hm2)].
Defined.

(** When a blocked mailbox or message-queue call retries, the time limit it
    continues with is the original one less the ticks that elapsed, at least
    0, across the 32-bit wrap of the tick. *)
Theorem remaining_timeout_elapsed timeout tick_delta k elapsed :
  0 < timeout < 2 ^ 31 -> 0 <= elapsed < 2 ^ 31 -> 0 <= tick_delta < 2 ^ 32 ->
  rt_tick (tsys k) = u32 (tick_delta + elapsed) ->
  remaining_timeout timeout tick_delta k = Z.max 0 (timeout - elapsed).
Proof.
  intros Ht He Hd Htick. unfold remaining_timeout, rt_tick_get. rewrite Htick.
  destruct (Z.ltb_spec 0 timeout); [|lia].
  assert (u32 (u32 (tick_delta + elapsed) - tick_delta) = elapsed) as ->.
  { unfold wrapu. rewrite Zminus_mod_idemp_l. replace (tick_delta + elapsed - tick_delta)
      with elapsed by lia. apply Z.mod_small. lia. }
  assert (i32 (u32 (timeout - elapsed)) = timeout - elapsed) as ->.
  { destruct (wrapu_cong 32 (timeout - elapsed)) as [c ->]; [lia|]. unfold wraps.
    replace (timeout - elapsed + c * 2 ^ 32 + 2 ^ (32 - 1))
      with (timeout - elapsed + 2 ^ (32 - 1) + c * 2 ^ 32) by lia.
    rewrite Z_mod_plus_full, Z.mod_small; lia. }
  case_bool; lia.
Qed.

Lemma remaining_timeout_elapsed_witness :
  remaining_timeout 100 0xfffffff0 (set_tsys (rt_tick_set 0x10 (rt_system_timer_init 0)) boot)
    = 68.
Proof. rewrite (remaining_timeout_elapsed 100 0xfffffff0 _ 32); [done|lia..|done]. Defined.

End Mailbox.
