(* ===== verification/MsgQueue.v ===== *)
(** * Message queues

    Models [rt_mq_*] of [src/ipc.c]: fixed-size message slots linked into a
    queue (head and tail pointer) and a free list.  Sending and receiving take a
    slot out of one list and put it into the other in two separate critical
    sections with the copy in between, where interrupts are enabled; the
    definitions keep these sections apart, and the invariant accounts for the
    slots that are in flight between them. *)

From S2P Require Import Prelude RtList Timer KService Sched SchedInv ThreadOps Ipc Mailbox.
Import RtList Timer KService Sched SchedInv ThreadOps Ipc.

Module MsgQueue.

(** ** Data *)

(** A slot: [struct rt_mq_message] and the message bytes behind it. *)
Record mq_slot := mk_slot { next : option Z; payload : list Z }.

(** Slot addresses are their numbers in the pool. *)
Record rt_messagequeue := mk_mq {
  slots : gmap Z mq_slot;         (** [msg_pool] *)
  msg_size : Z;                   (** rt_uint16_t *)
  max_msgs : Z;                   (** rt_uint16_t *)
  entry : Z;                      (** rt_uint16_t *)
  msg_queue_head : option Z;
  msg_queue_tail : option Z;
  msg_queue_free : option Z;
  flag : Z;
  static : bool;
}.

Definition with_slots (m : gmap Z mq_slot) (mq : rt_messagequeue) : rt_messagequeue :=
  mk_mq m (msg_size mq) (max_msgs mq) (entry mq) (msg_queue_head mq) (msg_queue_tail mq)
    (msg_queue_free mq) (flag mq) (static mq).
Definition with_free (p : option Z) (mq : rt_messagequeue) : rt_messagequeue :=
  mk_mq (slots mq) (msg_size mq) (max_msgs mq) (entry mq) (msg_queue_head mq)
    (msg_queue_tail mq) p (flag mq) (static mq).
Definition with_queue (h t : option Z) (n : Z) (mq : rt_messagequeue) : rt_messagequeue :=
  mk_mq (slots mq) (msg_size mq) (max_msgs mq) n h t (msg_queue_free mq) (flag mq) (static mq).

(** [msg->next = p]. *)
Definition set_next (msg : Z) (p : option Z) (mq : rt_messagequeue) : option rt_messagequeue :=
  s ← slots mq !! msg; Some (with_slots (<[msg := mk_slot p (payload s)]> (slots mq)) mq).
Definition get_next (msg : Z) (mq : rt_messagequeue) : option (option Z) :=
  next <$> slots mq !! msg.
(** [rt_memcpy(msg + 1, buffer, size)]. *)
Definition fill (msg : Z) (buffer : list Z) (size : Z) (mq : rt_messagequeue)
  : option rt_messagequeue :=
  s ← slots mq !! msg;
  Some (with_slots (<[msg := mk_slot (next s) (memcpy (payload s) 0 buffer size)]> (slots mq)) mq).

(** ** Operations *)

(** The loop that links all slots into the free list. *)
Fixpoint mq_free_all (temp : nat) (mq : rt_messagequeue) : option rt_messagequeue :=
  match temp with
  | O => Some mq
  | S n =>
      mq ← mq_free_all n mq;
      mq ← set_next (Z.of_nat n) (msg_queue_free mq) mq;
      Some (with_free (Some (Z.of_nat n)) mq)
  end.

Definition sizeof_message : Z := 4.

(** [pool] is the memory of the slots. *)
Definition rt_mq_init (o : Z) (pool : gmap Z mq_slot) (msize pool_size fl : Z) (k : kernel)
  : option (rt_messagequeue * kernel) :=
  let ms := u16 (RT_ALIGN msize RT_ALIGN_SIZE) in
  let mx := u16 (pool_size / (ms + sizeof_message)) in
  mq ← mq_free_all (Z.to_nat mx) (mk_mq pool ms mx 0 None None None fl true);
  Some (mq, rt_ipc_object_init (LSuspend o) k).

Definition rt_mq_create (obj : option Z) (pool : option (gmap Z mq_slot)) (msize mx fl : Z)
    (k : kernel) : option (option (Z * rt_messagequeue) * kernel) :=
  _ ← RT_ASSERT (rt_interrupt_nest k =? 0);
  match obj, pool with
  | None, _ => Some (None, k)
  | Some o, None => Some (None, k)
  | Some o, Some p =>
      mq ← mq_free_all (Z.to_nat (u16 mx))
             (mk_mq p (u16 (RT_ALIGN msize RT_ALIGN_SIZE)) (u16 mx) 0 None None None fl false);
      Some (Some (o, mq), rt_ipc_object_init (LSuspend o) k)
  end.

Definition rt_mq_detach (o : Z) (mq : rt_messagequeue) (k : kernel) : option (kernel * Z) :=
  _ ← RT_ASSERT (static mq);
  k ← rt_ipc_list_resume_all (LSuspend o) k;
  Some (k, RT_EOK).

Definition rt_mq_delete (o : Z) (mq : rt_messagequeue) (k : kernel) : option (kernel * Z) :=
  _ ← RT_ASSERT (rt_interrupt_nest k =? 0);
  _ ← RT_ASSERT (negb (static mq));
  k ← rt_ipc_list_resume_all (LSuspend o) k;
  Some (set_lists (delete (LSuspend o) (lists k)) k, RT_EOK).

(** First critical section of a send: [None] inside means no free slot. *)
Definition mq_get_free (mq : rt_messagequeue) : option (option (rt_messagequeue * Z)) :=
  match msg_queue_free mq with
  | None => Some None
  | Some msg => n ← get_next msg mq; Some (Some (with_free n mq, msg))
  end.

(** Second critical section of [rt_mq_send] ... *)
Definition mq_link_tail (msg : Z) (mq : rt_messagequeue) : option rt_messagequeue :=
  mq ← match msg_queue_tail mq with
       | Some t => set_next t (Some msg) mq
       | None => Some mq
       end;
  let h := match msg_queue_head mq with Some h => Some h | None => Some msg end in
  Some (with_queue h (Some msg) (u16 (entry mq + 1)) mq).

(** ... and of [rt_mq_urgent]. *)
Definition mq_link_head (msg : Z) (mq : rt_messagequeue) : option rt_messagequeue :=
  mq ← set_next msg (msg_queue_head mq) mq;
  let t := match msg_queue_tail mq with Some t => Some t | None => Some msg end in
  Some (with_queue (Some msg) t (u16 (entry mq + 1)) mq).

Definition rt_mq_send (o : Z) (buffer : list Z) (size : Z) (mq : rt_messagequeue) (k : kernel)
  : option (rt_messagequeue * kernel * Z) :=
  _ ← RT_ASSERT (negb (size =? 0));
  if msg_size mq <? size then Some (mq, k, - RT_ERROR)
  else
    r ← mq_get_free mq;
    match r with
    | None => Some (mq, k, - RT_EFULL)
    | Some (mq, msg) =>
        mq ← set_next msg None mq;
        mq ← fill msg buffer size mq;
        mq ← mq_link_tail msg mq;
        k ← wake_first (LSuspend o) k;
        Some (mq, k, RT_EOK)
    end.

Definition rt_mq_urgent (o : Z) (buffer : list Z) (size : Z) (mq : rt_messagequeue) (k : kernel)
  : option (rt_messagequeue * kernel * Z) :=
  _ ← RT_ASSERT (negb (size =? 0));
  if msg_size mq <? size then Some (mq, k, - RT_ERROR)
  else
    r ← mq_get_free mq;
    match r with
    | None => Some (mq, k, - RT_EFULL)
    | Some (mq, msg) =>
        mq ← fill msg buffer size mq;
        mq ← mq_link_head msg mq;
        k ← wake_first (LSuspend o) k;
        Some (mq, k, RT_EOK)
    end.

(** The two critical sections of a receive. *)
Definition mq_unlink_head (mq : rt_messagequeue) : option (rt_messagequeue * Z) :=
  msg ← msg_queue_head mq;
  n ← get_next msg mq;
  let t := if bool_decide (msg_queue_tail mq = Some msg) then None else msg_queue_tail mq in
  Some (with_queue n t (u16 (entry mq - 1)) mq, msg).

Definition mq_put_free (msg : Z) (mq : rt_messagequeue) : option rt_messagequeue :=
  mq ← set_next msg (msg_queue_free mq) mq; Some (with_free (Some msg) mq).

(** [rt_mq_recv] from the test of its loop on; the last component is what is
    copied into the caller's buffer of [size] bytes. *)
Definition mq_recv_step (o size timeout : Z) (mq : rt_messagequeue) (k : kernel)
  : option (rt_messagequeue * kernel * Mailbox.mb_result * option (list Z)) :=
  if entry mq =? 0 then
    t ← in_thread_context k;
    let k := upd_thread t (set_error RT_EOK) k in
    if timeout =? 0 then
      Some (mq, upd_thread t (set_error (- RT_ETIMEOUT)) k,
            Mailbox.MbDone (- RT_ETIMEOUT), None)
    else
      k ← wait_on (LSuspend o) t (flag mq) timeout k;
      let tick_delta := if 0 <? timeout then rt_tick_get (tsys k) else 0 in
      k ← rt_schedule k;
      Some (mq, k, Mailbox.MbBlocked t timeout tick_delta, None)
  else
    '(mq, msg) ← mq_unlink_head mq;
    s ← slots mq !! msg;
    let bytes := take (Z.to_nat (if msg_size mq <? size then msg_size mq else size)) (payload s) in
    mq ← mq_put_free msg mq;
    Some (mq, k, Mailbox.MbDone RT_EOK, Some bytes).

Definition rt_mq_recv (o size timeout : Z) (mq : rt_messagequeue) (k : kernel)
  : option (rt_messagequeue * kernel * Mailbox.mb_result * option (list Z)) :=
  _ ← RT_ASSERT (negb (size =? 0));
  if (entry mq =? 0) && (timeout =? 0) then
    Some (mq, k, Mailbox.MbDone (- RT_ETIMEOUT), None)
  else mq_recv_step o size timeout mq k.

Definition rt_mq_recv_resume (o size t timeout tick_delta : Z) (mq : rt_messagequeue)
    (k : kernel) : option (rt_messagequeue * kernel * Mailbox.mb_result * option (list Z)) :=
  th ← threads k !! t;
  if negb (error th =? RT_EOK) then Some (mq, k, Mailbox.MbDone (error th), None)
  else mq_recv_step o size (Mailbox.remaining_timeout timeout tick_delta k) mq k.

(** The loop of the reset command, one message per unit of fuel. *)
Fixpoint mq_release_all (fuel : nat) (mq : rt_messagequeue) : option rt_messagequeue :=
  match msg_queue_head mq, fuel with
  | None, _ => Some mq
  | Some _, O => None
  | Some msg, S fuel =>
      n ← get_next msg mq;
      let t := if bool_decide (msg_queue_tail mq = Some msg) then None else msg_queue_tail mq in
      let mq := with_queue n t (entry mq) mq in
      mq ← mq_put_free msg mq;
      mq_release_all fuel mq
  end.

Inductive mq_cmd := RT_IPC_CMD_RESET | RT_IPC_CMD_OTHER.

Definition rt_mq_control (o : Z) (cmd : mq_cmd) (mq : rt_messagequeue) (k : kernel)
  : option (rt_messagequeue * kernel * Z) :=
  match cmd with
  | RT_IPC_CMD_RESET =>
      k ← rt_ipc_list_resume_all (LSuspend o) k;
      mq ← mq_release_all (Z.to_nat (max_msgs mq)) mq;
      let mq := with_queue (msg_queue_head mq) (msg_queue_tail mq) 0 mq in
      k ← rt_schedule k;
      Some (mq, k, RT_EOK)
  | RT_IPC_CMD_OTHER => Some (mq, k, - RT_ERROR)
  end.

(** ** Representation *)

(** Following [next] from [p] visits [xs] and ends in a null pointer. *)
Fixpoint chain (m : gmap Z mq_slot) (p : option Z) (xs : list Z) : Prop :=
  match xs with
  | [] => p = None
  | x :: xs => p = Some x /\ exists s, m !! x = Some s /\ chain m (next s) xs
  end.

(** Slots [qs] are queued, [fs] are free and [ds] are in flight. *)
Record mq_shape (mq : rt_messagequeue) (qs fs ds : list Z) : Prop := {
  sh_queue : chain (slots mq) (msg_queue_head mq) qs;
  sh_free : chain (slots mq) (msg_queue_free mq) fs;
  sh_tail : msg_queue_tail mq = last qs;
  sh_entry : entry mq = zlen qs;
  sh_nodup : NoDup (qs ++ fs ++ ds);
  sh_total : zlen (qs ++ fs ++ ds) = max_msgs mq;
  sh_max : 0 <= max_msgs mq < 2 ^ 16;
  sh_slots : forall x, x ∈ qs ++ fs ++ ds ->
    exists s, slots mq !! x = Some s /\ zlen (payload s) = msg_size mq;
}.

(** The messages in the queue, oldest first. *)
Definition payload_of (mq : rt_messagequeue) (x : Z) : list Z :=
  match slots mq !! x with Some s => payload s | None => [] end.
Definition messages (mq : rt_messagequeue) (qs : list Z) : list (list Z) := payload_of mq <$> qs.

(** ** Chains *)

Lemma chain_insert m p xs y s :
  y ∉ xs -> chain m p xs -> chain (<[y := s]> m) p xs.
Proof.
  revert p. induction xs as [|x xs IH]; intros p Hy; simpl; [done|].
  intros (-> & s' & Hs & Hc). split; [done|]. exists s'.
  rewrite lookup_insert_ne by set_solver. split; [done|]. apply IH; [set_solver|done].
Qed.

(** Changing only payloads. *)
Lemma chain_payload m p xs y s b :
  m !! y = Some s -> chain m p xs -> chain (<[y := mk_slot (next s) b]> m) p xs.
Proof.
  intros Hy. revert p. induction xs as [|x xs IH]; intros p; simpl; [done|].
  intros (-> & s' & Hs & Hc). split; [done|]. rewrite lookup_insert. case_decide as E.
  - subst. assert (s' = s) as -> by congruence. eexists. split; [done|]. simpl. by apply IH.
  - exists s'. split; [done|]. by apply IH.
Qed.

(** Appending behind the last slot. *)
Lemma chain_append m p xs t y st sy :
  m !! t = Some st -> m !! y = Some sy -> next sy = None -> y ∉ xs ++ [t] ->
  NoDup (xs ++ [t]) -> chain m p (xs ++ [t]) ->
  chain (<[t := mk_slot (Some y) (payload st)]> m) p ((xs ++ [t]) ++ [y]).
Proof.
  intros Ht Hy Hny Hnin. revert p. induction xs as [|x xs IH]; intros p Hnd; simpl.
  - intros (-> & s & Hs & Hc). split; [done|]. exists (mk_slot (Some y) (payload st)).
    rewrite lookup_insert_eq. split; [done|]. simpl. split; [done|]. exists sy.
    rewrite lookup_insert_ne by set_solver. split; [done|]. done.
  - simpl in Hnd. apply NoDup_cons in Hnd as [Hx Hnd].
    intros (-> & s & Hs & Hc). split; [done|]. exists s.
    rewrite lookup_insert_ne by set_solver. split; [done|].
    apply IH; [set_solver|done|done].
Qed.

(** ** The critical sections *)

Lemma set_next_shape mq qs fs ds m p :
  mq_shape mq qs fs ds -> m ∈ ds ->
  exists mq', set_next m p mq = Some mq' /\ mq_shape mq' qs fs ds /\
    get_next m mq' = Some p /\ (forall x, payload_of mq' x = payload_of mq x) /\
    msg_size mq' = msg_size mq /\ max_msgs mq' = max_msgs mq /\
    msg_queue_head mq' = msg_queue_head mq /\ msg_queue_free mq' = msg_queue_free mq /\
    flag mq' = flag mq.
Proof.
  intros [] Hm. destruct (sh_slots0 m) as (s & Es & Hlen); [set_solver|].
  unfold set_next. rewrite Es. cbn [mbind option_bind]. eexists. split; [done|].
  assert (m ∉ qs /\ m ∉ fs) as [Hmq Hmf].
  { apply NoDup_app in sh_nodup0 as (_ & H1 & H2). apply NoDup_app in H2 as (_ & H2 & _).
    split; intros Hin; [by apply (H1 m Hin), elem_of_app; right|by apply (H2 m Hin)]. }
  split; [constructor; simpl; try done|split; [|split; [|by split_and!]]].
  - by apply chain_insert.
  - by apply chain_insert.
  - intros x Hx. rewrite lookup_insert. case_decide; [subst; by eexists|eauto].
  - unfold get_next. simpl. by rewrite lookup_insert_eq.
  - intros x. unfold payload_of. simpl. rewrite lookup_insert. case_decide; [|done].
    subst. by rewrite Es.
Qed.

Lemma fill_shape mq qs fs ds m buffer size :
  mq_shape mq qs fs ds -> m ∈ ds ->
  exists mq', fill m buffer size mq = Some mq' /\ mq_shape mq' qs fs ds /\
    get_next m mq' = get_next m mq /\
    payload_of mq' m = memcpy (payload_of mq m) 0 buffer size /\
    (forall x, x <> m -> payload_of mq' x = payload_of mq x) /\
    msg_size mq' = msg_size mq /\ max_msgs mq' = max_msgs mq /\ flag mq' = flag mq.
Proof.
  intros [] Hm. destruct (sh_slots0 m) as (s & Es & Hlen); [set_solver|].
  unfold fill. rewrite Es. cbn [mbind option_bind]. eexists. split; [done|].
  split; [constructor; simpl; try done|].
  - by apply chain_payload.
  - by apply chain_payload.
  - intros x Hx. rewrite lookup_insert. case_decide; [subst|eauto]. eexists. split; [done|].
    simpl. by rewrite zlen_memcpy.
  - unfold get_next, payload_of. simpl. rewrite lookup_insert_eq, Es. split_and!; try done.
    intros x Hx. by rewrite lookup_insert_ne.
Qed.

Lemma get_free_shape mq qs fs ds :
  mq_shape mq qs fs ds ->
  match fs with
  | [] => mq_get_free mq = Some None
  | m :: fs' => exists mq', mq_get_free mq = Some (Some (mq', m)) /\
      mq_shape mq' qs fs' (m :: ds) /\ slots mq' = slots mq /\
      msg_size mq' = msg_size mq /\ max_msgs mq' = max_msgs mq /\ flag mq' = flag mq
  end.
Proof.
  intros []. unfold mq_get_free. destruct fs as [|m fs]; simpl in *; [by rewrite sh_free0|].
  destruct sh_free0 as (-> & s & Es & Hc). unfold get_next. rewrite Es. simpl.
  eexists. split; [done|]. split; [|by split_and!].
  assert (qs ++ m :: fs ++ ds ≡ₚ qs ++ fs ++ m :: ds) as Hp by solve_Permutation.
  constructor; simpl; try done.
  - by rewrite <- Hp.
  - unfold zlen in *. by rewrite <- Hp.
  - intros x Hx. apply sh_slots0. by rewrite Hp.
Qed.

Lemma link_tail_shape mq qs fs ds m :
  mq_shape mq qs fs (m :: ds) -> get_next m mq = Some None ->
  exists mq', mq_link_tail m mq = Some mq' /\ mq_shape mq' (qs ++ [m]) fs ds /\
    (forall x, payload_of mq' x = payload_of mq x) /\
    msg_size mq' = msg_size mq /\ max_msgs mq' = max_msgs mq /\ flag mq' = flag mq.
Proof.
  intros [] Hn. unfold get_next in Hn. apply fmap_Some in Hn as (sm & Em & Enm).
  assert (qs ++ fs ++ m :: ds ≡ₚ (qs ++ [m]) ++ fs ++ ds) as Hp by solve_Permutation.
  assert (NoDup (qs ++ [m])) as Hnd.
  { rewrite Hp in sh_nodup0. by apply NoDup_app in sh_nodup0 as (? & _). }
  assert (m ∉ fs) as Hmf.
  { apply NoDup_app in sh_nodup0 as (_ & _ & H2). apply NoDup_app in H2 as (_ & H2 & _).
    intros Hin. apply (H2 m Hin). left. }
  assert (entry mq + 1 = zlen (qs ++ [m]) /\ 0 <= entry mq + 1 < 2 ^ 16) as [Hlen Hr].
  { rewrite sh_entry0. unfold zlen in *. rewrite Hp in sh_total0.
    rewrite !length_app in *. simpl in *. lia. }
  unfold mq_link_tail. rewrite sh_tail0. destruct qs as [|t qs _] using rev_ind.
  - cbn [last mbind option_bind]. simpl in sh_queue0. rewrite sh_queue0.
    eexists. split; [done|]. split; [|by split_and!]. constructor; simpl in *; try done.
    + split; [done|]. exists sm. by rewrite Enm.
    + rewrite wrapu_small by lia. done.
    + by rewrite <- Hp.
    + unfold zlen in *. by rewrite <- Hp.
    + intros x Hx. apply sh_slots0. by rewrite Hp.
  - rewrite last_snoc. destruct (sh_slots0 t) as (st & Et & Hlt); [set_solver +|].
    unfold set_next. rewrite Et. cbn [mbind option_bind].
    eexists. split; [done|].
    assert (t <> m) as Htm.
    { intros ->. apply NoDup_app in Hnd as (_ & Hd & _). apply (Hd m); set_solver +. }
    split; [constructor; simpl|split; [|by split_and!]].
    + destruct (msg_queue_head mq) as [h|] eqn:Eh.
      * eapply chain_append; eauto.
        -- apply NoDup_app in Hnd as (_ & Hd & _). intros Hin. apply (Hd m Hin). left.
        -- by apply NoDup_app in Hnd as (? & _).
      * destruct qs; by destruct sh_queue0.
    + apply chain_insert; [|done]. intros Hin. rewrite <- !app_assoc in sh_nodup0.
      apply NoDup_app in sh_nodup0 as (_ & _ & H2). apply NoDup_cons in H2 as [H2 _].
      apply H2. set_solver.
    + by rewrite last_snoc.
    + by rewrite wrapu_small by lia.
    + by rewrite <- Hp.
    + unfold zlen in *. by rewrite <- Hp.
    + done.
    + intros x Hx. rewrite <- Hp in Hx. rewrite lookup_insert. case_decide; [|by apply sh_slots0].
      subst. eexists. split; [done|]. done.
    + intros x. unfold payload_of. simpl. rewrite lookup_insert. case_decide; [|done].
      subst. by rewrite Et.
Qed.

Lemma link_head_shape mq qs fs ds m :
  mq_shape mq qs fs (m :: ds) ->
  exists mq', mq_link_head m mq = Some mq' /\ mq_shape mq' (m :: qs) fs ds /\
    (forall x, payload_of mq' x = payload_of mq x) /\
    msg_size mq' = msg_size mq /\ max_msgs mq' = max_msgs mq /\ flag mq' = flag mq.
Proof.
  intros Hs. unfold mq_link_head.
  destruct (set_next_shape mq qs fs (m :: ds) m (msg_queue_head mq) Hs)
    as (mq1 & -> & [] & Hn & Hpay & Hsz & Hmx & Hh & Hf & Hfl); [left|].
  cbn [mbind option_bind]. eexists. split; [done|]. split; [|by split_and!].
  assert (qs ++ fs ++ m :: ds ≡ₚ (m :: qs) ++ fs ++ ds) as Hp by solve_Permutation.
  unfold get_next in Hn. apply fmap_Some in Hn as (sm & Em & Enm).
  constructor; simpl; try done.
  - split; [done|]. exists sm. split; [done|]. by rewrite <- Enm, <- Hh.
  - rewrite sh_tail0. destruct qs as [|t qs _] using rev_ind; [done|].
    rewrite last_snoc. rewrite app_comm_cons. by rewrite last_snoc.
  - rewrite sh_entry0. unfold zlen in *. rewrite wrapu_small; simpl; [lia|].
    rewrite Hp in sh_total0. simpl in sh_total0. rewrite !length_app in sh_total0. lia.
  - by rewrite <- Hp.
  - unfold zlen in *. rewrite Hp in sh_total0. exact sh_total0.
  - intros x Hx. apply sh_slots0. rewrite Hp. exact Hx.
Qed.

Lemma unlink_head_shape mq m qs fs ds :
  mq_shape mq (m :: qs) fs ds ->
  exists mq', mq_unlink_head mq = Some (mq', m) /\ mq_shape mq' qs fs (m :: ds) /\
    slots mq' = slots mq /\
    msg_size mq' = msg_size mq /\ max_msgs mq' = max_msgs mq /\ flag mq' = flag mq.
Proof.
  intros []. unfold mq_unlink_head. simpl in sh_queue0.
  destruct sh_queue0 as (-> & s & Es & Hc). cbn [mbind option_bind]. unfold get_next.
  rewrite Es. cbn [fmap option_fmap option_map mbind option_bind].
  eexists. split; [done|]. split; [|by split_and!].
  assert ((m :: qs) ++ fs ++ ds ≡ₚ qs ++ fs ++ m :: ds) as Hp by solve_Permutation.
  constructor; simpl; try done.
  - rewrite sh_tail0. destruct qs as [|t qs _] using rev_ind; simpl.
    + by rewrite bool_decide_eq_true_2.
    + rewrite app_comm_cons, !last_snoc. rewrite bool_decide_eq_false_2; [done|].
      intros [= ->]. simpl in sh_nodup0. apply NoDup_cons in sh_nodup0 as [Hm _]. set_solver.
  - rewrite sh_entry0. unfold zlen in *. simpl. rewrite wrapu_small; [lia|].
    simpl in sh_total0. rewrite !length_app in sh_total0. lia.
  - by rewrite <- Hp.
  - unfold zlen in *. by rewrite <- Hp.
  - intros x Hx. apply sh_slots0. by rewrite Hp.
Qed.

Lemma put_free_shape mq qs fs ds m :
  mq_shape mq qs fs (m :: ds) ->
  exists mq', mq_put_free m mq = Some mq' /\ mq_shape mq' qs (m :: fs) ds /\
    (forall x, payload_of mq' x = payload_of mq x) /\
    msg_size mq' = msg_size mq /\ max_msgs mq' = max_msgs mq /\ flag mq' = flag mq.
Proof.
  intros Hs. unfold mq_put_free.
  destruct (set_next_shape mq qs fs (m :: ds) m (msg_queue_free mq) Hs)
    as (mq1 & -> & [] & Hn & Hpay & Hsz & Hmx & Hh & Hf & Hfl); [left|].
  cbn [mbind option_bind]. eexists. split; [done|]. split; [|by split_and!].
  assert (qs ++ fs ++ m :: ds ≡ₚ qs ++ (m :: fs) ++ ds) as Hp by solve_Permutation.
  unfold get_next in Hn. apply fmap_Some in Hn as (sm & Em & Enm).
  constructor; simpl; try done.
  - split; [done|]. exists sm. split; [done|]. by rewrite <- Enm, <- Hf.
  - by rewrite <- Hp.
  - unfold zlen in *. rewrite Hp in sh_total0. exact sh_total0.
  - intros x Hx. apply sh_slots0. rewrite Hp. exact Hx.
Qed.

(** ** Initialisation *)

(** The numbers below [n], largest first. *)
Fixpoint down (n : nat) : list Z :=
  match n with O => [] | S n => Z.of_nat n :: down n end.

Lemma elem_of_down n x : x ∈ down n <-> 0 <= x < Z.of_nat n.
Proof.
  induction n as [|n IH]; cbn [down]; [split; [by intros ?%not_elem_of_nil|lia]|].
  rewrite elem_of_cons, IH. lia.
Qed.

Lemma down_nodup n : NoDup (down n) /\ length (down n) = n.
Proof.
  induction n as [|n [IH1 IH2]]; cbn [down]; [split; [constructor|done]|].
  split; [|simpl; lia]. apply NoDup_cons. split; [|done]. rewrite elem_of_down. lia.
Qed.

Lemma free_all_spec n mq :
  (forall x, 0 <= x < Z.of_nat n -> is_Some (slots mq !! x)) -> msg_queue_free mq = None ->
  exists m p, mq_free_all n mq = Some (with_free p (with_slots m mq)) /\
    chain m p (down n) /\
    (forall x, payload <$> m !! x = payload <$> slots mq !! x).
Proof.
  intros Hs Hf. induction n as [|n IH].
  - exists (slots mq), None. cbn [mq_free_all]. split; [|done]. f_equal. destruct mq. simpl in *. by subst.
  - destruct IH as (m & p & E & Hc & Hp); [intros x Hx; apply Hs; lia|].
    cbn [mq_free_all]. rewrite E. cbn [mbind option_bind]. unfold set_next. simpl slots.
    destruct (Hs (Z.of_nat n)) as [s Es]; [lia|].
    destruct (m !! Z.of_nat n) as [s'|] eqn:Es';
      [|specialize (Hp (Z.of_nat n)); rewrite Es', Es in Hp; done].
    cbn [mbind option_bind].
    exists (<[Z.of_nat n := mk_slot p (payload s')]> m), (Some (Z.of_nat n)).
    split; [done|]. split.
    + cbn [down chain]. split; [done|]. eexists. rewrite lookup_insert_eq. split; [done|].
      simpl. apply chain_insert; [|done]. rewrite elem_of_down. lia.
    + intros x. rewrite lookup_insert. case_decide; [subst|done]. by rewrite <- Hp, Es'.
Qed.

Lemma mq_init_shape o pool msize pool_size fl k :
  let ms := u16 (RT_ALIGN msize RT_ALIGN_SIZE) in
  let mx := u16 (pool_size / (ms + sizeof_message)) in
  (forall x, 0 <= x < mx -> exists s, pool !! x = Some s /\ zlen (payload s) = ms) ->
  exists mq, rt_mq_init o pool msize pool_size fl k = Some (mq, rt_ipc_object_init (LSuspend o) k) /\
    mq_shape mq [] (down (Z.to_nat mx)) [] /\ msg_size mq = ms /\ max_msgs mq = mx /\
    flag mq = fl.
Proof.
  intros ms mx Hp. pose proof (wrapu_range 16 (pool_size / (ms + sizeof_message)) ltac:(lia)) as Hmx.
  fold mx in Hmx. unfold rt_mq_init. fold ms. fold mx.
  destruct (free_all_spec (Z.to_nat mx) (mk_mq pool ms mx 0 None None None fl true))
    as (m & p & -> & Hc & Hpay).
  { intros x Hx. destruct (Hp x) as (s & E & _); [lia|]. by exists s. }
  { done. }
  cbn [mbind option_bind]. eexists. split; [done|]. split; [|by split_and!].
  destruct (down_nodup (Z.to_nat mx)) as [Hnd Hlen].
  constructor; cbn [slots msg_queue_head msg_queue_free msg_queue_tail entry max_msgs msg_size
    with_free with_slots app]; rewrite ?app_nil_r; try done.
  - unfold zlen. rewrite Hlen. lia.
  - intros x Hx. apply elem_of_down in Hx. destruct (Hp x) as (s & Es & Hl); [lia|].
    specialize (Hpay x). simpl in Hpay. rewrite Es in Hpay.
    apply fmap_Some in Hpay as (s' & Es' & Ep). exists s'. split; [done|]. by rewrite <- Ep.
Qed.

(** ** Send, urgent send, receive *)

Lemma memcpy_prefix p buffer size :
  0 <= size <= zlen p -> size <= zlen buffer ->
  take (Z.to_nat size) (memcpy p 0 buffer size) = take (Z.to_nat size) buffer.
Proof.
  intros Hs Hb. apply zlist_eq.
  - rewrite !zlen_take by lia. rewrite zlen_memcpy. lia.
  - intros i Hi. rewrite zlen_take, zlen_memcpy in Hi by lia.
    rewrite !zget_take by lia. rewrite zget_memcpy by lia.
    repeat case_bool; simpl; try lia. f_equal. lia.
Qed.

Lemma messages_ext mq mq' qs :
  (forall x, x ∈ qs -> payload_of mq' x = payload_of mq x) -> messages mq' qs = messages mq qs.
Proof.
  intros Hx. unfold messages. apply list_fmap_ext. intros i x Hi. apply Hx.
  by apply list_elem_of_lookup_2 in Hi.
Qed.

Lemma in_flight_not_queued mq qs fs m ds :
  mq_shape mq qs fs (m :: ds) -> forall x, x ∈ qs -> x <> m.
Proof.
  intros [] x Hx ->. apply NoDup_app in sh_nodup0 as (_ & H & _). apply (H m Hx). set_solver +.
Qed.

Record mq_inv (o : Z) (mq : rt_messagequeue) (k : kernel) : Prop := {
  mv_shape : exists qs fs ds, mq_shape mq qs fs ds;
  mv_flag : flag mq = RT_IPC_FLAG_FIFO \/ flag mq = RT_IPC_FLAG_PRIO;
  mv_list : is_Some (lists k !! LSuspend o);
}.

#[export] Program Instance mq_object : IpcObject rt_messagequeue := {| ipc_inv := mq_inv |}.
Next Obligation.
  intros o mq k k' [Hv _] []. constructor; [done|done|]. by rewrite Hv by (by left).
Qed.
Next Obligation.
  intros o mq k k' t [Hv _] []. constructor; [done|done|].
  rewrite Hv by (by left). by rewrite fmap_is_Some.
Qed.

(** The common outcomes of the two ways to send; [add p ms] is where the new
    message goes. *)
Definition sent_ok (add : list Z -> list (list Z) -> list (list Z)) (o size : Z)
    (buffer : list Z) (mq mq' : rt_messagequeue) (k k' : kernel) (qs fs ds : list Z) (e : Z) : Prop :=
  (msg_size mq < size /\ e = - RT_ERROR /\ mq' = mq /\ k' = k) \/
  (size <= msg_size mq /\ fs = [] /\ e = - RT_EFULL /\ mq' = mq /\ k' = k) \/
  (size <= msg_size mq /\ e = RT_EOK /\ woke_first (LSuspend o) k k' /\
   exists m fs' qs' p, fs = m :: fs' /\ qs' ≡ₚ m :: qs /\ mq_shape mq' qs' fs' ds /\
     messages mq' qs' = add p (messages mq qs) /\
     take (Z.to_nat size) p = take (Z.to_nat size) buffer).

Lemma mq_send_spec o buffer size mq k qs fs ds :
  kernel_inv k -> is_Some (rt_current_thread k) -> is_Some (lists k !! LSuspend o) ->
  mq_shape mq qs fs ds -> 0 < size <= zlen buffer ->
  exists mq' k' e, rt_mq_send o buffer size mq k = Some (mq', k', e) /\ kernel_inv k' /\
    is_Some (lists k' !! LSuspend o) /\
    sent_ok (fun p ms => ms ++ [p]) o size buffer mq mq' k k' qs fs ds e.
Proof.
  intros Hk Hcur Hl Hsh Hsz. unfold rt_mq_send.
  rewrite (proj2 (Z.eqb_neq size 0)) by lia. cbn [negb RT_ASSERT mbind option_bind].
  destruct (Z.ltb_spec (msg_size mq) size) as [Hbig|Hfit].
  { do 3 eexists. split; [done|]. split; [done|]. split; [done|]. by left. }
  pose proof (get_free_shape mq qs fs ds Hsh) as Hgf. destruct fs as [|m fs'].
  { rewrite Hgf. cbn [mbind option_bind]. do 3 eexists. split; [done|]. split; [done|].
    split; [done|]. right; left. by split_and!. }
  destruct Hgf as (mq1 & -> & Hs1 & Esl & Ez1 & _ & _). cbn [mbind option_bind].
  destruct (set_next_shape mq1 qs fs' (m :: ds) m None Hs1)
    as (mq2 & -> & Hs2 & Hn2 & Hp2 & Ez2 & _); [left|]. cbn [mbind option_bind].
  destruct (fill_shape mq2 qs fs' (m :: ds) m buffer size Hs2)
    as (mq3 & -> & Hs3 & Hn3 & Hp3 & Hp3' & Ez3 & _); [left|]. cbn [mbind option_bind].
  destruct (link_tail_shape mq3 qs fs' ds m Hs3) as (mq4 & -> & Hs4 & Hp4 & _); [congruence|].
  cbn [mbind option_bind].
  destruct (wake_first_spec k (LSuspend o)) as (k' & -> & Hk' & Hw & (xs & _ & El') & _); try done.
  cbn [mbind option_bind]. do 3 eexists. split; [done|]. split; [done|].
  split; [rewrite El'; eauto|]. right; right. split_and!; try done.
  exists m, fs', (qs ++ [m]), (payload_of mq4 m).
  split; [done|]. split; [by rewrite Permutation_app_comm|]. split; [done|].
  assert (zlen (payload_of mq m) = msg_size mq) as Hlen.
  { destruct (sh_slots _ _ _ _ Hsh m) as (s & Es & Hls); [set_solver +|].
    unfold payload_of. by rewrite Es. }
  assert (forall x, payload_of mq1 x = payload_of mq x) as Hp1
    by (intros x; unfold payload_of; by rewrite Esl).
  split.
  - unfold messages. rewrite fmap_app. f_equal. apply messages_ext. intros x Hx.
    rewrite Hp4, Hp3', Hp2, Hp1; [done|]. by eapply in_flight_not_queued.
  - rewrite Hp4, Hp3, Hp2, Hp1. apply memcpy_prefix; lia.
Qed.

Lemma mq_urgent_spec o buffer size mq k qs fs ds :
  kernel_inv k -> is_Some (rt_current_thread k) -> is_Some (lists k !! LSuspend o) ->
  mq_shape mq qs fs ds -> 0 < size <= zlen buffer ->
  exists mq' k' e, rt_mq_urgent o buffer size mq k = Some (mq', k', e) /\ kernel_inv k' /\
    is_Some (lists k' !! LSuspend o) /\
    sent_ok (fun p ms => p :: ms) o size buffer mq mq' k k' qs fs ds e.
Proof.
  intros Hk Hcur Hl Hsh Hsz. unfold rt_mq_urgent.
  rewrite (proj2 (Z.eqb_neq size 0)) by lia. cbn [negb RT_ASSERT mbind option_bind].
  destruct (Z.ltb_spec (msg_size mq) size) as [Hbig|Hfit].
  { do 3 eexists. split; [done|]. split; [done|]. split; [done|]. by left. }
  pose proof (get_free_shape mq qs fs ds Hsh) as Hgf. destruct fs as [|m fs'].
  { rewrite Hgf. cbn [mbind option_bind]. do 3 eexists. split; [done|]. split; [done|].
    split; [done|]. right; left. by split_and!. }
  destruct Hgf as (mq1 & -> & Hs1 & Esl & Ez1 & _ & _). cbn [mbind option_bind].
  destruct (fill_shape mq1 qs fs' (m :: ds) m buffer size Hs1)
    as (mq3 & -> & Hs3 & Hn3 & Hp3 & Hp3' & Ez3 & _); [left|]. cbn [mbind option_bind].
  destruct (link_head_shape mq3 qs fs' ds m Hs3) as (mq4 & -> & Hs4 & Hp4 & _).
  cbn [mbind option_bind].
  destruct (wake_first_spec k (LSuspend o)) as (k' & -> & Hk' & Hw & (xs & _ & El') & _); try done.
  cbn [mbind option_bind]. do 3 eexists. split; [done|]. split; [done|].
  split; [rewrite El'; eauto|]. right; right. split_and!; try done.
  exists m, fs', (m :: qs), (payload_of mq4 m).
  split; [done|]. split; [done|]. split; [done|].
  assert (zlen (payload_of mq m) = msg_size mq) as Hlen.
  { destruct (sh_slots _ _ _ _ Hsh m) as (s & Es & Hls); [set_solver +|].
    unfold payload_of. by rewrite Es. }
  assert (forall x, payload_of mq1 x = payload_of mq x) as Hp1
    by (intros x; unfold payload_of; by rewrite Esl).
  split.
  - unfold messages. rewrite fmap_cons. f_equal. apply messages_ext. intros x Hx.
    rewrite Hp4, Hp3', Hp1; [done|]. by eapply in_flight_not_queued.
  - rewrite Hp4, Hp3, Hp1. apply memcpy_prefix; lia.
Qed.

Lemma mq_recv_spec o size timeout mq k cur cth qs fs ds :
  kernel_inv k -> caller k cur cth -> is_Some (lists k !! LSuspend o) ->
  flag mq = RT_IPC_FLAG_FIFO \/ flag mq = RT_IPC_FLAG_PRIO ->
  mq_shape mq qs fs ds -> 0 < size -> timeout < HALF ->
  exists mq' k' r rv, rt_mq_recv o size timeout mq k = Some (mq', k', r, rv) /\ kernel_inv k' /\
    match qs with
    | m :: qs' =>
        k' = k /\ r = Mailbox.MbDone RT_EOK /\ mq_shape mq' qs' (m :: fs) ds /\
        exists p, messages mq qs = p :: messages mq' qs' /\
          rv = Some (take (Z.to_nat (Z.min size (msg_size mq))) p)
    | [] =>
        mq' = mq /\ rv = None /\
        ((timeout = 0 /\ r = Mailbox.MbDone (- RT_ETIMEOUT) /\ k' = k) \/
         (timeout <> 0 /\ exists d ys zs, r = Mailbox.MbBlocked cur timeout d /\
           lists k !! LSuspend o = Some (ys ++ zs) /\
           lists k' !! LSuspend o = Some (ys ++ cur :: zs) /\
           queue_pos (flag mq) k (current_priority cth) ys zs /\
           (0 < timeout -> due_of (tsys k') (ThreadTimer cur) = timeout)))
    end.
Proof.
  intros Hk Hca [xs Exs] Hfl Hsh Hsz Htm. unfold rt_mq_recv, mq_recv_step.
  rewrite (proj2 (Z.eqb_neq size 0)) by lia. cbn [negb RT_ASSERT mbind option_bind].
  rewrite (sh_entry _ _ _ _ Hsh). destruct qs as [|m qs].
  - cbn [zlen length Z.of_nat Z.eqb andb].
    destruct (Z.eqb_spec timeout 0) as [->|Hnz].
    { do 4 eexists. split; [done|]. split; [done|]. split; [done|]. split; [done|]. by left. }
    rewrite (in_thread_context_caller k cur cth Hca). cbn [mbind option_bind].
    set (k1 := upd_thread cur (set_error RT_EOK) k).
    destruct (block_spec k1 (LSuspend o) cur (set_error RT_EOK cth) (flag mq) timeout xs)
      as (ys & zs & k2 & k' & -> & E2 & -> & Hq & Hk' & Hl & _ & Hth & _ & _ & Hti); try done.
    { by apply kernel_upd_same. }
    { destruct Hca. constructor; try done. simpl. by rewrite lookup_alter_eq, ca_thread0. }
    cbn [mbind option_bind]. rewrite E2. cbn [mbind option_bind].
    do 4 eexists. split; [done|]. split; [done|]. split; [done|]. split; [done|]. right.
    split; [done|]. eexists _, ys, zs. split_and!; try done.
    + eapply queue_pos_ext; [|exact Hq]. intros u _. symmetry. by apply prio_of_upd.
    + intros Hp. rewrite (proj2 (Z.ltb_lt 0 timeout) Hp) in Hti. by destruct Hti.
  - destruct (Z.eqb_spec (zlen (m :: qs)) 0) as [E|_]; [by unfold zlen in E|]. cbn [andb].
    destruct (unlink_head_shape mq m qs fs ds Hsh) as (mq1 & -> & Hs1 & Esl & Ez & _).
    cbn [mbind option_bind].
    destruct (sh_slots _ _ _ _ Hs1 m) as (s & Es & Hls); [set_solver +|].
    rewrite Es. cbn [mbind option_bind].
    destruct (put_free_shape mq1 qs fs ds m Hs1) as (mq2 & -> & Hs2 & Hp2 & _).
    cbn [mbind option_bind]. do 4 eexists. split; [done|]. split; [done|].
    do 3 (split; [done|]). exists (payload s). split.
    + unfold messages. rewrite fmap_cons. f_equal.
      * unfold payload_of. by rewrite <- Esl, Es.
      * symmetry. apply messages_ext. intros x _. rewrite Hp2. unfold payload_of. by rewrite Esl.
    + do 3 f_equal. rewrite Ez. case_bool; lia.
Qed.

(** ** Interleaved senders and receivers

    One critical section of some send or receive; the sections of different
    calls may alternate in any order. *)
Inductive mq_section : rt_messagequeue * list Z -> rt_messagequeue * list Z -> Prop :=
  | sec_get_free mq ds mq' m :
      mq_get_free mq = Some (Some (mq', m)) -> mq_section (mq, ds) (mq', m :: ds)
  | sec_clear_next mq ds m mq' :
      m ∈ ds -> set_next m None mq = Some mq' -> mq_section (mq, ds) (mq', ds)
  | sec_fill mq ds m buffer size mq' :
      m ∈ ds -> fill m buffer size mq = Some mq' -> mq_section (mq, ds) (mq', ds)
  | sec_link_tail mq ds m ds' mq' :
      ds ≡ₚ m :: ds' -> get_next m mq = Some None -> mq_link_tail m mq = Some mq' ->
      mq_section (mq, ds) (mq', ds')
  | sec_link_head mq ds m ds' mq' :
      ds ≡ₚ m :: ds' -> mq_link_head m mq = Some mq' -> mq_section (mq, ds) (mq', ds')
  | sec_unlink_head mq ds mq' m :
      mq_unlink_head mq = Some (mq', m) -> mq_section (mq, ds) (mq', m :: ds)
  | sec_put_free mq ds m ds' mq' :
      ds ≡ₚ m :: ds' -> mq_put_free m mq = Some mq' -> mq_section (mq, ds) (mq', ds').

Lemma mq_shape_perm mq qs fs ds ds' : ds ≡ₚ ds' -> mq_shape mq qs fs ds -> mq_shape mq qs fs ds'.
Proof.
  intros Hp []. constructor; try done.
  - by rewrite <- Hp.
  - unfold zlen in *. by rewrite <- Hp.
  - intros x Hx. apply sh_slots0. by rewrite Hp.
Qed.

Lemma section_shape mq ds mq' ds' :
  mq_section (mq, ds) (mq', ds') ->
  forall qs fs, mq_shape mq qs fs ds -> exists qs' fs', mq_shape mq' qs' fs' ds'.
Proof.
  intros Hsec qs fs Hs. inversion Hsec as
    [? ? ? m E|? ? m ? Hm E|? ? m b sz ? Hm E|? ? m ? ? Hp Hn E|? ? m ? ? Hp E|? ? ? m E|? ? m ? ? Hp E];
    subst.
  - pose proof (get_free_shape _ _ _ _ Hs) as Hg. destruct fs as [|m' fs]; [congruence|].
    destruct Hg as (mq1 & E1 & Hs1 & _). rewrite E1 in E. injection E as -> ->. eauto.
  - destruct (set_next_shape mq qs fs ds' m None Hs Hm) as (mq1 & E1 & Hs1 & _).
    rewrite E1 in E. injection E as ->. eauto.
  - destruct (fill_shape mq qs fs ds' m b sz Hs Hm) as (mq1 & E1 & Hs1 & _).
    rewrite E1 in E. injection E as ->. eauto.
  - destruct (link_tail_shape mq qs fs ds' m) as (mq1 & E1 & Hs1 & _);
      [by eapply mq_shape_perm|done|]. rewrite E1 in E. injection E as ->. eauto.
  - destruct (link_head_shape mq qs fs ds' m) as (mq1 & E1 & Hs1 & _);
      [by eapply mq_shape_perm|]. rewrite E1 in E. injection E as ->. eauto.
  - destruct qs as [|m' qs].
    + unfold mq_unlink_head in E. by rewrite (sh_queue _ _ _ _ Hs) in E.
    + destruct (unlink_head_shape _ _ _ _ _ Hs) as (mq1 & E1 & Hs1 & _).
      rewrite E1 in E. injection E as -> ->. eauto.
  - destruct (put_free_shape mq qs fs ds' m) as (mq1 & E1 & Hs1 & _);
      [by eapply mq_shape_perm|]. rewrite E1 in E. injection E as ->. eauto.
Qed.

Lemma sections_shape s s' :
  rtc mq_section s s' ->
  forall qs fs, mq_shape s.1 qs fs s.2 -> exists qs' fs', mq_shape s'.1 qs' fs' s'.2.
Proof.
  induction 1 as [s|[mq ds] [mq1 ds1] s' Hsec _ IH]; intros qs fs Hs; [eauto|].
  destruct (section_shape _ _ _ _ Hsec qs fs Hs) as (qs1 & fs1 & Hs1). by eapply IH.
Qed.

(** ** Theorems *)

(** Two slots of four bytes; slot 1 holds a message. *)
Definition sample_slots : gmap Z mq_slot :=
  {[ 0 := mk_slot None [0;0;0;0]; 1 := mk_slot None [1;2;3;4] ]}.
Definition sample_mq : rt_messagequeue :=
  mk_mq sample_slots 4 2 1 (Some 1) (Some 1) (Some 0) RT_IPC_FLAG_FIFO true.

Lemma sample_mq_shape : mq_shape sample_mq [1] [0] [].
Proof.
  constructor; simpl; try done.
  - split; [done|]. by eexists.
  - split; [done|]. by eexists.
  - apply NoDup_cons. split; [set_solver|apply NoDup_singleton].
  - intros x [->|[->|?]%elem_of_cons]%elem_of_cons; [by eexists|by eexists|set_solver].
Qed.

(** C16. rt_mq_send puts a message at the end of the queue and rt_mq_urgent
    at its front, in a slot taken from the free list, and wakes the first
    receiver; a full queue gives -RT_EFULL and an oversized message
    -RT_ERROR with nothing changed. *)
Theorem rt_mq_send_queues o buffer size mq k qs fs ds :
  kernel_inv k -> is_Some (rt_current_thread k) -> is_Some (lists k !! LSuspend o) ->
  mq_shape mq qs fs ds -> 0 < size <= zlen buffer ->
  (exists mq' k' e, rt_mq_send o buffer size mq k = Some (mq', k', e) /\ kernel_inv k' /\
     sent_ok (fun p ms => ms ++ [p]) o size buffer mq mq' k k' qs fs ds e) /\
  (exists mq' k' e, rt_mq_urgent o buffer size mq k = Some (mq', k', e) /\ kernel_inv k' /\
     sent_ok (fun p ms => p :: ms) o size buffer mq mq' k k' qs fs ds e).
Proof.
  intros Hk Hc Hl Hs Hsz. split.
  - destruct (mq_send_spec o buffer size mq k qs fs ds) as (mq' & k' & e & ? & ? & _ & ?); try done.
    by exists mq', k', e.
  - destruct (mq_urgent_spec o buffer size mq k qs fs ds) as (mq' & k' & e & ? & ? & _ & ?); try done.
    by exists mq', k', e.
Qed.

Lemma rt_mq_send_queues_witness :
  exists mq' k', rt_mq_urgent 7 [9; 8] 2 sample_mq sample_ipc = Some (mq', k', RT_EOK) /\
    messages mq' [0; 1] = [[9; 8; 0; 0]; [1; 2; 3; 4]].
Proof.
  destruct (rt_mq_send_queues 7 [9; 8] 2 sample_mq sample_ipc [1] [0] [] sample_ipc_inv)
    as [_ (mq' & k' & e & E & _ & H)];
    [by vm_compute; eexists|rewrite sample_ipc_list; by eexists|apply sample_mq_shape|done|].
  destruct H as [[H _]|[(_ & H & _)|(_ & -> & _)]];
    [clear E; by vm_compute in H|discriminate H|].
  exists mq', k'. split; [exact E|].
  assert ((fun r => messages r.1.1 [0; 1]) <$> rt_mq_urgent 7 [9; 8] 2 sample_mq sample_ipc
    = Some [[9; 8; 0; 0]; [1; 2; 3; 4]]) as Em by (by vm_compute).
  rewrite E in Em. cbn [fmap option_fmap option_map fst] in Em. injection Em as E1 E2.
  unfold messages. cbn [fmap list_fmap]. rewrite E1, E2. reflexivity.
Defined.

(** rt_mq_recv removes the first message, copies at most size of its bytes
    and returns its slot to the free list; on an empty queue it times out at
    once or queues the caller with its timer armed. *)
Theorem rt_mq_recv_takes_first o size timeout mq k cur cth qs fs ds :
  kernel_inv k -> caller k cur cth -> is_Some (lists k !! LSuspend o) ->
  flag mq = RT_IPC_FLAG_FIFO \/ flag mq = RT_IPC_FLAG_PRIO ->
  mq_shape mq qs fs ds -> 0 < size -> timeout < HALF ->
  exists mq' k' r rv, rt_mq_recv o size timeout mq k = Some (mq', k', r, rv) /\ kernel_inv k' /\
    match qs with
    | m :: qs' =>
        k' = k /\ r = Mailbox.MbDone RT_EOK /\ mq_shape mq' qs' (m :: fs) ds /\
        exists p, messages mq qs = p :: messages mq' qs' /\
          rv = Some (take (Z.to_nat (Z.min size (msg_size mq))) p)
    | [] =>
        mq' = mq /\ rv = None /\
        ((timeout = 0 /\ r = Mailbox.MbDone (- RT_ETIMEOUT) /\ k' = k) \/
         (timeout <> 0 /\ exists d ys zs, r = Mailbox.MbBlocked cur timeout d /\
           lists k !! LSuspend o = Some (ys ++ zs) /\
           lists k' !! LSuspend o = Some (ys ++ cur :: zs) /\
           queue_pos (flag mq) k (current_priority cth) ys zs /\
           (0 < timeout -> due_of (tsys k') (ThreadTimer cur) = timeout)))
    end.
Proof. apply mq_recv_spec. Qed.

Lemma rt_mq_recv_takes_first_witness :
  exists mq', rt_mq_recv 7 16 0 sample_mq sample_ipc =
    Some (mq', sample_ipc, Mailbox.MbDone RT_EOK, Some [1; 2; 3; 4]) /\
    mq_shape mq' [] [1; 0] [].
Proof.
  destruct sample_ipc_caller as [cth Hca].
  destruct (rt_mq_recv_takes_first 7 16 0 sample_mq sample_ipc 1 cth [1] [0] [] sample_ipc_inv Hca)
    as (mq' & k' & r & rv & E & _ & -> & -> & Hs & p & Hm & ->);
    [rewrite sample_ipc_list; by eexists|by left|apply sample_mq_shape|done|done|].
  injection Hm as <-. exists mq'. split; [exact E|exact Hs].
Defined.

(** Under any interleaving of the critical sections of sends and receives,
    each slot is at all times in exactly one of the queue, the free list or
    the hands of one caller, the entry count is the queue length, and every
    section a caller may run next succeeds. *)
Theorem mq_sections_conserve_slots mq mq' qs fs ds ds' :
  mq_shape mq qs fs ds -> rtc mq_section (mq, ds) (mq', ds') ->
  exists qs' fs', mq_shape mq' qs' fs' ds' /\
    (forall m ds2, ds' ≡ₚ m :: ds2 ->
       is_Some (mq_link_head m mq') /\ is_Some (mq_put_free m mq') /\
       (get_next m mq' = Some None -> is_Some (mq_link_tail m mq'))) /\
    (0 < entry mq' -> is_Some (mq_unlink_head mq')).
Proof.
  intros Hs Hr. destruct (sections_shape _ _ Hr qs fs Hs) as (qs' & fs' & Hs'). simpl in Hs'.
  exists qs', fs'. split; [done|]. split.
  - intros m ds2 Hp. pose proof (mq_shape_perm _ _ _ _ _ Hp Hs') as Hs2. split_and!.
    + destruct (link_head_shape _ _ _ _ _ Hs2) as (? & ? & _). eauto.
    + destruct (put_free_shape _ _ _ _ _ Hs2) as (? & ? & _). eauto.
    + intros Hn. destruct (link_tail_shape _ _ _ _ _ Hs2 Hn) as (? & ? & _). eauto.
  - rewrite (sh_entry _ _ _ _ Hs'). destruct qs' as [|m qs']; [done|]. intros _.
    destruct (unlink_head_shape _ _ _ _ _ Hs') as (? & ? & _). eauto.
Qed.

(** A sender has taken slot 0 while a receiver has taken slot 1. *)
Lemma mq_sections_conserve_slots_witness :
  exists mq' qs' fs', rtc mq_section (sample_mq, []) (mq', [1; 0]) /\ mq_shape mq' qs' fs' [1; 0].
Proof.
  destruct (mq_get_free sample_mq) as [[[mq1 m1]|]|] eqn:E1; [|by vm_compute in E1..].
  assert (m1 = 0) as -> by (vm_compute in E1; congruence).
  destruct (mq_unlink_head mq1) as [[mq2 m2]|] eqn:E2; [|by vm_compute in E1; simplify_eq].
  assert (m2 = 1) as -> by (vm_compute in E1; simplify_eq; vm_compute in E2; congruence).
  assert (rtc mq_section (sample_mq, []) (mq2, [1; 0])) as Hr.
  { eapply rtc_l; [by apply sec_get_free|]. apply rtc_once. by apply sec_unlink_head. }
  destruct (mq_sections_conserve_slots sample_mq mq2 [1] [0] [] [1; 0] sample_mq_shape Hr)
    as (qs' & fs' & Hs & _). by exists mq2, qs', fs'.
Defined.

End MsgQueue.
