(* ===== verification/IpcClose.v ===== *)
(** * Closing and resetting IPC objects

    The detach, delete and reset operations of [src/ipc.c], for all five kinds
    of objects at once: each of them first runs [rt_ipc_list_resume_all] on the
    object's wait lists.  No thread is left behind on a list that disappears,
    and every waiter returns from its call with [-RT_ERROR]. *)

From S2P Require Import Prelude.
From S2P Require Import RtList.
From S2P Require Import Timer.
From S2P Require Import Sched.
From S2P Require Import SchedInv.
From S2P Require Import ThreadOps.
From S2P Require Import Ipc.
From S2P Require Import Sem.
From S2P Require Import Mutex.
From S2P Require Import Event.
From S2P Require Import Mailbox.
From S2P Require Import MsgQueue.

Module IpcClose.
Import RtList.RtList Timer.Timer Sched.Sched SchedInv.SchedInv ThreadOps.ThreadOps Ipc.Ipc.

(** ** The five kinds of objects *)

Inductive ipc_object :=
  | OSem (s : Sem.Sem.rt_semaphore)
  | OMutex (m : Mutex.Mutex.rt_mutex)
  | OEvent (e : Event.Event.rt_event)
  | OMailbox (mb : Mailbox.Mailbox.rt_mailbox)
  | OMsgQueue (mq : MsgQueue.MsgQueue.rt_messagequeue).

Definition is_static (a : ipc_object) : bool :=
  match a with
  | OSem s => Sem.Sem.static s
  | OMutex m => Mutex.Mutex.static m
  | OEvent e => Event.Event.static e
  | OMailbox mb => Mailbox.Mailbox.static mb
  | OMsgQueue mq => MsgQueue.MsgQueue.static mq
  end.

Definition object_inv (o : Z) (a : ipc_object) (k : kernel) : Prop :=
  match a with
  | OSem s => Sem.Sem.sem_inv o s k
  | OMutex m => Mutex.Mutex.mutex_inv o m k
  | OEvent e => Event.Event.event_inv o e k
  | OMailbox mb => Mailbox.Mailbox.mb_inv o mb k
  | OMsgQueue mq => MsgQueue.MsgQueue.mq_inv o mq k
  end.

(** The wait lists of the object, in the order in which they are emptied. *)
Definition heads (o : Z) (a : ipc_object) : list list_head :=
  match a with OMailbox _ => [LSuspend o; LSender o] | _ => [LSuspend o] end.

(** Detach a static object, delete a dynamic one. *)
Definition ipc_close (o : Z) (a : ipc_object) (k : kernel) : option (kernel * Z) :=
  match a with
  | OSem s => if is_static a then Sem.Sem.rt_sem_detach o s k else Sem.Sem.rt_sem_delete o s k
  | OMutex m =>
      if is_static a then Mutex.Mutex.rt_mutex_detach o m k else Mutex.Mutex.rt_mutex_delete o m k
  | OEvent e =>
      if is_static a then Event.Event.rt_event_detach o e k else Event.Event.rt_event_delete o e k
  | OMailbox mb =>
      if is_static a then Mailbox.Mailbox.rt_mb_detach o mb k
      else Mailbox.Mailbox.rt_mb_delete o mb k
  | OMsgQueue mq =>
      if is_static a then MsgQueue.MsgQueue.rt_mq_detach o mq k
      else MsgQueue.MsgQueue.rt_mq_delete o mq k
  end.

(** The reset command; [v] is the new count of a semaphore. *)
Definition ipc_reset (o v : Z) (a : ipc_object) (k : kernel) : option (ipc_object * kernel * Z) :=
  match a with
  | OSem s =>
      '(s, k, e) ← Sem.Sem.rt_sem_control o (Sem.Sem.RT_IPC_CMD_RESET v) s k; Some (OSem s, k, e)
  | OMutex m => Some (a, k, Mutex.Mutex.rt_mutex_control m)
  | OEvent ev =>
      '(ev, k, e) ← Event.Event.rt_event_control o Event.Event.RT_IPC_CMD_RESET ev k;
      Some (OEvent ev, k, e)
  | OMailbox mb =>
      '(mb, k, e) ← Mailbox.Mailbox.rt_mb_control o Mailbox.Mailbox.RT_IPC_CMD_RESET mb k;
      Some (OMailbox mb, k, e)
  | OMsgQueue mq =>
      '(mq, k, e) ← MsgQueue.MsgQueue.rt_mq_control o MsgQueue.MsgQueue.RT_IPC_CMD_RESET mq k;
      Some (OMsgQueue mq, k, e)
  end.

(** What is pending in the object: tokens, events, mails or messages. *)
Definition pending (a : ipc_object) : Z :=
  match a with
  | OSem s => Sem.Sem.value s
  | OMutex m => 0
  | OEvent e => Event.Event.set e
  | OMailbox mb => zlen (Mailbox.Mailbox.mails mb)
  | OMsgQueue mq => MsgQueue.MsgQueue.entry mq
  end.

(** ** Emptying wait lists *)

Fixpoint resume_heads (hs : list list_head) (k : kernel) : option kernel :=
  match hs with
  | [] => Some k
  | h :: hs => k ← rt_ipc_list_resume_all h k; resume_heads hs k
  end.

(** Every thread waiting on one of [hs] is runnable and sees [-RT_ERROR]. *)
Definition all_woken (hs : list list_head) (k k' : kernel) : Prop :=
  forall h xs u, h ∈ hs -> lists k !! h = Some xs -> u ∈ xs ->
    exists th st, threads k !! u = Some th /\
      threads k' !! u = Some (set_stat st (set_error (- RT_ERROR) th)) /\
      (st = RT_THREAD_READY \/ st = RT_THREAD_RUNNING).

Record emptied (hs : list list_head) (k k' : kernel) : Prop := {
  em_inv : kernel_inv k';
  em_empty : forall h, h ∈ hs -> lists k' !! h = Some [];
  em_other : forall h, is_wait h -> h ∉ hs -> lists k' !! h = lists k !! h;
  em_woken : all_woken hs k k';
  em_threads : forall u, (forall h xs, h ∈ hs -> lists k !! h = Some xs -> u ∉ xs) ->
    threads k' !! u = threads k !! u;
  em_current : rt_current_thread k' = rt_current_thread k;
  em_nest : rt_interrupt_nest k' = rt_interrupt_nest k;
}.

Lemma resume_heads_spec hs : forall k,
  kernel_inv k -> NoDup hs -> Forall is_wait hs -> (forall h, h ∈ hs -> is_Some (lists k !! h)) ->
  exists k', resume_heads hs k = Some k' /\ emptied hs k k'.
Proof.
  induction hs as [|h hs IH]; intros k Hk Hnd Hw Hs; simpl.
  { exists k. split; [done|]. constructor; try done.
    - intros h Hh. by apply not_elem_of_nil in Hh.
    - intros h xs u Hh. by apply not_elem_of_nil in Hh. }
  apply NoDup_cons in Hnd as [Hh Hnd]. apply Forall_cons in Hw as [Hw Hws].
  destruct (Hs h) as [xs Hxs]; [left|]. unfold rt_ipc_list_resume_all. rewrite Hxs.
  cbn [mbind option_bind].
  destruct (resume_all_spec h xs k Hk Hw Hxs)
    as (k1 & -> & Hk1 & Hnil & Hoth & Hout & Hin & Hcur & Hnest).
  cbn [mbind option_bind].
  assert (forall h', h' ∈ hs -> lists k1 !! h' = lists k !! h') as Hsame.
  { intros h' Hh'. rewrite Forall_forall in Hws. apply Hoth; [by apply Hws|by intros ->]. }
  destruct (IH k1 Hk1 Hnd Hws) as (k' & E & [Hi He Ho Hwo Hth Hc Hn]).
  { intros h' Hh'. rewrite Hsame by done. apply Hs. by right. }
  assert (forall h' ys u, h' ∈ hs -> lists k1 !! h' = Some ys -> u ∈ ys -> u ∉ xs) as Hdisj.
  { intros h' ys u Hh' Hy Hu Hx. rewrite Hsame in Hy by done. apply Hh.
    by rewrite (proj2 (li_unique _ _ (kv_link _ Hk)) h h' xs ys u). }
  exists k'. split; [done|]. constructor; [done|..].
  - intros h' [->|Hh']%elem_of_cons; [by rewrite Ho|by apply He].
  - intros h' Hw' Hn'. apply not_elem_of_cons in Hn' as [Hne Hn'].
    rewrite Ho by done. by apply Hoth.
  - intros h' ys u [->|Hh']%elem_of_cons Hy Hu.
    + rewrite Hxs in Hy. injection Hy as <-. destruct (Hin u Hu) as (th & Et & Et').
      exists th, (resumed_stat u k). split; [done|]. split.
      * rewrite <- Et'. apply Hth. intros h' ys Hh' Hy Huy. by eapply Hdisj.
      * unfold resumed_stat. case_bool_decide; auto.
    + rewrite <- Hsame in Hy by done. destruct (Hwo h' ys u Hh' Hy Hu) as (th & st & Et & ?).
      exists th, st. rewrite Hout in Et by (by eapply Hdisj). done.
  - intros u Hu. rewrite Hth, Hout; [done|eapply (Hu h); [left|done]|].
    intros h' ys Hh' Hy. rewrite Hsame in Hy by done. eapply (Hu h'); [by right|done].
  - congruence.
  - congruence.
Qed.

Lemma heads_ok o a : NoDup (heads o a) /\ Forall is_wait (heads o a).
Proof. destruct a; simpl; split; repeat constructor; set_solver. Qed.

Lemma object_heads o a k h : object_inv o a k -> h ∈ heads o a -> is_Some (lists k !! h).
Proof.
  destruct a; simpl; intros Hi Hh; set_unfold in Hh; destruct_or?; subst; try done.
  all: try (destruct Hi; destruct_and?; eauto; done).
  all: destruct Hi; naive_solver.
Qed.

(** ** Freeing an object *)

(** An empty wait list may disappear. *)
Lemma free_head_inv k h :
  kernel_inv k -> is_wait h -> lists k !! h = Some [] ->
  kernel_inv (set_lists (delete h (lists k)) k).
Proof.
  intros [Hl Hp Hc Hti] Hw Hn. constructor; [|done|..].
  - destruct Hl. constructor; simpl; try done.
    + destruct li_unique0 as [Hnd Hu]. split.
      * intros j xs [_ ?]%lookup_delete_Some. eauto.
      * intros h1 h2 xs1 xs2 t [_ ?]%lookup_delete_Some [_ ?]%lookup_delete_Some. eauto.
    + intros p. rewrite lookup_delete_ne by (by intros ->). apply li_ready_heads0.
    + by rewrite lookup_delete_ne by (by intros ->).
    + intros p xs. rewrite lookup_delete_ne by (by intros ->). apply li_group0.
    + intros j xs t [_ ?]%lookup_delete_Some. eauto.
    + intros t th Ht Hr Hx. rewrite lookup_delete_ne by (by intros ->). eauto.
  - by eapply cur_ext; [..|exact Hc].
  - by eapply timer_inv_ext; [..|exact Hti]; simpl; eauto.
Qed.

Definition free_heads (hs : list list_head) (k : kernel) : kernel :=
  foldl (fun k h => set_lists (delete h (lists k)) k) k hs.

Lemma free_heads_inv hs : forall k,
  kernel_inv k -> NoDup hs -> Forall is_wait hs -> (forall h, h ∈ hs -> lists k !! h = Some []) ->
  kernel_inv (free_heads hs k) /\ threads (free_heads hs k) = threads k /\
  (forall h, h ∈ hs -> lists (free_heads hs k) !! h = None) /\
  (forall h, h ∉ hs -> lists (free_heads hs k) !! h = lists k !! h).
Proof.
  induction hs as [|h hs IH]; intros k Hk Hnd Hw He; simpl.
  { split_and!; try done. intros h Hh. by apply not_elem_of_nil in Hh. }
  apply NoDup_cons in Hnd as [Hh Hnd]. apply Forall_cons in Hw as [Hw Hws].
  destruct (IH (set_lists (delete h (lists k)) k)) as (Hi & Ht & Hn & Ho); try done.
  { apply free_head_inv; [done|done|]. apply He. left. }
  { intros h' Hh'. simpl. rewrite lookup_delete_ne by (by intros ->). apply He. by right. }
  split_and!; try done.
  - intros h' [->|Hh']%elem_of_cons; [|by apply Hn]. rewrite Ho by done. simpl.
    apply lookup_delete_eq.
  - intros h' [Hne Hn']%not_elem_of_cons. rewrite Ho by done. simpl. by apply lookup_delete_ne.
Qed.

Lemma ipc_close_eq o a k :
  (is_static a = false -> rt_interrupt_nest k = 0) ->
  ipc_close o a k =
  k' ← resume_heads (heads o a) k;
  Some (if is_static a then k' else free_heads (heads o a) k', RT_EOK).
Proof.
  intros Hn. unfold ipc_close. destruct (is_static a) eqn:Es, a; cbn in Es;
    unfold Sem.Sem.rt_sem_detach, Sem.Sem.rt_sem_delete, Mutex.Mutex.rt_mutex_detach,
      Mutex.Mutex.rt_mutex_delete, Event.Event.rt_event_detach, Event.Event.rt_event_delete,
      Mailbox.Mailbox.rt_mb_detach, Mailbox.Mailbox.rt_mb_delete,
      MsgQueue.MsgQueue.rt_mq_detach, MsgQueue.MsgQueue.rt_mq_delete;
    rewrite Es, ?Hn by done; simpl;
    repeat (destruct (rt_ipc_list_resume_all _ _) as [?|]; simpl; [|done]); done.
Qed.

Lemma ipc_close_spec o a k :
  kernel_inv k -> object_inv o a k -> (is_static a = false -> rt_interrupt_nest k = 0) ->
  exists k', ipc_close o a k = Some (k', RT_EOK) /\ kernel_inv k' /\
    all_woken (heads o a) k k' /\
    (forall h, h ∈ heads o a -> lists k' !! h = if is_static a then Some [] else None) /\
    (forall h, is_wait h -> h ∉ heads o a -> lists k' !! h = lists k !! h).
Proof.
  intros Hk Hi Hn. rewrite ipc_close_eq by done. destruct (heads_ok o a) as [Hnd Hw].
  destruct (resume_heads_spec (heads o a) k Hk Hnd Hw) as (k1 & -> & [Hi1 He Ho Hwo Hth Hc Hne]).
  { intros h. by apply object_heads. }
  cbn [mbind option_bind]. eexists. split; [done|]. destruct (is_static a); [done|].
  destruct (free_heads_inv (heads o a) k1) as (Hi2 & Ht2 & Hn2 & Ho2); try done.
  split; [done|]. split; [|split; [done|]].
  - intros h xs u Hh Hx Hu. rewrite Ht2. by apply (Hwo h xs u).
  - intros h Hwh Hnh. rewrite Ho2 by done. by apply Ho.
Qed.

(** ** Reset *)

Lemma put_free_entry m n mq :
  MsgQueue.MsgQueue.mq_put_free m
    (MsgQueue.MsgQueue.with_queue (MsgQueue.MsgQueue.msg_queue_head mq)
       (MsgQueue.MsgQueue.msg_queue_tail mq) n mq) =
  (fun mq' => MsgQueue.MsgQueue.with_queue (MsgQueue.MsgQueue.msg_queue_head mq')
       (MsgQueue.MsgQueue.msg_queue_tail mq') n mq') <$> MsgQueue.MsgQueue.mq_put_free m mq.
Proof.
  unfold MsgQueue.MsgQueue.mq_put_free, MsgQueue.MsgQueue.set_next. simpl.
  by destruct (MsgQueue.MsgQueue.slots mq !! m).
Qed.

Section release.
Import MsgQueue.MsgQueue.

Definition counted (n : Z) (mq : rt_messagequeue) : rt_messagequeue :=
  with_queue (msg_queue_head mq) (msg_queue_tail mq) n mq.

(** The loop does not maintain [entry]; with the right count, the queue is
    well formed all along. *)
Lemma release_all_spec qs : forall fuel mq fs ds,
  mq_shape (counted (zlen qs) mq) qs fs ds -> (length qs <= fuel)%nat ->
  exists mq', mq_release_all fuel mq = Some mq' /\
    mq_shape (counted 0 mq') [] (rev qs ++ fs) ds /\ flag mq' = flag mq.
Proof.
  induction qs as [|m qs IH]; intros fuel mq fs ds Hs Hf.
  { pose proof (sh_queue _ _ _ _ Hs) as Hq. simpl in Hq. exists mq.
    destruct fuel; simpl; rewrite Hq; done. }
  destruct fuel as [|fuel]; [simpl in Hf; lia|].
  destruct (unlink_head_shape _ _ _ _ _ Hs) as (mq1 & E1 & Hs1 & _ & _ & _ & Hfl1).
  unfold mq_unlink_head in E1. cbn [mq_release_all].
  change (msg_queue_head (counted (zlen (m :: qs)) mq)) with (msg_queue_head mq) in E1.
  pose proof (sh_queue _ _ _ _ Hs) as [Hq _]. simpl in Hq. rewrite Hq in E1 |- *.
  cbn [mbind option_bind] in E1. change (get_next m (counted (zlen (m :: qs)) mq)) with (get_next m mq) in E1.
  destruct (get_next m mq) as [n|]; [|done]. cbn [mbind option_bind] in E1 |- *.
  injection E1 as E1.
  set (mq2 := with_queue n _ (entry mq) mq).
  assert (mq1 = counted (zlen qs) mq2) as ->.
  { pose proof (sh_entry _ _ _ _ Hs1) as He. rewrite <- E1 in He |- *. simpl in He.
    unfold counted, mq2, with_queue. simpl. by rewrite He. }
  destruct (put_free_shape _ _ _ _ _ Hs1) as (mq3 & E3 & Hs3 & _ & _ & _ & Hfl3).
  unfold counted in E3. rewrite put_free_entry in E3.
  destruct (mq_put_free m mq2) as [mq4|]; [|done]. cbn [mbind option_bind].
  cbn [fmap option_fmap option_map] in E3. injection E3 as <-.
  destruct (IH fuel mq4 (m :: fs) ds Hs3) as (mq' & -> & Hs' & Hfl'); [simpl in Hf; lia|].
  exists mq'. split; [done|]. split; [|rewrite Hfl'; exact Hfl3].
  simpl. by rewrite <- app_assoc.
Qed.

Lemma release_all_all mq qs fs ds :
  mq_shape mq qs fs ds ->
  exists mq', mq_release_all (Z.to_nat (max_msgs mq)) mq = Some mq' /\
    mq_shape (counted 0 mq') [] (rev qs ++ fs) ds /\ flag mq' = flag mq.
Proof.
  intros Hs. apply release_all_spec.
  - unfold counted. rewrite <- (sh_entry _ _ _ _ Hs). by destruct mq.
  - pose proof (sh_total _ _ _ _ Hs) as Ht. unfold zlen in Ht. rewrite !length_app in Ht. lia.
Qed.
End release.

(** Rescheduling after the waiters have been released. *)
Lemma emptied_schedule hs k k1 :
  emptied hs k k1 -> Forall is_wait hs -> is_Some (rt_current_thread k) ->
  exists k', rt_schedule k1 = Some k' /\ kernel_inv k' /\ all_woken hs k k' /\
    (forall h, h ∈ hs -> lists k' !! h = Some []).
Proof.
  intros [Hi He Ho Hwo Hth Hc Hn] Hw Hcur. rewrite <- Hc in Hcur.
  destruct (schedule_inv k1 Hi Hcur) as (k' & E & Hk'). exists k'.
  pose proof (schedule_frame k1 k' Hi Hcur E) as Hsf. do 2 (split; [done|]). split.
  - intros h xs u Hh Hx Hu. destruct (Hwo h xs u Hh Hx Hu) as (th & st & Et & Et' & Hst).
    destruct (sched_frame_runnable k1 k' u _ Hsf Et') as (st' & Et2 & Hst'); [done|].
    exists th, st'. split; [done|]. split; [by rewrite Et2|done].
  - intros h Hh. rewrite (sf_waits _ _ Hsf); [by apply He|].
    rewrite Forall_forall in Hw. by apply Hw.
Qed.

Definition is_mutex (a : ipc_object) : bool := match a with OMutex _ => true | _ => false end.
Definition reset_to (v : Z) (a : ipc_object) : Z := match a with OSem _ => u16 v | _ => 0 end.

Lemma ipc_reset_spec o v a k :
  kernel_inv k -> object_inv o a k -> is_Some (rt_current_thread k) -> is_mutex a = false ->
  exists a' k', ipc_reset o v a k = Some (a', k', RT_EOK) /\ kernel_inv k' /\
    object_inv o a' k' /\ pending a' = reset_to v a /\ all_woken (heads o a) k k' /\
    (forall h, h ∈ heads o a -> lists k' !! h = Some []).
Proof.
  intros Hk Hi Hcur Hm. destruct (heads_ok o a) as [Hnd Hw].
  destruct (resume_heads_spec (heads o a) k Hk Hnd Hw) as (k1 & E & Hem).
  { intros h. by apply object_heads. }
  destruct (emptied_schedule _ _ _ Hem Hw Hcur) as (k' & Es & Hk' & Hwo & He).
  assert (lists k' !! LSuspend o = Some []) as Hnil by (apply He; destruct a; set_solver).
  destruct a as [s|m|e|mb|mq]; [..|done| | |]; cbn [heads resume_heads] in E; simpl.
  - unfold Sem.Sem.rt_sem_control. destruct (rt_ipc_list_resume_all _ _) as [k2|]; [|done].
    cbn [mbind option_bind] in E |- *. injection E as ->. rewrite Es. cbn [mbind option_bind].
    do 2 eexists. split; [done|]. split; [done|]. split; [|done].
    destruct Hi. constructor; simpl; [|done|by exists []]. apply wrapu_range. lia.
  - unfold Event.Event.rt_event_control. destruct (rt_ipc_list_resume_all _ _) as [k2|]; [|done].
    cbn [mbind option_bind] in E |- *. injection E as ->. rewrite Es. cbn [mbind option_bind].
    do 2 eexists. split; [done|]. split; [done|]. split; [|done].
    destruct Hi. constructor; simpl; [lia|done|]. exists []. split; [done|].
    intros t Ht. by apply not_elem_of_nil in Ht.
  - unfold Mailbox.Mailbox.rt_mb_control. destruct (rt_ipc_list_resume_all _ _) as [k2|]; [|done].
    cbn [mbind option_bind] in E |- *. destruct (rt_ipc_list_resume_all _ _) as [k3|]; [|done].
    cbn [mbind option_bind] in E |- *. injection E as ->. rewrite Es. cbn [mbind option_bind].
    do 2 eexists. split; [done|]. split; [done|]. split; [|split; [|done]].
    + destruct Hi. constructor; simpl; try done; try lia; 
        first [by rewrite Z.mod_0_l by lia|rewrite He by set_solver; done].
    + done.
  - unfold MsgQueue.MsgQueue.rt_mq_control. destruct (rt_ipc_list_resume_all _ _) as [k2|]; [|done].
    cbn [mbind option_bind] in E |- *. injection E as ->. rewrite Es. cbn [mbind option_bind].
    destruct Hi as [(qs & fs & ds & Hs) Hf Hl].
    destruct (release_all_all mq qs fs ds Hs) as (mq' & -> & Hs' & Hf'). cbn [mbind option_bind].
    do 2 eexists. split; [done|]. split; [done|]. split; [|done].
    constructor; [do 3 eexists; exact Hs'|simpl; by rewrite Hf'|eauto].
Qed.

(** ** Theorems *)

(** Thread 1 waits for the semaphore 7. *)
Lemma sample_waiting :
  exists k, kernel_inv k /\ object_inv 7 (OSem Sem.Sem.sample_sem) k /\
    lists k !! LSuspend 7 = Some [1] /\ is_Some (rt_current_thread k).
Proof.
  destruct sample_ipc_caller as [cth Hca].
  destruct (Sem.Sem.sem_take_spec 7 Sem.Sem.sample_sem sample_ipc 1 cth (-1) sample_ipc_inv
    Sem.Sem.sample_sem_inv Hca) as (s' & k' & r & E & Hk & Hs & H); [by vm_compute|].
  destruct H as [[H _]|[(_ & H & _)|(_ & _ & -> & -> & ys & zs & H1 & H2 & _)]];
    [by vm_compute in H|done|].
  rewrite sample_ipc_list in H1. injection H1 as H1. symmetry in H1.
  apply app_eq_nil in H1 as [-> ->].
  exists k'. do 3 (split; [done|]).
  assert ((fun r => bool_decide (is_Some (rt_current_thread r.1.2))) <$>
    Sem.Sem.rt_sem_take 7 (-1) Sem.Sem.sample_sem sample_ipc = Some true) as Ec by (by vm_compute).
  rewrite E in Ec. injection Ec as Ec. by apply bool_decide_eq_true in Ec.
Qed.

(** Detaching a static or deleting a dynamic semaphore, mutex, event,
    mailbox or message queue terminates without a fault, makes every thread
    waiting on it runnable with error -RT_ERROR, leaves its wait lists empty
    (or gone), touches no other wait list and preserves the kernel
    invariant. *)
Theorem ipc_close_wakes_all o a k :
  kernel_inv k -> object_inv o a k -> (is_static a = false -> rt_interrupt_nest k = 0) ->
  exists k', ipc_close o a k = Some (k', RT_EOK) /\ kernel_inv k' /\
    all_woken (heads o a) k k' /\
    (forall h, h ∈ heads o a -> lists k' !! h = if is_static a then Some [] else None) /\
    (forall h, is_wait h -> h ∉ heads o a -> lists k' !! h = lists k !! h).
Proof. apply ipc_close_spec. Qed.

Lemma ipc_close_wakes_all_witness :
  exists k k' th, lists k !! LSuspend 7 = Some [1] /\
    ipc_close 7 (OSem Sem.Sem.sample_sem) k = Some (k', RT_EOK) /\
    threads k' !! 1 = Some th /\ error th = - RT_ERROR.
Proof.
  destruct sample_waiting as (k & Hk & Hi & Hl & _).
  destruct (ipc_close_wakes_all 7 (OSem Sem.Sem.sample_sem) k Hk Hi) as (k' & E & _ & Hw & _);
    [intros H; inversion H|].
  destruct (Hw (LSuspend 7) [1] 1) as (th & st & _ & Et & _); [left|exact Hl|left|].
  exists k, k', (set_stat st (set_error (- RT_ERROR) th)).
  split; [exact Hl|]. split; [exact E|]. split; [exact Et|reflexivity].
Defined.

(** The reset command of a semaphore, event, mailbox or message queue
    releases every waiter with -RT_ERROR, leaves the object well formed with
    nothing pending (a semaphore with the given count modulo 2^16, a message
    queue with all queued slots back on its free list) and preserves the
    kernel invariant. *)
Theorem ipc_reset_empties o v a k :
  kernel_inv k -> object_inv o a k -> is_Some (rt_current_thread k) -> is_mutex a = false ->
  exists a' k', ipc_reset o v a k = Some (a', k', RT_EOK) /\ kernel_inv k' /\
    object_inv o a' k' /\ pending a' = reset_to v a /\ all_woken (heads o a) k k' /\
    (forall h, h ∈ heads o a -> lists k' !! h = Some []).
Proof. apply ipc_reset_spec. Qed.

Lemma ipc_reset_empties_witness :
  exists k k' a', lists k !! LSuspend 7 = Some [1] /\
    ipc_reset 7 5 (OSem Sem.Sem.sample_sem) k = Some (a', k', RT_EOK) /\
    pending a' = 5 /\ lists k' !! LSuspend 7 = Some [].
Proof.
  destruct sample_waiting as (k & Hk & Hi & Hl & Hc).
  destruct (ipc_reset_empties 7 5 (OSem Sem.Sem.sample_sem) k Hk Hi Hc)
    as (a' & k' & E & _ & _ & Hp & _ & He); [reflexivity|].
  exists k, k', a'. split; [exact Hl|]. split; [exact E|]. split; [exact Hp|]. apply He. left.
Defined.

End IpcClose.
