(* ===== verification/ModbusCrc.v ===== *)
(** * The Modbus checksum

    [components/net/freemodbus/modbus/rtu/mbcrc.c]: the table-driven CRC-16 of a
    Modbus RTU frame, its equivalence with the bit-serial definition of the
    Modbus specification (polynomial 0xA001, reflected, preset 0xFFFF), and what
    the checksum detects. *)

From S2P Require Import Prelude.

Module ModbusCrc.

(** ** The code *)

Definition aucCRCHi : list Z :=
  [
    0x00; 0xc1; 0x81; 0x40; 0x01; 0xc0; 0x80; 0x41; 0x01; 0xc0; 0x80; 0x41; 0x00; 0xc1; 0x81; 0x40;
    0x01; 0xc0; 0x80; 0x41; 0x00; 0xc1; 0x81; 0x40; 0x00; 0xc1; 0x81; 0x40; 0x01; 0xc0; 0x80; 0x41;
    0x01; 0xc0; 0x80; 0x41; 0x00; 0xc1; 0x81; 0x40; 0x00; 0xc1; 0x81; 0x40; 0x01; 0xc0; 0x80; 0x41;
    0x00; 0xc1; 0x81; 0x40; 0x01; 0xc0; 0x80; 0x41; 0x01; 0xc0; 0x80; 0x41; 0x00; 0xc1; 0x81; 0x40;
    0x01; 0xc0; 0x80; 0x41; 0x00; 0xc1; 0x81; 0x40; 0x00; 0xc1; 0x81; 0x40; 0x01; 0xc0; 0x80; 0x41;
    0x00; 0xc1; 0x81; 0x40; 0x01; 0xc0; 0x80; 0x41; 0x01; 0xc0; 0x80; 0x41; 0x00; 0xc1; 0x81; 0x40;
    0x00; 0xc1; 0x81; 0x40; 0x01; 0xc0; 0x80; 0x41; 0x01; 0xc0; 0x80; 0x41; 0x00; 0xc1; 0x81; 0x40;
    0x01; 0xc0; 0x80; 0x41; 0x00; 0xc1; 0x81; 0x40; 0x00; 0xc1; 0x81; 0x40; 0x01; 0xc0; 0x80; 0x41;
    0x01; 0xc0; 0x80; 0x41; 0x00; 0xc1; 0x81; 0x40; 0x00; 0xc1; 0x81; 0x40; 0x01; 0xc0; 0x80; 0x41;
    0x00; 0xc1; 0x81; 0x40; 0x01; 0xc0; 0x80; 0x41; 0x01; 0xc0; 0x80; 0x41; 0x00; 0xc1; 0x81; 0x40;
    0x00; 0xc1; 0x81; 0x40; 0x01; 0xc0; 0x80; 0x41; 0x01; 0xc0; 0x80; 0x41; 0x00; 0xc1; 0x81; 0x40;
    0x01; 0xc0; 0x80; 0x41; 0x00; 0xc1; 0x81; 0x40; 0x00; 0xc1; 0x81; 0x40; 0x01; 0xc0; 0x80; 0x41;
    0x00; 0xc1; 0x81; 0x40; 0x01; 0xc0; 0x80; 0x41; 0x01; 0xc0; 0x80; 0x41; 0x00; 0xc1; 0x81; 0x40;
    0x01; 0xc0; 0x80; 0x41; 0x00; 0xc1; 0x81; 0x40; 0x00; 0xc1; 0x81; 0x40; 0x01; 0xc0; 0x80; 0x41;
    0x01; 0xc0; 0x80; 0x41; 0x00; 0xc1; 0x81; 0x40; 0x00; 0xc1; 0x81; 0x40; 0x01; 0xc0; 0x80; 0x41;
    0x00; 0xc1; 0x81; 0x40; 0x01; 0xc0; 0x80; 0x41; 0x01; 0xc0; 0x80; 0x41; 0x00; 0xc1; 0x81; 0x40 ].

Definition aucCRCLo : list Z :=
  [
    0x00; 0xc0; 0xc1; 0x01; 0xc3; 0x03; 0x02; 0xc2; 0xc6; 0x06; 0x07; 0xc7; 0x05; 0xc5; 0xc4; 0x04;
    0xcc; 0x0c; 0x0d; 0xcd; 0x0f; 0xcf; 0xce; 0x0e; 0x0a; 0xca; 0xcb; 0x0b; 0xc9; 0x09; 0x08; 0xc8;
    0xd8; 0x18; 0x19; 0xd9; 0x1b; 0xdb; 0xda; 0x1a; 0x1e; 0xde; 0xdf; 0x1f; 0xdd; 0x1d; 0x1c; 0xdc;
    0x14; 0xd4; 0xd5; 0x15; 0xd7; 0x17; 0x16; 0xd6; 0xd2; 0x12; 0x13; 0xd3; 0x11; 0xd1; 0xd0; 0x10;
    0xf0; 0x30; 0x31; 0xf1; 0x33; 0xf3; 0xf2; 0x32; 0x36; 0xf6; 0xf7; 0x37; 0xf5; 0x35; 0x34; 0xf4;
    0x3c; 0xfc; 0xfd; 0x3d; 0xff; 0x3f; 0x3e; 0xfe; 0xfa; 0x3a; 0x3b; 0xfb; 0x39; 0xf9; 0xf8; 0x38;
    0x28; 0xe8; 0xe9; 0x29; 0xeb; 0x2b; 0x2a; 0xea; 0xee; 0x2e; 0x2f; 0xef; 0x2d; 0xed; 0xec; 0x2c;
    0xe4; 0x24; 0x25; 0xe5; 0x27; 0xe7; 0xe6; 0x26; 0x22; 0xe2; 0xe3; 0x23; 0xe1; 0x21; 0x20; 0xe0;
    0xa0; 0x60; 0x61; 0xa1; 0x63; 0xa3; 0xa2; 0x62; 0x66; 0xa6; 0xa7; 0x67; 0xa5; 0x65; 0x64; 0xa4;
    0x6c; 0xac; 0xad; 0x6d; 0xaf; 0x6f; 0x6e; 0xae; 0xaa; 0x6a; 0x6b; 0xab; 0x69; 0xa9; 0xa8; 0x68;
    0x78; 0xb8; 0xb9; 0x79; 0xbb; 0x7b; 0x7a; 0xba; 0xbe; 0x7e; 0x7f; 0xbf; 0x7d; 0xbd; 0xbc; 0x7c;
    0xb4; 0x74; 0x75; 0xb5; 0x77; 0xb7; 0xb6; 0x76; 0x72; 0xb2; 0xb3; 0x73; 0xb1; 0x71; 0x70; 0xb0;
    0x50; 0x90; 0x91; 0x51; 0x93; 0x53; 0x52; 0x92; 0x96; 0x56; 0x57; 0x97; 0x55; 0x95; 0x94; 0x54;
    0x9c; 0x5c; 0x5d; 0x9d; 0x5f; 0x9f; 0x9e; 0x5e; 0x5a; 0x9a; 0x9b; 0x5b; 0x99; 0x59; 0x58; 0x98;
    0x88; 0x48; 0x49; 0x89; 0x4b; 0x8b; 0x8a; 0x4a; 0x4e; 0x8e; 0x8f; 0x4f; 0x8d; 0x4d; 0x4c; 0x8c;
    0x44; 0x84; 0x85; 0x45; 0x87; 0x47; 0x46; 0x86; 0x82; 0x42; 0x43; 0x83; 0x41; 0x81; 0x80; 0x40 ].

(** The loop body of [usMBCRC16] on the pair ([ucCRCHi], [ucCRCLo]). *)
Definition crc_byte (st : Z * Z) (b : Z) : Z * Z :=
  let iIndex := Z.lxor st.2 b in
  (zget aucCRCLo iIndex, u8 (Z.lxor st.1 (zget aucCRCHi iIndex))).

Definition usMBCRC16 (pucFrame : list Z) (usLen : Z) : Z :=
  let st := foldl crc_byte (0xff, 0xff) (take (Z.to_nat usLen) pucFrame) in
  u16 (Z.lor (Z.shiftl st.1 8) st.2).

(** ** The reference: one bit at a time *)

Definition crc_bit (c : Z) : Z :=
  if Z.odd c then Z.lxor (Z.shiftr c 1) 0xa001 else Z.shiftr c 1.

Definition crc_ref_byte (c b : Z) : Z := Nat.iter 8 crc_bit (Z.lxor c b).

Definition crc_ref (l : list Z) : Z := foldl crc_ref_byte 0xffff l.

(** ** Lemmas on bytes *)

Definition byte (b : Z) : Prop := 0 <= b < 256.

#[global] Instance byte_dec b : Decision (byte b).
Proof. unfold byte. apply _. Defined.

Definition pack (hi lo : Z) : Z := Z.lor (Z.shiftl hi 8) lo.

Lemma lxor_range w x y : 0 <= w -> 0 <= x < 2 ^ w -> 0 <= y < 2 ^ w -> 0 <= Z.lxor x y < 2 ^ w.
Proof.
  intros Hw Hx Hy. split; [apply Z.lxor_nonneg; lia|].
  assert (Z.lxor x y = Z.lxor x y mod 2 ^ w) as ->.
  { apply Z.bits_inj'. intros n Hn. destruct (decide (n < w)) as [H|H].
    - by rewrite Z.mod_pow2_bits_low by lia.
    - rewrite Z.mod_pow2_bits_high by lia. rewrite Z.lxor_spec.
      rewrite <- (Z.mod_small x (2 ^ w)), <- (Z.mod_small y (2 ^ w)) by lia.
      by rewrite !Z.mod_pow2_bits_high by lia. }
  apply Z.mod_pos_bound. by apply Z.pow_pos_nonneg.
Qed.

Lemma byte_lxor x y : byte x -> byte y -> byte (Z.lxor x y).
Proof. apply (lxor_range 8). lia. Qed.

Lemma byte_high_bit b n : byte b -> 8 <= n -> Z.testbit b n = false.
Proof.
  intros Hb Hn. rewrite <- (Z.mod_small b (2 ^ 8)) by (unfold byte in *; lia).
  by rewrite Z.mod_pow2_bits_high by lia.
Qed.

Lemma land_shiftl_byte hi lo : byte lo -> Z.land (Z.shiftl hi 8) lo = 0.
Proof.
  intros Hlo. apply Z.bits_inj'. intros n Hn. rewrite Z.land_spec, Z.bits_0.
  destruct (decide (n < 8)).
  - by rewrite Z.shiftl_spec_low by lia.
  - rewrite (byte_high_bit lo) by (done || lia). apply andb_false_r.
Qed.

Lemma pack_lxor hi lo : byte lo -> pack hi lo = Z.lxor (Z.shiftl hi 8) lo.
Proof. intros Hlo. symmetry. by apply Z.lxor_lor, land_shiftl_byte. Qed.

Lemma pack_add hi lo : byte lo -> pack hi lo = 256 * hi + lo.
Proof.
  intros Hlo. rewrite pack_lxor by done.
  rewrite <- Z.add_nocarry_lxor by by apply land_shiftl_byte.
  rewrite Z.shiftl_mul_pow2 by lia. lia.
Qed.

(** ** The table is eight steps of the bit-serial definition *)

Lemma crc_bit_lxor x y : crc_bit (Z.lxor x y) = Z.lxor (crc_bit x) (crc_bit y).
Proof.
  unfold crc_bit. rewrite <- !Z.bit0_odd, Z.lxor_spec, Z.shiftr_lxor.
  apply Z.bits_inj'. intros n Hn.
  destruct (Z.testbit x 0), (Z.testbit y 0); cbn [xorb]; rewrite !Z.lxor_spec;
    destruct (Z.testbit (Z.shiftr x 1) n), (Z.testbit (Z.shiftr y 1) n), (Z.testbit 0xa001 n);
    reflexivity.
Qed.

Lemma crc_bits_lxor n x y :
  Nat.iter n crc_bit (Z.lxor x y) = Z.lxor (Nat.iter n crc_bit x) (Nat.iter n crc_bit y).
Proof. induction n as [|n IH]; [done|]. rewrite !Nat.iter_succ. by rewrite IH, crc_bit_lxor. Qed.

(** A word whose low [n] bits are zero is only shifted. *)
Lemma crc_bits_shift n x : Nat.iter n crc_bit (Z.shiftl x (Z.of_nat n)) = x.
Proof.
  revert x. induction n as [|n IH]; intros x; [by rewrite Z.shiftl_0_r|].
  rewrite Nat.iter_succ_r. unfold crc_bit at 2.
  rewrite <- Z.bit0_odd, Z.shiftl_spec_low by lia.
  rewrite Z.shiftr_shiftl_l by lia.
  replace (Z.of_nat (S n) - 1) with (Z.of_nat n) by lia. apply IH.
Qed.

(** The entries of the two tables are the checksums of single bytes. *)
Lemma tables_ok :
  forallb (fun i => Nat.iter 8 crc_bit i =? pack (zget aucCRCLo i) (zget aucCRCHi i))
    (Z.of_nat <$> seq 0 256) = true.
Proof. vm_compute. reflexivity. Qed.

Lemma tables_bytes : Forall byte (aucCRCHi ++ aucCRCLo).
Proof. by_computation. Qed.

Lemma in_index b : byte b -> In b (Z.of_nat <$> seq 0 256).
Proof.
  intros Hb. apply list_elem_of_In, list_elem_of_fmap. exists (Z.to_nat b).
  unfold byte in Hb. split; [lia|]. apply elem_of_seq. lia.
Qed.

Lemma table_entry i :
  byte i -> Nat.iter 8 crc_bit i = pack (zget aucCRCLo i) (zget aucCRCHi i).
Proof.
  intros Hi. pose proof tables_ok as H. rewrite forallb_forall in H.
  apply Z.eqb_eq, H. by apply in_index.
Qed.

Lemma zget_byte l i : Forall byte l -> byte (zget l i).
Proof. intros Hl. apply Forall_zget; [done|unfold byte; lia]. Qed.

Lemma table_bytes i : byte (zget aucCRCHi i) /\ byte (zget aucCRCLo i).
Proof. pose proof tables_bytes as [H1 H2]%Forall_app. split; by apply zget_byte. Qed.

(** The state of the loop: two bytes. *)
Definition crc_ok (st : Z * Z) : Prop := byte st.1 /\ byte st.2.

Lemma crc_byte_ok st b : crc_ok st -> crc_ok (crc_byte st b).
Proof.
  intros _. split; cbn [crc_byte fst snd].
  - apply table_bytes.
  - apply (wrapu_range 8). lia.
Qed.

Lemma crc_fold_ok l st : crc_ok st -> crc_ok (foldl crc_byte st l).
Proof. revert st. induction l as [|b l IH]; intros st Hst; [done|]. apply IH. by apply crc_byte_ok. Qed.

Lemma crc_step_ref st b :
  crc_ok st -> byte b -> crc_ref_byte (pack st.1 st.2) b = pack (crc_byte st b).1 (crc_byte st b).2.
Proof.
  intros [Hhi Hlo] Hb. unfold crc_ref_byte. cbn [crc_byte fst snd].
  pose proof (table_bytes (Z.lxor st.2 b)) as [HH HL].
  rewrite pack_lxor, Z.lxor_assoc by done.
  pose proof (crc_bits_shift 8 st.1) as E. change (Z.of_nat 8) with 8 in E.
  rewrite crc_bits_lxor, E, table_entry by by apply byte_lxor.
  pose proof (byte_lxor _ _ Hhi HH) as Hx.
  rewrite (wrapu_small 8) by (unfold byte in Hx; lia).
  rewrite !pack_lxor by done.
  rewrite <- !Z.lxor_assoc. f_equal. apply Z.lxor_comm.
Qed.

Lemma crc_fold_ref l st :
  crc_ok st -> Forall byte l ->
  foldl crc_ref_byte (pack st.1 st.2) l =
  pack (foldl crc_byte st l).1 (foldl crc_byte st l).2.
Proof.
  revert st. induction l as [|b l IH]; intros st Hst Hl; [done|].
  apply Forall_cons in Hl as [Hb Hl]. cbn [foldl].
  rewrite crc_step_ref by done. apply IH; [by apply crc_byte_ok|done].
Qed.

Lemma pack_u16 hi lo : byte hi -> byte lo -> u16 (pack hi lo) = pack hi lo.
Proof. intros Hhi Hlo. apply wrapu_small. rewrite pack_add by done. unfold byte in *. lia. Qed.

Lemma start_ok : crc_ok (0xff, 0xff).
Proof. split; unfold byte; simpl; lia. Qed.

Definition crc_state (l : list Z) : Z * Z := foldl crc_byte (0xff, 0xff) l.

Lemma crc_state_ok l : crc_ok (crc_state l).
Proof. apply crc_fold_ok, start_ok. Qed.

Lemma usMBCRC16_state l n :
  usMBCRC16 l n = pack (crc_state (take (Z.to_nat n) l)).1 (crc_state (take (Z.to_nat n) l)).2.
Proof. unfold usMBCRC16. apply pack_u16; apply crc_state_ok. Qed.

Lemma take_zlen {A} (l : list A) : take (Z.to_nat (zlen l)) l = l.
Proof. apply take_ge. unfold zlen. lia. Qed.

Lemma usMBCRC16_take l n :
  usMBCRC16 l n = usMBCRC16 (take (Z.to_nat n) l) (zlen (take (Z.to_nat n) l)).
Proof. unfold usMBCRC16. by rewrite take_zlen. Qed.

(** The table-driven checksum is the bit-serial one. *)
Lemma usMBCRC16_spec l n :
  Forall byte l -> usMBCRC16 l n = crc_ref (take (Z.to_nat n) l).
Proof.
  intros Hl. rewrite usMBCRC16_state. unfold crc_state, crc_ref.
  rewrite <- crc_fold_ref; [done|apply start_ok|by apply Forall_take].
Qed.

Lemma usMBCRC16_range l n : 0 <= usMBCRC16 l n < 65536.
Proof.
  rewrite usMBCRC16_state. destruct (crc_state_ok (take (Z.to_nat n) l)) as [Hh Hl].
  rewrite pack_add by done. unfold byte in *. lia.
Qed.

(** ** What the checksum is good for *)

(** The two halves of the checksum, appended low byte first, bring it to 0. *)
Lemma crc_byte_self st : crc_ok st -> crc_byte (crc_byte st st.2) st.1 = (0, 0).
Proof.
  intros [Hh Hl]. unfold crc_byte at 2. cbn [fst snd]. rewrite Z.lxor_nilpotent.
  change (zget aucCRCLo 0) with 0. change (zget aucCRCHi 0) with 0.
  rewrite Z.lxor_0_r, (wrapu_small 8) by (unfold byte in *; lia).
  unfold crc_byte. cbn [fst snd]. rewrite Z.lxor_nilpotent. reflexivity.
Qed.

Lemma pack_zero hi lo : byte hi -> byte lo -> pack hi lo = 0 <-> hi = 0 /\ lo = 0.
Proof. intros Hhi Hlo. rewrite pack_add by done. unfold byte in *. lia. Qed.

Lemma pack_lo hi lo : byte lo -> Z.land (pack hi lo) 0xff = lo.
Proof.
  intros Hlo. change 0xff with (Z.ones 8). rewrite Z.land_ones by lia.
  rewrite pack_add by done. unfold byte in *. change (2 ^ 8) with 256. zlia.
Qed.

Lemma pack_hi hi lo : byte lo -> Z.shiftr (pack hi lo) 8 = hi.
Proof.
  intros Hlo. rewrite Z.shiftr_div_pow2 by lia. rewrite pack_add by done.
  unfold byte in *. change (2 ^ 8) with 256. zlia.
Qed.

(** The checksum of a message, as [eMBRTUSend] appends it. *)
Definition crc_tail (l : list Z) : list Z :=
  let c := usMBCRC16 l (zlen l) in [u8 (Z.land c 0xff); u8 (Z.shiftr c 8)].

Lemma crc_tail_state l : crc_tail l = [(crc_state l).2; (crc_state l).1].
Proof.
  unfold crc_tail. rewrite usMBCRC16_state, take_zlen.
  destruct (crc_state_ok l) as [Hh Hl]. rewrite pack_lo, pack_hi by done.
  unfold byte in *. by rewrite !(wrapu_small 8) by lia.
Qed.

Lemma crc_tail_bytes l : Forall byte (crc_tail l).
Proof. rewrite crc_tail_state. destruct (crc_state_ok l). by rewrite !Forall_cons. Qed.

Lemma crc_tail_accepted l : crc_state (l ++ crc_tail l) = (0, 0).
Proof.
  unfold crc_state at 1. rewrite foldl_app, crc_tail_state.
  exact (crc_byte_self _ (crc_state_ok l)).
Qed.

Lemma usMBCRC16_zero l : usMBCRC16 l (zlen l) = 0 <-> crc_state l = (0, 0).
Proof.
  rewrite usMBCRC16_state, take_zlen. destruct (crc_state_ok l) as [Hh Hl].
  rewrite pack_zero by done. destruct (crc_state l); simpl. split; [intros [-> ->]|intros [= -> ->]]; done.
Qed.

(** Both arguments of a step can be recovered from its result. *)
Lemma lo_table_perm :
  forallb (fun i => forallb (fun j => (negb (zget aucCRCLo i =? zget aucCRCLo j)) || (i =? j))
    (Z.of_nat <$> seq 0 256)) (Z.of_nat <$> seq 0 256) = true.
Proof. vm_compute. reflexivity. Qed.

Lemma lo_table_inj i j : byte i -> byte j -> zget aucCRCLo i = zget aucCRCLo j -> i = j.
Proof.
  intros Hi Hj E. pose proof lo_table_perm as H. rewrite forallb_forall in H.
  specialize (H i (in_index i Hi)). rewrite forallb_forall in H.
  specialize (H j (in_index j Hj)). rewrite E, Z.eqb_refl in H. by apply Z.eqb_eq.
Qed.

Lemma lxor_cancel x y z : Z.lxor x z = Z.lxor y z -> x = y.
Proof.
  intros H. apply (f_equal (fun v => Z.lxor v z)) in H.
  by rewrite !Z.lxor_assoc, Z.lxor_nilpotent, !Z.lxor_0_r in H.
Qed.

Lemma crc_byte_inj st st' b b' :
  crc_ok st -> crc_ok st' -> byte b -> byte b' -> crc_byte st b = crc_byte st' b' ->
  st.1 = st'.1 /\ Z.lxor st.2 b = Z.lxor st'.2 b'.
Proof.
  intros [H1 H2] [H1' H2'] Hb Hb' [= E1 E2].
  apply lo_table_inj in E1; [|by apply byte_lxor..]. split; [|done].
  rewrite E1 in E2. pose proof (table_bytes (Z.lxor st'.2 b')) as [HH _].
  pose proof (byte_lxor _ _ H1 HH). pose proof (byte_lxor _ _ H1' HH).
  rewrite !(wrapu_small 8) in E2 by (unfold byte in *; lia). by eapply lxor_cancel.
Qed.

Lemma crc_fold_inj l st st' :
  crc_ok st -> crc_ok st' -> Forall byte l ->
  foldl crc_byte st l = foldl crc_byte st' l -> st = st'.
Proof.
  revert st st'. induction l as [|b l IH]; intros st st' Hst Hst' Hl E; [done|].
  apply Forall_cons in Hl as [Hb Hl]. cbn [foldl] in E.
  apply IH in E; [|by apply crc_byte_ok..|done].
  apply crc_byte_inj in E as [E1 E2]; [|done..]. apply lxor_cancel in E2.
  destruct st, st'; simpl in *; congruence.
Qed.

(** Two neighbouring bytes can be recovered too: an error burst of up to 16
    bits within two bytes never goes unnoticed. *)
Lemma crc_two_bytes st x y x' y' :
  crc_ok st -> byte x -> byte y -> byte x' -> byte y' ->
  foldl crc_byte st [x; y] = foldl crc_byte st [x'; y'] -> x = x' /\ y = y'.
Proof.
  intros Hst Hx Hy Hx' Hy' E. cbn [foldl] in E.
  apply crc_byte_inj in E as [E1 E2]; [|by try apply crc_byte_ok..].
  cbn [crc_byte fst snd] in E1. destruct Hst as [H1 H2].
  apply lo_table_inj in E1; [|by apply byte_lxor..].
  assert (x = x') as <-.
  { rewrite !(Z.lxor_comm st.2) in E1. by eapply lxor_cancel. }
  split; [done|]. rewrite !(Z.lxor_comm (crc_byte st x).2) in E2. by eapply lxor_cancel.
Qed.

Lemma crc_burst l r x y x' y' :
  Forall byte (l ++ [x; y] ++ r) -> Forall byte [x'; y'] ->
  crc_state (l ++ [x; y] ++ r) = crc_state (l ++ [x'; y'] ++ r) -> x = x' /\ y = y'.
Proof.
  rewrite !Forall_app. intros (Hl & Hxy & Hr) Hxy' E. unfold crc_state in E.
  rewrite !(foldl_app crc_byte) in E. rewrite !Forall_cons in Hxy, Hxy'.
  pose proof (crc_fold_ok l _ start_ok) as Hst.
  apply crc_fold_inj in E; [|by apply crc_fold_ok..|done].
  apply crc_two_bytes in E; naive_solver.
Qed.

(** ** Theorems *)

(** C13. The table-driven usMBCRC16 computes, for every frame of bytes, the
    bit-serial CRC-16 of the Modbus specification (reflected polynomial
    0xA001, initial value 0xFFFF). *)
Theorem usMBCRC16_is_bitserial pucFrame usLen :
  Forall byte pucFrame -> usMBCRC16 pucFrame usLen = crc_ref (take (Z.to_nat usLen) pucFrame).
Proof. apply usMBCRC16_spec. Qed.

Lemma usMBCRC16_is_bitserial_witness :
  usMBCRC16 [0x01; 0x03; 0; 0; 0; 0x0a] 6 = 0xcdc5 /\
  usMBCRC16 [0x01; 0x03; 0; 0; 0; 0x0a] 6 = crc_ref [0x01; 0x03; 0; 0; 0; 0x0a].
Proof.
  split; [vm_compute; reflexivity|].
  apply (usMBCRC16_is_bitserial [0x01; 0x03; 0; 0; 0; 0x0a] 6).
  by_computation.
Defined.

(** A frame that passes the receiver's CRC check and is then changed in any
    way within two adjacent bytes no longer passes it: such transmission
    errors are always detected. *)
Theorem crc_detects_two_byte_errors l r x y x' y' :
  Forall byte (l ++ [x; y] ++ r) -> Forall byte [x'; y'] -> (x, y) <> (x', y') ->
  usMBCRC16 (l ++ [x; y] ++ r) (zlen (l ++ [x; y] ++ r)) = 0 ->
  usMBCRC16 (l ++ [x'; y'] ++ r) (zlen (l ++ [x'; y'] ++ r)) <> 0.
Proof.
  intros Hf Hxy Hne H0 H1. rewrite usMBCRC16_zero in H0, H1.
  destruct (crc_burst l r x y x' y') as [-> ->]; [done..|congruence|done].
Qed.

Lemma crc_detects_two_byte_errors_witness :
  usMBCRC16 ([0x01; 0x03; 0; 0] ++ [0x01; 0x0a] ++ [0xc5; 0xcd]) 8 <> 0.
Proof.
  apply (crc_detects_two_byte_errors [0x01; 0x03; 0; 0] [0xc5; 0xcd] 0 0x0a 1 0x0a).
  - by_computation.
  - by_computation.
  - intros [=].
  - vm_compute. reflexivity.
Defined.

End ModbusCrc.
