(* ===== verification/ModbusRtu.v ===== *)
(** * Modbus RTU framing

    [components/net/freemodbus/modbus/rtu/mbrtu.c] and the port layer under it
    ([port/portserial.c], [port/portevent.c], [port/porttimer.c]): the receive,
    transmit and t3.5 state machines, which run in the UART interrupt, in the
    transmitter thread and in a timer callback, and the calls of the protocol
    layer that take a received frame and start a reply.

    The port is kept as the flags the state machines can see: whether the
    receive interrupt is enabled, whether the event that drives the transmitter
    thread is set, whether the t3.5 timer runs, the pending bits of the slave's
    event object and the bytes written to the UART.  Array accesses are checked:
    an index outside [ucRTUBuf] is a fault. *)

From S2P Require Import Prelude ModbusCrc.
Import ModbusCrc.

Module ModbusRtu.

(** ** Data *)

(** [mb.h]: [eMBErrorCode]. *)
Inductive eMBErrorCode :=
  MB_ENOERR | MB_ENOREG | MB_EINVAL | MB_EPORTERR | MB_ENORES | MB_EIO | MB_EILLSTATE
  | MB_ETIMEDOUT.

Inductive eMBRcvState := STATE_RX_INIT | STATE_RX_IDLE | STATE_RX_RCV | STATE_RX_ERROR.
Inductive eMBSndState := STATE_TX_IDLE | STATE_TX_XMIT.

#[global] Instance eMBErrorCode_dec : EqDecision eMBErrorCode.
Proof. solve_decision. Defined.
#[global] Instance eMBRcvState_dec : EqDecision eMBRcvState.
Proof. solve_decision. Defined.
#[global] Instance eMBSndState_dec : EqDecision eMBSndState.
Proof. solve_decision. Defined.

Definition MB_SER_PDU_SIZE_MIN : Z := 4.
Definition MB_SER_PDU_SIZE_MAX : Z := 60.
Definition MB_SER_PDU_SIZE_CRC : Z := 2.
Definition MB_SER_PDU_ADDR_OFF : Z := 0.
Definition MB_SER_PDU_PDU_OFF : Z := 1.

(** [mbport.h]: [eMBEventType]. *)
Definition EV_READY : Z := 1.
Definition EV_FRAME_RECEIVED : Z := 2.
Definition EV_EXECUTE : Z := 4.
Definition EV_FRAME_SENT : Z := 8.

(** The port layer. *)
Record mbport := mk_port {
  rx_int : bool;          (** RX interrupt enabled *)
  trans_start : bool;     (** EVENT_SERIAL_TRANS_START in [event_serial] *)
  t35_on : bool;          (** [timer] linked *)
  t35_ticks : Z;          (** its period *)
  xSlaveOsEvent : Z;      (** the pending events *)
  uart_out : list Z;      (** bytes written to the device, oldest first *)
}.

(** The static variables of mbrtu.c.  [pucSndBufferCur] points into
    [ucRTUBuf]; it is the offset. *)
Record mbrtu := mk_rtu {
  eSndState : eMBSndState;
  eRcvState : eMBRcvState;
  ucRTUBuf : list Z;
  pucSndBufferCur : Z;
  usSndBufferCount : Z;   (** USHORT *)
  usRcvBufferPos : Z;     (** USHORT *)
  port : mbport;
}.

Definition set_snd (x : eMBSndState) (s : mbrtu) : mbrtu :=
  mk_rtu x (eRcvState s) (ucRTUBuf s) (pucSndBufferCur s) (usSndBufferCount s)
    (usRcvBufferPos s) (port s).
Definition set_rcv (x : eMBRcvState) (s : mbrtu) : mbrtu :=
  mk_rtu (eSndState s) x (ucRTUBuf s) (pucSndBufferCur s) (usSndBufferCount s)
    (usRcvBufferPos s) (port s).
Definition set_rtubuf (x : list Z) (s : mbrtu) : mbrtu :=
  mk_rtu (eSndState s) (eRcvState s) x (pucSndBufferCur s) (usSndBufferCount s)
    (usRcvBufferPos s) (port s).
Definition set_sndptr (p n : Z) (s : mbrtu) : mbrtu :=
  mk_rtu (eSndState s) (eRcvState s) (ucRTUBuf s) p n (usRcvBufferPos s) (port s).
Definition set_rcvpos (x : Z) (s : mbrtu) : mbrtu :=
  mk_rtu (eSndState s) (eRcvState s) (ucRTUBuf s) (pucSndBufferCur s) (usSndBufferCount s)
    x (port s).
Definition set_port (x : mbport) (s : mbrtu) : mbrtu :=
  mk_rtu (eSndState s) (eRcvState s) (ucRTUBuf s) (pucSndBufferCur s) (usSndBufferCount s)
    (usRcvBufferPos s) x.

(** ** The port layer *)

Definition on_port (f : mbport -> mbport) (s : mbrtu) : mbrtu := set_port (f (port s)) s.

Definition vMBPortSerialEnable (xRxEnable xTxEnable : bool) (p : mbport) : mbport :=
  mk_port xRxEnable xTxEnable (t35_on p) (t35_ticks p) (xSlaveOsEvent p) (uart_out p).

Definition xMBPortSerialPutByte (b : Z) (p : mbport) : mbport :=
  mk_port (rx_int p) (trans_start p) (t35_on p) (t35_ticks p) (xSlaveOsEvent p)
    (uart_out p ++ [b]).

Definition xMBPortTimersInit (usTim1Timerout50us : Z) (p : mbport) : mbport :=
  mk_port (rx_int p) (trans_start p) (t35_on p) ((50 * usTim1Timerout50us) `div` 1000 + 1)
    (xSlaveOsEvent p) (uart_out p).

Definition vMBPortTimersEnable (p : mbport) : mbport :=
  mk_port (rx_int p) (trans_start p) true (t35_ticks p) (xSlaveOsEvent p) (uart_out p).

Definition vMBPortTimersDisable (p : mbport) : mbport :=
  mk_port (rx_int p) (trans_start p) false (t35_ticks p) (xSlaveOsEvent p) (uart_out p).

Definition set_events (e : Z) (p : mbport) : mbport :=
  mk_port (rx_int p) (trans_start p) (t35_on p) (t35_ticks p) e (uart_out p).

Definition xMBPortEventInit (p : mbport) : mbport := set_events 0 p.

Definition xMBPortEventPost (eEvent : Z) (p : mbport) : mbport :=
  set_events (Z.lor (xSlaveOsEvent p) eEvent) p.

(** [xMBPortEventGet] takes all pending events of the mask at once; the switch
    stores into [*eEvent] only if exactly one was pending, and otherwise leaves
    the caller's variable, whose value is [junk], as it was.  Without a pending
    event the call blocks. *)
Definition EV_MASK : Z := Z.lor (Z.lor EV_READY EV_FRAME_RECEIVED) (Z.lor EV_EXECUTE EV_FRAME_SENT).

Definition xMBPortEventGet (junk : Z) (p : mbport) : option (Z * mbport) :=
  let recvedEvent := Z.land (xSlaveOsEvent p) EV_MASK in
  if recvedEvent =? 0 then None else
  let p := set_events (Z.land (xSlaveOsEvent p) (Z.lnot recvedEvent)) p in
  let eEvent :=
    if recvedEvent =? EV_READY then EV_READY
    else if recvedEvent =? EV_FRAME_RECEIVED then EV_FRAME_RECEIVED
    else if recvedEvent =? EV_EXECUTE then EV_EXECUTE
    else if recvedEvent =? EV_FRAME_SENT then EV_FRAME_SENT
    else junk in
  Some (eEvent, p).

(** ** mbrtu.c *)

(** The t3.5 time in units of 50 us. *)
Definition usTimerT35_50us (ulBaudRate : Z) : option Z :=
  if ulBaudRate >? 19200 then Some 35
  else if u32 (2 * ulBaudRate) =? 0 then None
  else Some ((7 * 220000) `div` u32 (2 * ulBaudRate)).

(** [serial_ok] is the result of [xMBPortSerialInit], i.e. whether the UART
    could be opened. *)
Definition eMBRTUInit (serial_ok : bool) (ulBaudRate : Z) (s : mbrtu)
  : option (eMBErrorCode * mbrtu) :=
  if serial_ok then
    t ← usTimerT35_50us ulBaudRate;
    Some (MB_ENOERR, on_port (xMBPortTimersInit (u16 t)) s)
  else Some (MB_EPORTERR, s).

Definition eMBRTUStart (s : mbrtu) : mbrtu :=
  on_port (fun p => vMBPortTimersEnable (vMBPortSerialEnable true false p))
    (set_rcv STATE_RX_INIT s).

Definition eMBRTUStop (s : mbrtu) : mbrtu :=
  on_port (fun p => vMBPortTimersDisable (vMBPortSerialEnable false false p)) s.

(** The results of [eMBRTUReceive]: the error code and, if there is none, the
    address, the length and the offset of the PDU. *)
Definition eMBRTUReceive (s : mbrtu) : option (eMBErrorCode * option (Z * Z * Z)) :=
  _ ← RT_ASSERT (usRcvBufferPos s <=? MB_SER_PDU_SIZE_MAX);
  if (MB_SER_PDU_SIZE_MIN <=? usRcvBufferPos s)
     && (usMBCRC16 (ucRTUBuf s) (usRcvBufferPos s) =? 0) then
    a ← aget (ucRTUBuf s) MB_SER_PDU_ADDR_OFF;
    Some (MB_ENOERR,
      Some (a, u16 (usRcvBufferPos s - MB_SER_PDU_PDU_OFF - MB_SER_PDU_SIZE_CRC),
            MB_SER_PDU_PDU_OFF))
  else Some (MB_EIO, None).

Definition eMBRTUSend (ucSlaveAddress pucFrame usLength : Z) (s : mbrtu)
  : option (eMBErrorCode * mbrtu) :=
  if bool_decide (eRcvState s = STATE_RX_IDLE) then
    let cur := pucFrame - 1 in
    buf ← aset (ucRTUBuf s) (cur + MB_SER_PDU_ADDR_OFF) ucSlaveAddress;
    let count := u16 (1 + usLength) in
    _ ← RT_ASSERT (cur + count <=? zlen buf);
    let usCRC16 := usMBCRC16 (drop (Z.to_nat cur) buf) count in
    buf ← aset buf count (u8 (Z.land usCRC16 0xff));
    buf ← aset buf (u16 (count + 1)) (u8 (Z.shiftr usCRC16 8));
    let s := set_sndptr cur (u16 (u16 (count + 1) + 1)) (set_rtubuf buf s) in
    Some (MB_ENOERR, on_port (vMBPortSerialEnable false true) (set_snd STATE_TX_XMIT s))
  else Some (MB_EIO, s).

(** Called from the UART interrupt; [ucByte] is the character read from the
    device. *)
Definition xMBRTUReceiveFSM (ucByte : Z) (s : mbrtu) : option mbrtu :=
  _ ← RT_ASSERT (bool_decide (eSndState s = STATE_TX_IDLE));
  match eRcvState s with
  | STATE_RX_INIT => Some (on_port vMBPortTimersEnable s)
  | STATE_RX_ERROR => Some (on_port vMBPortTimersEnable s)
  | STATE_RX_IDLE =>
      buf ← aset (ucRTUBuf s) 0 ucByte;
      Some (on_port vMBPortTimersEnable (set_rcv STATE_RX_RCV (set_rcvpos 1 (set_rtubuf buf s))))
  | STATE_RX_RCV =>
      s ← (if usRcvBufferPos s <? MB_SER_PDU_SIZE_MAX then
             buf ← aset (ucRTUBuf s) (usRcvBufferPos s) ucByte;
             Some (set_rcvpos (u16 (usRcvBufferPos s + 1)) (set_rtubuf buf s))
           else Some (set_rcv STATE_RX_ERROR s));
      Some (on_port vMBPortTimersEnable s)
  end.

Definition xMBRTUTransmitFSM (s : mbrtu) : option (bool * mbrtu) :=
  _ ← RT_ASSERT (bool_decide (eRcvState s = STATE_RX_IDLE));
  match eSndState s with
  | STATE_TX_IDLE => Some (false, on_port (vMBPortSerialEnable true false) s)
  | STATE_TX_XMIT =>
      if negb (usSndBufferCount s =? 0) then
        b ← aget (ucRTUBuf s) (pucSndBufferCur s);
        Some (false, set_sndptr (pucSndBufferCur s + 1) (u16 (usSndBufferCount s - 1))
                       (on_port (xMBPortSerialPutByte b) s))
      else
        Some (true, set_snd STATE_TX_IDLE
                      (on_port (fun p => vMBPortSerialEnable true false
                                           (xMBPortEventPost EV_FRAME_SENT p)) s))
  end.

Definition xMBRTUTimerT35Expired (s : mbrtu) : option (bool * mbrtu) :=
  '(xNeedPoll, s) ←
    match eRcvState s with
    | STATE_RX_INIT => Some (true, on_port (xMBPortEventPost EV_READY) s)
    | STATE_RX_RCV => Some (true, on_port (xMBPortEventPost EV_FRAME_RECEIVED) s)
    | STATE_RX_ERROR => Some (false, s)
    | STATE_RX_IDLE =>
        _ ← RT_ASSERT (bool_decide (eRcvState s = STATE_RX_INIT)
                       || bool_decide (eRcvState s = STATE_RX_RCV)
                       || bool_decide (eRcvState s = STATE_RX_ERROR));
        Some (false, s)
    end;
  Some (xNeedPoll : bool, set_rcv STATE_RX_IDLE (on_port vMBPortTimersDisable s)).

(** ** Arrays *)

Lemma zset_bytes l i x : Forall byte l -> byte x -> Forall byte (zset l i x).
Proof. intros Hl Hx. by apply Forall_insert. Qed.

Lemma take_zset_end l i x :
  0 <= i < zlen l -> take (Z.to_nat (i + 1)) (zset l i x) = take (Z.to_nat i) l ++ [x].
Proof.
  intros Hi. unfold zset, zlen in *. replace (Z.to_nat (i + 1)) with (S (Z.to_nat i)) by lia.
  rewrite (take_S_r _ _ x) by (apply list_lookup_insert_eq; lia).
  by rewrite take_insert_ge by lia.
Qed.

Lemma take_zset_ge l i n x : 0 <= n <= i -> take (Z.to_nat n) (zset l i x) = take (Z.to_nat n) l.
Proof. intros Hi. unfold zset. by rewrite take_insert_ge by lia. Qed.

Lemma zset_app_l l k i x : 0 <= i < zlen l -> zset (l ++ k) i x = zset l i x ++ k.
Proof. intros Hi. unfold zset, zlen in *. rewrite insert_app_l; [done|lia]. Qed.

(** ** The invariant of the RTU layer while the stack is enabled

    The receiver is off exactly while a frame is being transmitted; the timer
    runs exactly while the receiver is not idle; what is left to transmit lies
    inside the buffer. *)

Record rtu_ok (s : mbrtu) : Prop := {
  ok_buf : zlen (ucRTUBuf s) = 60;
  ok_bytes : Forall byte (ucRTUBuf s);
  ok_pos : 0 <= usRcvBufferPos s <= 60;
  ok_t35 : t35_on (port s) = negb (bool_decide (eRcvState s = STATE_RX_IDLE));
  ok_rx : rx_int (port s) = bool_decide (eSndState s = STATE_TX_IDLE);
  ok_tx : trans_start (port s) = bool_decide (eSndState s = STATE_TX_XMIT);
  ok_xmit : eSndState s = STATE_TX_XMIT ->
    eRcvState s = STATE_RX_IDLE /\ 0 <= pucSndBufferCur s /\ 0 <= usSndBufferCount s /\
    pucSndBufferCur s + usSndBufferCount s <= 60;
}.

Ltac rtu_fields :=
  constructor; cbn; rewrite ?zlen_zset;
  first [done | lia | by apply zset_bytes | by intros _; repeat split; (done || lia)
    | match goal with H : eRcvState ?s = _ |- context [eRcvState ?s] => by rewrite H end
    | match goal with H : eSndState ?s = _ |- context [eSndState ?s] => by rewrite H end
    | idtac].

Lemma rx_step_ok s b :
  rtu_ok s -> rx_int (port s) = true -> byte b ->
  exists s', xMBRTUReceiveFSM b s = Some s' /\ rtu_ok s' /\
    eSndState s' = eSndState s /\ xSlaveOsEvent (port s') = xSlaveOsEvent (port s).
Proof.
  intros [Hb Hby Hp Ht Hr Hx Hxm] Hrx Hbt. pose proof Hr as Hs. rewrite Hrx in Hs. symmetry in Hs.
  apply bool_decide_eq_true in Hs. unfold xMBRTUReceiveFSM.
  rewrite bool_decide_eq_true_2 by done. cbn [RT_ASSERT mbind option_bind].
  destruct (eRcvState s) eqn:E.
  - eexists; split; [done|]. split; [rtu_fields|done].
  - rewrite aset_ok by lia. cbn [mbind option_bind]. eexists; split; [done|]. split; [rtu_fields|done].
  - unfold MB_SER_PDU_SIZE_MAX. case_bool.
    + rewrite aset_ok by lia. cbn [mbind option_bind]. eexists; split; [done|].
      rewrite (wrapu_small 16) by lia. split; [rtu_fields|done].
    + cbn [mbind option_bind]. eexists; split; [done|]. split; [rtu_fields|done].
  - eexists; split; [done|]. split; [rtu_fields|done].
Qed.

Lemma tx_step_ok s :
  rtu_ok s -> trans_start (port s) = true ->
  exists b s', xMBRTUTransmitFSM s = Some (b, s') /\ rtu_ok s' /\
    (xSlaveOsEvent (port s') = xSlaveOsEvent (port s) \/
     xSlaveOsEvent (port s') = Z.lor (xSlaveOsEvent (port s)) EV_FRAME_SENT).
Proof.
  intros [Hb Hby Hp Ht Hr Hx Hxm] Htx. pose proof Hx as Hs. rewrite Htx in Hs. symmetry in Hs.
  apply bool_decide_eq_true in Hs. destruct (Hxm Hs) as (Hrcv & Hc & Hn & Hsum).
  unfold xMBRTUTransmitFSM. rewrite bool_decide_eq_true_2 by done.
  cbn [RT_ASSERT mbind option_bind]. rewrite Hs. case_bool; cbn [negb].
  - do 2 eexists; split; [done|]. split; [|by right].
    rtu_fields.
  - rewrite aget_ok by lia. cbn [mbind option_bind]. do 2 eexists; split; [done|].
    rewrite (wrapu_small 16) by lia. split; [rtu_fields|by left].
Qed.

Lemma t35_step_ok s :
  rtu_ok s -> t35_on (port s) = true ->
  exists b s', xMBRTUTimerT35Expired s = Some (b, s') /\ rtu_ok s' /\
    (xSlaveOsEvent (port s') = xSlaveOsEvent (port s) \/
     xSlaveOsEvent (port s') = Z.lor (xSlaveOsEvent (port s)) EV_READY \/
     xSlaveOsEvent (port s') = Z.lor (xSlaveOsEvent (port s)) EV_FRAME_RECEIVED).
Proof.
  intros [Hb Hby Hp Ht Hr Hx Hxm] Hon. rewrite Hon in Ht.
  assert (eSndState s = STATE_TX_IDLE) as Hs.
  { destruct (eSndState s); [done|]. destruct (Hxm eq_refl) as [Hi _]. by rewrite Hi in Ht. }
  unfold xMBRTUTimerT35Expired.
  destruct (eRcvState s) eqn:E; try done; cbn [mbind option_bind];
    (do 2 eexists; split; [done|]; split; [|naive_solver]);
    rtu_fields.
Qed.

(** What [eMBRTUSend] leaves in the buffer for the PDU of [len] bytes at
    offset 1: the address, the PDU and the checksum of both. *)
Definition pdu_of (len : Z) (s : mbrtu) : list Z :=
  take (Z.to_nat len) (drop 1 (ucRTUBuf s)).

Definition frame (a : Z) (pdu : list Z) : list Z := (a :: pdu) ++ crc_tail (a :: pdu).

Lemma zlen_cons {A} (x : A) l : zlen (x :: l) = 1 + zlen l.
Proof. unfold zlen. simpl. lia. Qed.

Lemma frame_bytes a pdu : byte a -> Forall byte pdu -> Forall byte (frame a pdu).
Proof.
  intros Ha Hp. unfold frame. rewrite Forall_app, Forall_cons. split; [done|]. apply crc_tail_bytes.
Qed.

Lemma zlen_frame a pdu : zlen (frame a pdu) = zlen pdu + 3.
Proof.
  unfold frame. rewrite zlen_app, zlen_cons. change (zlen (crc_tail (a :: pdu))) with 2. lia.
Qed.

Lemma pdu_of_ok s len : rtu_ok s -> 0 <= len <= 59 -> zlen (pdu_of len s) = len /\ Forall byte (pdu_of len s).
Proof.
  intros Hok Hlen. destruct Hok as [Hb Hby _ _ _ _ _]. unfold pdu_of. split.
  - rewrite zlen_take by lia. rewrite (zlen_drop _ 1) by lia. lia.
  - by apply Forall_take, Forall_drop.
Qed.

Lemma take_addr l len a :
  0 <= len < zlen l ->
  take (Z.to_nat (1 + len)) (zset l 0 a) = a :: take (Z.to_nat len) (drop 1 l).
Proof.
  intros Hl. destruct l as [|x l]; [unfold zlen in Hl; simpl in Hl; lia|].
  replace (Z.to_nat (1 + len)) with (S (Z.to_nat len)) by lia. cbn. by rewrite drop_0.
Qed.

Lemma send_run s a len :
  rtu_ok s -> eRcvState s = STATE_RX_IDLE -> byte a -> 0 <= len <= 57 ->
  exists buf, let s' := on_port (vMBPortSerialEnable false true) (set_snd STATE_TX_XMIT
      (set_sndptr 0 (len + 3) (set_rtubuf buf s))) in
    eMBRTUSend a 1 len s = Some (MB_ENOERR, s') /\ rtu_ok s' /\
    take (Z.to_nat (len + 3)) buf = frame a (pdu_of len s).
Proof.
  intros Hok Hrcv Ha Hlen. pose proof Hok as [Hb Hby Hp Ht Hr Hx Hxm].
  unfold eMBRTUSend. rewrite bool_decide_eq_true_2 by done.
  change (1 - 1 + MB_SER_PDU_ADDR_OFF) with 0. change (1 - 1) with 0.
  rewrite !(wrapu_small 16 (1 + len)) by lia.
  rewrite !(wrapu_small 16 (1 + len + 1)) by lia.
  rewrite (wrapu_small 16 (1 + len + 1 + 1)) by lia.
  rewrite aset_ok by lia. cbn [mbind option_bind]. rewrite zlen_zset, Hb.
  unfold RT_ASSERT. case_bool; [|lia]. cbn [mbind option_bind].
  rewrite aset_ok by (rewrite zlen_zset; lia). cbn [mbind option_bind].
  rewrite aset_ok by (rewrite !zlen_zset; lia). cbn [mbind option_bind].
  replace (1 + len + 1 + 1) with (len + 3) by lia.
  eexists. split; [done|]. split.
  - rtu_fields. repeat apply zset_bytes; try done; apply (wrapu_range 8); lia.
  - replace (len + 3) with (1 + len + 1 + 1) by lia.
    rewrite take_zset_end, take_zset_end by (rewrite ?zlen_zset; lia).
    rewrite <- app_assoc, usMBCRC16_take. change (Z.to_nat 0) with 0%nat.
    rewrite drop_0. by rewrite take_addr by lia.
Qed.

Lemma send_refused s a len :
  eRcvState s <> STATE_RX_IDLE -> eMBRTUSend a 1 len s = Some (MB_EIO, s).
Proof. intros H. unfold eMBRTUSend. by rewrite bool_decide_eq_false_2. Qed.

Lemma send_ok s a len :
  rtu_ok s -> byte a -> 0 <= len <= 57 ->
  exists e s', eMBRTUSend a 1 len s = Some (e, s') /\ rtu_ok s' /\
    xSlaveOsEvent (port s') = xSlaveOsEvent (port s).
Proof.
  intros Hok Ha Hlen. destruct (decide (eRcvState s = STATE_RX_IDLE)) as [E|E].
  - destruct (send_run s a len Hok E Ha Hlen) as (buf & H & H' & _). eauto.
  - exists MB_EIO, s. split; [by apply send_refused|]. done.
Qed.

(** ** Whole frames *)

(** Characters arriving one after the other. *)
Definition rx_all (l : list Z) (s : mbrtu) : option mbrtu :=
  foldl (fun o b => s ← o; xMBRTUReceiveFSM b s) (Some s) l.

(** [n] rounds of the transmitter thread. *)
Fixpoint tx_all (n : nat) (s : mbrtu) : option mbrtu :=
  match n with
  | O => Some s
  | S n => '(_, s) ← xMBRTUTransmitFSM s; tx_all n s
  end.

Lemma rx_all_app l k s : rx_all (l ++ k) s = (s ← rx_all l s; rx_all k s).
Proof.
  unfold rx_all. rewrite foldl_app. destruct (foldl _ (Some s) l) as [s'|]; [done|].
  simpl. by induction k.
Qed.

Lemma rx_all_cons b l s : rx_all (b :: l) s = (s ← xMBRTUReceiveFSM b s; rx_all l s).
Proof. exact (rx_all_app [b] l s). Qed.

(** While at most 60 characters have come in, they are in the buffer. *)
Lemma rx_frame l s :
  rtu_ok s -> eSndState s = STATE_TX_IDLE -> eRcvState s = STATE_RX_IDLE ->
  Forall byte l -> 1 <= zlen l <= 60 ->
  exists buf, let s' := on_port vMBPortTimersEnable (set_rcv STATE_RX_RCV
      (set_rcvpos (zlen l) (set_rtubuf buf s))) in
    rx_all l s = Some s' /\ rtu_ok s' /\ take (length l) buf = l.
Proof.
  intros Hok Hs Hi Hl Hn. induction l as [|b l IH] using rev_ind; [unfold zlen in Hn; simpl in Hn; lia|].
  apply Forall_app in Hl as [Hl [Hb _]%Forall_cons]. rewrite zlen_app in Hn |- *.
  change (zlen [b]) with 1 in *. rewrite rx_all_app.
  destruct (decide (l = [])) as [->|Hne].
  - cbn. unfold xMBRTUReceiveFSM. rewrite bool_decide_eq_true_2 by done.
    cbn [RT_ASSERT mbind option_bind]. rewrite Hi. pose proof Hok as [Hbf Hby Hp Ht Hr Hx Hxm].
    rewrite aset_ok by lia. cbn [mbind option_bind]. eexists. split; [done|]. split; [rtu_fields|].
    destruct (ucRTUBuf s); [unfold zlen in Hbf; simpl in Hbf; lia|done].
  - destruct IH as (buf & E & Hok' & Ht); [done| |].
    { destruct l; [done|]. rewrite zlen_cons in Hn |- *. pose proof (zlen_nonneg l). lia. }
    rewrite E. cbn [mbind option_bind]. set (s1 := on_port _ _) in *.
    pose proof Hok' as [Hbf Hby Hp Ht1 Hr Hx Hxm]. cbn in Hbf.
    unfold rx_all, xMBRTUReceiveFSM. cbn [foldl mbind option_bind].
    rewrite bool_decide_eq_true_2 by done. cbn [RT_ASSERT mbind option_bind].
    unfold s1 at 1. cbn [eRcvState on_port set_port set_rcv].
    change (usRcvBufferPos s1) with (zlen l). change (ucRTUBuf s1) with buf.
    unfold MB_SER_PDU_SIZE_MAX. case_bool; [|lia]. pose proof (zlen_nonneg l).
    rewrite aset_ok by lia. cbn [mbind option_bind]. rewrite (wrapu_small 16) by lia.
    exists (zset buf (zlen l) b). split; [done|]. split.
    + apply zset_bytes with (i := zlen l) (x := b) in Hby; [|done]. cbn in Hby, Ht1, Hr, Hx, Hxm. rtu_fields.
    + rewrite length_app. simpl. unfold zlen in *.
      replace (length l + 1)%nat with (Z.to_nat (Z.of_nat (length l) + 1)) by lia.
      rewrite take_zset_end by (unfold zlen; lia). rewrite Nat2Z.id. by f_equal.
Qed.

(** A longer frame sends the receiver into its error state. *)
Lemma rx_error l s :
  eSndState s = STATE_TX_IDLE -> eRcvState s = STATE_RX_ERROR -> rtu_ok s -> Forall byte l ->
  exists s', rx_all l s = Some s' /\ rtu_ok s' /\ eRcvState s' = STATE_RX_ERROR /\
    xSlaveOsEvent (port s') = xSlaveOsEvent (port s).
Proof.
  revert s. induction l as [|b l IH]; intros s Hs He Hok Hl; [by eexists|].
  apply Forall_cons in Hl as [Hb Hl].
  assert (rx_int (port s) = true) as Hrx by (rewrite (ok_rx s Hok); by rewrite Hs).
  destruct (rx_step_ok s b Hok Hrx Hb) as (s1 & E & Hok1 & Hs1 & Hev).
  rewrite rx_all_cons, E. cbn [mbind option_bind].
  destruct (IH s1) as (s' & E' & H'); [congruence| |done..|].
  - unfold xMBRTUReceiveFSM in E. rewrite He, Hs in E. injection E as <-. exact He.
  - exists s'. rewrite <- Hev. by split.
Qed.

Lemma rx_overflow l s :
  rtu_ok s -> eSndState s = STATE_TX_IDLE -> eRcvState s = STATE_RX_IDLE ->
  Forall byte l -> 60 < zlen l ->
  exists s', rx_all l s = Some s' /\ rtu_ok s' /\ eRcvState s' = STATE_RX_ERROR /\
    xSlaveOsEvent (port s') = xSlaveOsEvent (port s).
Proof.
  intros Hok Hs Hi Hl Hn. rewrite <- (take_drop 60 l) in Hl |- *.
  apply Forall_app in Hl as [Hl1 Hl2]. rewrite rx_all_app.
  assert (zlen (take 60 l) = 60) as H60 by (change 60%nat with (Z.to_nat 60); rewrite zlen_take; lia).
  destruct (rx_frame (take 60 l) s) as (buf & E & Hok1 & _); [done..|lia|].
  rewrite E. cbn [mbind option_bind]. set (s1 := on_port _ _) in *.
  destruct (drop 60 l) as [|b r] eqn:Ed.
  { apply (f_equal length) in Ed. rewrite length_drop in Ed. unfold zlen in Hn. simpl in Ed. lia. }
  apply Forall_cons in Hl2 as [Hb Hr].
  assert (rx_int (port s1) = true) as Hrx by (rewrite (ok_rx s1 Hok1); by cbn; rewrite Hs).
  destruct (rx_step_ok s1 b Hok1 Hrx Hb) as (s2 & E2 & Hok2 & Hs2 & Hev).
  rewrite rx_all_cons, E2. cbn [mbind option_bind].
  destruct (rx_error r s2) as (s' & E' & H1 & H2 & H3); [| |done..|].
  - rewrite Hs2. done.
  - unfold xMBRTUReceiveFSM in E2. unfold s1 in E2. cbn in E2. rewrite H60, Hs in E2. cbn in E2.
    injection E2 as <-. reflexivity.
  - exists s'. split_and!; try done. rewrite H3, Hev. done.
Qed.

(** The bytes go out in order; the transmitter then reports and stops. *)
Definition set_out (l : list Z) (p : mbport) : mbport :=
  mk_port (rx_int p) (trans_start p) (t35_on p) (t35_ticks p) (xSlaveOsEvent p) l.

Lemma tx_bytes n s :
  rtu_ok s -> eSndState s = STATE_TX_XMIT -> usSndBufferCount s = Z.of_nat n ->
  tx_all n s = Some (set_sndptr (pucSndBufferCur s + Z.of_nat n) 0
    (on_port (fun p => set_out (uart_out p ++
      take n (drop (Z.to_nat (pucSndBufferCur s)) (ucRTUBuf s))) p) s)).
Proof.
  revert s. induction n as [|n IH]; intros s Hok Hx Hc.
  - destruct s as [? ? ? ? ? ? []]. cbn in *. subst. unfold set_out, on_port, set_port, set_sndptr.
    cbn. by rewrite app_nil_r, Z.add_0_r.
  - destruct (ok_xmit s Hok Hx) as (Hrcv & H0 & H1 & H2).
    assert (trans_start (port s) = true) as Htx by (rewrite (ok_tx s Hok); by rewrite Hx).
    destruct (tx_step_ok s Hok Htx) as (b & s' & E & Hok' & _). cbn [tx_all].
    rewrite E. cbn [mbind option_bind]. unfold xMBRTUTransmitFSM in E.
    rewrite bool_decide_eq_true_2 in E by done. cbn [RT_ASSERT mbind option_bind] in E.
    rewrite Hx in E. destruct (Z.eqb_spec (usSndBufferCount s) 0); [lia|]. cbn [negb] in E.
    pose proof (ok_buf s Hok) as Hb. rewrite aget_ok in E by lia. cbn [mbind option_bind] in E.
    rewrite (wrapu_small 16) in E by lia. injection E as <- <-.
    assert (ucRTUBuf s !! Z.to_nat (pucSndBufferCur s) = Some (zget (ucRTUBuf s) (pucSndBufferCur s))) as El.
    { rewrite <- aget_ok by lia. unfold aget. case_bool; [done|lia]. }
    rewrite IH; [|done|done|cbn; lia]. rewrite (drop_S _ _ _ El).
    unfold on_port, set_port, set_out, set_sndptr, xMBPortSerialPutByte. cbn.
    rewrite <- app_assoc. cbn [app].
    replace (Z.to_nat (pucSndBufferCur s + 1)) with (S (Z.to_nat (pucSndBufferCur s))) by lia.
    do 2 f_equal. lia.
Qed.

Lemma tx_all_add n m s : tx_all (n + m) s = (s ← tx_all n s; tx_all m s).
Proof.
  revert s. induction n as [|n IH]; intros s; [done|]. cbn [tx_all Nat.add].
  destruct (xMBRTUTransmitFSM s) as [[b s']|]; [|done]. cbn [mbind option_bind]. apply IH.
Qed.

Lemma tx_frame s :
  rtu_ok s -> eSndState s = STATE_TX_XMIT ->
  exists s', tx_all (S (Z.to_nat (usSndBufferCount s))) s = Some s' /\ rtu_ok s' /\
    eSndState s' = STATE_TX_IDLE /\ eRcvState s' = STATE_RX_IDLE /\ ucRTUBuf s' = ucRTUBuf s /\
    xSlaveOsEvent (port s') = Z.lor (xSlaveOsEvent (port s)) EV_FRAME_SENT /\
    uart_out (port s') = uart_out (port s) ++ take (Z.to_nat (usSndBufferCount s))
      (drop (Z.to_nat (pucSndBufferCur s)) (ucRTUBuf s)).
Proof.
  intros Hok Hx. destruct (ok_xmit s Hok Hx) as (Hrcv & H0 & H1 & H2).
  rewrite <- Nat.add_1_r, tx_all_add.
  rewrite tx_bytes by (done || lia). cbn [mbind option_bind tx_all].
  unfold xMBRTUTransmitFSM. cbn [eRcvState eSndState set_sndptr on_port set_port usSndBufferCount].
  rewrite bool_decide_eq_true_2 by done. cbn [RT_ASSERT mbind option_bind]. rewrite Hx. cbn.
  eexists. split; [done|]. split; [|by cbn].
  pose proof Hok as [Hb Hby Hp Ht Hr Hxx Hxm]. rtu_fields.
Qed.

(** ** Which frames are accepted *)

Lemma crc_tail_unique l x y :
  byte x -> byte y -> crc_state (l ++ [x; y]) = (0, 0) -> [x; y] = crc_tail l.
Proof.
  intros Hx Hy E. pose proof (crc_tail_accepted l) as E2. rewrite crc_tail_state in E2 |- *.
  destruct (crc_state_ok l) as [H1 H2]. unfold crc_state in E, E2. rewrite !(foldl_app crc_byte) in E, E2.
  rewrite <- E2 in E. apply crc_two_bytes in E as [-> ->]; [done|apply crc_state_ok|done..].
Qed.

(** A byte string is a frame iff it has at least the four bytes of address,
    function code and checksum and its checksum is 0. *)
Lemma frame_iff l :
  Forall byte l -> 4 <= zlen l ->
  crc_state l = (0, 0) <-> exists a pdu, l = frame a pdu.
Proof.
  intros Hl Hn. split.
  - intros E. destruct l as [|a l]; [unfold zlen in Hn; simpl in Hn; lia|].
    destruct l as [|y l _] using rev_ind; [unfold zlen in Hn; simpl in Hn; lia|].
    destruct l as [|x pdu _] using rev_ind; [unfold zlen in Hn; simpl in Hn; lia|].
    exists a, pdu. unfold frame.
    rewrite app_comm_cons, app_comm_cons, <- app_assoc in E, Hl |- *. f_equal.
    rewrite !Forall_app, !Forall_cons in Hl. apply crc_tail_unique; naive_solver.
  - intros (a & pdu & ->). apply crc_tail_accepted.
Qed.

Lemma receive_frame s a pdu :
  rtu_ok s -> zlen pdu <> 0 -> usRcvBufferPos s = zlen (frame a pdu) ->
  take (Z.to_nat (usRcvBufferPos s)) (ucRTUBuf s) = frame a pdu ->
  eMBRTUReceive s = Some (MB_ENOERR, Some (a, zlen pdu, 1)) /\ pdu_of (zlen pdu) s = pdu.
Proof.
  intros Hok Hne Hpos Ht. pose proof (zlen_nonneg pdu). pose proof (ok_pos s Hok).
  rewrite zlen_frame in Hpos.
  assert (aget (ucRTUBuf s) 0 = Some a /\ pdu_of (zlen pdu) s = pdu) as [Ha Hp].
  { unfold frame in Ht. destruct (ucRTUBuf s) as [|x l] eqn:El; [by rewrite take_nil in Ht|].
    replace (Z.to_nat (usRcvBufferPos s)) with (S (Z.to_nat (zlen pdu) + 2)) in Ht by lia.
    cbn in Ht. injection Ht as -> Ht. split; [done|].
    unfold pdu_of. rewrite El. cbn. apply (f_equal (take (Z.to_nat (zlen pdu)))) in Ht.
    rewrite take_take in Ht. replace (Z.to_nat (zlen pdu) `min` (Z.to_nat (zlen pdu) + 2))%nat
      with (Z.to_nat (zlen pdu)) in Ht by lia.
    rewrite drop_0, Ht. rewrite take_app_le by (unfold zlen; lia). apply take_zlen. }
  split; [|done]. unfold eMBRTUReceive, RT_ASSERT, MB_SER_PDU_SIZE_MAX, MB_SER_PDU_SIZE_MIN.
  case_bool; [|lia]. cbn [mbind option_bind]. case_bool; [|lia]. cbn [andb].
  rewrite usMBCRC16_take, Ht. destruct (usMBCRC16_zero (frame a pdu)) as [_ E].
  rewrite E by apply crc_tail_accepted. cbn [Z.eqb]. unfold MB_SER_PDU_ADDR_OFF. rewrite Ha.
  cbn [mbind option_bind]. unfold MB_SER_PDU_PDU_OFF, MB_SER_PDU_SIZE_CRC.
  rewrite (wrapu_small 16) by lia. by replace (usRcvBufferPos s - 1 - 2) with (zlen pdu) by lia.
Qed.

Lemma receive_reject s l :
  rtu_ok s -> usRcvBufferPos s = zlen l -> Forall byte l ->
  take (Z.to_nat (usRcvBufferPos s)) (ucRTUBuf s) = l ->
  (forall a pdu, zlen pdu <> 0 -> l <> frame a pdu) ->
  eMBRTUReceive s = Some (MB_EIO, None).
Proof.
  intros Hok Hpos Hl Ht Hno. pose proof (ok_pos s Hok). unfold eMBRTUReceive, RT_ASSERT, MB_SER_PDU_SIZE_MAX.
  destruct (Z.leb_spec (usRcvBufferPos s) 60); [|lia]. cbn [mbind option_bind].
  unfold MB_SER_PDU_SIZE_MIN. case_bool; [|done].
  cbn [andb]. case_bool; [|done]. exfalso.
  rewrite usMBCRC16_take, Ht, usMBCRC16_zero in *. apply frame_iff in e as (a & pdu & ->); [|done|lia].
  apply (Hno a pdu); [|done]. rewrite zlen_frame in Hpos. lia.
Qed.

(** ** Theorems *)

(** The line is idle and the receiver is on. *)
Definition line_idle (s : mbrtu) : Prop :=
  rtu_ok s /\ eSndState s = STATE_TX_IDLE /\ eRcvState s = STATE_RX_IDLE.

(** What the characters [l] followed by a silence of 3.5 characters lead to. *)
Definition rx_burst (l : list Z) (s : mbrtu) : option mbrtu :=
  s ← rx_all l s; '(_, s) ← xMBRTUTimerT35Expired s; Some s.

Lemma rx_burst_ok l s :
  line_idle s -> Forall byte l -> 1 <= zlen l <= 60 ->
  exists s', rx_burst l s = Some s' /\ line_idle s' /\
    xSlaveOsEvent (port s') = Z.lor (xSlaveOsEvent (port s)) EV_FRAME_RECEIVED /\
    uart_out (port s') = uart_out (port s) /\ usRcvBufferPos s' = zlen l /\
    take (Z.to_nat (usRcvBufferPos s')) (ucRTUBuf s') = l.
Proof.
  intros (Hok & Hs & Hr) Hl Hn. destruct (rx_frame l s) as (buf & E & Hok1 & Ht); [done..|].
  unfold rx_burst. rewrite E. cbn [mbind option_bind].
  destruct (t35_step_ok _ Hok1) as (b & s' & E' & Hok' & _); [done|].
  rewrite E'. cbn [mbind option_bind]. cbn in E'. injection E' as _ <-.
  eexists. split; [done|]. cbn. split; [done|]. split_and!; try done.
  unfold zlen. by rewrite Nat2Z.id.
Qed.

(** A burst of bytes followed by silence ends with the receiver idle again;
    if it fits the 60-byte buffer it is reported as one frame, and
    eMBRTUReceive delivers its address and PDU if it is a frame with the
    right CRC and refuses it with MB_EIO otherwise; a longer burst is
    dropped. *)
Theorem eMBRTUReceive_accepts_frames l s :
  line_idle s -> Forall byte l -> 1 <= zlen l ->
  exists s', rx_burst l s = Some s' /\ line_idle s' /\
    (60 < zlen l -> xSlaveOsEvent (port s') = xSlaveOsEvent (port s)) /\
    (zlen l <= 60 ->
      xSlaveOsEvent (port s') = Z.lor (xSlaveOsEvent (port s)) EV_FRAME_RECEIVED /\
      (forall a pdu, l = frame a pdu -> zlen pdu <> 0 ->
        eMBRTUReceive s' = Some (MB_ENOERR, Some (a, zlen pdu, 1)) /\ pdu_of (zlen pdu) s' = pdu) /\
      ((forall a pdu, zlen pdu <> 0 -> l <> frame a pdu) ->
        eMBRTUReceive s' = Some (MB_EIO, None))).
Proof.
  intros Hidle Hl Hn. destruct (decide (zlen l <= 60)) as [Hle|Hgt].
  - destruct (rx_burst_ok l s) as (s' & E & Hi & Hev & _ & Hpos & Ht); [done..|lia|].
    exists s'. split_and!; try done; [lia|]. intros _. split_and!; [done| |].
    + intros a pdu -> Hne. apply receive_frame; try done. apply Hi.
    + intros Hno. eapply receive_reject; try done. apply Hi.
  - destruct Hidle as (Hok & Hs & Hr).
    destruct (rx_overflow l s) as (s1 & E & Hok1 & He & Hev); [done..|lia|].
    unfold rx_burst. rewrite E. cbn [mbind option_bind].
    assert (t35_on (port s1) = true) as Hon by (rewrite (ok_t35 s1 Hok1); by rewrite He).
    destruct (t35_step_ok _ Hok1 Hon) as (b & s' & E' & Hok' & _). rewrite E'. cbn [mbind option_bind].
    assert (eSndState s1 = STATE_TX_IDLE) as Hs1.
    { destruct (eSndState s1) eqn:Es; [done|]. destruct (ok_xmit s1 Hok1 Es) as [Hc _]. congruence. }
    unfold xMBRTUTimerT35Expired in E'. rewrite He in E'. cbn [mbind option_bind] in E'.
    injection E' as _ <-. eexists. split; [done|]. split_and!; try done; lia.
Qed.

(** A freshly enabled stack after the start-up silence. *)
Definition reset_port : mbport := mk_port false false false 5 0 [].
Definition reset_rtu : mbrtu :=
  mk_rtu STATE_TX_IDLE STATE_RX_INIT (replicate 60 0) 0 0 0 reset_port.
Definition idle_rtu : mbrtu :=
  set_rcv STATE_RX_IDLE (on_port (fun p => set_events 0 (vMBPortTimersDisable p))
    (eMBRTUStart reset_rtu)).

Lemma idle_rtu_ok : line_idle idle_rtu.
Proof. split; [constructor; try by vm_compute|done]. by_computation. Qed.

Lemma eMBRTUReceive_accepts_frames_witness :
  let l := [1; 3; 0; 0; 0; 10; 0xc5; 0xcd] in
  exists s', rx_burst l idle_rtu = Some s' /\
    eMBRTUReceive s' = Some (MB_ENOERR, Some (1, 5, 1)) /\ pdu_of 5 s' = [3; 0; 0; 0; 10].
Proof.
  intros l. destruct (eMBRTUReceive_accepts_frames l idle_rtu) as (s' & E & _ & _ & H).
  - apply idle_rtu_ok.
  - by_computation.
  - vm_compute. discriminate.
  - exists s'. split; [exact E|]. apply (proj1 (proj2 (H ltac:(vm_compute; discriminate))) 1 [3; 0; 0; 0; 10]).
    + vm_compute. reflexivity.
    + vm_compute. discriminate.
Defined.

(** C12. Whatever eMBRTUSend and the transmit state machine put on the line
    for an address and a PDU of up to 57 bytes, the receive state machine of
    an idle slave collects byte by byte, its 3.5-character timer closes as
    one frame, and eMBRTUReceive returns as the same address and PDU. *)
Theorem rtu_frame_roundtrip sender receiver a len :
  line_idle sender -> line_idle receiver -> byte a -> 1 <= len <= 57 ->
  exists s1 s2 sent r',
    eMBRTUSend a 1 len sender = Some (MB_ENOERR, s1) /\
    tx_all (Z.to_nat (len + 4)) s1 = Some s2 /\ line_idle s2 /\
    uart_out (port s2) = uart_out (port sender) ++ sent /\
    rx_burst sent receiver = Some r' /\
    eMBRTUReceive r' = Some (MB_ENOERR, Some (a, len, 1)) /\
    pdu_of len r' = pdu_of len sender.
Proof.
  intros (Hok & Hs & Hr) Hrec Ha Hlen.
  destruct (send_run sender a len) as (buf & E & Hok1 & Ht); [done..|lia|].
  set (s1 := on_port _ _) in *. destruct (tx_frame s1 Hok1 eq_refl)
    as (s2 & E2 & Hok2 & Hs2 & Hr2 & _ & _ & Hout).
  destruct (pdu_of_ok sender len Hok) as [Hpl Hpb]; [lia|].
  exists s1, s2, (frame a (pdu_of len sender)).
  destruct (rx_burst_ok (frame a (pdu_of len sender)) receiver)
    as (r' & Eb & Hi & _ & _ & Hpos & Htk); [done|by apply frame_bytes|rewrite zlen_frame; lia|].
  destruct (receive_frame r' a (pdu_of len sender)) as [H1 H2]; [apply Hi|lia|done..|].
  rewrite Hpl in H1, H2. exists r'. split_and!; try done.
  - rewrite <- E2. f_equal. change (usSndBufferCount s1) with (len + 3). lia.
  - rewrite Hout. change (drop _ (ucRTUBuf s1)) with (drop 0 buf). rewrite drop_0. by rewrite <- Ht.
Qed.

Lemma rtu_frame_roundtrip_witness :
  exists s1 s2 sent r',
    eMBRTUSend 17 1 5 (set_rtubuf (zset (ucRTUBuf idle_rtu) 1 3) idle_rtu) = Some (MB_ENOERR, s1) /\
    tx_all 9 s1 = Some s2 /\ line_idle s2 /\ uart_out (port s2) = [] ++ sent /\
    rx_burst sent idle_rtu = Some r' /\
    eMBRTUReceive r' = Some (MB_ENOERR, Some (17, 5, 1)) /\ pdu_of 5 r' = [3; 0; 0; 0; 0].
Proof.
  apply (rtu_frame_roundtrip (set_rtubuf (zset (ucRTUBuf idle_rtu) 1 3) idle_rtu) idle_rtu 17 5).
  - split; [constructor; try by vm_compute|done]. by_computation.
  - apply idle_rtu_ok.
  - by_computation.
  - lia.
Defined.

End ModbusRtu.
