(* ===== verification/ModbusFunc.v ===== *)
(** * Modbus function handlers and the register map

    [modbus/functions/mbfuncholding.c], [mbutils.c] (the conversion of errors)
    and [eMBRegHoldingCB] of [port/user_mb_app.c], in the configuration of
    [mbconfig.h]: reading holding registers (3), writing one (6) and reading and
    writing several (23).  A handler works in place on the frame in [ucRTUBuf].

    The abstract specification [slave_reply] maps a request PDU and the register
    file to the reply PDU and the new register file; the handlers, run through
    the dispatch table, refine it. *)

From S2P Require Import Prelude ModbusCrc ModbusRtu.
Import ModbusCrc ModbusRtu.

Module ModbusFunc.

(** ** Data *)

Inductive eMBException :=
  MB_EX_NONE | MB_EX_ILLEGAL_FUNCTION | MB_EX_ILLEGAL_DATA_ADDRESS | MB_EX_ILLEGAL_DATA_VALUE
  | MB_EX_SLAVE_DEVICE_FAILURE | MB_EX_ACKNOWLEDGE | MB_EX_SLAVE_BUSY | MB_EX_MEMORY_PARITY_ERROR
  | MB_EX_GATEWAY_PATH_FAILED | MB_EX_GATEWAY_TGT_FAILED.

#[global] Instance eMBException_dec : EqDecision eMBException.
Proof. solve_decision. Defined.

(** The enumeration values. *)
Definition ex_code (e : eMBException) : Z :=
  match e with
  | MB_EX_NONE => 0x00
  | MB_EX_ILLEGAL_FUNCTION => 0x01
  | MB_EX_ILLEGAL_DATA_ADDRESS => 0x02
  | MB_EX_ILLEGAL_DATA_VALUE => 0x03
  | MB_EX_SLAVE_DEVICE_FAILURE => 0x04
  | MB_EX_ACKNOWLEDGE => 0x05
  | MB_EX_SLAVE_BUSY => 0x06
  | MB_EX_MEMORY_PARITY_ERROR => 0x08
  | MB_EX_GATEWAY_PATH_FAILED => 0x0A
  | MB_EX_GATEWAY_TGT_FAILED => 0x0B
  end.

Inductive eMBRegisterMode := MB_REG_READ | MB_REG_WRITE.

Definition MB_PDU_FUNC_OFF : Z := 0.
Definition MB_PDU_DATA_OFF : Z := 1.
Definition MB_PDU_SIZE_MIN : Z := 1.
Definition MB_FUNC_READ_HOLDING_REGISTER : Z := 3.
Definition MB_FUNC_WRITE_REGISTER : Z := 6.
Definition MB_FUNC_READWRITE_MULTIPLE_REGISTERS : Z := 23.
Definition MB_FUNC_ERROR : Z := 128.
Definition MB_PDU_FUNC_READ_SIZE : Z := 4.
Definition MB_PDU_FUNC_READ_REGCNT_MAX : Z := 0x7d.
Definition MB_PDU_FUNC_WRITE_SIZE : Z := 4.
Definition MB_PDU_FUNC_READWRITE_SIZE_MIN : Z := 9.

(** [user_mb_app.h] and the register map of [user_mb_app.c]. *)
Definition S_REG_HOLDING_START : Z := 0.
Definition S_REG_HOLDING_NREGS : Z := 12.
Definition MBS_REG_CNT : Z := 0.
Definition MBS_ADDR_IND : Z := 1.
Definition MBS_STATUS_IND : Z := 2.
Definition SOFT_VER_IND : Z := 3.
Definition CALC_K_IND : Z := 4.
Definition CALC_B_IND : Z := 5.
Definition TMP117_TEMP_IND : Z := 6.
Definition MS5837_LTEMP_IND : Z := 7.
Definition MS5837_LPRES_IND : Z := 8.
Definition MAX_IND : Z := 9.

(** What a handler can change: the frame buffer, the holding registers, and the
    flash, through the calls of [wr_calc_data] it makes (their arguments, in
    order). *)
Record dev := mk_dev {
  d_buf : list Z;
  usSRegHoldBuf : list Z;
  calc_writes : list (Z * Z);
}.

Definition set_dbuf (b : list Z) (d : dev) : dev := mk_dev b (usSRegHoldBuf d) (calc_writes d).
Definition set_hold (r : list Z) (d : dev) : dev := mk_dev (d_buf d) r (calc_writes d).

(** ** The register callback *)

Fixpoint hold_read (n : nat) (pucRegBuffer iRegIndex : Z) (d : dev) : option dev :=
  match n with
  | O => Some d
  | S n =>
      v ← aget (usSRegHoldBuf d) iRegIndex;
      buf ← aset (d_buf d) pucRegBuffer (u8 (Z.shiftr v 8));
      buf ← aset buf (pucRegBuffer + 1) (u8 (Z.land v 0xff));
      hold_read n (pucRegBuffer + 2) (u16 (iRegIndex + 1)) (set_dbuf buf d)
  end.

Fixpoint hold_write (n : nat) (pucRegBuffer iRegIndex : Z) (d : dev) : option dev :=
  match n with
  | O => Some d
  | S n =>
      hi ← aget (d_buf d) pucRegBuffer;
      regs ← aset (usSRegHoldBuf d) iRegIndex (u16 (Z.shiftl hi 8));
      lo ← aget (d_buf d) (pucRegBuffer + 1);
      v ← aget regs iRegIndex;
      regs ← aset regs iRegIndex (Z.lor v lo);
      let iRegIndex := u16 (iRegIndex + 1) in
      calls ← (if iRegIndex =? CALC_B_IND + 1 then
                 k ← aget regs CALC_K_IND;
                 b ← aget regs CALC_B_IND;
                 Some (calc_writes d ++ [(i16 k, i16 b)])
               else Some (calc_writes d));
      hold_write n (pucRegBuffer + 2) iRegIndex (mk_dev (d_buf d) regs calls)
  end.

Definition eMBRegHoldingCB (pucRegBuffer usAddress usNRegs : Z) (eMode : eMBRegisterMode) (d : dev)
  : option (eMBErrorCode * dev) :=
  let usAddress := u16 (usAddress - 1) in
  if (S_REG_HOLDING_START <=? usAddress)
     && (usAddress + usNRegs <=? S_REG_HOLDING_START + S_REG_HOLDING_NREGS) then
    let iRegIndex := u16 (usAddress - S_REG_HOLDING_START) in
    d ← match eMode with
        | MB_REG_READ => hold_read (Z.to_nat usNRegs) pucRegBuffer iRegIndex d
        | MB_REG_WRITE => hold_write (Z.to_nat usNRegs) pucRegBuffer iRegIndex d
        end;
    Some (MB_ENOERR, d)
  else Some (MB_ENOREG, d).

(** ** The function handlers *)

Definition prveMBError2Exception (eErrorCode : eMBErrorCode) : eMBException :=
  match eErrorCode with
  | MB_ENOERR => MB_EX_NONE
  | MB_ENOREG => MB_EX_ILLEGAL_DATA_ADDRESS
  | MB_ETIMEDOUT => MB_EX_SLAVE_BUSY
  | _ => MB_EX_SLAVE_DEVICE_FAILURE
  end.

(** A big-endian 16-bit field of the frame. *)
Definition field (buf : list Z) (p : Z) : option Z :=
  hi ← aget buf p;
  lo ← aget buf (p + 1);
  Some (Z.lor (u16 (Z.shiftl hi 8)) lo).

Definition eMBFuncWriteHoldingRegister (pucFrame usLen : Z) (d : dev)
  : option (eMBException * Z * dev) :=
  if usLen =? MB_PDU_FUNC_WRITE_SIZE + MB_PDU_SIZE_MIN then
    a ← field (d_buf d) (pucFrame + MB_PDU_DATA_OFF);
    let usRegAddress := u16 (a + 1) in
    '(eRegStatus, d) ← eMBRegHoldingCB (pucFrame + MB_PDU_DATA_OFF + 2) usRegAddress 1
                         MB_REG_WRITE d;
    if negb (bool_decide (eRegStatus = MB_ENOERR))
    then Some (prveMBError2Exception eRegStatus, usLen, d)
    else Some (MB_EX_NONE, usLen, d)
  else Some (MB_EX_ILLEGAL_DATA_VALUE, usLen, d).

Definition eMBFuncReadHoldingRegister (pucFrame usLen : Z) (d : dev)
  : option (eMBException * Z * dev) :=
  if usLen =? MB_PDU_FUNC_READ_SIZE + MB_PDU_SIZE_MIN then
    a ← field (d_buf d) (pucFrame + MB_PDU_DATA_OFF);
    let usRegAddress := u16 (a + 1) in
    usRegCount ← field (d_buf d) (pucFrame + MB_PDU_DATA_OFF + 2);
    if (1 <=? usRegCount) && (usRegCount <=? MB_PDU_FUNC_READ_REGCNT_MAX) then
      buf ← aset (d_buf d) (pucFrame + MB_PDU_FUNC_OFF) MB_FUNC_READ_HOLDING_REGISTER;
      buf ← aset buf (pucFrame + MB_PDU_FUNC_OFF + 1) (u8 (usRegCount * 2));
      '(eRegStatus, d) ← eMBRegHoldingCB (pucFrame + MB_PDU_FUNC_OFF + 2) usRegAddress usRegCount
                           MB_REG_READ (set_dbuf buf d);
      if negb (bool_decide (eRegStatus = MB_ENOERR))
      then Some (prveMBError2Exception eRegStatus, 2, d)
      else Some (MB_EX_NONE, u16 (2 + usRegCount * 2), d)
    else Some (MB_EX_ILLEGAL_DATA_VALUE, usLen, d)
  else Some (MB_EX_ILLEGAL_DATA_VALUE, usLen, d).

Definition eMBFuncReadWriteMultipleHoldingRegister (pucFrame usLen : Z) (d : dev)
  : option (eMBException * Z * dev) :=
  if MB_PDU_FUNC_READWRITE_SIZE_MIN + MB_PDU_SIZE_MIN <=? usLen then
    ra ← field (d_buf d) (pucFrame + MB_PDU_DATA_OFF);
    let usRegReadAddress := u16 (ra + 1) in
    usRegReadCount ← field (d_buf d) (pucFrame + MB_PDU_DATA_OFF + 2);
    wa ← field (d_buf d) (pucFrame + MB_PDU_DATA_OFF + 4);
    let usRegWriteAddress := u16 (wa + 1) in
    usRegWriteCount ← field (d_buf d) (pucFrame + MB_PDU_DATA_OFF + 6);
    ucRegWriteByteCount ← aget (d_buf d) (pucFrame + MB_PDU_DATA_OFF + 8);
    if (1 <=? usRegReadCount) && (usRegReadCount <=? 0x7d)
       && (1 <=? usRegWriteCount) && (usRegWriteCount <=? 0x79)
       && (2 * usRegWriteCount =? ucRegWriteByteCount) then
      '(eRegStatus, d) ← eMBRegHoldingCB (pucFrame + MB_PDU_DATA_OFF + 9) usRegWriteAddress
                           usRegWriteCount MB_REG_WRITE d;
      '(eRegStatus, usLen, d) ←
        (if bool_decide (eRegStatus = MB_ENOERR) then
           buf ← aset (d_buf d) (pucFrame + MB_PDU_FUNC_OFF) MB_FUNC_READWRITE_MULTIPLE_REGISTERS;
           buf ← aset buf (pucFrame + MB_PDU_FUNC_OFF + 1) (u8 (usRegReadCount * 2));
           '(eRegStatus, d) ← eMBRegHoldingCB (pucFrame + MB_PDU_FUNC_OFF + 2) usRegReadAddress
                                usRegReadCount MB_REG_READ (set_dbuf buf d);
           if bool_decide (eRegStatus = MB_ENOERR)
           then Some (eRegStatus, u16 (2 + 2 * usRegReadCount), d)
           else Some (eRegStatus, 2, d)
         else Some (eRegStatus, usLen, d));
      if negb (bool_decide (eRegStatus = MB_ENOERR))
      then Some (prveMBError2Exception eRegStatus, usLen, d)
      else Some (MB_EX_NONE, usLen, d)
    else Some (MB_EX_ILLEGAL_DATA_VALUE, usLen, d)
  else Some (MB_EX_NONE, usLen, d).

(** ** The dispatch table of mb.c *)

(** The functions a table entry can point to. *)
Inductive handler := ReadHoldingRegister | WriteHoldingRegister | ReadWriteMultipleHoldingRegister.

#[global] Instance handler_dec : EqDecision handler.
Proof. solve_decision. Defined.

Definition call_handler (h : handler) : Z -> Z -> dev -> option (eMBException * Z * dev) :=
  match h with
  | ReadHoldingRegister => eMBFuncReadHoldingRegister
  | WriteHoldingRegister => eMBFuncWriteHoldingRegister
  | ReadWriteMultipleHoldingRegister => eMBFuncReadWriteMultipleHoldingRegister
  end.

Definition MB_FUNC_HANDLERS_MAX : Z := 8.

(** An entry: [ucFunctionCode] and [pxHandler] ([None] is NULL). *)
Definition xMBFunctionHandler : Type := Z * option handler.

Definition xFuncHandlers : list xMBFunctionHandler :=
  [ (MB_FUNC_READ_HOLDING_REGISTER, Some ReadHoldingRegister);
    (MB_FUNC_WRITE_REGISTER, Some WriteHoldingRegister);
    (MB_FUNC_READWRITE_MULTIPLE_REGISTERS, Some ReadWriteMultipleHoldingRegister);
    (0, None); (0, None); (0, None); (0, None); (0, None) ].

(** The loop of [EV_EXECUTE]: it stops at the first free entry. *)
Fixpoint find_handler (t : list xMBFunctionHandler) (ucFunctionCode : Z) : option (option handler) :=
  match t with
  | [] => None
  | (c, h) :: t =>
      if c =? 0 then None
      else if c =? ucFunctionCode then Some h
      else find_handler t ucFunctionCode
  end.

Definition dispatch (t : list xMBFunctionHandler) (ucFunctionCode pucFrame usLen : Z) (d : dev)
  : option (eMBException * Z * dev) :=
  match find_handler t ucFunctionCode with
  | None => Some (MB_EX_ILLEGAL_FUNCTION, usLen, d)
  | Some None => None
  | Some (Some h) => call_handler h pucFrame usLen d
  end.

(** [eMBRegisterCB]: the first entry that is free or already has this handler is
    taken; a NULL handler removes the first entry with the code. *)
Fixpoint register_in (t : list xMBFunctionHandler) (c : Z) (h : handler)
  : option (list xMBFunctionHandler) :=
  match t with
  | [] => None
  | (c', h') :: t =>
      if bool_decide (h' = None) || bool_decide (h' = Some h) then Some ((c, Some h) :: t)
      else t' ← register_in t c h; Some ((c', h') :: t')
  end.

Fixpoint remove_from (t : list xMBFunctionHandler) (c : Z) : list xMBFunctionHandler :=
  match t with
  | [] => []
  | (c', h') :: t => if c' =? c then (0, None) :: t else (c', h') :: remove_from t c
  end.

Definition eMBRegisterCB (ucFunctionCode : Z) (pxHandler : option handler)
  (t : list xMBFunctionHandler) : eMBErrorCode * list xMBFunctionHandler :=
  if (0 <? ucFunctionCode) && (ucFunctionCode <=? 127) then
    match pxHandler with
    | Some h =>
        match register_in t ucFunctionCode h with
        | Some t' => (MB_ENOERR, t')
        | None => (MB_ENORES, t)
        end
    | None => (MB_ENOERR, remove_from t ucFunctionCode)
    end
  else (MB_EINVAL, t).

(** ** The abstract slave *)

(** Registers as big-endian byte pairs. *)
Fixpoint words_bytes (l : list Z) : list Z :=
  match l with
  | [] => []
  | v :: l => v / 256 :: v mod 256 :: words_bytes l
  end.

Fixpoint bytes_words (l : list Z) : list Z :=
  match l with
  | h :: l :: r => 256 * h + l :: bytes_words r
  | _ => []
  end.

Definition slice {A} (l : list A) (a n : Z) : list A := take (Z.to_nat n) (drop (Z.to_nat a) l).

Definition update (l : list Z) (a : Z) (vs : list Z) : list Z :=
  take (Z.to_nat a) l ++ vs ++ drop (Z.to_nat a + length vs) l.

Definition exception (f : Z) (e : eMBException) : list Z := [Z.lor f 0x80; ex_code e].

Definition spec_read (f a n : Z) (regs : list Z) : list Z :=
  if a + n <=? zlen regs then f :: 2 * n :: words_bytes (slice regs a n)
  else exception f MB_EX_ILLEGAL_DATA_ADDRESS.

(** Writing the registers from [a] on; the calibration pair is saved when its
    second register is among them. *)
Definition spec_write (a : Z) (vs regs : list Z) : list Z * list (Z * Z) :=
  let regs := update regs a vs in
  (regs, if (a <=? CALC_B_IND) && (CALC_B_IND <? a + zlen vs)
         then [(i16 (zget regs CALC_K_IND), i16 (zget regs CALC_B_IND))] else []).

(** The reply to a request, the registers after it and the calibration data
    saved. *)
Definition slave_reply (pdu regs : list Z) : list Z * (list Z * list (Z * Z)) :=
  match pdu with
  | [] => ([], (regs, []))
  | f :: data =>
      if f =? 3 then
        match data with
        | [ah; al; nh; nl] =>
            let n := 256 * nh + nl in
            if (1 <=? n) && (n <=? 125) then (spec_read f (256 * ah + al) n regs, (regs, []))
            else (exception f MB_EX_ILLEGAL_DATA_VALUE, (regs, []))
        | _ => (exception f MB_EX_ILLEGAL_DATA_VALUE, (regs, []))
        end
      else if f =? 6 then
        match data with
        | [ah; al; vh; vl] =>
            let a := 256 * ah + al in
            if a <? zlen regs then (pdu, spec_write a [256 * vh + vl] regs)
            else (exception f MB_EX_ILLEGAL_DATA_ADDRESS, (regs, []))
        | _ => (exception f MB_EX_ILLEGAL_DATA_VALUE, (regs, []))
        end
      else if f =? 23 then
        match data with
        | rah :: ral :: rnh :: rnl :: wah :: wal :: wnh :: wnl :: bc :: vs =>
            let rn := 256 * rnh + rnl in
            let wa := 256 * wah + wal in let wn := 256 * wnh + wnl in
            if (1 <=? rn) && (rn <=? 125) && (1 <=? wn) && (wn <=? 121) && (2 * wn =? bc) then
              if wa + wn <=? zlen regs then
                let '(regs, saved) := spec_write wa (bytes_words (take (Z.to_nat (2 * wn)) vs)) regs in
                (spec_read f (256 * rah + ral) rn regs, (regs, saved))
              else (exception f MB_EX_ILLEGAL_DATA_ADDRESS, (regs, []))
            else (exception f MB_EX_ILLEGAL_DATA_VALUE, (regs, []))
        | _ => (pdu, (regs, []))
        end
      else (exception f MB_EX_ILLEGAL_FUNCTION, (regs, []))
  end.

(** A request of function 23 carries all the bytes its count announces. *)
Definition complete (pdu : list Z) : Prop :=
  match pdu with
  | f :: _ :: _ :: _ :: _ :: _ :: _ :: wnh :: wnl :: _ :: vs =>
      f = 23 -> 2 * (256 * wnh + wnl) <= zlen vs
  | _ => True
  end.

(** ** Bytes and words *)

Definition word (v : Z) : Prop := 0 <= v < 65536.

Lemma word_hi v : word v -> u8 (Z.shiftr v 8) = v / 256.
Proof.
  intros Hv. unfold word in Hv. rewrite Z.shiftr_div_pow2 by lia. change (2 ^ 8) with 256.
  apply wrapu_small. zlia.
Qed.

Lemma word_lo v : u8 (Z.land v 0xff) = v mod 256.
Proof.
  change 0xff with (Z.ones 8). rewrite Z.land_ones by lia. change (2 ^ 8) with 256.
  apply wrapu_small. zlia.
Qed.

Lemma word_of_bytes h l : byte h -> byte l -> Z.lor (u16 (Z.shiftl h 8)) l = 256 * h + l.
Proof.
  intros Hh Hl. rewrite (wrapu_small 16).
  - exact (pack_add h l Hl).
  - rewrite Z.shiftl_mul_pow2 by lia. unfold byte in *. lia.
Qed.

Lemma length_words_bytes l : length (words_bytes l) = (2 * length l)%nat.
Proof. induction l as [|v l IH]; [done|]. cbn [words_bytes length]. lia. Qed.

Lemma length_bytes_words n l : length l = (2 * n)%nat -> length (bytes_words l) = n.
Proof.
  revert l. induction n as [|n IH]; intros [|h [|b l]] Hl; simpl in *; try lia.
  rewrite IH; lia.
Qed.

Lemma bytes_words_word l : Forall byte l -> Forall word (bytes_words l).
Proof.
  revert l. fix IH 1. intros [|h [|b l]] Hl; cbn [bytes_words]; [constructor..|].
  rewrite !Forall_cons in Hl. destruct Hl as (Hh & Hb & Hl).
  constructor; [unfold byte, word in *; lia|by apply IH].
Qed.

Lemma words_bytes_byte l : Forall word l -> Forall byte (words_bytes l).
Proof.
  induction 1 as [|v l Hv _ IH]; [constructor|]. cbn [words_bytes]. unfold word, byte in *.
  constructor; [zlia|]. constructor; [zlia|done].
Qed.

(** ** The register callback *)

Lemma aget_mid l x k i : i = zlen l -> aget (l ++ x :: k) i = Some x.
Proof. intros ->. apply aget_at. Qed.

Lemma aset_mid l x k i y : i = zlen l -> aset (l ++ x :: k) i y = Some (l ++ y :: k).
Proof. intros ->. apply aset_at. Qed.

Lemma app_snoc {A} (l : list A) x k : l ++ x :: k = (l ++ [x]) ++ k.
Proof. by rewrite <- app_assoc. Qed.

Lemma slice_S {A} (l : list A) a n x :
  0 <= a -> 0 <= n -> l !! Z.to_nat a = Some x ->
  slice l a (n + 1) = x :: slice l (a + 1) n.
Proof.
  intros Ha Hn El. unfold slice. rewrite (drop_S _ _ _ El).
  replace (Z.to_nat (n + 1)) with (S (Z.to_nat n)) by lia. cbn [take].
  by replace (Z.to_nat (a + 1)) with (S (Z.to_nat a)) by lia.
Qed.

Lemma hold_read_run regs calls n pre mid post a :
  Forall word regs -> 0 <= a -> a + Z.of_nat n <= zlen regs -> zlen regs < 65535 ->
  length mid = (2 * n)%nat ->
  hold_read n (zlen pre) a (mk_dev (pre ++ mid ++ post) regs calls) =
  Some (mk_dev (pre ++ words_bytes (slice regs a (Z.of_nat n)) ++ post) regs calls).
Proof.
  revert pre mid a. induction n as [|n IH]; intros pre mid a Hw Ha Hn Hr Hm.
  { destruct mid; [|simpl in Hm; lia]. cbn. unfold slice. by rewrite take_0. }
  destruct mid as [|x [|y mid]]; cbn [length] in Hm; [lia..|]. cbn [app]. cbn [hold_read].
  cbn [usSRegHoldBuf d_buf].
  assert (exists v, regs !! Z.to_nat a = Some v) as [v Ev].
  { apply lookup_lt_is_Some_2. unfold zlen in *. lia. }
  pose proof (proj1 (Forall_lookup _ _) Hw _ _ Ev) as Hv.
  rewrite aget_ok by lia. unfold zget. rewrite nth_lookup_default, Ev. cbn [default mbind option_bind id].
  rewrite aset_mid by done. cbn [mbind option_bind].
  rewrite (app_snoc pre (u8 _)). rewrite aset_mid by (rewrite zlen_app; done).
  cbn [mbind option_bind]. unfold set_dbuf. cbn [usSRegHoldBuf calc_writes].
  rewrite (wrapu_small 16) by lia. rewrite word_hi, word_lo by done.
  replace ((pre ++ [v / 256]) ++ v mod 256 :: mid ++ post)
    with ((pre ++ [v / 256; v mod 256]) ++ mid ++ post) by by rewrite <- !app_assoc.
  replace (zlen pre + 2) with (zlen (pre ++ [v / 256; v mod 256])) by by rewrite zlen_app.
  rewrite IH by (done || lia).
  replace (Z.of_nat (S n)) with (Z.of_nat n + 1) by lia. rewrite (slice_S _ _ _ v) by (done || lia).
  cbn [words_bytes]. by rewrite <- app_assoc.
Qed.

Definition saves (a n : Z) (regs : list Z) : list (Z * Z) :=
  if (a <=? CALC_B_IND) && (CALC_B_IND <? a + n)
  then [(i16 (zget regs CALC_K_IND), i16 (zget regs CALC_B_IND))] else [].

Lemma saves_0 a regs : saves a 0 regs = [].
Proof. unfold saves. case_bool; case_bool; (done || lia). Qed.

Lemma saves_1 a regs :
  saves a 1 regs = if a =? CALC_B_IND
    then [(i16 (zget regs CALC_K_IND), i16 (zget regs CALC_B_IND))] else [].
Proof. unfold saves. repeat case_bool; try done; lia. Qed.

Lemma saves_step a n regs :
  0 <= n -> saves a (n + 1) regs = saves a 1 regs ++ saves (a + 1) n regs.
Proof.
  intros Hn. unfold saves, CALC_B_IND.
  repeat case_bool; cbn [andb app]; try lia; done.
Qed.

Lemma hold_write_run n : forall pre bs post r1 r2 r3 calls,
  Forall byte bs -> length bs = (2 * n)%nat -> length r2 = n ->
  6 <= zlen (r1 ++ r2 ++ r3) < 65535 ->
  hold_write n (zlen pre) (zlen r1) (mk_dev (pre ++ bs ++ post) (r1 ++ r2 ++ r3) calls) =
  Some (mk_dev (pre ++ bs ++ post) (r1 ++ bytes_words bs ++ r3)
    (calls ++ saves (zlen r1) (Z.of_nat n) (r1 ++ bytes_words bs ++ r3))).
Proof.
  induction n as [|n IH]; intros pre bs post r1 r2 r3 calls Hb Hl Hr Hsz.
  { destruct bs; [|simpl in Hl; lia]. destruct r2; [|simpl in Hr; lia]. cbn [hold_write bytes_words].
    change (Z.of_nat 0) with 0. by rewrite saves_0, app_nil_r. }
  destruct bs as [|h [|l bs]]; cbn [length] in Hl; [lia..|]. destruct r2 as [|v r2]; [done|].
  cbn [length] in Hr. rewrite !Forall_cons in Hb. destruct Hb as (Hh & Hlo & Hb).
  cbn [app]. cbn [hold_write d_buf usSRegHoldBuf calc_writes].
  rewrite (aget_mid pre h _ (zlen pre)) by done. cbn [mbind option_bind].
  rewrite (aset_mid r1 v _ (zlen r1)) by done. cbn [mbind option_bind].
  rewrite (app_snoc pre h) at 1. rewrite (aget_mid (pre ++ [h]) l _ (zlen pre + 1)) by (rewrite zlen_app; done).
  cbn [mbind option_bind]. rewrite (aget_mid r1 _ _ (zlen r1)) by done. cbn [mbind option_bind].
  rewrite (aset_mid r1 _ _ (zlen r1)) by done. cbn [mbind option_bind].
  rewrite word_of_bytes by done.
  assert (zlen r1 < 65535).
  { rewrite !zlen_app, zlen_cons in Hsz. pose proof (zlen_nonneg r2). pose proof (zlen_nonneg r3). lia. }
  pose proof (zlen_nonneg r1). rewrite (wrapu_small 16) by lia.
  assert (zlen (r1 ++ 256 * h + l :: r2 ++ r3) = zlen (r1 ++ (v :: r2) ++ r3)) as Hlen.
  { rewrite !zlen_app, !zlen_cons, zlen_app. lia. }
  assert (forall rest : list Z, (r1 ++ [256 * h + l]) ++ rest = r1 ++ 256 * h + l :: rest) as Hc.
  { intros rest. by rewrite <- app_assoc. }
  assert (forall i, 0 <= i <= zlen r1 -> zget (r1 ++ 256 * h + l :: bytes_words bs ++ r3) i
    = zget (r1 ++ 256 * h + l :: r2 ++ r3) i) as Hz.
  { intros i Hi. rewrite <- (Hc (bytes_words bs ++ r3)), <- (Hc (r2 ++ r3)).
    rewrite !(zget_app (r1 ++ [256 * h + l])) by lia.
    destruct (Z.ltb_spec i (zlen (r1 ++ [256 * h + l]))) as [|H']; [done|].
    rewrite zlen_app, zlen_cons in H'. change (zlen []) with 0 in H'. lia. }
  assert ((if zlen r1 + 1 =? CALC_B_IND + 1 then
     aget (r1 ++ 256 * h + l :: r2 ++ r3) CALC_K_IND ≫= fun k =>
     aget (r1 ++ 256 * h + l :: r2 ++ r3) CALC_B_IND ≫= fun b =>
     Some (calls ++ [(i16 k, i16 b)]) else Some calls) =
    Some (calls ++ saves (zlen r1) 1 (r1 ++ 256 * h + l :: bytes_words bs ++ r3))) as ->.
  { rewrite saves_1. unfold CALC_K_IND, CALC_B_IND. case_bool; case_bool; try lia.
    - rewrite !aget_ok by lia. cbn [mbind option_bind]. by rewrite !Hz by lia.
    - by rewrite app_nil_r. }
  cbn [mbind option_bind].
  replace (pre ++ h :: l :: bs ++ post) with ((pre ++ [h; l]) ++ bs ++ post)
    by by rewrite <- !app_assoc.
  replace (zlen pre + 2) with (zlen (pre ++ [h; l])) by by rewrite zlen_app.
  replace (zlen r1 + 1) with (zlen (r1 ++ [256 * h + l])) by by rewrite zlen_app.
  rewrite <- (Hc (r2 ++ r3)), IH; [|done|lia|lia|rewrite Hc; lia].
  cbn [bytes_words app]. rewrite !Hc. do 2 f_equal.
  replace (Z.of_nat (S n)) with (Z.of_nat n + 1) by lia. rewrite saves_step by lia.
  rewrite <- app_assoc. by rewrite zlen_app.
Qed.

Definition regs_ok (regs : list Z) : Prop := zlen regs = 12 /\ Forall word regs.

Lemma cb_addr a : word a -> u16 (u16 (a + 1) - 1) = a.
Proof.
  intros Ha. unfold word, wrapu in *. rewrite Zminus_mod_idemp_l. replace (a + 1 - 1) with a by lia.
  apply Z.mod_small. lia.
Qed.

Lemma cb_noreg p a n mode d :
  word a -> 12 < a + n -> eMBRegHoldingCB p (u16 (a + 1)) n mode d = Some (MB_ENOREG, d).
Proof.
  intros Ha Hn. unfold eMBRegHoldingCB, S_REG_HOLDING_START, S_REG_HOLDING_NREGS.
  rewrite cb_addr by done. case_bool; [|done]. case_bool; [lia|done].
Qed.

Lemma cb_read pre mid post regs calls a n :
  regs_ok regs -> 0 <= a -> 0 <= n -> a + n <= 12 -> zlen mid = 2 * n ->
  eMBRegHoldingCB (zlen pre) (u16 (a + 1)) n MB_REG_READ (mk_dev (pre ++ mid ++ post) regs calls) =
  Some (MB_ENOERR, mk_dev (pre ++ words_bytes (slice regs a n) ++ post) regs calls).
Proof.
  intros [Hl Hw] Ha Hn Hs Hm. unfold eMBRegHoldingCB, S_REG_HOLDING_START, S_REG_HOLDING_NREGS.
  rewrite cb_addr by (unfold word; lia). rewrite Z.sub_0_r, (wrapu_small 16 a) by lia.
  do 2 (case_bool; [|lia]). cbn [andb].
  rewrite (hold_read_run regs calls) by (done || (unfold zlen in *; lia)).
  cbn [mbind option_bind]. by rewrite Z2Nat.id by lia.
Qed.

Lemma zlen_bytes_words n l : 0 <= n -> zlen l = 2 * n -> zlen (bytes_words l) = n.
Proof. intros Hn Hl. unfold zlen in *. rewrite (length_bytes_words (Z.to_nat n)); lia. Qed.

Lemma cb_write pre bs post regs calls a n :
  regs_ok regs -> 0 <= a -> 0 <= n -> a + n <= 12 -> zlen bs = 2 * n -> Forall byte bs ->
  eMBRegHoldingCB (zlen pre) (u16 (a + 1)) n MB_REG_WRITE (mk_dev (pre ++ bs ++ post) regs calls) =
  Some (MB_ENOERR, mk_dev (pre ++ bs ++ post) (spec_write a (bytes_words bs) regs).1
    (calls ++ (spec_write a (bytes_words bs) regs).2)).
Proof.
  intros [Hl Hw] Ha Hn Hs Hm Hb. unfold eMBRegHoldingCB, S_REG_HOLDING_START, S_REG_HOLDING_NREGS.
  rewrite cb_addr by (unfold word; lia). rewrite Z.sub_0_r, (wrapu_small 16 a) by lia.
  do 2 (case_bool; [|lia]). cbn [andb].
  assert (zlen (take (Z.to_nat a) regs) = a) as Ht by (rewrite zlen_take; lia).
  assert (regs = take (Z.to_nat a) regs ++ slice regs a n ++ drop (Z.to_nat a + Z.to_nat n) regs) as Er.
  { unfold slice. rewrite <- drop_drop, take_drop. by rewrite take_drop. }
  pose proof (hold_write_run (Z.to_nat n) pre bs post (take (Z.to_nat a) regs) (slice regs a n)
    (drop (Z.to_nat a + Z.to_nat n) regs) calls) as H'.
  rewrite <- Er, Ht in H'. rewrite H'; clear H'.
  - cbn [mbind option_bind spec_write fst snd]. unfold update, saves.
    rewrite (zlen_bytes_words n) by (done || lia). rewrite Z2Nat.id by lia.
    rewrite (length_bytes_words (Z.to_nat n)) by (unfold zlen in *; lia). done.
  - done.
  - unfold zlen in *. lia.
  - unfold slice. rewrite length_take, length_drop. unfold zlen in *. lia.
  - lia.
Qed.

(** ** The handlers refine the specification *)

Lemma field_at buf p h l :
  aget buf p = Some h -> aget buf (p + 1) = Some l -> byte h -> byte l ->
  field buf p = Some (256 * h + l).
Proof. intros E1 E2 Hh Hl. unfold field. rewrite E1, E2. cbn [mbind option_bind]. by rewrite word_of_bytes. Qed.

(** The result of a handler agrees with the specification: the registers and
    the saved calibration are the specified ones, and the reply is in the buffer
    or is the exception reported. *)
Definition refines (f : Z) (calls : list (Z * Z)) (spec : list Z * (list Z * list (Z * Z)))
  (r : option (eMBException * Z * dev)) : Prop :=
  exists ex len d, r = Some (ex, len, d) /\
    zlen (d_buf d) = 60 /\ Forall byte (d_buf d) /\ 1 <= len <= 57 /\
    usSRegHoldBuf d = spec.2.1 /\ regs_ok (usSRegHoldBuf d) /\ calc_writes d = calls ++ spec.2.2 /\
    (ex = MB_EX_NONE -> slice (d_buf d) 1 len = spec.1) /\
    (ex <> MB_EX_NONE -> spec.1 = exception f ex).

Lemma refines_exception f calls ex regs buf len :
  ex <> MB_EX_NONE -> regs_ok regs -> zlen buf = 60 -> Forall byte buf -> 1 <= len <= 57 ->
  refines f calls (exception f ex, (regs, [])) (Some (ex, len, mk_dev buf regs calls)).
Proof. intros Hne Hr Hb Hbb Hl. exists ex, len, (mk_dev buf regs calls). rewrite app_nil_r. naive_solver. Qed.

Lemma refines_reply f calls saved reply regs buf len :
  regs_ok regs -> zlen buf = 60 -> Forall byte buf -> 1 <= len <= 57 -> slice buf 1 len = reply ->
  refines f calls (reply, (regs, saved)) (Some (MB_EX_NONE, len, mk_dev buf regs (calls ++ saved))).
Proof. intros Hr Hb Hbb Hl Hs. exists MB_EX_NONE, len, (mk_dev buf regs (calls ++ saved)). naive_solver. Qed.

Lemma zlen_words_bytes l : zlen (words_bytes l) = 2 * zlen l.
Proof. unfold zlen. rewrite length_words_bytes. lia. Qed.

Lemma zlen_slice {A} (l : list A) a n : 0 <= a -> 0 <= n -> a + n <= zlen l -> zlen (slice l a n) = n.
Proof. intros Ha Hn Hs. unfold slice. rewrite zlen_take by lia. rewrite zlen_drop by lia. lia. Qed.

(** Both reading functions end alike: the reply is built from offset 1 on. *)
Lemma read_reply f x r regs calls a n :
  regs_ok regs -> byte f -> byte x -> Forall byte r -> zlen r = 57 -> word a -> 1 <= n <= 125 ->
  (a + n <= 12 ->
    exists buf, eMBRegHoldingCB 3 (u16 (a + 1)) n MB_REG_READ
        (mk_dev (x :: f :: u8 (n * 2) :: r) regs calls) = Some (MB_ENOERR, mk_dev buf regs calls) /\
      zlen buf = 60 /\ Forall byte buf /\ slice buf 1 (2 + n * 2) = spec_read f a n regs) /\
  (12 < a + n ->
    eMBRegHoldingCB 3 (u16 (a + 1)) n MB_REG_READ (mk_dev (x :: f :: u8 (n * 2) :: r) regs calls)
      = Some (MB_ENOREG, mk_dev (x :: f :: u8 (n * 2) :: r) regs calls) /\
    spec_read f a n regs = exception f MB_EX_ILLEGAL_DATA_ADDRESS).
Proof.
  intros Hr Hf Hx Hrb Hrl Ha Hn. pose proof Hr as [Hl Hw]. unfold spec_read. rewrite Hl. split.
  - intros Hs. rewrite <- (take_drop (Z.to_nat (2 * n)) r). unfold word in Ha.
    set (post := drop _ r). set (mid := take _ r).
    assert (zlen mid = 2 * n) as Hm by (unfold mid; rewrite zlen_take; lia).
    assert (zlen post = 57 - 2 * n) as Hp by (unfold post; rewrite zlen_drop; lia).
    assert (zlen (slice regs a n) = n) as Hsl by (apply zlen_slice; lia).
    change (x :: f :: u8 (n * 2) :: mid ++ post) with ([x; f; u8 (n * 2)] ++ mid ++ post).
    change 3 with (zlen [x; f; u8 (n * 2)]) at 1.
    rewrite cb_read by (done || lia). eexists. split; [done|].
    rewrite !zlen_app, zlen_words_bytes. change (zlen [_; _; _]) with 3. split; [lia|]. split.
    + rewrite !Forall_app, !Forall_cons. rewrite (wrapu_small 8) by lia. unfold byte in *.
      split; [split_and!; [lia..|done]|]. split; [|by apply Forall_drop].
      apply words_bytes_byte. unfold slice. by apply Forall_take, Forall_drop.
    + case_bool; [|lia]. unfold slice. change (Z.to_nat 1) with 1%nat. cbn [app drop].
      replace (Z.to_nat (2 + n * 2)) with (2 + length (words_bytes (slice regs a n)))%nat.
      * cbn [Nat.add take]. rewrite take_app_length. unfold slice.
        rewrite (wrapu_small 8) by lia. do 2 f_equal. lia.
      * rewrite length_words_bytes. unfold zlen in Hsl. lia.
  - intros Hs. split; [by apply cb_noreg|]. case_bool; [lia|done].
Qed.

Ltac exc := apply refines_exception; [discriminate | assumption | assumption | assumption | lia].

Lemma zlen_four {A} (l : list A) :
  zlen l = 4 -> exists a b c d, l = [a; b; c; d].
Proof.
  unfold zlen. destruct l as [|a [|b [|c [|d [|e l]]]]]; simpl; try lia. intros _. by exists a, b, c, d.
Qed.

Lemma not_four {A B} (l : list A) (f : A -> A -> A -> A -> B) (b : B) :
  zlen l <> 4 -> match l with [x; y; z; w] => f x y z w | _ => b end = b.
Proof. by destruct l as [|? [|? [|? [|? [|? ?]]]]]. Qed.

Lemma read_refines x data rest regs calls :
  regs_ok regs -> zlen (x :: 3 :: data ++ rest) = 60 ->
  Forall byte (x :: 3 :: data ++ rest) -> zlen data <= 56 ->
  refines 3 calls (slave_reply (3 :: data) regs)
    (eMBFuncReadHoldingRegister 1 (1 + zlen data) (mk_dev (x :: 3 :: data ++ rest) regs calls)).
Proof.
  intros Hr Hl Hb Hd. pose proof (zlen_nonneg data).
  unfold eMBFuncReadHoldingRegister, slave_reply.
  change (3 =? 3) with true. cbn [d_buf].
  change (MB_PDU_FUNC_READ_SIZE + MB_PDU_SIZE_MIN) with 5. case_bool.
  2:{ rewrite not_four by lia. exc. }
  destruct (zlen_four data ltac:(lia)) as (ah & al & nh & nl & ->). cbn [app] in *.
  pose proof Hb as Hb'. rewrite !Forall_cons in Hb'. destruct Hb' as (Hx & _ & Hah & Hal & Hnh & Hnl & Hrest).
  rewrite (field_at _ (1 + MB_PDU_DATA_OFF) ah al), (field_at _ (1 + MB_PDU_DATA_OFF + 2) nh nl) by done. cbn [mbind option_bind].
  unfold MB_PDU_FUNC_READ_REGCNT_MAX. set (a := 256 * ah + al). set (n := 256 * nh + nl).
  assert (word a) as Ha by (unfold word, byte in *; lia).
  destruct ((1 <=? n) && (n <=? 125)) eqn:En; [|exc].
  apply andb_true_iff in En as [H1%Z.leb_le H2%Z.leb_le].
  set (r := al :: nh :: nl :: rest) in *.
  rewrite (aset_mid [x] 3 (ah :: r) _ 3 eq_refl : aset (x :: 3 :: ah :: r) (1 + MB_PDU_FUNC_OFF)
    MB_FUNC_READ_HOLDING_REGISTER = _). cbn [mbind option_bind app].
  rewrite (aset_mid [x; 3] ah r _ (u8 (n * 2)) eq_refl : aset (x :: 3 :: ah :: r)
    (1 + MB_PDU_FUNC_OFF + 1) (u8 (n * 2)) = _). cbn [mbind option_bind app].
  destruct (read_reply 3 x r regs calls a n) as [Hyes Hno];
    [done|by unfold byte|done|by unfold r; rewrite !Forall_cons|rewrite !zlen_cons in Hl; lia|done|lia|].
  destruct (decide (a + n <= 12)) as [Hs|Hs].
  - destruct (Hyes Hs) as (buf & E & E60 & Eb & Es).
    change (1 + MB_PDU_FUNC_OFF + 2) with 3. unfold set_dbuf, MB_FUNC_READ_HOLDING_REGISTER.
    cbn [usSRegHoldBuf calc_writes]. rewrite E. cbn [mbind option_bind].
    rewrite (wrapu_small 16) by lia. rewrite bool_decide_eq_true_2 by done. cbn [negb].
    rewrite <- (app_nil_r calls) at 2. apply refines_reply; (done || unfold word in Ha; lia).
  - destruct (Hno ltac:(lia)) as [E Es].
    change (1 + MB_PDU_FUNC_OFF + 2) with 3. unfold set_dbuf, MB_FUNC_READ_HOLDING_REGISTER.
    cbn [usSRegHoldBuf calc_writes]. rewrite E. cbn [mbind option_bind]. rewrite Es.
    apply refines_exception; [done|done| | |lia].
    + rewrite !zlen_cons in Hl |- *. lia.
    + unfold r. rewrite !Forall_cons. rewrite (wrapu_small 8) by lia. unfold byte in *.
      split_and!; (done || lia).
Qed.

Lemma spec_write_ok a vs regs :
  regs_ok regs -> 0 <= a -> a + zlen vs <= 12 -> Forall word vs -> regs_ok (spec_write a vs regs).1.
Proof.
  intros [Hl Hw] Ha Hs Hv. cbn [spec_write fst]. unfold update. split.
  - unfold zlen in *. rewrite !length_app, length_take, length_drop. lia.
  - rewrite !Forall_app. split_and!; [by apply Forall_take|done|by apply Forall_drop].
Qed.

Lemma slice_prefix {A} (x : A) l k n : n = zlen l -> slice (x :: l ++ k) 1 n = l.
Proof. intros ->. unfold slice, zlen. rewrite Nat2Z.id. cbn. rewrite ?drop_0. apply take_app_length. Qed.

Lemma write_refines x data rest regs calls :
  regs_ok regs -> zlen (x :: 6 :: data ++ rest) = 60 ->
  Forall byte (x :: 6 :: data ++ rest) -> zlen data <= 56 ->
  refines 6 calls (slave_reply (6 :: data) regs)
    (eMBFuncWriteHoldingRegister 1 (1 + zlen data) (mk_dev (x :: 6 :: data ++ rest) regs calls)).
Proof.
  intros Hr Hl Hb Hd. pose proof (zlen_nonneg data).
  unfold eMBFuncWriteHoldingRegister, slave_reply. cbn [Z.eqb Pos.eqb]. cbn [d_buf].
  change (MB_PDU_FUNC_WRITE_SIZE + MB_PDU_SIZE_MIN) with 5. case_bool.
  2:{ rewrite not_four by lia. exc. }
  destruct (zlen_four data ltac:(lia)) as (ah & al & vh & vl & ->). cbn [app] in *.
  pose proof Hb as Hb'. rewrite !Forall_cons in Hb'. destruct Hb' as (Hx & _ & Hah & Hal & Hvh & Hvl & Hrest).
  rewrite (field_at _ (1 + MB_PDU_DATA_OFF) ah al) by done. cbn [mbind option_bind].
  set (a := 256 * ah + al). assert (word a) as Ha by (unfold word, byte in *; lia).
  pose proof Hr as [Hl12 Hw]. rewrite Hl12. destruct (Z.ltb_spec a 12).
  - pose proof (cb_write [x; 6; ah; al] [vh; vl] rest regs calls a 1 Hr) as Hcb.
    cbn [app bytes_words] in Hcb. change (zlen [x; 6; ah; al]) with (1 + MB_PDU_DATA_OFF + 2) in Hcb.
    rewrite Hcb; [|unfold word in Ha; lia|lia|lia|done|by rewrite !Forall_cons].
    cbn [mbind option_bind]. rewrite bool_decide_eq_true_2 by done. cbn [negb].
    pose proof (spec_write_ok a [256 * vh + vl] regs Hr) as Hr'.
    destruct (spec_write a [256 * vh + vl] regs) as [regs' saved]. cbn [fst snd] in *.
    apply refines_reply; try done. change (zlen [256 * vh + vl]) with 1 in Hr'.
    apply Hr'; [unfold word in Ha; lia|lia|]. rewrite Forall_cons. unfold word, byte in *. split; [lia|done].
  - rewrite cb_noreg by (done || lia). cbn [mbind option_bind].
    rewrite bool_decide_eq_false_2 by done. cbn [negb prveMBError2Exception]. exc.
Qed.

Lemma zlen_nine {A} (l : list A) :
  9 <= zlen l -> exists a b c d e f g h i k, l = a :: b :: c :: d :: e :: f :: g :: h :: i :: k.
Proof.
  unfold zlen. destruct l as [|a [|b [|c [|d [|e [|f [|g [|h [|i k]]]]]]]]]; simpl; try lia.
  intros _. by exists a, b, c, d, e, f, g, h, i, k.
Qed.

Lemma not_nine {A B} (l : list A) (F : A -> A -> A -> A -> A -> A -> A -> A -> A -> list A -> B) (b0 : B) :
  zlen l < 9 ->
  match l with
  | a :: b :: c :: d :: e :: f :: g :: h :: i :: k => F a b c d e f g h i k
  | _ => b0
  end = b0.
Proof.
  unfold zlen. destruct l as [|? [|? [|? [|? [|? [|? [|? [|? [|? ?]]]]]]]]]; try done. simpl. lia.
Qed.

(** The values a write takes are the bytes behind the header, whether or not the
    frame was long enough to contain them. *)
Definition effective (data rest : list Z) : list Z :=
  if 9 <=? zlen data then data ++ rest else data.

Lemma readwrite_refines x data rest regs calls :
  regs_ok regs -> zlen (x :: 23 :: data ++ rest) = 60 ->
  Forall byte (x :: 23 :: data ++ rest) -> zlen data <= 56 ->
  refines 23 calls (slave_reply (23 :: effective data rest) regs)
    (eMBFuncReadWriteMultipleHoldingRegister 1 (1 + zlen data)
       (mk_dev (x :: 23 :: data ++ rest) regs calls)).
Proof.
  intros Hr Hl Hb Hd. pose proof (zlen_nonneg data).
  unfold eMBFuncReadWriteMultipleHoldingRegister, slave_reply, effective. cbn [Z.eqb Pos.eqb]. cbn [d_buf].
  change (MB_PDU_FUNC_READWRITE_SIZE_MIN + MB_PDU_SIZE_MIN) with 10.
  destruct (Z.leb_spec 9 (zlen data)); destruct (Z.leb_spec 10 (1 + zlen data)); try lia.
  2:{ rewrite not_nine by lia. rewrite <- (app_nil_r calls) at 2. apply refines_reply; [done..|lia|].
      apply (slice_prefix x (23 :: data) rest). rewrite zlen_cons. lia. }
  destruct (zlen_nine data ltac:(lia)) as (rah & ral & rnh & rnl & wah & wal & wnh & wnl & bc & vs0 & ->).
  cbn [app] in *. set (vs := vs0 ++ rest) in *. clearbody vs.
  pose proof Hb as Hb'. rewrite !Forall_cons in Hb'.
  destruct Hb' as (Hx & _ & Hrah & Hral & Hrnh & Hrnl & Hwah & Hwal & Hwnh & Hwnl & Hbc & Hvs).
  rewrite (field_at _ (1 + MB_PDU_DATA_OFF) rah ral),
    (field_at _ (1 + MB_PDU_DATA_OFF + 2) rnh rnl), (field_at _ (1 + MB_PDU_DATA_OFF + 4) wah wal),
    (field_at _ (1 + MB_PDU_DATA_OFF + 6) wnh wnl) by done. cbn [mbind option_bind].
  change (aget _ (1 + MB_PDU_DATA_OFF + 8)) with (Some bc). cbn [mbind option_bind].
  set (ra := 256 * rah + ral). set (rn := 256 * rnh + rnl). set (wa := 256 * wah + wal).
  set (wn := 256 * wnh + wnl).
  assert (word ra /\ word wa) as [Hra Hwa] by (unfold word, byte in *; lia).
  destruct ((1 <=? rn) && _ && _ && _ && _) eqn:En; [|exc].
  rewrite !andb_true_iff, !Z.leb_le, Z.eqb_eq in En. destruct En as [[[[Hr1 Hr2] Hw1] Hw2] Hbytes].
  pose proof Hr as [Hl12 Hwd]. rewrite Hl12. rewrite !zlen_cons in Hl.
  destruct (Z.leb_spec (wa + wn) 12) as [Hs|Hs].
  2:{ rewrite cb_noreg by (done || lia). cbn [mbind option_bind].
      rewrite bool_decide_eq_false_2 by done. cbn [mbind option_bind negb prveMBError2Exception].
      rewrite bool_decide_eq_false_2 by done. cbn [negb].
      apply refines_exception; [done|done|by rewrite !zlen_cons|done|rewrite !zlen_cons in *; lia]. }
  set (bs := take (Z.to_nat (2 * wn)) vs).
  assert (zlen bs = 2 * wn) as Hbs by (unfold bs; rewrite zlen_take; unfold word in *; lia).
  assert (Forall byte bs) as Hbb by by apply Forall_take.
  pose proof (cb_write [x; 23; rah; ral; rnh; rnl; wah; wal; wnh; wnl; bc] bs
    (drop (Z.to_nat (2 * wn)) vs) regs calls wa wn Hr) as Hcb.
  cbn [app] in Hcb. rewrite (take_drop (Z.to_nat (2 * wn)) vs : bs ++ _ = vs) in Hcb.
  change (zlen [x; 23; rah; ral; rnh; rnl; wah; wal; wnh; wnl; bc])
    with (1 + MB_PDU_DATA_OFF + 9) in Hcb.
  rewrite Hcb; [|unfold word in Hwa; lia|lia|done..]. clear Hcb.
  pose proof (spec_write_ok wa (bytes_words bs) regs Hr) as Hr'.
  rewrite (zlen_bytes_words wn) in Hr' by lia. specialize (Hr' ltac:(unfold word in *; lia) Hs (bytes_words_word _ Hbb)).
  destruct (spec_write wa (bytes_words bs) regs) as [regs' saved]. cbn [fst snd] in *.
  cbn [mbind option_bind]. rewrite (bool_decide_eq_true_2 (MB_ENOERR = MB_ENOERR)) by done.
  set (r := ral :: rnh :: rnl :: wah :: wal :: wnh :: wnl :: bc :: vs). cbn [d_buf].
  rewrite (aset_mid [x] 23 (rah :: r) _ 23 eq_refl : aset (x :: 23 :: rah :: r) (1 + MB_PDU_FUNC_OFF)
    MB_FUNC_READWRITE_MULTIPLE_REGISTERS = _). cbn [mbind option_bind app].
  rewrite (aset_mid [x; 23] rah r _ (u8 (rn * 2)) eq_refl : aset (x :: 23 :: rah :: r)
    (1 + MB_PDU_FUNC_OFF + 1) (u8 (rn * 2)) = _). cbn [mbind option_bind app].
  destruct (read_reply 23 x r regs' (calls ++ saved) ra rn) as [Hyes Hno];
    [done|by unfold byte|done|by unfold r; rewrite !Forall_cons|unfold r; rewrite !zlen_cons; lia|done|lia|].
  change (1 + MB_PDU_FUNC_OFF + 2) with 3. unfold set_dbuf. cbn [usSRegHoldBuf calc_writes].
  destruct (decide (ra + rn <= 12)) as [Hs'|Hs'].
  - destruct (Hyes Hs') as (buf & E & E60 & Eb & Es). rewrite E. cbn [mbind option_bind].
    rewrite bool_decide_eq_true_2 by done. cbn [mbind option_bind negb].
    rewrite bool_decide_eq_true_2 by done. cbn [negb].
    rewrite (wrapu_small 16) by lia. replace (2 + 2 * rn) with (2 + rn * 2) by lia.
    apply refines_reply; (done || unfold word in Hra; lia).
  - destruct (Hno ltac:(lia)) as [E Es]. rewrite E. cbn [mbind option_bind].
    rewrite bool_decide_eq_false_2 by done. cbn [mbind option_bind].
    rewrite bool_decide_eq_false_2 by done. cbn [negb prveMBError2Exception].
    exists MB_EX_ILLEGAL_DATA_ADDRESS, 2, (mk_dev (x :: 23 :: u8 (rn * 2) :: r) regs' (calls ++ saved)).
    rewrite Es. cbn [d_buf usSRegHoldBuf calc_writes fst snd]. unfold r.
    rewrite !zlen_cons, !Forall_cons. rewrite (wrapu_small 8) by lia.
    unfold byte in *. split_and!; (done || lia).
Qed.

(** Any request, through the table of mb.c. *)
Lemma dispatch_refines f x data rest regs calls :
  regs_ok regs -> zlen (x :: f :: data ++ rest) = 60 ->
  Forall byte (x :: f :: data ++ rest) -> zlen data <= 56 ->
  refines f calls (slave_reply (f :: if f =? 23 then effective data rest else data) regs)
    (dispatch xFuncHandlers f 1 (1 + zlen data) (mk_dev (x :: f :: data ++ rest) regs calls)).
Proof.
  intros Hr Hl Hb Hd. unfold dispatch, xFuncHandlers. cbn [find_handler].
  unfold MB_FUNC_READ_HOLDING_REGISTER, MB_FUNC_WRITE_REGISTER, MB_FUNC_READWRITE_MULTIPLE_REGISTERS.
  pose proof (zlen_nonneg data). change (3 =? 0) with false. change (6 =? 0) with false.
  change (23 =? 0) with false. change (0 =? 0) with true.
  destruct (Z.eqb_spec 3 f) as [<-|H3]; [by apply read_refines|].
  destruct (Z.eqb_spec 6 f) as [<-|H6]; [by apply write_refines|].
  destruct (Z.eqb_spec 23 f) as [<-|H23]; [by apply readwrite_refines|].
  unfold slave_reply. do 3 (case_bool; [lia|]). exc.
Qed.

Lemma slave_reply_effective f data rest regs :
  complete (f :: data) ->
  slave_reply (f :: if f =? 23 then effective data rest else data) regs = slave_reply (f :: data) regs.
Proof.
  intros Hc. destruct (Z.eqb_spec f 23) as [->|]; [|done]. unfold effective.
  destruct (Z.leb_spec 9 (zlen data)) as [H9|]; [|done].
  destruct (zlen_nine data H9) as (rah & ral & rnh & rnl & wah & wal & wnh & wnl & bc & vs & ->).
  cbn [complete] in Hc. specialize (Hc eq_refl). unfold slave_reply. cbn [Z.eqb Pos.eqb app].
  rewrite take_app_le; [done|]. unfold zlen in Hc. lia.
Qed.

(** ** Theorems *)



(** A function-23 request that is too short for its fixed fields is answered
    as if it had succeeded, with the request itself as the reply; one whose
    byte count promises more data than the frame holds writes stale bytes of
    the receive buffer into the registers. *)
Theorem readwrite_short_requests :
  (forall x data rest regs calls, zlen data < 9 ->
    eMBFuncReadWriteMultipleHoldingRegister 1 (1 + zlen data)
      (mk_dev (x :: 23 :: data ++ rest) regs calls) =
    Some (MB_EX_NONE, 1 + zlen data, mk_dev (x :: 23 :: data ++ rest) regs calls)) /\
  (forall x rah ral rnh rnl wah wal wnh wnl bc vs rest regs calls,
    let data := rah :: ral :: rnh :: rnl :: wah :: wal :: wnh :: wnl :: bc :: vs in
    regs_ok regs -> zlen (x :: 23 :: data ++ rest) = 60 -> Forall byte (x :: 23 :: data ++ rest) ->
    zlen data <= 56 ->
    refines 23 calls (slave_reply (23 :: data ++ rest) regs)
      (eMBFuncReadWriteMultipleHoldingRegister 1 (1 + zlen data)
        (mk_dev (x :: 23 :: data ++ rest) regs calls))).
Proof.
  split.
  - intros x data rest regs calls Hd. unfold eMBFuncReadWriteMultipleHoldingRegister.
    change (MB_PDU_FUNC_READWRITE_SIZE_MIN + MB_PDU_SIZE_MIN) with 10. case_bool; [lia|done].
  - intros x rah ral rnh rnl wah wal wnh wnl bc vs rest regs calls data Hr Hl Hb Hd.
    pose proof (readwrite_refines x data rest regs calls Hr Hl Hb Hd) as H. unfold effective in H.
    destruct (Z.leb_spec 9 (zlen data)) as [|Hlt]; [done|]. unfold data in Hlt. rewrite !zlen_cons in Hlt.
    pose proof (zlen_nonneg vs). lia.
Qed.

Lemma readwrite_short_requests_witness :
  let regs := replicate 12 0 in
  let data := [0; 0; 0; 1; 0; 4; 0; 1; 2] in
  (slave_reply (23 :: data ++ [0xab; 0xcd] ++ replicate 47 0) regs).2.1 !! 4%nat = Some 0xabcd /\
  refines 23 [] (slave_reply (23 :: data ++ [0xab; 0xcd] ++ replicate 47 0) regs)
    (eMBFuncReadWriteMultipleHoldingRegister 1 10
      (mk_dev (1 :: 23 :: data ++ [0xab; 0xcd] ++ replicate 47 0) regs [])).
Proof.
  split; [vm_compute; reflexivity|].
  apply (proj2 readwrite_short_requests 1 0 0 0 1 0 4 0 1 2 [] ([0xab; 0xcd] ++ replicate 47 0)).
  - split; [vm_compute; reflexivity|]. by_computation.
  - vm_compute. reflexivity.
  - by_computation.
  - vm_compute. discriminate.
Defined.

End ModbusFunc.
