(* ===== verification/ModbusSlave.v ===== *)
(** * The Modbus slave

    [modbus/mb.c]: initialisation, enabling, and the poll loop that turns a
    received frame into a reply, on top of the framing of [ModbusRtu] and the
    handlers of [ModbusFunc].  The system runs in four contexts - the UART
    receive interrupt, the transmitter thread, the t3.5 timer and the slave
    thread that polls - which interleave as the steps of [mb_step]. *)

From S2P Require Import Prelude ModbusCrc ModbusRtu ModbusFunc.
Import ModbusCrc ModbusRtu ModbusFunc.

#[local] Arguments Z.testbit : simpl never.

Module ModbusSlave.

(** ** Data *)

Inductive eMBMode := MB_RTU | MB_ASCII | MB_TCP.
Inductive mb_state := STATE_ENABLED | STATE_DISABLED | STATE_NOT_INITIALIZED.

#[global] Instance mb_state_dec : EqDecision mb_state.
Proof. solve_decision. Defined.

Definition MB_ADDRESS_BROADCAST : Z := 0.
Definition MB_ADDRESS_MIN : Z := 1.
Definition MB_ADDRESS_MAX : Z := 247.

(** The static variables of mb.c, those of [eMBPoll] that outlive a call
    ([ucMBFrame] points into [ucRTUBuf], [None] is NULL), and the device. *)
Record slave := mk_slave {
  rtu : mbrtu;
  eMBState : mb_state;
  ucMBAddress : Z;
  handlers : list xMBFunctionHandler;
  ucMBFrame : option Z;
  ucRcvAddress : Z;
  usLength : Z;
  hold : list Z;                (** [usSRegHoldBuf] *)
  calc : list (Z * Z);          (** calls of [wr_calc_data] so far *)
}.

Definition set_rtu (x : mbrtu) (s : slave) : slave :=
  mk_slave x (eMBState s) (ucMBAddress s) (handlers s) (ucMBFrame s) (ucRcvAddress s) (usLength s)
    (hold s) (calc s).
Definition set_mbstate (x : mb_state) (s : slave) : slave :=
  mk_slave (rtu s) x (ucMBAddress s) (handlers s) (ucMBFrame s) (ucRcvAddress s) (usLength s)
    (hold s) (calc s).
Definition set_address (x : Z) (s : slave) : slave :=
  mk_slave (rtu s) (eMBState s) x (handlers s) (ucMBFrame s) (ucRcvAddress s) (usLength s)
    (hold s) (calc s).
Definition set_request (f : option Z) (a len : Z) (s : slave) : slave :=
  mk_slave (rtu s) (eMBState s) (ucMBAddress s) (handlers s) f a len (hold s) (calc s).
Definition set_dev (d : dev) (s : slave) : slave :=
  mk_slave (set_rtubuf (d_buf d) (rtu s)) (eMBState s) (ucMBAddress s) (handlers s) (ucMBFrame s)
    (ucRcvAddress s) (usLength s) (usSRegHoldBuf d) (calc_writes d).
Definition dev_of (s : slave) : dev := mk_dev (ucRTUBuf (rtu s)) (hold s) (calc s).

(** ** Operations *)

(** [serial_ok]: the UART can be opened.  Only RTU is configured. *)
Definition eMBInit (serial_ok : bool) (eMode : eMBMode) (ucSlaveAddress ulBaudRate : Z) (s : slave)
  : option (eMBErrorCode * slave) :=
  if (ucSlaveAddress =? MB_ADDRESS_BROADCAST) || (ucSlaveAddress <? MB_ADDRESS_MIN)
     || (ucSlaveAddress >? MB_ADDRESS_MAX) then Some (MB_EINVAL, s)
  else
    let s := set_address ucSlaveAddress s in
    '(eStatus, s) ←
      match eMode with
      | MB_RTU => '(e, r) ← eMBRTUInit serial_ok ulBaudRate (rtu s); Some (e, set_rtu r s)
      | _ => Some (MB_EINVAL, s)
      end;
    if bool_decide (eStatus = MB_ENOERR) then
      Some (MB_ENOERR, set_mbstate STATE_DISABLED (set_rtu (on_port xMBPortEventInit (rtu s)) s))
    else Some (eStatus, s).

Definition eMBEnable (s : slave) : eMBErrorCode * slave :=
  if bool_decide (eMBState s = STATE_DISABLED)
  then (MB_ENOERR, set_mbstate STATE_ENABLED (set_rtu (eMBRTUStart (rtu s)) s))
  else (MB_EILLSTATE, s).

Definition eMBDisable (s : slave) : eMBErrorCode * slave :=
  match eMBState s with
  | STATE_ENABLED => (MB_ENOERR, set_mbstate STATE_DISABLED (set_rtu (eMBRTUStop (rtu s)) s))
  | STATE_DISABLED => (MB_ENOERR, s)
  | STATE_NOT_INITIALIZED => (MB_EILLSTATE, s)
  end.

(** MB_PORT_HAS_CLOSE is 0, so [pvMBFrameCloseCur] is NULL. *)
Definition eMBClose (s : slave) : eMBErrorCode * slave :=
  if bool_decide (eMBState s = STATE_DISABLED) then (MB_ENOERR, s) else (MB_EILLSTATE, s).

(** The branch EV_FRAME_RECEIVED of [eMBPoll]. *)
Definition poll_received (s : slave) : option slave :=
  '(eStatus, r) ← eMBRTUReceive (rtu s);
  match r with
  | Some (a, len, f) =>
      let s := set_request (Some f) a len s in
      if (a =? ucMBAddress s) || (a =? MB_ADDRESS_BROADCAST)
      then Some (set_rtu (on_port (xMBPortEventPost EV_EXECUTE) (rtu s)) s)
      else Some s
  | None => Some s
  end.

(** The branch EV_EXECUTE. *)
Definition poll_execute (s : slave) : option slave :=
  f ← ucMBFrame s;
  ucFunctionCode ← aget (ucRTUBuf (rtu s)) (f + MB_PDU_FUNC_OFF);
  '(eException, len, d) ← dispatch (handlers s) ucFunctionCode f (usLength s) (dev_of s);
  let s := set_request (ucMBFrame s) (ucRcvAddress s) len (set_dev d s) in
  if negb (ucRcvAddress s =? MB_ADDRESS_BROADCAST) then
    s ← (if negb (bool_decide (eException = MB_EX_NONE)) then
           buf ← aset (ucRTUBuf (rtu s)) f (u8 (Z.lor ucFunctionCode MB_FUNC_ERROR));
           buf ← aset buf (f + 1) (ex_code eException);
           Some (set_request (ucMBFrame s) (ucRcvAddress s) 2 (set_rtu (set_rtubuf buf (rtu s)) s))
         else Some s);
    '(_, r) ← eMBRTUSend (ucMBAddress s) f (usLength s) (rtu s);
    Some (set_rtu r s)
  else Some s.

Inductive poll_result :=
  | PollBlocks                                       (** waits in [xMBPortEventGet] *)
  | PollReturns (e : eMBErrorCode) (s : slave).

(** [junk] is the value of the uninitialised local [eEvent]. *)
Definition eMBPoll (junk : Z) (s : slave) : option poll_result :=
  if negb (bool_decide (eMBState s = STATE_ENABLED)) then Some (PollReturns MB_EILLSTATE s)
  else
    match xMBPortEventGet junk (port (rtu s)) with
    | None => Some PollBlocks
    | Some (eEvent, p) =>
        let s := set_rtu (set_port p (rtu s)) s in
        s ← (if eEvent =? EV_FRAME_RECEIVED then poll_received s
             else if eEvent =? EV_EXECUTE then poll_execute s
             else Some s);
        Some (PollReturns MB_ENOERR s)
    end.

(** ** Interleaving *)

Inductive mb_step : slave -> slave -> Prop :=
  | step_rx s b r : rx_int (port (rtu s)) = true -> byte b ->
      xMBRTUReceiveFSM b (rtu s) = Some r -> mb_step s (set_rtu r s)
  | step_tx s x r : trans_start (port (rtu s)) = true ->
      xMBRTUTransmitFSM (rtu s) = Some (x, r) -> mb_step s (set_rtu r s)
  | step_t35 s x r : t35_on (port (rtu s)) = true ->
      xMBRTUTimerT35Expired (rtu s) = Some (x, r) -> mb_step s (set_rtu r s)
  | step_poll s junk e s' : eMBPoll junk s = Some (PollReturns e s') -> mb_step s s'.

Definition boot : slave :=
  mk_slave (mk_rtu STATE_TX_IDLE STATE_RX_INIT (replicate 60 0) 0 0 0
              (mk_port false false false 0 0 []))
    STATE_NOT_INITIALIZED 0 xFuncHandlers None 0 0 (replicate 12 0) [].

(** ** The invariant of the enabled stack *)

Record slave_ok (s : slave) : Prop := {
  ok_enabled : eMBState s = STATE_ENABLED;
  ok_addr : 1 <= ucMBAddress s <= 247;
  ok_handlers : handlers s = xFuncHandlers;
  ok_rtu : rtu_ok (rtu s);
  ok_regs : regs_ok (hold s);
  ok_frame : ucMBFrame s = None \/ (ucMBFrame s = Some 1 /\ 1 <= usLength s <= 57);
  ok_execute : Z.testbit (xSlaveOsEvent (port (rtu s))) 2 = true -> ucMBFrame s = Some 1;
}.

(** The buffer holds the address, the request and whatever follows it. *)
Lemma buf_split (buf : list Z) len :
  zlen buf = 60 -> 1 <= len <= 57 ->
  exists x f data rest, buf = x :: f :: data ++ rest /\ zlen data = len - 1 /\
    take (Z.to_nat len) (drop 1 buf) = f :: data.
Proof.
  intros Hb Hl. destruct buf as [|x [|f buf]]; [unfold zlen in Hb; simpl in Hb; lia..|].
  rewrite !zlen_cons in Hb.
  exists x, f, (take (Z.to_nat (len - 1)) buf), (drop (Z.to_nat (len - 1)) buf).
  rewrite take_drop, zlen_take by lia. split_and!; [done|lia|]. cbn [drop].
  by replace (Z.to_nat len) with (S (Z.to_nat (len - 1))) by lia.
Qed.

Lemma lor_128 f : byte f -> byte (Z.lor f 128).
Proof.
  intros Hf. assert (forallb (fun i => bool_decide (byte (Z.lor i 128))) (Z.of_nat <$> seq 0 256) = true) as H
    by (vm_compute; reflexivity).
  rewrite forallb_forall in H. specialize (H f (in_index f Hf)). by apply bool_decide_eq_true in H.
Qed.

Lemma ex_code_byte e : byte (ex_code e).
Proof. destruct e; unfold byte; simpl; lia. Qed.

(** The request as the handlers see it (see [effective]). *)
Definition seen_request (s : slave) : list Z :=
  match drop 1 (ucRTUBuf (rtu s)) with
  | f :: r => f :: (if f =? 23 then effective (take (Z.to_nat (usLength s - 1)) r)
                                     (drop (Z.to_nat (usLength s - 1)) r)
                    else take (Z.to_nat (usLength s - 1)) r)
  | [] => []
  end.

Lemma rtubuf_ok buf r : rtu_ok r -> zlen buf = 60 -> Forall byte buf -> rtu_ok (set_rtubuf buf r).
Proof. intros [] Hb Hbb. by constructor. Qed.

(** The error frame. *)
Lemma exception_in_buf buf f e :
  zlen buf = 60 -> Forall byte buf -> byte f ->
  exists buf', (b ← aset buf 1 (u8 (Z.lor f MB_FUNC_ERROR)); aset b (1 + 1) (ex_code e)) = Some buf' /\
    zlen buf' = 60 /\ Forall byte buf' /\ slice buf' 1 2 = exception f e.
Proof.
  intros Hb Hbb Hf. pose proof (lor_128 f Hf) as Hlor. unfold MB_FUNC_ERROR.
  rewrite (wrapu_small 8) by (unfold byte in Hlor; lia).
  destruct buf as [|x [|y [|z buf]]]; [unfold zlen in Hb; simpl in Hb; lia..|].
  rewrite (aset_ok _ 1) by (rewrite Hb; lia). cbn [mbind option_bind].
  rewrite (aset_ok _ (1 + 1)) by (rewrite zlen_zset, Hb; lia).
  exists (x :: Z.lor f 128 :: ex_code e :: buf). split; [done|].
  rewrite !zlen_cons in *. split; [lia|]. rewrite !Forall_cons in *. split; [|done].
  split_and!; try apply Hbb; [done|apply ex_code_byte].
Qed.

Lemma execute_run s :
  slave_ok s -> ucMBFrame s = Some 1 ->
  let sp := slave_reply (seen_request s) (hold s) in
  exists s', poll_execute s = Some s' /\ slave_ok s' /\
    hold s' = sp.2.1 /\ calc s' = calc s ++ sp.2.2 /\
    xSlaveOsEvent (port (rtu s')) = xSlaveOsEvent (port (rtu s)) /\
    uart_out (port (rtu s')) = uart_out (port (rtu s)) /\
    (ucRcvAddress s = 0 -> eSndState (rtu s') = eSndState (rtu s) /\ eRcvState (rtu s') = eRcvState (rtu s)) /\
    (ucRcvAddress s <> 0 -> eRcvState (rtu s) = STATE_RX_IDLE ->
      eSndState (rtu s') = STATE_TX_XMIT /\ pucSndBufferCur (rtu s') = 0 /\
      usSndBufferCount (rtu s') = zlen sp.1 + 3 /\
      take (Z.to_nat (zlen sp.1 + 3)) (ucRTUBuf (rtu s')) = frame (ucMBAddress s) sp.1).
Proof.
  intros Hok Hf. destruct Hok as [Hen Ha Hh Hr Hreg Hfr Hex]. destruct Hfr as [Hfr|[_ Hlen]]; [congruence|].
  pose proof (ok_buf _ Hr) as Hb60. pose proof (ok_bytes _ Hr) as Hbb.
  destruct (buf_split _ _ Hb60 Hlen) as (x & f & data & rest & Eb & Hdl & Et).
  assert (seen_request s = f :: if f =? 23 then effective data rest else data) as ->.
  { unfold seen_request. rewrite Eb. cbn [drop].
    assert (Z.to_nat (usLength s - 1) = length data) as -> by (unfold zlen in Hdl; lia).
    by rewrite take_app_length, drop_app_length. }
  rewrite Eb in Hb60, Hbb. assert (byte f) as Hbf by (rewrite !Forall_cons in Hbb; apply Hbb).
  unfold poll_execute. rewrite Hf. cbn [mbind option_bind].
  assert (aget (ucRTUBuf (rtu s)) (1 + MB_PDU_FUNC_OFF) = Some f) as -> by (rewrite Eb; done).
  cbn [mbind option_bind]. unfold dev_of. rewrite Hh, Eb.
  destruct (dispatch_refines f x data rest (hold s) (calc s))
    as (ex & len & d & Ed & Hd60 & Hdb & Hln & Hregs & Hrok & Hcalc & Hnone & Hexc); [done..|lia|].
  set (sp := slave_reply _ _) in *.
  replace (1 + zlen data) with (usLength s) in Ed by lia. rewrite Ed. cbn [mbind option_bind].
  set (s1 := set_request _ _ len (set_dev d s)).
  assert (forall s2, rtu_ok (rtu s2) -> handlers s2 = handlers s -> eMBState s2 = eMBState s ->
    ucMBAddress s2 = ucMBAddress s -> ucMBFrame s2 = Some 1 -> 1 <= usLength s2 <= 57 ->
    hold s2 = usSRegHoldBuf d -> slave_ok s2) as Hmk.
  { intros s2 H1 H2 H3 H4 H5 H6 H7. constructor; rewrite ?H3, ?H4, ?H2, ?H5, ?H7; try done. by right. }
  destruct (Z.eqb_spec (ucRcvAddress s1) MB_ADDRESS_BROADCAST) as [Hbc|Hbc]; cbn [negb].
  { exists s1. split; [done|]. split; [apply Hmk; try done; by apply rtubuf_ok|]. by split_and!. }
  assert (exists buf, (if negb (bool_decide (ex = MB_EX_NONE)) then
           buf ← aset (ucRTUBuf (rtu s1)) 1 (u8 (Z.lor f MB_FUNC_ERROR));
           buf ← aset buf (1 + 1) (ex_code ex);
           Some (set_request (ucMBFrame s1) (ucRcvAddress s1) 2 (set_rtu (set_rtubuf buf (rtu s1)) s1))
         else Some s1) = Some (set_request (Some 1) (ucRcvAddress s) (zlen sp.1)
            (set_rtu (set_rtubuf buf (rtu s)) s1)) /\
         zlen buf = 60 /\ Forall byte buf /\ 1 <= zlen sp.1 <= 57 /\ slice buf 1 (zlen sp.1) = sp.1)
    as (buf & -> & Hbuf60 & Hbufb & Hspl & Hsl).
  { case_bool_decide as Hnn; cbn [negb].
    - exists (d_buf d). rewrite <- (Hnone Hnn), zlen_slice by lia.
      split_and!; [|done..|lia|lia|done]. unfold s1, set_request. rewrite <- Hf. done.
    - destruct (exception_in_buf (d_buf d) f ex Hd60 Hdb Hbf) as (buf & E & H1 & H2 & H3).
      exists buf. change (ucRTUBuf (rtu s1)) with (d_buf d).
      destruct (aset (d_buf d) 1 _) as [b|]; [|done]. cbn [mbind option_bind] in E |- *. rewrite E.
      cbn [mbind option_bind]. rewrite (Hexc Hnn). change (zlen (exception f ex)) with 2.
      split_and!; try done; lia. }
  cbn [mbind option_bind]. set (s2 := set_request _ _ _ (set_rtu _ _)).
  assert (rtu_ok (rtu s2)) as Hr2 by by apply rtubuf_ok.
  change (usLength s2) with (zlen sp.1). change (ucMBAddress s2) with (ucMBAddress s).
  destruct (decide (eRcvState (rtu s) = STATE_RX_IDLE)) as [Hi|Hi].
  - destruct (send_run (rtu s2) (ucMBAddress s) (zlen sp.1)) as (b3 & E3 & Hr3 & Ht3);
      [done|done|unfold byte; lia|lia|]. rewrite E3. cbn [mbind option_bind]. eexists. split; [done|].
    split; [by apply Hmk|]. split_and!; try done. intros _ _. split_and!; try done.
    transitivity (frame (ucMBAddress s) (pdu_of (zlen sp.1) (rtu s2))); [exact Ht3|].
    f_equal. exact Hsl.
  - rewrite send_refused by done. cbn [mbind option_bind]. eexists. split; [done|].
    split; [by apply Hmk|]. by split_and!.
Qed.

(** ** Polling *)

Lemma rtu_events_ok p r :
  rtu_ok r -> rx_int p = rx_int (port r) -> trans_start p = trans_start (port r) ->
  t35_on p = t35_on (port r) -> rtu_ok (set_port p r).
Proof. intros [] H1 H2 H3. constructor; cbn; first [assumption | congruence]. Qed.

Lemma receive_total r :
  rtu_ok r ->
  eMBRTUReceive r = Some (MB_EIO, None) \/
  exists a len, eMBRTUReceive r = Some (MB_ENOERR, Some (a, len, 1)) /\ 1 <= len <= 57.
Proof.
  intros Hok. pose proof (ok_pos r Hok). pose proof (ok_buf r Hok) as Hb.
  unfold eMBRTUReceive, RT_ASSERT, MB_SER_PDU_SIZE_MAX, MB_SER_PDU_SIZE_MIN.
  destruct (Z.leb_spec (usRcvBufferPos r) 60); [|lia]. cbn [mbind option_bind].
  case_bool; [|by left]. cbn [andb]. case_bool; [|by left]. right.
  unfold MB_SER_PDU_ADDR_OFF, MB_SER_PDU_PDU_OFF, MB_SER_PDU_SIZE_CRC.
  rewrite aget_ok by lia. cbn [mbind option_bind]. do 2 eexists. split; [done|].
  rewrite (wrapu_small 16) by lia. lia.
Qed.

Lemma received_ok s : slave_ok s -> exists s', poll_received s = Some s' /\ slave_ok s'.
Proof.
  intros Hok. pose proof Hok as [Hen Ha Hh Hr Hreg Hfr Hex]. unfold poll_received.
  destruct (receive_total _ Hr) as [->|(a & len & -> & Hlen)]; cbn [mbind option_bind]; [by exists s|].
  cbn [set_request ucMBAddress].
  destruct ((a =? ucMBAddress s) || (a =? MB_ADDRESS_BROADCAST)); eexists; (split; [done|]);
    constructor; cbn; try done; try (by right). by apply rtu_events_ok.
Qed.

(** Whatever was pending, exactly the pending bits are taken. *)
Lemma event_get_cleared junk p e p' :
  xMBPortEventGet junk p = Some (e, p') -> Z.testbit (xSlaveOsEvent p') 2 = false.
Proof.
  unfold xMBPortEventGet. case_bool; [done|]. intros [= _ <-]. cbn [xSlaveOsEvent set_events].
  rewrite !Z.land_spec, Z.lnot_spec, Z.land_spec by lia. change (Z.testbit EV_MASK 2) with true.
  by destruct (Z.testbit (xSlaveOsEvent p) 2).
Qed.

Lemma event_get_port junk p e p' :
  xMBPortEventGet junk p = Some (e, p') ->
  rx_int p' = rx_int p /\ trans_start p' = trans_start p /\ t35_on p' = t35_on p /\
  uart_out p' = uart_out p.
Proof. unfold xMBPortEventGet. case_bool; [done|]. by intros [= _ <-]. Qed.

(** The value [eMBPoll] switches on is EV_EXECUTE only if that event was posted
    or the uninitialised variable happened to hold it. *)
Definition poll_defined (junk : Z) (s : slave) : Prop :=
  ucMBFrame s = Some 1 \/ junk <> EV_EXECUTE \/
  In (Z.land (xSlaveOsEvent (port (rtu s))) EV_MASK) [0; EV_READY; EV_FRAME_RECEIVED; EV_EXECUTE; EV_FRAME_SENT].

Lemma event_get_execute junk s p' :
  slave_ok s -> poll_defined junk s ->
  xMBPortEventGet junk (port (rtu s)) = Some (EV_EXECUTE, p') -> ucMBFrame s = Some 1.
Proof.
  intros Hok [Hd|Hd] E; [done|]. apply (ok_execute s Hok). unfold xMBPortEventGet in E.
  assert (Z.land (xSlaveOsEvent (port (rtu s))) EV_MASK = 4 -> Z.testbit (xSlaveOsEvent (port (rtu s))) 2 = true) as Hbit.
  { intros H. apply (f_equal (fun x => Z.testbit x 2)) in H. rewrite Z.land_spec in H.
    change (Z.testbit EV_MASK 2) with true in H. by rewrite andb_true_r in H. }
  apply Hbit. revert E Hd. generalize (Z.land (xSlaveOsEvent (port (rtu s))) EV_MASK) as ev.
  intros ev. unfold EV_READY, EV_FRAME_RECEIVED, EV_EXECUTE, EV_FRAME_SENT.
  repeat case_bool; intros E Hd; simplify_eq; try done. destruct Hd as [Hd|Hd]; [done|].
  simpl in Hd. naive_solver.
Qed.

Lemma slave_ok_get junk s e p' :
  slave_ok s -> xMBPortEventGet junk (port (rtu s)) = Some (e, p') ->
  slave_ok (set_rtu (set_port p' (rtu s)) s).
Proof.
  intros [Hen Ha Hh Hr Hreg Hfr Hex] E. pose proof (event_get_cleared _ _ _ _ E) as Hc.
  destruct (event_get_port _ _ _ _ E) as (H1 & H2 & H3 & _).
  constructor; cbn; try done; [by apply rtu_events_ok|].
  intros Hb. exfalso. apply (eq_true_false_abs _ Hb Hc).
Qed.

Lemma poll_ok junk s :
  slave_ok s -> poll_defined junk s ->
  eMBPoll junk s = Some PollBlocks \/
  exists s', eMBPoll junk s = Some (PollReturns MB_ENOERR s') /\ slave_ok s'.
Proof.
  intros Hok Hd. unfold eMBPoll. rewrite (ok_enabled s Hok). rewrite bool_decide_eq_true_2 by done. cbn [negb].
  destruct (xMBPortEventGet junk (port (rtu s))) as [[e p']|] eqn:E; [|by left]. right.
  pose proof (slave_ok_get _ _ _ _ Hok E) as Hok1. case_bool.
  - destruct (received_ok _ Hok1) as (s' & -> & H'). cbn [mbind option_bind]. eauto.
  - case_bool.
    + subst e. pose proof (event_get_execute junk s p' Hok Hd E) as Hf.
      destruct (execute_run _ Hok1 Hf) as (s' & -> & H' & _). cbn [mbind option_bind]. eauto.
    + cbn [mbind option_bind]. eauto.
Qed.

Lemma poll_preserves junk s e s' :
  slave_ok s -> eMBPoll junk s = Some (PollReturns e s') -> slave_ok s'.
Proof.
  intros Hok Ep. destruct (decide (poll_defined junk s \/ ucMBFrame s = None)) as [[Hd|Hn]|Hd].
  - destruct (poll_ok junk s Hok Hd) as [E|(s1 & E & H1)]; rewrite E in Ep; [done|].
    by injection Ep as <- <-.
  - unfold eMBPoll in Ep. rewrite (ok_enabled s Hok) in Ep. rewrite bool_decide_eq_true_2 in Ep by done. cbn [negb] in Ep.
    destruct (xMBPortEventGet junk (port (rtu s))) as [[ev p']|] eqn:E; [|done].
    pose proof (slave_ok_get _ _ _ _ Hok E) as Hok1. case_bool_in Ep.
    + destruct (received_ok _ Hok1) as (s1 & Es & H'). rewrite Es in Ep. by injection Ep as <- <-.
    + case_bool_in Ep.
      * unfold poll_execute in Ep. cbn in Ep. by rewrite Hn in Ep.
      * by injection Ep as <- <-.
  - exfalso. apply Hd. left. left. destruct (ok_frame s Hok) as [|[? _]]; [|done]. exfalso. apply Hd. by right.
Qed.

Lemma step_preserves s s' : slave_ok s -> mb_step s s' -> slave_ok s'.
Proof.
  intros Hok Hst. pose proof Hok as [Hen Ha Hh Hr Hreg Hfr Hex].
  destruct Hst as [s b r Hrx Hb E|s x r Htx E|s x r Ht E|s junk e s' E].
  - destruct (rx_step_ok _ b Hr Hrx Hb) as (r' & E' & Hr' & _ & Hev). rewrite E in E'. injection E' as <-.
    constructor; cbn; try done. by rewrite Hev.
  - destruct (tx_step_ok _ Hr Htx) as (b & r' & E' & Hr' & Hev). rewrite E in E'. injection E' as <- <-.
    constructor; cbn; try done. destruct Hev as [->| ->]; [done|]. rewrite Z.lor_spec.
    change (Z.testbit EV_FRAME_SENT 2) with false. by rewrite orb_false_r.
  - destruct (t35_step_ok _ Hr Ht) as (b & r' & E' & Hr' & Hev). rewrite E in E'. injection E' as <- <-.
    constructor; cbn; try done. destruct Hev as [->|[->| ->]]; [done|..]; rewrite Z.lor_spec.
    + change (Z.testbit EV_READY 2) with false. by rewrite orb_false_r.
    + change (Z.testbit EV_FRAME_RECEIVED 2) with false. by rewrite orb_false_r.
  - by eapply poll_preserves.
Qed.

Lemma steps_preserve s s' : rtc mb_step s s' -> slave_ok s -> slave_ok s'.
Proof. induction 1; eauto using step_preserves. Qed.

(** Start-up as in [modbus_slave_thread_entry]. *)
Definition start (addr : Z) : option slave :=
  '(e, s) ← eMBInit true MB_RTU addr 9600 boot;
  if bool_decide (e = MB_ENOERR) then Some (eMBEnable s).2 else None.

Lemma slave_started_ok addr : 1 <= addr <= 247 -> exists s, start addr = Some s /\ slave_ok s.
Proof.
  intros Ha. unfold start, eMBInit, MB_ADDRESS_BROADCAST, MB_ADDRESS_MIN, MB_ADDRESS_MAX.
  case_bool; [lia|]. case_bool; [lia|]. rewrite Z.gtb_ltb. case_bool; [lia|]. cbn [orb].
  eexists. split; [reflexivity|].
  constructor; cbn; try done; [|split; [done|by_computation]|by left].
  constructor; try by vm_compute. by_computation.
Qed.

(** ** A request from the wire to the reply *)

Lemma seen_complete s pdu regs :
  pdu_of (usLength s) (rtu s) = pdu -> 1 <= usLength s <= 57 -> zlen (ucRTUBuf (rtu s)) = 60 ->
  complete pdu -> slave_reply (seen_request s) regs = slave_reply pdu regs.
Proof.
  intros <- Hl Hb Hc. destruct (buf_split _ _ Hb Hl) as (x & f & data & rest & Eb & Hdl & Et).
  unfold pdu_of in *. rewrite Et in Hc |- *. unfold seen_request. rewrite Eb. cbn [drop].
  assert (Z.to_nat (usLength s - 1) = length data) as -> by (unfold zlen in Hdl; lia).
  rewrite take_app_length, drop_app_length. by apply slave_reply_effective.
Qed.

(** A poll with one pending event. *)
Lemma event_get_one e p junk :
  In e [EV_READY; EV_FRAME_RECEIVED; EV_EXECUTE; EV_FRAME_SENT] -> xSlaveOsEvent p = e ->
  xMBPortEventGet junk p = Some (e, set_events 0 p).
Proof.
  intros He Hp. unfold xMBPortEventGet. rewrite Hp.
  destruct He as [<-|[<-|[<-|[<-|[]]]]]; reflexivity.
Qed.

Lemma poll_frame junk s :
  slave_ok s -> xSlaveOsEvent (port (rtu s)) = EV_FRAME_RECEIVED ->
  eMBPoll junk s =
  (s ← poll_received (set_rtu (on_port (set_events 0) (rtu s)) s); Some (PollReturns MB_ENOERR s)).
Proof.
  intros Hok He. unfold eMBPoll. rewrite (ok_enabled s Hok). rewrite bool_decide_eq_true_2 by done. cbn [negb].
  rewrite (event_get_one EV_FRAME_RECEIVED) by (done || simpl; tauto). done.
Qed.

Lemma poll_exec junk s :
  slave_ok s -> xSlaveOsEvent (port (rtu s)) = EV_EXECUTE ->
  eMBPoll junk s =
  (s ← poll_execute (set_rtu (on_port (set_events 0) (rtu s)) s); Some (PollReturns MB_ENOERR s)).
Proof.
  intros Hok He. unfold eMBPoll. rewrite (ok_enabled s Hok). rewrite bool_decide_eq_true_2 by done. cbn [negb].
  rewrite (event_get_one EV_EXECUTE) by (done || simpl; tauto). done.
Qed.

Lemma poll_sent junk s :
  slave_ok s -> xSlaveOsEvent (port (rtu s)) = EV_FRAME_SENT ->
  eMBPoll junk s = Some (PollReturns MB_ENOERR (set_rtu (on_port (set_events 0) (rtu s)) s)).
Proof.
  intros Hok He. unfold eMBPoll. rewrite (ok_enabled s Hok). rewrite bool_decide_eq_true_2 by done. cbn [negb].
  rewrite (event_get_one EV_FRAME_SENT) by (done || simpl; tauto). done.
Qed.

(** The stack waits for a request. *)
Definition ready (s : slave) : Prop :=
  slave_ok s /\ line_idle (rtu s) /\ xSlaveOsEvent (port (rtu s)) = 0.

Lemma ready_events s :
  slave_ok s -> line_idle (rtu s) -> ready (set_rtu (on_port (set_events 0) (rtu s)) s).
Proof.
  intros [Hen Ha Hh Hr Hreg Hfr Hex] (Hok & Hs & Hi).
  assert (rtu_ok (on_port (set_events 0) (rtu s))) as Hr' by by apply rtu_events_ok.
  split; [|split; [by split|done]]. constructor; cbn; try done.
Qed.

(** The frame [l] arrives and the poll that follows has taken it. *)
Lemma frame_taken l s a pdu junk :
  ready s -> byte a -> Forall byte pdu -> 1 <= zlen pdu <= 57 -> l = frame a pdu ->
  exists r s1, rx_burst l (rtu s) = Some r /\
    eMBPoll junk (set_rtu r s) = Some (PollReturns MB_ENOERR s1) /\
    slave_ok s1 /\ line_idle (rtu s1) /\
    uart_out (port (rtu s1)) = uart_out (port (rtu s)) /\ ucMBAddress s1 = ucMBAddress s /\
    hold s1 = hold s /\ calc s1 = calc s /\ ucMBFrame s1 = Some 1 /\ ucRcvAddress s1 = a /\
    usLength s1 = zlen pdu /\ pdu_of (zlen pdu) (rtu s1) = pdu /\
    xSlaveOsEvent (port (rtu s1)) =
      if (a =? ucMBAddress s) || (a =? MB_ADDRESS_BROADCAST) then EV_EXECUTE else 0.
Proof.
  intros (Hok & Hidle & Hev0) Ha Hp Hlen ->.
  destruct (rx_burst_ok (frame a pdu) (rtu s)) as (r & E & Hi & Hev & Hout & Hpos & Ht);
    [done|by apply frame_bytes|rewrite zlen_frame; lia|].
  rewrite Hev0 in Hev. exists r.
  assert (slave_ok (set_rtu r s)) as Hok1.
  { pose proof Hok as [Hen Had Hh Hr Hreg Hfr Hex]. destruct Hi as [Hr' _].
    constructor; cbn; try done. rewrite Hev. intros Hb. vm_compute in Hb. done. }
  destruct (receive_frame (on_port (set_events 0) r) a pdu) as [Er Epdu];
    [apply rtu_events_ok; [apply Hi|done..]|lia|done..|].
  rewrite poll_frame by done. unfold poll_received. cbn [rtu set_rtu]. rewrite Er. cbn [mbind option_bind].
  cbn [ucMBAddress set_request]. destruct Hi as (Hr1 & Hs1 & Hi1).
  assert (rtu_ok (on_port (set_events 0) r)) as Hr2 by by apply rtu_events_ok.
  destruct Hok1 as [Hen1 Had1 Hh1 _ Hreg1 Hfr1 Hex1]. cbn in *.
  destruct ((a =? ucMBAddress s) || (a =? MB_ADDRESS_BROADCAST)); cbn [mbind option_bind];
    eexists; (split; [done|]); (split; [done|]).
  - split.
    + constructor; cbn; try done; [by apply rtu_events_ok|by right].
    + split_and!; try done. split; [by apply rtu_events_ok|done].
  - split.
    + constructor; cbn; try done. by right.
    + by split_and!.
Qed.

(** ** Theorems *)


(** C6. A ready slave that receives the frame of a request addressed to it,
    followed by silence, sends back after two polls exactly the frame of the
    specified reply, byte by byte, updates its registers as specified and is
    ready for the next request. *)
Theorem modbus_request_answered s pdu j1 j2 j3 :
  ready s -> Forall byte pdu -> 1 <= zlen pdu <= 57 -> complete pdu ->
  let '(reply, (regs, saved)) := slave_reply pdu (hold s) in
  exists r1 s1 s2 r3 s4,
    rx_burst (frame (ucMBAddress s) pdu) (rtu s) = Some r1 /\
    eMBPoll j1 (set_rtu r1 s) = Some (PollReturns MB_ENOERR s1) /\
    eMBPoll j2 s1 = Some (PollReturns MB_ENOERR s2) /\
    tx_all (Z.to_nat (zlen reply + 4)) (rtu s2) = Some r3 /\
    eMBPoll j3 (set_rtu r3 s2) = Some (PollReturns MB_ENOERR s4) /\
    ready s4 /\ hold s4 = regs /\ calc s4 = calc s ++ saved /\
    uart_out (port (rtu s4)) = uart_out (port (rtu s)) ++ frame (ucMBAddress s) reply.
Proof.
  intros Hready Hp Hlen Hc. pose proof Hready as (Hok & _ & _). pose proof (ok_addr s Hok) as Hadr.
  destruct (frame_taken (frame (ucMBAddress s) pdu) s (ucMBAddress s) pdu j1)
    as (r1 & s1 & E1 & E2 & Hok1 & Hi1 & Hout1 & Had1 & Hh1 & Hc1 & Hf1 & Hra1 & Hl1 & Hpdu1 & Hev1);
    [done|unfold byte; lia|done..|].
  rewrite Z.eqb_refl in Hev1. cbn [orb] in Hev1.
  destruct (ready_events s1 Hok1 Hi1) as (Hok1' & Hi1' & _).
  destruct (execute_run _ Hok1' Hf1) as (s2 & Ex & Hok2 & Hh2 & Hc2 & Hev2 & Hout2 & _ & Hsend).
  pose proof (seen_complete (set_rtu (on_port (set_events 0) (rtu s1)) s1) pdu (hold s1)
    ltac:(by cbn; rewrite Hl1) ltac:(by cbn; lia) (ok_buf _ (ok_rtu _ Hok1')) Hc) as Esr.
  cbn [hold set_rtu] in Hh2, Hc2, Hsend. rewrite Esr in Hh2, Hc2, Hsend.
  cbn [hold calc set_rtu] in Hh2, Hc2, Hsend. rewrite Hh1 in Hh2, Hc2, Hsend.
  destruct (slave_reply pdu (hold s)) as [reply [regs saved]]. cbn [fst snd] in *.
  destruct Hsend as (Hx & Hcur & Hcnt & Htk); [cbn; rewrite Hra1; lia|apply Hi1'|].
  destruct (tx_frame (rtu s2) (ok_rtu s2 Hok2) Hx) as (r3 & Et & Hr3 & Hs3 & Hi3 & _ & Hev3 & Hout3).
  rewrite Hcnt in Et, Hout3. rewrite Hcur in Hout3. rewrite Hev2 in Hev3. cbn in Hev3.
  assert (slave_ok (set_rtu r3 s2)) as Hok3.
  { destruct Hok2 as [H21 H22 H23 H24 H25 H26 H27]. constructor; cbn; try done. rewrite Hev3.
    intros Hb. vm_compute in Hb. done. }
  exists r1, s1, s2, r3, (set_rtu (on_port (set_events 0) r3) (set_rtu r3 s2)).
  split_and!; try done.
  - rewrite poll_exec by done. by rewrite Ex.
  - rewrite <- Et. f_equal. pose proof (zlen_nonneg reply). lia.
  - by rewrite poll_sent.
  - apply (ready_events (set_rtu r3 s2)); [done|]. by split.
  - cbn. rewrite Hc2, Hc1. done.
  - cbn. rewrite Hout3, Hout2. cbn. rewrite Hout1. f_equal. cbn [Z.to_nat].
    change (Z.to_nat 0) with 0%nat. rewrite drop_0, Htk. cbn. by rewrite Had1.
Qed.

(** A ready slave that receives a request for another address sends nothing,
    leaves its registers alone and is ready again; a broadcast request is
    executed as specified without an answer. *)
Theorem modbus_frames_not_for_us s a pdu j1 j2 :
  ready s -> byte a -> a <> ucMBAddress s -> Forall byte pdu -> 1 <= zlen pdu <= 57 -> complete pdu ->
  exists r1 s1, rx_burst (frame a pdu) (rtu s) = Some r1 /\
    eMBPoll j1 (set_rtu r1 s) = Some (PollReturns MB_ENOERR s1) /\
    (a <> 0 -> ready s1 /\ hold s1 = hold s /\ calc s1 = calc s /\
      uart_out (port (rtu s1)) = uart_out (port (rtu s))) /\
    (a = 0 -> exists s2, eMBPoll j2 s1 = Some (PollReturns MB_ENOERR s2) /\ ready s2 /\
      hold s2 = (slave_reply pdu (hold s)).2.1 /\ calc s2 = calc s ++ (slave_reply pdu (hold s)).2.2 /\
      uart_out (port (rtu s2)) = uart_out (port (rtu s))).
Proof.
  intros Hready Hb Hne Hp Hlen Hc.
  destruct (frame_taken (frame a pdu) s a pdu j1)
    as (r1 & s1 & E1 & E2 & Hok1 & Hi1 & Hout1 & Had1 & Hh1 & Hc1 & Hf1 & Hra1 & Hl1 & Hpdu1 & Hev1);
    [done..|]. exists r1, s1. split_and!; try done; intros Ha.
  - destruct (Z.eqb_spec a (ucMBAddress s)); [done|].
    destruct (Z.eqb_spec a MB_ADDRESS_BROADCAST); [done|]. by split_and!.
  - rewrite Ha in Hev1, Hra1. change (0 =? MB_ADDRESS_BROADCAST) with true in Hev1. rewrite orb_true_r in Hev1.
    destruct (ready_events s1 Hok1 Hi1) as (Hok1' & Hi1' & _).
    destruct (execute_run _ Hok1' Hf1) as (s2 & Ex & Hok2 & Hh2 & Hc2 & Hev2 & Hout2 & Hbc & _).
    pose proof (seen_complete (set_rtu (on_port (set_events 0) (rtu s1)) s1) pdu (hold s1)
      ltac:(by cbn; rewrite Hl1) ltac:(by cbn; lia) (ok_buf _ (ok_rtu _ Hok1')) Hc) as Esr.
    cbn [hold calc set_rtu] in Hh2, Hc2. rewrite Esr, Hh1 in Hh2, Hc2. rewrite Hc1 in Hc2.
    exists s2. split; [rewrite poll_exec by done; by rewrite Ex|]. destruct (Hbc Hra1) as [Hs2 Hr2].
    destruct Hi1' as (_ & Hs' & Hi'). rewrite Hs' in Hs2. rewrite Hi' in Hr2.
    split_and!; try done.
    + split_and!; try done. split; [apply Hok2|done].
    + rewrite Hout2. exact Hout1.
Qed.

(** The error results of the life cycle: eMBInit refuses illegal addresses
    and other modes with MB_EINVAL and reports a failed port with
    MB_EPORTERR, eMBEnable and eMBClose refuse any state but disabled and
    eMBDisable an uninitialised stack with MB_EILLSTATE, eMBPoll refuses to
    run unless enabled; a refused init changes at most the recorded address,
    a refused enable or poll nothing. *)
Theorem mb_state_errors :
  (forall ok mode addr baud s, (addr = 0 \/ 247 < addr) ->
    eMBInit ok mode addr baud s = Some (MB_EINVAL, s)) /\
  (forall ok addr baud mode s, 1 <= addr <= 247 -> mode <> MB_RTU ->
    eMBInit ok mode addr baud s = Some (MB_EINVAL, set_address addr s)) /\
  (forall addr baud s, 1 <= addr <= 247 ->
    eMBInit false MB_RTU addr baud s = Some (MB_EPORTERR, set_address addr s)) /\
  (forall addr baud s, 1 <= addr <= 247 -> 0 < baud < 2 ^ 31 ->
    exists s', eMBInit true MB_RTU addr baud s = Some (MB_ENOERR, s') /\
      eMBState s' = STATE_DISABLED /\ ucMBAddress s' = addr) /\
  (forall s, (eMBEnable s).1 = MB_ENOERR <-> eMBState s = STATE_DISABLED) /\
  (forall s, eMBState s <> STATE_DISABLED -> eMBEnable s = (MB_EILLSTATE, s)) /\
  (forall s, (eMBDisable s).1 = MB_ENOERR <-> eMBState s <> STATE_NOT_INITIALIZED) /\
  (forall s, (eMBClose s).1 = MB_ENOERR <-> eMBState s = STATE_DISABLED) /\
  (forall junk s, eMBState s <> STATE_ENABLED -> eMBPoll junk s = Some (PollReturns MB_EILLSTATE s)).
Proof.
  unfold eMBInit, MB_ADDRESS_BROADCAST, MB_ADDRESS_MIN, MB_ADDRESS_MAX.
  split_and!.
  - intros ok mode addr baud s Ha. rewrite Z.gtb_ltb.
    destruct Ha as [->|Ha]; [done|]. destruct (Z.ltb_spec 247 addr); [|lia]. by rewrite orb_true_r.
  - intros ok addr baud mode s Ha Hm. rewrite Z.gtb_ltb. repeat (case_bool; [lia|]). cbn [orb].
    by destruct mode.
  - intros addr baud s Ha. rewrite Z.gtb_ltb. repeat (case_bool; [lia|]). by cbn [orb].
  - intros addr baud s Ha Hb. rewrite !Z.gtb_ltb. repeat (case_bool; [lia|]). cbn [orb].
    unfold eMBRTUInit, usTimerT35_50us. rewrite Z.gtb_ltb. case_bool; [eexists; by split_and!|].
    rewrite (wrapu_small 32) by lia. case_bool; [lia|]. eexists. by split_and!.
  - intros s. unfold eMBEnable. case_bool_decide; naive_solver.
  - intros s H. unfold eMBEnable. by rewrite bool_decide_eq_false_2.
  - intros s. unfold eMBDisable. destruct (eMBState s); naive_solver.
  - intros s. unfold eMBClose. case_bool_decide; naive_solver.
  - intros junk s H. unfold eMBPoll. by rewrite bool_decide_eq_false_2.
Qed.

(** When a second event is pending beside EV_FRAME_RECEIVED, xMBPortEventGet
    consumes both and reports neither, so the received request is never
    executed or answered. *)
Theorem event_collision_loses_frame junk s :
  slave_ok s -> xSlaveOsEvent (port (rtu s)) = Z.lor EV_FRAME_SENT EV_FRAME_RECEIVED ->
  ~ In junk [EV_FRAME_RECEIVED; EV_EXECUTE] ->
  eMBPoll junk s = Some (PollReturns MB_ENOERR (set_rtu (on_port (set_events 0) (rtu s)) s)).
Proof.
  intros Hok He Hj. unfold eMBPoll. rewrite (ok_enabled s Hok). rewrite bool_decide_eq_true_2 by done. cbn [negb].
  unfold xMBPortEventGet. rewrite He. change (Z.land (Z.lor EV_FRAME_SENT EV_FRAME_RECEIVED) EV_MASK) with 10.
  cbn [Z.eqb Pos.eqb EV_READY EV_FRAME_RECEIVED EV_EXECUTE EV_FRAME_SENT].
  simpl in Hj. case_bool; [naive_solver|]. case_bool; [naive_solver|]. done.
Qed.

(** A stack disabled while it transmits and enabled again faults on the next
    character: the receiver is on and the transmitter was never reset. *)
Fact disable_while_transmitting s b :
  slave_ok s -> eSndState (rtu s) = STATE_TX_XMIT ->
  let s' := (eMBEnable (eMBDisable s).2).2 in
  rx_int (port (rtu s')) = true /\ xMBRTUReceiveFSM b (rtu s') = None.
Proof.
  intros Hok Hx. unfold eMBDisable. rewrite (ok_enabled s Hok). cbn.
  split; [done|]. unfold xMBRTUReceiveFSM.
  rewrite bool_decide_eq_false_2; [done|]. intros H. change (eSndState (rtu s) = STATE_TX_IDLE) in H.
  congruence.
Qed.

(** Removing a handler makes the ones behind it unreachable. *)
Fact remove_handler_hides_others :
  let t := (eMBRegisterCB MB_FUNC_READ_HOLDING_REGISTER None xFuncHandlers).2 in
  In (MB_FUNC_WRITE_REGISTER, Some WriteHoldingRegister) t /\ find_handler t MB_FUNC_WRITE_REGISTER = None.
Proof. split; [simpl; tauto|reflexivity]. Qed.

(** ** Instances *)

(** Slave 17 after the start-up silence. *)
Definition sample : option slave :=
  s ← start 17;
  '(_, r) ← xMBRTUTimerT35Expired (rtu s);
  match eMBPoll 0 (set_rtu r s) with Some (PollReturns _ s) => Some s | _ => None end.

Definition the_sample : slave := default boot sample.

Lemma sample_ready : ready the_sample.
Proof.
  split; [|split].
  - constructor; try by vm_compute.
    + constructor; try by vm_compute. by_computation.
    + split; [by vm_compute|by_computation].
    + by left.
  - split; [|by vm_compute]. constructor; try by vm_compute. by_computation.
  - by vm_compute.
Qed.

#[global] Opaque the_sample.


Lemma modbus_request_answered_witness :
  exists r1 s1 s2 r3 s4,
    rx_burst (frame 17 [3; 0; 0; 0; 2]) (rtu the_sample) = Some r1 /\
    eMBPoll 0 (set_rtu r1 the_sample) = Some (PollReturns MB_ENOERR s1) /\
    eMBPoll 0 s1 = Some (PollReturns MB_ENOERR s2) /\
    tx_all 10 (rtu s2) = Some r3 /\
    eMBPoll 0 (set_rtu r3 s2) = Some (PollReturns MB_ENOERR s4) /\
    ready s4 /\ hold s4 = replicate 12 0 /\ calc s4 = [] ++ [] /\
    uart_out (port (rtu s4)) = [] ++ frame 17 [3; 4; 0; 0; 0; 0].
Proof.
  apply (modbus_request_answered the_sample [3; 0; 0; 0; 2] 0 0 0).
  - apply sample_ready.
  - by_computation.
  - vm_compute. split; discriminate.
  - exact I.
Defined.

Lemma modbus_frames_not_for_us_witness :
  exists r1 s1, rx_burst (frame 0 [6; 0; 4; 0; 7]) (rtu the_sample) = Some r1 /\
    eMBPoll 0 (set_rtu r1 the_sample) = Some (PollReturns MB_ENOERR s1) /\
    exists s2, eMBPoll 0 s1 = Some (PollReturns MB_ENOERR s2) /\ hold s2 !! 4%nat = Some 7.
Proof.
  destruct (modbus_frames_not_for_us the_sample 0 [6; 0; 4; 0; 7] 0 0) as (r1 & s1 & E1 & E2 & _ & H).
  - apply sample_ready.
  - by_computation.
  - vm_compute. discriminate.
  - by_computation.
  - vm_compute. split; discriminate.
  - exact I.
  - exists r1, s1. split; [exact E1|]. split; [exact E2|].
    destruct (H eq_refl) as (s2 & E3 & _ & Hh & _). exists s2. split; [exact E3|].
    rewrite Hh. vm_compute. reflexivity.
Defined.

Lemma mb_state_errors_witness :
  eMBInit true MB_RTU 248 9600 boot = Some (MB_EINVAL, boot).
Proof. apply (proj1 mb_state_errors). right. lia. Defined.

Lemma event_collision_loses_frame_witness :
  eMBPoll 0 (set_rtu (on_port (set_events 10) (rtu the_sample)) the_sample) =
  Some (PollReturns MB_ENOERR (set_rtu (on_port (set_events 0) (rtu the_sample)) the_sample)).
Proof.
  apply (event_collision_loses_frame 0 (set_rtu (on_port (set_events 10) (rtu the_sample)) the_sample)).
  - destruct sample_ready as ([H1 H2 H3 H4 H5 H6 H7] & _ & _).
    constructor; try assumption. by apply rtu_events_ok.
  - reflexivity.
  - intros [H|[H|[]]]; discriminate.
Defined.

End ModbusSlave.
