(* ===== verification/Sensors.v ===== *)
(** * The sensor drivers

    [drv/drv_ms5837.c] (pressure and temperature) and [drv/drv_tmp117.c]
    (temperature): the register protocol over I2C and the fixed-point
    compensation.  The bus is a parameter: [rt_i2c_transfer] takes the messages
    and returns how many were transferred and the messages with their read
    buffers filled in.

    The arithmetic is kept at the widths of the C types.  The theorems show that
    no intermediate result of the compensation that is reported leaves its type
    for any calibration and any 24-bit sample, so that the reported values are
    the exact formulas of the data sheet. *)

From S2P Require Import Prelude ModbusCrc.
Import ModbusCrc.

Module Sensors.

(** [drivers/i2c.h] *)
Record rt_i2c_msg := mk_msg { m_addr : Z; m_flags : Z; m_len : Z; m_buf : list Z }.

Definition RT_I2C_WR : Z := 0x0000.
Definition RT_I2C_RD : Z := 0x0001.

(** A read that succeeded fills exactly the buffers of the read messages. *)
Definition filled (sent back : rt_i2c_msg) : Prop :=
  m_addr back = m_addr sent /\ m_flags back = m_flags sent /\ m_len back = m_len sent /\
  zlen (m_buf back) = zlen (m_buf sent) /\ Forall byte (m_buf back) /\
  (m_flags sent = RT_I2C_WR -> m_buf back = m_buf sent).

Section Bus.

Context {W : Type} (rt_i2c_transfer : list rt_i2c_msg -> W -> Z * list rt_i2c_msg * W).

(** ** drv_tmp117.c *)

Definition tmp_i2c_addr : Z := 0x48.
Definition TMP117_TEMP : Z := 0.
Definition TMP117_CONF : Z := 1.
Definition TMP117_DEV_ID : Z := 0xf.

(** Byte [i] of the buffer of message [j]. *)
Definition rbyte (l : list rt_i2c_msg) (j i : nat) : Z :=
  match l !! j with Some m => nth i (m_buf m) 0 | None => 0 end.

Definition tmp117_wr_reg (addr cmd : Z) (w : W) : Z * W :=
  let buffer0 := [addr; Z.land (Z.shiftr cmd 8) 0xff; Z.land cmd 0xff] in
  let '(n, _, w) := rt_i2c_transfer [mk_msg tmp_i2c_addr RT_I2C_WR 1 buffer0] w in
  if negb (n =? 1) then (-1, w) else (0, w).

(** [rd_buf] is the value of the caller's variable before the call, which stays
    if the transfer fails. *)
Definition tmp117_rd_reg (addr rd_buf : Z) (w : W) : Z * Z * W :=
  let '(n, msgs, w) := rt_i2c_transfer
    [mk_msg tmp_i2c_addr RT_I2C_WR 1 [addr; 0]; mk_msg tmp_i2c_addr RT_I2C_RD 2 [0; 0]] w in
  if negb (n =? 2) then (-1, rd_buf, w)
  else (0, u16 (Z.lor (Z.shiftl (rbyte msgs 1 0) 8) (rbyte msgs 1 1)), w).

Definition tmp117_reset (w : W) : W := (tmp117_wr_reg TMP117_CONF 0x2 w).2.

(** [junk]: the uninitialised local. *)
Definition tmp117_ds_init (junk : Z) (w : W) : Z * W :=
  let w := tmp117_reset w in
  let '(_, reg_buf, w) := tmp117_rd_reg TMP117_DEV_ID junk w in
  if reg_buf =? 0x117 then (0, w) else (-1, w).

(** The two lines of [tmp117_get_temp] after the read: [int] arithmetic, a
    division that truncates toward zero, and the conversion of the result. *)
Definition tmp117_scale (temp k b : Z) : Z :=
  let temp_reg := Z.shiftr (i32 (i16 temp * 100)) 7 in
  let temp_reg := i32 (Z.quot (i32 (temp_reg * (100000 + k))) 100000 + b) in
  i16 temp_reg.

Definition tmp117_get_temp (junk k b : Z) (w : W) : Z * W :=
  let '(_, temp, w) := tmp117_rd_reg TMP117_TEMP junk w in
  (tmp117_scale temp k b, w).

(** ** drv_ms5837.c *)

Definition pres_i2c_addr : Z := 0x76.
Definition MS5837_CMD_RESET : Z := 0x1E.
Definition MS5837_CMD_CD1_c : Z := 0x48.
Definition MS5837_CMD_CD2_c : Z := 0x58.
Definition MS5837_CMD_RDADC : Z := 0x00.
Definition MS5837_CMD_RDPRM : Z := 0xa0.

Record ms5837_st := mk_ms {
  C : list Z;       (** uint16_t C[7] *)
  D1 : Z; D2 : Z;   (** uint32_t *)
  dT : Z; TEMP : Z; (** int32_t *)
  OFF : Z; SENS : Z;   (** int64_t *)
  P : Z; Ti : Z;       (** int32_t *)
  OFFi : Z; SENSi : Z; (** int64_t *)
  TEMP2 : Z; P2 : Z;   (** int32_t *)
}.

Definition ms5837_cmd (cmd : Z) (w : W) : Z * W :=
  let '(n, _, w) := rt_i2c_transfer [mk_msg pres_i2c_addr RT_I2C_WR 1 [cmd; 0]] w in
  if negb (n =? 1) then (-1, w) else (0, w).

Definition ms5837_reset (w : W) : Z * W := ms5837_cmd MS5837_CMD_RESET w.

Definition ms5837_start_conv (conv_type : Z) (w : W) : Z * W := ms5837_cmd conv_type w.

Definition ms5837_rd_prom (prom_addr rd_buf : Z) (w : W) : Z * Z * W :=
  let '(n, msgs, w) := rt_i2c_transfer
    [mk_msg pres_i2c_addr RT_I2C_WR 1 [u8 (Z.lor MS5837_CMD_RDPRM (Z.shiftl prom_addr 1)); 0];
     mk_msg pres_i2c_addr RT_I2C_RD 2 [0; 0]] w in
  if negb (n =? 2) then (-1, rd_buf, w)
  else (0, u16 (Z.lor (Z.shiftl (rbyte msgs 1 0) 8) (rbyte msgs 1 1)), w).

Definition ms5837_rd_adc (rd_buf : Z) (w : W) : Z * Z * W :=
  let '(n, msgs, w) := rt_i2c_transfer
    [mk_msg pres_i2c_addr RT_I2C_WR 1 [MS5837_CMD_RDADC; 0];
     mk_msg pres_i2c_addr RT_I2C_RD 3 [0; 0; 0]] w in
  if negb (n =? 2) then (-1, rd_buf, w)
  else (0, u32 (Z.lor (Z.lor (Z.shiftl (rbyte msgs 1 0) 16) (Z.shiftl (rbyte msgs 1 1) 8))
                      (rbyte msgs 1 2)), w).

Definition ms5837_get_val (junk conv_mode : Z) (w : W) : Z * W :=
  let '(_, w) := ms5837_start_conv conv_mode w in
  let '(_, conv_data, w) := ms5837_rd_adc junk w in
  (conv_data, w).

Definition update_sensor_raw (junk : Z) (s : ms5837_st) (w : W) : ms5837_st * W :=
  let '(d1, w) := ms5837_get_val junk MS5837_CMD_CD1_c w in
  let '(d2, w) := ms5837_get_val junk MS5837_CMD_CD2_c w in
  (mk_ms (C s) d1 d2 (dT s) (TEMP s) (OFF s) (SENS s) (P s) (Ti s) (OFFi s) (SENSi s)
     (TEMP2 s) (P2 s), w).

(** [ms5337_ds_init]: reset, then the calibration words one by one. *)
Fixpoint rd_prom_loop (n : nat) (i : Z) (c : list Z) (w : W) : list Z * W :=
  match n with
  | O => (c, w)
  | S n => let '(_, v, w) := ms5837_rd_prom i (zget c i) w in rd_prom_loop n (i + 1) (zset c i v) w
  end.

Definition ms5337_ds_init (s : ms5837_st) (w : W) : Z * ms5837_st * W :=
  let '(r, w) := ms5837_reset w in
  if negb (r =? 0) then (-1, s, w)
  else
    let '(c, w) := rd_prom_loop 7 0 (C s) w in
    (0, mk_ms c (D1 s) (D2 s) (dT s) (TEMP s) (OFF s) (SENS s) (P s) (Ti s) (OFFi s) (SENSi s)
          (TEMP2 s) (P2 s), w).

(** ** The compensation *)

(** [if (x < lo) x = lo; else if (x > hi) x = hi;] *)
Definition clamp (lo hi x : Z) : Z := if x <? lo then lo else if x >? hi then hi else x.

Definition calc_1st_ord (s : ms5837_st) : ms5837_st :=
  let c i := zget (C s) i in
  let dT := clamp (-16776960) 16777215 (i32 (u32 (D2 s - Z.shiftl (c 5) 8))) in
  let TEMP := i32 (2000 + Z.shiftr (i64 (dT * c 6)) 23) in
  let OFF := clamp (-17179344900) 25769410560
               (i64 (Z.shiftl (c 2) 16 + Z.shiftr (i64 (dT * c 4)) 7)) in
  let SENS := clamp (-8589672450) 12884705280
                (i64 (Z.shiftl (c 1) 15 + Z.shiftr (i64 (dT * c 3)) 8)) in
  let P := i32 (Z.shiftr (i64 (Z.shiftr (i64 (D1 s * SENS)) 21 - OFF)) 13) in
  mk_ms (C s) (D1 s) (D2 s) dT TEMP OFF SENS P (Ti s) (OFFi s) (SENSi s) (TEMP2 s) (P2 s).

(** [^] is exclusive or, and binds weaker than the shifts. *)
Definition calc_2nd_ord (s : ms5837_st) : ms5837_st :=
  let '(Ti, OFFi, SENSi) :=
    if TEMP s <? 2000 then
      let Ti := i32 (i32 (Z.shiftr (dT s) 16 * Z.shiftr (dT s) 17) * 3) in
      let OFFi := i64 (Z.lxor (3 * (TEMP s - 2000)) (Z.shiftr 2 1)) in
      let SENSi := i64 (Z.lxor (5 * (TEMP s - 2000)) (Z.shiftr 2 3)) in
      if TEMP s <? -15 then
        (Ti, i64 (Z.lxor (OFFi + 7 * (TEMP s + 1500)) 2),
         i64 (Z.lxor (SENSi + (TEMP s + 1500)) (Z.shiftl 2 2)))
      else (Ti, OFFi, SENSi)
    else
      (i32 (Z.shiftr (dT s) 16 * Z.shiftr (dT s) 16),
       i64 (Z.lxor (TEMP s - 2000) (Z.shiftr 2 4)), 0) in
  mk_ms (C s) (D1 s) (D2 s) (dT s) (TEMP s) (OFF s) (SENS s) (P s) Ti OFFi SENSi
    (i32 (TEMP s - Ti))
    (i32 (Z.shiftr (i64 (Z.shiftr (i64 (D1 s * (SENS s - SENSi))) 21 - (OFF s - OFFi))) 13)).

Definition update_ms5837 (junk : Z) (s : ms5837_st) (w : W) : ms5837_st * W :=
  let '(s, w) := update_sensor_raw junk s w in
  (calc_2nd_ord (calc_1st_ord s), w).

Definition ms5837_get_temp (s : ms5837_st) : Z := TEMP s.
Definition ms5837_get_pres (s : ms5837_st) : Z := P s.

End Bus.

(** ** Arithmetic lemmas *)

Lemma wraps_wrapu w x : wraps w (wrapu w x) = wraps w x.
Proof. unfold wraps, wrapu. by rewrite Zplus_mod_idemp_l. Qed.

Lemma clamp_id lo hi x : lo <= x <= hi -> clamp lo hi x = x.
Proof. intros Hx. unfold clamp. case_bool; [lia|]. rewrite Z.gtb_ltb. case_bool; [lia|done]. Qed.

(** A product of a difference and a calibration word. *)
Lemma prod_bound d c :
  -16776960 <= d <= 16777215 -> 0 <= c <= 65535 ->
  -1099478073600 <= d * c <= 1099494785025.
Proof. intros Hd Hc. nia. Qed.

Lemma div_bound lo hi x k : 0 < k -> lo * k <= x <= hi * k -> lo <= x / k <= hi.
Proof.
  intros Hk Hx. split; [apply Z.div_le_lower_bound; lia|].
  apply Z.div_le_upper_bound; lia.
Qed.

(** ** The first-order compensation *)

Definition calibrated (s : ms5837_st) : Prop :=
  (forall i, 0 <= zget (C s) i <= 65535) /\ 0 <= D1 s < 2 ^ 24 /\ 0 <= D2 s < 2 ^ 24.

(** The formulas of the data sheet over the integers. *)
Definition exact_dT (s : ms5837_st) : Z := D2 s - zget (C s) 5 * 2 ^ 8.
Definition exact_TEMP (s : ms5837_st) : Z := 2000 + exact_dT s * zget (C s) 6 / 2 ^ 23.
Definition exact_OFF (s : ms5837_st) : Z := zget (C s) 2 * 2 ^ 16 + exact_dT s * zget (C s) 4 / 2 ^ 7.
Definition exact_SENS (s : ms5837_st) : Z := zget (C s) 1 * 2 ^ 15 + exact_dT s * zget (C s) 3 / 2 ^ 8.
Definition exact_P (s : ms5837_st) : Z :=
  (D1 s * exact_SENS s / 2 ^ 21 - exact_OFF s) / 2 ^ 13.

Lemma exact_bounds s :
  calibrated s ->
  -16776960 <= exact_dT s <= 16777215 /\
  -129070 <= exact_TEMP s <= 133071 /\
  -8589672450 <= exact_OFF s <= 12884705280 /\
  -4294836225 <= exact_SENS s <= 6442352640 /\
  -5767151 <= exact_P s <= 7339906.
Proof.
  intros (Hc & Hd1 & Hd2).
  pose proof (Hc 1) as H1. pose proof (Hc 2) as H2. pose proof (Hc 3) as H3. pose proof (Hc 4) as H4.
  pose proof (Hc 5) as H5. pose proof (Hc 6) as H6.
  assert (-16776960 <= exact_dT s <= 16777215) as HdT by (unfold exact_dT; lia).
  pose proof (prod_bound _ _ HdT H3) as P3. pose proof (prod_bound _ _ HdT H4) as P4.
  pose proof (prod_bound _ _ HdT H6) as P6.
  assert (-131070 <= exact_dT s * zget (C s) 6 / 2 ^ 23 <= 131071) as Q6 by (apply div_bound; lia).
  assert (-8589672450 <= exact_dT s * zget (C s) 4 / 2 ^ 7 <= 8589803009) as Q4 by (apply div_bound; lia).
  assert (-4294836225 <= exact_dT s * zget (C s) 3 / 2 ^ 8 <= 4294901505) as Q3 by (apply div_bound; lia).
  assert (-4294836225 <= exact_SENS s <= 6442352640) as HS by (unfold exact_SENS; lia).
  assert (-8589672450 <= exact_OFF s <= 12884705280) as HO by (unfold exact_OFF; lia).
  split_and!; try (unfold exact_TEMP; lia); try lia.
  all: unfold exact_P.
  all: assert (-4294836225 * 16777215 <= D1 s * exact_SENS s <= 6442352640 * 16777215) as PS by nia.
  all: assert (-34358690000 <= D1 s * exact_SENS s / 2 ^ 21 <= 51538820000) as QS by (apply div_bound; lia).
  - apply Z.div_le_lower_bound; lia.
  - apply Z.div_le_upper_bound; lia.
Qed.

Lemma calc_1st_ord_exact s :
  calibrated s ->
  let s' := calc_1st_ord s in
  dT s' = exact_dT s /\ TEMP s' = exact_TEMP s /\ OFF s' = exact_OFF s /\
  SENS s' = exact_SENS s /\ P s' = exact_P s.
Proof.
  intros Hcal. destruct (exact_bounds s Hcal) as (HdT & HT & HO & HS & HP). destruct Hcal as (Hc & Hd1 & Hd2).
  unfold calc_1st_ord. cbn [dT TEMP OFF SENS P].
  rewrite !Z.shiftl_mul_pow2, wraps_wrapu by lia.
  rewrite (wraps_small 32 (D2 s - _)) by (unfold exact_dT in HdT; lia).
  change (D2 s - zget (C s) 5 * 2 ^ 8) with (exact_dT s). rewrite (clamp_id _ _ (exact_dT s)) by lia.
  pose proof (prod_bound _ _ HdT (Hc 3)). pose proof (prod_bound _ _ HdT (Hc 4)).
  pose proof (prod_bound _ _ HdT (Hc 6)).
  rewrite !Z.shiftr_div_pow2 by lia.
  rewrite (wraps_small 64 (exact_dT s * zget (C s) 6)), (wraps_small 64 (exact_dT s * zget (C s) 4)),
    (wraps_small 64 (exact_dT s * zget (C s) 3)) by lia.
  change (zget (C s) 2 * 2 ^ 16 + exact_dT s * zget (C s) 4 / 2 ^ 7) with (exact_OFF s).
  change (zget (C s) 1 * 2 ^ 15 + exact_dT s * zget (C s) 3 / 2 ^ 8) with (exact_SENS s).
  change (2000 + exact_dT s * zget (C s) 6 / 2 ^ 23) with (exact_TEMP s).
  rewrite (wraps_small 64 (exact_OFF s)), (wraps_small 64 (exact_SENS s)), (wraps_small 32 (exact_TEMP s)) by lia.
  rewrite !clamp_id by lia.
  assert (-4294836225 * 16777215 <= D1 s * exact_SENS s <= 6442352640 * 16777215) as PS by nia.
  rewrite (wraps_small 64 (D1 s * exact_SENS s)) by lia.
  assert (-34358690000 <= D1 s * exact_SENS s / 2 ^ 21 <= 51538820000) as QS by (apply div_bound; lia).
  rewrite (wraps_small 64 (_ / _ - _)) by lia. rewrite (wraps_small 32 (_ / _)) by (unfold exact_P in HP; lia).
  done.
Qed.

(** ** The temperature sensor *)

Lemma tmp117_scale_exact temp k b :
  -7040 <= i16 temp <= 19200 -> -32768 <= k <= 32767 -> -25000 <= b <= 12800 ->
  tmp117_scale temp k b = Z.quot (i16 temp * 100 / 128 * (100000 + k)) 100000 + b /\
  -32768 <= tmp117_scale temp k b <= 32767.
Proof.
  intros Ht Hk Hb. unfold tmp117_scale. rewrite (wraps_small 32 (i16 temp * 100)) by lia.
  rewrite Z.shiftr_div_pow2 by lia. change (2 ^ 7) with 128.
  assert (-5500 <= i16 temp * 100 / 128 <= 15000) as Hd by (apply div_bound; lia).
  revert Hd. generalize (i16 temp * 100 / 128) as d. intros d Hd.
  assert (-5500 * 132767 <= d * (100000 + k) <= 15000 * 132767) as Hp by nia.
  rewrite (wraps_small 32 (d * (100000 + k))) by lia.
  assert (-7303 <= Z.quot (d * (100000 + k)) 100000 <= 19915) as Hq.
  { Z.to_euclidean_division_equations. lia. }
  rewrite (wraps_small 32) by lia. rewrite (wraps_small 16) by lia. lia.
Qed.

(** ** Theorems *)

(** C39. For every PROM content and every pair of 24-bit raw readings, the
    32- and 64-bit arithmetic of calc_1st_ord does not overflow, none of its
    clamps applies, and the reported temperature and pressure are the data
    sheet's first-order formulas over the integers; the second-order step
    does not change them. *)
Theorem ms5837_reports_datasheet_formula s :
  calibrated s ->
  let s' := calc_2nd_ord (calc_1st_ord s) in
  ms5837_get_temp s' = exact_TEMP s /\ ms5837_get_pres s' = exact_P s /\
  -129070 <= exact_TEMP s <= 133071 /\ -5767151 <= exact_P s <= 7339906.
Proof.
  intros Hcal. destruct (calc_1st_ord_exact s Hcal) as (_ & HT & _ & _ & HP).
  destruct (exact_bounds s Hcal) as (_ & HbT & _ & _ & HbP).
  unfold ms5837_get_temp, ms5837_get_pres, calc_2nd_ord.
  destruct (if TEMP (calc_1st_ord s) <? 2000 then _ else _) as [[ti offi] sensi]. done.
Qed.

(** The example of the data sheet. *)
Definition sample_ms5837 : ms5837_st :=
  mk_ms [0; 34982; 36352; 20328; 22354; 26646; 26146] 4958179 6815414 0 0 0 0 0 0 0 0 0 0.

Lemma ms5837_reports_datasheet_formula_witness :
  let s' := calc_2nd_ord (calc_1st_ord sample_ms5837) in
  ms5837_get_temp s' = 1981 /\ ms5837_get_pres s' = exact_P sample_ms5837.
Proof.
  destruct (ms5837_reports_datasheet_formula sample_ms5837) as (H1 & H2 & _).
  - split; [|split; vm_compute; split; (reflexivity || discriminate)].
    intros i. apply (Forall_zget (fun v => 0 <= v <= 65535)); [by_computation|lia].
  - split; [rewrite H1; vm_compute; reflexivity|exact H2].
Defined.

(** The second-order correction, in which [^] stands where a square is meant:
    at 30 degrees the data sheet subtracts (1000 * 1000) >> 4 = 62500 from OFF,
    the code 1000. *)
Fact second_order_uses_xor s :
  TEMP s = 3000 -> OFFi (calc_2nd_ord s) = 1000.
Proof. intros HT. unfold calc_2nd_ord. by rewrite HT. Qed.

(** For every reading from -55 to 150 degrees and every calibration in
    range, the 32-bit arithmetic of tmp117_get_temp does not overflow: the
    result is the reading in hundredths of a degree, scaled and shifted by
    the calibration, and fits 16 bits. *)
Theorem tmp117_temperature_exact temp k b :
  -7040 <= i16 temp <= 19200 -> -32768 <= k <= 32767 -> -25000 <= b <= 12800 ->
  tmp117_scale temp k b = Z.quot (i16 temp * 100 / 128 * (100000 + k)) 100000 + b /\
  -32768 <= tmp117_scale temp k b <= 32767.
Proof. apply tmp117_scale_exact. Qed.

Lemma tmp117_temperature_exact_witness : tmp117_scale 0xf380 1000 (-5) = -2530 /\ i16 0xf380 = -3200.
Proof.
  destruct (tmp117_temperature_exact 0xf380 1000 (-5)) as [H _].
  - vm_compute. split; discriminate.
  - lia.
  - lia.
  - split; [rewrite H; vm_compute; reflexivity|vm_compute; reflexivity].
Defined.

(** Reading a register over a bus that transfers everything returns the two bytes
    the device sent, most significant first; a failed transfer leaves the
    caller's variable as it was, and its result is ignored by the callers. *)
Section Protocol.

Context {W : Type} (xfer : list rt_i2c_msg -> W -> Z * list rt_i2c_msg * W).

Lemma tmp117_rd_reg_spec addr old w n msgs w' :
  xfer [mk_msg tmp_i2c_addr RT_I2C_WR 1 [addr; 0]; mk_msg tmp_i2c_addr RT_I2C_RD 2 [0; 0]] w
    = (n, msgs, w') ->
  (n <> 2 -> tmp117_rd_reg xfer addr old w = (-1, old, w')) /\
  (forall a m hi lo, n = 2 -> msgs = [a; m] -> m_buf m = [hi; lo] -> byte hi -> byte lo ->
    tmp117_rd_reg xfer addr old w = (0, 256 * hi + lo, w')).
Proof.
  intros E. unfold tmp117_rd_reg. rewrite E. split.
  - intros Hn. case_bool; [done|]. done.
  - intros a m hi lo -> -> Hm Hh Hl. cbn [negb Z.eqb Pos.eqb]. unfold rbyte. cbn [lookup list_lookup].
    rewrite Hm. cbn [nth]. change (Z.lor (Z.shiftl hi 8) lo) with (pack hi lo).
    rewrite (pack_u16 hi lo) by done. by rewrite pack_add.
Qed.

(** Writing a register puts only the register number on the bus. *)
Lemma tmp117_wr_reg_len addr cmd w :
  exists m, tmp117_wr_reg xfer addr cmd w =
    (let '(n, _, w) := xfer [m] w in if negb (n =? 1) then (-1, w) else (0, w)) /\ m_len m = 1.
Proof. by eexists. Qed.

End Protocol.

End Sensors.
