(* ===== verification/Calib.v ===== *)
(** * Calibration data and the register file

    [drv/drv_flash.c] (the calibration pair kept in the last flash page),
    [sys_conf.h] (the status bit field), [drv/bit_op.c] and the part of
    [port/user_mb_app.c] that fills the holding registers.  The flash controller
    is a parameter, the class [FlashHal], with its documented behaviour as
    [FlashLaws]: erasing sets the page to ones, programming an erased word
    stores the value, and no other word changes. *)

From S2P Require Import Prelude ModbusCrc ModbusRtu ModbusFunc Sensors ModbusSlave.
Import ModbusCrc ModbusRtu ModbusFunc Sensors ModbusSlave.

Module Calib.

(** ** The flash controller *)

Definition FLASH_USER_START_ADDR : Z := 0x0800f000.
Definition FLASH_PAGE_SIZE : Z := 0x400.
Definition PROG_FLAG : Z := 0x9bdf1bdf.

Class FlashHal (F : Type) := {
  HAL_FLASHEx_Erase : F -> F * bool;             (** [true] is HAL_OK *)
  HAL_FLASH_Program : Z -> Z -> F -> F * bool;   (** a word *)
  flash_word : F -> Z -> Z;
}.

Definition in_page (a : Z) : Prop :=
  FLASH_USER_START_ADDR <= a < FLASH_USER_START_ADDR + FLASH_PAGE_SIZE.

Class FlashLaws (F : Type) {H : FlashHal F} : Prop := {
  erase_ones (f f' : F) a :
    HAL_FLASHEx_Erase f = (f', true) -> in_page a -> flash_word f' a = 0xffffffff;
  program_word (f f' : F) a v :
    in_page a -> 0 <= v < 2 ^ 32 -> flash_word f a = 0xffffffff ->
    HAL_FLASH_Program a v f = (f', true) -> flash_word f' a = v;
  program_other (f f' : F) a v ok b :
    HAL_FLASH_Program a v f = (f', ok) -> b <> a -> flash_word f' b = flash_word f b;
}.

(** ** sys_conf.h and bit_op.c *)

(** The bit field of [conf_un]: [v] stored into [width] bits from [off]. *)
Definition put_field (off width v w : Z) : Z :=
  Z.lor (Z.land w (Z.lnot (Z.shiftl (Z.ones width) off)))
        (Z.shiftl (Z.land v (Z.ones width)) off).

Definition set_mbs (v w : Z) : Z := put_field 0 1 v w.
Definition set_ms5837 (v w : Z) : Z := put_field 1 1 v w.
Definition set_tmp117 (v w : Z) : Z := put_field 2 1 v w.
Definition set_prog (v w : Z) : Z := put_field 3 1 v w.
Definition set_addr_fsm (v w : Z) : Z := put_field 4 4 v w.
Definition get_addr_fsm (w : Z) : Z := Z.land (Z.shiftr w 4) (Z.ones 4).

Definition bit_op_set (data offset option : Z) : Z :=
  if negb (option =? 0) then u16 (Z.lor data (Z.shiftl 1 offset))
  else u16 (Z.land data (Z.lnot (Z.shiftl 1 offset))).

Definition bit_op_get (data offset : Z) : Z :=
  if negb (Z.land data (Z.shiftl 1 offset) =? 0) then 1 else 0.

(** ** drv_flash.c *)

Section Flash.

Context {F : Type} {H : FlashHal F}.

Definition iflash_rd_val (offset : Z) (f : F) : Z :=
  u32 (flash_word f (FLASH_USER_START_ADDR + Z.shiftl offset 2)).

(** The loop over [timeout]: at most ten attempts. *)
Fixpoint erase_loop (n : nat) (f : F) : F * bool :=
  match n with
  | O => (f, false)
  | S n => let '(f, ok) := HAL_FLASHEx_Erase f in if ok : bool then (f, true) else erase_loop n f
  end.

Definition iflash_wr_val (offset wr_data : Z) (f : F) : Z * F :=
  let '(f, erased) := erase_loop 10 f in
  if erased : bool then
    let '(f, _) := HAL_FLASH_Program FLASH_USER_START_ADDR PROG_FLAG f in
    let '(f, ok) := HAL_FLASH_Program (FLASH_USER_START_ADDR + Z.shiftl offset 2) wr_data f in
    ((if ok : bool then 0 else -1), f)
  else (-1, f).

Definition get_program_flag (f : F) : Z := if iflash_rd_val 0 f =? PROG_FLAG then 0 else -1.

Definition rd_calc_data (f : F) : Z := iflash_rd_val 1 f.

Definition wr_calc_data (start_dat end_dat : Z) (f : F) : Z * F :=
  let buf := Z.lor (u32 (Z.shiftl (u32 start_dat) 16)) (Z.land (u32 end_dat) 0xffff) in
  let '(r, f) := iflash_wr_val 1 buf f in
  ((if r =? 0 then 0 else -1), f).

(** [junk]: the uninitialised result variable. *)
Definition iflash_init (junk bm : Z) (f : F) : Z * Z * F :=
  if get_program_flag f =? 0 then (junk, set_prog 1 bm, f)
  else let '(r, f) := wr_calc_data 0 0 f in (r, set_prog 0 bm, f).

(** ** user_mb_app.c *)

Definition SOFT_VER : Z := 0x0105.

Definition mbs_sts_init (addr : Z) (f : F) (regs : list Z) : list Z :=
  let regs := zset regs MBS_REG_CNT MAX_IND in
  let regs := zset regs SOFT_VER_IND SOFT_VER in
  let regs := zset regs MBS_ADDR_IND addr in
  let regs := zset regs CALC_K_IND (u16 (Z.shiftr (rd_calc_data f) 16)) in
  zset regs CALC_B_IND (u16 (Z.land (rd_calc_data f) 0xffff)).

End Flash.

Section Update.

Context {W : Type} (xfer : list rt_i2c_msg -> W -> Z * list rt_i2c_msg * W).

(** [j1], [j2]: uninitialised locals of the drivers. *)
Definition mbs_sts_update (j1 j2 bm : Z) (ms : ms5837_st) (regs : list Z) (w : W)
  : ms5837_st * list Z * W :=
  let '(ms, w) := update_ms5837 xfer j1 ms w in
  let regs := zset regs MBS_STATUS_IND bm in
  let regs := zset regs MS5837_LTEMP_IND (u16 (Z.land (ms5837_get_temp ms) 0xffff)) in
  let regs := zset regs MS5837_LPRES_IND (u16 (Z.land (ms5837_get_pres ms) 0xffff)) in
  let '(t, w) := tmp117_get_temp xfer j2 (i16 (zget regs CALC_K_IND)) (i16 (zget regs CALC_B_IND)) w in
  (ms, zset regs TMP117_TEMP_IND (u16 t), w).

End Update.

(** ** Lemmas *)

Lemma word_u16 x : word (u16 x).
Proof. apply (wrapu_range 16). lia. Qed.

Lemma u16_i16 v : word v -> u16 (i16 v) = v.
Proof.
  intros Hv. unfold word in Hv. destruct (wraps_cong 16 v ltac:(lia)) as [k ->].
  rewrite wrapu_add_mul. apply wrapu_small. lia.
Qed.

Lemma regs_ok_zset regs i v : regs_ok regs -> word v -> regs_ok (zset regs i v).
Proof.
  intros [Hl Hw] Hv. split; [by rewrite zlen_zset|]. by apply Forall_insert.
Qed.

Lemma calib_word k b :
  let buf := Z.lor (u32 (Z.shiftl (u32 k) 16)) (Z.land (u32 b) 0xffff) in
  0 <= buf < 2 ^ 32 /\ u16 (Z.shiftr buf 16) = u16 k /\ u16 (Z.land buf 0xffff) = u16 b.
Proof.
  intros buf.
  assert (buf = 65536 * u16 k + u16 b) as ->.
  { unfold buf. rewrite Z.shiftl_mul_pow2 by lia. change 0xffff with (Z.ones 16).
    rewrite Z.land_ones by lia.
    replace (u32 (u32 k * 2 ^ 16)) with (Z.shiftl (u16 k) 16).
    2:{ rewrite Z.shiftl_mul_pow2 by lia. unfold wrapu.
        rewrite Z.mul_mod_idemp_l by lia. change (2 ^ 32) with (2 ^ 16 * 2 ^ 16).
        rewrite Z.mul_mod_distr_r by lia. done. }
    replace (u32 b mod 2 ^ 16) with (u16 b).
    2:{ unfold wrapu. change (2 ^ 32) with (2 ^ 16 * 2 ^ 16).
        rewrite Z.rem_mul_r by lia. rewrite Z.mul_comm, Z_mod_plus_full. by rewrite Z.mod_mod by lia. }
    rewrite <- Z.lxor_lor, <- Z.add_nocarry_lxor; rewrite ?Z.shiftl_mul_pow2 by lia; try lia.
    all: rewrite <- Z.shiftl_mul_pow2 by lia.
    all: apply Z.bits_inj'; intros n Hn; rewrite Z.land_spec, Z.bits_0.
    all: destruct (decide (n < 16)); [by rewrite Z.shiftl_spec_low by lia|].
    all: unfold wrapu at 2; rewrite Z.mod_pow2_bits_high by lia; apply andb_false_r. }
  pose proof (word_u16 k) as Hk. pose proof (word_u16 b) as Hb. unfold word in *.
  split; [lia|]. change 0xffff with (Z.ones 16). rewrite Z.land_ones, Z.shiftr_div_pow2 by lia.
  change (2 ^ 16) with 65536. split.
  - replace ((65536 * u16 k + u16 b) / 65536) with (u16 k) by zlia. by rewrite wrapu_wrapu by lia.
  - replace ((65536 * u16 k + u16 b) mod 65536) with (u16 b) by zlia. by rewrite wrapu_wrapu by lia.
Qed.

Section FlashProofs.

Context {F : Type} {H : FlashHal F} {L : FlashLaws F}.

Lemma erase_loop_ok n (f f' : F) a :
  erase_loop n f = (f', true) -> in_page a -> flash_word f' a = 0xffffffff.
Proof.
  revert f. induction n as [|n IH]; intros f E Ha; cbn [erase_loop] in E; [done|].
  destruct (HAL_FLASHEx_Erase f) as [f1 [|]] eqn:Ee.
  - injection E as <-. by eapply erase_ones.
  - by eapply IH.
Qed.

Lemma wr_calc_data_ok k b (f f' : F) :
  wr_calc_data k b f = (0, f') ->
  u16 (Z.shiftr (rd_calc_data f') 16) = u16 k /\ u16 (Z.land (rd_calc_data f') 0xffff) = u16 b.
Proof.
  unfold wr_calc_data, iflash_wr_val. destruct (calib_word k b) as (Hr & Hk & Hb).
  set (buf := Z.lor _ _) in *. destruct (erase_loop 10 f) as [f1 [|]] eqn:Ee; [|done].
  destruct (HAL_FLASH_Program FLASH_USER_START_ADDR PROG_FLAG f1) as [f2 ok1] eqn:E1.
  destruct (HAL_FLASH_Program (FLASH_USER_START_ADDR + Z.shiftl 1 2) buf f2) as [f3 [|]] eqn:E2; [|done].
  cbn [Z.eqb]. intros [= <-]. unfold rd_calc_data, iflash_rd_val.
  assert (in_page (FLASH_USER_START_ADDR + Z.shiftl 1 2)) as Hp by (vm_compute; split; [discriminate|reflexivity]).
  rewrite (program_word f2 f3 _ buf Hp Hr); [|rewrite (program_other _ _ _ _ _ _ E1);
    [by eapply erase_loop_ok|vm_compute; discriminate]|done].
  rewrite (wrapu_small 32) by lia. done.
Qed.

End FlashProofs.

(** Reading back the registers that were set. *)
Lemma zget_zset_12 regs i v j :
  zlen regs = 12 -> 0 <= i < 12 -> 0 <= j -> zget (zset regs i v) j = if i =? j then v else zget regs j.
Proof. intros Hl Hi Hj. apply zget_zset; lia. Qed.

Ltac read_regs :=
  repeat (rewrite zget_zset_12 by (rewrite ?zlen_zset; (assumption || lia));
          cbn [Z.eqb Pos.eqb]; try reflexivity).

Section AppProofs.

Context {W : Type} (xfer : list rt_i2c_msg -> W -> Z * list rt_i2c_msg * W).

Lemma mbs_sts_update_spec j1 j2 bm ms regs w :
  regs_ok regs -> word bm ->
  exists ms' t regs' w', mbs_sts_update xfer j1 j2 bm ms regs w = (ms', regs', w') /\
    regs_ok regs' /\
    ms' = (update_ms5837 xfer j1 ms w).1 /\
    t = (tmp117_get_temp xfer j2 (i16 (zget regs CALC_K_IND)) (i16 (zget regs CALC_B_IND))
           (update_ms5837 xfer j1 ms w).2).1 /\
    forall i, 0 <= i < 12 ->
      zget regs' i =
        if i =? MBS_STATUS_IND then bm
        else if i =? TMP117_TEMP_IND then u16 t
        else if i =? MS5837_LTEMP_IND then u16 (ms5837_get_temp ms')
        else if i =? MS5837_LPRES_IND then u16 (ms5837_get_pres ms')
        else zget regs i.
Proof.
  intros Hr Hbm. unfold mbs_sts_update. destruct (update_ms5837 xfer j1 ms w) as [ms' w1]. cbn [fst snd].
  assert (forall x, u16 (Z.land x 0xffff) = u16 x) as Hm.
  { intros x. change 0xffff with (Z.ones 16). rewrite Z.land_ones by lia. unfold wrapu. apply Z.mod_mod. lia. }
  rewrite !Hm. set (r1 := zset (zset (zset regs _ _) _ _) _ _).
  pose proof Hr as [Hl _].
  assert (regs_ok r1) as Hr1 by (repeat apply regs_ok_zset; try done; apply word_u16).
  assert (zget r1 CALC_K_IND = zget regs CALC_K_IND) as ->.
  { unfold r1, MBS_STATUS_IND, MS5837_LTEMP_IND, MS5837_LPRES_IND, CALC_K_IND. read_regs. }
  assert (zget r1 CALC_B_IND = zget regs CALC_B_IND) as ->.
  { unfold r1, MBS_STATUS_IND, MS5837_LTEMP_IND, MS5837_LPRES_IND, CALC_B_IND. read_regs. }
  destruct (tmp117_get_temp xfer j2 _ _ w1) as [t w2].
  exists ms', t, (zset r1 TMP117_TEMP_IND (u16 t)), w2. split; [done|].
  split; [apply regs_ok_zset; [done|apply word_u16]|]. split; [done|]. split; [done|].
  intros i Hi. unfold r1, MBS_STATUS_IND, TMP117_TEMP_IND, MS5837_LTEMP_IND, MS5837_LPRES_IND.
  rewrite !zget_zset_12 by (rewrite ?zlen_zset; (assumption || lia)).
  rewrite !(Z.eqb_sym i). do 4 (case_bool; try lia); done.
Qed.

End AppProofs.

(** ** Theorems *)

(** mbs_sts_update refreshes exactly four holding registers: the status
    word, the low halves of the MS5837's temperature and pressure as just
    measured, and the TMP117's temperature with the calibration that the
    registers hold; the others are unchanged and all stay 16-bit values. *)
Theorem registers_show_measurements {W} (xfer : list rt_i2c_msg -> W -> Z * list rt_i2c_msg * W)
  j1 j2 bm ms regs w :
  regs_ok regs -> word bm ->
  exists ms' t regs' w', mbs_sts_update xfer j1 j2 bm ms regs w = (ms', regs', w') /\
    regs_ok regs' /\
    ms' = (update_ms5837 xfer j1 ms w).1 /\
    t = (tmp117_get_temp xfer j2 (i16 (zget regs CALC_K_IND)) (i16 (zget regs CALC_B_IND))
           (update_ms5837 xfer j1 ms w).2).1 /\
    forall i, 0 <= i < 12 ->
      zget regs' i =
        if i =? MBS_STATUS_IND then bm
        else if i =? TMP117_TEMP_IND then u16 t
        else if i =? MS5837_LTEMP_IND then u16 (ms5837_get_temp ms')
        else if i =? MS5837_LPRES_IND then u16 (ms5837_get_pres ms')
        else zget regs i.
Proof. apply mbs_sts_update_spec. Qed.

(** A bus that answers every message with the bytes [0x0c; 0x80; 0]. *)
Definition echo_bus (l : list rt_i2c_msg) (w : nat) : Z * list rt_i2c_msg * nat :=
  (zlen l, (fun m => mk_msg (m_addr m) (m_flags m) (m_len m) [0x0c; 0x80; 0]) <$> l, S w).

Lemma registers_show_measurements_witness :
  exists ms' regs' w',
    mbs_sts_update echo_bus 0 0 6 sample_ms5837 (replicate 12 0) 0%nat = (ms', regs', w') /\
    zget regs' TMP117_TEMP_IND = 2500 /\ zget regs' MBS_STATUS_IND = 6 /\ zget regs' MBS_ADDR_IND = 0.
Proof.
  destruct (registers_show_measurements echo_bus 0 0 6 sample_ms5837 (replicate 12 0) 0%nat)
    as (ms' & t & regs' & w' & E & _ & _ & Ht & Hz).
  - split; [vm_compute; reflexivity|]. by_computation.
  - by_computation.
  - exists ms', regs', w'. split; [exact E|].
    rewrite !Hz by (vm_compute; split; [discriminate|reflexivity]). rewrite Ht.
    split; [vm_compute; reflexivity|]. split; vm_compute; reflexivity.
Defined.

(** C22. When a register write that includes the calibration has been saved
    by wr_calc_data (the flash operations reporting success and the
    programmed flag in place), a restart restores it: iflash_init leaves the
    page alone and mbs_sts_init puts the same two values back into the
    registers. *)
Theorem calibration_survives_restart {F} {H : FlashHal F} {L : FlashLaws F}
  a vs regs regs' k b (f f' : F) junk bm addr fresh :
  regs_ok regs -> 0 <= a -> a + zlen vs <= 12 -> Forall word vs ->
  spec_write a vs regs = (regs', [(k, b)]) -> wr_calc_data k b f = (0, f') ->
  get_program_flag f' = 0 -> zlen fresh = 12 ->
  let '(_, bm', f2) := iflash_init junk bm f' in
  let r := mbs_sts_init addr f2 fresh in
  bm' = set_prog 1 bm /\
  zget r CALC_K_IND = zget regs' CALC_K_IND /\ zget r CALC_B_IND = zget regs' CALC_B_IND /\
  zget r MBS_REG_CNT = MAX_IND /\ zget r MBS_ADDR_IND = addr /\ zget r SOFT_VER_IND = SOFT_VER.
Proof.
  intros Hr Ha Hs Hv Hw Hf Hp Hl. unfold iflash_init. rewrite Hp. cbn [Z.eqb]. destruct (wr_calc_data_ok k b f f' Hf) as [Hk Hb].
  pose proof (spec_write_ok a vs regs Hr Ha Hs Hv) as [Hl' Hw']. rewrite Hw in Hl', Hw'.
  unfold spec_write in Hw. cbn [fst] in *. injection Hw as <- Hsv.
  destruct ((a <=? CALC_B_IND) && (CALC_B_IND <? a + zlen vs)); [|done]. injection Hsv as <- <-.
  rewrite u16_i16 in Hk, Hb by (apply (Forall_zget word); [done|unfold word; lia]).
  unfold mbs_sts_init. rewrite Hk, Hb.
  unfold CALC_K_IND, CALC_B_IND, MBS_REG_CNT, MBS_ADDR_IND, SOFT_VER_IND.
  split_and!; [done|read_regs..].
Qed.

(** A flash page as a function from addresses to words. *)
#[global] Instance simple_flash : FlashHal (Z -> Z) := {
  HAL_FLASHEx_Erase := fun f =>
    (fun a => if (FLASH_USER_START_ADDR <=? a) && (a <? FLASH_USER_START_ADDR + FLASH_PAGE_SIZE)
              then 0xffffffff else f a, true);
  HAL_FLASH_Program := fun a v f =>
    if f a =? 0xffffffff then (fun b => if b =? a then v else f b, true) else (f, false);
  flash_word := fun f a => f a;
}.

#[global] Instance simple_flash_laws : FlashLaws (Z -> Z).
Proof.
  constructor; cbn.
  - intros f f' a [= <-] Ha. unfold in_page in Ha. case_bool; [|lia]. by case_bool; [|lia].
  - intros f f' a v _ _ -> [= <-]. by rewrite Z.eqb_refl.
  - intros f f' a v ok b E Hb. destruct (f a =? _); injection E as <- _; [|done].
    by case_bool.
Qed.

Lemma calibration_survives_restart_witness :
  let regs := replicate 12 0 in
  let f' := (wr_calc_data 100 (-7) (fun _ => 0)).2 in
  zget (mbs_sts_init 3 f' regs) CALC_K_IND = 100 /\ zget (mbs_sts_init 3 f' regs) CALC_B_IND = 0xfff9.
Proof.
  intros regs f'.
  destruct (calibration_survives_restart 4 [100; 0xfff9] regs
    [0; 0; 0; 0; 100; 0xfff9; 0; 0; 0; 0; 0; 0] 100 (-7) (fun _ => 0) f' 0 0 3 regs) as (_ & H1 & H2 & _).
  - split; [vm_compute; reflexivity|]. by_computation.
  - lia.
  - vm_compute. discriminate.
  - by_computation.
  - vm_compute. reflexivity.
  - reflexivity.
  - vm_compute. reflexivity.
  - vm_compute. reflexivity.
  - split; [exact H1|exact H2].
Defined.

(** The status bits are independent of each other. *)
Lemma put_field_testbit off width v w i :
  0 <= off -> 0 <= width -> 0 <= i ->
  Z.testbit (put_field off width v w) i =
  if (off <=? i) && (i <? off + width) then Z.testbit v (i - off) else Z.testbit w i.
Proof.
  intros Ho Hw Hi. unfold put_field. rewrite Z.lor_spec, Z.land_spec, Z.lnot_spec by lia.
  rewrite !Z.shiftl_spec, Z.land_spec by lia.
  destruct (Z.leb_spec off i); cbn [andb].
  - destruct (Z.ltb_spec i (off + width)).
    + rewrite Z.ones_spec_low by lia. cbn [negb]. by rewrite andb_false_r, andb_true_r.
    + rewrite Z.ones_spec_high by lia. cbn [negb]. by rewrite andb_false_r, orb_false_r, andb_true_r.
  - rewrite !(Z.testbit_neg_r _ (i - off)) by lia. cbn [negb andb]. by rewrite orb_false_r, andb_true_r.
Qed.

End Calib.
