(* ===== verification/AutoAddr.v ===== *)
(** * Automatic addressing

    [drv/drv_autoaddr.c]: the boards of a string are daisy-chained with two
    wires.  A board that has an address pushes the next one to its lower
    neighbour bit by bit; the neighbour acknowledges by pulling the data line low
    during the seventh bit.  The first board of the string finds both upper pins
    low and takes address 1.

    The data wire joins [DOWN_O] of the upper board and [UP_I] of the lower, the
    clock wire [DOWN_I] and [UP_O].  The upper board drives open drain, so a
    released line reads 1 unless the lower board drives it. *)

From S2P Require Import Prelude ModbusCrc Sensors Calib ModbusSlave.
Import ModbusCrc Sensors Calib ModbusSlave.

Module AutoAddr.

(** ** Data *)

Definition FSM_INIT : Z := 0x0.
Definition FSM_PREP : Z := 0x1.
Definition FSM_SYNC : Z := 0x2.
Definition FSM_PUSH : Z := 0x3.
Definition FSM_SUCC : Z := 0x4.

(** [autoaddr_st] (all uint8_t), and what the board does with [UP_I]: [None] is
    an input with pull-up, [Some v] an output driving [v]. *)
Record autoaddr_st := mk_aa {
  sr : Z; rxd : Z; txd : Z; cnt : Z; fsm : Z; auto_addr : Z;
  up_i : option Z;
  irq_on : bool;          (** interrupt on [UP_O] enabled *)
}.

Definition set_fsm (x : Z) (s : autoaddr_st) : autoaddr_st :=
  mk_aa (sr s) (rxd s) (txd s) (cnt s) x (auto_addr s) (up_i s) (irq_on s).
Definition set_txd (x : Z) (s : autoaddr_st) : autoaddr_st :=
  mk_aa (sr s) (rxd s) x (cnt s) (fsm s) (auto_addr s) (up_i s) (irq_on s).
Definition set_up_i (x : option Z) (s : autoaddr_st) : autoaddr_st :=
  mk_aa (sr s) (rxd s) (txd s) (cnt s) (fsm s) (auto_addr s) x (irq_on s).

(** ** Operations *)

Definition last_timer_cb (s : autoaddr_st) : autoaddr_st := set_up_i None s.

(** The interrupt on the falling clock edge; [line] is the level of the data
    wire with [UP_I] switched to input. *)
Definition autoaddr_rx_cb (line : Z) (s : autoaddr_st) : autoaddr_st :=
  let sr1 := if line =? 0 then u8 (Z.shiftl (sr s) 1) else u8 (Z.shiftl (sr s) 1 + 1) in
  let cnt1 := u8 (cnt s + 1) in
  if 8 <=? cnt1 then
    mk_aa 0 (u8 (Z.shiftr sr1 2)) (txd s) 0 (fsm s) (auto_addr s) (Some 1) (irq_on s)
  else if cnt1 =? 7 then
    mk_aa sr1 (rxd s) (txd s) cnt1 (fsm s) (auto_addr s) (Some 0) (irq_on s)
  else mk_aa sr1 (rxd s) (txd s) cnt1 (fsm s) (auto_addr s) None (irq_on s).

(** The level of the data wire when the upper board puts out [bit]. *)
Definition wire (bit : Z) (peer : option autoaddr_st) : Z :=
  match peer with
  | Some p => match up_i p with Some v => Z.land bit v | None => bit end
  | None => bit
  end.

(** One bit of [autoaddr_tx]: data, falling clock edge (which interrupts the
    lower board), and the data wire read back a millisecond later.  [late]: the
    lower board's [last_timer] has expired since the previous bit. *)
Definition tx_bit (bit : Z) (late : bool) (peer : option autoaddr_st) : Z * option autoaddr_st :=
  let peer := (fun p => if late then last_timer_cb p else p) <$> peer in
  let peer := (fun p => if irq_on p then autoaddr_rx_cb bit p else p) <$> peer in
  (wire bit peer, peer).

Fixpoint tx_loop (i : Z) (temp tx_buf : Z) (lates : list bool) (peer : option autoaddr_st)
  : Z * option autoaddr_st :=
  match lates with
  | [] => (tx_buf, peer)
  | late :: lates =>
      let '(ret, peer) := tx_bit (Z.land (Z.shiftr temp (7 - i)) 1) late peer in
      tx_loop (i + 1) temp (u8 (Z.lor (Z.shiftl tx_buf 1) ret)) lates peer
  end.

(** [lates] has one entry for each of the eight bits. *)
Definition autoaddr_tx (data : Z) (lates : list bool) (s : autoaddr_st) (peer : option autoaddr_st)
  : autoaddr_st * option autoaddr_st :=
  let temp := u8 (Z.lor (Z.shiftl data 2) 0x03) in
  let '(tx_buf, peer) := tx_loop 0 temp 0 lates peer in
  (set_txd tx_buf s, peer).

Definition addr_init (s : autoaddr_st) : autoaddr_st := mk_aa 0 0 0 0 FSM_INIT 0 None true.

(** One pass through the loop of [autoaddr_thread_entry]; [upi], [upo] are the
    levels read in FSM_PREP. *)
Definition autoaddr_step (upi upo : Z) (lates : list bool) (s : autoaddr_st) (peer : option autoaddr_st)
  : autoaddr_st * option autoaddr_st :=
  if fsm s =? FSM_INIT then (set_fsm FSM_PREP s, peer)
  else if fsm s =? FSM_PREP then
    if (upi =? 0) && (upo =? 0)
    then (mk_aa (sr s) (rxd s) (txd s) (cnt s) FSM_PUSH 1 (up_i s) false, peer)
    else (set_fsm FSM_SYNC s, peer)
  else if fsm s =? FSM_SYNC then
    if negb (rxd s =? 0)
    then (mk_aa (sr s) (rxd s) (txd s) (cnt s) FSM_PUSH (rxd s) (up_i s) false, peer)
    else (mk_aa 0 0 (txd s) 0 FSM_SYNC (auto_addr s) (up_i s) (irq_on s), peer)
  else if fsm s =? FSM_PUSH then
    let '(s, peer) := autoaddr_tx (u8 (auto_addr s + 1)) lates s peer in
    if negb (Z.land (txd s) 0x03 =? 0x01) then (set_fsm FSM_PUSH s, peer)
    else (set_fsm FSM_SUCC s, peer)
  else if fsm s =? FSM_SUCC then autoaddr_tx (u8 (auto_addr s + 1)) lates s peer
  else (mk_aa (sr s) (rxd s) (txd s) (cnt s) FSM_INIT 0 (up_i s) (irq_on s), peer).

Definition drv_autoaddr_get_addr (s : autoaddr_st) : Z := auto_addr s.
Definition drv_autoaddr_get_fsm (s : autoaddr_st) : Z := fsm s.

(** The end of the pass: [conf_inst.bm_field.addr_fsm]. *)
Definition publish_fsm (s : autoaddr_st) (bm : Z) : Z := set_addr_fsm (fsm s) bm.

(** ** One transmission *)

(** The timer does not matter: the interrupt takes the pin back anyway. *)
Lemma tx_bit_late bit late p :
  irq_on p = true -> tx_bit bit late (Some p) = tx_bit bit false (Some p).
Proof. intros Hi. destruct late; [|done]. unfold tx_bit. cbn. by rewrite Hi. Qed.

Lemma rx_cb_irq line p : irq_on (autoaddr_rx_cb line p) = irq_on p.
Proof. unfold autoaddr_rx_cb. by do 2 case_match. Qed.

Lemma tx_loop_late lates : forall i temp buf p,
  irq_on p = true ->
  tx_loop i temp buf lates (Some p) = tx_loop i temp buf (replicate (length lates) false) (Some p).
Proof.
  induction lates as [|late lates IH]; intros i temp buf p Hi; [done|]. cbn [tx_loop length replicate].
  rewrite tx_bit_late by done. unfold tx_bit. cbn [fmap option_fmap option_map]. rewrite Hi.
  apply IH. by rewrite rx_cb_irq.
Qed.

(** The byte on the wire has the low six bits of the address in front. *)
Definition on_wire (data : Z) : Z := u8 (Z.lor (Z.shiftl data 2) 0x03).

Lemma on_wire_mod data : on_wire data = on_wire (data mod 64).
Proof.
  unfold on_wire, wrapu. apply Z.bits_inj'. intros n Hn. destruct (decide (n < 8)) as [H8|H8].
  - rewrite !Z.mod_pow2_bits_low, !Z.lor_spec, !Z.shiftl_spec by lia. f_equal.
    destruct (decide (n < 2)); [by rewrite !Z.testbit_neg_r by lia|].
    change 64 with (2 ^ 6). by rewrite Z.mod_pow2_bits_low by lia.
  - by rewrite !Z.mod_pow2_bits_high by lia.
Qed.

(** The lower board receives the address and acknowledges. *)
Definition received (d : Z) (p : autoaddr_st) : autoaddr_st :=
  mk_aa 0 d (txd p) 0 (fsm p) (auto_addr p) (Some 1) (irq_on p).

(** What the sender reads back: its own byte with the acknowledge bit low. *)
Definition echo (d : Z) : Z := Z.lor (Z.shiftl d 2) 0x01.

Lemma tx_all_values : Forall (fun d => forall r0 t0 f0 a0 u0,
    tx_loop 0 (on_wire d) 0 (replicate 8 false) (Some (mk_aa 0 r0 t0 0 f0 a0 u0 true)) =
    (echo d, Some (mk_aa 0 d t0 0 f0 a0 (Some 1) true))) (Z.of_nat <$> seq 0 64).
Proof. cbn [seq fmap list_fmap Z.of_nat]. repeat constructor. Qed.

Lemma tx_none_values : Forall (fun d =>
    tx_loop 0 (on_wire d) 0 (replicate 8 false) None = (on_wire d, None)) (Z.of_nat <$> seq 0 64).
Proof. cbn [seq fmap list_fmap Z.of_nat]. repeat constructor. Qed.

Lemma in_seq64 d : 0 <= d < 64 -> d ∈ (Z.of_nat <$> seq 0 64).
Proof.
  intros Hd. apply list_elem_of_fmap. exists (Z.to_nat d). split; [lia|]. apply elem_of_seq. lia.
Qed.

(** In step with the sender: no bit of a byte received yet. *)
Definition in_sync (p : autoaddr_st) : Prop := sr p = 0 /\ cnt p = 0 /\ irq_on p = true.

Lemma tx_received data lates s p :
  length lates = 8%nat -> in_sync p ->
  autoaddr_tx data lates s (Some p) =
  (set_txd (echo (data mod 64)) s, Some (received (data mod 64) p)).
Proof.
  intros Hl (Hs & Hc & Hi). unfold autoaddr_tx. fold (on_wire data). rewrite on_wire_mod.
  rewrite tx_loop_late, Hl by done.
  pose proof (Z.mod_pos_bound data 64 ltac:(lia)) as Hd.
  pose proof (proj1 (Forall_forall _ _) tx_all_values _ (in_seq64 _ Hd)) as E.
  destruct p as [s0 r0 t0 c0 f0 a0 u0 i0]. cbn in Hs, Hc, Hi. subst. by rewrite E.
Qed.

Lemma tx_loop_none lates : forall i temp buf,
  tx_loop i temp buf lates None = tx_loop i temp buf (replicate (length lates) false) None.
Proof. induction lates as [|late lates IH]; intros i temp buf; [done|]. cbn. apply IH. Qed.

Lemma tx_alone data lates s :
  length lates = 8%nat -> autoaddr_tx data lates s None = (set_txd (on_wire data) s, None).
Proof.
  intros Hl. unfold autoaddr_tx. fold (on_wire data). rewrite on_wire_mod.
  rewrite tx_loop_none, Hl. pose proof (Z.mod_pos_bound data 64 ltac:(lia)) as Hd.
  by rewrite (proj1 (Forall_forall _ _) tx_none_values _ (in_seq64 _ Hd)).
Qed.

Lemma low_bits : Forall (fun d => Z.land (echo d) 3 = 1 /\ Z.land (on_wire d) 3 = 3) (Z.of_nat <$> seq 0 64).
Proof. cbn [seq fmap list_fmap Z.of_nat]. repeat constructor. Qed.

Lemma echo_ack data : Z.land (echo (data mod 64)) 3 = 1.
Proof.
  pose proof (Z.mod_pos_bound data 64 ltac:(lia)) as Hd.
  apply (proj1 (Forall_forall _ _) low_bits _ (in_seq64 _ Hd)).
Qed.

Lemma on_wire_nack data : Z.land (on_wire data) 3 = 3.
Proof.
  rewrite on_wire_mod. pose proof (Z.mod_pos_bound data 64 ltac:(lia)) as Hd.
  apply (proj1 (Forall_forall _ _) low_bits _ (in_seq64 _ Hd)).
Qed.

(** ** The invariant of one board *)

Record board_ok (s : autoaddr_st) : Prop := {
  ok_fsm : In (fsm s) [FSM_INIT; FSM_PREP; FSM_SYNC; FSM_PUSH; FSM_SUCC];
  ok_rxd : 0 <= rxd s <= 63;
  ok_sr : byte (sr s);
  ok_cnt : 0 <= cnt s <= 7;
  ok_range : 0 <= auto_addr s <= 63;
  ok_has : In (fsm s) [FSM_PUSH; FSM_SUCC] <-> 1 <= auto_addr s;
}.

Lemma rx_cb_ok line p : board_ok p -> board_ok (autoaddr_rx_cb line p).
Proof.
  intros [Hf Hr Hs Hc Ha Hh]. unfold autoaddr_rx_cb.
  set (sr1 := if line =? 0 then _ else _).
  assert (byte sr1) as Hs1 by (unfold sr1; case_match; apply (wrapu_range 8); lia).
  assert (u8 (cnt p + 1) = cnt p + 1) as -> by (apply wrapu_small; lia).
  case_bool; [|case_bool]; constructor; cbn [fsm rxd sr cnt auto_addr]; try done; try lia.
  - rewrite Z.shiftr_div_pow2 by lia. unfold byte in Hs1. change (2 ^ 2) with 4.
    rewrite (wrapu_small 8) by zlia. zlia.
Qed.

Lemma tx_loop_ok lates : forall i temp buf p b p',
  board_ok p -> tx_loop i temp buf lates (Some p) = (b, p') -> exists q, p' = Some q /\ board_ok q.
Proof.
  induction lates as [|late lates IH]; intros i temp buf p b p' Hp E; cbn [tx_loop] in E.
  - injection E as _ <-. eauto.
  - unfold tx_bit in E. cbn [fmap option_fmap option_map] in E. eapply IH, E.
    assert (board_ok (if late then last_timer_cb p else p)) as Hl by (destruct late; [by destruct Hp|done]).
    destruct (irq_on _); [by apply rx_cb_ok|done].
Qed.

Definition peer_ok (p : option autoaddr_st) : Prop := forall q, p = Some q -> board_ok q.

Lemma tx_ok data lates s peer s' peer' :
  peer_ok peer -> autoaddr_tx data lates s peer = (s', peer') ->
  peer_ok peer' /\ exists b, s' = set_txd b s.
Proof.
  intros Hp E. unfold autoaddr_tx in E. destruct (tx_loop _ _ _ _ _) as [b p'] eqn:El.
  injection E as <- <-. split; [|by eexists]. destruct peer as [p|].
  - destruct (tx_loop_ok _ _ _ _ _ _ _ (Hp p eq_refl) El) as (q & -> & Hq). by intros ? [= <-].
  - assert (p' = None) as ->; [|done]. revert El. generalize 0 at 1. generalize 0.
    induction lates as [|l ls IH]; intros x y El; cbn in El; [by injection El|]. by eapply IH.
Qed.

Lemma board_ok_fields s s' :
  board_ok s -> fsm s' = fsm s -> rxd s' = rxd s -> sr s' = sr s -> cnt s' = cnt s ->
  auto_addr s' = auto_addr s -> board_ok s'.
Proof. intros [] H1 H2 H3 H4 H5. constructor; by rewrite ?H1, ?H2, ?H3, ?H4, ?H5. Qed.

Ltac fsm_cases Hf :=
  unfold FSM_INIT, FSM_PREP, FSM_SYNC, FSM_PUSH, FSM_SUCC in *; simpl in Hf |- *;
  destruct Hf as [Hf|[Hf|[Hf|[Hf|[Hf|[]]]]]].

Ltac board_fields :=
  constructor; unfold FSM_INIT, FSM_PREP, FSM_SYNC, FSM_PUSH, FSM_SUCC, byte in *; simpl in *;
  first [done | lia | by_computation].

Lemma step_ok upi upo lates s peer s' peer' :
  board_ok s -> peer_ok peer -> autoaddr_step upi upo lates s peer = (s', peer') ->
  board_ok s' /\ peer_ok peer' /\
  (auto_addr s <> 0 -> auto_addr s' = auto_addr s) /\ fsm s <= fsm s'.
Proof.
  intros Hok Hp E. pose proof Hok as [Hf Hr Hs Hc Ha Hh]. unfold autoaddr_step in E.
  fsm_cases Hf; rewrite <- Hf in E, Hh; cbn [Z.eqb Pos.eqb] in E; simpl in Hh.
  - injection E as <- <-. split; [|split; [done|simpl; lia]]. board_fields.
  - destruct ((upi =? 0) && (upo =? 0)); injection E as <- <-;
      (split; [|split; [done|simpl; lia]]); board_fields.
  - destruct (Z.eqb_spec (rxd s) 0); cbn [negb] in E; injection E as <- <-;
      (split; [|split; [done|simpl; lia]]); board_fields.
  - destruct (autoaddr_tx _ _ _ _) as [s1 p1] eqn:Et. destruct (tx_ok _ _ _ _ _ _ Hp Et) as (Hp1 & b & ->).
    destruct (negb _); injection E as <- <-;
      (split; [|split; [done|simpl; lia]]); board_fields.
  - destruct (tx_ok _ _ _ _ _ _ Hp E) as (Hp1 & b & ->).
    split; [|split; [done|simpl; lia]]. apply (board_ok_fields s); done.
Qed.

(** ** A string of boards *)

(** A board waiting for its address, and one that has address [a]. *)
Definition waiting (s : autoaddr_st) : Prop :=
  board_ok s /\ fsm s = FSM_SYNC /\ rxd s = 0 /\ in_sync s.
Definition pushing (a : Z) (s : autoaddr_st) : Prop :=
  board_ok s /\ fsm s = FSM_PUSH /\ auto_addr s = a.
Definition settled (a : Z) (s : autoaddr_st) : Prop :=
  board_ok s /\ fsm s = FSM_SUCC /\ auto_addr s = a.

(** A pass of the upper board followed by one of the lower board. *)
Definition link_step (lates lates' : list bool) (u l : autoaddr_st) (below : option autoaddr_st)
  : autoaddr_st * option autoaddr_st * option autoaddr_st :=
  let '(u, p) := autoaddr_step 1 1 lates u (Some l) in
  match p with
  | Some l => let '(l, below) := autoaddr_step 1 1 lates' l below in (u, Some l, below)
  | None => (u, None, below)
  end.

Lemma link_settles a lates lates' u l below :
  length lates = 8%nat -> pushing a u -> waiting l -> a <= 62 ->
  exists u' l', link_step lates lates' u l below = (u', Some l', below) /\
    settled a u' /\ pushing (a + 1) l'.
Proof.
  intros Hlen (Hu & Hfu & Hau) (Hl & Hfl & Hrl & Hin) Ha. unfold link_step.
  assert (autoaddr_step 1 1 lates u (Some l) =
    (set_fsm FSM_SUCC (set_txd (echo ((a + 1) mod 64)) u), Some (received ((a + 1) mod 64) l))) as Eu.
  { unfold autoaddr_step. rewrite Hfu. cbn [Z.eqb Pos.eqb FSM_INIT FSM_PREP FSM_SYNC FSM_PUSH].
    pose proof (ok_range u Hu). rewrite Hau, (wrapu_small 8) by lia.
    rewrite tx_received by done. cbn [txd set_txd]. by rewrite echo_ack. }
  rewrite Eu. pose proof (ok_range u Hu) as Hru. rewrite Z.mod_small in * by lia.
  assert (1 <= a) as H1.
  { rewrite <- Hau. apply (ok_has u Hu). rewrite Hfu. simpl. tauto. }
  assert (autoaddr_step 1 1 lates' (received (a + 1) l) below =
    (mk_aa 0 (a + 1) (txd l) 0 FSM_PUSH (a + 1) (Some 1) false, below)) as El.
  { unfold autoaddr_step. cbn [fsm received]. rewrite Hfl.
    cbn [Z.eqb Pos.eqb FSM_INIT FSM_PREP FSM_SYNC rxd received]. destruct (Z.eqb_spec (a + 1) 0); [lia|done]. }
  rewrite El. do 2 eexists. split; [done|]. split.
  - split; [|done]. destruct Hu as [? ? ? ? ? Hh]. rewrite Hfu in Hh. board_fields.
  - split; [|done]. board_fields.
Qed.

(** Passing the address down a string [l] of waiting boards below [u]. *)
Fixpoint settle (u : autoaddr_st) (l : list autoaddr_st) : option (list autoaddr_st) :=
  match l with
  | [] => Some [u]
  | p :: l =>
      match link_step (replicate 8 false) (replicate 8 false) u p (head l) with
      | (u, Some p, _) => r ← settle p l; Some (u :: r)
      | _ => None
      end
  end.

Lemma settle_chain l : forall a u,
  pushing a u -> Forall waiting l -> a + zlen l <= 63 ->
  exists r, settle u l = Some r /\ length r = S (length l) /\
    (forall i s, r !! i = Some s -> auto_addr s = a + Z.of_nat i) /\
    (forall i s, r !! i = Some s -> fsm s = if decide (i = length l) then FSM_PUSH else FSM_SUCC).
Proof.
  induction l as [|p l IH]; intros a u Hu Hw Hn.
  - exists [u]. cbn [settle]. destruct Hu as (_ & Hf & Ha). split_and!; try done.
    + intros [|i] s E; [injection E as <-; simpl; lia|done].
    + intros [|i] s E; [by injection E as <-|done].
  - apply Forall_cons in Hw as [Hp Hw]. unfold zlen in Hn. cbn [length] in Hn.
    destruct (link_settles a (replicate 8 false) (replicate 8 false) u p (head l)) as (u' & p' & E & Hu' & Hp');
      [done..|lia|]. cbn [settle]. rewrite E.
    destruct (IH (a + 1) p') as (r & Er & Hl & Hi & Hf); [done..|unfold zlen; lia|].
    rewrite Er. exists (u' :: r). destruct Hu' as (_ & Hfu & Hau). split_and!.
    + done.
    + cbn [length]. lia.
    + intros [|i] s Es; [injection Es as <-; simpl; lia|]. rewrite (Hi i s Es). lia.
    + intros [|i] s Es; [injection Es as <-; by destruct (decide (0%nat = _))|].
      rewrite (Hf i s Es). cbn [length]. repeat case_decide; (done || lia).
Qed.

(** ** Theorems *)

(** A byte transmitted by autoaddr_tx to a board in step is received bit by
    bit by its interrupt handler as the six-bit address that was sent and
    leaves it in step, and the sender reads back the acknowledgement; with
    no board below it reads back none. *)
Theorem address_transmission data lates s p :
  length lates = 8%nat ->
  (in_sync p ->
    exists s' p', autoaddr_tx data lates s (Some p) = (s', Some p') /\
      rxd p' = data mod 64 /\ in_sync p' /\ Z.land (txd s') 3 = 1) /\
  (exists s', autoaddr_tx data lates s None = (s', None) /\ Z.land (txd s') 3 = 3).
Proof.
  intros Hl. split.
  - intros Hin. rewrite tx_received by done. do 2 eexists. split; [done|]. split; [done|].
    split; [by destruct Hin as (_ & _ & ?)|]. apply echo_ack.
  - rewrite tx_alone by done. eexists. split; [done|]. apply on_wire_nack.
Qed.

Definition fresh : autoaddr_st := addr_init (mk_aa 0 0 0 0 0 0 None false).
Definition fresh_sync : autoaddr_st := set_fsm FSM_SYNC fresh.
Definition fresh_first : autoaddr_st := mk_aa 0 0 0 0 FSM_PUSH 1 None false.

Lemma address_transmission_witness :
  exists s' p', autoaddr_tx 5 (replicate 8 true) fresh_first (Some fresh_sync) = (s', Some p') /\
    rxd p' = 5 /\ Z.land (txd s') 3 = 1.
Proof.
  destruct (address_transmission 5 (replicate 8 true) fresh_first fresh_sync eq_refl) as [H _].
  destruct (H (conj eq_refl (conj eq_refl eq_refl))) as (s' & p' & E & H1 & _ & H2).
  exists s', p'. split; [exact E|]. split; [exact H1|exact H2].
Defined.



(** Steps of one board: passes of its thread, with the lower board in any
    well-formed state, and clock edges from the upper board. *)
Inductive board_step : autoaddr_st -> autoaddr_st -> Prop :=
  | board_pass s upi upo lates peer s' peer' :
      peer_ok peer -> autoaddr_step upi upo lates s peer = (s', peer') -> board_step s s'
  | board_edge s line : irq_on s = true -> board_step s (autoaddr_rx_cb line s)
  | board_timer s : board_step s (last_timer_cb s).

Lemma board_step_ok s s' :
  board_step s s' -> board_ok s ->
  board_ok s' /\ (auto_addr s <> 0 -> auto_addr s' = auto_addr s) /\ fsm s <= fsm s'.
Proof.
  intros Hst Hok. destruct Hst as [s upi upo lates peer s' peer' Hp E|s line Hi|s].
  - destruct (step_ok _ _ _ _ _ _ _ Hok Hp E) as (H1 & _ & H2). done.
  - split; [by apply rx_cb_ok|]. unfold autoaddr_rx_cb. do 2 case_match; simpl; lia.
  - split; [by apply (board_ok_fields s)|]. simpl. lia.
Qed.

Lemma board_reach s s' :
  rtc board_step s s' -> board_ok s ->
  board_ok s' /\ (auto_addr s <> 0 -> auto_addr s' = auto_addr s) /\ fsm s <= fsm s'.
Proof.
  induction 1 as [s|s s1 s2 Hst _ IH]; intros Hok; [split_and!; (done || lia)|].
  destruct (board_step_ok _ _ Hst Hok) as (H1 & H2 & H3). destruct (IH H1) as (H4 & H5 & H6).
  split_and!; [done| |lia]. intros H0. rewrite H5; [by apply H2|by rewrite H2].
Qed.

(** Over any sequence of interrupts, timer expiries and passes of its
    thread, a board that has an address keeps it, its state never goes back,
    the address is at most 63 and is accepted by the Modbus slave. *)
Theorem address_assigned_once s s' :
  rtc board_step fresh s -> rtc board_step s s' ->
  0 <= drv_autoaddr_get_addr s <= 63 /\
  (drv_autoaddr_get_addr s <> 0 -> drv_autoaddr_get_addr s' = drv_autoaddr_get_addr s) /\
  drv_autoaddr_get_fsm s <= drv_autoaddr_get_fsm s' /\
  (drv_autoaddr_get_addr s <> 0 -> exists sl, start (drv_autoaddr_get_addr s) = Some sl /\ slave_ok sl).
Proof.
  intros H1 H2. destruct (board_reach _ _ H1) as (Hok & _ & _).
  { board_fields. }
  destruct (board_reach _ _ H2 Hok) as (_ & Ha & Hf). pose proof (ok_range s Hok).
  unfold drv_autoaddr_get_addr, drv_autoaddr_get_fsm. split_and!; try done; try lia.
  intros H0. apply slave_started_ok. lia.
Qed.

Lemma address_assigned_once_witness :
  exists s, rtc board_step fresh s /\ drv_autoaddr_get_addr s = 0 /\
    0 <= drv_autoaddr_get_addr s <= 63.
Proof.
  exists fresh. split; [constructor|]. split; [reflexivity|].
  apply (address_assigned_once fresh fresh); constructor.
Defined.

(** The 64th board of a string is acknowledged and still gets no address. *)
Fact board_64_is_lost lates u l below :
  length lates = 8%nat -> pushing 63 u -> waiting l ->
  exists u' l', link_step lates lates u l below = (u', Some l', below) /\
    fsm u' = FSM_SUCC /\ fsm l' = FSM_SYNC /\ auto_addr l' = auto_addr l.
Proof.
  intros Hlen (Hu & Hfu & Hau) (Hl & Hfl & Hrl & Hin). unfold link_step.
  unfold autoaddr_step at 1. rewrite Hfu. cbn [Z.eqb Pos.eqb FSM_INIT FSM_PREP FSM_SYNC FSM_PUSH].
  rewrite Hau. change (u8 (63 + 1)) with 64. rewrite tx_received by done. cbn [txd set_txd].
  rewrite echo_ack. cbn [Z.eqb Pos.eqb negb]. unfold autoaddr_step. cbn [fsm received]. rewrite Hfl.
  cbn. do 2 eexists. by split_and!.
Qed.

(** A pass of the waiting board in the middle of a byte loses the byte
    boundary: here four bits of address 2 are dropped, and what is received from
    the rest of the byte and the next one is address 44. *)
Fact sync_pass_breaks_framing :
  let bits := [0; 0; 0; 0; 1; 0; 1; 1] in
  let run l s := foldl (fun s b => autoaddr_rx_cb b s) s l in
  let s1 := (autoaddr_step 1 1 [] (run (take 4 bits) fresh_sync) None).1 in
  rxd (run (drop 4 bits ++ take 4 bits) s1) = 44.
Proof. vm_compute. reflexivity. Qed.

End AutoAddr.
