(* ===== verification/MemPool.v ===== *)
(** * Memory pools

    [src/mempool.c]: blocks of one size, each preceded by a pointer that links
    the free ones and names the pool of the others.  The pool is laid out in
    byte memory; abstractly it is the list of its free blocks.  A thread that
    finds no block waits, in front of those already waiting.

    The pool keeps its own count of the waiting threads.  A time-out takes a
    thread out of the list without touching the count, and [rt_mp_free] trusts
    the count; the theorems state exactly when that is harmless. *)

From S2P Require Import Prelude Bytes RtList Timer KService Sched SchedInv ThreadOps Ipc Clock Mailbox.
Import Bytes RtList Timer KService Sched SchedInv ThreadOps Ipc Mailbox.

Module MemPool.

(** ** Data and operations *)

Record rt_mempool := mk_mp {
  start_address : Z;
  size : Z;                   (** rt_size_t *)
  block_size : Z;
  block_list : Z;             (** 0 is RT_NULL *)
  block_total_count : Z;
  block_free_count : Z;
  suspend_thread_count : Z;
  static : bool;
}.

Definition set_free (b n : Z) (mp : rt_mempool) : rt_mempool :=
  mk_mp (start_address mp) (size mp) (block_size mp) b (block_total_count mp) n
    (suspend_thread_count mp) (static mp).
Definition set_waiting (n : Z) (mp : rt_mempool) : rt_mempool :=
  mk_mp (start_address mp) (size mp) (block_size mp) (block_list mp) (block_total_count mp)
    (block_free_count mp) n (static mp).

(** The size of a pointer. *)
Definition ptr_size : Z := 4.

(** The loop that links the blocks, from [offset] on. *)
Fixpoint mp_link (n : nat) (block_ptr stride offset : Z) (m : memory) : option memory :=
  match n with
  | O => Some m
  | S n =>
      m ← store 4 (u32 (block_ptr + offset * stride)) (u32 (block_ptr + (offset + 1) * stride)) m;
      mp_link n block_ptr stride (offset + 1) m
  end.

Definition mp_link_all (count block_ptr stride : Z) (m : memory) : option memory :=
  m ← mp_link (Z.to_nat count) block_ptr stride 0 m;
  store 4 (u32 (block_ptr + u32 (count - 1) * stride)) 0 m.

Definition rt_mp_init (o start sz bsz : Z) (m : memory) (k : kernel)
  : option (rt_mempool * memory * kernel * Z) :=
  let sz := RT_ALIGN_DOWN sz RT_ALIGN_SIZE in
  let bsz := RT_ALIGN bsz RT_ALIGN_SIZE in
  let count := sz / u32 (bsz + ptr_size) in
  let k := rt_ipc_object_init (LSuspend o) k in
  m ← mp_link_all count start (u32 (bsz + ptr_size)) m;
  Some (mk_mp start sz bsz start count count 0 true, m, k, RT_EOK).

(** [obj] and [pool] are the results of the two allocations. *)
Definition rt_mp_create (obj pool : option Z) (block_count bsz : Z) (m : memory) (k : kernel)
  : option (option (Z * rt_mempool) * memory * kernel) :=
  _ ← RT_ASSERT (rt_interrupt_nest k =? 0);
  let bsz := RT_ALIGN bsz RT_ALIGN_SIZE in
  match obj, pool with
  | Some o, Some start =>
      m ← mp_link_all block_count start (u32 (bsz + ptr_size)) m;
      Some (Some (o, mk_mp start (u32 ((bsz + ptr_size) * block_count)) bsz start block_count
                       block_count 0 false), m, rt_ipc_object_init (LSuspend o) k)
  | _, _ => Some (None, m, k)
  end.

(** Waking all waiters; each costs one of the count. *)
Definition mp_wake_all (o : Z) (mp : rt_mempool) (k : kernel) : option (rt_mempool * kernel) :=
  xs ← lists k !! LSuspend o;
  k ← resume_all_loop (length xs) (LSuspend o) k;
  Some (set_waiting (u32 (suspend_thread_count mp - zlen xs)) mp, k).

Definition rt_mp_detach (o : Z) (mp : rt_mempool) (k : kernel) : option (rt_mempool * kernel * Z) :=
  _ ← RT_ASSERT (static mp);
  '(mp, k) ← mp_wake_all o mp k;
  Some (mp, k, RT_EOK).

(** The first component is the area handed to [rt_free]. *)
Definition rt_mp_delete (o : Z) (mp : rt_mempool) (k : kernel) : option (Z * kernel * Z) :=
  _ ← RT_ASSERT (rt_interrupt_nest k =? 0);
  _ ← RT_ASSERT (negb (static mp));
  '(mp, k) ← mp_wake_all o mp k;
  Some (start_address mp, set_lists (delete (LSuspend o) (lists k)) k, RT_EOK).

(** [rt_set_errno]: the error of the running thread, outside interrupts. *)
Definition rt_set_errno (e : Z) (k : kernel) : kernel :=
  if negb (rt_interrupt_nest k =? 0) then k
  else match rt_thread_self k with Some t => upd_thread t (set_error e) k | None => k end.

Inductive mp_result := MpDone (block : option Z) | MpBlocked (t time before_sleep : Z).

(** Suspending the caller at the front of the wait list. *)
Definition mp_block (o time : Z) (mp : rt_mempool) (k : kernel)
  : option (rt_mempool * kernel * mp_result) :=
  t ← in_thread_context k;
  let k := upd_thread t (set_error RT_EOK) k in
  '(k, _) ← rt_thread_suspend t k;
  k ← tlist_push_front (LSuspend o) t k;
  let mp := set_waiting (u32 (suspend_thread_count mp + 1)) mp in
  let before_sleep := if 0 <? time then rt_tick_get (tsys k) else 0 in
  k ← (if 0 <? time then start_thread_timer t time k else Some k);
  k ← rt_schedule k;
  Some (mp, k, MpBlocked t time before_sleep).

(** [rt_mp_alloc] from the test of its loop on. *)
Definition mp_alloc_step (o time : Z) (mp : rt_mempool) (m : memory) (k : kernel)
  : option (rt_mempool * memory * kernel * mp_result) :=
  if block_free_count mp =? 0 then
    if time =? 0 then Some (mp, m, rt_set_errno (- RT_ETIMEOUT) k, MpDone None)
    else '(mp, k, r) ← mp_block o time mp k; Some (mp, m, k, r)
  else
    let block_ptr := block_list mp in
    _ ← RT_ASSERT (negb (block_ptr =? 0));
    next ← load 4 block_ptr m;
    m ← store 4 block_ptr o m;
    Some (set_free next (u32 (block_free_count mp - 1)) mp, m, k,
          MpDone (Some (block_ptr + ptr_size))).

Definition rt_mp_alloc (o time : Z) (mp : rt_mempool) (m : memory) (k : kernel)
  : option (rt_mempool * memory * kernel * mp_result) := mp_alloc_step o time mp m k.

(** After the switch back. *)
Definition rt_mp_alloc_resume (o t time before_sleep : Z) (mp : rt_mempool) (m : memory) (k : kernel)
  : option (rt_mempool * memory * kernel * mp_result) :=
  th ← threads k !! t;
  if negb (error th =? RT_EOK) then Some (mp, m, k, MpDone None)
  else mp_alloc_step o (remaining_timeout time before_sleep k) mp m k.

(** The word before the block names its pool. *)
Definition rt_mp_free (block : Z) (pools : gmap Z rt_mempool) (m : memory) (k : kernel)
  : option (gmap Z rt_mempool * memory * kernel) :=
  let block_ptr := block - ptr_size in
  o ← load 4 block_ptr m;
  mp ← pools !! o;
  m ← store 4 block_ptr (block_list mp) m;
  let mp := set_free block_ptr (u32 (block_free_count mp + 1)) mp in
  if 0 <? suspend_thread_count mp then
    xs ← lists k !! LSuspend o;
    t ← head xs;              (* the head of an empty list is not in a thread *)
    let k := upd_thread t (set_error RT_EOK) k in
    '(k, _) ← rt_thread_resume t k;
    let mp := set_waiting (u32 (suspend_thread_count mp - 1)) mp in
    k ← rt_schedule k;
    Some (<[o := mp]> pools, m, k)
  else Some (<[o := mp]> pools, m, k).

(** ** Representation *)

Definition stride (mp : rt_mempool) : Z := block_size mp + ptr_size.

Definition is_block (mp : rt_mempool) (b : Z) : Prop :=
  exists i, 0 <= i < block_total_count mp /\ b = start_address mp + i * stride mp.

(** [l] are the blocks reached from [p] through their first word. *)
Fixpoint chain (m : memory) (p : Z) (l : list Z) : Prop :=
  match l with
  | [] => p = 0
  | b :: l => p = b /\ exists next, load 4 b m = Some next /\ chain m next l
  end.

Record mp_geometry (mp : rt_mempool) (m : memory) : Prop := {
  mg_start : 0 < start_address mp;
  mg_size : 0 <= block_size mp;
  mg_total : 0 <= block_total_count mp;
  mg_end : start_address mp + block_total_count mp * stride mp <= 2 ^ 32;
  mg_mapped : mapped (start_address mp)
                (start_address mp + block_total_count mp * stride mp) m;
}.

Record pool_rep (o : Z) (mp : rt_mempool) (m : memory) (free : list Z) : Prop := {
  pr_geo : mp_geometry mp m;
  pr_chain : chain m (block_list mp) free;
  pr_nodup : NoDup free;
  pr_blocks : Forall (is_block mp) free;
  pr_count : block_free_count mp = zlen free;
  pr_used : forall b, is_block mp b -> b ∉ free -> load 4 b m = Some o;
}.

(** The waiting threads: never more than the pool has counted. *)
Definition waiters_ok (o : Z) (mp : rt_mempool) (k : kernel) : Prop :=
  exists xs, lists k !! LSuspend o = Some xs /\
    zlen xs <= suspend_thread_count mp < 2 ^ 32.

#[export] Program Instance mp_object : IpcObject rt_mempool := {| ipc_inv := waiters_ok |}.
Next Obligation. intros o mp k k' [Hv _] (xs & E & H). exists xs. by rewrite Hv by (by left). Qed.
Next Obligation.
  intros o mp k k' t [Hv _] (xs & E & H). exists (filter (fun u => u <> t) xs).
  rewrite Hv, E by (by left). split; [done|].
  pose proof (length_filter (fun u => u <> t) xs). unfold zlen in *. lia.
Qed.

(** ** Lemmas *)

Lemma blocks_disjoint mp a b :
  0 <= block_size mp -> is_block mp a -> is_block mp b -> a <> b -> a + 4 <= b \/ b + 4 <= a.
Proof.
  intros Hs (i & Hi & ->) (j & Hj & ->) Hne. unfold stride, ptr_size in *.
  assert (i <> j) by congruence. nia.
Qed.

Lemma block_mapped mp m b : mp_geometry mp m -> is_block mp b -> mapped b (b + Z.of_nat 4) m.
Proof.
  intros [H1 H2 H3 H4 H5] (i & Hi & ->) j Hj. apply H5. unfold stride, ptr_size in *. nia.
Qed.

Lemma block_range mp m b : mp_geometry mp m -> is_block mp b -> 0 < b < 2 ^ 32.
Proof. intros [H1 H2 H3 H4 H5] (i & Hi & ->). unfold stride, ptr_size in *. nia. Qed.

(** Overwriting the link of another block does not disturb a chain. *)
Lemma chain_only m m' b p l :
  only b (b + 4) m m' -> Forall (fun a => a + 4 <= b \/ b + 4 <= a) l -> chain m p l -> chain m' p l.
Proof.
  intros Ho. revert p. induction l as [|a l IH]; intros p Hl Hc; [done|].
  apply Forall_cons in Hl as [Ha Hl]. destruct Hc as (-> & next & E & Hc). split; [done|].
  exists next. split; [|by apply IH]. rewrite (load_only _ _ 4 _ _ _ Ho); [done|]. lia.
Qed.

Lemma others_disjoint mp b l :
  0 <= block_size mp -> is_block mp b -> Forall (is_block mp) l -> b ∉ l ->
  Forall (fun a => a + 4 <= b \/ b + 4 <= a) l.
Proof.
  intros Hs Hb Hl Hn. apply Forall_forall. intros a Ha.
  apply (blocks_disjoint mp); [done|by eapply (proj1 (Forall_forall _ _)) in Ha|done|]. congruence.
Qed.

Lemma geometry_only mp m m' lo hi : only lo hi m m' -> mp_geometry mp m -> mp_geometry mp m'.
Proof. intros Ho [H1 H2 H3 H4 H5]. constructor; try done. by eapply only_mapped. Qed.

#[local] Arguments load : simpl never.
#[local] Arguments store : simpl never.

(** There are no more free blocks than blocks. *)
Lemma blocks_bound mp l :
  0 <= block_total_count mp -> NoDup l -> Forall (is_block mp) l -> zlen l <= block_total_count mp.
Proof.
  intros Ht Hn Hb.
  set (all := (fun i => start_address mp + i * stride mp) <$> seqZ 0 (block_total_count mp)).
  assert (l ⊆+ all) as Hs.
  { apply NoDup_submseteq; [done|]. intros b Hin. rewrite Forall_forall in Hb.
    destruct (Hb b Hin) as (i & Hi & ->). apply list_elem_of_fmap. exists i. split; [done|].
    apply elem_of_seqZ. lia. }
  apply submseteq_length in Hs. unfold all, zlen in *. rewrite length_fmap, length_seqZ in Hs. lia.
Qed.

Lemma total_bound mp m : mp_geometry mp m -> block_total_count mp < 2 ^ 32.
Proof. intros [H1 H2 H3 H4 H5]. unfold stride, ptr_size in *. nia. Qed.

(** Rewriting the link of one block, in a pool with that block free or used. *)
Lemma relink mp m b v :
  mp_geometry mp m -> is_block mp b -> 0 <= v < 2 ^ 32 ->
  exists m', store 4 b v m = Some m' /\ load 4 b m' = Some v /\ only b (b + 4) m m' /\
    mp_geometry mp m' /\
    (forall a, is_block mp a -> a <> b -> load 4 a m' = load 4 a m) /\
    (forall p l, Forall (is_block mp) l -> b ∉ l -> chain m p l -> chain m' p l).
Proof.
  intros Hg Hb Hv. pose proof (mg_size _ _ Hg) as Hsz.
  destruct (store_spec 4 b v m) as (m' & Es & El & Ho); [by eapply block_mapped|done|].
  change (b + Z.of_nat 4) with (b + 4) in Ho.
  exists m'. split_and!; try done; [by eapply geometry_only|..].
  - intros a Ha Hne. apply (load_only b (b + 4) 4 a m m' Ho). change (Z.of_nat 4) with 4.
    by eapply blocks_disjoint.
  - intros p l Hl Hn. eapply chain_only; [exact Ho|]. by eapply others_disjoint.
Qed.

(** Taking the first free block. *)
Lemma take_block o mp m b free :
  pool_rep o mp m (b :: free) -> 0 <= o < 2 ^ 32 ->
  exists next m', block_list mp = b /\ load 4 b m = Some next /\ store 4 b o m = Some m' /\
    only b (b + 4) m m' /\ pool_rep o (set_free next (u32 (block_free_count mp - 1)) mp) m' free.
Proof.
  intros [Hg Hc Hn Hb Hct Hu] Ho. destruct Hc as (Hbl & next & El & Hc).
  pose proof (blocks_bound mp _ (mg_total _ _ Hg) Hn Hb) as Hle.
  pose proof (total_bound _ _ Hg) as Htb.
  apply NoDup_cons in Hn as [Hnin Hn]. apply Forall_cons in Hb as [Hbb Hb].
  destruct (relink mp m b o Hg Hbb Ho) as (m' & Es & El' & Hon & Hg' & Hoth & Hch).
  exists next, m'. split_and!; try done. constructor; cbn; try done.
  - by destruct Hg'.
  - by apply Hch.
  - rewrite Hct. change (zlen (b :: free)) with (Z.of_nat (S (length free))) in *.
    unfold zlen. rewrite wrapu_small; lia.
  - intros a Ha Hna. destruct (decide (a = b)) as [->|Hne]; [done|].
    rewrite Hoth by done. apply Hu; [done|]. by apply not_elem_of_cons.
Qed.

(** Linking a used block in front of the free ones. *)
Lemma give_block o mp m b free :
  pool_rep o mp m free -> is_block mp b -> b ∉ free ->
  exists m', load 4 b m = Some o /\ store 4 b (block_list mp) m = Some m' /\
    only b (b + 4) m m' /\ pool_rep o (set_free b (u32 (block_free_count mp + 1)) mp) m' (b :: free).
Proof.
  intros [Hg Hc Hn Hb Hct Hu] Hbb Hnin.
  assert (NoDup (b :: free)) as Hn' by (by constructor).
  assert (Forall (is_block mp) (b :: free)) as Hb' by (by constructor).
  pose proof (blocks_bound mp _ (mg_total _ _ Hg) Hn' Hb') as Hle.
  pose proof (total_bound _ _ Hg) as Htb.
  assert (0 <= block_list mp < 2 ^ 32) as Hv.
  { destruct free as [|a free]; [simpl in Hc; lia|]. destruct Hc as [-> _].
    apply Forall_cons in Hb as [Ha _]. pose proof (block_range _ _ _ Hg Ha). lia. }
  destruct (relink mp m b (block_list mp) Hg Hbb Hv) as (m' & Es & El' & Hon & Hg' & Hoth & Hch).
  exists m'. split_and!; try done; [by apply Hu|]. constructor; cbn; try done.
  - by destruct Hg'.
  - split; [done|]. exists (block_list mp). split; [done|]. by apply Hch.
  - rewrite Hct. change (zlen (b :: free)) with (Z.of_nat (S (length free))) in *.
    unfold zlen. rewrite wrapu_small; lia.
  - intros a Ha [Hne Hna]%not_elem_of_cons. rewrite Hoth by done. by apply Hu.
Qed.

(** *** Building the free list *)

(** The addresses of the blocks [i .. i + n). *)
Definition blocks_from (base st i n : Z) : list Z := (fun j => base + j * st) <$> seqZ i n.

Lemma mp_link_spec base st n : forall off m,
  0 < base -> 4 <= st -> 0 <= off -> base + (off + Z.of_nat n) * st <= 2 ^ 32 ->
  mapped base (base + (off + Z.of_nat n) * st) m ->
  exists m', mp_link n base st off m = Some m' /\
    only (base + off * st) (base + (off + Z.of_nat n) * st) m m' /\
    (forall i, off <= i < off + Z.of_nat n ->
       load 4 (base + i * st) m' = Some (u32 (base + (i + 1) * st))).
Proof.
  induction n as [|n IH]; intros off m Hb Hs Ho He Hm; cbn [mp_link].
  { exists m. split_and!; try done. lia. }
  rewrite (wrapu_small 32 (base + off * st)) by nia.
  destruct (store_spec 4 (base + off * st) (u32 (base + (off + 1) * st)) m) as (m1 & -> & El & H1).
  { intros i Hi. apply Hm. nia. }
  { apply wrapu_range. lia. }
  cbn [mbind option_bind]. change (Z.of_nat 4) with 4 in H1.
  destruct (IH (off + 1) m1) as (m' & -> & H2 & Hl); [done|done|lia|nia|..].
  { eapply only_mapped; [exact H1|]. intros i Hi. apply Hm. nia. }
  exists m'. split; [done|]. split.
  - eapply only_trans; [eapply only_weaken; [exact H1|nia|nia]|].
    eapply only_weaken; [exact H2|nia|nia].
  - intros i Hi. destruct (decide (i = off)) as [->|Hne]; [|apply Hl; lia].
    rewrite (load_only _ _ 4 _ _ _ H2); [done|]. nia.
Qed.

Lemma chain_blocks base st m total n : forall i,
  0 < base -> 0 < st -> 0 <= i -> i + Z.of_nat n = total -> base + total * st <= 2 ^ 32 ->
  (forall j, 0 <= j < total - 1 -> load 4 (base + j * st) m = Some (u32 (base + (j + 1) * st))) ->
  (0 < total -> load 4 (base + (total - 1) * st) m = Some 0) ->
  chain m (if (n =? 0)%nat then 0 else base + i * st) (blocks_from base st i (Z.of_nat n)).
Proof.
  induction n as [|n IH]; intros i Hb Hs Hi Ht He Hl H0; [done|].
  unfold blocks_from. rewrite seqZ_cons by lia. simpl. split; [done|].
  replace (Z.pred (Z.of_nat (S n))) with (Z.of_nat n) by lia.
  assert (chain m (if (n =? 0)%nat then 0 else base + (i + 1) * st)
    (blocks_from base st (i + 1) (Z.of_nat n))) as Hc by (apply IH; lia || done).
  exists (if (n =? 0)%nat then 0 else base + (i + 1) * st). split; [|exact Hc].
  destruct (Nat.eqb_spec n 0) as [Hn|Hn].
  - rewrite <- H0 by lia. do 2 f_equal. lia.
  - rewrite Hl by lia. rewrite wrapu_small by nia. done.
Qed.

Lemma mp_link_all_spec count base st m :
  0 < count -> 0 < base -> 4 <= st -> base + count * st <= 2 ^ 32 ->
  mapped base (base + count * st) m ->
  exists m', mp_link_all count base st m = Some m' /\ only base (base + count * st) m m' /\
    chain m' base (blocks_from base st 0 count).
Proof.
  intros Hc Hb Hs He Hm. unfold mp_link_all.
  destruct (mp_link_spec base st (Z.to_nat count) 0 m) as (m1 & -> & H1 & Hl);
    rewrite ?Z2Nat.id by lia; [done..|].
  cbn [mbind option_bind]. rewrite (wrapu_small 32 (count - 1)) by nia.
  rewrite (wrapu_small 32 (base + (count - 1) * st)) by nia.
  destruct (store_spec 4 (base + (count - 1) * st) 0 m1) as (m' & -> & El & H2).
  { intros i Hi. eapply only_mapped; [exact H1|exact Hm|nia]. }
  { lia. }
  change (Z.of_nat 4) with 4 in H2. exists m'. split; [done|]. split.
  - eapply only_trans; [eapply only_weaken; [exact H1|lia|lia]|].
    eapply only_weaken; [exact H2|nia|nia].
  - pose proof (chain_blocks base st m' count (Z.to_nat count) 0) as Hch.
    rewrite Z2Nat.id in Hch by lia.
    destruct (Nat.eqb_spec (Z.to_nat count) 0) as [Hz|_]; [lia|]. rewrite Z.mul_0_l, Z.add_0_r in Hch.
    apply Hch; try lia; [|done]. intros j Hj. rewrite (load_only _ _ 4 _ _ _ H2) by nia.
    apply Hl. lia.
Qed.

Definition all_blocks (mp : rt_mempool) : list Z :=
  blocks_from (start_address mp) (stride mp) 0 (block_total_count mp).

Lemma pool_full o mp m :
  mp_geometry mp m -> chain m (block_list mp) (all_blocks mp) ->
  block_free_count mp = block_total_count mp -> pool_rep o mp m (all_blocks mp).
Proof.
  intros Hg Hc He. pose proof (mg_total _ _ Hg) as Ht. pose proof (mg_size _ _ Hg) as Hs.
  constructor; try done; unfold all_blocks, blocks_from.
  - apply NoDup_fmap_2_strong; [|apply NoDup_seqZ]. intros x y _ _. unfold stride, ptr_size. nia.
  - apply Forall_fmap, Forall_seqZ. intros i Hi. exists i. split; [lia|done].
  - unfold zlen. rewrite length_fmap, length_seqZ. lia.
  - intros b (i & Hi & ->) Hn. destruct Hn. apply list_elem_of_fmap. exists i.
    split; [done|]. apply elem_of_seqZ. lia.
Qed.

Lemma mp_init_spec o start sz bsz m k :
  let st := (bsz + 3) / 4 * 4 + 4 in
  let count := sz / 4 * 4 / st in
  kernel_inv k -> lists k !! LSuspend o = None ->
  0 < start -> 0 <= bsz <= 2 ^ 32 - 8 -> 0 <= sz < 2 ^ 32 -> st <= sz / 4 * 4 ->
  start + count * st <= 2 ^ 32 -> mapped start (start + count * st) m ->
  exists mp m', let k' := rt_ipc_object_init (LSuspend o) k in
    rt_mp_init o start sz bsz m k = Some (mp, m', k', RT_EOK) /\
    kernel_inv k' /\ waiters_ok o mp k' /\ pool_rep o mp m' (all_blocks mp) /\
    block_total_count mp = count /\ stride mp = st /\ start_address mp = start /\
    suspend_thread_count mp = 0 /\ only start (start + count * st) m m'.
Proof.
  intros st count Hk Hl Hstart Hb Hs Hfit He Hm. unfold rt_mp_init, RT_ALIGN_SIZE, ptr_size.
  rewrite RT_ALIGN_DOWN_4, RT_ALIGN_4 by lia.
  assert (st <= 2 ^ 32 - 4 /\ 4 <= st) as [Hst1 Hst2] by (unfold st; zlia).
  rewrite wrapu_small by (fold st; lia). fold st. fold count.
  assert (0 < count) as Hc.
  { apply Z.div_str_pos. lia. }
  destruct (mp_link_all_spec count start st m) as (m' & -> & Ho & Hch); try done.
  cbn [mbind option_bind]. do 2 eexists. split; [done|].
  split; [by apply object_init_inv|]. split.
  { exists []. simpl. by rewrite lookup_insert_eq. }
  split; [|by split_and!].
  apply pool_full; [|done|done].
  constructor; cbn.
  - done.
  - unfold st in *. lia.
  - lia.
  - exact He.
  - by eapply only_mapped.
Qed.

(** *** Waiting for a block *)

Lemma mp_block_spec o time mp k cur cth xs :
  kernel_inv k -> caller k cur cth -> time < HALF ->
  lists k !! LSuspend o = Some xs ->
  exists k' d, mp_block o time mp k =
      Some (set_waiting (u32 (suspend_thread_count mp + 1)) mp, k', MpBlocked cur time d) /\
    kernel_inv k' /\ lists k' !! LSuspend o = Some (cur :: xs) /\
    threads k' !! cur = Some (set_stat RT_THREAD_SUSPEND (set_error RT_EOK cth)) /\
    (0 < time -> due_of (tsys k') (ThreadTimer cur) = time) /\
    is_Some (rt_current_thread k').
Proof.
  intros Hk Hca Htm Hx. unfold mp_block. rewrite (in_thread_context_caller k cur cth Hca).
  cbn [mbind option_bind]. set (k0 := upd_thread cur (set_error RT_EOK) k).
  set (th := set_error RT_EOK cth).
  assert (kernel_inv k0) as Hk0 by (by apply kernel_upd_same).
  assert (caller k0 cur th) as Hca0.
  { destruct Hca. constructor; try done. simpl. by rewrite lookup_alter_eq, ca_thread0. }
  destruct (suspend_spec k0 cur th Hk0 (ca_thread _ _ _ Hca0)) as (s' & -> & Hk1 & Hf & Hn).
  { right. apply Hca0. }
  cbn [mbind option_bind]. set (k1 := suspended cur th s' k0) in *.
  assert (stat th <> RT_THREAD_SUSPEND) as Hns by (rewrite (ca_running _ _ _ Hca0); done).
  assert (lists k1 !! LSuspend o = Some xs) as Hx1.
  { simpl. rewrite <- Hx. eapply (lremove_waits k0); [apply Hk0|apply Hca0|done|done]. }
  assert (absent cur (lists k1)) as Habs by apply absent_lremove.
  rewrite (push_front_eq _ _ _ xs Hx1 Habs). cbn [mbind option_bind].
  set (k2 := set_lists _ k1).
  assert (waiting (LSuspend o) [] cur xs k0 k2) as Hwa.
  { eapply linked_waiting; [done|apply Hca0|done|exact Hf|].
    apply (link_wait k1 _ _ (set_stat RT_THREAD_SUSPEND th) [] xs); try done.
    change (threads k1) with (alter (set_stat RT_THREAD_SUSPEND) cur (threads k0)).
    by rewrite lookup_alter_eq, (ca_thread _ _ _ Hca0). }
  assert (exists k3, (if 0 <? time then start_thread_timer cur time k2 else Some k2) = Some k3 /\
    waiting (LSuspend o) [] cur xs k0 k3 /\
    (0 < time -> due_of (tsys k3) (ThreadTimer cur) = time)) as (k3 & -> & Hwa3 & Hd).
  { destruct (Z.ltb_spec 0 time) as [Hp|Hp]; [|exists k2; split_and!; try done; lia].
    destruct (wait_timer_spec k0 k2 _ _ _ _ _ time (ca_thread _ _ _ Hca0) Hwa) as (k3 & ? & ? & ? & _);
      [done|lia|]. by exists k3. }
  cbn [mbind option_bind].
  destruct (blocked_schedule k0 k3 (LSuspend o) _ _ _ _ Hca0 I Hwa3) as (k' & Es & H1 & H2 & _ & H4 & _ & _ & H7).
  rewrite Es. cbn [mbind option_bind]. do 2 eexists. split; [done|]. split_and!; try done.
  - rewrite H7. exact Hd.
  - eapply schedule_current; [..|exact Es]; [apply Hwa3|].
    rewrite (wa_current _ _ _ _ _ _ Hwa3). rewrite (ca_current _ _ _ Hca0). eauto.
Qed.

Lemma errno_inv e k : kernel_inv k -> kernel_inv (rt_set_errno e k).
Proof.
  intros Hk. unfold rt_set_errno. destruct (negb _); [done|].
  destruct (rt_thread_self k); [|done]. by apply kernel_upd_same.
Qed.

Lemma errno_lists e k : lists (rt_set_errno e k) = lists k.
Proof. unfold rt_set_errno. destruct (negb _), (rt_thread_self k); done. Qed.

Lemma waiters_ext o mp mp' k k' :
  lists k' = lists k -> suspend_thread_count mp' = suspend_thread_count mp ->
  waiters_ok o mp k -> waiters_ok o mp' k'.
Proof. intros El Ec (xs & H). exists xs. by rewrite El, Ec. Qed.

(** What an allocation does to a pool with the free blocks [free]. *)
Definition alloc_post (o time cur : Z) (mp : rt_mempool) (m : memory) (k : kernel) (free : list Z)
    (mp' : rt_mempool) (m' : memory) (k' : kernel) (r : mp_result) : Prop :=
  match free with
  | b :: _ =>
      r = MpDone (Some (b + 4)) /\ k' = k /\ only b (b + 4) m m' /\
      suspend_thread_count mp' = suspend_thread_count mp
  | [] =>
      m' = m /\
      ((time = 0 /\ r = MpDone None /\ mp' = mp /\ k' = rt_set_errno (- RT_ETIMEOUT) k) \/
       (time <> 0 /\ suspend_thread_count mp' = suspend_thread_count mp + 1 /\
        exists d xs, r = MpBlocked cur time d /\
          lists k !! LSuspend o = Some xs /\ lists k' !! LSuspend o = Some (cur :: xs) /\
          (0 < time -> due_of (tsys k') (ThreadTimer cur) = time)))
  end.

Lemma mp_alloc_spec o time mp m k free cur cth :
  kernel_inv k -> waiters_ok o mp k -> pool_rep o mp m free -> caller k cur cth ->
  0 <= o < 2 ^ 32 -> time < HALF -> suspend_thread_count mp < 2 ^ 32 - 1 ->
  exists mp' m' k' r, rt_mp_alloc o time mp m k = Some (mp', m', k', r) /\
    kernel_inv k' /\ waiters_ok o mp' k' /\ pool_rep o mp' m' (tail free) /\
    alloc_post o time cur mp m k free mp' m' k' r.
Proof.
  intros Hk Hw Hp Hca Ho Htm Hsc. unfold rt_mp_alloc, mp_alloc_step.
  pose proof (pr_count _ _ _ _ Hp) as Hc. destruct free as [|b free].
  - rewrite Hc. change (zlen [] =? 0) with true. destruct (Z.eqb_spec time 0) as [->|Hnz].
    + do 4 eexists. split; [done|]. split; [by apply errno_inv|].
      split; [by eapply waiters_ext; [apply errno_lists|..]|]. split; [done|].
      split; [done|]. by left.
    + pose proof Hw as (xs & Hx & Hle & Hlt).
      destruct (mp_block_spec o time mp k cur cth xs Hk Hca Htm Hx)
        as (k' & d & -> & Hk' & Hx' & _ & Hd & _).
      cbn [mbind option_bind]. pose proof (zlen_nonneg xs).
      assert (u32 (suspend_thread_count mp + 1) = suspend_thread_count mp + 1) as E
        by (apply wrapu_small; lia).
      rewrite E. do 4 eexists. split; [done|]. split; [done|]. split; [|split].
      * exists (cur :: xs). split; [done|]. unfold zlen in *. simpl. lia.
      * by destruct Hp as [[] ? ? ? ? ?].
      * split; [done|]. right. split_and!; try done. by exists d, xs.
  - destruct (take_block o mp m b free Hp Ho) as (next & m' & -> & El & Es & Hon & Hp').
    rewrite (proj2 (Z.eqb_neq _ 0)) by (rewrite Hc; unfold zlen; simpl; lia).
    pose proof (pr_blocks _ _ _ _ Hp) as [Hb _]%Forall_cons.
    pose proof (block_range _ _ _ (pr_geo _ _ _ _ Hp) Hb) as Hr.
    rewrite (proj2 (Z.eqb_neq b 0)) by lia. cbn [negb RT_ASSERT mbind option_bind].
    rewrite El. cbn [mbind option_bind]. rewrite Es. cbn [mbind option_bind].
    do 4 eexists. split; [done|]. split; [done|]. split; [by eapply waiters_ext|]. by split.
Qed.

(** *** Releasing a block *)

(** Waking the first waiter with its error cleared. *)
Definition mp_woke (o : Z) (k k' : kernel) : Prop :=
  exists t xs th st, lists k !! LSuspend o = Some (t :: xs) /\ lists k' !! LSuspend o = Some xs /\
    threads k !! t = Some th /\ threads k' !! t = Some (set_stat st (set_error RT_EOK th)) /\
    (st = RT_THREAD_READY \/ st = RT_THREAD_RUNNING) /\
    ThreadTimer t ∉ rt_timer_list (tsys k').

Lemma mp_wake_spec o k t xs :
  kernel_inv k -> is_Some (rt_current_thread k) -> lists k !! LSuspend o = Some (t :: xs) ->
  exists k1 k', rt_thread_resume t (upd_thread t (set_error RT_EOK) k) = Some (k1, RT_EOK) /\
    rt_schedule k1 = Some k' /\ kernel_inv k' /\ mp_woke o k k'.
Proof.
  intros Hk Hcur Hx. set (k0 := upd_thread t (set_error RT_EOK) k).
  assert (kernel_inv k0) as Hk0 by (by apply kernel_upd_same).
  destruct (waiter_suspended k (LSuspend o) _ t Hk I Hx) as (th & Ht & Hs); [left|].
  assert (threads k0 !! t = Some (set_error RT_EOK th)) as Ht0 by (simpl; by rewrite lookup_alter_eq, Ht).
  destruct (resume_woken k0 t _ Hk0 Ht0 Hs) as (k1 & E1 & _).
  destruct (wake_spec k0 (LSuspend o) t xs Hk0 Hcur I Hx)
    as (th' & k1' & k' & st & E1' & E2 & Hk' & Hl & _ & Et & Et' & Hst & Htm & _).
  unfold rt_ipc_list_resume in E1'. change (lists k0) with (lists k) in E1'. rewrite Hx in E1'.
  cbn [mbind option_bind head] in E1'. rewrite E1 in E1'. cbn [mbind option_bind] in E1'.
  injection E1' as <-. exists k1, k'. split; [done|]. split; [done|]. split; [done|].
  exists t, xs, th, st. rewrite Ht0 in Et. injection Et as <-. by split_and!.
Qed.

Definition free_post (o : Z) (mp : rt_mempool) (k : kernel) (mp' : rt_mempool) (k' : kernel) : Prop :=
  (suspend_thread_count mp = 0 /\ k' = k /\ suspend_thread_count mp' = 0) \/
  (0 < suspend_thread_count mp /\ mp_woke o k k' /\
   suspend_thread_count mp' = suspend_thread_count mp - 1).

Lemma mp_free_spec o b mp pools m k free :
  kernel_inv k -> is_Some (rt_current_thread k) -> pools !! o = Some mp ->
  waiters_ok o mp k -> pool_rep o mp m free -> is_block mp b -> b ∉ free ->
  if bool_decide (0 < suspend_thread_count mp /\ lists k !! LSuspend o = Some [])
  then rt_mp_free (b + 4) pools m k = None
  else exists mp' m' k', rt_mp_free (b + 4) pools m k = Some (<[o := mp']> pools, m', k') /\
    kernel_inv k' /\ waiters_ok o mp' k' /\ pool_rep o mp' m' (b :: free) /\
    only b (b + 4) m m' /\ free_post o mp k mp' k'.
Proof.
  intros Hk Hcur Hpo (xs & Hx & Hle & Hlt) Hp Hb Hn. unfold rt_mp_free, ptr_size.
  replace (b + 4 - 4) with b by lia.
  destruct (give_block o mp m b free Hp Hb Hn) as (m' & -> & Es & Hon & Hp').
  cbn [mbind option_bind]. rewrite Hpo. cbn [mbind option_bind]. rewrite Es.
  cbn [mbind option_bind]. change (suspend_thread_count (set_free _ _ mp)) with (suspend_thread_count mp).
  pose proof (zlen_nonneg xs). rewrite Hx. cbn [mbind option_bind].
  destruct (Z.ltb_spec 0 (suspend_thread_count mp)) as [Hp0|Hp0].
  - destruct xs as [|t xs].
    + rewrite bool_decide_eq_true_2 by done. done.
    + rewrite bool_decide_eq_false_2 by naive_solver. cbn [head mbind option_bind].
      destruct (mp_wake_spec o k t xs Hk Hcur Hx) as (k1 & k' & -> & E2 & Hk' & Hwk).
      cbn [mbind option_bind]. rewrite E2. cbn [mbind option_bind].
      pose proof Hwk as (t' & xs' & th & st & Ex & Ex' & _). rewrite Hx in Ex.
      injection Ex as <- <-. rewrite (wrapu_small 32 (suspend_thread_count mp - 1)) by lia.
      do 3 eexists. split; [done|]. split; [done|]. split; [|split; [|split; [done|]]].
      * exists xs. split; [done|]. unfold zlen in *. simpl in *. lia.
      * by destruct Hp' as [[] ? ? ? ? ?].
      * right. by split_and!.
  - rewrite bool_decide_eq_false_2 by (intros [? _]; lia).
    do 3 eexists. split; [done|]. split; [done|]. split; [|split; [done|split; [done|]]].
    + by exists xs.
    + left. split_and!; [lia|done|cbn; lia].
Qed.

(** *** Closing a pool *)

Lemma mp_detach_spec o mp k xs :
  kernel_inv k -> static mp = true -> waiters_ok o mp k -> lists k !! LSuspend o = Some xs ->
  exists mp' k', rt_mp_detach o mp k = Some (mp', k', RT_EOK) /\ kernel_inv k' /\
    waiters_ok o mp' k' /\ lists k' !! LSuspend o = Some [] /\
    suspend_thread_count mp' = suspend_thread_count mp - zlen xs /\
    (forall t, t ∈ xs -> exists th, threads k !! t = Some th /\
       threads k' !! t = Some (set_stat (resumed_stat t k) (set_error (- RT_ERROR) th))).
Proof.
  intros Hk Hs (xs' & Hx' & Hle & Hlt) Hx. rewrite Hx in Hx'. injection Hx' as <-.
  unfold rt_mp_detach, mp_wake_all. rewrite Hs, Hx. cbn [RT_ASSERT mbind option_bind].
  destruct (resume_all_spec (LSuspend o) xs k Hk I Hx) as (k' & -> & Hk' & Hnil & _ & _ & Hin & _).
  cbn [mbind option_bind]. pose proof (zlen_nonneg xs).
  rewrite (wrapu_small 32 (suspend_thread_count mp - zlen xs)) by lia.
  do 2 eexists. split; [done|]. split_and!; try done. exists []. split; [done|].
  change (zlen []) with 0. cbn. lia.
Qed.

(** ** Clients of a pool

    What happens to a pool over time: allocations that succeed, fail or block,
    releases of blocks that are held, and writes of the holders to their blocks,
    in any order and with the kernel in any state at each call. *)

Inductive mp_step (o : Z)
  : rt_mempool * memory * list Z -> rt_mempool * memory * list Z -> Prop :=
| MpAlloc time mp m k mp' m' k' p held :
    rt_mp_alloc o time mp m k = Some (mp', m', k', MpDone (Some p)) ->
    mp_step o (mp, m, held) (mp', m', p :: held)
| MpAllocNot time mp m k mp' m' k' r held :
    rt_mp_alloc o time mp m k = Some (mp', m', k', r) -> (forall p, r <> MpDone (Some p)) ->
    mp_step o (mp, m, held) (mp', m', held)
| MpFree mp m k m' k' pools pools' mp' p held1 held2 :
    pools !! o = Some mp -> rt_mp_free p pools m k = Some (pools', m', k') ->
    pools' !! o = Some mp' ->
    mp_step o (mp, m, held1 ++ p :: held2) (mp', m', held1 ++ held2)
| MpWrite mp m m' p held :
    p ∈ held -> only p (p + block_size mp) m m' -> mp_step o (mp, m, held) (mp, m', held).

(** Every block is either free or held, and no block is held twice. *)
Definition mp_owned (o : Z) (s : rt_mempool * memory * list Z) : Prop :=
  let '(mp, m, held) := s in
  exists free, pool_rep o mp m free /\ free ++ ((fun p => p - 4) <$> held) ≡ₚ all_blocks mp.

Lemma all_blocks_spec mp b : 0 <= block_total_count mp -> b ∈ all_blocks mp <-> is_block mp b.
Proof.
  intros Ht. unfold all_blocks, blocks_from. rewrite list_elem_of_fmap. split.
  - intros (i & -> & Hi%elem_of_seqZ). exists i. split; [lia|done].
  - intros (i & Hi & ->). exists i. split; [done|]. apply elem_of_seqZ. lia.
Qed.

(** Writing the data of a block leaves every link alone. *)
Lemma write_block o mp m m' b free :
  pool_rep o mp m free -> is_block mp b -> only (b + 4) (b + 4 + block_size mp) m m' ->
  pool_rep o mp m' free.
Proof.
  intros [Hg Hc Hn Hb Hct Hu] Hbb Ho. pose proof (mg_size _ _ Hg) as Hsz.
  assert (forall a, is_block mp a -> load 4 a m' = load 4 a m) as Hl.
  { intros a Ha. apply (load_only _ _ 4 a _ _ Ho). change (Z.of_nat 4) with 4.
    destruct Hbb as (i & Hi & ->), Ha as (j & Hj & ->). unfold stride, ptr_size in *.
    assert (j <= i \/ i + 1 <= j) as [?|?] by lia; nia. }
  constructor; try done; [by eapply geometry_only| |].
  - revert Hc Hb. generalize (block_list mp). clear - Hl. induction free as [|a free IH]; [done|].
    intros p (-> & next & E & Hc) [Ha Hb]%Forall_cons. split; [done|]. exists next.
    rewrite Hl by done. split; [done|]. by apply IH.
  - intros a Ha Hna. rewrite Hl by done. by apply Hu.
Qed.

Lemma owned_block o mp m held p :
  mp_owned o (mp, m, held) -> p ∈ held -> is_block mp (p - 4).
Proof.
  intros (free & Hp & Hperm) Hin. apply all_blocks_spec; [apply (pr_geo _ _ _ _ Hp)|].
  rewrite <- Hperm. apply elem_of_app. right. apply list_elem_of_fmap. by exists p.
Qed.

Lemma pool_rep_waiting o mp m free n : pool_rep o mp m free -> pool_rep o (set_waiting n mp) m free.
Proof. by intros [[] ? ? ? ? ?]. Qed.

(** The steps of a call that returned. *)
Ltac unbind E :=
  repeat (let x := fresh "x" in apply bind_Some in E as (x & _ & E);
          try match type of x with (_ * _)%type => destruct x as [? ?] end).

Lemma mp_block_pool o time mp k mp' k' r :
  mp_block o time mp k = Some (mp', k', r) ->
  (exists n, mp' = set_waiting n mp) /\ (forall p, r <> MpDone p).
Proof.
  unfold mp_block. intros E.
  unbind E.
  injection E as <- _ <-. split; [eauto|done].
Qed.

Lemma alloc_owned o time mp m k mp' m' k' r free :
  0 <= o < 2 ^ 32 -> pool_rep o mp m free -> rt_mp_alloc o time mp m k = Some (mp', m', k', r) ->
  all_blocks mp' = all_blocks mp /\ block_size mp' = block_size mp /\
  ((exists b, free = b :: tail free /\ r = MpDone (Some (b + 4)) /\ pool_rep o mp' m' (tail free)) \/
   ((forall p, r <> MpDone (Some p)) /\ pool_rep o mp' m' free)).
Proof.
  intros Ho Hp E. unfold rt_mp_alloc, mp_alloc_step in E. pose proof (pr_count _ _ _ _ Hp) as Hc.
  destruct (Z.eqb_spec (block_free_count mp) 0) as [Hz|Hz].
  - destruct (time =? 0); [injection E as <- <- <- <-; do 2 (split; [done|]); by right|].
    apply bind_Some in E as ([[mp1 k1] r1] & Eb & E). injection E as <- <- <- <-.
    destruct (mp_block_pool _ _ _ _ _ _ _ Eb) as ((n & ->) & Hr).
    do 2 (split; [done|]). right. split; [intros p; apply Hr|by apply pool_rep_waiting].
  - destruct free as [|b free]; [done|].
    destruct (take_block o mp m b free Hp Ho) as (next & m1 & Hb & El & Es & _ & Hp').
    rewrite Hb in E. destruct (negb (b =? 0)); [|done]. cbn [RT_ASSERT mbind option_bind] in E.
    rewrite El in E. cbn [mbind option_bind] in E. rewrite Es in E. cbn [mbind option_bind] in E.
    injection E as <- <- <- <-. do 2 (split; [done|]). left. by exists b.
Qed.

Lemma free_owned o b mp m k free pools pools' m' k' mp' :
  pool_rep o mp m free -> is_block mp b -> b ∉ free -> pools !! o = Some mp ->
  rt_mp_free (b + 4) pools m k = Some (pools', m', k') -> pools' !! o = Some mp' ->
  all_blocks mp' = all_blocks mp /\ block_size mp' = block_size mp /\
  pool_rep o mp' m' (b :: free).
Proof.
  intros Hp Hb Hn Hpo E Hpo'. unfold rt_mp_free, ptr_size in E.
  replace (b + 4 - 4) with b in E by lia.
  destruct (give_block o mp m b free Hp Hb Hn) as (m1 & El & Es & _ & Hp').
  rewrite El in E. cbn [mbind option_bind] in E. rewrite Hpo in E. cbn [mbind option_bind] in E.
  rewrite Es in E. cbn [mbind option_bind] in E. destruct (0 <? _).
  - unbind E.
    injection E as <- <- <-. rewrite lookup_insert_eq in Hpo'. injection Hpo' as <-.
    do 2 (split; [done|]). by apply (pool_rep_waiting _ _ _ _ _ Hp').
  - injection E as <- <- <-. rewrite lookup_insert_eq in Hpo'. injection Hpo' as <-. done.
Qed.

Lemma mp_step_owned o s s' : 0 <= o < 2 ^ 32 -> mp_owned o s -> mp_step o s s' -> mp_owned o s'.
Proof.
  intros Ho Hs Hst. destruct Hst as [time mp m k mp' m' k' p held E|
    time mp m k mp' m' k' r held E Hr|mp m k m' k' pools pools' mp' p held1 held2 Hpo E Hpo'|
    mp m m' p held Hin Hon]; pose proof Hs as (free & Hp & Hperm).
  - destruct (alloc_owned o time mp m k mp' m' k' _ free Ho Hp E)
      as (Ea & _ & [(b & Hf & [= ->] & Hp')|[Hn _]]); [|by destruct (Hn p)].
    exists (tail free). split; [done|]. rewrite Ea, <- Hperm. rewrite Hf at 2. simpl.
    replace (b + 4 - 4) with b by lia. by rewrite <- Permutation_middle.
  - destruct (alloc_owned o time mp m k mp' m' k' _ free Ho Hp E)
      as (Ea & _ & [(b & _ & -> & _)|[_ Hp']]); [by destruct (Hr (b + 4))|].
    exists free. by rewrite Ea.
  - assert (p - 4 ∉ free) as Hn.
    { pose proof (pr_geo _ _ _ _ Hp) as Hg.
      assert (NoDup (all_blocks mp)) as Hnd.
      { apply NoDup_fmap_2_strong; [|apply NoDup_seqZ]. intros x y _ _.
        pose proof (mg_size _ _ Hg). unfold stride, ptr_size. nia. }
      rewrite <- Hperm in Hnd. apply NoDup_app in Hnd as (_ & Hd & _). intros Hin.
      apply (Hd _ Hin). rewrite fmap_app, fmap_cons. set_solver. }
    assert (is_block mp (p - 4)) as Hb by (eapply owned_block; [exact Hs|set_solver]).
    replace p with (p - 4 + 4) in E by lia.
    destruct (free_owned o (p - 4) mp m k free pools pools' m' k' mp' Hp Hb Hn Hpo E Hpo')
      as (Ea & _ & Hp').
    exists (p - 4 :: free). split; [done|]. rewrite Ea, <- Hperm, !fmap_app, fmap_cons.
    simpl. rewrite !app_assoc. apply Permutation_middle.
  - exists free. split; [|done]. pose proof (owned_block _ _ _ _ _ Hs Hin) as Hb.
    eapply write_block; [done|exact Hb|]. by replace (p - 4 + 4) with p by lia.
Qed.

Lemma owned_exclusive o mp m held :
  mp_owned o (mp, m, held) ->
  NoDup held /\
  (forall p, p ∈ held -> start_address mp + 4 <= p /\
     p + block_size mp <= start_address mp + block_total_count mp * stride mp) /\
  (forall p q, p ∈ held -> q ∈ held -> p <> q -> p + block_size mp <= q - 4 \/ q + block_size mp <= p - 4).
Proof.
  intros Hs. pose proof Hs as (free & Hp & Hperm). pose proof (pr_geo _ _ _ _ Hp) as Hg.
  pose proof (mg_size _ _ Hg) as Hsz. split_and!.
  - assert (NoDup (all_blocks mp)) as Hnd.
    { apply NoDup_fmap_2_strong; [|apply NoDup_seqZ]. intros x y _ _.
      unfold stride, ptr_size. nia. }
    rewrite <- Hperm in Hnd. apply NoDup_app in Hnd as (_ & _ & Hnd).
    by apply NoDup_fmap_1 in Hnd.
  - intros p Hin. destruct (owned_block _ _ _ _ _ Hs Hin) as (i & Hi & E).
    unfold stride, ptr_size in *. nia.
  - intros p q Hp1 Hq1 Hne. destruct (owned_block _ _ _ _ _ Hs Hp1) as (i & Hi & Ei).
    destruct (owned_block _ _ _ _ _ Hs Hq1) as (j & Hj & Ej). unfold stride, ptr_size in *.
    assert (i < j \/ j < i) as [?|?] by (assert (i <> j) by (intros ->; lia); lia); nia.
Qed.

(** ** Theorems *)

(** A pool of two 8-byte blocks at address 1000. *)
Definition sample_area : memory := list_to_map ((fun i => (i, 0)) <$> seqZ 1000 24).

Lemma sample_area_mapped : mapped 1000 1024 sample_area.
Proof.
  intros i Hi. apply elem_of_dom. unfold sample_area. rewrite dom_list_to_map.
  apply elem_of_list_to_set, list_elem_of_fmap. exists (i, 0). split; [done|].
  apply list_elem_of_fmap. exists i. split; [done|]. apply elem_of_seqZ. lia.
Qed.

Lemma sample_fresh : lists sample !! LSuspend 7 = None.
Proof. vm_compute. reflexivity. Qed.

Lemma sample_pool :
  exists mp m, kernel_inv sample_ipc /\ waiters_ok 7 mp sample_ipc /\
    pool_rep 7 mp m [1000; 1012] /\ suspend_thread_count mp = 0 /\ all_blocks mp = [1000; 1012].
Proof.
  destruct (mp_init_spec 7 1000 24 8 sample_area sample sample_inv sample_fresh)
    as (mp & m & E & Hk & Hw & Hp & Hc & Hst & Hsa & Hs0 & _); [lia|lia|lia|zlia|zlia|..].
  { apply sample_area_mapped. }
  assert (all_blocks mp = [1000; 1012]) as Ha.
  { unfold all_blocks. rewrite Hc, Hst, Hsa. reflexivity. }
  exists mp, m. rewrite Ha in Hp. split_and!; try done.
Qed.

(** rt_mp_init divides the area into as many aligned blocks as fit, links
    all of them into the free list in address order, touches nothing outside
    the area and leaves nobody waiting. *)
Theorem rt_mp_init_links_all_blocks o start sz bsz m k :
  let st := (bsz + 3) / 4 * 4 + 4 in
  let count := sz / 4 * 4 / st in
  kernel_inv k -> lists k !! LSuspend o = None ->
  0 < start -> 0 <= bsz <= 2 ^ 32 - 8 -> 0 <= sz < 2 ^ 32 -> st <= sz / 4 * 4 ->
  start + count * st <= 2 ^ 32 -> mapped start (start + count * st) m ->
  exists mp m', let k' := rt_ipc_object_init (LSuspend o) k in
    rt_mp_init o start sz bsz m k = Some (mp, m', k', RT_EOK) /\
    kernel_inv k' /\ waiters_ok o mp k' /\ pool_rep o mp m' (all_blocks mp) /\
    block_total_count mp = count /\ stride mp = st /\ start_address mp = start /\
    suspend_thread_count mp = 0 /\ only start (start + count * st) m m'.
Proof. apply mp_init_spec. Qed.

Lemma rt_mp_init_links_all_blocks_witness :
  exists mp m' k', rt_mp_init 7 1000 24 8 sample_area sample = Some (mp, m', k', RT_EOK) /\
    block_total_count mp = 2.
Proof.
  destruct (rt_mp_init_links_all_blocks 7 1000 24 8 sample_area sample sample_inv sample_fresh)
    as (mp & m & E & _ & _ & _ & Hc & _); [lia|lia|lia|zlia|zlia|apply sample_area_mapped|].
  exists mp, m, (rt_ipc_object_init (LSuspend 7) sample). split; [exact E|exact Hc].
Defined.

(** rt_mp_alloc takes the first block of the free list and writes only its
    link word; with no free block it returns RT_NULL with -RT_ETIMEOUT for
    time 0 and otherwise suspends the caller in front of those already
    waiting, counts it and arms its timer. The pool, the wait list and the
    kernel stay well formed. *)
Theorem rt_mp_alloc_takes_first_block o time mp m k free cur cth :
  kernel_inv k -> waiters_ok o mp k -> pool_rep o mp m free -> caller k cur cth ->
  0 <= o < 2 ^ 32 -> time < HALF -> suspend_thread_count mp < 2 ^ 32 - 1 ->
  exists mp' m' k' r, rt_mp_alloc o time mp m k = Some (mp', m', k', r) /\
    kernel_inv k' /\ waiters_ok o mp' k' /\ pool_rep o mp' m' (tail free) /\
    alloc_post o time cur mp m k free mp' m' k' r.
Proof. apply mp_alloc_spec. Qed.

Lemma rt_mp_alloc_takes_first_block_witness :
  exists mp m mp' m' k', rt_mp_alloc 7 0 mp m sample_ipc = Some (mp', m', k', MpDone (Some 1004)) /\
    pool_rep 7 mp' m' [1012].
Proof.
  destruct sample_pool as (mp & m & Hk & Hw & Hp & Hc & _). destruct sample_ipc_caller as [cth Hca].
  destruct (rt_mp_alloc_takes_first_block 7 0 mp m sample_ipc [1000; 1012] 1 cth Hk Hw Hp Hca)
    as (mp' & m' & k' & r & E & _ & _ & Hp' & -> & _); [lia|reflexivity|lia|].
  exists mp, m, mp', m', k'. split; [exact E|exact Hp'].
Defined.

(** rt_mp_free puts the block in front of the free list and, if threads
    wait, wakes the first one with a cleared error and its timer disarmed;
    it faults exactly if the pool counts a waiter although its wait list is
    empty. *)
Theorem rt_mp_free_returns_block o b mp pools m k free :
  kernel_inv k -> is_Some (rt_current_thread k) -> pools !! o = Some mp ->
  waiters_ok o mp k -> pool_rep o mp m free -> is_block mp b -> b ∉ free ->
  if bool_decide (0 < suspend_thread_count mp /\ lists k !! LSuspend o = Some [])
  then rt_mp_free (b + 4) pools m k = None
  else exists mp' m' k', rt_mp_free (b + 4) pools m k = Some (<[o := mp']> pools, m', k') /\
    kernel_inv k' /\ waiters_ok o mp' k' /\ pool_rep o mp' m' (b :: free) /\
    only b (b + 4) m m' /\ free_post o mp k mp' k'.
Proof. apply mp_free_spec. Qed.

Lemma rt_mp_free_returns_block_witness :
  exists mp m mp' m' k', rt_mp_free 1004 {[7 := mp]} m sample_ipc = Some ({[7 := mp']}, m', k') /\
    pool_rep 7 mp m [1012] /\ pool_rep 7 mp' m' [1000; 1012].
Proof.
  destruct sample_pool as (mp0 & m0 & Hk & Hw & Hp & Hc & Ha). destruct sample_ipc_caller as [cth Hca].
  destruct (mp_alloc_spec 7 0 mp0 m0 sample_ipc [1000; 1012] 1 cth Hk Hw Hp Hca)
    as (mp & m & k' & r & E & _ & Hw1 & Hp1 & -> & -> & _ & Hc1); [lia|reflexivity|lia|].
  destruct (alloc_owned 7 0 mp0 m0 sample_ipc mp m sample_ipc _ [1000; 1012] ltac:(lia) Hp E) as [Ha1 _].
  rewrite Ha in Ha1. rewrite Hc in Hc1.
  pose proof (rt_mp_free_returns_block 7 1000 mp {[7 := mp]} m sample_ipc [1012] Hk) as H.
  rewrite bool_decide_eq_false_2 in H by (rewrite Hc1; lia).
  destruct H as (mp' & m' & k' & E' & _ & _ & Hp' & _).
  - rewrite (ca_current _ _ _ Hca). eauto.
  - apply lookup_singleton_eq.
  - exact Hw1.
  - exact Hp1.
  - apply all_blocks_spec; [apply (pr_geo _ _ _ _ Hp1)|]. rewrite Ha1. left.
  - set_solver.
  - exists mp, m, mp', m', k'. split; [|split; [exact Hp1|exact Hp']].
    rewrite insert_singleton_eq in E'. exact E'.
Defined.

(** C24. From a fresh pool on, over any sequence of allocations, releases of
    held blocks and writes of the holders into their blocks, each block is
    either free or held by exactly one holder, held blocks lie inside the
    pool and do not overlap each other or any link word. *)
Theorem mp_blocks_exclusive o mp0 m0 mp m held :
  0 <= o < 2 ^ 32 -> pool_rep o mp0 m0 (all_blocks mp0) ->
  rtc (mp_step o) (mp0, m0, []) (mp, m, held) ->
  mp_owned o (mp, m, held) /\ NoDup held /\
  (forall p, p ∈ held -> start_address mp + 4 <= p /\
     p + block_size mp <= start_address mp + block_total_count mp * stride mp) /\
  (forall p q, p ∈ held -> q ∈ held -> p <> q -> p + block_size mp <= q - 4 \/ q + block_size mp <= p - 4).
Proof.
  intros Ho Hp Hr. assert (mp_owned o (mp, m, held)) as Hs; [|by split; [|eapply owned_exclusive]].
  assert (mp_owned o (mp0, m0, [])) as H0 by (exists (all_blocks mp0); by rewrite app_nil_r).
  revert H0. induction Hr as [|s1 s2 s3 H12 _ IH]; [done|]. intros H1. by eapply IH, mp_step_owned.
Qed.

Lemma mp_blocks_exclusive_witness :
  exists mp m mp' m', rtc (mp_step 7) (mp, m, []) (mp', m', [1004]) /\ mp_owned 7 (mp', m', [1004]).
Proof.
  destruct sample_pool as (mp & m & Hk & Hw & Hp & Hc & Ha). destruct sample_ipc_caller as [cth Hca].
  destruct (mp_alloc_spec 7 0 mp m sample_ipc [1000; 1012] 1 cth Hk Hw Hp Hca)
    as (mp' & m' & k' & r & E & _ & _ & _ & -> & _); [lia|reflexivity|lia|].
  assert (rtc (mp_step 7) (mp, m, []) (mp', m', [1004])) as Hr.
  { apply rtc_once. eapply MpAlloc. exact E. }
  exists mp, m, mp', m'. split; [exact Hr|].
  apply (mp_blocks_exclusive 7 mp m mp' m' [1004]); [lia|by rewrite Ha|exact Hr].
Defined.

(** Thread 1 waits five ticks for the only block of a pool and gives up; then
    the holder releases the block.  The result is the error of the thread, what
    the allocation returned and what the release did. *)
Definition used_pool : rt_mempool := mk_mp 1000 12 8 0 1 0 0 true.

Fixpoint ticks (n : nat) (k : kernel) : option kernel :=
  match n with
  | O => Some k
  | S n => k ← Clock.Clock.SysTick_Handler (fun _ _ k => Some k) k; ticks n k
  end.

Definition timed_out_run : option (Z * option mp_result * option (gmap Z rt_mempool)) :=
  m ← store 4 1000 7 sample_area;
  '(mp, m, k, r) ← rt_mp_alloc 7 5 used_pool m sample_ipc;
  match r with
  | MpBlocked t time d =>
      k ← ticks 5 k;
      th ← threads k !! t;
      Some (error th,
            (fun '(_, _, _, r) => r) <$> rt_mp_alloc_resume 7 t time d mp m k,
            (fun '(pools, _, _) => pools) <$> rt_mp_free 1004 {[7 := mp]} m k)
  | _ => None
  end.

(** A thread that waited five ticks for a block and gave up is no longer in
    the wait list but still counted; the next rt_mp_free takes the empty
    list's head for a thread and faults. *)
Lemma timed_out_waiter_breaks_free :
  timed_out_run = Some (- RT_ETIMEOUT, Some (MpDone None), None).
Proof. vm_compute. reflexivity. Qed.

End MemPool.
