(* ===== verification/KString.v ===== *)
(** * Memory and string functions of the kernel

    [rt_mem*] and [rt_str*] of [src/kservice.c] on byte memory.  [rt_memset] and
    [rt_memcpy] work word by word where they can; they are compared with the byte
    loops of [Bytes], which the other components use.  A string is a sequence of
    non-zero bytes followed by a zero byte; plain [char] is unsigned on this
    processor.  Loops that look for the terminator get one unit of fuel per
    mapped byte. *)

From S2P Require Import Prelude Bytes.
Import Bytes.

Module KString.

(** ** Filling and copying *)

Definition LBLOCKSIZE : Z := 4.
Definition UNALIGNED (x : Z) : bool := negb (Z.land x (LBLOCKSIZE - 1) =? 0).

(** The two word loops of [rt_memset]: four words, then one word at a time. *)
Fixpoint set_big (fuel : nat) (a count buffer : Z) (m : gmap Z Z) : option (Z * Z * memory) :=
  if 4 * LBLOCKSIZE <=? count then
    match fuel with
    | O => None
    | S fuel =>
        m ← store 4 a buffer m;
        m ← store 4 (a + 4) buffer m;
        m ← store 4 (a + 8) buffer m;
        m ← store 4 (a + 12) buffer m;
        set_big fuel (a + 16) (count - 4 * LBLOCKSIZE) buffer m
    end
  else Some (a, count, m).

Fixpoint set_words (fuel : nat) (a count buffer : Z) (m : gmap Z Z) : option (Z * Z * memory) :=
  if LBLOCKSIZE <=? count then
    match fuel with
    | O => None
    | S fuel => m ← store 4 a buffer m; set_words fuel (a + 4) (count - LBLOCKSIZE) buffer m
    end
  else Some (a, count, m).

(** The remainder is the byte loop [memset]. *)
Definition rt_memset (s c count : Z) (m : gmap Z Z) : option memory :=
  let d := Z.land c 0xff in
  '(a, count, m) ←
    (if negb (count <? LBLOCKSIZE) && negb (UNALIGNED s) then
       let buffer := Z.lor (Z.shiftl d 8) d in
       let buffer := u32 (Z.lor buffer (Z.shiftl buffer 16)) in
       '(a, count, m) ← set_big (Z.to_nat count) s count buffer m;
       set_words (Z.to_nat count) a count buffer m
     else Some (s, count, m));
  memset (Z.to_nat count) a d m.

(** One [*aligned_dst++ = *aligned_src++]. *)
Definition copy_word (dst src : Z) (m : gmap Z Z) : option memory :=
  v ← load 4 src m; store 4 dst v m.

Fixpoint copy_big (fuel : nat) (dst src len : Z) (m : gmap Z Z) : option (Z * Z * Z * memory) :=
  if 16 <=? len then
    match fuel with
    | O => None
    | S fuel =>
        m ← copy_word dst src m;
        m ← copy_word (dst + 4) (src + 4) m;
        m ← copy_word (dst + 8) (src + 8) m;
        m ← copy_word (dst + 12) (src + 12) m;
        copy_big fuel (dst + 16) (src + 16) (len - 16) m
    end
  else Some (dst, src, len, m).

Fixpoint copy_words (fuel : nat) (dst src len : Z) (m : gmap Z Z) : option (Z * Z * Z * memory) :=
  if 4 <=? len then
    match fuel with
    | O => None
    | S fuel => m ← copy_word dst src m; copy_words fuel (dst + 4) (src + 4) (len - 4) m
    end
  else Some (dst, src, len, m).

Definition rt_memcpy (dst src count : Z) (m : gmap Z Z) : option memory :=
  '(dst, src, len, m) ←
    (if negb (count <? 16) && negb (UNALIGNED (Z.lor src dst)) then
       '(dst, src, len, m) ← copy_big (Z.to_nat count) dst src count m;
       copy_words (Z.to_nat len) dst src len m
     else Some (dst, src, count, m));
  move (Z.to_nat len) dst src m.

Fixpoint move_back (n : nat) (tmp s : Z) (m : gmap Z Z) : option memory :=
  match n with
  | O => Some m
  | S n => b ← m !! (s - 1); _ ← m !! (tmp - 1); move_back n (tmp - 1) (s - 1) (<[tmp - 1 := b]> m)
  end.

Definition rt_memmove (dest src n : Z) (m : gmap Z Z) : option memory :=
  if (src <? dest) && (dest <? src + n) then move_back (Z.to_nat n) (dest + n) (src + n) m
  else move (Z.to_nat n) dest src m.

Fixpoint memcmp_loop (n : nat) (su1 su2 res : Z) (m : gmap Z Z) : option Z :=
  match n with
  | O => Some res
  | S n =>
      a ← m !! su1; b ← m !! su2;
      if negb (a - b =? 0) then Some (a - b) else memcmp_loop n (su1 + 1) (su2 + 1) (a - b) m
  end.

Definition rt_memcmp (cs ct count : Z) (m : gmap Z Z) : option Z :=
  memcmp_loop (Z.to_nat count) cs ct 0 m.

(** ** Strings *)

Fixpoint strlen_loop (fuel : nat) (sc : Z) (m : gmap Z Z) : option Z :=
  c ← m !! sc;
  if c =? 0 then Some sc
  else match fuel with O => None | S fuel => strlen_loop fuel (sc + 1) m end.

Definition rt_strlen (s : Z) (m : gmap Z Z) : option Z :=
  sc ← strlen_loop (size m) s m; Some (sc - s).

(** The character is read before the length is tested. *)
Fixpoint strnlen_loop (fuel : nat) (s sc maxlen : Z) (m : gmap Z Z) : option Z :=
  c ← m !! sc;
  if negb (c =? 0) && (sc - s <? i32 maxlen) then
    match fuel with O => None | S fuel => strnlen_loop fuel s (sc + 1) maxlen m end
  else Some sc.

Definition rt_strnlen (s maxlen : Z) (m : gmap Z Z) : option Z :=
  sc ← strnlen_loop (size m) s s maxlen m; Some (sc - s).

Fixpoint strcmp_loop (fuel : nat) (cs ct : Z) (m : gmap Z Z) : option Z :=
  a ← m !! cs;
  if negb (a =? 0) then
    b ← m !! ct;
    if a =? b then match fuel with O => None | S fuel => strcmp_loop fuel (cs + 1) (ct + 1) m end
    else Some (a - b)
  else b ← m !! ct; Some (a - b).

Definition rt_strcmp (cs ct : Z) (m : gmap Z Z) : option Z := strcmp_loop (size m) cs ct m.

(** The result is a signed char. *)
Fixpoint strncmp_loop (count : nat) (cs ct res : Z) (m : gmap Z Z) : option Z :=
  match count with
  | O => Some res
  | S count =>
      a ← m !! cs; b ← m !! ct;
      let res := wraps 8 (a - b) in
      if negb (res =? 0) || (a =? 0) then Some res else strncmp_loop count (cs + 1) (ct + 1) res m
  end.

Definition rt_strncmp (cs ct count : Z) (m : gmap Z Z) : option Z :=
  strncmp_loop (Z.to_nat count) cs ct 0 m.

Definition lower (c : Z) : Z := if (65 <=? c) && (c <=? 90) then c + 32 else c.

Fixpoint strcasecmp_loop (fuel : nat) (a b : Z) (m : gmap Z Z) : option Z :=
  ca ← m !! a; cb ← m !! b;
  let ca := lower (Z.land ca 0xff) in
  let cb := lower (Z.land cb 0xff) in
  if (ca =? cb) && negb (ca =? 0) then
    match fuel with O => None | S fuel => strcasecmp_loop fuel (a + 1) (b + 1) m end
  else Some (u32 (ca - cb)).

Definition rt_strcasecmp (a b : Z) (m : gmap Z Z) : option Z := strcasecmp_loop (size m) a b m.

Fixpoint strncpy_loop (n : nat) (d s : Z) (m : gmap Z Z) : option memory :=
  match n with
  | O => Some m
  | S n =>
      c ← m !! s; _ ← m !! d;
      let m := <[d := c]> m in
      if c =? 0 then memset n (d + 1) 0 m else strncpy_loop n (d + 1) (s + 1) m
  end.

Definition rt_strncpy (dst src n : Z) (m : gmap Z Z) : option memory :=
  strncpy_loop (Z.to_nat n) dst src m.

(** [None] of the inner type is [RT_NULL]. *)
Fixpoint strstr_loop (fuel : nat) (s1 s2 l1 l2 : Z) (m : gmap Z Z) : option (option Z) :=
  if l2 <=? l1 then
    match fuel with
    | O => None
    | S fuel =>
        r ← rt_memcmp s1 s2 l2 m;
        if r =? 0 then Some (Some s1) else strstr_loop fuel (s1 + 1) s2 (l1 - 1) l2 m
    end
  else Some None.

Definition rt_strstr (s1 s2 : Z) (m : gmap Z Z) : option (option Z) :=
  l2 ← rt_strlen s2 m;
  if l2 =? 0 then Some (Some s1)
  else l1 ← rt_strlen s1 m; strstr_loop (S (Z.to_nat l1)) s1 s2 l1 l2 m.

(** [tmp] is the result of [rt_malloc]. *)
Definition rt_strdup (tmp : option Z) (s : Z) (m : gmap Z Z) : option (option Z * memory) :=
  n ← rt_strlen s m;
  let len := u32 (n + 1) in
  match tmp with
  | None => Some (None, m)
  | Some t => m ← rt_memcpy t s len m; Some (Some t, m)
  end.

(** ** Word loops are byte loops *)

Lemma memset_add n1 n2 : forall a v m,
  memset (n1 + n2) a v m = (m ← memset n1 a v m; memset n2 (a + Z.of_nat n1) v m).
Proof.
  induction n1 as [|n1 IH]; intros a v m.
  - cbn [Nat.add memset mbind option_bind]. by rewrite Z.add_0_r.
  - cbn [Nat.add memset]. destruct (m !! a); [|done]. cbn [mbind option_bind]. rewrite IH.
    by replace (a + Z.of_nat (S n1)) with (a + 1 + Z.of_nat n1) by lia.
Qed.

Lemma fill_word_table :
  Forall (fun d => u32 (Z.lor (Z.lor (Z.shiftl d 8) d) (Z.shiftl (Z.lor (Z.shiftl d 8) d) 16))
                   = d * 16843009) (seqZ 0 256).
Proof. by_computation. Qed.

Lemma fill_word d :
  0 <= d < 256 ->
  u32 (Z.lor (Z.lor (Z.shiftl d 8) d) (Z.shiftl (Z.lor (Z.shiftl d 8) d) 16)) = d * 16843009.
Proof.
  intros Hd. apply (proj1 (Forall_forall _ _) fill_word_table). apply elem_of_seqZ. lia.
Qed.

Lemma store_memset d a m : 0 <= d < 256 -> store 4 a (d * 16843009) m = memset 4 a d m.
Proof.
  intros Hd. unfold store, memset.
  replace ((d * 16843009) mod 256) with d by zlia.
  replace (d * 16843009 / 256) with (d * 65793) by zlia.
  replace ((d * 65793) mod 256) with d by zlia.
  replace (d * 65793 / 256) with (d * 257) by zlia.
  replace ((d * 257) mod 256) with d by zlia.
  replace (d * 257 / 256) with d by zlia. by rewrite (Z.mod_small d) by lia.
Qed.

Lemma set_words_spec d fuel : forall a count m,
  0 <= d < 256 -> 0 <= count <= Z.of_nat fuel ->
  set_words fuel a count (d * 16843009) m =
  (m ← memset (Z.to_nat (count / 4 * 4)) a d m; Some (a + count / 4 * 4, count mod 4, m)).
Proof.
  induction fuel as [|fuel IH]; intros a count m Hd Hc; cbn [set_words]; unfold LBLOCKSIZE.
  - replace count with 0 by lia. change (4 <=? 0) with false. cbn. by rewrite Z.add_0_r.
  - destruct (Z.leb_spec 4 count) as [H4|H4].
    + rewrite store_memset by done.
      replace (Z.to_nat (count / 4 * 4)) with (4 + Z.to_nat ((count - 4) / 4 * 4))%nat by zlia.
      rewrite memset_add. change (Z.of_nat 4) with 4.
      destruct (memset 4 a d m) as [m1|]; [|done]. cbn [mbind option_bind].
      rewrite IH by lia. destruct (memset _ (a + 4) d m1); [|done]. cbn [mbind option_bind].
      f_equal. f_equal. f_equal; zlia.
    + rewrite Z.div_small, Z.mod_small by lia. cbn. by rewrite Z.add_0_r.
Qed.

Lemma set_big_spec d fuel : forall a count m,
  0 <= d < 256 -> 0 <= count <= Z.of_nat fuel ->
  set_big fuel a count (d * 16843009) m =
  (m ← memset (Z.to_nat (count / 16 * 16)) a d m; Some (a + count / 16 * 16, count mod 16, m)).
Proof.
  induction fuel as [|fuel IH]; intros a count m Hd Hc; cbn [set_big]; unfold LBLOCKSIZE;
    change (4 * 4) with 16.
  - replace count with 0 by lia. change (16 <=? 0) with false. cbn. by rewrite Z.add_0_r.
  - destruct (Z.leb_spec 16 count) as [H4|H4].
    + replace (Z.to_nat (count / 16 * 16))
        with (4 + (4 + (4 + (4 + Z.to_nat ((count - 16) / 16 * 16)))))%nat by zlia.
      rewrite store_memset, memset_add by done. change (Z.of_nat 4) with 4.
      destruct (memset 4 a d m) as [m1|]; [|done]. cbn [mbind option_bind].
      rewrite store_memset, memset_add by done. change (Z.of_nat 4) with 4.
      destruct (memset 4 (a + 4) d m1) as [m2|]; [|done]. cbn [mbind option_bind].
      replace (a + 4 + 4) with (a + 8) by lia.
      rewrite store_memset, memset_add by done. change (Z.of_nat 4) with 4.
      destruct (memset 4 (a + 8) d m2) as [m3|]; [|done]. cbn [mbind option_bind].
      replace (a + 8 + 4) with (a + 12) by lia.
      rewrite store_memset, memset_add by done. change (Z.of_nat 4) with 4.
      destruct (memset 4 (a + 12) d m3) as [m4|]; [|done]. cbn [mbind option_bind].
      replace (a + 12 + 4) with (a + 16) by lia.
      rewrite IH by lia. destruct (memset _ (a + 16) d m4); [|done]. cbn [mbind option_bind].
      f_equal. f_equal. f_equal; zlia.
    + rewrite Z.div_small, Z.mod_small by lia. cbn. by rewrite Z.add_0_r.
Qed.

Lemma rt_memset_spec s c count m :
  0 <= count -> rt_memset s c count m = memset (Z.to_nat count) s (Z.land c 0xff) m.
Proof.
  intros Hc. unfold rt_memset.
  assert (0 <= Z.land c 255 < 256) as Hd.
  { change 255 with (Z.ones 8). rewrite Z.land_ones by lia. apply Z.mod_pos_bound. lia. }
  set (d := Z.land c 255) in *. destruct (negb (count <? LBLOCKSIZE) && negb (UNALIGNED s)); [|done].
  rewrite fill_word, set_big_spec by lia.
  assert (Z.to_nat count = Z.to_nat (count / 16 * 16) +
    (Z.to_nat (count mod 16 / 4 * 4) + Z.to_nat (count mod 4)))%nat as -> by zlia.
  rewrite memset_add. destruct (memset (Z.to_nat (count / 16 * 16)) s d m) as [m1|]; [|done].
  cbn [mbind option_bind]. rewrite set_words_spec by first [exact Hd|zlia].
  rewrite memset_add, !Z2Nat.id by zlia.
  destruct (memset _ (s + count / 16 * 16) d m1) as [m2|]; [|done]. cbn [mbind option_bind].
  f_equal. f_equal. zlia.
Qed.

Definition bytes_ok (m : gmap Z Z) : Prop := map_Forall (fun _ v => 0 <= v < 256) m.

Lemma move_add n1 n2 : forall dst src m,
  move (n1 + n2) dst src m =
  (m ← move n1 dst src m; move n2 (dst + Z.of_nat n1) (src + Z.of_nat n1) m).
Proof.
  induction n1 as [|n1 IH]; intros dst src m.
  - cbn [Nat.add move mbind option_bind]. by rewrite !Z.add_0_r.
  - cbn [Nat.add move]. destruct (m !! src); [|done]. cbn [mbind option_bind].
    destruct (m !! dst); [|done]. cbn [mbind option_bind]. rewrite IH.
    replace (dst + Z.of_nat (S n1)) with (dst + 1 + Z.of_nat n1) by lia.
    by replace (src + Z.of_nat (S n1)) with (src + 1 + Z.of_nat n1) by lia.
Qed.

Lemma move_bytes_ok n : forall dst src m m',
  bytes_ok m -> move n dst src m = Some m' -> bytes_ok m'.
Proof.
  induction n as [|n IH]; intros dst src m m' Hm E; cbn [move] in E; [by injection E as <-|].
  destruct (m !! src) as [b|] eqn:Eb; [|done]. cbn [mbind option_bind] in E.
  destruct (m !! dst); [|done]. cbn [mbind option_bind] in E. eapply IH; [|exact E].
  apply map_Forall_insert_2; [exact (Hm _ _ Eb)|exact Hm].
Qed.

(** The bytes of a word, stored one after the other. *)
Lemma store_bytes a b0 b1 b2 b3 m :
  0 <= b0 < 256 -> 0 <= b1 < 256 -> 0 <= b2 < 256 -> 0 <= b3 < 256 ->
  store 4 a (b0 + 256 * (b1 + 256 * (b2 + 256 * (b3 + 256 * 0)))) m =
  (_ ← m !! a; _ ← m !! (a + 1); _ ← m !! (a + 2); _ ← m !! (a + 3);
   Some (<[a + 3 := b3]> (<[a + 2 := b2]> (<[a + 1 := b1]> (<[a := b0]> m))))).
Proof.
  intros H0 H1 H2 H3. cbn [store].
  set (v := b0 + _). replace (v mod 256) with b0 by (unfold v; zlia).
  replace (v / 256) with (b1 + 256 * (b2 + 256 * b3)) by (unfold v; zlia).
  set (v1 := b1 + _). replace (v1 mod 256) with b1 by (unfold v1; zlia).
  replace (v1 / 256) with (b2 + 256 * b3) by (unfold v1; zlia).
  set (v2 := b2 + _). replace (v2 mod 256) with b2 by (unfold v2; zlia).
  replace (v2 / 256) with b3 by (unfold v2; zlia). rewrite (Z.mod_small b3) by lia.
  rewrite <- !Z.add_assoc. change (1 + 1) with 2. change (1 + 2) with 3.
  destruct (m !! a); [|done]. cbn [mbind option_bind].
  rewrite !(lookup_insert_ne _ _ (a + 1)) by lia.
  destruct (m !! (a + 1)); [|done]. cbn [mbind option_bind].
  rewrite !(lookup_insert_ne _ _ (a + 2)) by lia.
  destruct (m !! (a + 2)); [|done]. cbn [mbind option_bind].
  rewrite !(lookup_insert_ne _ _ (a + 3)) by lia. by destruct (m !! (a + 3)).
Qed.

Lemma copy_word_move dst src m :
  bytes_ok m -> dst <= src \/ src + 4 <= dst -> copy_word dst src m = move 4 dst src m.
Proof.
  intros Hm Hd. unfold copy_word. cbn [load move].
  rewrite <- !Z.add_assoc. change (1 + 1) with 2. change (1 + 2) with 3.
  destruct (m !! src) as [b0|] eqn:E0; [|done]. cbn [mbind option_bind].
  pose proof (Hm _ _ E0).
  destruct (m !! (src + 1)) as [b1|] eqn:E1.
  2: { destruct (m !! dst); [|done]. cbn [mbind option_bind]. by rewrite !(lookup_insert_ne _ _ (src + 1)), E1 by lia. }
  pose proof (Hm _ _ E1). cbn [mbind option_bind].
  destruct (m !! (src + 2)) as [b2|] eqn:E2.
  2: { destruct (m !! dst); [|done]. cbn [mbind option_bind].
       rewrite !(lookup_insert_ne _ _ (src + 1)), E1 by lia.
       cbn [mbind option_bind]. rewrite !(lookup_insert_ne _ _ (dst + 1)) by lia.
       destruct (m !! (dst + 1)); [|done]. cbn [mbind option_bind].
       by rewrite !(lookup_insert_ne _ _ (src + 2)), E2 by lia. }
  pose proof (Hm _ _ E2). cbn [mbind option_bind].
  destruct (m !! (src + 3)) as [b3|] eqn:E3.
  2: { destruct (m !! dst); [|done]. cbn [mbind option_bind].
       rewrite !(lookup_insert_ne _ _ (src + 1)), E1 by lia.
       cbn [mbind option_bind]. rewrite !(lookup_insert_ne _ _ (dst + 1)) by lia.
       destruct (m !! (dst + 1)); [|done]. cbn [mbind option_bind].
       rewrite !(lookup_insert_ne _ _ (src + 2)), E2 by lia. cbn [mbind option_bind].
       rewrite !(lookup_insert_ne _ _ (dst + 2)) by lia.
       destruct (m !! (dst + 2)); [|done]. cbn [mbind option_bind].
       by rewrite !(lookup_insert_ne _ _ (src + 3)), E3 by lia. }
  pose proof (Hm _ _ E3). cbn [mbind option_bind]. rewrite store_bytes by done.
  destruct (m !! dst); [|done]. cbn [mbind option_bind].
  rewrite (lookup_insert_ne m dst (src + 1)), E1 by lia. cbn [mbind option_bind].
  rewrite (lookup_insert_ne m dst (dst + 1)) by lia.
  destruct (m !! (dst + 1)); [|done]. cbn [mbind option_bind].
  rewrite !(lookup_insert_ne _ _ (src + 2)), E2 by lia. cbn [mbind option_bind].
  rewrite !(lookup_insert_ne _ _ (dst + 2)) by lia.
  destruct (m !! (dst + 2)); [|done]. cbn [mbind option_bind].
  rewrite !(lookup_insert_ne _ _ (src + 3)), E3 by lia. cbn [mbind option_bind].
  rewrite !(lookup_insert_ne _ _ (dst + 3)) by lia. by destruct (m !! (dst + 3)).
Qed.

Definition apart (dst src : Z) : Prop := dst <= src \/ src + 4 <= dst.

(** One word copied in front of the rest of a byte loop. *)
Lemma copy_word_then {A} n dst src (m : gmap Z Z) (f g : gmap Z Z -> option A) :
  bytes_ok m -> apart dst src ->
  (forall m1, bytes_ok m1 ->
     f m1 = (m2 ← move n (dst + 4) (src + 4) m1; g m2)) ->
  (m1 ← copy_word dst src m; f m1) = (m2 ← move (4 + n) dst src m; g m2).
Proof.
  intros Hm Hd Hf. rewrite copy_word_move, move_add by done. change (Z.of_nat 4) with 4.
  destruct (move 4 dst src m) as [m1|] eqn:E; [|done]. cbn [mbind option_bind].
  apply Hf. by eapply move_bytes_ok.
Qed.

Lemma copy_words_spec fuel : forall dst src len m,
  bytes_ok m -> apart dst src -> 0 <= len <= Z.of_nat fuel ->
  copy_words fuel dst src len m =
  (m ← move (Z.to_nat (len / 4 * 4)) dst src m;
   Some (dst + len / 4 * 4, src + len / 4 * 4, len mod 4, m)).
Proof.
  induction fuel as [|fuel IH]; intros dst src len m Hm Hd Hl; cbn [copy_words].
  - replace len with 0 by lia. change (4 <=? 0) with false. cbn. by rewrite !Z.add_0_r.
  - destruct (Z.leb_spec 4 len) as [H4|H4].
    + replace (Z.to_nat (len / 4 * 4)) with (4 + Z.to_nat ((len - 4) / 4 * 4))%nat by zlia.
      apply copy_word_then; [done..|]. intros m1 Hm1.
      rewrite IH by (done || unfold apart in *; lia).
      destruct (move _ _ _ m1); [|done]. cbn [mbind option_bind].
      replace (dst + 4 + (len - 4) / 4 * 4) with (dst + len / 4 * 4) by zlia.
      replace (src + 4 + (len - 4) / 4 * 4) with (src + len / 4 * 4) by zlia.
      by replace ((len - 4) mod 4) with (len mod 4) by zlia.
    + rewrite Z.div_small, Z.mod_small by lia. cbn. by rewrite !Z.add_0_r.
Qed.

Lemma copy_big_spec fuel : forall dst src len m,
  bytes_ok m -> apart dst src -> 0 <= len <= Z.of_nat fuel ->
  copy_big fuel dst src len m =
  (m ← move (Z.to_nat (len / 16 * 16)) dst src m;
   Some (dst + len / 16 * 16, src + len / 16 * 16, len mod 16, m)).
Proof.
  induction fuel as [|fuel IH]; intros dst src len m Hm Hd Hl; cbn [copy_big].
  - replace len with 0 by lia. change (16 <=? 0) with false. cbn. by rewrite !Z.add_0_r.
  - destruct (Z.leb_spec 16 len) as [H4|H4].
    + replace (Z.to_nat (len / 16 * 16))
        with (4 + (4 + (4 + (4 + Z.to_nat ((len - 16) / 16 * 16)))))%nat by zlia.
      apply copy_word_then; [done..|]. intros m1 Hm1.
      apply copy_word_then; [done|unfold apart in *; lia|]. intros m2 Hm2.
      rewrite <- !Z.add_assoc. change (4 + 4) with 8.
      apply (copy_word_then _ (dst + 8)); [done|unfold apart in *; lia|]. intros m3 Hm3.
      rewrite <- !Z.add_assoc. change (8 + 4) with 12.
      apply (copy_word_then _ (dst + 12)); [done|unfold apart in *; lia|]. intros m4 Hm4.
      rewrite <- !Z.add_assoc. change (12 + 4) with 16.
      rewrite IH by (done || unfold apart in *; lia).
      destruct (move _ _ _ m4); [|done]. cbn [mbind option_bind].
      replace (dst + 16 + (len - 16) / 16 * 16) with (dst + len / 16 * 16) by zlia.
      replace (src + 16 + (len - 16) / 16 * 16) with (src + len / 16 * 16) by zlia.
      by replace ((len - 16) mod 16) with (len mod 16) by zlia.
    + rewrite Z.div_small, Z.mod_small by lia. cbn. by rewrite !Z.add_0_r.
Qed.

Lemma aligned_lor x y : UNALIGNED (Z.lor x y) = false -> x mod 4 = 0 /\ y mod 4 = 0.
Proof.
  unfold UNALIGNED, LBLOCKSIZE. intros H. apply negb_false_iff, Z.eqb_eq in H.
  change (4 - 1) with (Z.ones 2) in H. rewrite Z.land_lor_distr_l in H.
  apply Z.lor_eq_0_iff in H as [Hx Hy]. rewrite Z.land_ones in Hx, Hy by lia.
  by change (2 ^ 2) with 4 in *.
Qed.

Lemma rt_memcpy_spec dst src count m :
  bytes_ok m -> 0 <= count -> rt_memcpy dst src count m = move (Z.to_nat count) dst src m.
Proof.
  intros Hm Hc. unfold rt_memcpy. destruct (negb (count <? 16)); [|done]. cbn [andb].
  destruct (UNALIGNED (Z.lor src dst)) eqn:Eu; [done|]. cbn [negb].
  apply aligned_lor in Eu as [Es Ed].
  assert (apart dst src) as Ha by (unfold apart; zlia).
  rewrite copy_big_spec by (done || lia).
  assert (Z.to_nat count = Z.to_nat (count / 16 * 16) +
    (Z.to_nat (count mod 16 / 4 * 4) + Z.to_nat (count mod 4)))%nat as -> by zlia.
  rewrite move_add, Z2Nat.id by zlia.
  destruct (move (Z.to_nat (count / 16 * 16)) dst src m) as [m1|] eqn:E1; [|done].
  cbn [mbind option_bind]. rewrite copy_words_spec;
    [|by eapply move_bytes_ok|unfold apart in *; lia|zlia].
  rewrite move_add, Z2Nat.id by zlia.
  destruct (move _ (dst + count / 16 * 16) _ m1) as [m2|]; [|done]. cbn [mbind option_bind].
  f_equal. f_equal. zlia.
Qed.

(** ** Overlapping areas *)

Lemma move_forward n : forall dst src m,
  mapped dst (dst + Z.of_nat n) m -> mapped src (src + Z.of_nat n) m ->
  dst <= src \/ src + Z.of_nat n <= dst ->
  exists m', move n dst src m = Some m' /\ only dst (dst + Z.of_nat n) m m' /\
    (forall i, 0 <= i < Z.of_nat n -> m' !! (dst + i) = m !! (src + i)).
Proof.
  induction n as [|n IH]; intros dst src m Hd Hs Hdis; cbn [move].
  { exists m. split_and!; try done. lia. }
  destruct (Hs src) as [b Hb]; [lia|]. rewrite Hb. cbn [mbind option_bind].
  destruct (Hd dst) as [c Hc]; [lia|]. rewrite Hc. cbn [mbind option_bind].
  assert (only dst (dst + Z.of_nat (S n)) m (<[dst := b]> m)) as Ho
    by (apply only_insert; [eauto|lia]).
  destruct (IH (dst + 1) (src + 1) (<[dst := b]> m)) as (m' & -> & Ho' & Hv); [..|lia|].
  1,2: eapply only_mapped; [exact Ho|]; intros i Hi; (apply Hd + apply Hs); lia.
  exists m'. split; [done|]. split.
  - eapply only_trans; [exact Ho|]. eapply only_weaken; [exact Ho'|lia|lia].
  - intros i Hi. destruct (decide (i = 0)) as [->|].
    + rewrite !Z.add_0_r. rewrite (proj2 Ho') by lia. rewrite lookup_insert_eq. done.
    + replace (dst + i) with (dst + 1 + (i - 1)) by lia. rewrite Hv by lia.
      rewrite lookup_insert_ne by lia. f_equal. lia.
Qed.

Lemma move_back_spec n : forall tmp s m,
  mapped (tmp - Z.of_nat n) tmp m -> mapped (s - Z.of_nat n) s m -> s <= tmp ->
  exists m', move_back n tmp s m = Some m' /\ only (tmp - Z.of_nat n) tmp m m' /\
    (forall i, 1 <= i <= Z.of_nat n -> m' !! (tmp - i) = m !! (s - i)).
Proof.
  induction n as [|n IH]; intros tmp s m Hd Hs Hle; cbn [move_back].
  { exists m. split_and!; try done. lia. }
  destruct (Hs (s - 1)) as [b Hb]; [lia|]. rewrite Hb. cbn [mbind option_bind].
  destruct (Hd (tmp - 1)) as [c Hc]; [lia|]. rewrite Hc. cbn [mbind option_bind].
  assert (only (tmp - Z.of_nat (S n)) tmp m (<[tmp - 1 := b]> m)) as Ho
    by (apply only_insert; [eauto|lia]).
  destruct (IH (tmp - 1) (s - 1) (<[tmp - 1 := b]> m)) as (m' & -> & Ho' & Hv); [..|lia|].
  1,2: eapply only_mapped; [exact Ho|]; intros i Hi; (apply Hd + apply Hs); lia.
  exists m'. split; [done|]. split.
  - eapply only_trans; [exact Ho|]. eapply only_weaken; [exact Ho'|lia|lia].
  - intros i Hi. destruct (decide (i = 1)) as [->|].
    + rewrite (proj2 Ho') by lia. by rewrite lookup_insert_eq.
    + replace (tmp - i) with (tmp - 1 - (i - 1)) by lia. rewrite Hv by lia.
      rewrite lookup_insert_ne by lia. f_equal. lia.
Qed.

Lemma rt_memmove_spec dest src n m :
  0 <= n -> mapped dest (dest + n) m -> mapped src (src + n) m ->
  exists m', rt_memmove dest src n m = Some m' /\ only dest (dest + n) m m' /\
    (forall i, 0 <= i < n -> m' !! (dest + i) = m !! (src + i)).
Proof.
  intros Hn Hd Hs. unfold rt_memmove.
  destruct (Z.ltb_spec src dest) as [H1|H1]; cbn [andb];
    [destruct (Z.ltb_spec dest (src + n)) as [H2|H2]|].
  2,3: destruct (move_forward (Z.to_nat n) dest src m) as (m' & E & Ho & Hv);
    rewrite ?Z2Nat.id in * by lia; [done..|lia|by exists m'].
  destruct (move_back_spec (Z.to_nat n) (dest + n) (src + n) m) as (m' & E & Ho & Hv);
    rewrite ?Z2Nat.id by lia; [..|lia|].
  1,2: intros i Hi; (apply Hd + apply Hs); lia.
  rewrite Z2Nat.id in Ho, Hv by lia. replace (dest + n - n) with dest in Ho by lia.
  exists m'. split_and!; try done. intros i Hi.
  replace (dest + i) with (dest + n - (n - i)) by lia. rewrite Hv by lia. f_equal. lia.
Qed.

(** ** Strings in memory *)

Fixpoint bytes_at (m : gmap Z Z) (a : Z) (l : list Z) : Prop :=
  match l with [] => True | b :: l => m !! a = Some b /\ bytes_at m (a + 1) l end.

(** A C string: its characters and the terminator. *)
Definition cstring (m : gmap Z Z) (s : Z) (l : list Z) : Prop :=
  bytes_at m s (l ++ [0]) /\ Forall (fun c => 0 < c < 256) l.

Lemma bytes_at_lookup m l : forall a i c,
  bytes_at m a l -> l !! i = Some c -> m !! (a + Z.of_nat i) = Some c.
Proof.
  induction l as [|b l IH]; intros a i c Hl Hi; [done|]. destruct Hl as [Hb Hl].
  destruct i as [|i]; simpl in Hi.
  - rewrite Z.add_0_r. by simplify_eq.
  - replace (a + Z.of_nat (S i)) with (a + 1 + Z.of_nat i) by lia. by apply IH.
Qed.

Lemma bytes_at_app m l k : forall a,
  bytes_at m a (l ++ k) <-> bytes_at m a l /\ bytes_at m (a + zlen l) k.
Proof.
  induction l as [|b l IH]; intros a; simpl.
  - rewrite Z.add_0_r. tauto.
  - rewrite IH. replace (a + zlen (b :: l)) with (a + 1 + zlen l) by (unfold zlen; simpl; lia). tauto.
Qed.

(** Fuel: the memory has more bytes than a string in it. *)
Lemma bytes_at_size m a l : bytes_at m a l -> (length l <= size m)%nat.
Proof.
  intros Hl.
  assert (list_to_set ((fun i => a + Z.of_nat i) <$> seq 0 (length l)) ⊆ dom m) as Hsub.
  { intros x [i [-> [_ Hi]%elem_of_seq]]%elem_of_list_to_set%list_elem_of_fmap.
    destruct (lookup_lt_is_Some_2 l i Hi) as [c Hc]. apply elem_of_dom. exists c.
    by eapply bytes_at_lookup. }
  apply subseteq_size in Hsub. rewrite size_list_to_set, length_fmap, length_seq in Hsub.
  - by rewrite size_dom in Hsub.
  - apply NoDup_fmap_2_strong; [|apply NoDup_seq]. intros x y _ _. lia.
Qed.

Lemma cstring_fuel m s l : cstring m s l -> (length l < size m)%nat.
Proof. intros [H _]. apply bytes_at_size in H. rewrite length_app in H. simpl in H. lia. Qed.

Lemma cstring_cons m s c l : cstring m s (c :: l) <-> m !! s = Some c /\ 0 < c < 256 /\ cstring m (s + 1) l.
Proof. unfold cstring. simpl. rewrite Forall_cons. tauto. Qed.

Lemma cstring_nil m s : cstring m s [] <-> m !! s = Some 0.
Proof. unfold cstring. simpl. split; [tauto|]. auto. Qed.

Lemma strlen_loop_spec m l : forall fuel s,
  cstring m s l -> (length l <= fuel)%nat -> strlen_loop fuel s m = Some (s + zlen l).
Proof.
  induction l as [|c l IH]; intros fuel s Hl Hf.
  - apply cstring_nil in Hl. destruct fuel; simpl; rewrite Hl; cbn; by rewrite Z.add_0_r.
  - apply cstring_cons in Hl as (Hs & Hc & Hl). destruct fuel as [|fuel]; [simpl in Hf; lia|].
    cbn [strlen_loop]. rewrite Hs. cbn [mbind option_bind].
    rewrite (proj2 (Z.eqb_neq c 0)) by lia. rewrite IH by (done || simpl in Hf; lia).
    f_equal. unfold zlen. simpl. lia.
Qed.

Lemma rt_strlen_spec m s l : cstring m s l -> rt_strlen s m = Some (zlen l).
Proof.
  intros Hl. unfold rt_strlen. pose proof (cstring_fuel _ _ _ Hl).
  rewrite (strlen_loop_spec m l) by (done || lia). cbn [mbind option_bind]. f_equal. lia.
Qed.

Lemma strnlen_loop_spec m maxlen l : forall fuel s sc,
  cstring m sc l -> (length l <= fuel)%nat -> 0 <= maxlen < 2 ^ 31 -> s <= sc ->
  sc - s <= maxlen ->
  strnlen_loop fuel s sc maxlen m = Some (sc + Z.min (zlen l) (maxlen - (sc - s))).
Proof.
  induction l as [|c l IH]; intros fuel s sc Hl Hf Hm Hle Hmx.
  - apply cstring_nil in Hl. change (zlen []) with 0. rewrite Z.min_l by lia.
    destruct fuel; simpl; rewrite Hl; cbn; by rewrite Z.add_0_r.
  - apply cstring_cons in Hl as (Hs & Hc & Hl). destruct fuel as [|fuel]; [simpl in Hf; lia|].
    cbn [strnlen_loop]. rewrite Hs. cbn [mbind option_bind].
    rewrite (proj2 (Z.eqb_neq c 0)) by lia. cbn [negb andb].
    rewrite (wraps_small 32 maxlen) by lia. unfold zlen. cbn [length].
    destruct (Z.ltb_spec (sc - s) maxlen).
    + rewrite IH by (done || simpl in Hf; lia). f_equal. unfold zlen. lia.
    + f_equal. lia.
Qed.

Lemma rt_strnlen_spec m s l maxlen :
  cstring m s l -> 0 <= maxlen < 2 ^ 31 -> rt_strnlen s maxlen m = Some (Z.min (zlen l) maxlen).
Proof.
  intros Hl Hm. unfold rt_strnlen. pose proof (cstring_fuel _ _ _ Hl).
  rewrite (strnlen_loop_spec m maxlen l) by (done || lia). cbn [mbind option_bind]. f_equal. lia.
Qed.

(** *** Comparison *)

(** The difference at the first position where two strings differ. *)
Fixpoint str_diff (xs ys : list Z) : Z :=
  match xs, ys with
  | [], [] => 0
  | [], y :: _ => - y
  | x :: _, [] => x
  | x :: xs, y :: ys => if x =? y then str_diff xs ys else x - y
  end.

Lemma str_diff_0 xs : forall ys,
  Forall (fun c => 0 < c < 256) xs -> Forall (fun c => 0 < c < 256) ys ->
  str_diff xs ys = 0 <-> xs = ys.
Proof.
  induction xs as [|x xs IH]; intros [|y ys] Hx Hy; simpl; try done.
  - apply Forall_cons in Hy as [? _]. split; [lia|done].
  - apply Forall_cons in Hx as [? _]. split; [lia|done].
  - apply Forall_cons in Hx as [? Hx]. apply Forall_cons in Hy as [? Hy].
    destruct (Z.eqb_spec x y) as [->|Hne].
    + rewrite (IH ys Hx Hy). split; [by intros ->|by injection 1].
    + split; [lia|]. by injection 1.
Qed.

Lemma strcmp_loop_spec m xs : forall ys fuel cs ct,
  cstring m cs xs -> cstring m ct ys -> (length xs <= fuel)%nat ->
  strcmp_loop fuel cs ct m = Some (str_diff xs ys).
Proof.
  induction xs as [|x xs IH]; intros ys fuel cs ct Hx Hy Hf.
  - apply cstring_nil in Hx. destruct ys as [|y ys];
      [apply cstring_nil in Hy|apply cstring_cons in Hy as (Hy & _)];
      destruct fuel; cbn [strcmp_loop]; rewrite Hx; cbn [mbind option_bind Z.eqb negb];
      by rewrite Hy.
  - apply cstring_cons in Hx as (Hx & Hc & Hxs). destruct fuel as [|fuel]; [simpl in Hf; lia|].
    cbn [strcmp_loop]. rewrite Hx. cbn [mbind option_bind].
    rewrite (proj2 (Z.eqb_neq x 0)) by lia. cbn [negb]. destruct ys as [|y ys].
    + apply cstring_nil in Hy. rewrite Hy. cbn [mbind option_bind str_diff].
      rewrite (proj2 (Z.eqb_neq x 0)) by lia. f_equal. lia.
    + apply cstring_cons in Hy as (Hy & Hcy & Hys). rewrite Hy. cbn [mbind option_bind str_diff].
      destruct (x =? y); [|done]. apply IH; [done|done|simpl in Hf; lia].
Qed.

Lemma rt_strcmp_spec m cs ct xs ys :
  cstring m cs xs -> cstring m ct ys -> rt_strcmp cs ct m = Some (str_diff xs ys).
Proof.
  intros Hx Hy. pose proof (cstring_fuel _ _ _ Hx). apply strcmp_loop_spec; [done|done|lia].
Qed.

Lemma wraps8_0 x y : 0 <= x < 256 -> 0 <= y < 256 -> wraps 8 (x - y) = 0 <-> x = y.
Proof.
  intros Hx Hy. destruct (wraps_cong 8 (x - y)) as [k E]; [lia|]. change (2 ^ 8) with 256 in E.
  split; [|intros ->; by rewrite Z.sub_diag]. intros H. rewrite H in E. lia.
Qed.

Lemma strncmp_loop_spec m n : forall xs ys cs ct res,
  cstring m cs xs -> cstring m ct ys ->
  strncmp_loop n cs ct res m =
  Some (if (n =? 0)%nat then res else wraps 8 (str_diff (take n xs) (take n ys))).
Proof.
  induction n as [|n IH]; intros xs ys cs ct res Hx Hy; [done|]. cbn [strncmp_loop Nat.eqb].
  destruct xs as [|x xs].
  - apply cstring_nil in Hx. rewrite Hx. cbn [mbind option_bind].
    destruct ys as [|y ys];
      [apply cstring_nil in Hy|apply cstring_cons in Hy as (Hy & _)]; rewrite Hy;
      cbn [mbind option_bind]; by rewrite orb_true_r.
  - apply cstring_cons in Hx as (Hx & Hc & Hxs). rewrite Hx. cbn [mbind option_bind].
    destruct ys as [|y ys].
    + apply cstring_nil in Hy. rewrite Hy. cbn [mbind option_bind take str_diff].
      rewrite (proj2 (Z.eqb_neq x 0)), orb_false_r by lia.
      rewrite Z.sub_0_r. pose proof (wraps8_0 x 0) as H0. rewrite Z.sub_0_r in H0.
      rewrite (proj2 (Z.eqb_neq _ 0)) by (intros E; apply H0 in E; lia). done.
    + apply cstring_cons in Hy as (Hy & Hcy & Hys). rewrite Hy. cbn [mbind option_bind take str_diff].
      rewrite (proj2 (Z.eqb_neq x 0)), orb_false_r by lia.
      destruct (Z.eqb_spec x y) as [->|Hne].
      * rewrite Z.sub_diag. cbn [negb]. change (wraps 8 0 =? 0) with true. cbn [negb].
        rewrite (IH xs ys) by done. f_equal. by destruct n.
      * rewrite (proj2 (Z.eqb_neq (wraps 8 (x - y)) 0)); [done|].
        intros E. by apply (wraps8_0 x y ltac:(lia) ltac:(lia)) in E.
Qed.

Lemma rt_strncmp_spec m cs ct xs ys n :
  cstring m cs xs -> cstring m ct ys -> 0 <= n ->
  rt_strncmp cs ct n m = Some (wraps 8 (str_diff (take (Z.to_nat n) xs) (take (Z.to_nat n) ys))).
Proof.
  intros Hx Hy Hn. unfold rt_strncmp. rewrite (strncmp_loop_spec m _ xs ys) by done. f_equal.
  by destruct (Z.to_nat n).
Qed.

Lemma lower_pos c : 0 < c < 256 -> 0 < lower c < 256.
Proof. intros Hc. unfold lower. repeat case_bool; cbn [andb]; lia. Qed.

Lemma land_255 c : 0 <= c < 256 -> Z.land c 255 = c.
Proof. intros Hc. change 255 with (Z.ones 8). rewrite Z.land_ones by lia. by apply Z.mod_small. Qed.

Lemma strcasecmp_loop_spec m xs : forall ys fuel a b,
  cstring m a xs -> cstring m b ys -> (length xs <= fuel)%nat ->
  strcasecmp_loop fuel a b m = Some (u32 (str_diff (lower <$> xs) (lower <$> ys))).
Proof.
  induction xs as [|x xs IH]; intros ys fuel a b Hx Hy Hf.
  - apply cstring_nil in Hx. destruct ys as [|y ys].
    + apply cstring_nil in Hy. destruct fuel; cbn [strcasecmp_loop]; rewrite Hx, Hy; done.
    + apply cstring_cons in Hy as (Hy & Hc & _). pose proof (lower_pos y Hc).
      assert (strcasecmp_loop fuel a b m = Some (u32 (0 - lower y))) as ->.
      { destruct fuel; cbn [strcasecmp_loop]; rewrite Hx, Hy; cbn [mbind option_bind];
          rewrite (land_255 y) by lia; change (lower (Z.land 0 255)) with 0;
          rewrite (proj2 (Z.eqb_neq 0 (lower y))) by lia; done. }
      done.
  - apply cstring_cons in Hx as (Hx & Hc & Hxs). destruct fuel as [|fuel]; [simpl in Hf; lia|].
    pose proof (lower_pos x Hc). cbn [strcasecmp_loop]. rewrite Hx. cbn [mbind option_bind].
    destruct ys as [|y ys].
    + apply cstring_nil in Hy. rewrite Hy. cbn [mbind option_bind]. rewrite land_255 by lia.
      change (lower (Z.land 0 255)) with 0. rewrite (proj2 (Z.eqb_neq (lower x) 0)) by lia.
      cbn [andb]. by rewrite Z.sub_0_r.
    + apply cstring_cons in Hy as (Hy & Hcy & Hys). rewrite Hy. cbn [mbind option_bind].
      rewrite !land_255 by lia. rewrite (proj2 (Z.eqb_neq (lower x) 0)) by lia.
      cbn [negb fmap list_fmap str_diff]. rewrite andb_true_r.
      destruct (lower x =? lower y); [|done]. apply IH; [done|done|simpl in Hf; lia].
Qed.

Lemma rt_strcasecmp_spec m a b xs ys :
  cstring m a xs -> cstring m b ys ->
  rt_strcasecmp a b m = Some (u32 (str_diff (lower <$> xs) (lower <$> ys))).
Proof.
  intros Hx Hy. pose proof (cstring_fuel _ _ _ Hx). apply strcasecmp_loop_spec; [done|done|lia].
Qed.

Lemma memcmp_loop_spec m xs : forall ys cs ct,
  bytes_at m cs xs -> bytes_at m ct ys -> length xs = length ys ->
  memcmp_loop (length xs) cs ct 0 m = Some (str_diff xs ys).
Proof.
  induction xs as [|x xs IH]; intros [|y ys] cs ct Hx Hy Hl; [done..|].
  destruct Hx as [Hx Hxs], Hy as [Hy Hys]. cbn [length memcmp_loop]. rewrite Hx, Hy.
  cbn [mbind option_bind str_diff]. destruct (Z.eqb_spec (x - y) 0) as [E|E]; cbn [negb].
  - rewrite E. replace y with x by lia. rewrite Z.eqb_refl. apply IH; [done|done|]. by injection Hl.
  - by rewrite (proj2 (Z.eqb_neq x y)) by lia.
Qed.

Lemma rt_memcmp_spec m cs ct xs ys :
  bytes_at m cs xs -> bytes_at m ct ys -> length xs = length ys ->
  rt_memcmp cs ct (zlen xs) m = Some (str_diff xs ys).
Proof. intros. unfold rt_memcmp, zlen. rewrite Nat2Z.id. by apply memcmp_loop_spec. Qed.

(** *** Search *)

(** The first occurrence of [k] in [l]. *)
Fixpoint find_sub (k l : list Z) : option nat :=
  if bool_decide (take (length k) l = k) then Some 0%nat
  else match l with [] => None | _ :: l => S <$> find_sub k l end.

Lemma find_sub_spec k l :
  match find_sub k l with
  | Some i => take (length k) (drop i l) = k /\ forall j, (j < i)%nat -> take (length k) (drop j l) <> k
  | None => forall j, take (length k) (drop j l) <> k
  end.
Proof.
  induction l as [|x l IH]; cbn [find_sub].
  - case_bool_decide as E; [split; [done|lia]|]. intros j. by rewrite drop_nil.
  - case_bool_decide as E; [split; [done|lia]|].
    destruct (find_sub k l) as [i|]; cbn [fmap option_fmap option_map].
    + destruct IH as [H1 H2]. split; [done|]. intros [|j] Hj; [done|]. apply H2. lia.
    + intros [|j]; [done|]. apply IH.
Qed.

Lemma strstr_loop_spec m k s2 l : forall fuel s1,
  cstring m s1 l -> cstring m s2 k -> k <> [] -> (length l < fuel)%nat ->
  strstr_loop fuel s1 s2 (zlen l) (zlen k) m =
  Some ((fun i => s1 + Z.of_nat i) <$> find_sub k l).
Proof.
  assert (forall (l : list Z), zlen l < zlen k -> find_sub k l = None) as Hshort.
  { intros l'. induction l' as [|x l' IH]; intros Hl; cbn [find_sub];
      (rewrite bool_decide_eq_false_2;
        [|intros E; apply (f_equal length) in E; rewrite length_take in E; unfold zlen in Hl;
          simpl in *; lia]); [done|].
    rewrite IH; [done|]. unfold zlen in *. simpl in *. lia. }
  induction l as [|x l IH]; intros fuel s1 Hl Hk Hne Hf.
  - assert (0 < zlen k) by (destruct k; [done|unfold zlen; simpl; lia]).
    rewrite Hshort by done. destruct fuel; cbn [strstr_loop];
      (destruct (Z.leb_spec (zlen k) (@zlen Z [])) as [H0|]; [unfold zlen in *; simpl in *; lia|done]).
  - destruct fuel as [|fuel]; [simpl in Hf; lia|]. cbn [strstr_loop].
    destruct (Z.leb_spec (zlen k) (zlen (x :: l))) as [Hle|Hlt]; [|by rewrite Hshort].
    destruct Hk as [Hk Hk0]. pose proof (proj1 (bytes_at_app _ _ _ _) Hk) as [Hkb _].
    destruct Hl as [Hl Hl0].
    assert (length (take (length k) (x :: l)) = length k) as Hlen
      by (rewrite length_take; unfold zlen in Hle; lia).
    assert (bytes_at m s1 (take (length k) (x :: l))) as Htk.
    { apply bytes_at_app in Hl as [Hl _]. rewrite <- (take_drop (length k) (x :: l)) in Hl.
      by apply bytes_at_app in Hl as [Hl _]. }
    pose proof (rt_memcmp_spec m s1 s2 _ k Htk Hkb Hlen) as Hc.
    replace (zlen (take (length k) (x :: l))) with (zlen k) in Hc by (unfold zlen; lia).
    rewrite Hc. cbn [mbind option_bind].
    pose proof (str_diff_0 (take (length k) (x :: l)) k ltac:(by apply Forall_take) Hk0) as Hd.
    cbn [find_sub]. destruct (Z.eqb_spec (str_diff (take (length k) (x :: l)) k) 0) as [E|E].
    + rewrite bool_decide_eq_true_2 by (by apply Hd). cbn. by rewrite Z.add_0_r.
    + rewrite bool_decide_eq_false_2 by (by intros ?%Hd).
      replace (zlen (x :: l) - 1) with (zlen l) by (unfold zlen; simpl; lia).
      destruct (proj1 (cstring_cons m s1 x l) (conj Hl Hl0)) as (_ & _ & Hl').
      rewrite IH by (done || simpl in Hf; lia). f_equal.
      destruct (find_sub k l) as [i|]; cbn [fmap option_fmap option_map]; [|done]. f_equal. lia.
Qed.

Lemma rt_strstr_spec m s1 s2 l k :
  cstring m s1 l -> cstring m s2 k ->
  rt_strstr s1 s2 m = Some ((fun i => s1 + Z.of_nat i) <$> find_sub k l).
Proof.
  intros Hl Hk. unfold rt_strstr. rewrite (rt_strlen_spec m s2 k Hk). cbn [mbind option_bind].
  destruct (Z.eqb_spec (zlen k) 0) as [E|E].
  - destruct k; [|unfold zlen in E; simpl in E; lia].
    assert (find_sub [] l = Some 0%nat) as -> by (by destruct l). cbn. by rewrite Z.add_0_r.
  - rewrite (rt_strlen_spec m s1 l Hl). cbn [mbind option_bind].
    apply strstr_loop_spec; [done|done|by intros ->|unfold zlen; lia].
Qed.

(** *** Copying strings *)

Lemma bytes_at_only lo hi m m' l : forall a,
  only lo hi m m' -> a + zlen l <= lo \/ hi <= a -> bytes_at m a l -> bytes_at m' a l.
Proof.
  induction l as [|b l IH]; intros a Ho Ha Hl; [done|]. destruct Hl as [Hb Hl].
  unfold zlen in Ha. simpl in Ha. split.
  - rewrite (proj2 Ho) by lia. done.
  - apply IH; [done|unfold zlen; lia|done].
Qed.

Lemma bytes_at_const m v n : forall a,
  (forall i, a <= i < a + Z.of_nat n -> m !! i = Some v) -> bytes_at m a (replicate n v).
Proof.
  induction n as [|n IH]; intros a H; [done|]. split; [apply H; lia|]. apply IH.
  intros i Hi. apply H. lia.
Qed.

Lemma strncpy_loop_spec n : forall xs d s m,
  mapped d (d + Z.of_nat n) m -> cstring m s xs ->
  d + Z.of_nat n <= s \/ s + zlen xs + 1 <= d ->
  exists m', strncpy_loop n d s m = Some m' /\ only d (d + Z.of_nat n) m m' /\
    bytes_at m' d (take n (xs ++ replicate n 0)).
Proof.
  induction n as [|n IH]; intros xs d s m Hm Hs Hd; cbn [strncpy_loop]; [by exists m|].
  destruct (Hm d) as [c0 Hc0]; [lia|].
  assert (forall v, only d (d + Z.of_nat (S n)) m (<[d := v]> m)) as Ho
    by (intros v; apply only_insert; [eauto|lia]).
  assert (forall v, mapped (d + 1) (d + 1 + Z.of_nat n) (<[d := v]> m)) as Hm'.
  { intros v. eapply only_mapped; [apply (Ho v)|]. intros i Hi. apply Hm. lia. }
  destruct xs as [|x xs].
  - apply cstring_nil in Hs. rewrite Hs, Hc0. cbn [mbind option_bind Z.eqb].
    destruct (memset_spec n (d + 1) 0 (<[d := 0]> m) (Hm' 0)) as (m' & -> & H1 & H2).
    exists m'. split; [done|]. split.
    + eapply only_trans; [apply (Ho 0)|]. eapply only_weaken; [exact H1|lia|lia].
    + cbn [app take replicate bytes_at]. split.
      * rewrite (proj2 H1) by lia. apply lookup_insert_eq.
      * rewrite take_ge by (rewrite length_replicate; lia). by apply bytes_at_const.
  - unfold zlen in Hd. cbn [length] in Hd. apply cstring_cons in Hs as (Hs & Hc & Hxs).
    rewrite Hs, Hc0. cbn [mbind option_bind]. rewrite (proj2 (Z.eqb_neq x 0)) by lia.
    destruct (IH xs (d + 1) (s + 1) (<[d := x]> m)) as (m' & -> & H1 & H2); [done|..].
    { destruct Hxs as [Hb Hf]. split; [|done]. eapply bytes_at_only; [apply (Ho x)| |done].
      unfold zlen. rewrite length_app. simpl. lia. }
    { unfold zlen. lia. }
    exists m'. split; [done|]. split.
    + eapply only_trans; [apply (Ho x)|]. eapply only_weaken; [exact H1|lia|lia].
    + cbn [app take bytes_at]. split.
      * rewrite (proj2 H1) by lia. apply lookup_insert_eq.
      * rewrite replicate_S_end, app_assoc. rewrite take_app_le; [done|].
        rewrite length_app, length_replicate. lia.
Qed.

Lemma rt_strncpy_spec m dst src xs n :
  0 <= n -> mapped dst (dst + n) m -> cstring m src xs ->
  dst + n <= src \/ src + zlen xs + 1 <= dst ->
  exists m', rt_strncpy dst src n m = Some m' /\ only dst (dst + n) m m' /\
    bytes_at m' dst (take (Z.to_nat n) (xs ++ replicate (Z.to_nat n) 0)).
Proof.
  intros Hn Hm Hs Hd. pose proof (strncpy_loop_spec (Z.to_nat n) xs dst src m) as H.
  rewrite Z2Nat.id in H by lia. by apply H.
Qed.

Lemma bytes_at_moved m m' l : forall dst src,
  bytes_at m src l -> (forall i, 0 <= i < zlen l -> m' !! (dst + i) = m !! (src + i)) ->
  bytes_at m' dst l.
Proof.
  induction l as [|b l IH]; intros dst src Hl Hm; [done|]. destruct Hl as [Hb Hl].
  unfold zlen in Hm. cbn [length] in Hm. split.
  - specialize (Hm 0). rewrite !Z.add_0_r in Hm. rewrite Hm by lia. done.
  - eapply IH; [exact Hl|]. intros i Hi. unfold zlen in Hi.
    replace (dst + 1 + i) with (dst + (1 + i)) by lia. rewrite Hm by lia. f_equal. lia.
Qed.

(** The duplicate is the string. *)
Lemma rt_strdup_spec m s xs t :
  bytes_ok m -> cstring m s xs -> zlen xs < 2 ^ 32 - 1 -> mapped t (t + zlen xs + 1) m ->
  t + zlen xs + 1 <= s \/ s + zlen xs + 1 <= t ->
  exists m', rt_strdup (Some t) s m = Some (Some t, m') /\ cstring m' t xs /\
    only t (t + zlen xs + 1) m m'.
Proof.
  intros Hok Hs Hl Hm Hd. unfold rt_strdup. rewrite (rt_strlen_spec m s xs Hs).
  cbn [mbind option_bind]. pose proof (zlen_nonneg xs). rewrite wrapu_small by lia.
  rewrite rt_memcpy_spec by (done || lia).
  destruct (move_forward (Z.to_nat (zlen xs + 1)) t s m) as (m' & -> & Ho & Hv);
    rewrite ?Z2Nat.id by lia.
  { intros i Hi. apply Hm. lia. }
  { intros i Hi. destruct Hs as [Hs _].
    destruct (lookup_lt_is_Some_2 (xs ++ [0]) (Z.to_nat (i - s))) as [c Hc].
    { rewrite length_app. simpl. unfold zlen in *. lia. }
    pose proof (bytes_at_lookup _ _ _ _ _ Hs Hc) as E. rewrite Z2Nat.id in E by lia.
    replace (s + (i - s)) with i in E by lia. eauto. }
  { lia. }
  cbn [mbind option_bind]. exists m'. split; [done|]. rewrite Z2Nat.id in Ho, Hv by lia. split.
  - destruct Hs as [Hs Hf]. split; [|done]. eapply bytes_at_moved; [exact Hs|].
    unfold zlen. rewrite length_app. simpl. intros i Hi. apply Hv. unfold zlen. lia.
  - by replace (t + zlen xs + 1) with (t + (zlen xs + 1)) by lia.
Qed.

(** ** Theorems *)

(** The word-at-a-time loops of rt_memset and rt_memcpy (four words, single
    words, remaining bytes; only when the addresses are aligned) compute the
    same memory as the byte loops, and fault on exactly the same inputs, for
    every address, count and content, also when source and destination
    overlap. *)
Theorem word_loops_are_byte_loops :
  (forall s c count m, 0 <= count ->
    rt_memset s c count m = memset (Z.to_nat count) s (Z.land c 0xff) m) /\
  (forall dst src count m, bytes_ok m -> 0 <= count ->
    rt_memcpy dst src count m = move (Z.to_nat count) dst src m).
Proof. split; [apply rt_memset_spec|apply rt_memcpy_spec]. Qed.

(** Twenty bytes at address 1000: "abc" twice, the second time with a capital. *)
Definition sample_text : gmap Z Z :=
  list_to_map (zip (seqZ 1000 20) [97; 98; 99; 0; 97; 66; 99; 0; 98; 99; 0; 1; 2; 3; 4; 5; 6; 7; 8; 9]).

Lemma sample_text_ok : bytes_ok sample_text.
Proof. by_computation. Qed.

Lemma word_loops_are_byte_loops_witness :
  rt_memcpy 1016 1000 4 sample_text = move 4 1016 1000 sample_text.
Proof. apply (proj2 word_loops_are_byte_loops); [apply sample_text_ok|lia]. Defined.

(** rt_memmove copies n bytes to the destination as they were before the
    call, however the areas overlap, and changes nothing else. *)
Theorem rt_memmove_any_overlap dest src n m :
  0 <= n -> mapped dest (dest + n) m -> mapped src (src + n) m ->
  exists m', rt_memmove dest src n m = Some m' /\ only dest (dest + n) m m' /\
    (forall i, 0 <= i < n -> m' !! (dest + i) = m !! (src + i)).
Proof. apply rt_memmove_spec. Qed.

Lemma sample_text_mapped a b : 1000 <= a -> b <= 1020 -> mapped a b sample_text.
Proof.
  intros Ha Hb i Hi. apply elem_of_dom. unfold sample_text. rewrite dom_list_to_map_L.
  rewrite fst_zip by done. apply elem_of_list_to_set, elem_of_seqZ. lia.
Qed.

Lemma rt_memmove_any_overlap_witness :
  exists m', rt_memmove 1002 1000 10 sample_text = Some m' /\ m' !! 1005 = Some 0.
Proof.
  destruct (rt_memmove_any_overlap 1002 1000 10 sample_text) as (m' & E & _ & H);
    [lia|apply sample_text_mapped; lia..|].
  exists m'. split; [exact E|]. exact (H 3 ltac:(lia)).
Defined.

(** On two C strings: rt_strlen and rt_strnlen count the characters (up to
    maxlen), rt_strcmp returns the difference at the first mismatch and 0
    exactly for equal strings, rt_strncmp the same within n characters as a
    signed char, rt_strcasecmp ignores the case, rt_strstr finds the first
    occurrence or reports that there is none, and rt_strncpy copies at most
    n characters and pads with NUL, touching only the n bytes of the
    destination. *)
Theorem string_functions_correct m s1 s2 l1 l2 n :
  cstring m s1 l1 -> cstring m s2 l2 -> 0 <= n < 2 ^ 31 ->
  rt_strlen s1 m = Some (zlen l1) /\
  rt_strnlen s1 n m = Some (Z.min (zlen l1) n) /\
  (exists d, rt_strcmp s1 s2 m = Some d /\ d = str_diff l1 l2 /\ (d = 0 <-> l1 = l2)) /\
  rt_strncmp s1 s2 n m
    = Some (wraps 8 (str_diff (take (Z.to_nat n) l1) (take (Z.to_nat n) l2))) /\
  rt_strcasecmp s1 s2 m = Some (u32 (str_diff (lower <$> l1) (lower <$> l2))) /\
  (exists r, rt_strstr s1 s2 m = Some r /\
    match r with
    | Some p => exists i, p = s1 + Z.of_nat i /\ take (length l2) (drop i l1) = l2 /\
                  forall j, (j < i)%nat -> take (length l2) (drop j l1) <> l2
    | None => forall j, take (length l2) (drop j l1) <> l2
    end) /\
  (forall dst, mapped dst (dst + n) m -> dst + n <= s1 \/ s1 + zlen l1 + 1 <= dst ->
    exists m', rt_strncpy dst s1 n m = Some m' /\ only dst (dst + n) m m' /\
      bytes_at m' dst (take (Z.to_nat n) (l1 ++ replicate (Z.to_nat n) 0))).
Proof.
  intros H1 H2 Hn. split; [by apply rt_strlen_spec|]. split; [by apply rt_strnlen_spec|].
  split; [|split; [apply rt_strncmp_spec; (done || lia)|]].
  - exists (str_diff l1 l2). split; [by apply rt_strcmp_spec|]. split; [done|].
    apply str_diff_0; [apply H1|apply H2].
  - split; [by apply rt_strcasecmp_spec|]. split.
    + eexists. split; [by apply rt_strstr_spec|]. pose proof (find_sub_spec l2 l1) as Hf.
      destruct (find_sub l2 l1) as [i|]; [|done]. by exists i.
    + intros dst Hm Hd. by apply rt_strncpy_spec; [lia|..].
Qed.

Lemma string_functions_correct_witness :
  rt_strcmp 1000 1004 sample_text = Some 32 /\ rt_strcasecmp 1000 1004 sample_text = Some 0 /\
  rt_strlen 1000 sample_text = Some 3.
Proof.
  destruct (string_functions_correct sample_text 1000 1004 [97; 98; 99] [97; 66; 99] 2)
    as (H1 & _ & (d & H2 & E & _) & _ & H3 & _); [by_computation|by_computation|lia|].
  split; [rewrite H2, E; reflexivity|]. split; [rewrite H3; reflexivity|rewrite H1; reflexivity].
Defined.

(** The result of [rt_strncmp] passes through a signed char: its sign is wrong
    when the characters are more than 127 apart. *)
Lemma strncmp_sign :
  exists m r, cstring m 0 [200] /\ cstring m 2 [10] /\ rt_strncmp 0 2 1 m = Some r /\ r < 0 /\
    0 < str_diff [200] [10].
Proof.
  exists (list_to_map (zip (seqZ 0 4) [200; 0; 10; 0])), (-66).
  split; [by_computation|]. split; [by_computation|]. by vm_compute.
Qed.

(** [rt_strnlen] reads one character more than it may count. *)
Lemma strnlen_overread :
  exists m, mapped 0 3 m /\ m !! 3 = None /\ rt_strnlen 0 3 m = None.
Proof.
  exists (list_to_map (zip (seqZ 0 3) [65; 66; 67])). split; [|by vm_compute].
  intros i Hi. assert (i = 0 \/ i = 1 \/ i = 2) as [->|[->| ->]] by lia; by eexists.
Qed.

End KString.
