(* ===== verification/KPrintf.v ===== *)
(** * Formatted output of the kernel

    [rt_vsnprintf] and its callers of [src/kservice.c].  The format and string
    arguments are sequences of characters without the terminator; the variable
    arguments are a list of 32-bit words and strings.  The code writes through a
    position [str] that keeps counting behind the end of the buffer; writing is a
    parameter here, so that the same definitions run on the buffer and on an
    unbounded sequence of characters, which is the text the call stands for. *)

From S2P Require Import Prelude.

Module KPrintf.

(** ** Data *)

Definition ZEROPAD : Z := 1.
Definition SIGN : Z := 2.
Definition PLUS : Z := 4.
Definition SPACE : Z := 8.
Definition LEFT : Z := 16.
Definition SPECIAL : Z := 32.
Definition LARGE : Z := 64.

Definition has (f flags : Z) : bool := negb (Z.land flags f =? 0).

(** A variable argument: a word, or a string ([None] is a null pointer). *)
Inductive va := VInt (v : Z) | VStr (s : option (list Z)).

Definition va_int (args : list va) : option (Z * list va) :=
  match args with VInt v :: args => Some (v, args) | _ => None end.
Definition va_str (args : list va) : option (option (list Z) * list va) :=
  match args with VStr s :: args => Some (s, args) | _ => None end.

(** ** Numbers *)

(** [divide]: the remainder and the quotient; any base but 10 is 16. *)
Definition divide (n base : Z) : Z * Z :=
  if base =? 10 then (u32 n mod 10, i32 (u32 n / 10)) else (u32 n mod 16, i32 (u32 n / 16)).

Definition digit (large : bool) (d : Z) : Z :=
  if d <? 10 then 48 + d else if large then 55 + d else 87 + d.

(** The loop that fills [tmp], whose 16 bytes must be enough. *)
Fixpoint digits_loop (fuel : nat) (large : bool) (num base : Z) (tmp : list Z) : option (list Z) :=
  if num =? 0 then Some tmp
  else match fuel with
       | O => None
       | S fuel =>
           let '(r, num) := divide num base in
           if zlen tmp <? 16 then digits_loop fuel large num base (tmp ++ [digit large r]) else None
       end.

Fixpoint skip_atoi (i : Z) (fmt : list Z) : Z * list Z :=
  match fmt with
  | c :: rest => if u32 (c - 48) <? 10 then skip_atoi (i32 (i * 10 + c - 48)) rest else (i, fmt)
  | [] => (i, [])
  end.

(** ** Writing *)

Section sink.

Context {S : Type} (emit : Z -> S -> option S) (room : S -> bool).

Fixpoint emit_n (n : nat) (c : Z) (s : S) : option S :=
  match n with O => Some s | Datatypes.S n => s ← emit c s; emit_n n c s end.

Fixpoint emit_all (cs : list Z) (s : S) : option S :=
  match cs with [] => Some s | c :: cs => s ← emit c s; emit_all cs s end.

(** [while (size-- > 0) put c], with what is left in [size]. *)
Definition pad (c size : Z) (s : S) : option (Z * S) :=
  s ← emit_n (Z.to_nat size) c s; Some (Z.min (size - 1) (-1), s).

Definition print_number (num base width precision flags : Z) (s : S) : option S :=
  let precision_bak := precision in
  let type := if has LEFT flags then Z.land flags (Z.lnot ZEROPAD) else flags in
  let c := if has ZEROPAD type then 48 else 32 in
  let '(sign, num) :=
    if has SIGN type then
      if num <? 0 then (45, i32 (- num))
      else if has PLUS type then (43, num)
      else if has SPACE type then (32, num) else (0, num)
    else (0, num) in
  tmp ← (if num =? 0 then Some [48] else digits_loop 32 (has LARGE flags) num base []);
  let i := zlen tmp in
  let precision := if precision <? i then i else precision in
  let size := width - precision in
  let plain := negb (has (Z.lor ZEROPAD LEFT) type) in
  let size := if plain && negb (sign =? 0) && (0 <? size) then size - 1 else size in
  '(size, s) ← (if plain then pad 32 size s else Some (size, s));
  '(size, s) ← (if negb (sign =? 0) then
                  let size := if room s then size - 1 else size in
                  s ← emit sign s; Some (size, s)
                else Some (size, s));
  '(size, s) ← (if negb (has LEFT type) then pad c size s else Some (size, s));
  s ← emit_n (Z.to_nat (precision - i)) 48 s;
  s ← (if negb (precision_bak =? 0) then emit_all (rev tmp) s else Some s);
  '(_, s) ← pad 32 size s;
  Some s.

(** [case 'c'] and [case 's']. *)
Definition print_char (flags field_width c : Z) (s : S) : option S :=
  '(fw, s) ← (if negb (has LEFT flags) then
                s ← emit_n (Z.to_nat (field_width - 1)) 32 s; Some (Z.min (field_width - 1) 0, s)
              else Some (field_width, s));
  s ← emit c s;
  emit_n (Z.to_nat (fw - 1)) 32 s.

Definition print_string (flags field_width precision : Z) (str : option (list Z)) (s : S) : option S :=
  let str := match str with Some l => l | None => [40; 78; 85; 76; 76; 41] end in
  let len := zlen str in
  let len := if (0 <? precision) && (precision <? len) then precision else len in
  '(fw, s) ← (if negb (has LEFT flags) then
                s ← emit_n (Z.to_nat (field_width - len)) 32 s;
                Some (Z.min field_width len - 1, s)
              else Some (field_width, s));
  s ← emit_all (take (Z.to_nat len) str) s;
  emit_n (Z.to_nat (fw - len)) 32 s.

End sink.

(** ** Directives *)

Inductive directive :=
| DChar (flags field_width c : Z)
| DString (flags field_width precision : Z) (s : option (list Z))
| DNumber (num base field_width precision flags : Z)
| DText (cs : list Z).

Fixpoint get_flags (fmt : list Z) (flags : Z) : list Z * Z :=
  match fmt with
  | c :: rest =>
      if c =? 45 then get_flags rest (Z.lor flags LEFT)
      else if c =? 43 then get_flags rest (Z.lor flags PLUS)
      else if c =? 32 then get_flags rest (Z.lor flags SPACE)
      else if c =? 35 then get_flags rest (Z.lor flags SPECIAL)
      else if c =? 48 then get_flags rest (Z.lor flags ZEROPAD)
      else (fmt, flags)
  | [] => ([], flags)
  end.

Definition isdigit (fmt : list Z) : bool :=
  match fmt with c :: _ => u32 (c - 48) <? 10 | [] => false end.

Definition get_width (fmt : list Z) (flags : Z) (args : list va)
  : option (Z * list Z * Z * list va) :=
  if isdigit fmt then let '(w, fmt) := skip_atoi 0 fmt in Some (w, fmt, flags, args)
  else match fmt with
       | 42 :: fmt =>
           '(v, args) ← va_int args;
           let w := i32 v in
           if w <? 0 then Some (i32 (- w), fmt, Z.lor flags LEFT, args) else Some (w, fmt, flags, args)
       | _ => Some (-1, fmt, flags, args)
       end.

Definition get_precision (fmt : list Z) (args : list va) : option (Z * list Z * list va) :=
  match fmt with
  | 46 :: fmt =>
      '(p, fmt, args) ←
        (if isdigit fmt then let '(p, fmt) := skip_atoi 0 fmt in Some (p, fmt, args)
         else match fmt with
              | 42 :: fmt => '(v, args) ← va_int args; Some (i32 v, fmt, args)
              | _ => Some (-1, fmt, args)
              end);
      Some ((if p <? 0 then 0 else p), fmt, args)
  | _ => Some (-1, fmt, args)
  end.

Definition get_qualifier (fmt : list Z) : Z * list Z :=
  match fmt with
  | c :: rest => if (c =? 104) || (c =? 108) then (c, rest) else (0, fmt)
  | [] => (0, [])
  end.

(** The word as [print_number] receives it, a [long]. *)
Definition get_number (qualifier flags : Z) (args : list va) : option (Z * list va) :=
  '(v, args) ← va_int args;
  if qualifier =? 104 then
    let n := u16 v in Some (i32 (u32 (if has SIGN flags then i16 n else n)), args)
  else Some (i32 v, args).

(** A directive, from behind its [%]: what to print, the rest of the format and
    of the arguments. *)
Definition get_directive (fmt : list Z) (args : list va) : option (directive * list Z * list va) :=
  let '(fmt, flags) := get_flags fmt 0 in
  '(fw, fmt, flags, args) ← get_width fmt flags args;
  '(prec, fmt, args) ← get_precision fmt args;
  let '(q, fmt) := get_qualifier fmt in
  match fmt with
  | [] => Some (DText [37], [], args)
  | c :: rest =>
      if c =? 99 then '(v, args) ← va_int args; Some (DChar flags fw (u8 v), rest, args)
      else if c =? 115 then '(s, args) ← va_str args; Some (DString flags fw prec s, rest, args)
      else if c =? 112 then
        let '(fw, flags) := if fw =? -1 then (8, Z.lor flags ZEROPAD) else (fw, flags) in
        '(v, args) ← va_int args; Some (DNumber (i32 v) 16 fw prec flags, rest, args)
      else if c =? 37 then Some (DText [37], rest, args)
      else
        let number base flags :=
          '(n, args) ← get_number q flags args; Some (DNumber n base fw prec flags, rest, args) in
        if c =? 111 then number 8 flags
        else if c =? 88 then number 16 (Z.lor flags LARGE)
        else if c =? 120 then number 16 flags
        else if (c =? 100) || (c =? 105) then number 10 (Z.lor flags SIGN)
        else if c =? 117 then number 10 flags
        else Some (DText [37; c], rest, args)
  end.

Definition perform {S} (emit : Z -> S -> option S) (room : S -> bool) (d : directive) (s : S)
  : option S :=
  match d with
  | DChar flags fw c => print_char emit flags fw c s
  | DString flags fw prec str => print_string emit flags fw prec str s
  | DNumber num base fw prec flags => print_number emit room num base fw prec flags s
  | DText cs => emit_all emit cs s
  end.

(** The loop over the format, one directive or character per unit of fuel. *)
Fixpoint format_loop {S} (emit : Z -> S -> option S) (room : S -> bool) (fuel : nat)
    (fmt : list Z) (args : list va) (s : S) : option S :=
  match fmt with
  | [] => Some s
  | c :: fmt =>
      match fuel with
      | O => None
      | Datatypes.S fuel =>
          if negb (c =? 37) then s ← emit c s; format_loop emit room fuel fmt args s
          else
            '(d, fmt, args) ← get_directive fmt args;
            s ← perform emit room d s;
            format_loop emit room fuel fmt args s
      end
  end.

(** ** The buffer *)

(** [str] relative to the buffer, and the bytes from its start on. *)
Record out := mk_out { str : Z; cells : list Z }.

Definition write (i v : Z) (b : list Z) : option (list Z) :=
  if (0 <=? i) && (i <? zlen b) then Some (zset b i v) else None.

Definition out_room (lim : Z) (o : out) : bool := str o <=? lim.

Definition out_emit (lim c : Z) (o : out) : option out :=
  if out_room lim o then b ← write (str o) c (cells o); Some (mk_out (str o + 1) b)
  else Some (mk_out (str o + 1) (cells o)).

(** [buf] is the address of the buffer; [end], relative to it. *)
Definition end_of (buf size : Z) : Z :=
  let e := u32 (buf + size - 1) in if e <? buf then 2 ^ 32 - 1 - buf else e - buf.

Definition rt_vsnprintf (buf size : Z) (fmt : list Z) (args : list va) (b : list Z)
  : option (Z * list Z) :=
  let lim := end_of buf size in
  o ← format_loop (out_emit lim) (out_room lim) (length fmt) fmt args (mk_out 0 b);
  b ← write (if out_room lim o then str o else lim) 0 (cells o);
  Some (str o, b).

Definition rt_snprintf := rt_vsnprintf.
Definition rt_vsprintf (buf : Z) := rt_vsnprintf buf 0xffffffff.
Definition rt_sprintf := rt_vsprintf.

Definition RT_CONSOLEBUF_SIZE : Z := 128.

(** [rt_kprintf]: the bytes handed to the console device; [b] is the static
    buffer, at address [buf]. *)
Definition rt_kprintf (buf : Z) (fmt : list Z) (args : list va) (b : list Z)
  : option (list Z * list Z) :=
  '(length, b) ← rt_vsnprintf buf (RT_CONSOLEBUF_SIZE - 1) fmt args b;
  let length := if RT_CONSOLEBUF_SIZE - 1 <? length then RT_CONSOLEBUF_SIZE - 1 else length in
  Some (take (Z.to_nat length) b, b).

(** ** The text *)

Definition text_emit (c : Z) (l : list Z) : option (list Z) := Some (l ++ [c]).

Definition render (fmt : list Z) (args : list va) : option (list Z) :=
  format_loop text_emit (fun _ => true) (length fmt) fmt args [].

(** ** The buffer holds a prefix of the text *)

Section bounded.

Context (lim : Z) (b0 : list Z).
Hypothesis (Hlim : 0 <= lim < zlen b0).

(** Both sides are behind the end of the buffer. *)
Definition over (o : out) (l : list Z) : Prop := lim < str o /\ lim < zlen l.

Definition kept (l : list Z) : list Z :=
  take (Z.to_nat (lim + 1)) l ++ drop (Nat.min (length l) (Z.to_nat (lim + 1))) b0.

Definition rel (o : out) (l : list Z) : Prop :=
  cells o = kept l /\ (str o = zlen l \/ over o l).

Lemma kept_over l k : lim < zlen l -> kept (l ++ k) = kept l.
Proof.
  intros Hl. unfold kept, zlen in *. rewrite length_app, take_app_le by lia.
  by rewrite !Nat.min_r by lia.
Qed.

Lemma kept_short l : zlen l <= lim + 1 -> kept l = l ++ drop (length l) b0.
Proof. intros Hl. unfold kept, zlen in *. by rewrite take_ge, Nat.min_l by lia. Qed.

Lemma kept_write l c :
  zlen l <= lim -> write (zlen l) c (kept l) = Some (kept (l ++ [c])).
Proof.
  intros Hl. rewrite !kept_short by (rewrite ?zlen_snoc; lia).
  unfold write. rewrite zlen_app. unfold zlen in *. rewrite length_drop.
  destruct (Z.leb_spec 0 (Z.of_nat (length l))); [|lia].
  destruct (Z.ltb_spec (Z.of_nat (length l))
    (Z.of_nat (length l) + Z.of_nat (length b0 - length l))); [|lia]. cbn [andb]. f_equal.
  destruct (lookup_lt_is_Some_2 b0 (length l)) as [x Hx]; [lia|].
  unfold zset. rewrite Nat2Z.id, insert_app_r_alt, Nat.sub_diag, (drop_S _ _ _ Hx) by lia.
  rewrite <- app_assoc, length_app. cbn. by rewrite Nat.add_1_r.
Qed.

Lemma emit_rel c o l :
  rel o l -> exists o', out_emit lim c o = Some o' /\ rel o' (l ++ [c]).
Proof.
  intros [Hc Hs]. unfold out_emit, out_room. destruct (Z.leb_spec (str o) lim) as [Hr|Hr].
  - destruct Hs as [Hs|[? _]]; [|lia]. rewrite Hs, Hc, kept_write by lia. cbn [mbind option_bind].
    eexists. split; [done|]. split; [done|]. left. cbn. by rewrite zlen_snoc.
  - eexists. split; [done|].
    assert (lim < zlen l) by (destruct Hs as [?|[_ ?]]; lia).
    split; cbn; [by rewrite kept_over|]. unfold over. cbn. rewrite zlen_snoc.
    destruct Hs as [?|[? ?]]; [left; lia|right; lia].
Qed.

(** Behind the end it does not matter how much either side prints. *)
Definition drift (o : out) (l : list Z) : Prop := rel o l /\ over o l.

Lemma drift_emit c o l : drift o l -> exists o', out_emit lim c o = Some o' /\ drift o' l.
Proof.
  intros [[Hc _] [H1 H2]]. unfold out_emit, out_room. destruct (Z.leb_spec (str o) lim); [lia|].
  eexists. split; [done|]. assert (over (mk_out (str o + 1) (cells o)) l) by (unfold over; cbn; lia).
  split; [|done]. split; [done|]. by right.
Qed.

Lemma drift_text k o l : drift o l -> drift o (l ++ k).
Proof.
  intros [[Hc _] [H1 H2]]. assert (over o (l ++ k)) as Ho.
  { unfold over. rewrite zlen_app. pose proof (zlen_nonneg k). lia. }
  split; [|done]. split; [by rewrite kept_over|]. by right.
Qed.

Lemma text_n n c : forall l, emit_n text_emit n c l = Some (l ++ replicate n c).
Proof.
  induction n as [|n IH]; intros l; cbn [emit_n replicate]; [by rewrite app_nil_r|].
  change (text_emit c l) with (Some (l ++ [c])). cbn [mbind option_bind]. rewrite IH. by rewrite <- app_assoc.
Qed.

Lemma text_all cs : forall l, emit_all text_emit cs l = Some (l ++ cs).
Proof.
  induction cs as [|c cs IH]; intros l; cbn [emit_all]; [by rewrite app_nil_r|].
  change (text_emit c l) with (Some (l ++ [c])). cbn [mbind option_bind]. rewrite IH. by rewrite <- app_assoc.
Qed.

(** The remaining width may differ once both sides are behind the end. *)
Definition sized (z1 : Z) (o : out) (z2 : Z) (l : list Z) : Prop := rel o l /\ (z1 = z2 \/ over o l).

Lemma emit_over c o l o' : over o l -> out_emit lim c o = Some o' -> over o' (l ++ [c]).
Proof.
  intros [H1 H2] E. unfold out_emit, out_room in E. destruct (Z.leb_spec (str o) lim); [lia|].
  injection E as <-. unfold over. cbn. rewrite zlen_snoc. lia.
Qed.

Lemma emit_sized c z1 z2 o l :
  sized z1 o z2 l -> exists o', out_emit lim c o = Some o' /\ sized z1 o' z2 (l ++ [c]).
Proof.
  intros [Hr Hz]. destruct (emit_rel c o l Hr) as (o' & E & Hr'). exists o'. split; [done|].
  split; [done|]. destruct Hz as [->|Ho]; [by left|right]. by eapply emit_over.
Qed.

Lemma emit_all_sized z1 z2 cs : forall o l,
  sized z1 o z2 l -> exists o', emit_all (out_emit lim) cs o = Some o' /\ sized z1 o' z2 (l ++ cs).
Proof.
  induction cs as [|c cs IH]; intros o l Hr; cbn [emit_all].
  { exists o. by rewrite app_nil_r. }
  destruct (emit_sized c z1 z2 o l Hr) as (o1 & -> & Hr1). cbn [mbind option_bind].
  destruct (IH o1 _ Hr1) as (o' & E & Hr'). exists o'. split; [done|].
  by rewrite <- app_assoc in Hr'.
Qed.

Lemma emit_n_all {S} (emit : Z -> S -> option S) n c : forall s,
  emit_n emit n c s = emit_all emit (replicate n c) s.
Proof.
  induction n as [|n IH]; intros s; cbn [emit_n emit_all replicate]; [done|].
  destruct (emit c s); [|done]. apply IH.
Qed.

Lemma emit_n_sized z1 z2 n c o l :
  sized z1 o z2 l ->
  exists o', emit_n (out_emit lim) n c o = Some o' /\ sized z1 o' z2 (l ++ replicate n c).
Proof. intros Hz. rewrite emit_n_all. by apply emit_all_sized. Qed.

Lemma emit_n_drift n c : forall o l,
  drift o l -> exists o', emit_n (out_emit lim) n c o = Some o' /\ drift o' l.
Proof.
  induction n as [|n IH]; intros o l Hd; cbn [emit_n]; [by exists o|].
  destruct (drift_emit c o l Hd) as (o1 & -> & Hd1). by apply IH.
Qed.

Lemma pad_rel c z1 z2 o l :
  sized z1 o z2 l ->
  exists z1' o' z2' l', pad (out_emit lim) c z1 o = Some (z1', o') /\
    pad text_emit c z2 l = Some (z2', l') /\ sized z1' o' z2' l'.
Proof.
  intros [Hr Hz]. unfold pad. rewrite text_n. cbn [mbind option_bind]. destruct Hz as [->|Ho].
  - destruct (emit_n_sized z2 z2 (Z.to_nat z2) c o l) as (o' & -> & Hr' & _); [by split; [|left]|].
    cbn [mbind option_bind].
    do 4 eexists. split; [done|]. split; [done|]. split; [done|]. by left.
  - destruct (emit_n_drift (Z.to_nat z1) c o l (conj Hr Ho)) as (o' & -> & Hd).
    cbn [mbind option_bind]. apply (drift_text (replicate (Z.to_nat z2) c)) in Hd as [Hr' Ho'].
    do 4 eexists. split; [done|]. split; [done|]. split; [done|]. by right.
Qed.

Lemma no_room_over o l : rel o l -> out_room lim o = false -> over o l.
Proof. intros [_ Hs] Hr. unfold out_room in Hr. apply Z.leb_gt in Hr. unfold over in *. lia. Qed.

Lemma sign_rel c z1 z2 o l :
  sized z1 o z2 l ->
  exists o', out_emit lim c o = Some o' /\
    sized (if out_room lim o then z1 - 1 else z1) o' (z2 - 1) (l ++ [c]).
Proof.
  intros [Hr Hz]. destruct (emit_rel c o l Hr) as (o' & E & Hr'). exists o'. split; [done|].
  split; [done|]. destruct (out_room lim o) eqn:Er.
  - left. destruct Hz as [->|[? _]]; [done|]. unfold out_room in Er. apply Z.leb_le in Er. lia.
  - right. eapply emit_over; [|exact E]. by apply no_room_over.
Qed.

Lemma when_pad_rel (b : bool) c z1 z2 o l :
  sized z1 o z2 l ->
  exists z1' o' z2' l',
    (if b then pad (out_emit lim) c z1 o else Some (z1, o)) = Some (z1', o') /\
    (if b then pad text_emit c z2 l else Some (z2, l)) = Some (z2', l') /\ sized z1' o' z2' l'.
Proof. intros Hz. destruct b; [by apply pad_rel|]. by exists z1, o, z2, l. Qed.

Lemma when_sign_rel (b : bool) c z1 z2 o l :
  sized z1 o z2 l ->
  exists z1' o' z2' l',
    (if b then s ← out_emit lim c o; Some ((if out_room lim o then z1 - 1 else z1), s)
     else Some (z1, o)) = Some (z1', o') /\
    (if b then s ← text_emit c l; Some (z2 - 1, s) else Some (z2, l)) = Some (z2', l') /\
    sized z1' o' z2' l'.
Proof.
  intros Hz. destruct b; [|by exists z1, o, z2, l].
  destruct (sign_rel c z1 z2 o l Hz) as (o' & -> & Hs). cbn [mbind option_bind].
  do 4 eexists. split; [done|]. by split.
Qed.

Lemma when_all_rel (b : bool) cs z1 z2 o l :
  sized z1 o z2 l ->
  exists o' l', (if b then emit_all (out_emit lim) cs o else Some o) = Some o' /\
    (if b then emit_all text_emit cs l else Some l) = Some l' /\ sized z1 o' z2 l'.
Proof.
  intros Hz. destruct b; [|by exists o, l].
  destruct (emit_all_sized z1 z2 cs o l Hz) as (o' & -> & Hs). rewrite text_all. eauto.
Qed.

Lemma print_number_rel num base w p f o l l' :
  rel o l -> print_number text_emit (fun _ => true) num base w p f l = Some l' ->
  exists o', print_number (out_emit lim) (out_room lim) num base w p f o = Some o' /\ rel o' l'.
Proof.
  intros Hr. unfold print_number. set (type := if has LEFT f then _ else _).
  destruct (if has SIGN type then _ else _) as [sign n].
  destruct (if n =? 0 then _ else _) as [tmp|]; [|done]. cbn [mbind option_bind].
  set (prec := if p <? zlen tmp then _ else _). set (size := if negb _ && _ && _ then _ else _).
  assert (sized size o size l) as H0 by (split; [done|by left]).
  destruct (when_pad_rel (negb (has (Z.lor ZEROPAD LEFT) type)) 32 _ _ _ _ H0)
    as (z1 & o1 & z2 & l1 & -> & -> & H1). cbn [mbind option_bind].
  destruct (when_sign_rel (negb (sign =? 0)) sign _ _ _ _ H1)
    as (z3 & o3 & z4 & l3 & -> & -> & H3). cbn [mbind option_bind].
  destruct (when_pad_rel (negb (has LEFT type)) (if has ZEROPAD type then 48 else 32) _ _ _ _ H3)
    as (z5 & o5 & z6 & l5 & -> & -> & H5). cbn [mbind option_bind].
  destruct (emit_n_sized z5 z6 (Z.to_nat (prec - zlen tmp)) 48 o5 l5 H5) as (o7 & -> & H7).
  rewrite text_n. cbn [mbind option_bind].
  destruct (when_all_rel (negb (p =? 0)) (rev tmp) _ _ _ _ H7) as (o9 & l9 & -> & -> & H9).
  cbn [mbind option_bind].
  destruct (pad_rel 32 _ _ _ _ H9) as (z11 & o11 & z12 & l11 & -> & -> & [H11 _]).
  cbn [mbind option_bind]. intros [= <-]. by exists o11.
Qed.

Lemma rel_sized o l : rel o l -> sized 0 o 0 l.
Proof. intros Hr. split; [done|by left]. Qed.

Lemma print_char_rel f w c o l l' :
  rel o l -> print_char text_emit f w c l = Some l' ->
  exists o', print_char (out_emit lim) f w c o = Some o' /\ rel o' l'.
Proof.
  intros Hr%rel_sized. unfold print_char.
  assert (exists fw o1 l1,
    (if negb (has LEFT f) then
       s ← emit_n (out_emit lim) (Z.to_nat (w - 1)) 32 o; Some (Z.min (w - 1) 0, s)
     else Some (w, o)) = Some (fw, o1) /\
    (if negb (has LEFT f) then
       s ← emit_n text_emit (Z.to_nat (w - 1)) 32 l; Some (Z.min (w - 1) 0, s)
     else Some (w, l)) = Some (fw, l1) /\ sized 0 o1 0 l1) as (fw & o1 & l1 & -> & -> & H1).
  { destruct (negb _); [|by exists w, o, l].
    destruct (emit_n_sized 0 0 (Z.to_nat (w - 1)) 32 o l Hr) as (o' & -> & Hs). rewrite text_n.
    cbn [mbind option_bind]. by do 3 eexists. }
  cbn [mbind option_bind]. destruct (emit_sized c 0 0 o1 l1 H1) as (o2 & -> & H2).
  cbn [mbind option_bind text_emit]. rewrite text_n.
  destruct (emit_n_sized 0 0 (Z.to_nat (fw - 1)) 32 o2 _ H2) as (o3 & -> & [H3 _]).
  intros [= <-]. by exists o3.
Qed.

Lemma print_string_rel f w p str o l l' :
  rel o l -> print_string text_emit f w p str l = Some l' ->
  exists o', print_string (out_emit lim) f w p str o = Some o' /\ rel o' l'.
Proof.
  intros Hr%rel_sized. unfold print_string. set (cs := match str with Some _ => _ | None => _ end).
  set (len := if (0 <? p) && _ then _ else _).
  assert (exists fw o1 l1,
    (if negb (has LEFT f) then
       s ← emit_n (out_emit lim) (Z.to_nat (w - len)) 32 o; Some (Z.min w len - 1, s)
     else Some (w, o)) = Some (fw, o1) /\
    (if negb (has LEFT f) then
       s ← emit_n text_emit (Z.to_nat (w - len)) 32 l; Some (Z.min w len - 1, s)
     else Some (w, l)) = Some (fw, l1) /\ sized 0 o1 0 l1) as (fw & o1 & l1 & -> & -> & H1).
  { destruct (negb _); [|by exists w, o, l].
    destruct (emit_n_sized 0 0 (Z.to_nat (w - len)) 32 o l Hr) as (o' & -> & Hs). rewrite text_n.
    cbn [mbind option_bind]. by do 3 eexists. }
  cbn [mbind option_bind].
  destruct (emit_all_sized 0 0 (take (Z.to_nat len) cs) o1 l1 H1) as (o2 & -> & H2).
  rewrite text_all. cbn [mbind option_bind]. rewrite text_n.
  destruct (emit_n_sized 0 0 (Z.to_nat (fw - len)) 32 o2 _ H2) as (o3 & -> & [H3 _]).
  intros [= <-]. by exists o3.
Qed.

Lemma perform_rel d o l l' :
  rel o l -> perform text_emit (fun _ => true) d l = Some l' ->
  exists o', perform (out_emit lim) (out_room lim) d o = Some o' /\ rel o' l'.
Proof.
  intros Hr E. destruct d as [f w c|f w p str|n b w p f|cs]; cbn [perform] in *.
  - by eapply print_char_rel.
  - by eapply print_string_rel.
  - by eapply print_number_rel.
  - rewrite text_all in E. injection E as <-.
    destruct (emit_all_sized 0 0 cs o l (rel_sized _ _ Hr)) as (o' & E & [H _]). by exists o'.
Qed.

Lemma format_rel fuel : forall fmt args o l l',
  rel o l -> format_loop text_emit (fun _ => true) fuel fmt args l = Some l' ->
  exists o', format_loop (out_emit lim) (out_room lim) fuel fmt args o = Some o' /\ rel o' l'.
Proof.
  induction fuel as [|fuel IH]; intros [|c fmt] args o l l' Hr E; cbn [format_loop] in *; try done;
    try by (injection E as <-; exists o).
  destruct (negb (c =? 37)).
  - change (text_emit c l) with (Some (l ++ [c])) in E. cbn [mbind option_bind] in E.
    destruct (emit_rel c o l Hr) as (o1 & -> & Hr1). cbn [mbind option_bind]. by eapply IH.
  - destruct (get_directive fmt args) as [[[d fmt'] args']|]; [|done]. cbn [mbind option_bind] in E |- *.
    apply bind_Some in E as (l1 & Ep & E).
    destruct (perform_rel d o l l1 Hr Ep) as (o1 & -> & Hr1). cbn [mbind option_bind]. by eapply IH.
Qed.

End bounded.

Lemma vsnprintf_spec buf size fmt args b text :
  0 <= buf -> 1 <= size -> buf + size <= 2 ^ 32 -> size <= zlen b -> render fmt args = Some text ->
  exists n, rt_vsnprintf buf size fmt args b =
    Some (n, take (Z.to_nat (size - 1)) text ++
             0 :: drop (S (Nat.min (length text) (Z.to_nat (size - 1)))) b) /\
    (zlen text < size -> n = zlen text) /\ (size <= zlen text -> size <= n).
Proof.
  intros Hb Hs He Hl Hr. unfold rt_vsnprintf. set (lim := end_of buf size).
  assert (lim = size - 1) as Elim.
  { unfold lim, end_of. rewrite wrapu_small by lia. destruct (Z.ltb_spec (buf + size - 1) buf); lia. }
  assert (0 <= lim < zlen b) as Hlim by lia.
  assert (rel lim b (mk_out 0 b) []) as H0 by (split; [unfold kept; by rewrite take_nil|by left]).
  destruct (format_rel lim b Hlim _ _ _ _ _ _ H0 Hr) as (o & -> & Hc & Hst). cbn [mbind option_bind].
  rewrite <- Elim. unfold out_room. destruct (Z.leb_spec (str o) lim) as [Hle|Hgt].
  - destruct Hst as [Hst|[? _]]; [|lia]. rewrite Hst, Hc, kept_write by lia.
    cbn [mbind option_bind]. rewrite kept_short by (rewrite ?zlen_snoc; lia).
    exists (zlen text). split; [|lia]. do 2 f_equal. unfold zlen in *.
    rewrite take_ge, Nat.min_l, <- app_assoc, length_app by lia. cbn [length app].
    by rewrite Nat.add_1_r.
  - assert (lim < zlen text) as Hlt by (destruct Hst as [?|[_ ?]]; lia).
    unfold write. rewrite Hc. unfold kept. unfold zlen in Hlt, Hlim.
    destruct (Z.leb_spec 0 lim); [|lia]. rewrite Nat.min_r, zlen_app by lia. unfold zlen.
    rewrite length_take, length_drop. destruct (Z.ltb_spec lim
      (Z.of_nat (Z.to_nat (lim + 1) `min` length text) + Z.of_nat (length b - Z.to_nat (lim + 1))));
      [|lia]. cbn [andb mbind option_bind]. exists (str o). split; [|lia].
    do 2 f_equal. unfold zset. replace (Z.to_nat (lim + 1)) with (S (Z.to_nat lim)) by lia.
    rewrite Nat.min_r by lia.
    destruct (lookup_lt_is_Some_2 text (Z.to_nat lim)) as [x Hx]; [lia|].
    rewrite (take_S_r _ _ _ Hx), <- app_assoc.
    assert (length (take (Z.to_nat lim) text) = Z.to_nat lim) as El by (rewrite length_take; lia).
    rewrite insert_app_r_alt by lia. by rewrite El, Nat.sub_diag.
Qed.

(** ** Numbers as text *)

(** The digits of [n], least significant first. *)
Fixpoint lsb (k : nat) (b n : Z) : list Z :=
  if n =? 0 then [] else match k with O => [] | S k => n mod b :: lsb k b (n / b) end.

Definition radix (base : Z) : Z := if base =? 10 then 10 else 16.

Lemma i32_range_small n : 0 <= n < 2 ^ 31 -> i32 n = n.
Proof. intros. apply wraps_small; lia. Qed.

Lemma u32_i32 n : u32 (i32 n) = u32 n.
Proof. destruct (wraps_cong 32 n ltac:(lia)) as [k ->]. apply wrapu_add_mul. Qed.

Lemma i32_0 n : 0 <= n < 2 ^ 32 -> i32 n = 0 <-> n = 0.
Proof.
  intros Hn. split; [|by intros ->]. intros H. pose proof (u32_i32 n) as E. rewrite H in E.
  rewrite (wrapu_small 32 n) in E by lia. by rewrite <- E.
Qed.

Lemma divide_i32 n base :
  0 <= n < 2 ^ 32 -> divide (i32 n) base = (n mod radix base, i32 (n / radix base)).
Proof.
  intros Hn. unfold divide, radix. rewrite u32_i32, wrapu_small by lia. by destruct (base =? 10).
Qed.

Lemma digits_loop_spec large base k : forall fuel n tmp,
  (k <= fuel)%nat -> 0 <= n < 2 ^ 32 -> n < radix base ^ Z.of_nat k -> zlen tmp + Z.of_nat k <= 16 ->
  digits_loop fuel large (i32 n) base tmp = Some (tmp ++ (digit large <$> lsb k (radix base) n)).
Proof.
  assert (10 <= radix base <= 16) as Hb by (unfold radix; destruct (base =? 10); lia).
  induction k as [|k IH]; intros fuel n tmp Hf Hn Hk Ht.
  - change (radix base ^ Z.of_nat 0) with 1 in Hk. replace n with 0 by lia.
    destruct fuel; cbn; by rewrite app_nil_r.
  - destruct fuel as [|fuel]; [lia|]. cbn [digits_loop lsb].
    destruct (Z.eqb_spec n 0) as [->|Hne]; [cbn; by rewrite app_nil_r|].
    rewrite (proj2 (Z.eqb_neq (i32 n) 0)) by (by rewrite i32_0 by lia).
    rewrite divide_i32 by lia. destruct (Z.ltb_spec (zlen tmp) 16); [|lia].
    assert (0 <= n / radix base < 2 ^ 32) as Hq.
    { split; [apply Z.div_pos; lia|]. apply Z.div_lt_upper_bound; nia. }
    rewrite IH; [|lia|done| |rewrite zlen_snoc; lia].
    + cbn [fmap list_fmap]. by rewrite <- app_assoc.
    + apply Z.div_lt_upper_bound; [lia|]. rewrite Nat2Z.inj_succ, Z.pow_succ_r in Hk by lia. lia.
Qed.

(** Reading the digits back. *)
Definition value (b : Z) (ds : list Z) : Z := foldr (fun d acc => d + b * acc) 0 ds.

Lemma lsb_value b k : forall n, 1 < b -> 0 <= n < b ^ Z.of_nat k -> value b (lsb k b n) = n.
Proof.
  induction k as [|k IH]; intros n Hb Hn; cbn [lsb].
  - change (b ^ Z.of_nat 0) with 1 in Hn. replace n with 0 by lia. done.
  - destruct (Z.eqb_spec n 0) as [->|Hne]; [done|]. cbn [value foldr].
    fold (value b (lsb k b (n / b))). rewrite IH; [pose proof (Z.div_mod n b); lia|done|].
    rewrite Nat2Z.inj_succ, Z.pow_succ_r in Hn by lia.
    split; [apply Z.div_pos; lia|]. apply Z.div_lt_upper_bound; lia.
Qed.

Lemma lsb_range b k : forall n, 1 < b -> Forall (fun d => 0 <= d < b) (lsb k b n).
Proof.
  induction k as [|k IH]; intros n Hb; cbn [lsb]; destruct (n =? 0); try done.
  constructor; [apply Z.mod_pos_bound; lia|by apply IH].
Qed.

Lemma lsb_length b k n : (length (lsb k b n) <= k)%nat.
Proof.
  revert n. induction k as [|k IH]; intros n; cbn [lsb]; destruct (n =? 0); cbn [length]; try lia.
  specialize (IH (n / b)). lia.
Qed.

(** The characters of a number, most significant first. *)
Definition number_digits (large : bool) (base n : Z) : list Z :=
  if n =? 0 then [48] else rev (digit large <$> lsb 10 (radix base) n).

Definition number_sign (num flags : Z) : list Z * Z :=
  if has SIGN flags then
    if num <? 0 then ([45], - num)
    else if has PLUS flags then ([43], num) else if has SPACE flags then ([32], num) else ([], num)
  else ([], u32 num).

(** What a number directive prints. *)
Definition number_text (num base width precision flags : Z) : list Z :=
  let '(sign, n) := number_sign num flags in
  let ds := number_digits (has LARGE flags) base n in
  let body := replicate (Z.to_nat (precision - zlen ds)) 48 ++
              (if precision =? 0 then [] else ds) in
  let gap := Z.to_nat (width - Z.max precision (zlen ds) - zlen sign) in
  if has LEFT flags then sign ++ body ++ replicate gap 32
  else if has ZEROPAD flags then sign ++ replicate gap 48 ++ body
  else replicate gap 32 ++ sign ++ body.

Lemma has_bit k x : 0 <= k -> has (2 ^ k) x = Z.testbit x k.
Proof.
  intros Hk. unfold has. destruct (Z.testbit x k) eqn:E.
  - apply negb_true_iff, Z.eqb_neq. intros H. apply (f_equal (fun y => Z.testbit y k)) in H.
    by rewrite Z.land_spec, E, Z.pow2_bits_true, Z.bits_0 in H by lia.
  - apply negb_false_iff, Z.eqb_eq, Z.bits_inj'. intros j Hj. rewrite Z.land_spec, Z.bits_0.
    destruct (decide (j = k)) as [->|Hne]; [by rewrite E|].
    by rewrite Z.pow2_bits_false, andb_false_r by lia.
Qed.

Lemma has_lor a b x : has (Z.lor a b) x = has a x || has b x.
Proof.
  unfold has. rewrite Z.land_lor_distr_r.
  destruct (Z.eqb_spec (Z.land x a) 0) as [Ha|Ha], (Z.eqb_spec (Z.land x b) 0) as [Hb|Hb];
    destruct (Z.eqb_spec (Z.lor (Z.land x a) (Z.land x b)) 0) as [H|H]; try done;
    rewrite Z.lor_eq_0_iff in H; tauto.
Qed.

(** The flags after [type &= ~ZEROPAD]. *)
Lemma has_type f :
  let type := if has LEFT f then Z.land f (Z.lnot ZEROPAD) else f in
  has LEFT type = has LEFT f /\ has ZEROPAD type = has ZEROPAD f && negb (has LEFT f) /\
  has SIGN type = has SIGN f /\ has PLUS type = has PLUS f /\ has SPACE type = has SPACE f.
Proof.
  assert (forall k y, 0 <= k -> has (2 ^ k) (Z.land y (Z.lnot 1)) = has (2 ^ k) y && negb (k =? 0)) as H.
  { intros k y Hk. rewrite !has_bit, Z.land_spec, Z.lnot_spec by done.
    change 1 with (2 ^ 0). by rewrite Z.pow2_bits_eqb, (Z.eqb_sym 0) by lia. }
  intros type. unfold type. destruct (has LEFT f) eqn:El; cbn [negb].
  - unfold LEFT, SIGN, PLUS, SPACE, ZEROPAD in *.
    pose proof (H 4 f) as H4. pose proof (H 0 f) as H0. pose proof (H 1 f) as H1.
    pose proof (H 2 f) as H2. pose proof (H 3 f) as H3.
    cbn [Z.eqb negb] in *. rewrite ?andb_true_r, ?andb_false_r in *.
    change (2 ^ 4) with 16 in *. change (2 ^ 0) with 1 in *. change (2 ^ 1) with 2 in *.
    change (2 ^ 2) with 4 in *. change (2 ^ 3) with 8 in *.
    rewrite H4, H0, H1, H2, H3, El by lia. done.
  - rewrite andb_true_r. by rewrite El.
Qed.

Lemma pad_text c z l : pad text_emit c z l = Some (Z.min (z - 1) (-1), l ++ replicate (Z.to_nat z) c).
Proof. unfold pad. by rewrite text_n. Qed.

Lemma radix_range base : 10 <= radix base <= 16.
Proof. unfold radix. destruct (base =? 10); lia. Qed.

(** The digits that [print_number] collects are those of the number. *)
Lemma digits_tmp large base n :
  0 <= n < 2 ^ 32 ->
  exists tmp, (if i32 n =? 0 then Some [48] else digits_loop 32 large (i32 n) base []) = Some tmp /\
    rev tmp = number_digits large base n /\ zlen tmp = zlen (number_digits large base n).
Proof.
  intros Hn. unfold number_digits. destruct (Z.eqb_spec n 0) as [->|Hne]; [by exists [48]|].
  rewrite (proj2 (Z.eqb_neq (i32 n) 0)) by (by rewrite i32_0 by lia).
  rewrite (digits_loop_spec large base 10) by (try change (zlen []) with 0;
    pose proof (radix_range base); try lia;
    assert (10 ^ 10 <= radix base ^ Z.of_nat 10) by (apply Z.pow_le_mono_l; lia); lia).
  eexists. split; [done|]. cbn [app]. split; [done|]. unfold zlen. by rewrite length_rev.
Qed.

Lemma replicate_neg z (c : Z) : z <= 0 -> replicate (Z.to_nat z) c = [].
Proof. intros Hz. by replace (Z.to_nat z) with O by lia. Qed.

(** [layout] runs the printing steps, [text_eq] compares two laid out texts. *)
Ltac layout :=
  repeat (rewrite ?pad_text, ?text_n, ?text_all;
          change (text_emit ?c ?l) with (Some (l ++ [c])); cbn [mbind option_bind]).

Ltac drop_empty :=
  repeat match goal with
  | |- context [replicate (Z.to_nat ?z) ?c] => rewrite (replicate_neg z c) by lia
  end.

Ltac text_eq :=
  change (zlen (@nil Z)) with 0; try change (zlen [?c]) with 1; rewrite ?Z.sub_0_r; drop_empty;
  rewrite <- ?app_assoc; cbn [app]; rewrite ?app_nil_r; reflexivity.

(** Laying out sign, padding, zeros and digits. *)
Lemma layout_text (left zero show : bool) (sign size zeros : Z) (ds l : list Z) :
  let c := if zero && negb left then 48 else 32 in
  let plain := negb (zero && negb left || left) in
  let size1 := if plain && negb (sign =? 0) && (0 <? size) then size - 1 else size in
  let sg := if sign =? 0 then [] else [sign] in
  let gap := Z.to_nat (size - zlen sg) in
  let body := replicate (Z.to_nat zeros) 48 ++ (if show then ds else []) in
  ('(size, s) ← (if plain then pad text_emit 32 size1 l else Some (size1, l));
   '(size, s) ← (if negb (sign =? 0) then s ← text_emit sign s; Some (size - 1, s) else Some (size, s));
   '(size, s) ← (if negb left then pad text_emit c size s else Some (size, s));
   s ← emit_n text_emit (Z.to_nat zeros) 48 s;
   s ← (if show then emit_all text_emit ds s else Some s);
   '(_, s) ← pad text_emit 32 size s;
   Some s) =
  Some (l ++ (if left then sg ++ body ++ replicate gap 32
              else if zero then sg ++ replicate gap 48 ++ body
              else replicate gap 32 ++ sg ++ body)).
Proof.
  intros c plain size1 sg gap body. subst c plain size1 sg gap body.
  destruct left, zero, show, (Z.eqb_spec sign 0) as [->|Hs]; cbn [negb andb orb]; layout.
  all: try (destruct (Z.ltb_spec 0 size)); layout; text_eq.
Qed.

Lemma i32_u32 n : - 2 ^ 31 <= n < 2 ^ 31 -> i32 (u32 n) = n.
Proof.
  intros Hn. destruct (wrapu_cong 32 n ltac:(lia)) as [k Hk].
  destruct (wraps_cong 32 (u32 n) ltac:(lia)) as [j Hj].
  pose proof (wraps_range 32 (u32 n) ltac:(lia)). lia.
Qed.

(** The sign and the magnitude that [print_number] takes from its argument. *)
Lemma sign_spec f num :
  - 2 ^ 31 <= num < 2 ^ 31 ->
  exists sign n,
    (if has SIGN f then
       if num <? 0 then (45, i32 (- num))
       else if has PLUS f then (43, num) else if has SPACE f then (32, num) else (0, num)
     else (0, num)) = (sign, i32 n) /\
    number_sign num f = ((if sign =? 0 then [] else [sign]), n) /\ 0 <= n < 2 ^ 32.
Proof.
  intros Hn. unfold number_sign.
  destruct (has SIGN f); [|exists 0, (u32 num); rewrite i32_u32 by done;
    split_and!; [done..|apply wrapu_range; lia|apply wrapu_range; lia]].
  destruct (Z.ltb_spec num 0); [exists 45, (- num); split_and!; (done || lia)|].
  pose proof (i32_range_small num ltac:(lia)) as E.
  destruct (has PLUS f); [exists 43, num|destruct (has SPACE f); [exists 32, num|exists 0, num]];
    rewrite E; split_and!; (done || lia).
Qed.

Lemma print_number_text num base w p f l :
  - 2 ^ 31 <= num < 2 ^ 31 ->
  print_number text_emit (fun _ => true) num base w p f l = Some (l ++ number_text num base w p f).
Proof.
  intros Hn. unfold print_number, number_text.
  destruct (has_type f) as (HL & HZ & HS & HP & HC). set (type := if has LEFT f then _ else f) in *.
  rewrite has_lor, HL, HZ, HS, HP, HC.
  destruct (sign_spec f num Hn) as (sign & n & -> & -> & Hr).
  destruct (digits_tmp (has LARGE f) base n Hr) as (tmp & -> & Hrev & Hlen). cbn [mbind option_bind].
  rewrite Hlen, Hrev. set (ds := number_digits (has LARGE f) base n).
  replace (if p <? zlen ds then zlen ds else p) with (Z.max p (zlen ds))
    by (destruct (Z.ltb_spec p (zlen ds)); lia).
  replace (Z.to_nat (p - zlen ds)) with (Z.to_nat (Z.max p (zlen ds) - zlen ds)) by lia.
  rewrite layout_text. by destruct (p =? 0).
Qed.

(** ** The text of a whole call *)

Definition string_shown (precision : Z) (s : option (list Z)) : list Z :=
  let s := match s with Some l => l | None => [40; 78; 85; 76; 76; 41] end in
  if 0 <? precision then take (Z.to_nat precision) s else s.

Definition justified (flags width : Z) (cs : list Z) : list Z :=
  let gap := replicate (Z.to_nat (width - zlen cs)) 32 in
  if has LEFT flags then cs ++ gap else gap ++ cs.

Definition directive_text (d : directive) : list Z :=
  match d with
  | DChar flags fw c => justified flags fw [c]
  | DString flags fw prec s => justified flags fw (string_shown prec s)
  | DNumber num base fw prec flags => number_text num base fw prec flags
  | DText cs => cs
  end.

(** Character by character and directive by directive; [None] when an argument
    is missing or of the wrong kind. *)
Fixpoint format_text (fuel : nat) (fmt : list Z) (args : list va) : option (list Z) :=
  match fuel, fmt with
  | _, [] => Some []
  | O, _ => None
  | S fuel, c :: fmt =>
      if negb (c =? 37) then cons c <$> format_text fuel fmt args
      else '(d, fmt, args) ← get_directive fmt args;
           app (directive_text d) <$> format_text fuel fmt args
  end.

Definition in_range (d : directive) : Prop :=
  match d with DNumber n _ _ _ _ => - 2 ^ 31 <= n < 2 ^ 31 | _ => True end.

Lemma print_char_text f w c l :
  print_char text_emit f w c l = Some (l ++ justified f w [c]).
Proof.
  unfold print_char, justified. change (zlen [c]) with 1. destruct (has LEFT f); cbn [negb]; layout.
  - by rewrite <- app_assoc.
  - drop_empty. by rewrite app_nil_r, <- app_assoc.
Qed.

Lemma print_string_text f w p s l :
  print_string text_emit f w p s l = Some (l ++ justified f w (string_shown p s)).
Proof.
  unfold print_string, justified, string_shown. set (cs := match s with Some _ => _ | None => _ end).
  set (len := if (0 <? p) && _ then p else _). set (shown := if 0 <? p then _ else cs).
  assert (take (Z.to_nat len) cs = shown /\ len = zlen shown) as [-> ->].
  { unfold len, shown, zlen. destruct (Z.ltb_spec 0 p); cbn [andb]; [|by rewrite Nat2Z.id, take_ge].
    destruct (Z.ltb_spec p (Z.of_nat (length cs))); rewrite length_take; [split; [done|lia]|].
    rewrite Nat2Z.id, !take_ge by lia. split; [done|lia]. }
  destruct (has LEFT f); cbn [negb]; layout.
  - by rewrite <- app_assoc.
  - drop_empty. by rewrite app_nil_r, <- app_assoc.
Qed.

Lemma perform_text d l :
  in_range d -> perform text_emit (fun _ => true) d l = Some (l ++ directive_text d).
Proof.
  intros Hd. destruct d; cbn [perform directive_text].
  - apply print_char_text.
  - apply print_string_text.
  - by apply print_number_text.
  - apply text_all.
Qed.

Lemma i32_range v : - 2 ^ 31 <= i32 v < 2 ^ 31.
Proof. apply (wraps_range 32 v). lia. Qed.

Lemma get_number_range q f args n args' :
  get_number q f args = Some (n, args') -> - 2 ^ 31 <= n < 2 ^ 31.
Proof.
  unfold get_number. destruct (va_int args) as [[v a]|]; [|done]. cbn [mbind option_bind].
  destruct (q =? 104); intros [= <- <-]; apply i32_range.
Qed.

Lemma get_directive_range fmt args d fmt' args' :
  get_directive fmt args = Some (d, fmt', args') -> in_range d.
Proof.
  unfold get_directive. destruct (get_flags fmt 0) as [fmt1 flags].
  destruct (get_width fmt1 flags args) as [[[[w fmt2] flags2] args2]|]; [|done]. cbn [mbind option_bind].
  destruct (get_precision fmt2 args2) as [[[pr fmt3] args3]|]; [|done]. cbn [mbind option_bind].
  destruct (get_qualifier fmt3) as [q [|c rest]]; [by intros [= <- <- <-]|].
  repeat case_match; intros Hd; simplify_option_eq;
    repeat match goal with x : _ * list va |- _ => destruct x end; simplify_eq; try done;
    first [apply i32_range|by eapply get_number_range].
Qed.

Lemma format_loop_text fuel : forall fmt args l,
  format_loop text_emit (fun _ => true) fuel fmt args l = app l <$> format_text fuel fmt args.
Proof.
  induction fuel as [|fuel IH]; intros [|c fmt] args l; cbn [format_loop format_text];
    try (by cbn; rewrite ?app_nil_r).
  destruct (negb (c =? 37)).
  - change (text_emit c l) with (Some (l ++ [c])). cbn [mbind option_bind]. rewrite IH.
    destruct (format_text fuel fmt args); [|done]. cbn. by rewrite <- app_assoc.
  - destruct (get_directive fmt args) as [[[d fmt'] args']|] eqn:E; [|done]. cbn [mbind option_bind].
    rewrite perform_text by (by eapply get_directive_range). cbn [mbind option_bind]. rewrite IH.
    destruct (format_text fuel fmt' args'); [|done]. cbn. by rewrite <- app_assoc.
Qed.

Lemma render_text fmt args : render fmt args = format_text (length fmt) fmt args.
Proof. unfold render. rewrite format_loop_text. by destruct (format_text _ _ _). Qed.

(** ** Decimal numbers read back *)

(** An optional minus and the digits that [skip_atoi] takes. *)
Definition read_decimal (fmt : list Z) : Z * list Z :=
  match fmt with
  | 45 :: fmt => let '(n, rest) := skip_atoi 0 fmt in (- n, rest)
  | _ => skip_atoi 0 fmt
  end.

Definition ends_number (rest : list Z) : Prop := isdigit rest = false.

Lemma skip_atoi_stop i rest : ends_number rest -> skip_atoi i rest = (i, rest).
Proof. unfold ends_number. destruct rest as [|c rest]; [done|]. cbn. by intros ->. Qed.

Lemma digit_char large d : 0 <= d < 10 -> digit large d = 48 + d.
Proof. intros Hd. unfold digit. destruct (Z.ltb_spec d 10); lia. Qed.

Lemma skip_atoi_digits ds : forall i rest,
  Forall (fun d => 0 <= d < 10) ds -> 0 <= i -> ends_number rest ->
  i * 10 ^ Z.of_nat (length ds) + value 10 ds < 2 ^ 31 ->
  skip_atoi i (rev (digit false <$> ds) ++ rest) =
    (i * 10 ^ Z.of_nat (length ds) + value 10 ds, rest).
Proof.
  induction ds as [|d ds IH] using rev_ind; intros i rest Hds Hi Hr Hlt.
  - cbn [fmap list_fmap rev app length value foldr]. rewrite skip_atoi_stop by done.
    change (10 ^ Z.of_nat 0) with 1. f_equal. lia.
  - apply Forall_app in Hds as [Hds [Hd _]%Forall_cons].
    assert (value 10 (ds ++ [d]) = value 10 ds + d * 10 ^ Z.of_nat (length ds)) as Hv.
    { clear. induction ds as [|e ds IH]; [cbn; lia|].
      cbn [value foldr app length]. fold (value 10 (ds ++ [d])) (value 10 ds). rewrite IH.
      rewrite Nat2Z.inj_succ, Z.pow_succ_r by lia. lia. }
    assert (0 <= value 10 ds) as H0.
    { clear -Hds. induction Hds as [|e ds He _ IH]; [done|].
      cbn [value foldr]. fold (value 10 ds). lia. }
    rewrite fmap_app, rev_app_distr, length_app, Hv in *. cbn [fmap list_fmap rev app skip_atoi length] in *.
    rewrite Nat2Z.inj_add, Z.pow_add_r in * by lia. change (10 ^ Z.of_nat 1) with 10 in *.
    set (P := 10 ^ Z.of_nat (length ds)) in *. assert (0 < P) by (apply Z.pow_pos_nonneg; lia).
    rewrite digit_char by done. rewrite wrapu_small by lia.
    destruct (Z.ltb_spec (48 + d - 48) 10); [|lia].
    rewrite i32_range_small by nia. rewrite IH; [|done|lia|done|nia]. f_equal. lia.
Qed.

Lemma skip_atoi_number n rest :
  0 <= n < 2 ^ 31 -> ends_number rest -> skip_atoi 0 (number_digits false 10 n ++ rest) = (n, rest).
Proof.
  intros Hn Hr. unfold number_digits. destruct (Z.eqb_spec n 0) as [->|Hne].
  { cbn [app skip_atoi]. change (u32 (48 - 48) <? 10) with true. by rewrite skip_atoi_stop. }
  assert (value 10 (lsb 10 10 n) = n) as Hv by (apply lsb_value; lia).
  change (radix 10) with 10. rewrite skip_atoi_digits; [|by apply lsb_range|lia|done|lia].
  by rewrite Hv.
Qed.

(** A printed number starts with a digit, so not with a minus. *)
Lemma number_first n rest :
  0 <= n -> read_decimal (number_digits false 10 n ++ rest) =
            skip_atoi 0 (number_digits false 10 n ++ rest).
Proof.
  intros Hn. assert (Forall (fun c => 48 <= c) (number_digits false 10 n)) as H.
  { unfold number_digits. destruct (n =? 0); [by repeat constructor|].
    apply Forall_rev, Forall_fmap. eapply Forall_impl; [apply lsb_range; done|].
    intros d Hd. change (0 <= d < 10) in Hd. cbn. rewrite digit_char; lia. }
  assert (number_digits false 10 n <> []) as Hne.
  { unfold number_digits. destruct (Z.eqb_spec n 0) as [->|Hz]; [done|]. cbn [lsb].
    rewrite (proj2 (Z.eqb_neq n 0) Hz). cbn. by intros [_ ?]%app_eq_nil. }
  destruct (number_digits false 10 n) as [|c cs]; [done|]. apply Forall_cons in H as [Hc _].
  cbn [app]. unfold read_decimal. repeat case_match; try done; lia.
Qed.

Lemma number_digits_length n : 0 <= zlen (number_digits false 10 n) <= 10.
Proof.
  unfold number_digits, zlen. destruct (n =? 0); [cbn; lia|].
  rewrite length_rev, length_fmap. pose proof (lsb_length (radix 10) 10 n). lia.
Qed.

Lemma decimal_spec n rest :
  - 2 ^ 31 < n < 2 ^ 31 -> ends_number rest ->
  exists text, format_text 2 [37; 100] [VInt n] = Some text /\ zlen text <= 11 /\
    read_decimal (text ++ rest) = (n, rest).
Proof.
  intros Hn Hr. exists (number_text n 10 (-1) (-1) SIGN). split.
  { cbn [format_text]. change (negb (37 =? 37)) with false.
    change (get_directive [100] [VInt n]) with (Some (DNumber (i32 n) 10 (-1) (-1) SIGN, @nil Z, @nil va)).
    rewrite (wraps_small 32) by lia. cbn [mbind option_bind format_text fmap option_fmap option_map].
    by rewrite app_nil_r. }
  unfold number_text, number_sign. change (has SIGN SIGN) with true.
  change (has PLUS SIGN) with false. change (has SPACE SIGN) with false.
  change (has LEFT SIGN) with false. change (has LARGE SIGN) with false.
  change (has ZEROPAD SIGN) with false. cbn [negb].
  pose proof (number_digits_length n) as L1. pose proof (number_digits_length (- n)) as L2.
  destruct (Z.ltb_spec n 0); change (-1 =? 0) with false; cbn match zeta;
    change (zlen [45]) with 1; change (zlen (@nil Z)) with 0; drop_empty; cbn [app].
  - split; [unfold zlen in *; cbn [length]; lia|].
    cbn [read_decimal app]. rewrite skip_atoi_number by (done || lia). f_equal. lia.
  - split; [lia|]. rewrite number_first by lia. rewrite skip_atoi_number by (done || lia). done.
Qed.

Lemma kprintf_spec buf fmt args b text :
  0 <= buf -> buf + 127 <= 2 ^ 32 -> zlen b = 128 -> format_text (length fmt) fmt args = Some text ->
  exists b', rt_kprintf buf fmt args b =
    Some ((if zlen text <=? 126 then text else take 126 text ++ [0]), b').
Proof.
  intros Hb Hs Hl Ht. unfold rt_kprintf. change (RT_CONSOLEBUF_SIZE - 1) with 127.
  destruct (vsnprintf_spec buf 127 fmt args b text) as (n & -> & Hfit & Hover);
    [lia..|by rewrite render_text|]. cbn [mbind option_bind]. eexists. do 2 f_equal.
  change (Z.to_nat (127 - 1)) with 126%nat. unfold zlen in *. destruct (Z.leb_spec (Z.of_nat (length text)) 126).
  - rewrite Hfit by lia. destruct (Z.ltb_spec 127 (Z.of_nat (length text))); [lia|].
    rewrite Nat2Z.id, take_app_le, take_take by (rewrite length_take; lia). by rewrite take_ge by lia.
  - replace (if 127 <? n then 127 else n) with 127 by (destruct (Z.ltb_spec 127 n); lia).
    change (Z.to_nat 127) with 127%nat.
    rewrite take_app_ge by (rewrite length_take; lia). rewrite length_take.
    by replace (127 - 126 `min` length text)%nat with 1%nat by lia.
Qed.

(** ** Claims *)



(** What rt_snprintf prints for %d into a buffer of at least 12 bytes is
    read back as the same number: an optional minus and the digits that
    skip_atoi consumes up to the terminator, for every int but the smallest. *)
Theorem decimal_roundtrip (buf size n : Z) (b : list Z) :
  0 <= buf -> 12 <= size -> buf + size <= 2 ^ 32 -> size <= zlen b -> - 2 ^ 31 < n < 2 ^ 31 ->
  exists text rest, rt_snprintf buf size [37; 100] [VInt n] b = Some (zlen text, text ++ 0 :: rest) /\
    length (text ++ 0 :: rest) = length b /\ read_decimal (text ++ 0 :: rest) = (n, 0 :: rest).
Proof.
  intros Hb Hs He Hl Hn.
  destruct (decimal_spec n [] Hn) as (text & Et & Hlen & _); [done|].
  destruct (vsnprintf_spec buf size [37; 100] [VInt n] b text) as (k & E & Hk & _);
    [lia..|by rewrite render_text|].
  rewrite Hk in E by lia. exists text, (drop (S (length text)) b).
  unfold zlen in *. rewrite take_ge, Nat.min_l in E by lia. split; [exact E|].
  split; [rewrite length_app; cbn [length]; rewrite length_drop; lia|].
  destruct (decimal_spec n (0 :: drop (S (length text)) b) Hn) as (text' & Et' & _ & Hrd'); [done|].
  rewrite Et in Et'. by injection Et' as <-.
Qed.

Lemma decimal_roundtrip_witness :
  rt_snprintf 0x20000000 12 [37; 100] [VInt (-107)] (replicate 12 9) =
    Some (4, [45; 49; 48; 55] ++ 0 :: replicate 7 9) /\
  exists text rest, rt_snprintf 0x20000000 12 [37; 100] [VInt (-107)] (replicate 12 9) =
    Some (zlen text, text ++ 0 :: rest) /\ read_decimal (text ++ 0 :: rest) = (-107, 0 :: rest).
Proof.
  split; [reflexivity|].
  destruct (decimal_roundtrip 0x20000000 12 (-107) (replicate 12 9)) as (text & rest & E & _ & R).
  - lia.
  - lia.
  - lia.
  - unfold zlen. cbn. lia.
  - lia.
  - exists text, rest. split; [exact E|exact R].
Defined.

(** rt_kprintf hands the console the formatted text when it has at most 126
    characters; of a longer text it hands over the first 126 characters and
    the terminating NUL byte. *)
Theorem rt_kprintf_output (buf : Z) (fmt : list Z) (args : list va) (b text : list Z) :
  0 <= buf -> buf + 127 <= 2 ^ 32 -> zlen b = 128 -> format_text (length fmt) fmt args = Some text ->
  exists b', rt_kprintf buf fmt args b =
    Some ((if zlen text <=? 126 then text else take 126 text ++ [0]), b').
Proof. apply kprintf_spec. Qed.

Lemma rt_kprintf_output_witness :
  zlen (replicate 128 0) = 128 /\
  exists b', rt_kprintf 0x20000000 [37; 49; 51; 48; 115] [VStr (Some [65])] (replicate 128 0) =
    Some (replicate 126 32 ++ [0], b').
Proof.
  split; [reflexivity|].
  destruct (rt_kprintf_output 0x20000000 [37; 49; 51; 48; 115] [VStr (Some [65])] (replicate 128 0)
    (replicate 129 32 ++ [65])) as (b' & E).
  - lia.
  - lia.
  - reflexivity.
  - vm_compute. reflexivity.
  - exists b'. exact E.
Defined.

(** ** What the code prints *)

(** [%o] of 8: the digits are hexadecimal, since [divide] knows the bases 10 and 16. *)
Lemma octal_is_hexadecimal : format_text 2 [37; 111] [VInt 26] = Some [49; 97].
Proof. reflexivity. Qed.

(** [%.0d] of 7 prints nothing. *)
Lemma precision_0_prints_nothing : format_text 4 [37; 46; 48; 100] [VInt 7] = Some [].
Proof. reflexivity. Qed.

(** [%.0s] prints the whole string. *)
Lemma precision_0_prints_string : format_text 4 [37; 46; 48; 115] [VStr (Some [65; 66])] = Some [65; 66].
Proof. reflexivity. Qed.

(** [ab%05d] of -3, seven characters, in a buffer of two: eight are reported. *)
Lemma truncated_length_wrong :
  format_text 6 [97; 98; 37; 48; 53; 100] [VInt (-3)] = Some [97; 98; 45; 48; 48; 48; 51] /\
  rt_vsnprintf 0x20000000 2 [97; 98; 37; 48; 53; 100] [VInt (-3)] [1; 1] = Some (8, [97; 0]).
Proof. split; reflexivity. Qed.

(** A buffer of size 0 is written to. *)
Lemma size_0_is_unlimited :
  rt_vsnprintf 0x20000000 0 [97; 98] [] [1; 1; 1; 1] = Some (2, [97; 98; 0; 1]).
Proof. reflexivity. Qed.

End KPrintf.
