(* ===== verification/MemAlign.v ===== *)
(** * Aligned allocation

    [rt_malloc_align] and [rt_free_align] of [src/kservice.c], on top of the
    small-memory allocator: a larger block is allocated, the address rounded up,
    and the address of the block itself stored in the word before it. *)

From S2P Require Import Prelude.
From S2P Require Import Bytes.
From S2P Require Import SmallMem.

Module MemAlign.
Import Bytes.Bytes.
Import SmallMem.SmallMem.

(** ** Operations *)

Definition rt_malloc_align (size align : Z) (h : heap) : option (heap * Z) :=
  let align := RT_ALIGN align 4 in
  let align_size := u32 (RT_ALIGN size 4 + align) in
  '(h, ptr) ← rt_malloc align_size h;
  if negb (ptr =? 0) then
    let align_ptr :=
      if Z.land ptr (u32 (align - 1)) =? 0 then u32 (ptr + align)
      else RT_ALIGN_DOWN (u32 (ptr + u32 (align - 1))) align in
    h ← put 4 (u32 (align_ptr - 4) - heap_ptr h) ptr h;
    Some (h, align_ptr)
  else Some (h, ptr).

Definition rt_free_align (ptr : Z) (h : heap) : option heap :=
  real_ptr ← load 4 (u32 (ptr - 4) - heap_ptr h) (bytes h);
  rt_free real_ptr h.

(** ** Rounding *)

Lemma align_down_pow2 x k :
  0 <= x < 2 ^ 32 -> 0 <= k < 32 -> RT_ALIGN_DOWN x (2 ^ k) = x / 2 ^ k * 2 ^ k.
Proof.
  intros Hx Hk. unfold RT_ALIGN_DOWN.
  assert (0 < 2 ^ k) as Hp by (apply Z.pow_pos_nonneg; lia).
  assert (2 ^ k < 2 ^ 32) by (apply Z.pow_lt_mono_r; lia).
  assert (u32 (Z.lnot (2 ^ k - 1)) = Z.ones 32 - Z.ones k) as ->.
  { rewrite !Z.ones_equiv. unfold Z.lnot.
    rewrite <- (wrapu_add_mul 32 _ 1). rewrite wrapu_small; unfold Z.pred; lia. }
  rewrite <- Z.shiftr_div_pow2, <- Z.shiftl_mul_pow2 by lia.
  assert (Z.ones 32 - Z.ones k = Z.shiftl (Z.ones (32 - k)) k) as ->.
  { rewrite Z.shiftl_mul_pow2, !Z.ones_equiv, <- !Z.sub_1_r, Z.mul_sub_distr_r, <- Z.pow_add_r by lia.
    replace (32 - k + k) with 32 by lia. lia. }
  apply Z.bits_inj'. intros n Hn. rewrite Z.land_spec, !Z.shiftl_spec by lia.
  destruct (Z.ltb_spec n k).
  - by rewrite !(Z.testbit_neg_r _ (n - k)), andb_false_r by lia.
  - rewrite Z.shiftr_spec, Z.testbit_ones by lia. replace (n - k + k) with n by lia.
    destruct (Z.leb_spec 0 (n - k)); [|lia]. cbn [andb].
    destruct (Z.ltb_spec (n - k) (32 - k)); [by rewrite andb_true_r|].
    rewrite andb_false_r. symmetry. rewrite <- (Z.mod_small x (2 ^ 32)) by lia.
    apply Z.mod_pow2_bits_high. lia.
Qed.

Lemma land_low x k : 0 <= k < 32 -> Z.land x (u32 (2 ^ k - 1)) = x mod 2 ^ k.
Proof.
  intros Hk. assert (0 < 2 ^ k < 2 ^ 32) by (split; [apply Z.pow_pos_nonneg|apply Z.pow_lt_mono_r]; lia).
  rewrite wrapu_small by lia. replace (2 ^ k - 1) with (Z.ones k) by (rewrite Z.ones_equiv; lia).
  apply Z.land_ones. lia.
Qed.

(** The alignment used: a power of two of at least a word. *)
Definition at_least_4 (k : Z) : Z := Z.max 2 k.

Lemma align_up k : 0 <= k < 32 -> RT_ALIGN (2 ^ k) 4 = 2 ^ at_least_4 k.
Proof.
  intros Hk. unfold at_least_4. assert (k = 0 \/ k = 1 \/ 2 <= k) as [->|[->|H2]] by lia; [done..|].
  assert (2 ^ k = 4 * 2 ^ (k - 2)) as E by (rewrite <- (Z.pow_add_r 2 2) by lia; f_equal; lia).
  assert (2 ^ k <= 2 ^ 31) by (apply Z.pow_le_mono_r; lia).
  assert (0 < 2 ^ (k - 2)) by (apply Z.pow_pos_nonneg; lia).
  rewrite RT_ALIGN_4, Z.max_r by lia. zlia.
Qed.

(** The address handed out: aligned, a word or more behind the block's start, and
    not further than the alignment. *)
Lemma align_ptr_spec p k :
  2 <= k < 32 -> 0 <= p -> p mod 4 = 0 -> p + 2 ^ k < 2 ^ 32 ->
  exists q, (if Z.land p (u32 (2 ^ k - 1)) =? 0 then u32 (p + 2 ^ k)
             else RT_ALIGN_DOWN (u32 (p + u32 (2 ^ k - 1))) (2 ^ k)) = q /\
    q mod 2 ^ k = 0 /\ p + 4 <= q <= p + 2 ^ k.
Proof.
  intros Hk Hp H4 Hlt. assert (2 ^ k = 4 * 2 ^ (k - 2)) as E
    by (rewrite <- (Z.pow_add_r 2 2) by lia; f_equal; lia).
  assert (0 < 2 ^ (k - 2)) as HP by (apply Z.pow_pos_nonneg; lia).
  rewrite land_low by lia. eexists. split; [reflexivity|].
  pose proof (Z.div_mod p (2 ^ k) ltac:(lia)) as Hd. pose proof (Z.mod_pos_bound p (2 ^ k) ltac:(lia)) as Hm.
  destruct (Z.eqb_spec (p mod 2 ^ k) 0) as [H0|H0].
  - rewrite wrapu_small by lia. split; [|lia].
    rewrite Z.add_mod, H0, Z.mod_same by lia. done.
  - rewrite (wrapu_small 32 (2 ^ k - 1)) by lia. rewrite wrapu_small, align_down_pow2 by lia.
    split; [apply Z.mod_mul; lia|].
    assert ((p + (2 ^ k - 1)) / 2 ^ k = p / 2 ^ k + 1) as ->.
    { symmetry. apply (Z.div_unique _ _ _ (p mod 2 ^ k - 1)); lia. }
    assert (p = 4 * (2 ^ (k - 2) * (p / 2 ^ k)) + p mod 2 ^ k) as Hq
      by (rewrite Z.mul_assoc, <- E; exact Hd).
    assert (p mod 2 ^ k <= 2 ^ k - 4) by (clear - H4 Hm E Hq; zlia). lia.
Qed.

(** ** Allocation and release *)

(** The block [(a, s)] behind an aligned address [q] for [size] bytes. *)
Record aligned_block (size k : Z) (h : heap) (bs : list (Z * bool)) (q : Z)
    (X Y : list (Z * Z)) (a s : Z) : Prop := {
  ab_wf : heap_wf h bs;
  ab_allocs : allocs 0 bs = X ++ (a, s) :: Y;
  ab_aligned : q mod 2 ^ k = 0;
  ab_inside : heap_ptr h + a + 16 <= q /\ q + size <= heap_ptr h + a + s;
  ab_real : load 4 (q - 4 - heap_ptr h) (bytes h) = Some (heap_ptr h + a + 12);
}.

(** Where an allocated block lies. *)
Lemma block_bounds h bs X a s Y :
  heap_wf h bs -> allocs 0 bs = X ++ (a, s) :: Y ->
  0 < heap_ptr h /\ 0 <= a /\ (heap_ptr h + a + 12) mod 4 = 0 /\ a + s <= heap_end h /\
  heap_ptr h + heap_end h + 12 <= 2 ^ 32 /\ mapped 0 (heap_end h + 12) (bytes h).
Proof.
  intros [[(Hp0 & Hp4 & Hp) _ _ Hm (_ & Ht & _) Hsz _ _ _] _] E.
  apply allocs_split in E as (ys & zs & -> & -> & _). rewrite Z.add_0_l.
  apply Forall_app in Hsz as [Hy [_ Hz]%Forall_cons].
  pose proof (sized_aligned _ Hy). pose proof (sized_total _ Hy). pose proof (sized_total _ Hz).
  rewrite total_app in Ht. cbn [total foldr fst] in Ht. fold (total zs) in Ht.
  split_and!; [done|lia|zlia|lia|done|done].
Qed.

Lemma mod_at_least q k : 0 <= k -> q mod 2 ^ at_least_4 k = 0 -> q mod 2 ^ k = 0.
Proof.
  intros Hk Hq. apply Z.mod_divide in Hq as [c ->]; [|by apply Z.pow_nonzero; unfold at_least_4; lia].
  apply Z.mod_divide; [apply Z.pow_nonzero; lia|].
  exists (c * 2 ^ (at_least_4 k - k)). rewrite <- Z.mul_assoc, <- Z.pow_add_r by (unfold at_least_4; lia).
  do 2 f_equal. lia.
Qed.

Lemma malloc_align_spec h bs size k :
  heap_wf h bs -> 0 <= k < 32 -> 0 <= size -> size + 3 + 2 ^ at_least_4 k <= 2 ^ 32 - 4 ->
  exists h' q, rt_malloc_align size (2 ^ k) h = Some (h', q) /\
    ((q = 0 /\ h' = h) \/
     exists bs' X Y a s, allocs 0 bs = X ++ Y /\ same_heap h h' /\
       aligned_block size k h' bs' q X Y a s /\ kept (X ++ Y) (bytes h) (bytes h')).
Proof.
  intros Hw Hk Hs Hn. unfold rt_malloc_align. rewrite align_up by done.
  set (j := at_least_4 k) in *. assert (2 <= j < 32) as Hj by (unfold j, at_least_4; lia).
  assert (4 <= 2 ^ j) as HA by (change 4 with (2 ^ 2); apply Z.pow_le_mono_r; lia).
  rewrite RT_ALIGN_4 by lia. set (n := (size + 3) / 4 * 4) in *.
  assert (size <= n <= size + 3) as Hsn by (unfold n; zlia).
  rewrite (wrapu_small 32 (n + 2 ^ j)) by lia.
  destruct (malloc_spec h bs (n + 2 ^ j) Hw) as (h1 & p & -> & R); [lia|]. cbn [mbind option_bind].
  destruct R as [(-> & -> & _)|Hal]; [exists h, 0; split; [done|by left]|].
  apply allocated_allocs in Hal as (bs1 & X & Y & a & s & Hw1 & Hsame & Ep & Hsz & E1 & E2 & Hkept & _);
    [|done|unfold request; lia].
  pose proof (block_bounds h1 bs1 X a s Y Hw1 E2) as (Hp0 & Ha & H4 & Hae & Hend & Hmap).
  rewrite <- (proj1 Hsame) in Ep. rewrite <- Ep in H4.
  assert (n + 2 ^ j <= request (n + 2 ^ j)) by (unfold request; zlia).
  rewrite (proj2 (Z.eqb_neq p 0)) by lia. cbn [negb].
  destruct (align_ptr_spec p j Hj) as (q & -> & Hq & Hr); [lia|done|lia|].
  rewrite wrapu_small by lia.
  destruct (put_spec 4 (q - 4 - heap_ptr h1) p h1) as (m' & -> & El & Ho).
  { intros i Hi. apply Hmap. lia. }
  { change (256 ^ Z.of_nat 4) with (2 ^ 32). lia. }
  cbn [mbind option_bind]. exists (set_bytes m' h1), q. split; [done|]. right.
  destruct (data_write h1 bs1 X a s Y m' Hw1 E2) as [Hw2 Hk2].
  { eapply only_weaken; [exact Ho|lia|lia]. }
  exists bs1, X, Y, a, s. split; [done|]. split; [done|]. split.
  - constructor; cbn [heap_ptr bytes set_bytes]; [done..|by apply mod_at_least; [lia|]|lia|].
    by rewrite El, Ep.
  - rewrite E1 in Hkept. by eapply kept_trans.
Qed.

(** Whatever the owner writes into its [size] bytes. *)
Lemma free_align_spec h bs size k q X Y a s m :
  aligned_block size k h bs q X Y a s -> 0 <= size ->
  only (q - heap_ptr h) (q + size - heap_ptr h) (bytes h) m ->
  exists h' bs', rt_free_align q (set_bytes m h) = Some h' /\ heap_wf h' bs' /\
    allocs 0 bs' = X ++ Y /\ kept (X ++ Y) (bytes h) (bytes h').
Proof.
  intros [Hw E _ Hin Hl] H0 Ho. pose proof (block_bounds h bs X a s Y Hw E) as (Hp0 & Ha & H4 & Hae & Hend & Hmap).
  destruct (data_write h bs X a s Y m Hw E) as [Hw2 Hk2].
  { eapply only_weaken; [exact Ho|lia|lia]. }
  unfold rt_free_align. cbn [heap_ptr bytes set_bytes].
  rewrite wrapu_small by lia. rewrite (load_only _ _ _ _ _ _ Ho), Hl by lia. cbn [mbind option_bind].
  destruct (free_spec (set_bytes m h) bs X a s Y Hw2 E) as (h' & bs' & Ef & Hw' & _ & Ea & Hk' & _).
  exists h', bs'. split; [done|]. split; [done|]. split; [done|]. by eapply kept_trans.
Qed.

(** ** Claims *)

(** rt_malloc_align for a power-of-two alignment either returns RT_NULL and
    changes nothing, or yields an aligned address whose size bytes lie
    inside one newly allocated block, behind the word that holds the block's
    own address; no other block's data changes, and whatever the owner
    writes into its bytes, rt_free_align releases exactly that block. *)
Theorem aligned_allocation_roundtrip h bs size k :
  heap_wf h bs -> 0 <= k < 32 -> 0 <= size -> size + 3 + 2 ^ at_least_4 k <= 2 ^ 32 - 4 ->
  exists h1 q, rt_malloc_align size (2 ^ k) h = Some (h1, q) /\
    ((q = 0 /\ h1 = h) \/
     exists bs1 X Y a s, allocs 0 bs = X ++ Y /\ aligned_block size k h1 bs1 q X Y a s /\
       kept (X ++ Y) (bytes h) (bytes h1) /\
       (forall m, only (q - heap_ptr h1) (q + size - heap_ptr h1) (bytes h1) m ->
          exists h2 bs2, rt_free_align q (set_bytes m h1) = Some h2 /\ heap_wf h2 bs2 /\
            allocs 0 bs2 = X ++ Y /\ kept (X ++ Y) (bytes h1) (bytes h2))).
Proof.
  intros Hw Hk Hs Hn. destruct (malloc_align_spec h bs size k Hw Hk Hs Hn) as (h1 & q & E & R).
  exists h1, q. split; [done|]. destruct R as [?|(bs1 & X & Y & a & s & Ea & _ & Hb & Hkept)]; [by left|].
  right. exists bs1, X, Y, a, s. do 3 (split; [done|]). intros m Ho. by eapply free_align_spec.
Qed.

Lemma aligned_allocation_roundtrip_witness :
  (exists h1, rt_malloc_align 20 32 sample_heap = Some (h1, 0x20000020)) /\
  exists h1 q, rt_malloc_align 20 (2 ^ 5) sample_heap = Some (h1, q) /\ (q = 0 \/ q mod 2 ^ 5 = 0).
Proof.
  split; [eexists; vm_compute; reflexivity|].
  destruct (aligned_allocation_roundtrip sample_heap [(244, false)] 20 5) as (h1 & q & E & R).
  - exact (proj1 (proj2 sample_heap_init)).
  - lia.
  - lia.
  - vm_compute. discriminate.
  - exists h1, q. split; [exact E|].
    destruct R as [[Hq _]|(bs1 & X & Y & a & s & _ & [_ _ Hq _ _] & _)]; [left; exact Hq|right; exact Hq].
Defined.

(** ** A size that overflows *)

(** A request for almost all of the address space succeeds with a block of a few
    bytes: the sum of the rounded size and the alignment wraps around. *)
Lemma aligned_size_overflows :
  exists h1, rt_malloc_align 0xfffffff0 64 sample_heap = Some (h1, 0x20000040).
Proof. eexists. vm_compute. reflexivity. Qed.

End MemAlign.
