(* ===== verification/Objects.v ===== *)
(** * Kernel objects

    [src/object.c]: every kernel object is linked into the container of its
    class under a name of at most eight characters.

    Containers are sequences over the node store of [RtList].  Searching a
    container is one step: the code holds the scheduler lock.  The hooks are not
    modelled. *)

From S2P Require Import Prelude RtList.
Import RtList.

Module Objects.

Definition RT_NAME_MAX : nat := 8.

Definition RT_Object_Class_Device : Z := 9.
Definition RT_Object_Class_Unknown : Z := 12.
Definition RT_Object_Class_Static : Z := 0x80.

(** The classes with a container in this configuration: threads, semaphores,
    mutexes, events, mailboxes, message queues, memory pools, devices, timers. *)
Definition rt_object_container : list Z := [1; 2; 3; 4; 5; 6; 8; 9; 10].

Record rt_object := mk_object {
  name : list Z;   (** char name[RT_NAME_MAX] *)
  type : Z;        (** rt_uint8_t *)
  flag : Z;        (** rt_uint8_t *)
}.

Record objects := mk_objects {
  objs : gmap Z rt_object;        (** the objects in memory, by address *)
  containers : gmap Z (list Z);   (** [object_list] of each class *)
}.

Definition rt_object_get_information (t : Z) (s : objects) : option (list Z) := containers s !! t.

(** [rt_strncpy(object->name, name, RT_NAME_MAX)]; a name is given without its
    terminator. *)
Definition copy_name (n : list Z) : list Z := take RT_NAME_MAX (n ++ replicate RT_NAME_MAX 0).

(** [rt_strncmp] on a name and a string that is terminated behind its end. *)
Fixpoint name_cmp (count : nat) (cs ct : list Z) : Z :=
  match count with
  | O => 0
  | S count =>
      let a := hd 0 cs in
      let res := wraps 8 (a - hd 0 ct) in
      if negb (res =? 0) || (a =? 0) then res else name_cmp count (tl cs) (tl ct)
  end.

(** [rt_list_insert_after]: the node must not be linked already. *)
Definition link (c x : Z) (s : objects) : option objects :=
  if bool_decide (map_Forall (fun _ xs => x ∉ xs) (containers s))
  then Some (mk_objects (objs s) (lpush_front c x (containers s))) else None.

Definition put_object (x : Z) (o : rt_object) (s : objects) : objects :=
  mk_objects (<[x := o]> (objs s)) (containers s).

(** [junk] is what [object->flag] held before. *)
Definition rt_object_init (x t : Z) (n : list Z) (junk : Z) (s : objects) : option objects :=
  _ ← rt_object_get_information t s;
  link t x (put_object x (mk_object (copy_name n) (Z.lor t RT_Object_Class_Static) junk) s).

Definition rt_object_detach (x : Z) (s : objects) : option objects :=
  o ← objs s !! x;
  let s := put_object x (mk_object (name o) 0 (flag o)) s in
  Some (mk_objects (objs s) (lremove x (containers s))).

(** [ptr] is the result of [RT_KERNEL_MALLOC]. *)
Definition rt_object_allocate (t : Z) (n : list Z) (ptr : Z) (s : objects) : option (objects * Z) :=
  _ ← rt_object_get_information t s;
  if ptr =? 0 then Some (s, 0)
  else s ← link t ptr (put_object ptr (mk_object (copy_name n) t 0) s); Some (s, ptr).

Definition rt_object_is_systemobject (o : rt_object) : bool :=
  negb (Z.land (type o) RT_Object_Class_Static =? 0).

Definition rt_object_get_type (o : rt_object) : Z := Z.land (type o) (Z.lnot RT_Object_Class_Static).

(** The memory is given back. *)
Definition rt_object_delete (x : Z) (s : objects) : option objects :=
  o ← objs s !! x;
  _ ← RT_ASSERT (negb (rt_object_is_systemobject o));
  Some (mk_objects (delete x (objs s)) (lremove x (containers s))).

Fixpoint find_loop (n : list Z) (xs : list Z) (s : objects) : option (option Z) :=
  match xs with
  | [] => Some None
  | x :: xs =>
      o ← objs s !! x;
      if name_cmp RT_NAME_MAX (name o) n =? 0 then Some (Some x) else find_loop n xs s
  end.

Definition rt_object_find (n : option (list Z)) (t : Z) (s : objects) : option (option Z) :=
  match n with
  | None => Some None
  | Some n =>
      if RT_Object_Class_Unknown <? t then Some None
      else xs ← rt_object_get_information t s; find_loop n xs s
  end.

(** ** Names *)

Definition chars (n : list Z) : Prop := Forall (fun c => 0 < c < 256) n.

Lemma schar_0 a b : 0 <= a < 256 -> 0 <= b < 256 -> wraps 8 (a - b) = 0 <-> a = b.
Proof. intros Ha Hb. unfold wraps. change (2 ^ 8) with 256. change (2 ^ (8 - 1)) with 128. zlia. Qed.

(** Names are compared up to their first eight characters. *)
Lemma name_cmp_spec k : forall m n,
  chars m -> chars n ->
  name_cmp k (take k (m ++ replicate k 0)) n = 0 <->
  take k (m ++ replicate k 0) = take k (n ++ replicate k 0).
Proof.
  induction k as [|k IH]; intros m n Hm Hn; [done|].
  assert (forall l : list Z, chars l -> exists a l', take (S k) (l ++ replicate (S k) 0) = a :: take k (l' ++ replicate k 0) /\
    chars l' /\ hd 0 l = a /\ tl l = l' /\ 0 <= a < 256 /\ (a = 0 -> l = [])) as H.
  { intros l Hl. destruct l as [|c l]; [exists 0, []; cbn; by split_and!|]. apply Forall_cons in Hl as [Hc Hl].
    exists c, l. cbn [app take hd tl]. split_and!; try done; try lia. f_equal. rewrite replicate_S_end, app_assoc.
    rewrite (take_app_le (l ++ replicate k 0)) by (rewrite length_app, length_replicate; lia). done. }
  destruct (H m Hm) as (a & m' & Em & Hm' & _ & _ & Ha & Ham).
  destruct (H n Hn) as (b & n' & En & Hn' & Hb1 & Hn1 & Hb & Hbn).
  rewrite Em, En. cbn [name_cmp hd tl]. rewrite Hb1, Hn1.
  destruct (Z.eqb_spec (wraps 8 (a - b)) 0) as [E|E]; cbn [negb orb].
  - assert (a = b) as <- by (by apply (schar_0 a b)). destruct (Z.eqb_spec a 0) as [->|Hne].
    + split; [|done]. intros _. rewrite (Ham eq_refl) in Em. rewrite (Hbn eq_refl) in En.
      rewrite <- Em, <- En. done.
    + rewrite IH by done. split; [by intros ->|]. by intros [= ->].
  - split; [done|]. intros [= -> _]. exfalso. apply E. by rewrite Z.sub_diag.
Qed.

Lemma name_cmp_copy m n :
  chars m -> chars n -> name_cmp RT_NAME_MAX (copy_name m) n = 0 <-> copy_name m = copy_name n.
Proof. apply name_cmp_spec. Qed.

(** ** The invariant *)

Definition stored (x : Z) (s : objects) : option (list Z) := name <$> objs s !! x.

Record obj_wf (s : objects) : Prop := {
  ow_unique : unique (containers s);
  ow_classes c : is_Some (containers s !! c) <-> c ∈ rt_object_container;
  ow_linked c xs x : containers s !! c = Some xs -> x ∈ xs ->
    exists o n, objs s !! x = Some o /\ rt_object_get_type o = c /\ chars n /\ name o = copy_name n;
}.

Definition no_objects : objects :=
  mk_objects ∅ (list_to_map ((fun c => (c, [])) <$> rt_object_container)).

Lemma no_objects_lookup c :
  containers no_objects !! c = if bool_decide (c ∈ rt_object_container) then Some [] else None.
Proof.
  case_bool_decide as Hc.
  - unfold rt_object_container in Hc. rewrite !elem_of_cons in Hc. destruct_or! Hc; try (by subst). by apply elem_of_nil in Hc.
  - apply not_elem_of_list_to_map_1. by rewrite <- list_fmap_compose, list_fmap_id.
Qed.

Lemma no_objects_wf : obj_wf no_objects.
Proof.
  constructor.
  - split.
    + intros c xs. rewrite no_objects_lookup. case_bool_decide; [|done]. intros [= <-]. constructor.
    + intros c1 c2 xs1 xs2 x. rewrite !no_objects_lookup. do 2 case_bool_decide; try done.
      intros [= <-]. by rewrite elem_of_nil.
  - intros c. rewrite no_objects_lookup. case_bool_decide as Hc; [by split; eauto|].
    split; [by intros [??]|done].
  - intros c xs x. rewrite no_objects_lookup. case_bool_decide; [|done]. intros [= <-]. by rewrite elem_of_nil.
Qed.

Lemma find_loop_spec s n xs :
  chars n ->
  (forall x, x ∈ xs -> exists o m, objs s !! x = Some o /\ chars m /\ name o = copy_name m) ->
  exists r, find_loop n xs s = Some r /\
    match r with
    | Some x => exists ys zs, xs = ys ++ x :: zs /\ stored x s = Some (copy_name n) /\
                  forall y, y ∈ ys -> stored y s <> Some (copy_name n)
    | None => forall x, x ∈ xs -> stored x s <> Some (copy_name n)
    end.
Proof.
  intros Hn. induction xs as [|x xs IH]; intros Hx; cbn [find_loop].
  { exists None. split; [done|]. intros x. by rewrite elem_of_nil. }
  destruct (Hx x) as (o & m & Eo & Hm & En); [by left|]. rewrite Eo. cbn [mbind option_bind].
  assert (stored x s = Some (copy_name m)) as Es by (unfold stored; rewrite Eo; cbn; by rewrite En).
  rewrite En. pose proof (name_cmp_copy m n Hm Hn) as Hc.
  destruct (Z.eqb_spec (name_cmp RT_NAME_MAX (copy_name m) n) 0) as [E|E].
  - exists (Some x). split; [done|]. exists [], xs. split; [done|]. rewrite Es.
    split; [f_equal; tauto|]. intros y. by rewrite elem_of_nil.
  - assert (stored x s <> Some (copy_name n)) as Hne by (rewrite Es; intros [= ?]; tauto).
    destruct IH as (r & -> & Hr); [intros y Hy; apply Hx; by right|]. exists r. split; [done|].
    destruct r as [y|].
    + destruct Hr as (ys & zs & -> & Hy & Hys). exists (x :: ys), zs. split; [done|]. split; [done|].
      intros z [->|Hz]%elem_of_cons; [done|by apply Hys].
    + intros y [->|Hy]%elem_of_cons; [done|by apply Hr].
Qed.

(** What a search returns: the object registered last under the name. *)
Definition found (n : list Z) (c : Z) (s : objects) (r : option Z) : Prop :=
  exists xs, containers s !! c = Some xs /\
    match r with
    | Some x => exists ys zs, xs = ys ++ x :: zs /\ stored x s = Some (copy_name n) /\
                  forall y, y ∈ ys -> stored y s <> Some (copy_name n)
    | None => forall x, x ∈ xs -> stored x s <> Some (copy_name n)
    end.

Lemma find_spec s n c :
  obj_wf s -> c ∈ rt_object_container -> chars n ->
  exists r, rt_object_find (Some n) c s = Some r /\ found n c s r.
Proof.
  intros [_ Hc Hl] Hin Hn. unfold rt_object_find.
  destruct (Z.ltb_spec RT_Object_Class_Unknown c) as [Hlt|_].
  { unfold RT_Object_Class_Unknown, rt_object_container in *. rewrite !elem_of_cons, elem_of_nil in Hin. lia. }
  apply Hc in Hin as [xs E]. unfold rt_object_get_information. rewrite E. cbn [mbind option_bind].
  destruct (find_loop_spec s n xs Hn) as (r & -> & Hr).
  { intros x Hx. destruct (Hl c xs x E Hx) as (o & m & ? & _ & ? & ?). eauto. }
  exists r. split; [done|]. by exists xs.
Qed.

(** ** Operations keep it *)

Definition unlinked (x : Z) (s : objects) : Prop := absent x (containers s).

Lemma link_spec c x s xs :
  unlinked x s -> containers s !! c = Some xs ->
  link c x s = Some (mk_objects (objs s) (<[c := x :: xs]> (containers s))).
Proof.
  intros Hu Hc. unfold link. rewrite bool_decide_eq_true_2 by exact Hu.
  do 2 f_equal. by apply alter_lookup.
Qed.

Lemma wf_link s x t o n xs :
  obj_wf s -> unlinked x s -> containers s !! t = Some xs ->
  rt_object_get_type o = t -> chars n -> name o = copy_name n ->
  obj_wf (mk_objects (<[x := o]> (objs s)) (<[t := x :: xs]> (containers s))).
Proof.
  intros [[Hnd Hu] Hc Hl] Hx Ht Hty Hn Eo. pose proof (Hx t xs Ht) as Hnx. constructor; cbn [objs containers].
  - split.
    + intros k ys. rewrite lookup_insert. case_decide as E; [|apply Hnd].
      intros [= <-]. constructor; [done|]. by eapply Hnd.
    + intros k1 k2 ys1 ys2 y. rewrite !lookup_insert.
      do 2 case_decide; subst; intros E1 E2; simplify_eq; rewrite ?elem_of_cons; intros H1 H2; try done.
      * destruct H1 as [->|H1]; [by destruct (Hx k2 ys2 E2)|]. by eapply Hu.
      * destruct H2 as [->|H2]; [by destruct (Hx k1 ys1 E1)|]. by eapply Hu.
      * by eapply Hu.
  - intros k. rewrite <- Hc, lookup_insert. case_decide as E; [subst|done]. split; eauto.
  - intros k ys y. rewrite lookup_insert. intros Hk Hin.
    destruct (decide (y = x)) as [->|Hne].
    + exists o, n. rewrite lookup_insert_eq. case_decide as E; [by subst|]. by destruct (Hx k ys Hk).
    + rewrite (lookup_insert_ne _ x) by done. case_decide as E; [|by eapply Hl].
      subst. injection Hk as <-. apply elem_of_cons in Hin as [->|Hin]; [done|]. by eapply Hl.
Qed.

Lemma get_type_static t :
  t ∈ rt_object_container ->
  Z.land (Z.lor t RT_Object_Class_Static) (Z.lnot RT_Object_Class_Static) = t /\
  Z.land t (Z.lnot RT_Object_Class_Static) = t /\ Z.land t RT_Object_Class_Static = 0.
Proof. unfold rt_object_container. rewrite !elem_of_cons, elem_of_nil. intros Ht. destruct_or! Ht; by subst. Qed.

Lemma init_spec s x t n junk :
  obj_wf s -> unlinked x s -> t ∈ rt_object_container -> chars n ->
  exists s' xs, rt_object_init x t n junk s = Some s' /\ obj_wf s' /\
    containers s !! t = Some xs /\ containers s' = <[t := x :: xs]> (containers s) /\
    objs s' = <[x := mk_object (copy_name n) (Z.lor t RT_Object_Class_Static) junk]> (objs s).
Proof.
  intros Hw Hx Ht Hn. destruct (proj2 (ow_classes s Hw t) Ht) as [xs E].
  unfold rt_object_init, rt_object_get_information. rewrite E. cbn [mbind option_bind].
  rewrite (link_spec t x _ xs) by done. eexists _, xs. split; [done|]. split; [|done].
  apply (wf_link s x t _ n xs); try done. by apply get_type_static.
Qed.

Lemma allocate_spec s p t n :
  obj_wf s -> unlinked p s -> t ∈ rt_object_container -> chars n -> p <> 0 ->
  exists s' xs, rt_object_allocate t n p s = Some (s', p) /\ obj_wf s' /\
    containers s !! t = Some xs /\ containers s' = <[t := p :: xs]> (containers s) /\
    objs s' = <[p := mk_object (copy_name n) t 0]> (objs s).
Proof.
  intros Hw Hx Ht Hn Hp. destruct (proj2 (ow_classes s Hw t) Ht) as [xs E].
  unfold rt_object_allocate, rt_object_get_information. rewrite E. cbn [mbind option_bind].
  rewrite (proj2 (Z.eqb_neq p 0) Hp). rewrite (link_spec t p _ xs) by done. cbn [mbind option_bind].
  eexists _, xs. split; [done|]. split; [|done]. apply (wf_link s p t _ n xs); try done. by apply get_type_static.
Qed.

Lemma wf_remove s x m :
  obj_wf s -> (forall y, y <> x -> m !! y = objs s !! y) ->
  obj_wf (mk_objects m (lremove x (containers s))).
Proof.
  intros [Hu Hc Hl] Hm. constructor; cbn [objs containers].
  - by apply unique_lremove.
  - intros c. rewrite <- Hc, lookup_lremove, fmap_is_Some. done.
  - intros c xs y. rewrite lookup_lremove, fmap_Some. intros (ys & E & ->) [Hne Hin]%list_elem_of_filter.
    rewrite Hm by done. by eapply Hl.
Qed.

Lemma detach_spec s x o :
  obj_wf s -> objs s !! x = Some o ->
  exists s', rt_object_detach x s = Some s' /\ obj_wf s' /\ unlinked x s' /\
    containers s' = lremove x (containers s) /\ objs s' = <[x := mk_object (name o) 0 (flag o)]> (objs s).
Proof.
  intros Hw E. unfold rt_object_detach. rewrite E. cbn [mbind option_bind]. eexists. split; [done|].
  split; [apply (wf_remove s); [done|]; intros y Hy; apply lookup_insert_ne; congruence|].
  split; [apply absent_lremove|done].
Qed.

Lemma delete_spec s x o :
  obj_wf s -> objs s !! x = Some o -> rt_object_is_systemobject o = false ->
  exists s', rt_object_delete x s = Some s' /\ obj_wf s' /\ unlinked x s' /\
    containers s' = lremove x (containers s) /\ objs s' = delete x (objs s).
Proof.
  intros Hw E Hs. unfold rt_object_delete. rewrite E. cbn [mbind option_bind]. rewrite Hs.
  cbn [negb RT_ASSERT mbind option_bind]. eexists. split; [done|].
  split; [apply (wf_remove s); [done|]; intros y Hy; apply lookup_delete_ne; congruence|].
  split; [apply absent_lremove|done].
Qed.

(** The states of the object system, for callers that register only objects that
    are not registered and allocate from memory that is not in use. *)
Inductive obj_reach : objects -> Prop :=
| reach_empty : obj_reach no_objects
| reach_init s x t n junk s' : obj_reach s -> unlinked x s -> chars n ->
    rt_object_init x t n junk s = Some s' -> obj_reach s'
| reach_allocate s t n p s' r : obj_reach s -> objs s !! p = None -> chars n ->
    rt_object_allocate t n p s = Some (s', r) -> obj_reach s'
| reach_detach s x s' : obj_reach s -> rt_object_detach x s = Some s' -> obj_reach s'
| reach_delete s x s' : obj_reach s -> rt_object_delete x s = Some s' -> obj_reach s'.

Lemma unknown_unlinked s x : obj_wf s -> objs s !! x = None -> unlinked x s.
Proof. intros Hw E c xs Hc Hin. destruct (ow_linked s Hw c xs x Hc Hin) as (o & _ & Ho & _). congruence. Qed.

Lemma init_class s x t n junk s' :
  obj_wf s -> rt_object_init x t n junk s = Some s' -> t ∈ rt_object_container.
Proof.
  intros Hw. unfold rt_object_init, rt_object_get_information.
  destruct (containers s !! t) eqn:E; [|done]. intros _. apply (ow_classes s Hw). eauto.
Qed.

Lemma reach_wf s : obj_reach s -> obj_wf s.
Proof.
  induction 1 as [|s x t n junk s' _ IH Hx Hn E|s t n p s' r _ IH Hx Hn E|s x s' _ IH E|s x s' _ IH E].
  - apply no_objects_wf.
  - pose proof (init_class s x t n junk s' IH E) as Ht.
    destruct (init_spec s x t n junk IH Hx Ht Hn) as (s1 & xs & E1 & Hw & _). congruence.
  - assert (t ∈ rt_object_container) as Ht.
    { apply (ow_classes s IH). unfold rt_object_allocate, rt_object_get_information in E.
      destruct (containers s !! t); [eauto|done]. }
    destruct (decide (p = 0)) as [->|Hp].
    + destruct (proj2 (ow_classes s IH t) Ht) as [xs Ex].
      unfold rt_object_allocate, rt_object_get_information in E. rewrite Ex in E. by injection E as <- _.
    + destruct (allocate_spec s p t n IH (unknown_unlinked s p IH Hx) Ht Hn Hp) as (s1 & xs & E1 & Hw & _).
      congruence.
  - destruct (objs s !! x) as [o|] eqn:Eo; [|by unfold rt_object_detach in E; rewrite Eo in E].
    destruct (detach_spec s x o IH Eo) as (s1 & E1 & Hw & _). congruence.
  - destruct (objs s !! x) as [o|] eqn:Eo; [|by unfold rt_object_delete in E; rewrite Eo in E].
    destruct (rt_object_is_systemobject o) eqn:Es.
    + unfold rt_object_delete in E. rewrite Eo in E. cbn [mbind option_bind] in E. by rewrite Es in E.
    + destruct (delete_spec s x o IH Eo Es) as (s1 & E1 & Hw & _). congruence.
Qed.

(** An object is found under its name as soon as it is registered, whatever other
    objects have that name. *)
Lemma find_front s x c n xs :
  obj_wf s -> containers s !! c = Some (x :: xs) -> stored x s = Some (copy_name n) -> chars n ->
  rt_object_find (Some n) c s = Some (Some x).
Proof.
  intros Hw E Es Hn. destruct (find_spec s n c Hw) as (r & Er & ys & Ey & Hr); [|done|].
  { apply (ow_classes s Hw). eauto. }
  rewrite Er. rewrite E in Ey. injection Ey as <-. destruct r as [y|].
  - destruct Hr as ([|z zs] & zs' & Ex & _ & Hz); [by injection Ex as ->|].
    injection Ex as <- _. exfalso. by apply (Hz x); [left|].
  - exfalso. by apply (Hr x); [left|].
Qed.

(** In every state reachable by creating, initialising, detaching and
    deleting kernel objects, rt_object_find returns the most recently added
    object of the class whose name agrees in the first eight characters, or
    nothing if there is none; an object is found right after its
    initialisation and never again after it is detached. *)
Theorem object_registry s :
  obj_reach s ->
  (forall n c, c ∈ rt_object_container -> chars n ->
     exists r, rt_object_find (Some n) c s = Some r /\ found n c s r) /\
  (forall x c n junk, unlinked x s -> c ∈ rt_object_container -> chars n ->
     exists s', rt_object_init x c n junk s = Some s' /\ rt_object_find (Some n) c s' = Some (Some x)) /\
  (forall x o, objs s !! x = Some o ->
     exists s', rt_object_detach x s = Some s' /\
       forall n c, c ∈ rt_object_container -> chars n -> rt_object_find (Some n) c s' <> Some (Some x)).
Proof.
  intros Hr%reach_wf. split; [|split].
  - intros n c Hc Hn. by apply find_spec.
  - intros x c n junk Hx Hc Hn. destruct (init_spec s x c n junk Hr Hx Hc Hn) as (s' & xs & E & Hw & _ & Ec & Eo).
    exists s'. split; [done|]. eapply find_front; [done| |by unfold stored; rewrite Eo, lookup_insert_eq|done].
    by rewrite Ec, lookup_insert_eq.
  - intros x o E. destruct (detach_spec s x o Hr E) as (s' & Ed & Hw & Hu & _). exists s'. split; [done|].
    intros n c Hc Hn Ef. destruct (find_spec s' n c Hw Hc Hn) as (r & Er & ys & Ey & Hf).
    rewrite Ef in Er. injection Er as <-. destruct Hf as (zs & zs' & -> & _).
    apply (Hu c _ Ey). apply elem_of_app. right. by left.
Qed.

Lemma object_registry_witness :
  exists s, rt_object_init 100 9 [117; 49] 0 no_objects = Some s /\
    rt_object_find (Some [117; 49]) 9 s = Some (Some 100).
Proof.
  destruct (object_registry no_objects reach_empty) as (_ & H & _).
  apply (H 100 9 [117; 49] 0).
  - intros c xs E. rewrite no_objects_lookup in E. destruct (bool_decide _); [|discriminate E].
    injection E as <-. apply not_elem_of_nil.
  - unfold rt_object_container. set_solver.
  - constructor; [lia|constructor; [lia|constructor]].
Defined.

(** Names that agree in eight characters are the same name. *)
Lemma long_names_clash :
  copy_name [115; 101; 110; 115; 111; 114; 95; 49; 97] = copy_name [115; 101; 110; 115; 111; 114; 95; 49; 98].
Proof. reflexivity. Qed.

(** A class without a container fails the assertion, although the parameter check
    lets it pass. *)
Lemma find_unknown_class n s :
  obj_reach s -> rt_object_find (Some n) RT_Object_Class_Unknown s = None.
Proof.
  intros Hr%reach_wf. unfold rt_object_find, rt_object_get_information.
  change (RT_Object_Class_Unknown <? RT_Object_Class_Unknown) with false. cbn match.
  destruct (containers s !! RT_Object_Class_Unknown) eqn:E; [|done].
  exfalso. assert (RT_Object_Class_Unknown ∈ rt_object_container) as H by (apply (ow_classes s Hr); eauto).
  unfold rt_object_container, RT_Object_Class_Unknown in H. rewrite !elem_of_cons, elem_of_nil in H. lia.
Qed.

End Objects.
