(* ===== verification/Devices.v ===== *)
(** * Devices

    [src/device.c] and the console of [src/kservice.c]: devices are objects of
    class Device with flags and a reference count; the functions of a driver are
    a parameter, as they are function pointers in the code.  Opening activates
    the device on first use and counts; closing calls the driver when the last
    user leaves. *)

From S2P Require Import Prelude RtList Objects.
Import RtList.

Module Devices.
Import Objects.Objects.

Definition RT_ENOSYS : Z := 6.

Definition RT_DEVICE_FLAG_STANDALONE : Z := 0x008.
Definition RT_DEVICE_FLAG_ACTIVATED : Z := 0x010.
Definition RT_DEVICE_FLAG_STREAM : Z := 0x040.
Definition RT_DEVICE_OFLAG_CLOSE : Z := 0x000.
Definition RT_DEVICE_OFLAG_RDWR : Z := 0x003.
Definition RT_DEVICE_OFLAG_OPEN : Z := 0x008.
Definition RT_DEVICE_OFLAG_MASK : Z := 0xf0f.

Definition has (f x : Z) : bool := negb (Z.land x f =? 0).

(** [struct rt_device] without its object part; [U] is the driver's own state. *)
Record rt_device {U : Type} := mk_device {
  dflag : Z;       (** rt_uint16_t flag *)
  open_flag : Z;   (** rt_uint16_t *)
  ref_count : Z;   (** rt_uint8_t *)
  rx_indicate : Z; (** callbacks, by address *)
  tx_complete : Z;
  user : U;
}.
Arguments rt_device : clear implicits.

(** The function pointers of a driver, some of which may be null; a function may
    fail an assertion. *)
Class DeviceOps (U : Type) := {
  device_init : option (rt_device U -> option (Z * rt_device U));
  device_open : option (Z -> rt_device U -> option (Z * rt_device U));
  device_close : option (rt_device U -> option (Z * rt_device U));
  (* the count that is returned, the bytes stored, and the error number if it is set *)
  device_read : option (Z -> Z -> rt_device U -> option (Z * list Z * option Z * rt_device U));
  device_write : option (Z -> list Z -> rt_device U -> option (Z * rt_device U));
  device_control : option (Z -> Z -> rt_device U -> option (Z * rt_device U));
}.

Section device.

Context {U : Type} `{!DeviceOps U}.

Definition set_dflag (f : Z) (d : rt_device U) : rt_device U :=
  mk_device U f (open_flag d) (ref_count d) (rx_indicate d) (tx_complete d) (user d).
Definition set_open_flag (f : Z) (d : rt_device U) : rt_device U :=
  mk_device U (dflag d) f (ref_count d) (rx_indicate d) (tx_complete d) (user d).
Definition set_ref (n : Z) (d : rt_device U) : rt_device U :=
  mk_device U (dflag d) (open_flag d) n (rx_indicate d) (tx_complete d) (user d).

Definition activate (d : rt_device U) : rt_device U := set_dflag (Z.lor (dflag d) RT_DEVICE_FLAG_ACTIVATED) d.

(** ** One device *)

Definition rt_device_init (d : rt_device U) : option (Z * rt_device U) :=
  match device_init with
  | Some init =>
      if negb (has RT_DEVICE_FLAG_ACTIVATED (dflag d)) then
        '(result, d) ← init d;
        if negb (result =? RT_EOK) then Some (result, d) else Some (result, activate d)
      else Some (RT_EOK, d)
  | None => Some (RT_EOK, d)
  end.

(** The call of the driver's function if there is one. *)
Definition call_init (d : rt_device U) : option (Z * rt_device U) :=
  match device_init with Some init => init d | None => Some (RT_EOK, d) end.

(** The first part of [rt_device_open]. *)
Definition open_activate (d : rt_device U) : option (Z * rt_device U) :=
  if negb (has RT_DEVICE_FLAG_ACTIVATED (dflag d)) then
    '(result, d) ← call_init d;
    if negb (result =? RT_EOK) then Some (result, d) else Some (RT_EOK, activate d)
  else Some (RT_EOK, d).

Definition call_open (oflag : Z) (d : rt_device U) : option (Z * rt_device U) :=
  match device_open with
  | Some open => open oflag d
  | None => Some (RT_EOK, set_open_flag (Z.land oflag RT_DEVICE_OFLAG_MASK) d)
  end.

Definition call_close (d : rt_device U) : option (Z * rt_device U) :=
  match device_close with Some close => close d | None => Some (RT_EOK, d) end.

Definition accepted (result : Z) : bool := (result =? RT_EOK) || (result =? - RT_ENOSYS).

(** The last part: the OPEN flag and the count. *)
Definition mark_open (d : rt_device U) : rt_device U :=
  set_open_flag (Z.lor (open_flag d) RT_DEVICE_OFLAG_OPEN) d.

Definition count_user (d : rt_device U) : option (rt_device U) :=
  let d := set_ref (u8 (ref_count d + 1)) (mark_open d) in
  _ ← RT_ASSERT (negb (ref_count d =? 0));
  Some d.

Definition rt_device_open (oflag : Z) (d : rt_device U) : option (Z * rt_device U) :=
  '(result, d) ← open_activate d;
  if negb (result =? RT_EOK) then Some (result, d) else
  if has RT_DEVICE_FLAG_STANDALONE (dflag d) && has RT_DEVICE_OFLAG_OPEN (open_flag d)
  then Some (- RT_EBUSY, d) else
  '(result, d) ← call_open oflag d;
  if accepted result then d ← count_user d; Some (result, d) else Some (result, d).

Definition rt_device_close (d : rt_device U) : option (Z * rt_device U) :=
  if ref_count d =? 0 then Some (- RT_ERROR, d) else
  let d := set_ref (u8 (ref_count d - 1)) d in
  if negb (ref_count d =? 0) then Some (RT_EOK, d) else
  '(result, d) ← call_close d;
  if accepted result then Some (result, set_open_flag RT_DEVICE_OFLAG_CLOSE d) else Some (result, d).

Definition rt_device_read (pos size : Z) (d : rt_device U) : option (Z * list Z * option Z * rt_device U) :=
  if ref_count d =? 0 then Some (0, [], Some (- RT_ERROR), d) else
  match device_read with
  | Some read => read pos size d
  | None => Some (0, [], Some (- RT_ENOSYS), d)
  end.

(** The second component of the result is the thread's error number if it is set. *)
Definition rt_device_write (pos : Z) (buffer : list Z) (d : rt_device U) : option (Z * option Z * rt_device U) :=
  if ref_count d =? 0 then Some (0, Some (- RT_ERROR), d) else
  match device_write with
  | Some write => '(n, d) ← write pos buffer d; Some (n, None, d)
  | None => Some (0, Some (- RT_ENOSYS), d)
  end.

Definition rt_device_control (cmd arg : Z) (d : rt_device U) : option (Z * rt_device U) :=
  match device_control with Some control => control cmd arg d | None => Some (- RT_ENOSYS, d) end.

Definition rt_device_set_rx_indicate (f : Z) (d : rt_device U) : Z * rt_device U :=
  (RT_EOK, mk_device U (dflag d) (open_flag d) (ref_count d) f (tx_complete d) (user d)).

Definition rt_device_set_tx_complete (f : Z) (d : rt_device U) : Z * rt_device U :=
  (RT_EOK, mk_device U (dflag d) (open_flag d) (ref_count d) (rx_indicate d) f (user d)).

(** ** The registry *)

Record devices := mk_devices { osys : objects; devs : gmap Z (rt_device U) }.

Definition rt_device_find (n : list Z) (s : devices) : option (option Z) :=
  xs ← rt_object_get_information RT_Object_Class_Device (osys s);
  find_loop n xs (osys s).

Definition fresh_device (flags : Z) (d : rt_device U) : rt_device U :=
  mk_device U (u16 flags) 0 0 (rx_indicate d) (tx_complete d) (user d).

(** [d] is what the memory at [dev] holds; a null pointer is 0. *)
Definition rt_device_register (dev : Z) (n : list Z) (flags junk : Z) (d : rt_device U) (s : devices)
  : option (Z * devices) :=
  if dev =? 0 then Some (- RT_ERROR, s) else
  r ← rt_device_find n s;
  match r with
  | Some _ => Some (- RT_ERROR, s)
  | None =>
      o ← rt_object_init dev RT_Object_Class_Device n junk (osys s);
      Some (RT_EOK, mk_devices o (<[dev := fresh_device flags d]> (devs s)))
  end.

Definition rt_device_unregister (dev : Z) (s : devices) : option (Z * devices) :=
  o ← objs (osys s) !! dev;
  _ ← RT_ASSERT (rt_object_get_type o =? RT_Object_Class_Device);
  _ ← RT_ASSERT (rt_object_is_systemobject o);
  os ← rt_object_detach dev (osys s);
  Some (RT_EOK, mk_devices os (devs s)).

(** [ptr] is the result of [rt_malloc]; [u] the zeroed rest of the structure. *)
Definition rt_device_create (ptr : Z) (u : U) (s : devices) : Z * devices :=
  if ptr =? 0 then (0, s)
  else (ptr, mk_devices (put_object ptr (mk_object (replicate RT_NAME_MAX 0) 0 0) (osys s))
                        (<[ptr := mk_device U 0 0 0 0 0 u]> (devs s))).

Definition rt_device_destroy (dev : Z) (s : devices) : option devices :=
  o ← objs (osys s) !! dev;
  _ ← RT_ASSERT (rt_object_get_type o =? RT_Object_Class_Device);
  _ ← RT_ASSERT (bool_decide (rt_object_is_systemobject o = false));
  os ← rt_object_detach dev (osys s);
  Some (mk_devices (mk_objects (delete dev (objs os)) (containers os)) (delete dev (devs s))).

(** ** The console of [kservice.c] *)

Definition put_dev (x : Z) (d : rt_device U) (s : devices) : devices :=
  mk_devices (osys s) (<[x := d]> (devs s)).

(** [console] is [_console_device]; the result is the old device. *)
Definition rt_console_set_device (n : list Z) (console : option Z) (s : devices)
  : option (option Z * option Z * devices) :=
  new ← rt_device_find n s;
  match new with
  | None => Some (console, console, s)
  | Some x =>
      s ← match console with
          | Some y => d ← devs s !! y; '(_, d) ← rt_device_close d; Some (put_dev y d s)
          | None => Some s
          end;
      d ← devs s !! x;
      '(_, d) ← rt_device_open (Z.lor RT_DEVICE_OFLAG_RDWR RT_DEVICE_FLAG_STREAM) d;
      Some (console, Some x, put_dev x d s)
  end.

(** What [rt_kputs] and [rt_kprintf] do with their text once a console is set:
    the device is in stream mode for the time of the call. *)
Definition console_write (text : list Z) (d : rt_device U) : option (rt_device U) :=
  let old_flag := open_flag d in
  let d := set_open_flag (Z.lor (open_flag d) RT_DEVICE_FLAG_STREAM) d in
  '(_, _, d) ← rt_device_write 0 text d;
  Some (set_open_flag old_flag d).

(** ** Reference counting *)

Definition is_open (d : rt_device U) : bool := has RT_DEVICE_OFLAG_OPEN (open_flag d).
Definition alone (d : rt_device U) : bool := has RT_DEVICE_FLAG_STANDALONE (dflag d).

(** What the device layer relies on, and what it gives in return: an invariant of
    the driver, on the device as the layer leaves it.  The driver's functions do not
    fault while it holds; they leave the reference count and the flags alone; a refused open leaves the OPEN bit as it was; closing succeeds; and
    initialising does not fail with the code for a missing function. *)
Class DriverLaws := {
  drv_ok : rt_device U -> Prop;
  ok_ref n d : drv_ok d -> drv_ok (set_ref n d);
  init_keeps d : drv_ok d -> has RT_DEVICE_FLAG_ACTIVATED (dflag d) = false ->
    exists r d', call_init d = Some (r, d') /\ ref_count d' = ref_count d /\ dflag d' = dflag d /\
      is_open d' = is_open d /\ r <> - RT_ENOSYS /\ drv_ok (if r =? RT_EOK then activate d' else d');
  open_keeps o d : drv_ok d -> has RT_DEVICE_FLAG_ACTIVATED (dflag d) = true ->
    exists r d', call_open o d = Some (r, d') /\ ref_count d' = ref_count d /\ dflag d' = dflag d /\
      if accepted r then drv_ok (mark_open d') else is_open d' = is_open d /\ drv_ok d';
  close_keeps d : drv_ok d -> is_open d = true ->
    exists r d', call_close d = Some (r, d') /\ ref_count d' = ref_count d /\ dflag d' = dflag d /\
      accepted r = true /\ drv_ok (set_open_flag RT_DEVICE_OFLAG_CLOSE d');
}.

Lemma has_lor_self f x : f <> 0 -> has f (Z.lor x f) = true.
Proof.
  intros Hf. unfold has. apply negb_true_iff, Z.eqb_neq. rewrite Z.land_lor_distr_l, Z.land_diag.
  rewrite Z.lor_eq_0_iff. tauto.
Qed.

Lemma has_flag_lor f g x : has f (Z.lor x g) = has f x || has f g.
Proof.
  unfold has. rewrite Z.land_lor_distr_l.
  destruct (Z.eqb_spec (Z.land x f) 0) as [->|E]; [by rewrite Z.lor_0_l|]. cbn [negb orb].
  apply negb_true_iff, Z.eqb_neq. rewrite Z.lor_eq_0_iff. tauto.
Qed.

Section laws.

Context `{Hlaws : !DriverLaws}.

Record dev_ok (d : rt_device U) : Prop := {
  do_count : 0 <= ref_count d < 256;
  do_open : is_open d = negb (ref_count d =? 0);
  do_alone : alone d = true -> ref_count d <= 1;
  do_active : ref_count d <> 0 -> has RT_DEVICE_FLAG_ACTIVATED (dflag d) = true;
  do_driver : drv_ok d;
}.

Lemma activated d : has RT_DEVICE_FLAG_ACTIVATED (dflag (activate d)) = true.
Proof. by apply has_lor_self. Qed.

Lemma open_activate_ok d :
  dev_ok d ->
  exists r d', open_activate d = Some (r, d') /\ dev_ok d' /\ ref_count d' = ref_count d /\ r <> - RT_ENOSYS /\
    (r = RT_EOK -> has RT_DEVICE_FLAG_ACTIVATED (dflag d') = true).
Proof.
  intros [Hc Ho Ha Hact Hd]. unfold open_activate. destruct (has RT_DEVICE_FLAG_ACTIVATED (dflag d)) eqn:E; cbn [negb].
  { exists RT_EOK, d. by split_and!. }
  assert (ref_count d = 0) as H0 by (destruct (Z.eq_dec (ref_count d) 0) as [|Hn]; [done|by specialize (Hact Hn)]).
  destruct (init_keeps d Hd E) as (r & d' & -> & Hr & Hal & Hop & Hns & Hok). cbn [mbind option_bind].
  destruct (Z.eqb_spec r RT_EOK) as [->|Hne]; cbn [negb].
  - exists RT_EOK, (activate d'). split_and!; try done; [|intros _; apply activated].
    constructor; [cbn; lia|unfold is_open in *; cbn; congruence|cbn; lia|intros _; apply activated|done].
  - exists r, d'. split_and!; try done. constructor; [lia|congruence|lia|lia|done].
Qed.

Lemma counted (d : rt_device U) :
  0 <= ref_count d < 255 -> (alone d = true -> ref_count d = 0) ->
  has RT_DEVICE_FLAG_ACTIVATED (dflag d) = true -> drv_ok (mark_open d) ->
  exists d', count_user d = Some d' /\ dev_ok d' /\ ref_count d' = ref_count d + 1.
Proof.
  intros Hd Hal Hac Hok. unfold count_user. cbn [ref_count set_ref mark_open set_open_flag]. rewrite wrapu_small by lia.
  destruct (Z.eqb_spec (ref_count d + 1) 0); [lia|]. cbn [negb RT_ASSERT mbind option_bind].
  eexists. split; [done|]. split; [|done]. constructor; cbn [ref_count dflag set_ref mark_open set_open_flag]; [lia| |..|done|].
  - unfold is_open. cbn [open_flag set_ref mark_open set_open_flag]. rewrite has_lor_self by done.
    destruct (Z.eqb_spec (ref_count d + 1) 0); [lia|done].
  - intros Ha. unfold alone in *. cbn [dflag set_ref mark_open set_open_flag] in Ha. specialize (Hal Ha). lia.
  - by apply ok_ref.
Qed.

Lemma open_spec oflag d :
  dev_ok d -> ref_count d < 255 ->
  exists r d', rt_device_open oflag d = Some (r, d') /\ dev_ok d' /\
    ref_count d' = ref_count d + (if accepted r then 1 else 0).
Proof.
  intros Hd Hn. unfold rt_device_open. destruct (open_activate_ok d Hd) as (r1 & d1 & -> & Hd1 & Hr1 & Hns & Hac).
  cbn [mbind option_bind]. pose proof (do_count d1 Hd1) as Hc.
  assert (forall r, accepted r = false -> exists r' d', Some (r, d1) = Some (r', d') /\ dev_ok d' /\
    ref_count d' = ref_count d + (if accepted r' then 1 else 0)) as Hrej.
  { intros r Hr. exists r, d1. rewrite Hr. split_and!; [done|done|lia]. }
  destruct (Z.eqb_spec r1 RT_EOK) as [->|Hne]; cbn [negb].
  2: { apply Hrej. unfold accepted. by rewrite !(proj2 (Z.eqb_neq _ _)). }
  specialize (Hac eq_refl). fold (alone d1). fold (is_open d1).
  destruct (alone d1 && is_open d1) eqn:Ebusy; [by apply Hrej|].
  assert (alone d1 = true -> ref_count d1 = 0) as Hal0.
  { intros Ha. rewrite Ha in Ebusy. cbn [andb] in Ebusy. rewrite (do_open d1 Hd1) in Ebusy.
    apply negb_false_iff, Z.eqb_eq in Ebusy. done. }
  destruct (open_keeps oflag d1 (do_driver d1 Hd1) Hac) as (r2 & d2 & -> & Hr2 & Hal & Hok). cbn [mbind option_bind].
  assert (alone d2 = alone d1) as Hal2 by (unfold alone; by rewrite Hal).
  destruct (accepted r2) eqn:Ea.
  - destruct (counted d2) as (d' & -> & Hd' & Hr'); [lia|rewrite Hal2, Hr2; done|by rewrite Hal|done|].
    exists r2, d'. rewrite Ea. split_and!; [done|done|lia].
  - exists r2, d2. rewrite Ea. split_and!; [done| |lia]. destruct Hd1 as [C1 C2 C3 C4 C5], Hok as [Ho Hk].
    constructor; [lia|congruence|by rewrite Hal2, Hr2|by rewrite Hal, Hr2|done].
Qed.

Lemma close_spec d :
  dev_ok d ->
  if ref_count d =? 0 then rt_device_close d = Some (- RT_ERROR, d)
  else exists r d', rt_device_close d = Some (r, d') /\ accepted r = true /\ dev_ok d' /\
         ref_count d' = ref_count d - 1 /\
         (1 < ref_count d -> d' = set_ref (ref_count d - 1) d /\ r = RT_EOK).
Proof.
  intros [Hc Ho Ha Hac Hd]. unfold rt_device_close. destruct (Z.eqb_spec (ref_count d) 0) as [E|E]; [done|].
  cbn [ref_count set_ref]. rewrite wrapu_small by lia.
  destruct (Z.eqb_spec (ref_count d - 1) 0) as [E1|E1]; cbn [negb].
  - destruct (close_keeps (set_ref (ref_count d - 1) d)) as (r & d' & -> & Hr & Hf & Hacc & Hok);
      [by apply ok_ref|change (is_open d = true); by rewrite Ho|].
    cbn [mbind option_bind]. rewrite Hacc. cbn [ref_count set_ref] in Hr. do 2 eexists. split; [done|]. split; [done|].
    split; [|split; [done|lia]]. constructor; cbn [ref_count dflag set_open_flag]; [lia| |lia|lia|done].
    unfold is_open. cbn. by rewrite Hr, E1.
  - do 2 eexists. split; [done|]. split; [done|]. split; [|done].
    constructor; cbn [ref_count dflag set_ref]; [lia| | | |by apply ok_ref].
    + change (is_open (set_ref (ref_count d - 1) d)) with (is_open d). rewrite Ho.
      by rewrite (proj2 (Z.eqb_neq _ _)) by done.
    + intros H. specialize (Ha H). lia.
    + intros _. by apply Hac.
Qed.

(** Calls on one device, and the number of users they leave. *)
Inductive call := COpen (oflag : Z) | CClose.

Definition run_call (c : call) (d : rt_device U) : option (Z * rt_device U) :=
  match c with COpen o => rt_device_open o d | CClose => rt_device_close d end.

Fixpoint run_calls (cs : list call) (d : rt_device U) : option (list Z * rt_device U) :=
  match cs with
  | [] => Some ([], d)
  | c :: cs =>
      '(r, d) ← run_call c d;
      '(rs, d) ← run_calls cs d; Some (r :: rs, d)
  end.

(** An accepted open is a user more, a close one less while there are any. *)
Definition users_after (n : Z) (c : call) (r : Z) : Z :=
  match c with COpen _ => if accepted r then n + 1 else n | CClose => Z.max 0 (n - 1) end.

Fixpoint users (n : Z) (cs : list call) (rs : list Z) : Z :=
  match cs, rs with c :: cs, r :: rs => users (users_after n c r) cs rs | _, _ => n end.

Lemma run_calls_spec cs : forall d,
  dev_ok d -> ref_count d + Z.of_nat (length cs) < 256 ->
  exists rs d', run_calls cs d = Some (rs, d') /\ length rs = length cs /\ dev_ok d' /\
    ref_count d' = users (ref_count d) cs rs.
Proof.
  induction cs as [|c cs IH]; intros d Hd Hl; cbn [run_calls]; [by exists [], d|]. cbn [length] in Hl.
  assert (exists r d1, run_call c d = Some (r, d1) /\ dev_ok d1 /\ ref_count d1 = users_after (ref_count d) c r)
    as (r & d1 & -> & Hd1 & Hr1).
  { destruct c as [o|]; cbn [run_call users_after].
    - destruct (open_spec o d Hd) as (r & d1 & E & Hd1 & Hr); [lia|]. exists r, d1.
      destruct (accepted r); split_and!; try done; lia.
    - pose proof (close_spec d Hd) as H. pose proof (do_count d Hd).
      destruct (Z.eqb_spec (ref_count d) 0) as [E|E].
      + exists (- RT_ERROR), d. rewrite H. split_and!; [done|done|lia].
      + destruct H as (r & d1 & -> & _ & Hd1 & Hr & _). exists r, d1. split_and!; [done|done|lia]. }
  cbn [mbind option_bind]. pose proof (do_count d Hd).
  assert (ref_count d1 <= ref_count d + 1) by (rewrite Hr1; unfold users_after; destruct c; [case_match|]; lia).
  destruct (IH d1 Hd1) as (rs & d' & -> & Hlen & Hd' & Hr'); [lia|]. cbn [mbind option_bind].
  exists (r :: rs), d'. split_and!; [done|cbn; lia|done|]. cbn [users]. by rewrite Hr', Hr1.
Qed.

End laws.

(** ** The registry as a map from names to devices *)

Inductive dev_reach : devices -> Prop :=
| dreach_empty m : dev_reach (mk_devices no_objects m)
| dreach_register s dev n flags junk d r s' : dev_reach s -> unlinked dev (osys s) -> chars n ->
    rt_device_register dev n flags junk d s = Some (r, s') -> dev_reach s'
| dreach_unregister s dev r s' : dev_reach s -> rt_device_unregister dev s = Some (r, s') -> dev_reach s'
| dreach_create s ptr u r s' : dev_reach s -> objs (osys s) !! ptr = None ->
    rt_device_create ptr u s = (r, s') -> dev_reach s'
| dreach_destroy s dev s' : dev_reach s -> rt_device_destroy dev s = Some s' -> dev_reach s'
| dreach_use s m : dev_reach s -> dev_reach (mk_devices (osys s) m).

Record reg_wf (o : objects) : Prop := {
  rw_wf : obj_wf o;
  rw_static x ob : objs o !! x = Some ob -> rt_object_get_type ob = RT_Object_Class_Device ->
    rt_object_is_systemobject ob = true;
  rw_names xs x y : containers o !! RT_Object_Class_Device = Some xs -> x ∈ xs -> y ∈ xs ->
    stored x o = stored y o -> x = y;
}.

Lemma device_class : RT_Object_Class_Device ∈ rt_object_container.
Proof. unfold RT_Object_Class_Device, rt_object_container. set_solver. Qed.

Lemma device_find_spec s n :
  obj_wf (osys s) -> chars n ->
  exists r, rt_device_find n s = Some r /\ found n RT_Object_Class_Device (osys s) r.
Proof. intros Hw Hn. exact (find_spec (osys s) n RT_Object_Class_Device Hw device_class Hn). Qed.

Lemma destroy_fails o dev s : reg_wf o -> osys s = o -> rt_device_destroy dev s = None.
Proof.
  intros Hw <-. unfold rt_device_destroy. destruct (objs (osys s) !! dev) as [ob|] eqn:E; [|done].
  cbn [mbind option_bind]. destruct (Z.eqb_spec (rt_object_get_type ob) RT_Object_Class_Device) as [Et|Et]; [|done].
  cbn [RT_ASSERT mbind option_bind]. by rewrite (rw_static _ Hw dev ob E Et).
Qed.

(** Registering a device whose name is not taken. *)
Lemma register_new s dev n flags junk d :
  reg_wf (osys s) -> unlinked dev (osys s) -> chars n -> dev <> 0 ->
  found n RT_Object_Class_Device (osys s) None ->
  exists o, rt_device_register dev n flags junk d s =
    Some (RT_EOK, mk_devices o (<[dev := fresh_device flags d]> (devs s))) /\
    reg_wf o /\ rt_object_find (Some n) RT_Object_Class_Device o = Some (Some dev).
Proof.
  intros [Hw Hst Hnm] Hu Hn H0 (xs & Ex & Hf). unfold rt_device_register.
  rewrite (proj2 (Z.eqb_neq dev 0) H0).
  destruct (device_find_spec s n Hw Hn) as (r & -> & ys & Ey & Hr). rewrite Ex in Ey. injection Ey as <-.
  cbn [mbind option_bind]. destruct r as [x|].
  { destruct Hr as (ys & zs & -> & Hs & _). exfalso. apply (Hf x); [|done]. apply elem_of_app. right. by left. }
  destruct (init_spec (osys s) dev RT_Object_Class_Device n junk Hw Hu device_class Hn)
    as (o & xs' & -> & Hw' & Ex' & Ec & Eo). rewrite Ex in Ex'. injection Ex' as <-. cbn [mbind option_bind].
  exists o. split; [done|].
  assert (forall y, y <> dev -> stored y o = stored y (osys s)) as Hold.
  { intros y Hy. unfold stored. by rewrite Eo, lookup_insert_ne by congruence. }
  assert (stored dev o = Some (copy_name n)) as Hnew by (unfold stored; by rewrite Eo, lookup_insert_eq).
  assert (containers o !! RT_Object_Class_Device = Some (dev :: xs)) as Ed by (by rewrite Ec, lookup_insert_eq).
  split; [|by eapply find_front].
  constructor; [done| |].
  - intros x ob. rewrite Eo, lookup_insert. case_decide; [intros [= <-] _; done|apply Hst].
  - intros zs x y Ez. rewrite Ed in Ez. injection Ez as <-. rewrite !elem_of_cons.
    assert (dev ∉ xs) as Hnd by (by apply (Hu RT_Object_Class_Device)).
    intros [->|Hx] [->|Hy] E; [done| | |].
    + rewrite Hnew, Hold in E by congruence. by destruct (Hf y Hy).
    + rewrite Hnew, Hold in E by congruence. by destruct (Hf x Hx).
    + rewrite !Hold in E by congruence. by eapply Hnm.
Qed.

Lemma register_taken s dev n flags junk d x :
  reg_wf (osys s) -> chars n -> found n RT_Object_Class_Device (osys s) (Some x) ->
  rt_device_register dev n flags junk d s = Some (- RT_ERROR, s).
Proof.
  intros [Hw _ _] Hn (xs & Ex & Hf). unfold rt_device_register. destruct (dev =? 0); [done|].
  destruct (device_find_spec s n Hw Hn) as (r & -> & ys & Ey & Hr). rewrite Ex in Ey. injection Ey as <-.
  cbn [mbind option_bind]. destruct r as [y|]; [done|].
  destruct Hf as (ys & zs & -> & Hs & _). exfalso. apply (Hr x); [|done]. apply elem_of_app. right. by left.
Qed.

Lemma detached_wf o x ob o' :
  reg_wf o -> objs o !! x = Some ob -> rt_object_detach x o = Some o' -> reg_wf o'.
Proof.
  intros [Hw Hst Hnm] E Ed. destruct (detach_spec o x ob Hw E) as (o1 & E1 & Hw1 & _ & Ec & Eo).
  rewrite Ed in E1. injection E1 as <-. constructor; [done| |].
  - intros y oy. rewrite Eo, lookup_insert. case_decide; [by intros [= <-]|apply Hst].
  - intros xs y z. rewrite Ec, lookup_lremove, fmap_Some. intros (ys & Ey & ->).
    intros [Hy Hyin]%list_elem_of_filter [Hz Hzin]%list_elem_of_filter. unfold stored.
    rewrite Eo, !lookup_insert_ne by congruence. by eapply Hnm.
Qed.

Lemma created_wf o x ob :
  reg_wf o -> objs o !! x = None -> rt_object_get_type ob <> RT_Object_Class_Device -> reg_wf (put_object x ob o).
Proof.
  intros [[Hu Hc Hl] Hst Hnm] E Ht.
  assert (unlinked x o) as Hx by (apply unknown_unlinked; [by constructor|done]).
  constructor; [constructor; [done|done|] | |]; cbn [objs containers put_object].
  - intros c xs y Ec Hin. rewrite lookup_insert_ne by (intros ->; by apply (Hx c xs)). by eapply Hl.
  - intros y oy. rewrite lookup_insert. case_decide; [by intros [= <-]|apply Hst].
  - intros xs y z Ec Hy Hz. unfold stored. cbn [objs put_object].
    rewrite !lookup_insert_ne by (intros ->; by apply (Hx _ xs Ec)). by eapply Hnm.
Qed.

(** Taking a device out again: its name is free. *)
Lemma unregister_spec s n x :
  reg_wf (osys s) -> chars n -> rt_device_find n s = Some (Some x) ->
  exists s', rt_device_unregister x s = Some (RT_EOK, s') /\ rt_device_find n s' = Some None.
Proof.
  intros Hr Hn Ef. pose proof Hr as [Hw Hst Hnm].
  destruct (device_find_spec s n Hw Hn) as (r & Er & xs & Ex & Hf). rewrite Ef in Er. injection Er as <-.
  destruct Hf as (ys & zs & -> & Es & Hys).
  assert (x ∈ ys ++ x :: zs) as Hin by (apply elem_of_app; right; by left).
  destruct (ow_linked _ Hw _ _ x Ex Hin) as (o & m & Eo & Ht & _ & _).
  unfold rt_device_unregister. rewrite Eo. cbn [mbind option_bind].
  rewrite Ht, (Hst x o Eo Ht), Z.eqb_refl. cbn [RT_ASSERT mbind option_bind].
  destruct (detach_spec (osys s) x o Hw Eo) as (o' & -> & Hw' & _ & Ec & Eo'). cbn [mbind option_bind].
  eexists. split; [done|].
  destruct (device_find_spec (mk_devices o' (devs s)) n Hw' Hn) as (r & -> & xs' & Ex' & Hf'). cbn [osys] in *.
  destruct r as [y|]; [|done]. exfalso. rewrite Ec, lookup_lremove, Ex in Ex'. injection Ex' as <-.
  destruct Hf' as (ys' & zs' & Efl & Ey & _).
  assert (y ∈ filter (fun u => u <> x) (ys ++ x :: zs)) as [Hne Hy]%list_elem_of_filter
    by (rewrite Efl; apply elem_of_app; right; by left).
  apply Hne. eapply Hnm; [exact Ex|done|done|]. rewrite Es, <- Ey. unfold stored.
  by rewrite Eo', lookup_insert_ne by congruence.
Qed.

Lemma reg_reach s : dev_reach s -> reg_wf (osys s).
Proof.
  induction 1 as [m|s dev n flags junk d r s' _ IH Hu Hn E|s dev r s' _ IH E|s ptr u r s' _ IH Hp E
    |s dev s' _ IH E|s m _ IH]; [..|done].
  - constructor; [apply no_objects_wf|done|]. intros xs x y Ex. cbn in Ex. rewrite no_objects_lookup in Ex.
    case_bool_decide; [|done]. injection Ex as <-. by rewrite elem_of_nil.
  - destruct (decide (dev = 0)) as [->|H0]; [by injection E as _ <-|].
    destruct (device_find_spec s n (rw_wf _ IH) Hn) as ([x|] & _ & Hf).
    + rewrite (register_taken s dev n flags junk d x IH Hn Hf) in E. by injection E as _ <-.
    + destruct (register_new s dev n flags junk d IH Hu Hn H0 Hf) as (o & Er & Ho & _). rewrite E in Er.
      by injection Er as -> ->.
  - unfold rt_device_unregister in E. destruct (objs (osys s) !! dev) as [ob|] eqn:Eo; [|done].
    cbn [mbind option_bind] in E. destruct (RT_ASSERT (_ =? _)); [|done]. cbn [mbind option_bind] in E.
    destruct (RT_ASSERT (rt_object_is_systemobject ob)); [|done]. cbn [mbind option_bind] in E.
    destruct (rt_object_detach dev (osys s)) as [os|] eqn:Ed; [|done]. injection E as _ <-.
    by eapply detached_wf.
  - unfold rt_device_create in E. destruct (ptr =? 0); injection E as _ <-; [done|]. by apply created_wf.
  - by rewrite (destroy_fails _ dev s IH eq_refl) in E.
Qed.

(** Switching the console: the old device has one user less, the new one is open
    for one user more. *)
Lemma console_switch `{!DriverLaws} s n y x dy dx :
  obj_wf (osys s) -> chars n -> rt_device_find n s = Some (Some x) -> x <> y ->
  devs s !! y = Some dy -> devs s !! x = Some dx -> dev_ok dy -> dev_ok dx ->
  0 < ref_count dy -> ref_count dx < 255 ->
  exists r s' dy' dx', rt_console_set_device n (Some y) s = Some (Some y, Some x, s') /\
    devs s' !! y = Some dy' /\ devs s' !! x = Some dx' /\
    ref_count dy' = ref_count dy - 1 /\ ref_count dx' = ref_count dx + (if accepted r then 1 else 0).
Proof.
  intros Hw Hn Ef Hxy Ey Ex Hy Hx Hry Hrx. unfold rt_console_set_device. rewrite Ef. cbn [mbind option_bind].
  rewrite Ey. cbn [mbind option_bind]. pose proof (close_spec dy Hy) as Hc.
  destruct (Z.eqb_spec (ref_count dy) 0); [lia|]. destruct Hc as (rc & dc & -> & _ & _ & Hrc & _).
  cbn [mbind option_bind put_dev devs]. rewrite lookup_insert_ne, Ex by congruence. cbn [mbind option_bind].
  destruct (open_spec (Z.lor RT_DEVICE_OFLAG_RDWR RT_DEVICE_FLAG_STREAM) dx Hx Hrx) as (r & d' & -> & _ & Hr).
  cbn [mbind option_bind put_dev devs osys]. eexists r, _, dc, d'. split; [done|]. unfold put_dev. cbn [devs].
  split; [by rewrite lookup_insert_ne, lookup_insert_eq by congruence|].
  by split; [rewrite lookup_insert_eq|].
Qed.

End device.

(** ** A driver *)

(** A character driver without an open function that collects what is written. *)
#[local] Instance sample_ops : DeviceOps (list Z) := {
  device_init := Some (fun d => Some (RT_EOK, d));
  device_open := None;
  device_close := Some (fun d => Some (RT_EOK, d));
  device_read := None;
  device_write := Some (fun _ b d => Some (zlen b, mk_device _ (dflag d) (open_flag d) (ref_count d)
                          (rx_indicate d) (tx_complete d) (user d ++ b)));
  device_control := None;
}.

#[local] Instance sample_laws : @DriverLaws (list Z) sample_ops.
Proof.
  refine {| drv_ok := fun _ => True |}; [done|..].
  - intros d _ _. by exists RT_EOK, d.
  - intros o d _ _. eexists RT_EOK, _. split; [reflexivity|done].
  - intros d _ _. by exists RT_EOK, d.
Defined.

Definition sample_device : rt_device (list Z) := mk_device _ RT_DEVICE_FLAG_STANDALONE 0 0 0 0 [].

(** ** Claims *)

(** Over any sequence of opens and closes, for any driver that satisfies the
    contract DriverLaws, ref_count equals the number of accepted opens less
    that of effective closes, a device with users is marked open, and a
    stand-alone device has at most one user. *)
Theorem device_users_counted {U} `{!DeviceOps U, !DriverLaws (U := U)} (cs : list call) (d : rt_device U) :
  dev_ok d -> ref_count d + Z.of_nat (length cs) < 256 ->
  exists rs d', run_calls cs d = Some (rs, d') /\ length rs = length cs /\ dev_ok d' /\
    ref_count d' = users (ref_count d) cs rs.
Proof. apply run_calls_spec. Qed.

Lemma device_users_counted_witness :
  (exists d, run_calls [COpen 3; COpen 3; CClose; CClose] sample_device =
    Some ([RT_EOK; - RT_EBUSY; RT_EOK; - RT_ERROR], d)) /\
  exists rs d', run_calls [COpen 3; COpen 3; CClose; CClose] sample_device = Some (rs, d') /\ dev_ok d'.
Proof.
  split; [eexists; vm_compute; reflexivity|].
  destruct (device_users_counted [COpen 3; COpen 3; CClose; CClose] sample_device) as (rs & d' & E & _ & H & _).
  - constructor; [cbn; lia|reflexivity|cbn; lia|cbn; lia|exact I].
  - cbn. lia.
  - exists rs, d'. exact (conj E H).
Defined.



(** A driver whose close function fails leaves the device without users but marked
    open; a stand-alone device can then not be opened again. *)
Definition failing_ops : DeviceOps unit :=
  {| device_init := None; device_open := None; device_close := Some (fun d => Some (- RT_ERROR, d));
     device_read := None; device_write := None; device_control := None |}.

Lemma failed_close_blocks :
  exists d, @run_calls unit failing_ops [COpen 3; CClose; COpen 3]
      (mk_device unit RT_DEVICE_FLAG_STANDALONE 0 0 0 0 tt) = Some ([RT_EOK; - RT_ERROR; - RT_EBUSY], d) /\
    ref_count d = 0.
Proof. eexists. vm_compute. split; reflexivity. Qed.

End Devices.
