(* ===== verification/I2cBits.v ===== *)
(** * The bit-banged I2C master

    [components/drivers/i2c/i2c-bit-ops.c], and the bus recovery of
    [drv_soft_i2c.c].  The pins, the delays and the clock are the operations of
    the class [BitOps], as they are function pointers of [struct rt_i2c_bit_ops]
    in the code; the loops that shift bits are written over them.

    The protocol theorem is about two open-drain wires with a slave that follows
    the I2C bus specification: it samples SDA when SCL rises, changes its own
    output only while SCL is low, and recognises START and STOP as changes of SDA
    while SCL is high.  Behind it is an arbitrary device that accepts addresses
    and bytes and supplies bytes.  A transfer on the wires has the result and the
    effect on the device of the byte-level definition [xfer_spec]. *)

From S2P Require Import Prelude ModbusCrc Sensors.

Module I2cBits.
Import Sensors.Sensors.
Import ModbusCrc.ModbusCrc.

Definition RT_EIO : Z := 8.
Definition RT_I2C_ADDR_10BIT : Z := 4.
Definition RT_I2C_NO_START : Z := 16.
Definition RT_I2C_IGNORE_NACK : Z := 32.
Definition RT_I2C_NO_READ_ACK : Z := 64.

(** [msg->flags & f] *)
Definition flag (f : Z) (msg : rt_i2c_msg) : bool := negb (Z.land (m_flags msg) f =? 0).

(** ** The operations of a bus *)

(** [struct rt_i2c_bit_ops]; [get_scl] may be a null pointer.  [rt_tick_get] and
    [rt_thread_delay] are the kernel's. *)
Class BitOps (W : Type) := {
  set_sda : bool -> W -> W;
  set_scl : bool -> W -> W;
  get_sda : W -> bool;
  get_scl : option (W -> bool);
  udelay : Z -> W -> W;
  delay_us : Z;
  timeout : Z;
  rt_tick_get : W -> Z;
  rt_thread_delay : Z -> W -> W;
}.

Section master.

Context {W : Type} `{!BitOps W}.

Definition i2c_delay (w : W) : W := udelay (Z.shiftr (delay_us + 1) 1) w.
Definition i2c_delay2 (w : W) : W := udelay delay_us w.

Definition SDA_L : W -> W := set_sda false.
Definition SDA_H : W -> W := set_sda true.
Definition SCL_L : W -> W := set_scl false.

(** The loop of [SCL_H]. *)
Fixpoint wait_scl (fuel : nat) (get : W -> bool) (start : Z) (w : W) : option (Z * W) :=
  if get w then Some (RT_EOK, w)
  else if timeout <? u32 (rt_tick_get w - start) then Some (- RT_ETIMEOUT, w)
  else match fuel with
       | O => None
       | S fuel => wait_scl fuel get start (rt_thread_delay (Z.shiftr (timeout + 1) 1) w)
       end.

Definition SCL_H (w : W) : option (Z * W) :=
  let w := set_scl true w in
  match get_scl with
  | None => Some (RT_EOK, i2c_delay w)
  | Some get =>
      '(ret, w) ← wait_scl 4 get (rt_tick_get w) w;
      if ret <? 0 then Some (ret, w) else Some (RT_EOK, i2c_delay w)
  end.

Definition i2c_start (w : W) : W := SCL_L (i2c_delay (SDA_L w)).

Definition i2c_restart (w : W) : option W :=
  '(_, w) ← SCL_H (SDA_H w);
  Some (SCL_L (i2c_delay (SDA_L (i2c_delay w)))).

Definition i2c_stop (w : W) : option W :=
  '(_, w) ← SCL_H (i2c_delay (SDA_L w));
  Some (i2c_delay2 (SDA_H (i2c_delay w))).

Definition i2c_waitack (w : W) : option (Z * W) :=
  '(ret, w) ← SCL_H (i2c_delay (SDA_H w));
  if ret <? 0 then Some (- RT_ETIMEOUT, w)
  else let ack := if get_sda w then 0 else 1 in Some (ack, SCL_L w).

(** [i] counts down from 7; [n] is [i + 1]. *)
Fixpoint writeb_loop (n : nat) (data : Z) (w : W) : option (Z * W) :=
  match n with
  | O => Some (RT_EOK, w)
  | S i =>
      let bit := Z.land (Z.shiftr data (Z.of_nat i)) 1 in
      '(ret, w) ← SCL_H (i2c_delay (set_sda (negb (bit =? 0)) (SCL_L w)));
      if ret <? 0 then Some (- RT_ETIMEOUT, w) else writeb_loop i data w
  end.

Definition i2c_writeb (data : Z) (w : W) : option (Z * W) :=
  '(ret, w) ← writeb_loop 8 data w;
  if ret <? 0 then Some (ret, w) else i2c_waitack (i2c_delay (SCL_L w)).

Fixpoint readb_loop (n : nat) (data : Z) (w : W) : option (Z * W) :=
  match n with
  | O => Some (data, w)
  | S n =>
      let data := u8 (Z.shiftl data 1) in
      '(ret, w) ← SCL_H w;
      if ret <? 0 then Some (- RT_ETIMEOUT, w)
      else let data := if get_sda w then Z.lor data 1 else data in
           readb_loop n data (i2c_delay2 (SCL_L w))
  end.

Definition i2c_readb (w : W) : option (Z * W) := readb_loop 8 0 (i2c_delay (SDA_H w)).

(** The loop of [i2c_send_bytes]; reading behind the buffer is a fault. *)
Fixpoint send_loop (count : nat) (ignore_nack : bool) (ptr : list Z) (bytes : Z) (w : W)
  : option (Z * W) :=
  match count with
  | O => Some (bytes, w)
  | S count =>
      match ptr with
      | [] => None
      | b :: ptr =>
          '(ret, w) ← i2c_writeb b w;
          if (0 <? ret) || (ignore_nack && (ret =? 0))
          then send_loop count ignore_nack ptr (bytes + 1) w
          else if ret =? 0 then Some (0, w) else Some (ret, w)
      end
  end.

Definition i2c_send_bytes (msg : rt_i2c_msg) (w : W) : option (Z * W) :=
  send_loop (Z.to_nat (m_len msg)) (flag RT_I2C_IGNORE_NACK msg) (m_buf msg) 0 w.

Definition i2c_send_ack_or_nack (ack : bool) (w : W) : option (Z * W) :=
  let w := if ack then set_sda false w else w in
  '(ret, w) ← SCL_H (i2c_delay w);
  if ret <? 0 then Some (- RT_ETIMEOUT, w) else Some (RT_EOK, SCL_L w).

(** The loop of [i2c_recv_bytes]: [ptr] is the part of the buffer from [*ptr] on;
    the result holds what it contains afterwards. *)
Fixpoint recv_loop (count : nat) (no_ack : bool) (ptr : list Z) (bytes : Z) (w : W)
  : option (Z * list Z * W) :=
  match count with
  | O => Some (bytes, ptr, w)
  | S count =>
      '(val, w) ← i2c_readb w;
      if 0 <=? val then
        match ptr with
        | [] => None
        | _ :: ptr =>
            if negb no_ack then
              '(r, w) ← i2c_send_ack_or_nack (negb (Nat.eqb count 0)) w;
              if r <? 0 then Some (r, val :: ptr, w)
              else '(n, ptr, w) ← recv_loop count no_ack ptr (bytes + 1) w; Some (n, val :: ptr, w)
            else '(n, ptr, w) ← recv_loop count no_ack ptr (bytes + 1) w; Some (n, val :: ptr, w)
        end
      else Some (bytes, ptr, w)
  end.

Definition set_buf (b : list Z) (m : rt_i2c_msg) : rt_i2c_msg := mk_msg (m_addr m) (m_flags m) (m_len m) b.

Definition i2c_recv_bytes (msg : rt_i2c_msg) (w : W) : option (Z * rt_i2c_msg * W) :=
  '(n, b, w) ← recv_loop (Z.to_nat (m_len msg)) (flag RT_I2C_NO_READ_ACK msg) (m_buf msg) 0 w;
  Some (n, set_buf b msg, w).

(** [tries] is [retries - i]. *)
Fixpoint i2c_send_address (tries : nat) (addr : Z) (w : W) : option (Z * W) :=
  '(ret, w) ← i2c_writeb addr w;
  if ret =? 1 then Some (ret, w)
  else match tries with
       | O => Some (ret, w)
       | S tries => w ← i2c_stop w; i2c_send_address tries addr (i2c_start (i2c_delay2 w))
       end.

Definition i2c_bit_send_address (bus_retries : nat) (msg : rt_i2c_msg) (w : W) : option (Z * W) :=
  let ignore_nack := flag RT_I2C_IGNORE_NACK msg in
  let retries := if ignore_nack then O else bus_retries in
  let failed ret := negb (ret =? 1) && negb ignore_nack in
  if flag RT_I2C_ADDR_10BIT msg then
    let addr1 := u8 (Z.lor 0xf0 (Z.land (Z.shiftr (m_addr msg) 7) 0x06)) in
    let addr2 := Z.land (m_addr msg) 0xff in
    '(ret, w) ← i2c_send_address retries addr1 w;
    if failed ret then Some (- RT_EIO, w) else
    '(ret, w) ← i2c_writeb addr2 w;
    if failed ret then Some (- RT_EIO, w) else
    if flag RT_I2C_RD msg then
      w ← i2c_restart w;
      '(ret, w) ← i2c_send_address retries (Z.lor addr1 1) w;
      if failed ret then Some (- RT_EIO, w) else Some (RT_EOK, w)
    else Some (RT_EOK, w)
  else
    let addr1 := u8 (Z.shiftl (m_addr msg) 1) in
    let addr1 := if flag RT_I2C_RD msg then Z.lor addr1 1 else addr1 in
    '(ret, w) ← i2c_send_address retries addr1 w;
    if failed ret then Some (- RT_EIO, w) else Some (RT_EOK, w).

(** One round of the loop of [i2c_bit_xfer], up to [goto out]: the result and
    whether to go on. *)
Definition xfer_msg (bus_retries : nat) (i : Z) (msg : rt_i2c_msg) (w : W)
  : option (Z * bool * rt_i2c_msg * W) :=
  let ignore_nack := flag RT_I2C_IGNORE_NACK msg in
  '(ret, w) ← (if negb (flag RT_I2C_NO_START msg) then
                 w ← (if negb (i =? 0) then i2c_restart w else Some w);
                 i2c_bit_send_address bus_retries msg w
               else Some (RT_EOK, w));
  if negb (ret =? RT_EOK) && negb ignore_nack then Some (ret, false, msg, w) else
  if flag RT_I2C_RD msg then
    '(ret, msg, w) ← i2c_recv_bytes msg w;
    if ret <? m_len msg then Some ((if 0 <=? ret then - RT_EIO else ret), false, msg, w)
    else Some (ret, true, msg, w)
  else
    '(ret, w) ← i2c_send_bytes msg w;
    if ret <? m_len msg then Some ((if 0 <=? ret then - RT_ERROR else ret), false, msg, w)
    else Some (ret, true, msg, w).

Fixpoint xfer_loop (bus_retries : nat) (i : Z) (msgs : list rt_i2c_msg) (w : W)
  : option (Z * list rt_i2c_msg * W) :=
  match msgs with
  | [] => Some (i, [], w)
  | msg :: msgs =>
      '(ret, go, msg, w) ← xfer_msg bus_retries i msg w;
      if (go : bool) then
        '(ret, msgs, w) ← xfer_loop bus_retries (i + 1) msgs w; Some (ret, msg :: msgs, w)
      else Some (ret, msg :: msgs, w)
  end.

Definition i2c_bit_xfer (bus_retries : nat) (msgs : list rt_i2c_msg) (w : W)
  : option (Z * list rt_i2c_msg * W) :=
  '(ret, msgs, w) ← xfer_loop bus_retries 0 msgs (i2c_start w);
  w ← i2c_stop w;
  Some (ret, msgs, w).

(** [stm32_i2c_bus_unlock] of [drv_soft_i2c.c]. *)
Fixpoint unlock_loop (n : nat) (w : W) : W :=
  match n with
  | O => w
  | S n => unlock_loop n (udelay 20 (set_scl false (udelay 20 (set_scl true w))))
  end.

Definition stm32_i2c_bus_unlock (w : W) : Z * W :=
  let w := if negb (get_sda w) then unlock_loop 9 w else w in
  if negb (get_sda w) then (- RT_ERROR, w) else (RT_EOK, w).

End master.

(** ** Every transfer terminates *)

(** The clock: a wait of [n] ticks takes at least [n] and at most [slack] more. *)
Class TickLaws (W : Type) `{!BitOps W} := {
  now : W -> Z;
  slack : Z;
  tick_now w : rt_tick_get w = u32 (now w);
  delay_now n w : 0 <= n -> now w + n <= now (rt_thread_delay n w) <= now w + n + slack;
  slack_range : 0 <= slack <= 2 ^ 24;
  timeout_range : 1 <= timeout <= 2 ^ 24;
}.

Section termination.

Context {W : Type} `{!BitOps W, !TickLaws W}.

Lemma elapsed_u32 a b : 0 <= a - b < 2 ^ 32 -> u32 (u32 a - u32 b) = a - b.
Proof.
  intros H. unfold wrapu. rewrite Zminus_mod_idemp_l, Zminus_mod_idemp_r. by apply Z.mod_small.
Qed.

(** Three waits of half the time-out exceed it. *)
Lemma wait_scl_total get k : forall fuel start w,
  (k <= fuel)%nat -> (k <= 3)%nat ->
  (3 - Z.of_nat k) * ((timeout + 1) / 2) <= now w - start <=
    (3 - Z.of_nat k) * ((timeout + 1) / 2 + slack) ->
  exists r w', wait_scl fuel get (u32 start) w = Some (r, w').
Proof.
  pose proof slack_range as Hs. pose proof timeout_range as Ht.
  assert (1 <= (timeout + 1) / 2 <= 2 ^ 23 + 1 /\ timeout < 3 * ((timeout + 1) / 2)) as [Hh H3] by zlia.
  assert (forall c e, 0 <= c <= 3 -> c * ((timeout + 1) / 2) <= e <= c * ((timeout + 1) / 2 + slack) ->
    0 <= e < 2 ^ 32) as Hr.
  { intros c e Hc. assert (c = 0 \/ c = 1 \/ c = 2 \/ c = 3) as [->|[->|[->| ->]]] by lia; lia. }
  induction k as [|k IH]; intros fuel start w Hk Hk3 Hw; destruct fuel as [|fuel]; cbn [wait_scl];
    destruct (get w); eauto; rewrite tick_now, elapsed_u32 by (eapply Hr; [|exact Hw]; lia).
  - destruct (Z.ltb_spec timeout (now w - start)); [eauto|lia].
  - destruct (Z.ltb_spec timeout (now w - start)); [eauto|lia].
  - lia.
  - destruct (Z.ltb_spec timeout (now w - start)); [eauto|]. rewrite Z.shiftr_div_pow2 by lia.
    change (2 ^ 1) with 2. assert (0 <= (timeout + 1) / 2) as Hp by lia. pose proof (delay_now _ w Hp).
    apply IH; [lia|lia|]. rewrite Nat2Z.inj_succ in Hw. lia.
Qed.

Lemma SCL_H_total w : exists r w', SCL_H w = Some (r, w').
Proof.
  unfold SCL_H. destruct get_scl as [get|]; [|eauto]. rewrite tick_now.
  destruct (wait_scl_total get 3 4 (now (set_scl true w)) (set_scl true w)) as (r & w' & ->);
    [lia|lia|lia|]. cbn [mbind option_bind]. destruct (r <? 0); eauto.
Qed.

(** [run_scl] advances a goal over the next [SCL_H]. *)
Ltac run_scl :=
  match goal with
  | |- context [SCL_H ?w] =>
      let r := fresh "r" in let w' := fresh "w" in
      destruct (SCL_H_total w) as (r & w' & ->); cbn [mbind option_bind]
  end.

Lemma writeb_total data w : exists r w', i2c_writeb data w = Some (r, w').
Proof.
  assert (forall n w, exists r w', writeb_loop n data w = Some (r, w')) as H.
  { induction n as [|n IH]; intros w0; cbn [writeb_loop]; [eauto|]. run_scl. case_match; eauto. }
  unfold i2c_writeb. destruct (H 8%nat w) as (r & w1 & ->). cbn [mbind option_bind].
  case_match; [eauto|]. unfold i2c_waitack. run_scl. case_match; eauto.
Qed.

Lemma readb_total w : exists r w', i2c_readb w = Some (r, w').
Proof.
  assert (forall n d w, exists r w', readb_loop n d w = Some (r, w')) as H; [|apply H].
  induction n as [|n IH]; intros d w0; cbn [readb_loop]; [eauto|]. run_scl. case_match; eauto.
Qed.

Lemma stop_total w : exists w', i2c_stop w = Some w'.
Proof. unfold i2c_stop. run_scl. eauto. Qed.

Lemma restart_total w : exists w', i2c_restart w = Some w'.
Proof. unfold i2c_restart. run_scl. eauto. Qed.

Lemma send_total n ign : forall ptr bytes w,
  (n <= length ptr)%nat -> exists r w', send_loop n ign ptr bytes w = Some (r, w').
Proof.
  induction n as [|n IH]; intros ptr bytes w Hl; cbn [send_loop]; [eauto|].
  destruct ptr as [|b ptr]; [cbn in Hl; lia|]. destruct (writeb_total b w) as (r & w1 & ->).
  cbn [mbind option_bind]. repeat case_match; eauto. apply IH. cbn in Hl. lia.
Qed.

Lemma ack_total b w : exists r w', i2c_send_ack_or_nack b w = Some (r, w').
Proof. unfold i2c_send_ack_or_nack. run_scl. case_match; eauto. Qed.

Lemma recv_total n no_ack : forall ptr bytes w,
  (n <= length ptr)%nat -> exists r b w', recv_loop n no_ack ptr bytes w = Some (r, b, w').
Proof.
  induction n as [|n IH]; intros ptr bytes w Hl; cbn [recv_loop]; [eauto|].
  destruct ptr as [|b ptr]; [cbn in Hl; lia|]. destruct (readb_total w) as (r & w1 & ->).
  cbn [mbind option_bind length] in *. case_match; [|eauto]. case_match.
  - destruct (ack_total (negb (Nat.eqb n 0)) w1) as (r2 & w2 & ->). cbn [mbind option_bind].
    case_match; [eauto|].
    destruct (IH ptr (bytes + 1) w2) as (n3 & b3 & w3 & ->); [lia|]. cbn [mbind option_bind]. eauto.
  - destruct (IH ptr (bytes + 1) w1) as (n3 & b3 & w3 & ->); [lia|]. cbn [mbind option_bind]. eauto.
Qed.

Lemma send_address_total tries addr : forall w,
  exists r w', i2c_send_address tries addr w = Some (r, w').
Proof.
  induction tries as [|n IH]; intros w; cbn [i2c_send_address];
    destruct (writeb_total addr w) as (r & w1 & ->); cbn [mbind option_bind]; case_match; eauto.
  destruct (stop_total w1) as (w2 & ->). cbn [mbind option_bind]. eauto.
Qed.

Lemma bit_send_address_total tries msg w :
  exists r w', i2c_bit_send_address tries msg w = Some (r, w').
Proof.
  unfold i2c_bit_send_address. set (n := if flag RT_I2C_IGNORE_NACK msg then O else tries).
  destruct (flag RT_I2C_ADDR_10BIT msg).
  - edestruct (send_address_total n) as (r1 & w1 & ->). cbn [mbind option_bind]. case_match; [eauto|].
    edestruct writeb_total as (r2 & w2 & ->). cbn [mbind option_bind]. case_match; [eauto|].
    case_match; [|eauto]. destruct (restart_total w2) as (w3 & ->). cbn [mbind option_bind].
    edestruct (send_address_total n) as (r4 & w4 & ->). cbn [mbind option_bind]. case_match; eauto.
  - edestruct (send_address_total n) as (r1 & w1 & ->). cbn [mbind option_bind]. case_match; eauto.
Qed.

(** Buffers as long as their messages. *)
Definition buffers_ok (msgs : list rt_i2c_msg) : Prop :=
  Forall (fun m => m_len m <= zlen (m_buf m)) msgs.

Lemma xfer_msg_total tries i msg w :
  m_len msg <= zlen (m_buf msg) ->
  exists r go msg' w', xfer_msg tries i msg w = Some (r, go, msg', w').
Proof.
  intros Hl. unfold xfer_msg.
  assert (exists r w1, (if negb (flag RT_I2C_NO_START msg) then
      w ← (if negb (i =? 0) then i2c_restart w else Some w); i2c_bit_send_address tries msg w
    else Some (RT_EOK, w)) = Some (r, w1)) as (r & w1 & ->).
  { destruct (negb (flag _ _)); [|eauto]. destruct (negb (i =? 0)).
    - destruct (restart_total w) as (w1 & ->). cbn [mbind option_bind]. apply bit_send_address_total.
    - cbn [mbind option_bind]. apply bit_send_address_total. }
  cbn [mbind option_bind]. case_match; [eauto 6|]. unfold zlen in Hl. destruct (flag RT_I2C_RD msg).
  - unfold i2c_recv_bytes. edestruct recv_total as (n & b & w2 & ->); [|cbn [mbind option_bind]; case_match; eauto 6].
    lia.
  - unfold i2c_send_bytes. edestruct send_total as (n & w2 & ->); [|cbn [mbind option_bind]; case_match; eauto 6].
    lia.
Qed.

Lemma xfer_loop_total tries msgs : forall i w,
  buffers_ok msgs -> exists r ms w', xfer_loop tries i msgs w = Some (r, ms, w').
Proof.
  induction msgs as [|msg msgs IH]; intros i w Hb; cbn [xfer_loop]; [eauto|].
  apply Forall_cons in Hb as [Hm Hb].
  destruct (xfer_msg_total tries i msg w Hm) as (r & go & m' & w1 & ->). cbn [mbind option_bind].
  destruct go; [|eauto]. destruct (IH (i + 1) w1 Hb) as (r2 & ms & w2 & ->). cbn [mbind option_bind]. eauto.
Qed.

Lemma xfer_total tries msgs w :
  buffers_ok msgs -> exists r ms w', i2c_bit_xfer tries msgs w = Some (r, ms, w').
Proof.
  intros Hb. unfold i2c_bit_xfer.
  destruct (xfer_loop_total tries msgs 0 (i2c_start w) Hb) as (r & ms & w1 & ->). cbn [mbind option_bind].
  destruct (stop_total w1) as (w2 & ->). cbn [mbind option_bind]. eauto.
Qed.

End termination.

(** ** Two wires and a slave *)

(** What is behind the slave's bus logic: whether an address byte (with the
    direction in bit 0) is for it, bytes written to it and whether it accepts
    them, bytes read from it, and the end of a transfer. *)
Class Device (D : Type) := {
  dev_addr : Z -> D -> option D;
  dev_write : Z -> D -> D * bool;
  dev_read : D -> Z * D;
  dev_stop : D -> D;
  dev_read_byte d : byte (dev_read d).1;
}.

(** The states of a slave according to the bus specification; [n] counts the
    bits that are still to come. *)
Inductive slave :=
| SIdle
| SRecv (first : bool) (n : nat) (acc : Z)
| SAck (rd : bool)
| SSend (n : nat) (v : Z)
| SWait.

(** The level the slave lets SDA have. *)
Definition drive (s : slave) : bool :=
  match s with SAck _ => false | SSend (S i) v => Z.testbit v (Z.of_nat i) | _ => true end.

Section wires.

Context {D : Type} `{!Device D}.

Definition send_next (d : D) : slave * D := let '(v, d) := dev_read d in (SSend 8 v, d).

(** A byte has arrived. *)
Definition received (first : bool) (v : Z) (d : D) : slave * D :=
  if first then
    match dev_addr v d with Some d => (SAck (Z.odd v), d) | None => (SIdle, d) end
  else let '(d, ok) := dev_write v d in (if ok : bool then SAck false else SIdle, d).

(** SCL rises while SDA is [b]. *)
Definition on_bit (b : bool) (s : slave) (d : D) : slave * D :=
  match s with
  | SIdle => (SIdle, d)
  | SRecv first n acc =>
      let acc := 2 * acc + Z.b2z b in
      match n with
      | S (S n) => (SRecv first (S n) acc, d)
      | _ => received first acc d
      end
  | SAck rd => if rd then send_next d else (SRecv false 8 0, d)
  | SSend (S (S n)) v => (SSend (S n) v, d)
  | SSend _ v => (SWait, d)
  | SWait => if b then (SIdle, d) else send_next d
  end.

Record wires := mk_wires {
  m_scl : bool;   (** the master's pins *)
  m_sda : bool;
  s_sda : bool;   (** the slave's pin *)
  sl : slave;
  dev : D;
}.

Definition line_sda (w : wires) : bool := m_sda w && s_sda w.

(** SDA changes: START and STOP when SCL is high. *)
Definition wire_set_sda (v : bool) (w : wires) : wires :=
  let '(s, d) :=
    if m_scl w then
      match line_sda w, v && s_sda w with
      | true, false => (SRecv true 8 0, dev w)
      | false, true => (SIdle, dev_stop (dev w))
      | _, _ => (sl w, dev w)
      end
    else (sl w, dev w) in
  mk_wires (m_scl w) v (s_sda w) s d.

(** SCL rises: the slave samples.  SCL falls: the slave changes its output. *)
Definition wire_set_scl (v : bool) (w : wires) : wires :=
  match m_scl w, v with
  | false, true =>
      let '(s, d) := on_bit (line_sda w) (sl w) (dev w) in
      mk_wires true (m_sda w) (s_sda w) s d
  | true, false => mk_wires false (m_sda w) (drive (sl w)) (sl w) (dev w)
  | _, _ => w
  end.

(** The bus with the board's parameters; nobody holds SCL low, so time does not
    matter. *)
#[export] Instance wire_ops : BitOps wires := {
  set_sda := wire_set_sda;
  set_scl := wire_set_scl;
  get_sda := line_sda;
  get_scl := Some m_scl;
  udelay _ w := w;
  delay_us := 1;
  timeout := 100;
  rt_tick_get _ := 0;
  rt_thread_delay _ w := w;
}.

(** Both lines high and nobody talking; SCL low and the slave in state [s]. *)
Definition idle (d : D) : wires := mk_wires true true true SIdle d.
Definition low (sda : bool) (s : slave) (d : D) : wires := mk_wires false sda (drive s) s d.

(** ** The byte level *)

Fixpoint write_spec (bs : list Z) (d : D) : bool * D :=
  match bs with
  | [] => (true, d)
  | b :: bs => let '(d, ok) := dev_write b d in if ok : bool then write_spec bs d else (false, d)
  end.

Fixpoint read_spec (n : nat) (d : D) : list Z * D :=
  match n with
  | O => ([], d)
  | S n => let '(v, d) := dev_read d in let '(vs, d) := read_spec n d in (v :: vs, d)
  end.

Fixpoint addr_spec (tries : nat) (a : Z) (d : D) : option D * D :=
  match dev_addr a d with
  | Some d' => (Some d', d')
  | None => match tries with O => (None, d) | S n => addr_spec n a (dev_stop d) end
  end.

(** A message, plain 7-bit: the result when it fails, the filled message, the
    device. *)
Definition msg_spec (tries : nat) (m : rt_i2c_msg) (d : D) : option Z * rt_i2c_msg * D :=
  let rd := m_flags m =? RT_I2C_RD in
  match addr_spec tries (2 * m_addr m + Z.b2z rd) d with
  | (None, d) => (Some (- RT_EIO), m, d)
  | (Some _, d) =>
      if rd then
        let '(vs, d) := read_spec (Z.to_nat (m_len m)) d in
        (None, set_buf (vs ++ drop (Z.to_nat (m_len m)) (m_buf m)) m, d)
      else
        let '(ok, d) := write_spec (take (Z.to_nat (m_len m)) (m_buf m)) d in
        ((if ok : bool then None else Some (- RT_ERROR)), m, d)
  end.

Fixpoint msgs_spec (tries : nat) (i : Z) (ms : list rt_i2c_msg) (d : D) : Z * list rt_i2c_msg * D :=
  match ms with
  | [] => (i, [], d)
  | m :: ms =>
      let '(r, m, d) := msg_spec tries m d in
      match r with
      | Some e => (e, m :: ms, d)
      | None => let '(r, ms, d) := msgs_spec tries (i + 1) ms d in (r, m :: ms, d)
      end
  end.

Definition xfer_spec (tries : nat) (ms : list rt_i2c_msg) (d : D) : Z * list rt_i2c_msg * D :=
  let '(r, ms, d) := msgs_spec tries 0 ms d in (r, ms, dev_stop d).

(** ** The bit level implements it *)

Lemma bit_of data i : 0 <= i -> negb (Z.land (Z.shiftr data i) 1 =? 0) = Z.testbit data i.
Proof.
  intros Hi. change 1 with (Z.ones 1). rewrite Z.land_ones by lia. change (2 ^ 1) with 2.
  rewrite Zmod_odd, <- (Z.bit0_odd (Z.shiftr data i)), Z.shiftr_spec by lia. rewrite Z.add_0_l.
  by destruct (Z.testbit data i).
Qed.

Lemma SCL_H_wires w : SCL_H w = Some (RT_EOK, wire_set_scl true w).
Proof.
  unfold SCL_H. cbn [get_scl set_scl wire_ops rt_tick_get wait_scl].
  assert (m_scl (wire_set_scl true w) = true) as ->; [|done].
  unfold wire_set_scl. destruct (m_scl w) eqn:E; [done|]. by destruct (on_bit _ _ _).
Qed.

(** [wire_run] executes the pin operations up to the next case distinction. *)
Ltac wire_run :=
  repeat first
    [ rewrite SCL_H_wires; cbn [mbind option_bind]
    | progress unfold i2c_delay, i2c_delay2, SDA_L, SDA_H, SCL_L
    | progress cbn [set_sda set_scl get_sda udelay wire_ops wire_set_sda wire_set_scl line_sda
        m_scl m_sda s_sda sl dev low idle andb on_bit drive Z.ltb Z.compare RT_EOK] ].

Lemma start_spec d : i2c_start (idle d) = low false (SRecv true 8 0) d.
Proof. unfold i2c_start. by wire_run. Qed.

(** Between bytes the slave leaves SDA alone. *)
Definition between (s : slave) : Prop := s = SRecv false 8 0 \/ s = SIdle.

Lemma stop_spec sda s d : between s -> i2c_stop (low sda s d) = Some (idle (dev_stop d)).
Proof. intros [-> | ->]; unfold i2c_stop; by wire_run. Qed.

Lemma restart_spec sda s d :
  between s -> i2c_restart (low sda s d) = Some (low false (SRecv true 8 0) d).
Proof. intros [-> | ->]; unfold i2c_restart; by wire_run. Qed.

(** *** Sending a byte *)

Lemma send_bit b w sda s d :
  wire_set_scl false w = low sda s d -> drive s = true ->
  SCL_H (i2c_delay (set_sda b (SCL_L w))) =
    let '(s, d) := on_bit b s d in Some (RT_EOK, mk_wires true b true s d).
Proof.
  intros Hw Hs. rewrite SCL_H_wires. unfold i2c_delay, SCL_L. cbn [set_scl set_sda udelay wire_ops].
  rewrite Hw. unfold low. cbn. rewrite Hs. unfold line_sda. cbn [m_sda s_sda]. rewrite andb_true_r.
  by destruct (on_bit b s d).
Qed.

Lemma mod_top data n :
  data mod 2 ^ Z.of_nat (S n) =
    Z.b2z (Z.testbit data (Z.of_nat n)) * 2 ^ Z.of_nat n + data mod 2 ^ Z.of_nat n.
Proof.
  rewrite Nat2Z.inj_succ, Z.testbit_spec' by lia. set (k := Z.of_nat n).
  rewrite Z.pow_succ_r by lia. assert (0 < 2 ^ k) by (apply Z.pow_pos_nonneg; lia).
  rewrite (Z.mul_comm 2), Z.rem_mul_r by lia. lia.
Qed.

Lemma writeb_loop_S n data (w : wires) :
  writeb_loop (S n) data w =
    '(ret, w) ← SCL_H (i2c_delay (set_sda (Z.testbit data (Z.of_nat n)) (SCL_L w)));
    if ret <? 0 then Some (- RT_ETIMEOUT, w) else writeb_loop n data w.
Proof. rewrite <- bit_of by lia. done. Qed.

Lemma writeb_loop_spec f data n : forall w sda acc d,
  wire_set_scl false w = low sda (SRecv f (S n) acc) d ->
  writeb_loop (S n) data w =
    let '(s, d) := received f (acc * 2 ^ Z.of_nat (S n) + data mod 2 ^ Z.of_nat (S n)) d in
    Some (RT_EOK, mk_wires true (Z.testbit data 0) true s d).
Proof.
  induction n as [|n IH]; intros w sda acc d Hw; rewrite writeb_loop_S;
    rewrite (send_bit _ w sda _ d Hw eq_refl); cbn [on_bit].
  - change (2 ^ Z.of_nat 1) with 2. change (Z.of_nat 0) with 0.
    rewrite <- Z.bit0_mod. replace (acc * 2) with (2 * acc) by lia.
    by destruct (received _ _ _).
  - cbn [mbind option_bind]. change (RT_EOK <? 0) with false. cbn match.
    rewrite (IH _ (Z.testbit data (Z.of_nat (S n))) (2 * acc + Z.b2z (Z.testbit data (Z.of_nat (S n)))) d)
      by done.
    replace (acc * 2 ^ Z.of_nat (S (S n)) + data mod 2 ^ Z.of_nat (S (S n))) with
      ((2 * acc + Z.b2z (Z.testbit data (Z.of_nat (S n)))) * 2 ^ Z.of_nat (S n) + data mod 2 ^ Z.of_nat (S n));
      [done|].
    rewrite (mod_top data (S n)), (Nat2Z.inj_succ (S n)), Z.pow_succ_r by lia. lia.
Qed.

(** What follows a received byte: the acknowledge bit and the slave's next state. *)
Definition acked (s : slave) (d : D) : Z * wires :=
  match s with
  | SAck rd => let '(s, d) := if rd then send_next d else (SRecv false 8 0, d) in (1, low true s d)
  | _ => (0, low true SIdle d)
  end.

Lemma writeb_spec f sda data d :
  byte data ->
  i2c_writeb data (low sda (SRecv f 8 0) d) =
    let '(s, d) := received f data d in Some (acked s d).
Proof.
  intros Hb. unfold i2c_writeb. rewrite (writeb_loop_spec f data 7 _ sda 0 d) by done.
  change (2 ^ Z.of_nat 8) with 256. rewrite Z.mod_small by apply Hb. rewrite Z.mul_0_l, Z.add_0_l.
  destruct (received f data d) as [s d'] eqn:E. cbn [mbind option_bind].
  change (RT_EOK <? 0) with false. cbn match. unfold i2c_waitack.
  assert ((exists rd, s = SAck rd) \/ s = SIdle) as [[rd ->]| ->].
  { unfold received in E. destruct f.
    - destruct (dev_addr data d); injection E as <- _; eauto.
    - destruct (dev_write data d) as [d1 [|]]; injection E as <- _; eauto. }
  - wire_run. unfold acked, send_next. destruct rd; [by destruct (dev_read d')|done].
  - by wire_run.
Qed.

(** *** Receiving a byte *)

(** The slave after [n] more bits of [v]. *)
Definition sending (n : nat) (v : Z) : slave := match n with O => SWait | _ => SSend n v end.

Lemma take_bit n v d :
  SCL_H (low true (SSend (S n) v) d) =
    Some (RT_EOK, mk_wires true true (Z.testbit v (Z.of_nat n)) (sending n v) d).
Proof. rewrite SCL_H_wires. by destruct n. Qed.

Lemma shift_in data (b : bool) :
  0 <= data < 128 ->
  (if b then Z.lor (u8 (Z.shiftl data 1)) 1 else u8 (Z.shiftl data 1)) = 2 * data + Z.b2z b.
Proof.
  intros Hd. rewrite Z.shiftl_mul_pow2 by lia. change (2 ^ 1) with 2. rewrite wrapu_small by lia.
  destruct b; cbn [Z.b2z]; [|lia].
  assert (Z.land (data * 2) 1 = 0) as Hl.
  { change 1 with (Z.ones 1). rewrite Z.land_ones by lia. apply Z.mod_mul. lia. }
  pose proof (Z.add_lor_land (data * 2) 1) as Ha. rewrite Hl in Ha. lia.
Qed.

Lemma readb_step n data v d :
  0 <= data < 128 ->
  readb_loop (S n) data (low true (SSend (S n) v) d) =
    readb_loop n (2 * data + Z.b2z (Z.testbit v (Z.of_nat n))) (low true (sending n v) d).
Proof.
  intros Hd. rewrite <- shift_in by done.
  transitivity ('(ret, w) ← SCL_H (low true (SSend (S n) v) d);
    if ret <? 0 then Some (- RT_ETIMEOUT, w)
    else readb_loop n (if get_sda w then Z.lor (u8 (Z.shiftl data 1)) 1 else u8 (Z.shiftl data 1))
           (i2c_delay2 (SCL_L w))); [done|].
  rewrite take_bit. reflexivity.
Qed.

Lemma readb_loop_spec v d n : forall data,
  0 <= data -> (data + 1) * 2 ^ Z.of_nat (S n) <= 2 ^ 8 ->
  readb_loop (S n) data (low true (SSend (S n) v) d) =
    Some (data * 2 ^ Z.of_nat (S n) + v mod 2 ^ Z.of_nat (S n), low true SWait d).
Proof.
  induction n as [|n IH]; intros data H0 Hd.
  - change (2 ^ Z.of_nat 1) with 2 in *. rewrite readb_step by lia. cbn [readb_loop sending].
    change (Z.of_nat 0) with 0. rewrite Z.bit0_mod. do 2 f_equal. lia.
  - rewrite (Nat2Z.inj_succ (S n)), Z.pow_succ_r in * by lia.
    assert (2 <= 2 ^ Z.of_nat (S n)) by (rewrite Nat2Z.inj_succ, Z.pow_succ_r by lia;
      pose proof (Z.pow_pos_nonneg 2 (Z.of_nat n)); lia).
    rewrite readb_step by nia. cbn [sending].
    set (b := Z.b2z (Z.testbit v (Z.of_nat (S n)))). assert (0 <= b <= 1) by (unfold b; by destruct (Z.testbit _ _)).
    rewrite IH by nia. rewrite <- Z.pow_succ_r, <- Nat2Z.inj_succ by lia.
    rewrite (mod_top v (S n)). fold b. rewrite (Nat2Z.inj_succ (S n)), Z.pow_succ_r by lia.
    do 2 f_equal. lia.
Qed.

Lemma readb_spec sda v d :
  byte v -> i2c_readb (low sda (SSend 8 v) d) = Some (v, low true SWait d).
Proof.
  intros Hv. unfold i2c_readb. change (i2c_delay (SDA_H (low sda (SSend 8 v) d))) with (low true (SSend 8 v) d).
  rewrite (readb_loop_spec v d 7) by done. change (2 ^ Z.of_nat 8) with 256.
  by rewrite Z.mod_small by apply Hv.
Qed.

Lemma ack_spec d :
  i2c_send_ack_or_nack true (low true SWait d) =
    let '(v, d) := dev_read d in Some (RT_EOK, low false (SSend 8 v) d).
Proof. unfold i2c_send_ack_or_nack. wire_run. unfold send_next. by destruct (dev_read d). Qed.

Lemma nack_spec d :
  i2c_send_ack_or_nack false (low true SWait d) = Some (RT_EOK, low true SIdle d).
Proof. unfold i2c_send_ack_or_nack. by wire_run. Qed.

(** *** Messages *)

Lemma send_spec bs : forall n bytes sda d ptr,
  take n ptr = bs -> (n <= length ptr)%nat -> Forall byte bs ->
  let '(ok, d') := write_spec bs d in
  exists sda', send_loop n false ptr bytes (low sda (SRecv false 8 0) d) =
    Some (if ok : bool then (bytes + Z.of_nat n, low sda' (SRecv false 8 0) d')
          else (0, low sda' SIdle d')).
Proof.
  induction bs as [|b bs IH]; intros n bytes sda d ptr Ht Hl Hb.
  - destruct n as [|n]; [exists sda; cbn; by rewrite Z.add_0_r|]. destruct ptr; [cbn in Hl; lia|done].
  - destruct n as [|n]; [done|]. destruct ptr as [|b' ptr]; [done|]. cbn in Ht, Hl.
    injection Ht as -> Ht. apply Forall_cons in Hb as [Hb Hbs].
    cbn [write_spec send_loop]. rewrite writeb_spec by done. unfold received.
    destruct (dev_write b d) as [d1 ok]. destruct ok; cbn [mbind option_bind acked].
    + change ((0 <? 1) || _) with true. cbn match.
      specialize (IH n (bytes + 1) true d1 ptr Ht ltac:(lia) Hbs).
      destruct (write_spec bs d1) as [ok' d']. destruct IH as (sda' & ->). exists sda'.
      destruct ok'; [|done]. do 2 f_equal. lia.
    + exists true. done.
Qed.

Lemma recv_spec n : forall bytes sda v d ptr,
  (S n <= length ptr)%nat -> byte v ->
  let '(vs, d') := read_spec n d in
  recv_loop (S n) false ptr bytes (low sda (SSend 8 v) d) =
    Some (bytes + Z.of_nat (S n), v :: vs ++ drop (S n) ptr, low true SIdle d').
Proof.
  induction n as [|n IH]; intros bytes sda v d ptr Hl Hv; (destruct ptr as [|x ptr]; [cbn in Hl; lia|]).
  - cbn [read_spec recv_loop]. rewrite readb_spec by done. cbn [mbind option_bind].
    destruct (Z.leb_spec 0 v); [|destruct Hv; lia]. cbn [negb Nat.eqb]. rewrite nack_spec. done.
  - cbn [read_spec]. remember (S n) as k. cbn [recv_loop]. rewrite readb_spec by done. cbn [mbind option_bind].
    destruct (Z.leb_spec 0 v); [|destruct Hv; lia]. subst k. cbn [negb Nat.eqb]. rewrite ack_spec.
    pose proof (dev_read_byte d) as Hr. destruct (dev_read d) as [v1 d1]. cbn [fst] in Hr.
    cbn [mbind option_bind]. change (RT_EOK <? 0) with false. cbn match.
    specialize (IH (bytes + 1) false v1 d1 ptr ltac:(cbn in Hl; lia) Hr).
    destruct (read_spec n d1) as [vs d']. rewrite IH. cbn [mbind option_bind drop app].
    do 3 f_equal. lia.
Qed.

(** The slave's state after it acknowledged an address: the first byte to send is
    fetched at once. *)
Definition addressed (rd : bool) (d : D) : wires :=
  if rd then let '(v, d) := dev_read d in low true (SSend 8 v) d
  else low true (SRecv false 8 0) d.

Lemma send_address_spec tries a : forall sda d,
  byte a ->
  i2c_send_address tries a (low sda (SRecv true 8 0) d) =
    match addr_spec tries a d with
    | (Some _, d) => Some (1, addressed (Z.odd a) d)
    | (None, d) => Some (0, low true SIdle d)
    end.
Proof.
  induction tries as [|n IH]; intros sda d Ha; cbn [i2c_send_address addr_spec];
    rewrite writeb_spec by done; unfold received; destruct (dev_addr a d) as [d'|];
    cbn [mbind option_bind acked].
  1,3: unfold addressed, send_next; destruct (Z.odd a); [destruct (dev_read d')|]; done.
  - done.
  - change (0 =? 1) with false. cbn match. rewrite stop_spec by (by right). cbn [mbind option_bind].
    change (i2c_delay2 (idle (dev_stop d))) with (idle (dev_stop d)). rewrite start_spec. by apply IH.
Qed.

(** Messages as the drivers of this board use them. *)
Record plain (m : rt_i2c_msg) : Prop := {
  pl_flags : m_flags m = RT_I2C_WR \/ m_flags m = RT_I2C_RD /\ 1 <= m_len m;
  pl_addr : 0 <= m_addr m < 128;
  pl_len : 0 <= m_len m <= zlen (m_buf m);
  pl_bytes : Forall byte (m_buf m);
}.

Lemma odd_addr a (rd : bool) : Z.odd (2 * a + Z.b2z rd) = rd.
Proof. rewrite Z.add_comm, Z.odd_add_mul_2. by destruct rd. Qed.

Lemma address_byte a (rd : bool) :
  0 <= a < 128 ->
  (if rd then Z.lor (u8 (Z.shiftl a 1)) 1 else u8 (Z.shiftl a 1)) = 2 * a + Z.b2z rd.
Proof. apply shift_in. Qed.

Lemma bit_send_address_spec tries m sda d :
  plain m ->
  i2c_bit_send_address tries m (low sda (SRecv true 8 0) d) =
    match addr_spec tries (2 * m_addr m + Z.b2z (m_flags m =? RT_I2C_RD)) d with
    | (Some _, d) => Some (RT_EOK, addressed (m_flags m =? RT_I2C_RD) d)
    | (None, d) => Some (- RT_EIO, low true SIdle d)
    end.
Proof.
  intros [Hf Ha _ _]. unfold i2c_bit_send_address, flag.
  assert (Z.land (m_flags m) RT_I2C_IGNORE_NACK = 0 /\ Z.land (m_flags m) RT_I2C_ADDR_10BIT = 0 /\
          negb (Z.land (m_flags m) RT_I2C_RD =? 0) = (m_flags m =? RT_I2C_RD)) as (-> & -> & ->)
    by (destruct Hf as [-> | [-> _]]; done).
  cbn [Z.eqb negb]. rewrite address_byte by done.
  rewrite send_address_spec by (unfold byte; destruct (m_flags m =? RT_I2C_RD); cbn [Z.b2z]; lia).
  rewrite odd_addr. by destruct (addr_spec _ _ d) as [[?|] d'].
Qed.

(** The wires when message number [i] begins. *)
Definition before_msg (i : Z) (d : D) (w : wires) : Prop :=
  exists sda, if i =? 0 then w = low sda (SRecv true 8 0) d
              else exists s, between s /\ w = low sda s d.

Lemma msg_address tries i m d w :
  plain m -> before_msg i d w ->
  (if negb (flag RT_I2C_NO_START m) then
     w ← (if negb (i =? 0) then i2c_restart w else Some w); i2c_bit_send_address tries m w
   else Some (RT_EOK, w)) =
  match addr_spec tries (2 * m_addr m + Z.b2z (m_flags m =? RT_I2C_RD)) d with
  | (Some _, d) => Some (RT_EOK, addressed (m_flags m =? RT_I2C_RD) d)
  | (None, d) => Some (- RT_EIO, low true SIdle d)
  end.
Proof.
  intros Hm (sda & Hw). assert (flag RT_I2C_NO_START m = false) as ->
    by (unfold flag; destruct Hm as [[-> | [-> _]] _ _ _]; done). cbn [negb].
  destruct (i =? 0); cbn [negb mbind option_bind].
  - subst w. by apply bit_send_address_spec.
  - destruct Hw as (s & Hs & ->). rewrite restart_spec by done. cbn [mbind option_bind].
    by apply bit_send_address_spec.
Qed.

Lemma xfer_msg_spec tries i m d w :
  plain m -> before_msg i d w ->
  let '(r, m', d') := msg_spec tries m d in
  exists ret sda s, between s /\
    xfer_msg tries i m w =
      Some (match r with Some e => e | None => ret end, bool_decide (r = None), m', low sda s d').
Proof.
  intros Hm Hw. unfold xfer_msg. rewrite (msg_address tries i m d w Hm Hw). unfold msg_spec.
  destruct Hm as [Hf Ha Hl Hb]. set (rd := m_flags m =? RT_I2C_RD).
  destruct (addr_spec tries _ d) as [[d0|] d1]; cbn [mbind option_bind].
  2: { exists 0, true, SIdle. split; [by right|]. unfold flag.
       destruct Hf as [-> | [-> _]]; done. }
  change (negb (RT_EOK =? RT_EOK) && _) with false. cbn match.
  assert (flag RT_I2C_RD m = rd /\ flag RT_I2C_NO_READ_ACK m = false /\ flag RT_I2C_IGNORE_NACK m = false)
    as (-> & Hna & Hig) by (unfold flag, rd; destruct Hf as [-> | [-> _]]; done).
  unfold zlen in Hl. destruct rd eqn:Erd.
  - assert (1 <= m_len m) as H1 by (destruct Hf as [Hf|[_ ?]]; [unfold rd in Erd; rewrite Hf in Erd|]; done).
    unfold i2c_recv_bytes, addressed. rewrite Hna. replace (Z.to_nat (m_len m)) with (S (Z.to_nat (m_len m - 1))) by lia.
    cbn [read_spec]. pose proof (dev_read_byte d1) as Hv. destruct (dev_read d1) as [v d2]. cbn [fst] in Hv.
    pose proof (recv_spec (Z.to_nat (m_len m - 1)) 0 true v d2 (m_buf m) ltac:(lia) Hv) as E.
    destruct (read_spec _ d2) as [vs d3]. rewrite E. cbn [mbind option_bind set_buf m_len].
    destruct (Z.ltb_spec (0 + Z.of_nat (S (Z.to_nat (m_len m - 1)))) (m_len m)); [lia|].
    do 3 eexists. split; [by right|]. done.
  - unfold i2c_send_bytes, addressed. rewrite Hig.
    pose proof (send_spec (take (Z.to_nat (m_len m)) (m_buf m)) (Z.to_nat (m_len m)) 0 true d1 (m_buf m)
      eq_refl ltac:(lia) (Forall_take _ _ _ Hb)) as E.
    destruct (write_spec _ d1) as [ok d2] eqn:Ew. destruct E as (sda' & ->). destruct ok; cbn [mbind option_bind].
    + destruct (Z.ltb_spec (0 + Z.of_nat (Z.to_nat (m_len m))) (m_len m)); [lia|].
      do 3 eexists. split; [by left|]. done.
    + assert (0 < m_len m) as Hpos.
      { destruct (Z.ltb_spec 0 (m_len m)); [done|]. replace (m_len m) with 0 in Ew by lia. done. }
      rewrite (proj2 (Z.ltb_lt _ _) Hpos). exists 0. do 2 eexists. split; [by right|]. done.
Qed.

Lemma xfer_loop_spec tries ms : forall i d w,
  0 <= i -> Forall plain ms -> (i = 0 -> ms <> []) -> before_msg i d w ->
  let '(r, ms', d') := msgs_spec tries i ms d in
  exists sda s, between s /\ xfer_loop tries i ms w = Some (r, ms', low sda s d').
Proof.
  induction ms as [|m ms IH]; intros i d w Hi Hp H0 Hw; cbn [msgs_spec xfer_loop].
  - destruct Hw as (sda & Hw). destruct (Z.eqb_spec i 0) as [->|_]; [by destruct H0|].
    destruct Hw as (s & Hs & ->). eauto.
  - apply Forall_cons in Hp as [Hm Hp]. pose proof (xfer_msg_spec tries i m d w Hm Hw) as E.
    destruct (msg_spec tries m d) as [[r m'] d1]. destruct E as (ret & sda & s & Hs & ->).
    cbn [mbind option_bind]. destruct r as [e|]; [rewrite bool_decide_eq_false_2 by done; eauto|].
    rewrite bool_decide_eq_true_2 by done.
    specialize (IH (i + 1) d1 (low sda s d1) ltac:(lia) Hp ltac:(lia)).
    destruct (msgs_spec tries (i + 1) ms d1) as [[r ms'] d2]. destruct IH as (sda2 & s2 & Hs2 & ->).
    { exists sda. destruct (Z.eqb_spec (i + 1) 0); [lia|]. eauto. }
    cbn [mbind option_bind]. eauto.
Qed.

Lemma xfer_refines tries ms d :
  Forall plain ms -> ms <> [] ->
  i2c_bit_xfer tries ms (idle d) = let '(r, ms', d') := xfer_spec tries ms d in Some (r, ms', idle d').
Proof.
  intros Hp Hne. unfold i2c_bit_xfer, xfer_spec. rewrite start_spec.
  pose proof (xfer_loop_spec tries ms 0 d (low false (SRecv true 8 0) d) ltac:(lia) Hp ltac:(done)) as E.
  destruct (msgs_spec tries 0 ms d) as [[r ms'] d1]. destruct E as (sda & s & Hs & ->); [by exists false|].
  cbn [mbind option_bind]. rewrite stop_spec by done. done.
Qed.

(** *** Recovering the bus *)

(** A pulse on SCL, from high or low. *)
Lemma pulse n w :
  unlock_loop (S n) w = unlock_loop n (wire_set_scl false (wire_set_scl true w)).
Proof. done. Qed.

Lemma pulses_idle n d : unlock_loop n (low true SIdle d) = low true SIdle d.
Proof. induction n as [|n IH]; [done|]. rewrite pulse. exact IH. Qed.

Lemma pulses_sending v d k : forall n,
  (k < n)%nat -> unlock_loop n (low true (sending k v) d) = low true SIdle d.
Proof.
  induction k as [|k IH]; intros [|n] Hn; try lia; rewrite pulse.
  - apply pulses_idle.
  - transitivity (unlock_loop n (low true (sending k v) d)); [by destruct k|]. apply IH. lia.
Qed.

Lemma unlock_spec k v d :
  (k <= 7)%nat ->
  stm32_i2c_bus_unlock (mk_wires true true false (sending k v) d) = (RT_EOK, low true SIdle d).
Proof.
  intros Hk. unfold stm32_i2c_bus_unlock. cbn [get_sda wire_ops line_sda m_sda s_sda andb negb].
  rewrite (pulse 8). cbn [wire_set_scl m_scl m_sda s_sda sl dev].
  fold (low true (sending k v) d). rewrite pulses_sending by lia. done.
Qed.

(** A slave that has seen no START ignores what is sent. *)
Lemma writeb_loop_idle data n : forall w sda d,
  wire_set_scl false w = low sda SIdle d ->
  exists sda', writeb_loop (S n) data w = Some (RT_EOK, mk_wires true sda' true SIdle d).
Proof.
  induction n as [|n IH]; intros w sda d Hw; rewrite writeb_loop_S;
    rewrite (send_bit _ w sda _ d Hw eq_refl); cbn [on_bit mbind option_bind]; [eauto|].
  change (RT_EOK <? 0) with false. cbn match. by eapply IH.
Qed.

Lemma writeb_idle data sda d : i2c_writeb data (low sda SIdle d) = Some (0, low true SIdle d).
Proof.
  unfold i2c_writeb. destruct (writeb_loop_idle data 7 (low sda SIdle d) sda d) as (sda' & ->); [done|].
  cbn [mbind option_bind]. change (RT_EOK <? 0) with false. cbn match. unfold i2c_waitack. by wire_run.
Qed.

Lemma send_address_idle a sda d :
  i2c_send_address 0 a (low sda SIdle d) = Some (0, low true SIdle d).
Proof. cbn [i2c_send_address]. by rewrite writeb_idle. Qed.

Lemma bit_send_address_idle m sda d :
  plain m -> i2c_bit_send_address 0 m (low sda SIdle d) = Some (- RT_EIO, low true SIdle d).
Proof.
  intros [Hf _ _ _]. unfold i2c_bit_send_address.
  assert (flag RT_I2C_IGNORE_NACK m = false /\ flag RT_I2C_ADDR_10BIT m = false) as (-> & ->)
    by (unfold flag; destruct Hf as [-> | [-> _]]; done).
  by rewrite send_address_idle.
Qed.

Lemma xfer_msg_idle m sda d :
  plain m -> xfer_msg 0 0 m (low sda SIdle d) = Some (- RT_EIO, false, m, low true SIdle d).
Proof.
  intros Hm. unfold xfer_msg.
  assert (flag RT_I2C_IGNORE_NACK m = false /\ flag RT_I2C_NO_START m = false) as (-> & ->)
    by (unfold flag; destruct Hm as [[-> | [-> _]] _ _ _]; done).
  change (negb (0 =? 0)) with false. cbn [negb mbind option_bind].
  rewrite bit_send_address_idle by done. cbn [mbind option_bind].
  by change (negb (- RT_EIO =? RT_EOK) && true) with true.
Qed.

Lemma start_low d : i2c_start (low true SIdle d) = low false SIdle d.
Proof. unfold i2c_start. by wire_run. Qed.

(** A transfer that begins while SCL is low. *)
Lemma xfer_scl_low ms m d :
  plain m ->
  i2c_bit_xfer 0 (m :: ms) (low true SIdle d) = Some (- RT_EIO, m :: ms, idle (dev_stop d)).
Proof.
  intros Hm. unfold i2c_bit_xfer. rewrite start_low. cbn [xfer_loop].
  rewrite xfer_msg_idle by done. cbn [mbind option_bind]. rewrite stop_spec by (by right). done.
Qed.

End wires.

(** ** A device with registers *)

(** As in the data sheet of the TMP117: the first byte written selects a 16-bit
    register; reading yields its bytes, the high one first. *)
Record regs := mk_regs { reg_of : Z -> Z; pointer : Z; fresh : bool; low_next : bool }.

Definition reg_byte (r : regs) : Z :=
  if low_next r then Z.land (reg_of r (pointer r)) 0xff
  else Z.land (Z.shiftr (reg_of r (pointer r)) 8) 0xff.

Lemma reg_byte_range r : byte (reg_byte r).
Proof.
  unfold reg_byte, byte. change 0xff with (Z.ones 8).
  destruct (low_next r); rewrite Z.land_ones by lia; apply Z.mod_pos_bound; lia.
Qed.

#[export] Instance regs_device : Device regs := {
  dev_addr a r := if Z.div2 a =? tmp_i2c_addr then Some (mk_regs (reg_of r) (pointer r) true false) else None;
  dev_write b r := (if fresh r then mk_regs (reg_of r) b false (low_next r) else r, true);
  dev_read r := (reg_byte r, mk_regs (reg_of r) (pointer r) (fresh r) (negb (low_next r)));
  dev_stop r := r;
  dev_read_byte := reg_byte_range;
}.

(** [rt_i2c_transfer] of a bus with these operations, for the sensor drivers. *)
Definition wire_transfer {D} `{!Device D} (msgs : list rt_i2c_msg) (w : wires) : Z * list rt_i2c_msg * wires :=
  match i2c_bit_xfer 0 msgs w with Some r => r | None => (0, msgs, w) end.

Lemma tmp117_over_wires_spec r reg junk :
  byte reg -> 0 <= reg_of r reg < 2 ^ 16 ->
  exists r', tmp117_rd_reg wire_transfer reg junk (idle r) = (0, reg_of r reg, idle r') /\
    reg_of r' = reg_of r.
Proof.
  intros Hreg Hv. set (r' := mk_regs (reg_of r) reg true false).
  exists r'. split; [|done].
  set (ms := [mk_msg tmp_i2c_addr RT_I2C_WR 1 [reg; 0]; mk_msg tmp_i2c_addr RT_I2C_RD 2 [0; 0]]).
  set (hi := Z.land (Z.shiftr (reg_of r reg) 8) 0xff). set (lo := Z.land (reg_of r reg) 0xff).
  assert (wire_transfer ms (idle r) =
    (2, [mk_msg tmp_i2c_addr RT_I2C_WR 1 [reg; 0]; mk_msg tmp_i2c_addr RT_I2C_RD 2 [hi; lo]], idle r')) as E.
  { unfold wire_transfer. rewrite xfer_refines; [reflexivity| |done].
    assert (byte 0) as H0 by (unfold byte; lia).
    constructor; [|constructor; [|constructor]]; constructor;
      cbn [m_flags m_addr m_len m_buf]; unfold tmp_i2c_addr, zlen; cbn [length]; try lia;
      (apply Forall_cons_2; [done|apply Forall_cons_2; [done|apply Forall_nil_2]]). }
  destruct (tmp117_rd_reg_spec wire_transfer reg junk (idle r) _ _ _ E) as [_ Hok].
  rewrite (Hok _ _ hi lo eq_refl eq_refl eq_refl).
  - f_equal. f_equal. unfold hi, lo. change 0xff with (Z.ones 8). rewrite !Z.land_ones, Z.shiftr_div_pow2 by lia.
    change (2 ^ 8) with 256. zlia.
  - exact (reg_byte_range r').
  - exact (reg_byte_range (mk_regs (reg_of r) reg true true)).
Qed.


(** ** Claims *)

(** C7. On a bus with one well-behaved slave, modelled as wires and a
    bit-level automaton, i2c_bit_xfer performs exactly the byte-level
    transaction the messages describe: START and address with retries, every
    byte written MSB first with its acknowledge, every byte read
    acknowledged except the last, repeated START between messages, STOP; it
    returns the number of messages or the error of the first that failed,
    with the received bytes in the buffers and the bus idle again. *)
Theorem i2c_bit_xfer_refines_device {D} `{!Device D} (tries : nat) (ms : list rt_i2c_msg) (d : D) :
  Forall plain ms -> ms <> [] ->
  i2c_bit_xfer tries ms (idle d) = let '(r, ms', d') := xfer_spec tries ms d in Some (r, ms', idle d').
Proof. apply xfer_refines. Qed.

(** A sensor whose register 0 reads 0x0c80. *)
Definition sample_regs : regs := mk_regs (fun a => if a =? 0 then 0x0c80 else 0x117) 5 false false.

Definition sample_msgs : list rt_i2c_msg :=
  [mk_msg tmp_i2c_addr RT_I2C_WR 1 [0; 0]; mk_msg tmp_i2c_addr RT_I2C_RD 2 [0; 0]].

Lemma sample_msgs_plain : Forall plain sample_msgs.
Proof.
  constructor; [|constructor; [|constructor]]; constructor;
    cbn [m_flags m_addr m_len m_buf]; unfold tmp_i2c_addr, zlen; cbn [length]; try lia;
    (apply Forall_cons_2; [|apply Forall_cons_2; [|apply Forall_nil_2]]); unfold byte; lia.
Qed.

Lemma i2c_bit_xfer_refines_device_witness :
  i2c_bit_xfer 0 sample_msgs (idle sample_regs) =
    Some (2, [mk_msg tmp_i2c_addr RT_I2C_WR 1 [0; 0]; mk_msg tmp_i2c_addr RT_I2C_RD 2 [0x0c; 0x80]],
          idle (mk_regs (reg_of sample_regs) 0 true false)).
Proof.
  rewrite (i2c_bit_xfer_refines_device 0 sample_msgs sample_regs sample_msgs_plain); [|discriminate].
  vm_compute. reflexivity.
Defined.

(** C30. Whatever the lines do, also when a slave holds SCL low for ever,
    i2c_bit_xfer returns: each wait for SCL ends at the latest when the tick
    count has passed the bus timeout, across the 32-bit wrap of the tick. *)
Theorem i2c_xfer_terminates {W} `{!BitOps W, !TickLaws W} (tries : nat) (ms : list rt_i2c_msg) (w : W) :
  buffers_ok ms -> exists r ms' w', i2c_bit_xfer tries ms w = Some (r, ms', w').
Proof. apply xfer_total. Qed.

(** A bus on which somebody holds SCL low; only time passes. *)
Definition stuck := Z.

#[local] Instance stuck_ops : BitOps stuck := {
  set_sda _ w := w;
  set_scl _ w := w;
  get_sda _ := true;
  get_scl := Some (fun _ => false);
  udelay _ w := w;
  delay_us := 1;
  timeout := 100;
  rt_tick_get w := u32 w;
  rt_thread_delay n w := w + n + 1;
}.

#[local] Instance stuck_laws : TickLaws stuck.
Proof.
  refine {| now := (fun w : stuck => w : Z); slack := 1 |}.
  - done.
  - intros n w Hn. change (rt_thread_delay n w) with (w + n + 1). lia.
  - lia.
  - change timeout with 100. lia.
Defined.

Lemma i2c_xfer_terminates_witness :
  (exists w', i2c_bit_xfer 1 sample_msgs (5 : stuck) = Some (- RT_EIO, sample_msgs, w')) /\
  exists r ms' w', i2c_bit_xfer 1 sample_msgs (5 : stuck) = Some (r, ms', w').
Proof.
  split; [eexists; vm_compute; reflexivity|].
  apply (i2c_xfer_terminates 1 sample_msgs (5 : stuck)).
  repeat constructor; unfold zlen; cbn; lia.
Defined.

(** Reading a register of the TMP117 over the bit-banged bus: tmp117_rd_reg
    on top of i2c_bit_xfer, with the sensor as a slave with a register
    pointer, returns 0 and the 16-bit value of the register selected, and
    leaves the registers unchanged. *)
Theorem tmp117_over_wires (r : regs) (reg junk : Z) :
  byte reg -> 0 <= reg_of r reg < 2 ^ 16 ->
  exists r', tmp117_rd_reg wire_transfer reg junk (idle r) = (0, reg_of r reg, idle r') /\
    reg_of r' = reg_of r.
Proof. apply tmp117_over_wires_spec. Qed.

Lemma tmp117_over_wires_witness :
  exists r', tmp117_rd_reg wire_transfer 15 0 (idle sample_regs) = (0, 0x117, idle r').
Proof.
  destruct (tmp117_over_wires sample_regs 15 0) as (r' & E & _).
  - unfold byte. lia.
  - cbn. lia.
  - exists r'. exact E.
Defined.

(** stm32_i2c_bus_unlock clocks a slave that holds SDA low in the middle of
    a byte until it releases the line and reports RT_EOK, but leaves SCL
    low, so that the START of the next transfer is not seen and that
    transfer fails with -RT_EIO at its first address byte. *)
Theorem bus_unlock_frees_slave {D} `{!Device D} (k : nat) (v : Z) (d : D) (m : rt_i2c_msg) (ms : list rt_i2c_msg) :
  (k <= 7)%nat -> plain m ->
  exists w, stm32_i2c_bus_unlock (mk_wires true true false (sending k v) d) = (RT_EOK, w) /\
    line_sda w = true /\ m_scl w = false /\
    i2c_bit_xfer 0 (m :: ms) w = Some (- RT_EIO, m :: ms, idle (dev_stop d)).
Proof.
  intros Hk Hm. exists (low true SIdle d). rewrite unlock_spec by done.
  do 3 (split; [done|]). by apply xfer_scl_low.
Qed.

Lemma bus_unlock_frees_slave_witness :
  exists w, stm32_i2c_bus_unlock (mk_wires true true false (sending 3 0x0c) sample_regs) = (RT_EOK, w) /\
    line_sda w = true /\ m_scl w = false.
Proof.
  destruct (bus_unlock_frees_slave 3 0x0c sample_regs
    (mk_msg tmp_i2c_addr RT_I2C_WR 1 [0; 0]) []) as (w & E & H1 & H2 & _).
  - lia.
  - exact (Forall_inv sample_msgs_plain).
  - exists w. exact (conj E (conj H1 H2)).
Defined.

End I2cBits.
