(* ===== verification/I2cCore.v ===== *)
(** * I2C bus devices

    [components/drivers/i2c/i2c_core.c] and [i2c_dev.c]: the bus lock around the
    transfer function of a bus driver, sending and receiving one message, and the
    device functions on top.  The lock is the kernel object [o]; [rt_i2c_transfer] is
    cut where it may wait for the lock. *)

From S2P Require Import Prelude RtList Timer KService Sched SchedInv ThreadOps Ipc Mutex ModbusCrc Sensors I2cBits.
Import RtList Timer KService Sched SchedInv ThreadOps Ipc Mutex ModbusCrc Sensors I2cBits.

Module I2cCore.

(** ** Data and operations *)

Record rt_i2c_bus_device := mk_bus { flags : Z; addr : Z; lock : rt_mutex; timeout : Z; retries : Z }.

Definition set_lock (m : rt_mutex) (b : rt_i2c_bus_device) : rt_i2c_bus_device := mk_bus (flags b) (addr b) m (timeout b) (retries b).

(** The lock and the default time-out of [rt_i2c_bus_device_register]. *)
Definition bus_setup (o : Z) (b : rt_i2c_bus_device) (k : kernel) : rt_i2c_bus_device * kernel :=
  let '(m, k) := rt_mutex_init o RT_IPC_FLAG_FIFO k in
  (mk_bus (flags b) (addr b) m (if timeout b =? 0 then RT_TICK_PER_SECOND else timeout b) (retries b), k).

(** The call that takes the lock, whose result is not looked at, its end after a
    wait, and the call that releases it. *)
Definition transfer_enter (o : Z) (b : rt_i2c_bus_device) (k : kernel) : option (rt_i2c_bus_device * kernel * ipc_result) :=
  '(m, k, r) ← rt_mutex_take o RT_WAITING_FOREVER (lock b) k;
  Some (set_lock m b, k, r).

Definition transfer_enter_resume (o t : Z) (b : rt_i2c_bus_device) (k : kernel) : option (rt_i2c_bus_device * kernel * ipc_result) :=
  '(m, k, r) ← rt_mutex_take_resume o RT_WAITING_FOREVER t (lock b) k;
  Some (set_lock m b, k, r).

Definition transfer_leave (o : Z) (b : rt_i2c_bus_device) (k : kernel) : option (rt_i2c_bus_device * kernel) :=
  '(m, k, _) ← rt_mutex_release o (lock b) k;
  Some (set_lock m b, k).

Section core.

(** The driver's [master_xfer], if it has one. *)
Context {W : Type} (master_xfer : option (list rt_i2c_msg -> W -> option (Z * list rt_i2c_msg * W))).

(** What a call leaves: the number it returns, or the thread that waits for the bus. *)
Inductive xfer_result := Returned (n : Z) | Waiting (t : Z).

Definition transfer_rest (xfer : list rt_i2c_msg -> W -> option (Z * list rt_i2c_msg * W)) (o : Z) (msgs : list rt_i2c_msg)
    (b : rt_i2c_bus_device) (k : kernel) (w : W) : option (xfer_result * list rt_i2c_msg * rt_i2c_bus_device * kernel * W) :=
  '(ret, msgs, w) ← xfer msgs w;
  '(b, k) ← transfer_leave o b k;
  Some (Returned (u32 ret), msgs, b, k, w).

Definition rt_i2c_transfer (o : Z) (msgs : list rt_i2c_msg) (b : rt_i2c_bus_device) (k : kernel) (w : W)
  : option (xfer_result * list rt_i2c_msg * rt_i2c_bus_device * kernel * W) :=
  match master_xfer with
  | Some xfer =>
      '(b, k, r) ← transfer_enter o b k;
      match r with
      | Blocked t => Some (Waiting t, msgs, b, k, w)
      | Done _ => transfer_rest xfer o msgs b k w
      end
  | None => Some (Returned 0, msgs, b, k, w)
  end.

Definition rt_i2c_transfer_resume (o t : Z) (msgs : list rt_i2c_msg) (b : rt_i2c_bus_device) (k : kernel) (w : W)
  : option (xfer_result * list rt_i2c_msg * rt_i2c_bus_device * kernel * W) :=
  xfer ← master_xfer;
  '(b, k, r) ← transfer_enter_resume o t b k;
  match r with
  | Blocked t => Some (Waiting t, msgs, b, k, w)
  | Done _ => transfer_rest xfer o msgs b k w
  end.

(** [return (ret > 0) ? count : ret], with [rt_err_t ret]. *)
Definition count_or_error (count : Z) (r : xfer_result) : xfer_result :=
  match r with
  | Returned n => let ret := i32 n in Returned (if 0 <? ret then count else u32 ret)
  | Waiting t => Waiting t
  end.

Definition send_msg (a fl : Z) (buf : list Z) (count : Z) : rt_i2c_msg :=
  mk_msg a (Z.land fl RT_I2C_ADDR_10BIT) (u16 count) buf.
Definition recv_msg (a fl : Z) (buf : list Z) (count : Z) : rt_i2c_msg :=
  mk_msg a (Z.lor (Z.land fl RT_I2C_ADDR_10BIT) RT_I2C_RD) (u16 count) buf.

Definition rt_i2c_master_send (o a fl : Z) (buf : list Z) (count : Z) (b : rt_i2c_bus_device) (k : kernel) (w : W)
  : option (xfer_result * rt_i2c_bus_device * kernel * W) :=
  '(r, _, b, k, w) ← rt_i2c_transfer o [send_msg a fl buf count] b k w;
  Some (count_or_error count r, b, k, w).

(** The filled buffer comes back as well. *)
Definition rt_i2c_master_recv (o a fl : Z) (buf : list Z) (count : Z) (b : rt_i2c_bus_device) (k : kernel) (w : W)
  : option (xfer_result * list Z * rt_i2c_bus_device * kernel * W) :=
  '(r, msgs, b, k, w) ← rt_i2c_transfer o [recv_msg a fl buf count] b k w;
  Some (count_or_error count r, match msgs with m :: _ => m_buf m | [] => buf end, b, k, w).

(** The device functions: the position holds the address and the flags. *)
Definition i2c_bus_device_read (o pos : Z) (buf : list Z) (count : Z) (b : rt_i2c_bus_device) (k : kernel) (w : W) :=
  rt_i2c_master_recv o (Z.land pos 0xffff) (Z.land (Z.shiftr pos 16) 0xffff) buf count b k w.

Definition i2c_bus_device_write (o pos : Z) (buf : list Z) (count : Z) (b : rt_i2c_bus_device) (k : kernel) (w : W) :=
  rt_i2c_master_send o (Z.land pos 0xffff) (Z.land (Z.shiftr pos 16) 0xffff) buf count b k w.

Inductive i2c_dev_cmd :=
| RT_I2C_DEV_CTRL_10BIT | RT_I2C_DEV_CTRL_ADDR (a : Z) | RT_I2C_DEV_CTRL_TIMEOUT (t : Z)
| RT_I2C_DEV_CTRL_RW (msgs : list rt_i2c_msg) | RT_I2C_DEV_CTRL_OTHER.

Definition i2c_bus_device_control (o : Z) (cmd : i2c_dev_cmd) (b : rt_i2c_bus_device) (k : kernel) (w : W)
  : option (xfer_result * rt_i2c_bus_device * kernel * W) :=
  match cmd with
  | RT_I2C_DEV_CTRL_10BIT => Some (Returned RT_EOK, mk_bus (Z.lor (flags b) RT_I2C_ADDR_10BIT) (addr b) (lock b) (timeout b) (retries b), k, w)
  | RT_I2C_DEV_CTRL_ADDR a => Some (Returned RT_EOK, mk_bus (flags b) (u16 a) (lock b) (timeout b) (retries b), k, w)
  | RT_I2C_DEV_CTRL_TIMEOUT t => Some (Returned RT_EOK, mk_bus (flags b) (addr b) (lock b) (u32 t) (retries b), k, w)
  | RT_I2C_DEV_CTRL_RW msgs =>
      '(r, _, b, k, w) ← rt_i2c_transfer o msgs b k w;
      Some (match r with Returned n => Returned (if i32 n <? 0 then - RT_EIO else RT_EOK) | Waiting t => Waiting t end, b, k, w)
  | RT_I2C_DEV_CTRL_OTHER => Some (Returned RT_EOK, b, k, w)
  end.

End core.

(** ** One transfer at a time *)

(** The threads inside the transfer function, and those that wait for the lock, over any
    sequence of steps.  Other kernel activity neither wakes these waiters nor removes
    threads. *)
Inductive bus_trace (o : Z) : list Z -> list Z -> rt_i2c_bus_device -> kernel -> Prop :=
| bt_setup b0 k0 b k : kernel_inv k0 -> lists k0 !! LSuspend o = None -> bus_setup o b0 k0 = (b, k) -> bus_trace o [] [] b k
| bt_enter ins ws b k cur cth b' k' r : bus_trace o ins ws b k -> caller k cur cth -> cur ∉ ins -> cur ∉ ws ->
    transfer_enter o b k = Some (b', k', r) ->
    bus_trace o (match r with Done _ => cur :: ins | Blocked _ => ins end) (match r with Done _ => ws | Blocked _ => cur :: ws end) b' k'
| bt_resume ins ws b k u uth b' k' r : bus_trace o ins ws b k -> caller k u uth -> u ∈ ws -> error uth = RT_EOK ->
    transfer_enter_resume o u b k = Some (b', k', r) -> bus_trace o (u :: ins) (filter (fun v => v <> u) ws) b' k'
| bt_leave ins ws b k cur cth b' k' : bus_trace o ins ws b k -> caller k cur cth -> cur ∈ ins ->
    transfer_leave o b k = Some (b', k') -> bus_trace o (filter (fun v => v <> cur) ins) ws b' k'
| bt_other ins ws b k k' : bus_trace o ins ws b k -> kernel_inv k' -> lists k' !! LSuspend o = lists k !! LSuspend o ->
    (forall u, is_Some (threads k !! u) -> is_Some (threads k' !! u)) -> bus_trace o ins ws b k'.

Record bus_inv (o : Z) (ins ws : list Z) (b : rt_i2c_bus_device) (k : kernel) : Prop := {
  bi_kernel : kernel_inv k;
  bi_mutex : mutex_inv o (lock b) k;
  bi_queued : forall xs u, lists k !! LSuspend o = Some xs -> u ∈ xs -> u ∈ ws;
  bi_waiting : forall u, u ∈ ws -> (exists xs, lists k !! LSuspend o = Some xs /\ u ∈ xs) \/ (owner (lock b) = Some u /\ ins = []);
  bi_inside : ins = [] \/ exists t, ins = [t] /\ owner (lock b) = Some t;
  bi_owner : forall t, owner (lock b) = Some t -> hold (lock b) = 1 /\ (ins = [t] \/ (ins = [] /\ t ∈ ws));
}.

Lemma enter_inv o ins ws b k cur cth :
  bus_inv o ins ws b k -> caller k cur cth -> cur ∉ ins -> cur ∉ ws ->
  exists b' k' r, transfer_enter o b k = Some (b', k', r) /\
    bus_inv o (match r with Done _ => cur :: ins | Blocked _ => ins end) (match r with Done _ => ws | Blocked _ => cur :: ws end) b' k' /\
    (owner (lock b) = None -> r = Done RT_EOK) /\ (owner (lock b) <> None -> r = Blocked cur).
Proof.
  intros [Hk Hm Hq Hw Hi Ho] Hca Hni Hnw. unfold transfer_enter.
  assert (owner (lock b) <> Some cur) as Hne.
  { intros E. destruct (Ho cur E) as [_ [->|[-> H]]]; [apply Hni; left|by apply Hnw]. }
  destruct (mutex_take_spec o (lock b) k cur cth RT_WAITING_FOREVER Hk Hm Hca) as (m' & k' & r & E & Hk' & Hm' & Hc); [done|done|].
  rewrite E. cbn [mbind option_bind]. exists (set_lock m' b), k', r. split; [done|].
  destruct Hc as [[Hc _]|[(Hn & -> & Hown & Hh & _ & Hl)|(w & Hown & Hwc & -> & [[Hz _]|(_ & -> & _ & _ & _ & _ & ys & zs & El & El' & _)])]]; [done| |done|].
  - destruct (mi_free _ _ _ Hm Hn) as (_ & _ & Hnil).
    assert (ins = []) as -> by (destruct Hi as [->|(t & _ & Ht)]; [done|congruence]).
    split; [|by split]. constructor; cbn [lock set_lock]; rewrite ?Hl; try done.
    + intros u Hu. destruct (Hw u Hu) as [(xs & Ex & Hx)|[Hx _]]; [|congruence]. rewrite Hnil in Ex. injection Ex as <-. by apply not_elem_of_nil in Hx.
    + right. by exists cur.
    + intros t Ht. rewrite Hown in Ht. injection Ht as <-. split; [done|by left].
  - split; [|split; [congruence|done]]. constructor; cbn [lock set_lock]; try done.
    + intros xs u. rewrite El'. intros [= <-] [Hu|[->|Hu]%elem_of_cons]%elem_of_app; [right|left|right];
        (eapply Hq; [exact El|]; apply elem_of_app; auto).
    + intros u [->|Hu]%elem_of_cons; [left; exists (ys ++ cur :: zs); split; [done|]; apply elem_of_app; right; left|].
      destruct (Hw u Hu) as [(xs & Ex & Hx)|Hx]; [|by right]. left. exists (ys ++ cur :: zs). split; [done|]. rewrite El in Ex. injection Ex as <-.
      apply elem_of_app in Hx as [Hx|Hx]; apply elem_of_app; [by left|right; by right].
    + intros t Ht. destruct (Ho t Ht) as [H1 [H2|[H2 H3]]]; (split; [done|]); [by left|right; split; [done|by right]].
Qed.

Lemma resume_inv o ins ws b k u uth :
  bus_inv o ins ws b k -> caller k u uth -> u ∈ ws -> error uth = RT_EOK ->
  transfer_enter_resume o u b k = Some (set_lock (lock b) b, k, Done RT_EOK) /\ ins = [] /\
  bus_inv o [u] (filter (fun v => v <> u) ws) (set_lock (lock b) b) k.
Proof.
  intros [Hk Hm Hq Hw Hi Ho] Hca Hu He. unfold transfer_enter_resume, rt_mutex_take_resume. rewrite (ca_thread _ _ _ Hca). cbn [mbind option_bind].
  rewrite He. split; [done|].
  assert (forall xs, lists k !! LSuspend o = Some xs -> u ∉ xs) as Hnl.
  { intros xs Ex Hx. destruct (waiter_suspended k (LSuspend o) xs u Hk I Ex Hx) as (th & Et & Es).
    pose proof (ca_thread _ _ _ Hca). pose proof (ca_running _ _ _ Hca). congruence. }
  destruct (Hw u Hu) as [(xs & Ex & Hx)|[Hown ->]]; [by destruct (Hnl xs Ex)|]. split; [done|].
  constructor; cbn [lock set_lock]; try done.
  - intros xs v Ex Hv. apply list_elem_of_filter. split; [intros ->; by apply (Hnl xs)|by eapply Hq].
  - intros v [Hne Hv]%list_elem_of_filter. destruct (Hw v Hv) as [H|[H _]]; [by left|congruence].
  - right. by exists u.
  - intros t Ht. assert (t = u) as -> by congruence. split; [by apply (Ho u)|by left].
Qed.

Lemma leave_inv o ins ws b k cur cth :
  bus_inv o ins ws b k -> caller k cur cth -> cur ∈ ins ->
  exists b' k', transfer_leave o b k = Some (b', k') /\ ins = [cur] /\ bus_inv o [] ws b' k' /\
    (ws = [] -> owner (lock b') = None) /\
    (forall u xs, lists k !! LSuspend o = Some (u :: xs) -> owner (lock b') = Some u /\ runnable k' u).
Proof.
  intros [Hk Hm Hq Hw Hi Ho] Hca Hin. destruct Hi as [->|(t & -> & Hown)]; [by apply not_elem_of_nil in Hin|].
  apply list_elem_of_singleton in Hin as ->. unfold transfer_leave. destruct (Ho _ Hown) as [Hh _].
  destruct (mutex_release_spec o (lock b) k t cth Hk Hm Hca) as (m' & k' & e & E & Hk' & Hm' & [[H _]|[(_ & _ & H & _)|(_ & _ & _ & _ & Hr)]]); [done|lia|].
  rewrite E. cbn [mbind option_bind]. exists (set_lock m' b), k'. split; [done|]. split; [done|]. cbn [lock set_lock].
  destruct Hr as [(Hl & Hn & _)|(u & xs & uth & s & Hl & Hou & Hh' & _ & Hl' & Hu & Hu' & Hs)].
  - destruct (mi_free _ _ _ Hm' Hn) as (_ & _ & Hl').
    assert (ws = []) as ->.
    { destruct ws as [|v ws]; [done|]. exfalso. destruct (Hw v) as [(xs & Ex & Hx)|[_ Hx]]; [left| |done].
      rewrite Hl in Ex. injection Ex as <-. by apply not_elem_of_nil in Hx. }
    split_and!; [|done|by intros u xs; rewrite Hl]. constructor; cbn [lock set_lock]; try done.
    + intros xs u. rewrite Hl'. by intros [= <-] ?%not_elem_of_nil.
    + intros u ?%not_elem_of_nil. done.
    + by left.
    + intros v. by rewrite Hn.
  - split_and!; [|intros ->; exfalso; eapply not_elem_of_nil, Hq; [exact Hl|left]|intros v ys; rewrite Hl; intros [= <- <-]; split; [done|by eexists]].
    constructor; cbn [lock set_lock]; try done.
    + intros ys v. rewrite Hl'. intros [= <-] Hv. eapply Hq; [exact Hl|by right].
    + intros v Hv. destruct (Hw v Hv) as [(ys & Ey & Hy)|[_ Hx]]; [|done]. rewrite Hl in Ey. injection Ey as <-.
      apply elem_of_cons in Hy as [->|Hy]; [by right|left; by exists xs].
    + by left.
    + intros v Hv. rewrite Hou in Hv. injection Hv as <-. split; [done|]. right. split; [done|]. eapply Hq; [exact Hl|left].
Qed.

Lemma bus_trace_inv o ins ws b k : bus_trace o ins ws b k -> bus_inv o ins ws b k.
Proof.
  induction 1 as [b0 k0 b k Hk Hn E|ins ws b k cur cth b' k' r _ IH Hca Hi Hw E|ins ws b k u uth b' k' r _ IH Hca Hu He E
    |ins ws b k cur cth b' k' _ IH Hca Hin E|ins ws b k k' _ [Hk Hm Hq Hw Hi Ho] Hk' Hl Ht].
  - injection E as <- <-. assert (lists (rt_ipc_object_init (LSuspend o) k0) !! LSuspend o = Some []) as El by apply lookup_insert_eq.
    constructor; cbn [lock]; [by apply object_init_inv| | | |by left|done].
    + constructor; [by left|by exists []|intros _; by split_and!|done].
    + intros xs u. rewrite El. by intros [= <-] ?%not_elem_of_nil.
    + intros u ?%not_elem_of_nil. done.
  - destruct (enter_inv o ins ws b k cur cth IH Hca Hi Hw) as (b2 & k2 & r2 & E2 & H & _). rewrite E2 in E. by injection E as <- <- <-.
  - destruct (resume_inv o ins ws b k u uth IH Hca Hu He) as (E2 & -> & H). rewrite E2 in E. by injection E as <- <- <-.
  - destruct (leave_inv o ins ws b k cur cth IH Hca Hin) as (b2 & k2 & E2 & -> & H & _). rewrite E2 in E. injection E as <- <-.
    by rewrite filter_cons_False by (intros []; done).
  - constructor; try done; [by eapply mutex_inv_ext|by rewrite Hl|]. intros u Hu. rewrite Hl. by apply Hw.
Qed.

(** ** A transfer on a free bus *)

Lemma take_free o m k cur cth :
  mutex_inv o m k -> caller k cur cth -> owner m = None ->
  exists m', rt_mutex_take o RT_WAITING_FOREVER m k = Some (m', upd_thread cur (set_error RT_EOK) k, Done RT_EOK).
Proof.
  intros Hm Hca Hn. unfold rt_mutex_take. rewrite (in_thread_context_caller k cur cth Hca), Hn. cbn [mbind option_bind].
  rewrite bool_decide_false by done. unfold mutex_again. cbn [threads upd_thread set_threads].
  destruct (mi_free _ _ _ Hm Hn) as (-> & _). eexists. rewrite lookup_alter_eq, (ca_thread _ _ _ Hca). done.
Qed.

Lemma transfer_free {W} (xfer : list rt_i2c_msg -> W -> option (Z * list rt_i2c_msg * W)) o msgs b k cur cth w ret msgs' w' :
  bus_inv o [] [] b k -> caller k cur cth -> xfer msgs w = Some (ret, msgs', w') ->
  exists b' k', rt_i2c_transfer (Some xfer) o msgs b k w = Some (Returned (u32 ret), msgs', b', k', w') /\
    bus_inv o [] [] b' k' /\ owner (lock b') = None.
Proof.
  intros Hi Hca Ex. pose proof Hi as [Hk Hm _ _ _ Ho].
  assert (owner (lock b) = None) as Hn.
  { destruct (owner (lock b)) as [t|] eqn:E; [|done]. destruct (Ho t eq_refl) as [_ [H|[_ H]]]; [done|by apply not_elem_of_nil in H]. }
  destruct (take_free o (lock b) k cur cth Hm Hca Hn) as (m1 & E1).
  destruct (enter_inv o [] [] b k cur cth Hi Hca) as (b1 & k1 & r & E & Hi1 & Hr & _); [apply not_elem_of_nil..|].
  specialize (Hr Hn) as ->. pose proof E as E'. unfold transfer_enter in E'. rewrite E1 in E'. cbn [mbind option_bind] in E'. injection E' as <- <-.
  destruct (leave_inv o [cur] [] (set_lock m1 b) (upd_thread cur (set_error RT_EOK) k) cur (set_error RT_EOK cth) Hi1)
    as (b2 & k2 & E2 & _ & Hi2 & Hn2 & _); [|left|].
  { destruct Hca as [H1 H2 H3 H4]. constructor; try done. cbn. by rewrite lookup_alter_eq, H2. }
  exists b2, k2. unfold rt_i2c_transfer, transfer_rest. rewrite E. cbn [mbind option_bind]. rewrite Ex. cbn [mbind option_bind].
  rewrite E2. cbn [mbind option_bind]. split_and!; [done|done|by apply Hn2].
Qed.

(** One message on the wires. *)
Lemma xfer_one {D} `{!Device D} tries m (d : D) :
  plain m ->
  let '(r, m', d') := msg_spec tries m d in
  i2c_bit_xfer tries [m] (idle d) = Some (match r with Some e => e | None => 1 end, [m'], idle (dev_stop d')) /\
  (forall e, r = Some e -> e = - RT_EIO \/ e = - RT_ERROR).
Proof.
  intros Hm. pose proof (xfer_refines tries [m] d ltac:(by constructor) ltac:(done)) as E. unfold xfer_spec in E. cbn [msgs_spec] in E.
  destruct (msg_spec tries m d) as [[r m'] d'] eqn:Es. split; [by destruct r|]. unfold msg_spec in Es.
  destruct (addr_spec _ _ _) as [[d1|] d2]; [|by injection Es as <- _ _; intros e [= <-]; left].
  destruct (m_flags m =? RT_I2C_RD); [destruct (read_spec _ _); by injection Es as <- _ _|].
  destruct (write_spec _ _) as [[] ?]; injection Es as <- _ _; [done|]. intros e [= <-]. by right.
Qed.

Lemma count_result count r :
  (forall e, r = Some e -> e = - RT_EIO \/ e = - RT_ERROR) ->
  count_or_error count (Returned (u32 (match r with Some e => e | None => 1 end))) = Returned (match r with Some e => u32 e | None => count end).
Proof. intros He. destruct r as [e|]; [|done]. by destruct (He e eq_refl) as [-> | ->]. Qed.

Lemma plain_message a f buf count :
  0 <= a < 128 -> f = RT_I2C_WR \/ f = RT_I2C_RD -> Forall byte buf -> 0 < count < 2 ^ 16 -> count <= zlen buf -> plain (mk_msg a f (u16 count) buf).
Proof.
  intros Ha Hf Hb Hc Hl. constructor; cbn [m_flags m_addr m_len m_buf]; rewrite ?wrapu_small by lia; try done; [|lia].
  destruct Hf as [-> | ->]; [by left|right; split; [done|lia]].
Qed.

(** ** Theorems *)


(** On a free bus with the bit-banged driver, rt_i2c_master_send and
    rt_i2c_master_recv of 1 to 65535 bytes perform on the wires exactly the
    transaction of one message followed by a stop, return the count, or the
    error of the transfer as an unsigned number, hand back the bytes that
    the slave sent, and leave the lock free. *)
Theorem i2c_send_and_receive {D} `{!Device D} o tries b k cur cth a fl buf count (d : D) :
  bus_trace o [] [] b k -> caller k cur cth -> 0 <= a < 128 -> Z.land fl RT_I2C_ADDR_10BIT = 0 -> Forall byte buf ->
  0 < count < 2 ^ 16 -> count <= zlen buf ->
  (let '(r, _, d') := msg_spec tries (send_msg a fl buf count) d in
   exists b' k', rt_i2c_master_send (Some (i2c_bit_xfer tries)) o a fl buf count b k (idle d) =
       Some (Returned (match r with Some e => u32 e | None => count end), b', k', idle (dev_stop d')) /\ owner (lock b') = None) /\
  (let '(r, m, d') := msg_spec tries (recv_msg a fl buf count) d in
   exists b' k', rt_i2c_master_recv (Some (i2c_bit_xfer tries)) o a fl buf count b k (idle d) =
       Some (Returned (match r with Some e => u32 e | None => count end), m_buf m, b', k', idle (dev_stop d')) /\ owner (lock b') = None).
Proof.
  intros Htr Hca Ha Hfl Hb Hc Hl. pose proof (bus_trace_inv _ _ _ _ _ Htr) as Hi.
  assert (plain (send_msg a fl buf count)) as Hps by (unfold send_msg; rewrite Hfl; apply plain_message; auto).
  assert (plain (recv_msg a fl buf count)) as Hpr by (unfold recv_msg; rewrite Hfl; apply plain_message; auto).
  unfold rt_i2c_master_send, rt_i2c_master_recv. split.
  - pose proof (xfer_one tries _ d Hps) as H. destruct (msg_spec tries (send_msg a fl buf count) d) as [[r m'] d']. destruct H as [Ex He].
    destruct (transfer_free _ o _ b k cur cth _ _ _ _ Hi Hca Ex) as (b' & k' & E & _ & Hn). exists b', k'. rewrite E. cbn [mbind option_bind].
    by rewrite count_result.
  - pose proof (xfer_one tries _ d Hpr) as H. destruct (msg_spec tries (recv_msg a fl buf count) d) as [[r m'] d']. destruct H as [Ex He].
    destruct (transfer_free _ o _ b k cur cth _ _ _ _ Hi Hca Ex) as (b' & k' & E & _ & Hn). exists b', k'. rewrite E. cbn [mbind option_bind].
    by rewrite count_result.
Qed.

(** ** A bus in the sample kernel *)

Definition bus0 : rt_i2c_bus_device := mk_bus 0 0 (mk_mutex 0 0 0 None 0 true) 0 0.
Definition sample_bus : rt_i2c_bus_device * kernel := bus_setup 7 bus0 sample.

Lemma sample_bus_trace : bus_trace 7 [] [] sample_bus.1 sample_bus.2.
Proof. apply (bt_setup 7 bus0 sample); [apply sample_inv|by vm_compute|reflexivity]. Qed.

Lemma sample_bus_caller : exists cth, caller sample_bus.2 1 cth.
Proof. apply callerb_true. by vm_compute. Qed.


(** Reading two bytes from the sensor after its register has been selected. *)
Lemma i2c_send_and_receive_witness :
  exists b' k' w', rt_i2c_master_recv (Some (i2c_bit_xfer 0)) 7 tmp_i2c_addr 0 [0; 0] 2 sample_bus.1 sample_bus.2 (idle sample_regs) =
    Some (Returned 2, [0x01; 0x17], b', k', w').
Proof.
  destruct sample_bus_caller as [cth Hca].
  assert (Forall byte [0; 0]) as Hb by (constructor; [split; lia|constructor; [split; lia|constructor]]).
  assert (2 <= zlen [0; 0]) as Hl by (by vm_compute).
  destruct (i2c_send_and_receive 7 0 sample_bus.1 sample_bus.2 1 cth tmp_i2c_addr 0 [0; 0] 2 sample_regs
    sample_bus_trace Hca ltac:(unfold tmp_i2c_addr; lia) eq_refl Hb ltac:(lia) Hl) as [_ (b' & k' & E & _)].
  exists b', k'. eexists. exact E.
Defined.

(** The length of a message has 16 bits: of 65537 bytes one is sent, and all are
    reported. *)
Example long_send_is_truncated :
  (fun r => (r.1.1.1, r.2)) <$> rt_i2c_master_send (Some (fun msgs (_ : list Z) => Some (1, msgs, m_len <$> msgs))) 7 tmp_i2c_addr 0 [] 65537
    sample_bus.1 sample_bus.2 [] = Some (Returned 65537, [1]).
Proof. by vm_compute. Qed.

(** The device control function tells the error of a transfer, the transfer function
    itself returns it as a large unsigned number. *)
Example failed_transfer_results :
  let xfer := Some (fun msgs (w : unit) => Some (- RT_EIO, msgs, w)) in
  (fun r => r.1.1.1.1) <$> rt_i2c_transfer xfer 7 [] sample_bus.1 sample_bus.2 tt = Some (Returned 4294967288) /\
  (fun r => r.1.1.1) <$> i2c_bus_device_control xfer 7 (RT_I2C_DEV_CTRL_RW []) sample_bus.1 sample_bus.2 tt = Some (Returned (- RT_EIO)).
Proof. split; by vm_compute. Qed.

End I2cCore.
