(* ===== verification/Idle.v ===== *)
(** * The idle thread

    [src/idle.c]: the thread of lowest priority that reclaims closed threads from
    the defunct list, and the table of idle hooks.  The cleanup function of a
    thread is application code and a parameter.

    One round of [rt_thread_idle_excute] ends with [rt_exit_critical], where
    another thread may run; what the idle thread does with a dynamic thread after
    that is a separate definition, [idle_free]. *)

From S2P Require Import Prelude RtList Timer KService Sched SchedInv ThreadOps.
Import RtList Timer KService Sched SchedInv ThreadOps.

Module Idle.

(** ** Hooks *)

Definition RT_IDEL_HOOK_LIST_SIZE : nat := 4.

(** [idle_hook_list]: function addresses, 0 for an empty slot. *)
Definition idle_hook_list : list Z := replicate RT_IDEL_HOOK_LIST_SIZE 0.

Fixpoint set_hook (hook : Z) (l : list Z) : option (list Z) :=
  match l with
  | [] => None
  | h :: l => if h =? 0 then Some (hook :: l) else cons h <$> set_hook hook l
  end.

Definition rt_thread_idle_sethook (hook : Z) (l : list Z) : Z * list Z :=
  match set_hook hook l with Some l => (RT_EOK, l) | None => (- RT_EFULL, l) end.

Definition RT_ENOSYS : Z := 6.

Fixpoint del_hook (hook : Z) (l : list Z) : option (list Z) :=
  match l with
  | [] => None
  | h :: l => if h =? hook then Some (0 :: l) else cons h <$> del_hook hook l
  end.

Definition rt_thread_idle_delhook (hook : Z) (l : list Z) : Z * list Z :=
  match del_hook hook l with Some l => (RT_EOK, l) | None => (- RT_ENOSYS, l) end.

(** The hooks a round of [rt_thread_idle_entry] calls, in order. *)
Definition idle_calls (l : list Z) : list Z := filter (fun h => h <> 0) l.

(** ** Reclaiming threads *)

Definition _has_defunct_thread (k : kernel) : option bool :=
  xs ← lists k !! LDefunct; Some (bool_decide (xs <> [])).

Inductive reaped := Nothing | Detached (t : Z) | Dynamic (t : Z).

(** ** Start-up, [src/components.c]

    [idle] is the address of the idle thread; [obj] and [stack_ok] say whether the
    heap has room for the main thread and its stack.  [rt_hw_board_init] and
    [rt_show_version] come before the state the definitions start from. *)

Definition rt_thread_idle_init (idle : Z) (k : kernel) : option kernel :=
  k ← rt_thread_init idle (RT_THREAD_PRIORITY_MAX - 1) 32 k;
  '(k, _) ← rt_thread_startup idle k; Some k.

Definition RT_MAIN_THREAD_PRIORITY : Z := 10.

Definition rt_application_init (obj : option Z) (stack_ok : bool) (k : kernel) : option kernel :=
  '(k, tid) ← rt_thread_create obj stack_ok RT_MAIN_THREAD_PRIORITY 20 k;
  tid ← tid; (* RT_ASSERT *)
  '(k, _) ← rt_thread_startup tid k; Some k.

Definition rtthread_startup (obj : option Z) (stack_ok : bool) (idle : Z) (k : kernel) : option kernel :=
  let k := set_tsys (rt_system_timer_init (rt_tick (tsys k))) k in
  let k := rt_system_scheduler_init k in
  k ← rt_application_init obj stack_ok k;
  k ← rt_thread_idle_init idle k;
  rt_system_scheduler_start k.

Section idle.

Context (cleanup : Z -> kernel -> option kernel).

(** One round, up to and including [rt_exit_critical]. *)
Definition idle_reap (k : kernel) : option (kernel * reaped) :=
  xs ← lists k !! LDefunct;
  match xs with
  | [] => Some (k, Nothing)
  | t :: _ =>
      let k := tlist_remove t k in
      let k := rt_enter_critical k in
      th ← threads k !! t;
      k ← (if has_cleanup th then cleanup t k else Some k);
      if is_static th then
        let k := set_objects (filter (fun u => u <> t) (thread_objects k)) k in
        k ← rt_exit_critical k; Some (k, Detached t)
      else k ← rt_exit_critical k; Some (k, Dynamic t)
  end.

(** The stack and the object go back to the heap. *)
Definition idle_free (t : Z) (k : kernel) : option kernel :=
  th ← threads k !! t;
  _ ← RT_ASSERT (negb (is_static th));
  Some (set_objects (filter (fun u => u <> t) (thread_objects k))
          (set_threads (delete t (threads k)) k)).

(** [rt_thread_idle_excute] when no other thread runs in between; the threads
    whose memory was freed. *)
Fixpoint rt_thread_idle_excute (fuel : nat) (k : kernel) : option (kernel * list Z) :=
  '(k, r) ← idle_reap k;
  match r with
  | Nothing | Detached _ => Some (k, [])
  | Dynamic t =>
      k ← idle_free t k;
      match fuel with
      | O => None
      | S fuel => '(k, ts) ← rt_thread_idle_excute fuel k; Some (k, t :: ts)
      end
  end.

(** ** The invariant *)

(** What application code in a cleanup function may rely on and must keep. *)
Class CleanupLaws := {
  cleanup_ok t k : kernel_inv k -> exists k', cleanup t k = Some k' /\ kernel_inv k' /\
    threads k' = threads k /\ lists k' = lists k /\ rt_current_thread k' = rt_current_thread k /\
    rt_scheduler_lock_nest k' = rt_scheduler_lock_nest k /\
    rt_thread_ready_priority_group k' = rt_thread_ready_priority_group k;
}.

Context `{Hlaws : !CleanupLaws}.

Lemma unlink_closed k t xs :
  kernel_inv k -> lists k !! LDefunct = Some xs -> t ∈ xs ->
  exists th, threads k !! t = Some th /\ stat th = RT_THREAD_CLOSE /\
    kernel_inv (tlist_remove t k) /\ absent t (lists (tlist_remove t k)).
Proof.
  intros [Hl Hp Hc Hti] Hx Hin. destruct (li_stat _ _ Hl _ _ _ Hx Hin) as (th & Ht & Hs). cbn in Hs.
  exists th. split; [done|]. split; [done|].
  assert (link_inv (Some t) (tlist_remove t k)) as Hl' by (eapply link_unlink; [done|done|congruence]).
  split; [|by apply (li_exempt _ _ Hl')]. constructor.
  - eapply link_unexempt; [exact Hl'|]. intros th' E. cbn in E. congruence.
  - done.
  - by eapply cur_ext; [..|exact Hc].
  - by eapply timer_inv_ext; [..|exact Hti]; simpl; eauto.
Qed.

(** Forgetting a closed thread that is linked nowhere. *)
Lemma forget_inv k t th :
  kernel_inv k -> threads k !! t = Some th -> stat th = RT_THREAD_CLOSE -> absent t (lists k) ->
  rt_current_thread k <> Some t -> kernel_inv (set_threads (delete t (threads k)) k).
Proof.
  intros [Hl Hp Hc Hti] Ht Hs Ha Hcur. constructor.
  - destruct Hl. constructor; simpl; try done.
    + intros h xs u Hh Hin. destruct (li_stat0 h xs u Hh Hin) as (thu & Hu & ?). exists thu.
      split; [|done]. rewrite lookup_delete_ne; [done|]. intros ->. by apply (Ha h xs).
    + intros u thu. rewrite lookup_delete_Some. intros [_ Hu] Hr _. by eapply li_ready0.
  - intros u thu. cbn. rewrite lookup_delete_Some. intros [_ Hu]. by eapply Hp.
  - destruct Hc as [Hr Hcu]. constructor; simpl.
    + intros u thu. rewrite lookup_delete_Some. intros [_ Hu]. by eapply Hr.
    + intros u Hu. destruct (Hcu u Hu) as (thu & E & ?). exists thu. split; [|done].
      rewrite lookup_delete_ne; [done|congruence].
  - eapply timer_inv_ext; [..|exact Hti]; simpl; try done.
    + intros u thu. rewrite lookup_delete_Some. intros [_ Hu]. eauto.
    + intros u thu Hu Hsu _. exists thu. split; [|done]. rewrite lookup_delete_ne; [done|congruence].
Qed.

(** Any round keeps the kernel well formed. *)
Lemma reap_inv k :
  kernel_inv k -> is_Some (rt_current_thread k) ->
  exists k' r, idle_reap k = Some (k', r) /\ kernel_inv k'.
Proof.
  intros Hk Hcur. unfold idle_reap. destruct (li_defunct _ _ (kv_link _ Hk)) as [xs Hx]. rewrite Hx.
  cbn [mbind option_bind]. destruct xs as [|t xs]; [eauto|].
  destruct (unlink_closed k t _ Hk Hx) as (th & Ht & _ & Hk1 & _); [by left|].
  change (threads (rt_enter_critical (tlist_remove t k))) with (threads k). rewrite Ht. cbn [mbind option_bind].
  pose proof (set_lock_nest_inv _ (i16 (rt_scheduler_lock_nest (tlist_remove t k) + 1)) Hk1) as Hk2.
  fold (rt_enter_critical (tlist_remove t k)) in Hk2.
  assert (exists k3, (if has_cleanup th then cleanup t (rt_enter_critical (tlist_remove t k))
     else Some (rt_enter_critical (tlist_remove t k))) = Some k3 /\ kernel_inv k3 /\
     rt_current_thread k3 = rt_current_thread k) as (k3 & -> & Hk3 & Hc3).
  { destruct (has_cleanup th); [|by eexists].
    destruct (cleanup_ok t _ Hk2) as (k3 & -> & Hk3 & _ & _ & Hc & _). by exists k3. }
  cbn [mbind option_bind]. destruct (is_static th).
  - destruct (exit_critical_inv (set_objects (filter (fun u => u <> t) (thread_objects k3)) k3)) as (k4 & -> & ?);
      [by apply set_objects_inv|by rewrite <- Hc3 in Hcur|]. cbn [mbind option_bind]. eauto.
  - destruct (exit_critical_inv k3 Hk3) as (k4 & -> & ?); [by rewrite Hc3|]. cbn [mbind option_bind]. eauto.
Qed.

(** *** Nothing else is ready *)

Record quiet (k : kernel) : Prop := {
  qu_nest : rt_scheduler_lock_nest k = 0;
  qu_group : rt_thread_ready_priority_group k = 0;
  qu_running : exists c th, rt_current_thread k = Some c /\ threads k !! c = Some th /\ stat th = RT_THREAD_RUNNING;
}.

Lemma exit_critical_quiet k :
  rt_scheduler_lock_nest k = 1 -> rt_thread_ready_priority_group k = 0 ->
  rt_exit_critical k = Some (set_lock_nest 0 (set_lock_nest 0 k)).
Proof.
  intros Hn Hg. unfold rt_exit_critical. rewrite Hn. change (i16 (1 - 1)) with 0.
  cbn [rt_scheduler_lock_nest set_lock_nest Z.leb Z.compare]. unfold rt_schedule.
  cbn [rt_scheduler_lock_nest set_lock_nest rt_thread_ready_priority_group]. rewrite Hg. done.
Qed.

(** A round then only takes the first thread off the list. *)
Lemma reap_quiet k t xs :
  kernel_inv k -> quiet k -> lists k !! LDefunct = Some (t :: xs) ->
  exists k' th, threads k !! t = Some th /\ stat th = RT_THREAD_CLOSE /\
    idle_reap k = Some (k', if is_static th then Detached t else Dynamic t) /\
    kernel_inv k' /\ quiet k' /\ threads k' = threads k /\ lists k' = lremove t (lists k) /\
    rt_current_thread k' = rt_current_thread k.
Proof.
  intros Hk [Hn Hg (c & thc & Hcur & Hthc & Hrun)] Hx.
  destruct (unlink_closed k t _ Hk Hx) as (th & Ht & Hs & Hk1 & _); [by left|].
  unfold idle_reap. rewrite Hx. cbn [mbind option_bind].
  change (threads (rt_enter_critical (tlist_remove t k))) with (threads k). rewrite Ht. cbn [mbind option_bind].
  set (k2 := rt_enter_critical (tlist_remove t k)).
  assert (kernel_inv k2) as Hk2 by (by apply set_lock_nest_inv).
  assert (rt_scheduler_lock_nest k2 = 1) as Hn2 by (unfold k2; cbn; by rewrite Hn).
  assert (exists k3, (if has_cleanup th then cleanup t k2 else Some k2) = Some k3 /\ kernel_inv k3 /\
    threads k3 = threads k /\ lists k3 = lremove t (lists k) /\ rt_current_thread k3 = rt_current_thread k /\
    rt_scheduler_lock_nest k3 = 1 /\ rt_thread_ready_priority_group k3 = 0)
    as (k3 & -> & Hk3 & H1 & H2 & H3 & H4 & H5).
  { destruct (has_cleanup th); [|exists k2; by split_and!].
    destruct (cleanup_ok t _ Hk2) as (k3 & E & Hk3 & E1 & E2 & E3 & E4 & E5). exists k3.
    split; [done|]. split; [done|]. by rewrite E1, E2, E3, E4, E5. }
  cbn [mbind option_bind].
  set (k4 := if is_static th then set_objects (filter (fun u => u <> t) (thread_objects k3)) k3 else k3).
  exists (set_lock_nest 0 (set_lock_nest 0 k4)), th. split; [done|]. split; [done|].
  assert (kernel_inv k4 /\ threads k4 = threads k /\ lists k4 = lremove t (lists k) /\
    rt_current_thread k4 = rt_current_thread k /\ rt_scheduler_lock_nest k4 = 1 /\
    rt_thread_ready_priority_group k4 = 0) as (Hk4 & J1 & J2 & J3 & J4 & J5).
  { unfold k4. destruct (is_static th); [|done]. by split_and!; [apply set_objects_inv|..]. }
  split; [unfold k4 in *; destruct (is_static th); by rewrite exit_critical_quiet|].
  split; [by do 2 apply set_lock_nest_inv|]. split; [|done].
  constructor; cbn; [done|done|]. exists c, thc. by rewrite J3, J1.
Qed.

Lemma free_quiet k t th :
  kernel_inv k -> quiet k -> threads k !! t = Some th -> stat th = RT_THREAD_CLOSE ->
  is_static th = false -> absent t (lists k) ->
  exists k', idle_free t k = Some k' /\ kernel_inv k' /\ quiet k' /\
    threads k' = delete t (threads k) /\ lists k' = lists k.
Proof.
  intros Hk [Hn Hg (c & thc & Hcur & Hthc & Hrun)] Ht Hs Hd Ha. unfold idle_free. rewrite Ht.
  cbn [mbind option_bind]. rewrite Hd. cbn [negb RT_ASSERT mbind option_bind].
  assert (c <> t) as Hne by congruence.
  eexists. split; [done|]. split; [apply set_objects_inv; eapply forget_inv; eauto; congruence|].
  split; [|done]. constructor; cbn; [done|done|]. exists c, thc. by rewrite lookup_delete_ne by congruence.
Qed.

(** The dynamic threads at the front of the list, and what is left when the first
    static one has been detached as well. *)
Fixpoint reclaimed (k : kernel) (xs : list Z) : list Z * list Z :=
  match xs with
  | [] => ([], [])
  | t :: xs =>
      if thread_in k t is_static then ([], xs)
      else let '(ds, rest) := reclaimed k xs in (t :: ds, rest)
  end.

Lemma reclaimed_ext k k' xs :
  (forall t, t ∈ xs -> threads k' !! t = threads k !! t) -> reclaimed k' xs = reclaimed k xs.
Proof.
  induction xs as [|t xs IH]; intros H; cbn [reclaimed]; [done|]. unfold thread_in.
  rewrite (H t) by (by left). rewrite IH; [done|]. intros u Hu. apply H. by right.
Qed.

Lemma remove_head t (xs : list Z) : NoDup (t :: xs) -> filter (fun u => u <> t) (t :: xs) = xs.
Proof.
  intros [Hn _]%NoDup_cons. rewrite filter_cons_False by (intros H; by apply H).
  by apply filter_absent.
Qed.

Lemma idle_excute_spec xs : forall fuel k,
  (length xs <= fuel)%nat -> kernel_inv k -> quiet k -> lists k !! LDefunct = Some xs ->
  let '(ds, rest) := reclaimed k xs in
  exists k', rt_thread_idle_excute fuel k = Some (k', ds) /\ kernel_inv k' /\ quiet k' /\
    lists k' !! LDefunct = Some rest /\ (forall t, t ∈ ds -> threads k' !! t = None) /\
    (forall t, t ∉ ds -> threads k' !! t = threads k !! t).
Proof.
  induction xs as [|t xs IH]; intros fuel k Hf Hk Hq Hx; cbn [reclaimed].
  - exists k. split; [|split_and!; try done; intros t H; by apply elem_of_nil in H].
    destruct fuel; cbn [rt_thread_idle_excute]; unfold idle_reap; rewrite Hx; done.
  - destruct (reap_quiet k t xs Hk Hq Hx) as (k1 & th & Ht & Hs & E1 & Hk1 & Hq1 & T1 & L1 & C1).
    assert (lists k1 !! LDefunct = Some xs) as Hx1.
    { rewrite L1, lookup_lremove, Hx. cbn [fmap option_fmap option_map]. f_equal. apply remove_head.
      by apply (proj1 (li_unique _ _ (kv_link _ Hk)) _ _ Hx). }
    unfold thread_in at 1. rewrite Ht. destruct (is_static th) eqn:Est.
    + exists k1. split; [destruct fuel; cbn [rt_thread_idle_excute]; rewrite E1; done|].
      split_and!; try done; [intros u H; by apply elem_of_nil in H|]. intros u _. by rewrite T1.
    + destruct (free_quiet k1 t th Hk1 Hq1) as (k2 & E2 & Hk2 & Hq2 & T2 & L2);
        [by rewrite T1|done|done|rewrite L1; apply absent_lremove|].
      destruct fuel as [|fuel]; [cbn in Hf; lia|].
      assert (t ∉ xs) as Hnt.
      { pose proof (proj1 (li_unique _ _ (kv_link _ Hk)) _ _ Hx) as Hnd. by apply NoDup_cons in Hnd as [? _]. }
      assert (reclaimed k2 xs = reclaimed k xs) as Er.
      { apply reclaimed_ext. intros u Hu. rewrite T2, lookup_delete_ne, T1 by (intros ->; done). done. }
      specialize (IH fuel k2 ltac:(cbn in Hf; lia) Hk2 Hq2 ltac:(by rewrite L2)). rewrite Er in IH.
      destruct (reclaimed k xs) as [ds rest] eqn:Ers. destruct IH as (k3 & E3 & Hk3 & Hq3 & L3 & D3 & O3).
      exists k3. cbn [rt_thread_idle_excute]. rewrite E1. cbn [mbind option_bind]. rewrite E2.
      cbn [mbind option_bind]. rewrite E3. cbn [mbind option_bind]. split_and!; try done.
      * intros u [->|Hu]%elem_of_cons; [|by apply D3].
        destruct (decide (t ∈ ds)); [by apply D3|]. by rewrite O3, T2, lookup_delete_eq.
      * intros u Hu. apply not_elem_of_cons in Hu as [Hne Hu]. by rewrite O3, T2, lookup_delete_ne, T1 by congruence.
Qed.

End idle.

(** ** Start-up *)

(** Starting a thread before the scheduler runs only makes it ready. *)
Lemma startup_early k t th :
  kernel_inv k -> rt_current_thread k = None -> threads k !! t = Some th -> stat th = RT_THREAD_INIT ->
  exists k' th', rt_thread_startup t k = Some (k', RT_EOK) /\ kernel_inv k' /\
    rt_current_thread k' = None /\ threads k' = <[t := th']> (threads k) /\
    stat th' = RT_THREAD_READY /\ current_priority th' = init_priority th.
Proof.
  intros Hk Hcur Ht Hs. destruct (startup_resumes k t th Hk Ht Hs) as (k2 & Hk2 & Et & Ec & _ & _ & ->).
  unfold rt_thread_self. rewrite Ec, Hcur. exists k2, (set_stat RT_THREAD_READY (set_priority (init_priority th) th)).
  split_and!; done || congruence.
Qed.

Lemma scheduler_start_threads k k' :
  rt_system_scheduler_start k = Some k' ->
  exists t, rt_current_thread k' = Some t /\
    threads k' = alter (set_stat RT_THREAD_RUNNING) t (threads k).
Proof.
  unfold rt_system_scheduler_start. intros E.
  destruct (_get_highest_priority_thread k) as [[t p]|]; [|done]. cbn [mbind option_bind] in E.
  unfold rt_schedule_remove_thread in E. cbn in E.
  destruct (threads k !! t) as [th|]; [|done]. cbn [mbind option_bind] in E.
  destruct ((_ <$> lists k) !! LReady _); [|done]. cbn [mbind option_bind] in E.
  exists t. destruct (bool_decide _); injection E as <-; done.
Qed.

(** Initialising and starting a thread before the scheduler runs. *)
Lemma launch_early k t p tick static :
  kernel_inv k -> rt_current_thread k = None -> fresh t k -> 0 <= p < RT_THREAD_PRIORITY_MAX ->
  exists k1 k2 th, _rt_thread_init t p tick static k = Some k1 /\ rt_thread_startup t k1 = Some (k2, RT_EOK) /\
    kernel_inv k2 /\ rt_current_thread k2 = None /\ threads k2 = <[t := th]> (threads k) /\
    stat th = RT_THREAD_READY /\ current_priority th = p.
Proof.
  intros Hk Hcur Hf Hp.
  destruct (thread_init_inv k t p tick static Hk Hf Hp) as (k1 & th1 & E1 & Hk1 & T1 & Hs1 & Hp1 & L1 & C1).
  destruct (startup_early k1 t th1 Hk1) as (k2 & th2 & E2 & Hk2 & C2 & T2 & Hs2 & Hp2);
    [by rewrite C1|by rewrite T1, lookup_insert_eq|done|].
  exists k1, k2, th2. split_and!; try done; [|congruence]. by rewrite T2, T1, insert_insert_eq.
Qed.

(** A thread that the kernel does not know is linked nowhere. *)
Lemma unknown_fresh k t : kernel_inv k -> rt_current_thread k = None -> threads k !! t = None -> fresh t k.
Proof.
  intros Hk Hcur Ht. split; [|split; [congruence|intros th; congruence]].
  intros h xs Hh Hin. destruct (li_stat _ _ (kv_link _ Hk) _ _ _ Hh Hin) as (th & ? & _). congruence.
Qed.

Lemma startup_spec k main idle :
  no_threads k -> main <> idle ->
  exists k' thm thi, rtthread_startup (Some main) true idle k = Some k' /\ kernel_inv k' /\
    rt_current_thread k' = Some main /\ threads k' = <[idle := thi]> {[main := thm]} /\
    stat thm = RT_THREAD_RUNNING /\ current_priority thm = RT_MAIN_THREAD_PRIORITY /\
    stat thi = RT_THREAD_READY /\ current_priority thi = RT_THREAD_PRIORITY_MAX - 1.
Proof.
  intros Hn Hne. unfold rtthread_startup, rt_application_init, rt_thread_create, rt_thread_idle_init, rt_thread_init.
  pose proof (init_inv k (rt_tick (tsys k)) Hn) as Hk. set (k0 := rt_system_scheduler_init _) in *.
  assert (threads k0 = ∅ /\ rt_current_thread k0 = None) as [T0 C0] by (destruct Hn; done).
  destruct (launch_early (set_objects (main :: thread_objects k0) k0) main RT_MAIN_THREAD_PRIORITY 20 false)
    as (k1 & k2 & thm & E1 & E2 & Hk2 & C2 & T2 & Sm & Pm);
    [by apply set_objects_inv|done|apply unknown_fresh; [by apply set_objects_inv|done|by cbn [threads set_objects]; rewrite T0]|done|].
  rewrite E1. cbn [mbind option_bind]. rewrite E2. cbn [mbind option_bind].
  assert (threads k2 = {[main := thm]}) as T2' by (rewrite T2; cbn [threads set_objects]; by rewrite T0).
  destruct (launch_early (set_objects (idle :: thread_objects k2) k2) idle (RT_THREAD_PRIORITY_MAX - 1) 32 true)
    as (k3 & k4 & thi & E3 & E4 & Hk4 & C4 & T4 & Si & Pi);
    [by apply set_objects_inv|done|apply unknown_fresh;
       [by apply set_objects_inv|done|by cbn [threads set_objects]; rewrite T2', lookup_singleton_ne]|done|].
  rewrite E3. cbn [mbind option_bind]. rewrite E4. cbn [mbind option_bind].
  cbn [threads set_objects] in T4. rewrite T2' in T4.
  assert (threads k4 !! main = Some thm) as Hm by (rewrite T4, lookup_insert_ne, lookup_singleton_eq; done).
  destruct (scheduler_start_inv k4 Hk4 C4) as (k5 & t & th & E5 & Hk5 & C5 & Ht & Hs & Hbest).
  { destruct (li_ready _ _ (kv_link _ Hk4) main thm Hm Sm) as (xs & Hx & Hin); [done|]. intros E.
    apply (li_group _ _ (kv_link _ Hk4)) in Hx. rewrite E, Z.bits_0 in Hx.
    assert (xs <> []) as Hxs by (intros ->; by apply not_elem_of_nil in Hin). by apply Hx in Hxs. }
  destruct (scheduler_start_threads k4 k5 E5) as (t' & C5' & T5).
  assert (t' = t) as -> by congruence.
  assert (t = main) as ->.
  { rewrite T5, lookup_alter_eq, T4 in Ht. destruct (decide (t = main)) as [|Htm]; [done|].
    destruct (decide (t = idle)) as [->|Hti].
    - rewrite lookup_insert_eq in Ht. injection Ht as <-. specialize (Hbest main thm Hm Sm).
      cbn [current_priority set_stat] in Hbest. rewrite Pm, Pi in Hbest. by compute in Hbest.
    - by rewrite lookup_insert_ne, lookup_singleton_ne in Ht. }
  exists k5, (set_stat RT_THREAD_RUNNING thm), thi. split_and!; try done.
  rewrite T5, T4. apply map_eq. intros u. destruct (decide (u = main)) as [->|Hum].
  - by rewrite lookup_alter_eq, !lookup_insert_ne, !lookup_singleton_eq.
  - rewrite lookup_alter_ne by done. destruct (decide (u = idle)) as [->|Hui].
    + by rewrite !lookup_insert_eq.
    + by rewrite !lookup_insert_ne, !lookup_singleton_ne.
Qed.

(** ** Hooks *)

Lemma set_hook_spec hook l l' :
  hook <> 0 -> set_hook hook l = Some l' ->
  exists l1 l2, Forall (fun h => h <> 0) l1 /\ l = l1 ++ 0 :: l2 /\ l' = l1 ++ hook :: l2.
Proof.
  intros Hh. revert l'. induction l as [|h l IH]; intros l'; cbn [set_hook]; [done|].
  destruct (Z.eqb_spec h 0) as [->|Hne].
  - intros [= <-]. exists [], l. done.
  - destruct (set_hook hook l) as [l0|]; [|done]. intros [= <-].
    destruct (IH l0 eq_refl) as (l1 & l2 & H1 & -> & ->). exists (h :: l1), l2. split; [by constructor|done].
Qed.

Lemma set_hook_full hook l : set_hook hook l = None -> Forall (fun h => h <> 0) l.
Proof.
  induction l as [|h l IH]; cbn [set_hook]; [constructor|].
  destruct (Z.eqb_spec h 0) as [->|Hne]; [done|].
  destruct (set_hook hook l); [done|]. intros _. constructor; [done|by apply IH].
Qed.

Lemma del_hook_app hook l1 l2 : hook ∉ l1 -> del_hook hook (l1 ++ hook :: l2) = Some (l1 ++ 0 :: l2).
Proof.
  induction l1 as [|h l1 IH]; cbn [del_hook app]; [by rewrite Z.eqb_refl|].
  intros [Hne Hn]%not_elem_of_cons. destruct (Z.eqb_spec h hook); [congruence|]. by rewrite IH.
Qed.

Lemma calls_app l1 l2 : idle_calls (l1 ++ l2) = idle_calls l1 ++ idle_calls l2.
Proof. apply filter_app. Qed.

Lemma calls_all l : Forall (fun h => h <> 0) l -> idle_calls l = l.
Proof.
  induction 1 as [|h l Hh _ IH]; [done|]. unfold idle_calls in *. by rewrite filter_cons_True, IH.
Qed.

(** ** Theorems *)

(** rtthread_startup from any state without threads sets up the scheduler
    and the timers, creates the main and the idle thread and starts
    scheduling: it does not fault, the kernel is well formed, the main
    thread runs with its configured priority and the idle thread is ready
    with the lowest one. *)
Theorem startup_runs_main k main idle :
  no_threads k -> main <> idle ->
  exists k' thm thi, rtthread_startup (Some main) true idle k = Some k' /\ kernel_inv k' /\
    rt_current_thread k' = Some main /\ threads k' = <[idle := thi]> {[main := thm]} /\
    stat thm = RT_THREAD_RUNNING /\ current_priority thm = RT_MAIN_THREAD_PRIORITY /\
    stat thi = RT_THREAD_READY /\ current_priority thi = RT_THREAD_PRIORITY_MAX - 1.
Proof. apply startup_spec. Qed.


(** rt_thread_idle_sethook puts a new hook into the first empty slot, so
    that the idle loop calls it after the hooks in front of it, or reports
    -RT_EFULL without a change; rt_thread_idle_delhook then restores the
    list. *)
Theorem idle_hooks hook l :
  hook <> 0 -> hook ∉ l ->
  match rt_thread_idle_sethook hook l with
  | (r, l') =>
      (r = RT_EOK /\ length l' = length l /\
       (exists l1 l2, l' = l1 ++ hook :: l2 /\ idle_calls l = l1 ++ idle_calls l2 /\
          idle_calls l' = l1 ++ hook :: idle_calls l2) /\
       rt_thread_idle_delhook hook l' = (RT_EOK, l)) \/
      (r = - RT_EFULL /\ l' = l /\ idle_calls l = l)
  end.
Proof.
  intros Hh Hn. unfold rt_thread_idle_sethook. destruct (set_hook hook l) as [l'|] eqn:E.
  - left. destruct (set_hook_spec hook l l' Hh E) as (l1 & l2 & H1 & -> & ->).
    rewrite !length_app. split; [done|]. split; [done|]. split.
    + exists l1, l2. rewrite !calls_app, (calls_all l1) by done. split; [done|]. split; [done|].
      unfold idle_calls. by rewrite filter_cons_True.
    + unfold rt_thread_idle_delhook. rewrite del_hook_app; [done|].
      intros H. apply Hn, elem_of_app. by left.
  - right. split; [done|]. split; [done|]. by eapply calls_all, set_hook_full.
Qed.

(** *** Witnesses *)

(** The state before [rtthread_startup] runs. *)
Definition power_on : kernel :=
  mk_kernel ∅ {[ LSuspend 7 := [] ]} 0 0 0 None 0 [] (rt_system_timer_init 5).

Lemma power_on_ok : no_threads power_on.
Proof.
  constructor; [done|done|..|done]. intros h xs. cbn. rewrite lookup_singleton_Some. by intros [_ <-].
Qed.

Lemma startup_runs_main_witness :
  exists k', rtthread_startup (Some 1) true 2 power_on = Some k' /\ rt_current_thread k' = Some 1.
Proof.
  destruct (startup_runs_main power_on 1 2 power_on_ok) as (k' & _ & _ & E & _ & H & _); [done|].
  exists k'. split; [exact E|exact H].
Defined.

#[export] Instance no_cleanup : CleanupLaws (fun _ k => Some k).
Proof. constructor. intros t k Hk. by exists k. Qed.

(** The main thread has returned and the idle thread runs. *)
Definition main_returned : option kernel :=
  k ← rtthread_startup (Some 1) true 2 power_on; rt_thread_exit k.

Lemma main_returned_ok :
  exists k, main_returned = Some k /\ kernel_inv k /\ quiet k /\ lists k !! LDefunct = Some [1] /\
    reclaimed k [1] = ([1], []).
Proof.
  destruct (startup_spec power_on 1 2 power_on_ok) as (k1 & thm & thi & E1 & Hk1 & C1 & T1 & _); [done|].
  destruct (thread_exit_inv k1 1 thm Hk1 C1) as (_ & k & _ & _ & _ & E & Hk);
    [by rewrite T1, lookup_insert_ne, lookup_singleton_eq|].
  assert (main_returned = Some k) as Em by (unfold main_returned; rewrite E1; exact E).
  exists k. split; [done|]. split; [done|].
  assert (option_map (fun k => (rt_scheduler_lock_nest k, rt_thread_ready_priority_group k, rt_current_thread k,
      stat <$> threads k !! 2, lists k !! LDefunct, reclaimed k [1])) main_returned =
    Some (0, 0, Some 2, Some RT_THREAD_RUNNING, Some [1], ([1], []))) as Ev by (by vm_compute).
  rewrite Em in Ev. injection Ev as H1 H2 H3 H4 H5 H6. split_and!; try done.
  destruct (threads k !! 2) as [th|] eqn:E2; [|done]. injection H4 as H4.
  constructor; [done|done|]. by exists 2, th.
Qed.


Lemma idle_hooks_witness :
  rt_thread_idle_sethook 0x8001 idle_hook_list = (RT_EOK, [0x8001; 0; 0; 0]) /\
  rt_thread_idle_delhook 0x8001 [0x8001; 0; 0; 0] = (RT_EOK, idle_hook_list).
Proof.
  pose proof (idle_hooks 0x8001 [0; 0; 0; 0]) as H. cbn [rt_thread_idle_sethook set_hook Z.eqb] in H.
  destruct H as [(_ & _ & _ & H)|(H & _)]; [done|set_solver|by split|done].
Defined.

End Idle.
