(* ===== verification/App.v ===== *)
(** * The application's main thread

    [bsp/stm32/stm32f051_tmp_wl/applications/main.c]: the main thread creates the
    addressing and the Modbus thread, starts the watchdog, and then refreshes it
    between two blinks of the LED.  The bodies of the two threads are in [AutoAddr]
    and [ModbusSlave]. *)

From S2P Require Import Prelude RtList Timer KService Sched SchedInv ThreadOps Ipc Idle.
Import RtList Timer KService Sched SchedInv ThreadOps Ipc Idle.

Module App.

(** ** main *)

Definition PIN_LOW : Z := 0.
Definition PIN_HIGH : Z := 1.

(** [rt_thread_create] and, if it succeeds, [rt_thread_startup]; [obj] and [stack] are
    what the heap grants. *)
Definition create_and_start (obj : option Z) (stack : bool) (priority tick : Z) (k : kernel) : option kernel :=
  '(k, t) ← rt_thread_create obj stack priority tick k;
  match t with
  | Some t => '(k, _) ← rt_thread_startup t k; Some k
  | None => Some k
  end.

Definition main_start (addr_obj slave_obj : option Z) (addr_stack slave_stack : bool) (k : kernel) : option kernel :=
  k ← create_and_start addr_obj addr_stack 11 5 k;
  create_and_start slave_obj slave_stack 15 10 k.

(** [MX_IWDG_Init]: prescaler and reload value of the watchdog. *)
Definition iwdg_prescaler : Z := 64.
Definition iwdg_reload : Z := 3200.

(** [led_blink]: the levels of the LED pin and how long each is kept. *)
Definition led_blink (addr_fsm period : Z) : list (Z * Z) :=
  if addr_fsm =? 0 then [(PIN_HIGH, Z.shiftr period 1); (PIN_LOW, Z.shiftr period 1)]
  else if 2 <? addr_fsm then [(PIN_HIGH, period - Z.shiftr period 7); (PIN_LOW, Z.shiftr period 7)]
  else [(PIN_HIGH, period - Z.shiftr period 2); (PIN_LOW, Z.shiftr period 2)].

Definition blink_period : Z := 2000.

(** The part of a pass of the main loop that ends with its [n]-th delay. *)
Definition main_delay (addr_fsm : Z) (n : nat) (k : kernel) : option kernel :=
  '(_, ms) ← led_blink addr_fsm blink_period !! n;
  rt_thread_mdelay ms k.

(** The first statement of [autoaddr_thread_entry]. *)
Definition autoaddr_first_delay (k : kernel) : option kernel := rt_thread_delay 200 k.

(** ** Scheduling lemmas *)

(** Which threads wait for the processor, and how urgent they are. *)
Definition ready_at (k : kernel) (t p : Z) : Prop :=
  exists th, threads k !! t = Some th /\ stat th = RT_THREAD_READY /\ current_priority th = p.
Definition running_at (k : kernel) (t p : Z) : Prop :=
  rt_current_thread k = Some t /\ exists th, threads k !! t = Some th /\ stat th = RT_THREAD_RUNNING /\ current_priority th = p.

(** A running thread that is more urgent than every ready one keeps the processor. *)
Lemma schedule_stays k cur p :
  kernel_inv k -> running_at k cur p -> (forall u q, ready_at k u q -> p < q) ->
  exists k', rt_schedule k = Some k' /\ kernel_inv k' /\ running_at k' cur p /\
    (forall u q, ready_at k' u q <-> ready_at k u q) /\ (forall u, u <> cur -> threads k' !! u = threads k !! u) /\
    rt_scheduler_lock_nest k' = rt_scheduler_lock_nest k /\ rt_interrupt_nest k' = rt_interrupt_nest k.
Proof.
  intros Hk [Hc (th & Ht & Hs & Hp)] Hmin. destruct (decide (rt_scheduler_lock_nest k = 0)) as [Hz|Hz].
  2: { exists k. unfold rt_schedule. rewrite (proj2 (Z.eqb_neq _ _) Hz). split_and!; try done. by split; [|exists th]. }
  destruct (schedule_cases k cur th Hk Hz Hc Ht) as [(_ & E)|(to & tth & xs & Hto & Hr & _ & _ & [(_ & _ & E & Hk')|(_ & Hle & _)])].
  - exists k. split_and!; try done. by split; [|exists th].
  - eexists. split; [exact E|]. split; [done|]. split_and!; [| | |done|done].
    + split; [done|]. exists (set_stat RT_THREAD_RUNNING th). cbn. by rewrite lookup_alter_eq, Ht.
    + intros u q. unfold ready_at. cbn. destruct (decide (u = cur)) as [->|Hne]; [|by rewrite lookup_alter_ne by done].
      rewrite lookup_alter_eq, Ht. split; intros (th' & [= <-] & Hs' & _); cbn in Hs'; congruence.
    + intros u Hne. cbn. by rewrite lookup_alter_ne by done.
  - specialize (Hle Hs). assert (p < current_priority tth) by (apply (Hmin to); by exists tth). lia.
Qed.

(** A suspended thread gives the processor to the most urgent ready one. *)
Lemma schedule_yields k cur th t p :
  kernel_inv k -> rt_scheduler_lock_nest k = 0 -> rt_current_thread k = Some cur -> threads k !! cur = Some th -> stat th = RT_THREAD_SUSPEND ->
  ready_at k t p -> (forall u q, u <> t -> ready_at k u q -> p < q) ->
  exists k', rt_schedule k = Some k' /\ kernel_inv k' /\ running_at k' t p /\ (forall u, u <> t -> threads k' !! u = threads k !! u) /\
    rt_scheduler_lock_nest k' = 0 /\ rt_interrupt_nest k' = rt_interrupt_nest k /\ tsys k' = tsys k.
Proof.
  intros Hk Hz Hc Ht Hs (rth & Hrt & Hrs & Hrp) Hmin.
  destruct (li_ready _ _ (kv_link _ Hk) t rth Hrt Hrs) as (ys & Ey & Hin); [done|].
  destruct (schedule_cases k cur th Hk Hz Hc Ht) as [(Hg & _)|(to & tth & xs & Hto & Hr & Hl & Hlow & [(Hrun & _)|(Hne & _ & E & Hk')])]; [|congruence|].
  { exfalso. apply (li_group _ _ (kv_link _ Hk)) in Ey. rewrite Hg, Z.bits_0 in Ey.
    assert (ys <> []) as Hys by (intros ->; by apply not_elem_of_nil in Hin). by apply Ey in Hys. }
  destruct (kv_prio _ Hk _ _ Hrt) as (Hp32 & _).
  assert (to = t) as ->.
  { destruct (decide (to = t)) as [|Hto']; [done|]. exfalso.
    assert (p < current_priority tth) by (apply (Hmin to); [done|by exists tth]).
    rewrite (Hlow (current_priority rth) ys) in Hin by (lia || done). by apply not_elem_of_nil in Hin. }
  assert (tth = rth) as -> by congruence.
  assert (bool_decide (stat th = RT_THREAD_RUNNING) = false) as Hb by (apply bool_decide_eq_false_2; congruence).
  eexists. split; [exact E|]. split; [done|]. unfold switched. rewrite Hb. split_and!; try done.
  - split; [done|]. exists (set_stat RT_THREAD_RUNNING rth). cbn. by rewrite lookup_alter_eq, Hrt.
  - intros u Hu. cbn. by rewrite lookup_alter_ne by done.
Qed.

(** The running thread sleeps and the most urgent ready thread takes over. *)
Lemma delay_yields k cur pc t p tick :
  kernel_inv k -> rt_scheduler_lock_nest k = 0 -> running_at k cur pc -> ready_at k t p -> (forall u q, u <> t -> ready_at k u q -> p < q) ->
  0 <= tick < HALF ->
  exists k', rt_thread_sleep tick k = Some k' /\ kernel_inv k' /\ running_at k' t p /\
    (exists th, threads k' !! cur = Some th /\ stat th = RT_THREAD_SUSPEND) /\ due_of (tsys k') (ThreadTimer cur) = tick /\
    ThreadTimer cur ∈ rt_timer_list (tsys k') /\ (forall u, u <> t -> u <> cur -> threads k' !! u = threads k !! u) /\
    rt_scheduler_lock_nest k' = 0 /\ rt_interrupt_nest k' = rt_interrupt_nest k.
Proof.
  intros Hk Hz [Hc (th & Ht & Hs & Hp)] Hr Hmin Htick.
  destruct (sleep_suspends k cur th tick Hk Hc Ht Hs Htick) as (k1 & Hk1 & Et & Ec & El & En & _ & Hin & Hd & E).
  assert (threads k1 !! cur = Some (set_stat RT_THREAD_SUSPEND th)) as Ht1 by (by rewrite Et, lookup_alter_eq, Ht).
  assert (forall u q, ready_at k1 u q <-> ready_at k u q) as Hra.
  { intros u q. unfold ready_at. rewrite Et. destruct (decide (u = cur)) as [->|Hne]; [|by rewrite lookup_alter_ne by done].
    rewrite lookup_alter_eq, Ht. split; intros (th' & [= <-] & Hs' & _); cbn in Hs'; congruence. }
  assert (t <> cur) as Htc by (intros ->; destruct Hr as (? & ? & ? & _); congruence).
  destruct (schedule_yields k1 cur (set_stat RT_THREAD_SUSPEND th) t p Hk1) as (k' & E2 & Hk' & Hrun & Ho & Hz' & Hn' & Hts'); try done; [by rewrite El|by apply Hra|..].
  { intros u q Hne Hu. apply (Hmin u); [done|]. by apply Hra. }
  exists k'. rewrite Hts', E. split_and!; try done.
  - exists (set_stat RT_THREAD_SUSPEND th). by rewrite Ho.
  - intros u H1 H2. by rewrite Ho, Et, lookup_alter_ne.
  - congruence.
Qed.

(** ** Creating the threads *)

Lemma unknown_thread_fresh k t : kernel_inv k -> threads k !! t = None -> fresh t k.
Proof.
  intros Hk Ht. split; [|split; [|intros th; congruence]].
  - intros h xs Hh Hin. destruct (li_stat _ _ (kv_link _ Hk) _ _ _ Hh Hin) as (th & ? & _). congruence.
  - intros Hc. destruct (ci_current _ (kv_cur _ Hk) _ Hc) as (th & ? & _). congruence.
Qed.

Lemma thread_init_nests t p tick static k k1 :
  _rt_thread_init t p tick static k = Some k1 ->
  rt_scheduler_lock_nest k1 = rt_scheduler_lock_nest k /\ rt_interrupt_nest k1 = rt_interrupt_nest k.
Proof.
  unfold _rt_thread_init, RT_ASSERT. destruct (p <? _); cbn [mbind option_bind]; [|discriminate].
  destruct (bool_decide _); cbn [mbind option_bind]; [|discriminate]. by intros [= <-].
Qed.

Lemma create_spec k main p t q tick :
  kernel_inv k -> running_at k main p -> (forall u r, ready_at k u r -> p < r) -> threads k !! t = None -> p < q < 32 ->
  exists k', create_and_start (Some t) true q tick k = Some k' /\ kernel_inv k' /\ running_at k' main p /\
    (forall u r, ready_at k' u r <-> (u = t /\ r = q) \/ ready_at k u r) /\
    (forall u, u <> t -> u <> main -> threads k' !! u = threads k !! u) /\
    rt_scheduler_lock_nest k' = rt_scheduler_lock_nest k /\ rt_interrupt_nest k' = rt_interrupt_nest k.
Proof.
  intros Hk [Hc (mth & Hm & Hms & Hmp)] Hmin Ht Hq. unfold create_and_start, rt_thread_create. set (k0 := set_objects _ k).
  assert (kernel_inv k0) as Hk0 by (by apply set_objects_inv).
  assert (0 <= p) by (rewrite <- Hmp; apply (kv_prio _ Hk _ _ Hm)).
  destruct (thread_init_inv k0 t q tick false Hk0 (unknown_thread_fresh k0 t Hk0 Ht)) as (k1 & th1 & E1 & Hk1 & T1 & Hs1 & Hp1 & _ & C1);
    [unfold RT_THREAD_PRIORITY_MAX; lia|].
  destruct (thread_init_nests _ _ _ _ _ _ E1) as [Z1 N1].
  destruct (startup_resumes k1 t th1 Hk1) as (k2 & Hk2 & T2 & C2 & Z2 & N2 & E2); [by rewrite T1, lookup_insert_eq|done|].
  set (th2 := set_stat RT_THREAD_READY _) in T2. rewrite T1, insert_insert_eq in T2. change (threads k0) with (threads k) in T2.
  assert (t <> main) as Htm by congruence.
  assert (running_at k2 main p) as Hr2.
  { split; [by rewrite C2, C1|]. exists mth. by rewrite T2, lookup_insert_ne. }
  assert (forall u r, ready_at k2 u r <-> (u = t /\ r = q) \/ ready_at k u r) as Hra.
  { intros u r. unfold ready_at. rewrite T2, lookup_insert. case_decide as Hu.
    - subst u. split; [intros (th & [= <-] & _ & <-); left; split; [done|exact Hp1]|].
      intros [[_ ->]|(th & Hth & _)]; [|congruence]. exists th2. split_and!; [done|done|exact Hp1].
    - split; [by right|]. intros [[-> _]|Hx]; [done|exact Hx]. }
  destruct (schedule_stays k2 main p Hk2 Hr2) as (k' & E3 & Hk' & Hr' & Hra' & Ho & Z3 & N3).
  { intros u r Hu. apply Hra in Hu as [[-> ->]|Hu]; [lia|by eapply Hmin]. }
  assert (rt_thread_self k2 = Some main) as Hself by (unfold rt_thread_self; by rewrite C2, C1).
  rewrite E1. cbn [mbind option_bind]. rewrite E2, Hself, E3. cbn [mbind option_bind].
  exists k'. split_and!; try done.
  - intros u r. by rewrite Hra', Hra.
  - intros u H1 H2. by rewrite Ho, T2, lookup_insert_ne by done.
  - by rewrite Z3, Z2, Z1.
  - by rewrite N3, N2, N1.
Qed.

(** ** Theorems *)

Lemma led_delays addr_fsm :
  exists on off, led_blink addr_fsm blink_period = [(PIN_HIGH, on); (PIN_LOW, off)] /\ on + off = 2000 /\
    15 <= on <= 1985 /\ 15 <= off <= 1985.
Proof.
  unfold led_blink. repeat case_bool; (do 2 eexists; split; [reflexivity|]); vm_compute; intuition congruence.
Qed.

Lemma small_ticks ms : 0 <= ms <= 2147482 -> rt_tick_from_millisecond ms = Some ms.
Proof.
  intros H. rewrite rt_tick_from_millisecond_range by lia. by rewrite (proj2 (Z.ltb_ge ms 0)), (proj2 (Z.leb_le ms _)) by lia.
Qed.

(** C33. From a kernel in which the main thread runs, main creates the
    addressing thread at priority 11 and the Modbus thread at priority 15
    and keeps the processor, as it is more urgent than both; its first
    delay, until the LED changes, gives the processor to the addressing
    thread and arms its timer for exactly that time; the first delay of the
    addressing thread, of 200 ticks, gives it to the Modbus thread. *)
Theorem application_starts k main a s addr_fsm :
  kernel_inv k -> rt_scheduler_lock_nest k = 0 -> running_at k main RT_MAIN_THREAD_PRIORITY -> (forall u q, ready_at k u q -> 15 < q) ->
  threads k !! a = None -> threads k !! s = None -> a <> s ->
  exists on k1 k2 k3, led_blink addr_fsm blink_period !! 0%nat = Some (PIN_HIGH, on) /\
    main_start (Some a) (Some s) true true k = Some k1 /\ running_at k1 main RT_MAIN_THREAD_PRIORITY /\ ready_at k1 a 11 /\ ready_at k1 s 15 /\
    main_delay addr_fsm 0 k1 = Some k2 /\ running_at k2 a 11 /\ due_of (tsys k2) (ThreadTimer main) = on /\
    autoaddr_first_delay k2 = Some k3 /\ running_at k3 s 15 /\ due_of (tsys k3) (ThreadTimer a) = 200 /\ kernel_inv k3.
Proof.
  intros Hk Hz Hr Hmin Ha Hs Has. destruct (led_delays addr_fsm) as (on & off & El & _ & Hon & _).
  assert (a <> main /\ s <> main) as [Ham Hsm] by (destruct Hr as [_ (th & ? & _)]; split; congruence).
  destruct (create_spec k main RT_MAIN_THREAD_PRIORITY a 11 5 Hk Hr) as (k0 & E0 & Hk0 & Hr0 & Hra0 & Ho0 & Z0 & _); [|done|by vm_compute|].
  { intros u q Hu. specialize (Hmin u q Hu). unfold RT_MAIN_THREAD_PRIORITY. lia. }
  destruct (create_spec k0 main RT_MAIN_THREAD_PRIORITY s 15 10 Hk0 Hr0) as (k1 & E1 & Hk1 & Hr1 & Hra1 & Ho1 & Z1 & _); [|by rewrite Ho0|by vm_compute|].
  { intros u q [[_ ->]|Hu]%Hra0; [by vm_compute|]. specialize (Hmin u q Hu). unfold RT_MAIN_THREAD_PRIORITY. lia. }
  assert (ready_at k1 a 11) as Hra by (apply Hra1; right; apply Hra0; by left).
  assert (ready_at k1 s 15) as Hrs by (apply Hra1; by left).
  destruct (delay_yields k1 main RT_MAIN_THREAD_PRIORITY a 11 on Hk1) as (k2 & E2 & Hk2 & Hr2 & (mth & Hm2 & Hms2) & Hd2 & _ & Ho2 & Z2 & _);
    [by rewrite Z1, Z0|done|done| |change HALF with 2147483647; lia|].
  { intros u q Hne [[_ ->]|[[Hu _]|Hu]%Hra0]%Hra1; [lia|done|]. specialize (Hmin u q Hu). lia. }
  assert (ready_at k2 s 15) as Hrs2 by (unfold ready_at; by rewrite Ho2).
  destruct (delay_yields k2 a 11 s 15 200 Hk2 Z2 Hr2 Hrs2) as (k3 & E3 & Hk3 & Hr3 & _ & Hd3 & _); [|change HALF with 2147483647; lia|].
  { intros u q Hne Hu. destruct (decide (u = a)) as [->|Hua].
    { destruct Hr2 as [_ (th & Ht & Hrun & _)], Hu as (th' & Ht' & Hs' & _). congruence. }
    destruct (decide (u = main)) as [->|Hum]; [destruct Hu as (th' & Ht' & Hs' & _); congruence|].
    unfold ready_at in Hu. rewrite Ho2 in Hu by done. assert (ready_at k1 u q) as Hu1 by exact Hu.
    apply Hra1 in Hu1 as [[Hx _]|[[Hx _]|Hu1]%Hra0]; [done|done|]. by apply (Hmin u). }
  exists on, k1, k2, k3. split_and!; try done.
  - by rewrite El.
  - unfold main_start. rewrite E0. cbn [mbind option_bind]. exact E1.
  - unfold main_delay. rewrite El. cbn [lookup list_lookup mbind option_bind]. unfold rt_thread_mdelay. rewrite small_ticks by lia.
    cbn [mbind option_bind]. by rewrite wrapu_small by lia.
Qed.

(** The kernel after start-up, with the main thread 1 and the idle thread 2. *)
Definition booted : kernel := default power_on (rtthread_startup (Some 1) true 2 power_on).

Definition ready_listed (k : kernel) : list (Z * Z) :=
  (fun x => (x.1, current_priority x.2)) <$> filter (fun x => stat x.2 = RT_THREAD_READY) (map_to_list (threads k)).

Lemma ready_listed_spec k u q : ready_at k u q -> (u, q) ∈ ready_listed k.
Proof.
  intros (th & Ht & Hs & <-). unfold ready_listed. apply list_elem_of_fmap. exists (u, th). split; [done|].
  apply list_elem_of_filter. split; [done|]. by apply elem_of_map_to_list.
Qed.

Lemma booted_ok :
  kernel_inv booted /\ rt_scheduler_lock_nest booted = 0 /\ running_at booted 1 RT_MAIN_THREAD_PRIORITY /\
  (forall u q, ready_at booted u q -> 15 < q) /\ threads booted !! 3 = None /\ threads booted !! 4 = None.
Proof.
  destruct (startup_spec power_on 1 2 power_on_ok) as (k & thm & thi & E & Hk & Hc & Ht & Hs & Hp & _); [done|].
  assert (booted = k) as Eb by (unfold booted; by rewrite E).
  split; [by rewrite Eb|]. split; [by vm_compute|]. split.
  { rewrite Eb. split; [done|]. exists thm. rewrite Ht, lookup_insert_ne, lookup_singleton_eq by done. done. }
  split; [|by vm_compute]. intros u q Hu%ready_listed_spec. assert (ready_listed booted = [(2, 31)]) as Er by (by vm_compute).
  rewrite Er in Hu. apply list_elem_of_singleton in Hu. injection Hu as -> ->. lia.
Qed.

Lemma application_starts_witness :
  exists k1 k2 k3, main_start (Some 3) (Some 4) true true booted = Some k1 /\ main_delay 0 0 k1 = Some k2 /\
    autoaddr_first_delay k2 = Some k3 /\ running_at k3 4 15.
Proof.
  destruct booted_ok as (Hk & Hz & Hr & Hm & Ha & Hs).
  destruct (application_starts booted 1 3 4 0 Hk Hz Hr Hm Ha Hs ltac:(done)) as (on & k1 & k2 & k3 & _ & E1 & _ & _ & _ & E2 & _ & _ & E3 & Hr3 & _).
  exists k1, k2, k3. exact (conj E1 (conj E2 (conj E3 Hr3))).
Defined.

(** Whatever the addressing state, the two delays between two refreshes of
    the watchdog are positive and take, at every frequency of the watchdog
    clock from 30 to 50 kHz, less than half of the time after which the
    watchdog resets the board. *)
Theorem watchdog_margin addr_fsm f :
  30000 <= f <= 50000 ->
  exists on off, led_blink addr_fsm blink_period = [(PIN_HIGH, on); (PIN_LOW, off)] /\
    rt_tick_from_millisecond on = Some on /\ rt_tick_from_millisecond off = Some off /\ 0 < on /\ 0 < off /\
    2 * ((on + off) * f) < RT_TICK_PER_SECOND * iwdg_prescaler * iwdg_reload.
Proof.
  intros Hf. destruct (led_delays addr_fsm) as (on & off & El & Hsum & Hon & Hoff). exists on, off. rewrite !small_ticks by lia.
  split_and!; [done|done|done|lia|lia|]. rewrite Hsum. unfold RT_TICK_PER_SECOND, iwdg_prescaler, iwdg_reload. lia.
Qed.

Lemma watchdog_margin_witness : exists on off, led_blink 1 blink_period = [(PIN_HIGH, on); (PIN_LOW, off)] /\ 0 < on.
Proof. destruct (watchdog_margin 1 40000 ltac:(lia)) as (on & off & E & _ & _ & H & _). exists on, off. exact (conj E H). Defined.

(** Without memory for them, the threads are silently left out. *)
Example no_memory_no_threads : main_start None None false false booted = Some booted.
Proof. reflexivity. Qed.

End App.
