(* ===== verification/Completion.v ===== *)
(** * Completions

    [components/drivers/src/completion.c]: a flag that one thread waits for and an
    interrupt handler or another thread sets.  [rt_completion_wait] is cut at its
    call to [rt_schedule], as the calls of [ipc.c] are. *)

From S2P Require Import Prelude RtList Timer KService Sched SchedInv ThreadOps Ipc Clock.
Import RtList Timer KService Sched SchedInv ThreadOps Ipc Clock.

Module Completion.

(** ** Data and operations *)

Definition RT_COMPLETED : Z := 1.
Definition RT_UNCOMPLETED : Z := 0.

(** The list of the waiting thread is [LSuspend o]. *)
Record rt_completion := mk_completion { flag : Z }.

Definition rt_completion_init (o : Z) (k : kernel) : rt_completion * kernel :=
  (mk_completion RT_UNCOMPLETED, rt_ipc_object_init (LSuspend o) k).

Definition rt_completion_wait (o timeout : Z) (c : rt_completion) (k : kernel)
  : option (rt_completion * kernel * ipc_result) :=
  if negb (flag c =? RT_COMPLETED) then
    xs ← lists k !! LSuspend o;
    _ ← RT_ASSERT (bool_decide (xs = []));
    if timeout =? 0 then Some (c, k, Done (- RT_ETIMEOUT))
    else
      t ← in_thread_context k;
      let k := upd_thread t (set_error RT_EOK) k in
      k ← wait_on (LSuspend o) t RT_IPC_FLAG_FIFO timeout k;
      k ← rt_schedule k;
      Some (c, k, Blocked t)
  else Some (mk_completion RT_UNCOMPLETED, k, Done RT_EOK).

(** After the switch back. *)
Definition rt_completion_wait_resume (t : Z) (c : rt_completion) (k : kernel)
  : option (rt_completion * kernel * ipc_result) :=
  th ← threads k !! t;
  Some (mk_completion RT_UNCOMPLETED, k, Done (error th)).

Definition rt_completion_done (o : Z) (c : rt_completion) (k : kernel) : option (rt_completion * kernel) :=
  if flag c =? RT_COMPLETED then Some (c, k) else
  k ← wake_first (LSuspend o) k;
  Some (mk_completion RT_COMPLETED, k).

(** ** Invariant *)

(** At most one thread waits, and none while the flag is set. *)
Record completion_inv (o : Z) (c : rt_completion) (k : kernel) : Prop := {
  cp_flag : flag c = RT_COMPLETED \/ flag c = RT_UNCOMPLETED;
  cp_list : exists xs, lists k !! LSuspend o = Some xs /\ (length xs <= 1)%nat /\
              (flag c = RT_COMPLETED -> xs = []);
}.

#[export] Program Instance completion_object : IpcObject rt_completion := {| ipc_inv := completion_inv |}.
Next Obligation.
  intros o c k k' [Hv _] [Hf (xs & E & H)]. constructor; [done|]. exists xs. by rewrite Hv by (by left).
Qed.
Next Obligation.
  intros o c k k' t [Hv _] [Hf (xs & E & Hl & Hc)]. constructor; [done|].
  exists (filter (fun u => u <> t) xs). rewrite Hv, E by (by left). split; [done|]. split.
  - pose proof (length_filter (fun u => u <> t) xs). lia.
  - intros H. by rewrite Hc.
Qed.

Lemma completion_nobody o c k :
  flag c = RT_COMPLETED \/ flag c = RT_UNCOMPLETED -> lists k !! LSuspend o = Some [] -> completion_inv o c k.
Proof. intros Hf E. constructor; [done|]. exists []. split; [done|]. split; [cbn; lia|done]. Qed.

Lemma completion_init_inv o k :
  kernel_inv k -> lists k !! LSuspend o = None ->
  kernel_inv (rt_completion_init o k).2 /\ completion_inv o (rt_completion_init o k).1 (rt_completion_init o k).2.
Proof.
  intros Hk Hn. split; [by apply object_init_inv|]. apply completion_nobody; [by right|apply lookup_insert_eq].
Qed.

(** ** Lemmas *)

Lemma caller_reset k t th : caller k t th -> caller (upd_thread t (set_error RT_EOK) k) t (set_error RT_EOK th).
Proof. intros []. constructor; try done. cbn. by rewrite lookup_alter_eq, ca_thread0. Qed.

Lemma wait_spec o timeout c k cur cth :
  kernel_inv k -> completion_inv o c k -> caller k cur cth -> lists k !! LSuspend o = Some [] -> timeout < HALF ->
  exists c' k' r, rt_completion_wait o timeout c k = Some (c', k', r) /\ kernel_inv k' /\ completion_inv o c' k' /\
    flag c' = RT_UNCOMPLETED /\
    ((flag c = RT_COMPLETED /\ r = Done RT_EOK /\ k' = k) \/
     (flag c = RT_UNCOMPLETED /\ timeout = 0 /\ r = Done (- RT_ETIMEOUT) /\ k' = k) \/
     (flag c = RT_UNCOMPLETED /\ timeout <> 0 /\ r = Blocked cur /\ lists k' !! LSuspend o = Some [cur] /\
      threads k' !! cur = Some (set_stat RT_THREAD_SUSPEND (set_error RT_EOK cth)) /\
      (if 0 <? timeout then due_of (tsys k') (ThreadTimer cur) = timeout
       else ThreadTimer cur ∉ rt_timer_list (tsys k')))).
Proof.
  intros Hk [Hf (xs & Hx & Hlen & Hcx)] Hca He Htm. unfold rt_completion_wait. destruct Hf as [Hf|Hf]; rewrite Hf.
  - change (negb (RT_COMPLETED =? RT_COMPLETED)) with false. cbn match. do 3 eexists. split; [done|]. split; [done|].
    split; [apply completion_nobody; [by right|done]|]. split; [done|]. left. done.
  - change (negb (RT_UNCOMPLETED =? RT_COMPLETED)) with true. cbn match. rewrite He. cbn [mbind option_bind].
    rewrite bool_decide_eq_true_2 by done. cbn [RT_ASSERT mbind option_bind].
    destruct (Z.eqb_spec timeout 0) as [->|Hnz].
    { do 3 eexists. split; [done|]. split; [done|]. split; [apply completion_nobody; [by right|done]|].
      split; [done|]. right; left. by split_and!. }
    rewrite (in_thread_context_caller k cur cth Hca). cbn [mbind option_bind].
    destruct (block_spec (upd_thread cur (set_error RT_EOK) k) (LSuspend o) cur (set_error RT_EOK cth)
      RT_IPC_FLAG_FIFO timeout []) as (ys & zs & k1 & k' & E1 & E2 & Exs & _ & Hk' & Hl & _ & Hth & _ & _ & Hti);
      try done; [by apply kernel_upd_same|by apply caller_reset|by left|].
    symmetry in Exs. apply app_nil in Exs as [-> ->]. rewrite E1. cbn [mbind option_bind]. rewrite E2.
    cbn [mbind option_bind]. do 3 eexists. split; [done|]. split; [done|].
    split; [constructor; [by right|]; exists [cur]; split; [done|]; split; [cbn; lia|]; by rewrite Hf|].
    split; [done|]. right; right. split_and!; try done. destruct (0 <? timeout); [apply Hti|done].
Qed.

Lemma done_spec o c k :
  kernel_inv k -> completion_inv o c k -> is_Some (rt_current_thread k) ->
  exists c' k', rt_completion_done o c k = Some (c', k') /\ kernel_inv k' /\ completion_inv o c' k' /\
    flag c' = RT_COMPLETED /\ lists k' !! LSuspend o = Some [] /\
    (flag c = RT_COMPLETED -> k' = k) /\ (flag c = RT_UNCOMPLETED -> woke_first (LSuspend o) k k').
Proof.
  intros Hk [Hf (xs & Hx & Hlen & Hcx)] Hcur. unfold rt_completion_done. destruct Hf as [Hf|Hf]; rewrite Hf.
  - rewrite Z.eqb_refl. exists c, k. rewrite Hcx in Hx by done. split_and!; try done.
    apply completion_nobody; [by left|done].
  - change (RT_UNCOMPLETED =? RT_COMPLETED) with false. cbn match.
    destruct (wake_first_spec k (LSuspend o)) as (k' & -> & Hk' & Hw & (ys & E1 & E2) & _); [done|done|done|by rewrite Hx|].
    cbn [mbind option_bind]. rewrite Hx in E1. injection E1 as <-.
    assert (tail xs = []) as Htl by (destruct xs as [|? [|]]; cbn in *; [done|done|lia]).
    rewrite Htl in E2. do 2 eexists. split; [done|]. split; [done|]. split; [apply completion_nobody; [by left|done]|].
    by split_and!.
Qed.

(** ** Theorems *)

(** A thread that waits for a completion already signalled returns at once
    and clears it; otherwise it is suspended on the completion, with its
    timer started for the given number of ticks, and the next
    rt_completion_done makes it ready, stops the timer and lets the wait
    return RT_EOK with the completion cleared. *)
Theorem completion_handshake o timeout c k cur cth :
  kernel_inv k -> completion_inv o c k -> caller k cur cth -> lists k !! LSuspend o = Some [] ->
  timeout <> 0 -> timeout < HALF ->
  (flag c = RT_COMPLETED ->
     rt_completion_wait o timeout c k = Some (mk_completion RT_UNCOMPLETED, k, Done RT_EOK)) /\
  (flag c = RT_UNCOMPLETED ->
     exists c1 k1, rt_completion_wait o timeout c k = Some (c1, k1, Blocked cur) /\
       kernel_inv k1 /\ completion_inv o c1 k1 /\ lists k1 !! LSuspend o = Some [cur] /\
       error <$> threads k1 !! cur = Some RT_EOK /\
       (0 < timeout -> due_of (tsys k1) (ThreadTimer cur) = timeout) /\
       forall k2, kernel_inv k2 -> is_Some (rt_current_thread k2) -> lists k2 !! LSuspend o = Some [cur] ->
         error <$> threads k2 !! cur = Some RT_EOK ->
         exists c3 k3 th, rt_completion_done o c1 k2 = Some (c3, k3) /\ kernel_inv k3 /\ completion_inv o c3 k3 /\
           threads k3 !! cur = Some th /\ (stat th = RT_THREAD_READY \/ stat th = RT_THREAD_RUNNING) /\
           ThreadTimer cur ∉ rt_timer_list (tsys k3) /\
           rt_completion_wait_resume cur c3 k3 = Some (mk_completion RT_UNCOMPLETED, k3, Done RT_EOK)).
Proof.
  intros Hk Hc Hca He Hnz Htm.
  destruct (wait_spec o timeout c k cur cth Hk Hc Hca He Htm) as ([f'] & k1 & r & E & Hk1 & Hc1 & Hf1 & H).
  cbn [flag] in Hf1. subst f'.
  split; intros Hf; rewrite Hf in H;
    destruct H as [(Hf' & -> & ->)|[(Hf' & H0 & _)|(Hf' & _ & -> & Hl & Ht & Hd)]]; try done.
  do 2 eexists. split; [exact E|]. split; [done|]. split; [done|]. split; [done|]. split; [by rewrite Ht|].
  split; [intros Hp; by rewrite (proj2 (Z.ltb_lt 0 timeout) Hp) in Hd|].
  intros k2 Hk2 Hcur Hl2 Herr.
  destruct (done_spec o (mk_completion RT_UNCOMPLETED) k2 Hk2) as (c3 & k3 & E3 & Hk3 & Hc3 & _ & _ & _ & Hw);
    [constructor; [by right|exists [cur]; split; [done|]; split; [cbn; lia|done]]|done|].
  destruct (Hw eq_refl) as [[Hn _]|(t & xs & th & st & Hl' & _ & Hth & Hth' & Hst & Hti)]; [congruence|].
  rewrite Hl2 in Hl'. injection Hl' as <- <-. exists c3, k3, (set_stat st th). split_and!; try done.
  unfold rt_completion_wait_resume. rewrite Hth'. cbn [mbind option_bind]. rewrite Hth in Herr.
  injection Herr as Herr. destruct th; cbn in *. by rewrite Herr.
Qed.

Lemma completion_handshake_witness :
  exists c1 k1 c3 k3, rt_completion_wait 7 5 (mk_completion RT_UNCOMPLETED) sample_ipc = Some (c1, k1, Blocked 1) /\
    rt_completion_done 7 c1 k1 = Some (c3, k3) /\
    rt_completion_wait_resume 1 c3 k3 = Some (mk_completion RT_UNCOMPLETED, k3, Done RT_EOK).
Proof.
  destruct sample_ipc_caller as [th Hca].
  destruct (completion_handshake 7 5 (mk_completion RT_UNCOMPLETED) sample_ipc 1 th) as [_ H].
  - apply sample_ipc_inv.
  - apply completion_nobody; [by right|apply sample_ipc_list].
  - exact Hca.
  - apply sample_ipc_list.
  - lia.
  - by vm_compute.
  - destruct (H eq_refl) as (c1 & k1 & E & Hk1 & _ & Hl & He & _ & Hd).
    assert (option_map (fun r => bool_decide (is_Some (rt_current_thread r.1.2)))
      (rt_completion_wait 7 5 (mk_completion RT_UNCOMPLETED) sample_ipc) = Some true) as Hc by (by vm_compute).
    rewrite E in Hc. injection Hc as Hc. apply bool_decide_eq_true in Hc.
    destruct (Hd k1 Hk1 Hc Hl He) as (c3 & k3 & _ & E3 & _ & _ & _ & _ & _ & Er).
    exists c1, k1, c3, k3. exact (conj E (conj E3 Er)).
Defined.

(** A completion that is signalled after the waiter's time is over but before the
    waiter runs again is forgotten: the flag is set while nobody is queued, and the
    waiter, which returns the time-out, clears it. *)
Example late_done_is_lost :
  match rt_completion_wait 7 1 (mk_completion RT_UNCOMPLETED) sample_ipc with
  | Some (c, k, Blocked t) =>
      match SysTick_Handler no_callback k with
      | Some k =>
          match rt_completion_done 7 c k with
          | Some (c, k) =>
              flag c = RT_COMPLETED /\
              match rt_completion_wait_resume t c k with
              | Some (c, _, r) => flag c = RT_UNCOMPLETED /\ r = Done (- RT_ETIMEOUT)
              | None => False
              end
          | None => False
          end
      | None => False
      end
  | _ => False
  end.
Proof. by vm_compute. Qed.

End Completion.
