(* ===== verification/DataQueue.v ===== *)
(** * Data queues

    [components/drivers/src/dataqueue.c]: a bounded queue of (pointer, size) pairs
    between a driver and its users, with a list of threads waiting to push and one
    of threads waiting to pop.  Pushers are only woken when a pop takes the level
    down to the low-water mark.  The two indices are 16 bits wide and count pushes
    and pops; they are never reduced modulo the size. *)

From S2P Require Import Prelude RtList Timer KService Sched SchedInv ThreadOps Ipc Clock Mailbox Completion IpcClose.
Import RtList Timer KService Sched SchedInv ThreadOps Ipc Clock IpcClose.

Module DataQueue.

(** ** Data and operations *)

Definition RT_DATAQUEUE_EVENT_POP : Z := 1.
Definition RT_DATAQUEUE_EVENT_PUSH : Z := 2.
Definition RT_DATAQUEUE_EVENT_LWM : Z := 3.

Record rt_data_item := mk_item { data_ptr : Z; data_size : Z }.

(** The threads waiting to pop are [LSuspend o], those waiting to push
    [LSender o]. *)
Record rt_data_queue := mk_dq {
  size : Z;                    (** rt_uint16_t *)
  lwm : Z;                     (** rt_uint16_t *)
  get_index : Z;               (** rt_uint16_t *)
  put_index : Z;               (** rt_uint16_t *)
  queue : list rt_data_item;
  evt_notify : bool;           (** [evt_notify != RT_NULL] *)
}.

(** [pool] is the result of the allocation.  The members are set before it is
    known whether it succeeded. *)
Definition rt_data_queue_init (o sz mark : Z) (notify : bool) (pool : option (list rt_data_item)) (k : kernel)
  : rt_data_queue * kernel * Z :=
  let k := rt_ipc_object_init (LSuspend o) (rt_ipc_object_init (LSender o) k) in
  match pool with
  | None => (mk_dq (u16 sz) (u16 mark) 0 0 [] notify, k, - RT_ENOMEM)
  | Some q => (mk_dq (u16 sz) (u16 mark) 0 0 q notify, k, RT_EOK)
  end.

(** How a call ends: its result and the event it notifies at its end, or a switch
    away from the thread. *)
Inductive dq_result := DqDone (err : Z) (event : option Z) | DqBlocked (t : Z).

Definition notify (dq : rt_data_queue) (ev : Z) : option Z := if evt_notify dq then Some ev else None.

(** [queue->queue[i]]: outside the array is a fault. *)
Definition item_at (i : Z) (dq : rt_data_queue) : option rt_data_item :=
  if (0 <=? i) && (i <? zlen (queue dq)) then queue dq !! Z.to_nat i else None.

Definition dq_block (h : list_head) (timeout : Z) (k : kernel) : option (kernel * dq_result) :=
  t ← in_thread_context k;
  let k := upd_thread t (set_error RT_EOK) k in
  k ← wait_on h t RT_IPC_FLAG_FIFO timeout k;
  k ← rt_schedule k;
  Some (k, DqBlocked t).

(** [rt_data_queue_push] from the test of its loop on; the subtraction is done in
    [int]. *)
Definition rt_data_queue_push (o : Z) (item : rt_data_item) (timeout : Z) (dq : rt_data_queue) (k : kernel)
  : option (rt_data_queue * kernel * dq_result) :=
  if put_index dq - get_index dq =? size dq then
    if timeout =? 0 then Some (dq, k, DqDone (- RT_ETIMEOUT) None)
    else '(k, r) ← dq_block (LSender o) timeout k; Some (dq, k, r)
  else
    _ ← RT_ASSERT (negb (size dq =? 0));   (* the remainder is undefined *)
    let i := put_index dq mod size dq in
    _ ← item_at i dq;
    let dq := mk_dq (size dq) (lwm dq) (get_index dq) (u16 (put_index dq + 1))
                (<[Z.to_nat i := item]> (queue dq)) (evt_notify dq) in
    xs ← lists k !! LSuspend o;
    if bool_decide (xs <> []) then
      k ← rt_ipc_list_resume (LSuspend o) k; k ← rt_schedule k; Some (dq, k, DqDone RT_EOK None)
    else Some (dq, k, DqDone RT_EOK (notify dq RT_DATAQUEUE_EVENT_PUSH)).

(** After the switch back; the time limit starts again. *)
Definition rt_data_queue_push_resume (o t : Z) (item : rt_data_item) (timeout : Z) (dq : rt_data_queue) (k : kernel)
  : option (rt_data_queue * kernel * dq_result) :=
  th ← threads k !! t;
  if negb (error th =? RT_EOK) then Some (dq, k, DqDone (error th) None)
  else rt_data_queue_push o item timeout dq k.

(** The last component is what is stored through [data_ptr] and [size]. *)
Definition rt_data_queue_pop (o timeout : Z) (dq : rt_data_queue) (k : kernel)
  : option (rt_data_queue * kernel * dq_result * option rt_data_item) :=
  if get_index dq =? put_index dq then
    if timeout =? 0 then Some (dq, k, DqDone (- RT_ETIMEOUT) None, None)
    else '(k, r) ← dq_block (LSuspend o) timeout k; Some (dq, k, r, None)
  else
    _ ← RT_ASSERT (negb (size dq =? 0));
    item ← item_at (get_index dq mod size dq) dq;
    let dq := mk_dq (size dq) (lwm dq) (u16 (get_index dq + 1)) (put_index dq) (queue dq) (evt_notify dq) in
    if put_index dq - get_index dq <=? lwm dq then
      k ← wake_first (LSender o) k;
      Some (dq, k, DqDone RT_EOK (notify dq RT_DATAQUEUE_EVENT_LWM), Some item)
    else Some (dq, k, DqDone RT_EOK (notify dq RT_DATAQUEUE_EVENT_POP), Some item).

Definition rt_data_queue_pop_resume (o t timeout : Z) (dq : rt_data_queue) (k : kernel)
  : option (rt_data_queue * kernel * dq_result * option rt_data_item) :=
  th ← threads k !! t;
  if negb (error th =? RT_EOK) then Some (dq, k, DqDone (error th) None, None)
  else rt_data_queue_pop o timeout dq k.

Definition rt_data_queue_peak (dq : rt_data_queue) : option (Z * option rt_data_item) :=
  if get_index dq =? put_index dq then Some (- RT_EEMPTY, None)
  else
    _ ← RT_ASSERT (negb (size dq =? 0));
    item ← item_at (get_index dq mod size dq) dq; Some (RT_EOK, Some item).

(** Wakes all waiters with an error; the contents stay. *)
Definition rt_data_queue_reset (o : Z) (k : kernel) : option kernel :=
  let k := rt_enter_critical k in
  k ← rt_ipc_list_resume_all (LSuspend o) k;
  k ← rt_ipc_list_resume_all (LSender o) k;
  k ← rt_exit_critical k;
  rt_schedule k.

(** ** Invariant and abstraction *)

Record dq_inv (o : Z) (dq : rt_data_queue) (k : kernel) : Prop := {
  dq_size : 0 < size dq < 2 ^ 16;
  dq_len : zlen (queue dq) = size dq;
  dq_get : 0 <= get_index dq;
  dq_put : put_index dq < 2 ^ 16;
  dq_level : 0 <= put_index dq - get_index dq <= size dq;
  dq_poppers : is_Some (lists k !! LSuspend o);
  dq_pushers : is_Some (lists k !! LSender o);
}.

(** The items in the queue, oldest first. *)
Definition items (dq : rt_data_queue) : list rt_data_item :=
  (fun i => default (mk_item 0 0) (queue dq !! Z.to_nat (i mod size dq))) <$>
    seqZ (get_index dq) (put_index dq - get_index dq).

Lemma dq_inv_lists o dq k k' :
  is_Some (lists k' !! LSuspend o) -> is_Some (lists k' !! LSender o) -> dq_inv o dq k -> dq_inv o dq k'.
Proof. intros ? ? []. by constructor. Qed.

#[export] Program Instance dq_object : IpcObject rt_data_queue := {| ipc_inv := dq_inv |}.
Next Obligation.
  intros o dq k k' [Hv _] Hi. eapply dq_inv_lists; [..|exact Hi];
    rewrite Hv by (by left + by right); apply Hi.
Qed.
Next Obligation.
  intros o dq k k' t [Hv _] Hi. eapply dq_inv_lists; [..|exact Hi];
    rewrite Hv by (by left + by right); rewrite fmap_is_Some; apply Hi.
Qed.

(** ** Lemmas *)

Lemma items_length o dq k : dq_inv o dq k -> zlen (items dq) = put_index dq - get_index dq.
Proof. intros []. unfold items, zlen. rewrite length_fmap, length_seqZ. lia. Qed.

Lemma item_at_Some o dq k i :
  dq_inv o dq k -> item_at (i mod size dq) dq = Some (default (mk_item 0 0) (queue dq !! Z.to_nat (i mod size dq))).
Proof.
  intros [Hs Hl _ _ _ _ _]. pose proof (Z.mod_pos_bound i (size dq) ltac:(lia)) as Hb. unfold item_at.
  rewrite (proj2 (Z.leb_le _ _)), (proj2 (Z.ltb_lt _ _)) by lia. cbn [andb].
  destruct (queue dq !! Z.to_nat (i mod size dq)) as [x|] eqn:E; [done|].
  apply lookup_ge_None in E. unfold zlen in Hl. lia.
Qed.

(** Slots in use are pairwise different. *)
Lemma slot_inj n i j : 0 < n -> i mod n = j mod n -> - n < i - j < n -> i = j.
Proof.
  intros Hn E Hd. pose proof (Z.div_mod i n ltac:(lia)). pose proof (Z.div_mod j n ltac:(lia)).
  assert (i - j = n * (i / n - j / n)) as Hq by lia. assert (i / n - j / n = 0) by nia. lia.
Qed.

Lemma items_push o dq k item :
  dq_inv o dq k -> put_index dq - get_index dq < size dq -> put_index dq + 1 < 2 ^ 16 ->
  items (mk_dq (size dq) (lwm dq) (get_index dq) (u16 (put_index dq + 1))
           (<[Z.to_nat (put_index dq mod size dq) := item]> (queue dq)) (evt_notify dq)) = items dq ++ [item].
Proof.
  intros [Hs Hl Hg Hp Hv _ _] Hroom Hw. unfold items. cbn [queue size get_index put_index].
  rewrite (wrapu_small 16) by lia.
  replace (put_index dq + 1 - get_index dq) with ((put_index dq - get_index dq) + 1) by lia.
  rewrite seqZ_app by lia. rewrite fmap_app. f_equal.
  - apply list_fmap_ext. intros n i Hi. apply lookup_seqZ in Hi as [-> Hn].
    rewrite list_lookup_insert_ne; [done|]. intros E. apply Z2Nat.inj in E;
      [|apply Z.mod_pos_bound; lia|apply Z.mod_pos_bound; lia].
    apply slot_inj in E; lia.
  - replace (get_index dq + (put_index dq - get_index dq)) with (put_index dq) by lia.
    rewrite seqZ_cons by lia. cbn [Z.pred fmap list_fmap]. rewrite list_lookup_insert_eq; [done|].
    pose proof (Z.mod_pos_bound (put_index dq) (size dq) ltac:(lia)) as Hb. unfold zlen in Hl.
    lia.
Qed.

Lemma items_pop o dq k :
  dq_inv o dq k -> get_index dq <> put_index dq ->
  items dq = default (mk_item 0 0) (queue dq !! Z.to_nat (get_index dq mod size dq)) ::
    items (mk_dq (size dq) (lwm dq) (u16 (get_index dq + 1)) (put_index dq) (queue dq) (evt_notify dq)).
Proof.
  intros [Hs Hl Hg Hp Hv _ _] Hne. unfold items. cbn [queue size get_index put_index].
  rewrite (wrapu_small 16) by lia. rewrite seqZ_cons by lia. cbn [fmap list_fmap]. f_equal. f_equal.
  unfold Z.succ, Z.pred. f_equal. lia.
Qed.

Lemma dq_keep o dq k k' h xs :
  dq_inv o dq k -> is_wait h -> lists k' !! h = Some xs ->
  (forall h', is_wait h' -> h' <> h -> lists k' !! h' = lists k !! h') -> dq_inv o dq k'.
Proof.
  intros Hi Hw Hl Ho.
  assert (forall h', is_wait h' -> is_Some (lists k !! h') -> is_Some (lists k' !! h')) as Hs.
  { intros h' Hw' Hx. destruct (decide (h' = h)) as [->|Hne]; [by rewrite Hl|by rewrite Ho]. }
  eapply dq_inv_lists; [..|exact Hi]; apply Hs; try done; apply Hi.
Qed.

(** The caller goes to sleep at the end of [h]. *)
Definition queued (h : list_head) (cur timeout : Z) (k k' : kernel) : Prop :=
  exists xs, lists k !! h = Some xs /\ lists k' !! h = Some (xs ++ [cur]) /\
    (0 < timeout -> due_of (tsys k') (ThreadTimer cur) = timeout).

Lemma dq_block_spec o dq k h timeout cur cth :
  kernel_inv k -> dq_inv o dq k -> caller k cur cth -> h = LSuspend o \/ h = LSender o -> timeout < HALF ->
  exists k', dq_block h timeout k = Some (k', DqBlocked cur) /\ kernel_inv k' /\ dq_inv o dq k' /\
    queued h cur timeout k k'.
Proof.
  intros Hk Hi Hca Hh Htm. unfold dq_block. rewrite (in_thread_context_caller k cur cth Hca).
  cbn [mbind option_bind]. assert (is_wait h) as Hw by (by destruct Hh as [->| ->]).
  assert (is_Some (lists k !! h)) as [xs Exs] by (destruct Hh as [->| ->]; apply Hi).
  destruct (block_spec (upd_thread cur (set_error RT_EOK) k) h cur (set_error RT_EOK cth) RT_IPC_FLAG_FIFO timeout xs)
    as (ys & zs & k1 & k' & E1 & E2 & -> & Hq & Hk' & Hl & Ho & _ & _ & _ & Hti);
    try done; [by apply kernel_upd_same|by apply Completion.Completion.caller_reset|by left|].
  assert (zs = []) as -> by (by destruct Hq as [[_ ?]|[? _]]).
  rewrite E1. cbn [mbind option_bind]. rewrite E2. cbn [mbind option_bind].
  exists k'. split; [done|]. split; [done|]. split; [by eapply dq_keep|].
  rewrite app_nil_r in *. exists ys. split; [done|]. split; [done|].
  intros Hp. rewrite (proj2 (Z.ltb_lt 0 timeout) Hp) in Hti. by destruct Hti.
Qed.

Lemma push_spec o item timeout dq k cur cth :
  kernel_inv k -> dq_inv o dq k -> caller k cur cth -> timeout < HALF -> put_index dq + 1 < 2 ^ 16 ->
  exists dq' k' r, rt_data_queue_push o item timeout dq k = Some (dq', k', r) /\ kernel_inv k' /\ dq_inv o dq' k' /\
    ((zlen (items dq) < size dq /\ items dq' = items dq ++ [item] /\ woke_first (LSuspend o) k k' /\
      r = DqDone RT_EOK (if bool_decide (lists k !! LSuspend o = Some []) then notify dq RT_DATAQUEUE_EVENT_PUSH else None)) \/
     (zlen (items dq) = size dq /\ dq' = dq /\
      if timeout =? 0 then r = DqDone (- RT_ETIMEOUT) None /\ k' = k
      else r = DqBlocked cur /\ queued (LSender o) cur timeout k k')).
Proof.
  intros Hk Hi Hca Htm Hwr. pose proof Hi as [Hsz Hl Hg Hp Hv Hpo Hpu].
  rewrite (items_length o dq k Hi). unfold rt_data_queue_push.
  destruct (Z.eqb_spec (put_index dq - get_index dq) (size dq)) as [Hfull|Hnf].
  - destruct (timeout =? 0).
    + exists dq, k, (DqDone (- RT_ETIMEOUT) None). split_and!; try done. right. by split_and!.
    + destruct (dq_block_spec o dq k (LSender o) timeout cur cth) as (k' & -> & Hk' & Hi' & Hq); try done; [by right|].
      cbn [mbind option_bind]. do 3 eexists. split; [done|]. split; [done|]. split; [done|]. right. by split_and!.
  - rewrite (proj2 (Z.eqb_neq (size dq) 0)) by lia. cbn [negb RT_ASSERT mbind option_bind].
    rewrite (item_at_Some o dq k _ Hi). cbn [mbind option_bind].
    pose proof (items_push o dq k item Hi ltac:(lia) Hwr) as Hit.
    set (dq' := mk_dq _ _ _ _ _ _) in *.
    assert (dq_inv o dq' k) as Hi'.
    { constructor; cbn; rewrite ?(wrapu_small 16) by lia; try done; try lia.
      unfold zlen. by rewrite length_insert. }
    destruct (wake_first_spec k (LSuspend o)) as (k' & Ew & Hk' & Hwf & (xs & E1 & E2) & Ho); try done;
      [rewrite (ca_current _ _ _ Hca); eauto|].
    unfold wake_first in Ew. rewrite E1 in Ew |- *. cbn [mbind option_bind] in Ew |- *.
    destruct (decide (xs = [])) as [->|Hne].
    + change (bool_decide ([] <> [])) with false in *. cbn match in Ew |- *. injection Ew as <-.
      do 3 eexists. split; [done|]. split; [done|]. split; [done|]. left. split_and!; try done. lia.
    + rewrite bool_decide_eq_true_2 in Ew |- * by done.
      destruct (rt_ipc_list_resume (LSuspend o) k) as [k1|]; [|done]. cbn [mbind option_bind] in Ew |- *. rewrite Ew.
      cbn [mbind option_bind]. do 3 eexists. split; [done|]. split; [done|]. split; [by apply (dq_keep o dq' k k' (LSuspend o) (tail xs))|].
      left. split_and!; try done; [lia|]. by rewrite bool_decide_eq_false_2 by congruence.
Qed.

Lemma pop_spec o timeout dq k cur cth :
  kernel_inv k -> dq_inv o dq k -> caller k cur cth -> timeout < HALF ->
  exists dq' k' r x, rt_data_queue_pop o timeout dq k = Some (dq', k', r, x) /\ kernel_inv k' /\ dq_inv o dq' k' /\
    ((exists item, items dq = item :: items dq' /\ x = Some item /\
      if zlen (items dq') <=? lwm dq
      then woke_first (LSender o) k k' /\ r = DqDone RT_EOK (notify dq RT_DATAQUEUE_EVENT_LWM)
      else k' = k /\ r = DqDone RT_EOK (notify dq RT_DATAQUEUE_EVENT_POP)) \/
     (items dq = [] /\ dq' = dq /\ x = None /\
      if timeout =? 0 then r = DqDone (- RT_ETIMEOUT) None /\ k' = k
      else r = DqBlocked cur /\ queued (LSuspend o) cur timeout k k')).
Proof.
  intros Hk Hi Hca Htm. pose proof Hi as [Hsz Hl Hg Hp Hv Hpo Hpu]. unfold rt_data_queue_pop.
  destruct (Z.eqb_spec (get_index dq) (put_index dq)) as [He|Hne].
  - assert (items dq = []) as Hit by (unfold items; by rewrite He, Z.sub_diag). rewrite Hit.
    destruct (timeout =? 0).
    + exists dq, k, (DqDone (- RT_ETIMEOUT) None), None. split_and!; try done. right. by split_and!.
    + destruct (dq_block_spec o dq k (LSuspend o) timeout cur cth) as (k' & -> & Hk' & Hi' & Hq); try done; [by left|].
      cbn [mbind option_bind]. do 4 eexists. split; [done|]. split; [done|]. split; [done|]. right. by split_and!.
  - rewrite (proj2 (Z.eqb_neq (size dq) 0)) by lia. cbn [negb RT_ASSERT mbind option_bind].
    rewrite (item_at_Some o dq k _ Hi). cbn [mbind option_bind].
    pose proof (items_pop o dq k Hi Hne) as Hit. set (dq' := mk_dq _ _ _ _ _ _) in *.
    assert (dq_inv o dq' k) as Hi' by (constructor; cbn; rewrite ?(wrapu_small 16) by lia; try done; lia).
    pose proof (items_length o dq' k Hi') as Hlen.
    destruct (Z.leb_spec (put_index dq' - get_index dq') (lwm dq')) as [Hlw|Hlw].
    + destruct (wake_first_spec k (LSender o)) as (k' & -> & Hk' & Hwf & (xs & E1 & E2) & Ho); try done;
        [rewrite (ca_current _ _ _ Hca); eauto|].
      cbn [mbind option_bind]. do 4 eexists. split; [done|]. split; [done|]. split; [by apply (dq_keep o dq' k k' (LSender o) (tail xs))|].
      left. eexists. split; [done|]. split; [done|]. by rewrite Hlen, (proj2 (Z.leb_le _ _)) by done.
    + do 4 eexists. split; [done|]. split; [done|]. split; [done|]. left. eexists. split; [done|]. split; [done|].
      by rewrite Hlen, (proj2 (Z.leb_gt _ _)) by done.
Qed.

(** ** Reset *)

Lemma exit_critical_frame k k' :
  kernel_inv k -> is_Some (rt_current_thread k) -> rt_exit_critical k = Some k' ->
  kernel_inv k' /\ is_Some (rt_current_thread k') /\ sched_frame k k'.
Proof.
  intros Hk Hcur. unfold rt_exit_critical. set (k1 := set_lock_nest _ k).
  assert (forall n, kernel_inv (set_lock_nest n k1)) as Hn by (intros n; by do 2 apply set_lock_nest_inv).
  case_bool; intros E.
  - destruct (schedule_inv (set_lock_nest 0 k1)) as (k2 & E2 & Hk2); [done|done|].
    rewrite E in E2. injection E2 as <-. split; [done|].
    split; [by eapply schedule_current; [..|exact E]|].
    destruct (schedule_frame (set_lock_nest 0 k1) k') as [H1 H2 H3 H4 H5 H6]; [done|done|done|]. by constructor.
  - injection E as <-. split; [by apply set_lock_nest_inv|]. split; [done|].
    destruct (sched_frame_refl k) as [H1 H2 H3 H4 H5 H6]. by constructor.
Qed.

Lemma all_woken_frame hs k k1 k2 : all_woken hs k k1 -> sched_frame k1 k2 -> all_woken hs k k2.
Proof.
  intros Hw Hsf h xs u Hh Hx Hu. destruct (Hw h xs u Hh Hx Hu) as (th & st & Et & Et' & Hst).
  destruct (sched_frame_runnable k1 k2 u _ Hsf Et') as (st' & Et2 & Hst'); [done|].
  exists th, st'. split; [done|]. split; [by rewrite Et2|done].
Qed.

Lemma reset_spec o dq k :
  kernel_inv k -> dq_inv o dq k -> is_Some (rt_current_thread k) ->
  exists k', rt_data_queue_reset o k = Some k' /\ kernel_inv k' /\ dq_inv o dq k' /\
    all_woken [LSuspend o; LSender o] k k' /\
    lists k' !! LSuspend o = Some [] /\ lists k' !! LSender o = Some [].
Proof.
  intros Hk Hi Hcur. unfold rt_data_queue_reset. set (k1 := rt_enter_critical k).
  destruct (resume_heads_spec [LSuspend o; LSender o] k1) as (k2 & E & [Hk2 He _ Hw _ Hc _]);
    [by apply set_lock_nest_inv|repeat constructor; set_solver|by repeat constructor| |].
  { intros h Hh. set_unfold in Hh. destruct Hh as [->|[->|[]]]; apply Hi. }
  cbn [resume_heads] in E. destruct (rt_ipc_list_resume_all (LSuspend o) k1) as [ka|]; [|done].
  cbn [mbind option_bind] in E |- *. destruct (rt_ipc_list_resume_all (LSender o) ka) as [kb|]; [|done].
  cbn [mbind option_bind] in E |- *. injection E as ->.
  assert (is_Some (rt_current_thread k2)) as Hc2 by (by rewrite Hc).
  destruct (exit_critical_inv k2 Hk2 Hc2) as (k3 & E3 & _). rewrite E3. cbn [mbind option_bind].
  destruct (exit_critical_frame k2 k3 Hk2 Hc2 E3) as (Hk3 & Hc3 & Hf3).
  destruct (schedule_inv k3 Hk3 Hc3) as (k4 & E4 & Hk4). pose proof (schedule_frame k3 k4 Hk3 Hc3 E4) as Hf4.
  assert (forall h, h ∈ [LSuspend o; LSender o] -> lists k4 !! h = Some []) as Hnil.
  { intros h Hh. rewrite (sf_waits _ _ Hf4), (sf_waits _ _ Hf3); [by apply He|..];
      set_unfold in Hh; by destruct Hh as [->|[->|[]]]. }
  exists k4. split; [done|]. split; [done|].
  split; [eapply dq_inv_lists; [..|exact Hi]; rewrite Hnil by set_solver; eauto|].
  split; [eapply all_woken_frame; [eapply all_woken_frame; [exact Hw|exact Hf3]|exact Hf4]|].
  split; apply Hnil; set_solver.
Qed.

Lemma peak_spec o dq k :
  dq_inv o dq k ->
  rt_data_queue_peak dq = Some (match items dq with [] => (- RT_EEMPTY, None) | x :: _ => (RT_EOK, Some x) end).
Proof.
  intros Hi. pose proof Hi as [Hsz Hl Hg Hp Hv _ _]. unfold rt_data_queue_peak.
  destruct (Z.eqb_spec (get_index dq) (put_index dq)) as [He|Hne].
  - assert (items dq = []) as -> by (unfold items; by rewrite He, Z.sub_diag). done.
  - rewrite (items_pop o dq k Hi Hne), (proj2 (Z.eqb_neq (size dq) 0)) by lia.
    cbn [negb RT_ASSERT mbind option_bind]. by rewrite (item_at_Some o dq k _ Hi).
Qed.

(** ** Theorems *)

(** While the push index has not reached 2^16, a data queue is a bounded
    FIFO of items: push appends and wakes the first waiting reader or
    notifies, and blocks or times out exactly when size items are held; pop
    removes the oldest item and wakes the first waiting writer when the
    level falls to the low-water mark, and blocks or times out exactly when
    the queue is empty; peak shows the oldest item. *)
Theorem data_queue_fifo o item timeout dq k cur cth :
  kernel_inv k -> dq_inv o dq k -> caller k cur cth -> timeout < HALF ->
  (put_index dq + 1 < 2 ^ 16 ->
   exists dq' k' r, rt_data_queue_push o item timeout dq k = Some (dq', k', r) /\ kernel_inv k' /\ dq_inv o dq' k' /\
    ((zlen (items dq) < size dq /\ items dq' = items dq ++ [item] /\ woke_first (LSuspend o) k k' /\
      r = DqDone RT_EOK (if bool_decide (lists k !! LSuspend o = Some []) then notify dq RT_DATAQUEUE_EVENT_PUSH else None)) \/
     (zlen (items dq) = size dq /\ dq' = dq /\
      if timeout =? 0 then r = DqDone (- RT_ETIMEOUT) None /\ k' = k
      else r = DqBlocked cur /\ queued (LSender o) cur timeout k k'))) /\
  (exists dq' k' r x, rt_data_queue_pop o timeout dq k = Some (dq', k', r, x) /\ kernel_inv k' /\ dq_inv o dq' k' /\
    ((exists item, items dq = item :: items dq' /\ x = Some item /\
      if zlen (items dq') <=? lwm dq
      then woke_first (LSender o) k k' /\ r = DqDone RT_EOK (notify dq RT_DATAQUEUE_EVENT_LWM)
      else k' = k /\ r = DqDone RT_EOK (notify dq RT_DATAQUEUE_EVENT_POP)) \/
     (items dq = [] /\ dq' = dq /\ x = None /\
      if timeout =? 0 then r = DqDone (- RT_ETIMEOUT) None /\ k' = k
      else r = DqBlocked cur /\ queued (LSuspend o) cur timeout k k'))) /\
  rt_data_queue_peak dq = Some (match items dq with [] => (- RT_EEMPTY, None) | x :: _ => (RT_EOK, Some x) end).
Proof.
  intros Hk Hi Hca Htm. split; [intros Hw; by eapply push_spec|]. split; [by eapply pop_spec|by eapply peak_spec].
Qed.

(** Object 7 of the sample kernel as a queue for two items that holds one. *)
Definition sample_dq : rt_data_queue := mk_dq 2 0 3 4 [mk_item 20 4; mk_item 10 1] true.

Lemma sample_dq_inv : dq_inv 7 sample_dq Mailbox.Mailbox.sample_mbk.
Proof.
  destruct Mailbox.Mailbox.sample_mb_inv. by constructor; cbn; try lia.
Qed.

Lemma data_queue_fifo_witness :
  exists dq k, rt_data_queue_push 7 (mk_item 30 8) 0 sample_dq Mailbox.Mailbox.sample_mbk =
      Some (dq, k, DqDone RT_EOK (Some RT_DATAQUEUE_EVENT_PUSH)) /\
    items dq = [mk_item 10 1; mk_item 30 8].
Proof.
  destruct Mailbox.Mailbox.sample_mb_caller as [th Hca].
  destruct (data_queue_fifo 7 (mk_item 30 8) 0 sample_dq Mailbox.Mailbox.sample_mbk 1 th) as (H & _ & _).
  - apply Mailbox.Mailbox.sample_mbk_inv.
  - apply sample_dq_inv.
  - exact Hca.
  - by vm_compute.
  - destruct H as (dq & k & r & E & _ & _ & [(_ & Hi & _ & ->)|(H & _)]); [by vm_compute| |by vm_compute in H].
    exists dq, k. split; [rewrite E; by vm_compute|]. rewrite Hi. by vm_compute.
Defined.

(** rt_data_queue_reset makes every thread that waits for the queue, to push
    or to pop, ready; both wait lists are empty afterwards and the queue
    keeps its items. *)
Theorem data_queue_reset_wakes_all o dq k :
  kernel_inv k -> dq_inv o dq k -> is_Some (rt_current_thread k) ->
  exists k', rt_data_queue_reset o k = Some k' /\ kernel_inv k' /\ dq_inv o dq k' /\
    all_woken [LSuspend o; LSender o] k k' /\
    lists k' !! LSuspend o = Some [] /\ lists k' !! LSender o = Some [].
Proof. apply reset_spec. Qed.

Lemma data_queue_reset_wakes_all_witness :
  exists k, rt_data_queue_reset 7 Mailbox.Mailbox.sample_mbk = Some k /\ lists k !! LSender 7 = Some [].
Proof.
  destruct (data_queue_reset_wakes_all 7 sample_dq Mailbox.Mailbox.sample_mbk) as (k & E & _ & _ & _ & _ & H).
  - apply Mailbox.Mailbox.sample_mbk_inv.
  - apply sample_dq_inv.
  - by vm_compute; eexists.
  - exists k. exact (conj E H).
Defined.

(** The indices wrap around after 65536 pushes.  From then on a full queue is not
    recognised, since the difference is taken in [int]: the ninth item of a queue
    for eight is accepted and overwrites the oldest. *)
Definition worn_dq : rt_data_queue :=
  mk_dq 8 4 65528 65535 ((fun i => mk_item (Z.of_nat i) 1) <$> seq 0 8) false.

Example full_queue_overwritten :
  item_at 0 worn_dq = Some (mk_item 0 1) /\
  match rt_data_queue_push 7 (mk_item 100 1) 0 worn_dq Mailbox.Mailbox.sample_mbk with
  | Some (dq, k, DqDone 0 _) =>
      put_index dq = 0 /\
      match rt_data_queue_push 7 (mk_item 101 1) 0 dq k with
      | Some (dq, _, DqDone 0 _) => item_at (get_index dq mod size dq) dq = Some (mk_item 101 1)
      | _ => False
      end
  | _ => False
  end.
Proof. by vm_compute. Qed.

(** For a size that is not a power of two the first push after the wrap even hits
    the slot of the last one before it. *)
Example wrap_hits_last_slot :
  match rt_data_queue_push 7 (mk_item 100 1) 0 (mk_dq 3 1 65535 65535 (replicate 3 (mk_item 0 0)) false)
          Mailbox.Mailbox.sample_mbk with
  | Some (dq, k, DqDone 0 _) =>
      match rt_data_queue_push 7 (mk_item 101 1) 0 dq k with
      | Some (dq, _, DqDone 0 _) => item_at (65535 mod 3) dq = Some (mk_item 101 1)
      | _ => False
      end
  | _ => False
  end.
Proof. by vm_compute. Qed.

End DataQueue.
