(* ===== verification/WaitQueue.v ===== *)
(** * Wait queues

    [components/drivers/src/waitqueue.c]: a flag and a list of nodes, each of which
    names a thread and a function that decides whether a wake-up is for it.  The
    thread is suspended on no list of the kernel; the node lies on the stack of
    [rt_wqueue_wait] or in the caller's memory and is named by a number. *)

From S2P Require Import Prelude RtList Timer KService Sched SchedInv ThreadOps Ipc Clock.
Import RtList Timer KService Sched SchedInv ThreadOps Ipc Clock.

Module WaitQueue.

(** ** Data and operations *)

Definition RT_WQ_FLAG_CLEAN : Z := 0.
Definition RT_WQ_FLAG_WAKEUP : Z := 1.

Record rt_wqueue_node := mk_node { address : Z; polling_thread : Z; wakeup : Z -> Z }.
Record rt_wqueue := mk_wqueue { wflag : Z; waiting_list : list rt_wqueue_node }.

Definition rt_wqueue_init : rt_wqueue := mk_wqueue RT_WQ_FLAG_CLEAN [].

(** A node is linked at most once. *)
Definition rt_wqueue_add (n : rt_wqueue_node) (q : rt_wqueue) : option rt_wqueue :=
  _ ← RT_ASSERT (bool_decide (address n ∉ (address <$> waiting_list q)));
  Some (mk_wqueue (wflag q) (waiting_list q ++ [n])).

Definition unlinked (a : Z) (l : list rt_wqueue_node) : list rt_wqueue_node := filter (fun n => address n <> a) l.

Definition rt_wqueue_remove (a : Z) (q : rt_wqueue) : rt_wqueue := mk_wqueue (wflag q) (unlinked a (waiting_list q)).

Definition __wqueue_default_wake (key : Z) : Z := 0.

(** The node at which the loop of [rt_wqueue_wakeup] breaks. *)
Fixpoint wakeup_loop (key : Z) (l : list rt_wqueue_node) : option rt_wqueue_node :=
  match l with
  | [] => None
  | n :: l => if wakeup n key =? 0 then Some n else wakeup_loop key l
  end.

Definition rt_wqueue_wakeup (key : Z) (q : rt_wqueue) (k : kernel) : option (rt_wqueue * kernel) :=
  let q := mk_wqueue RT_WQ_FLAG_WAKEUP (waiting_list q) in
  match wakeup_loop key (waiting_list q) with
  | Some n =>
      '(k, _) ← rt_thread_resume (polling_thread n) k;
      let q := rt_wqueue_remove (address n) q in
      k ← rt_schedule k;
      Some (q, k)
  | None => Some (q, k)
  end.

(** [a] is the address of [__wait] on the stack of the caller. *)
Definition rt_wqueue_wait (a condition msec : Z) (q : rt_wqueue) (k : kernel)
  : option (rt_wqueue * kernel * ipc_result) :=
  t ← in_thread_context k;
  tick ← rt_tick_from_millisecond msec;
  if negb (condition =? 0) || (tick =? 0) then Some (q, k, Done 0)
  else if wflag q =? RT_WQ_FLAG_WAKEUP then Some (rt_wqueue_remove a (mk_wqueue 0 (waiting_list q)), k, Done 0)
  else
    q ← rt_wqueue_add (mk_node a t __wqueue_default_wake) q;
    '(k, _) ← rt_thread_suspend t k;
    k ← (if negb (tick =? RT_WAITING_FOREVER) then start_thread_timer t tick k else Some k);
    k ← rt_schedule k;
    Some (q, k, Blocked t).

(** After the switch back. *)
Definition rt_wqueue_wait_resume (a : Z) (q : rt_wqueue) : rt_wqueue * ipc_result :=
  (rt_wqueue_remove a (mk_wqueue 0 (waiting_list q)), Done 0).

(** ** Lemmas *)

Lemma unlinked_absent a l : a ∉ (address <$> l) -> unlinked a l = l.
Proof.
  induction l as [|n l IH]; intros Hn; [done|]. rewrite fmap_cons in Hn. apply not_elem_of_cons in Hn as [H1 H2].
  unfold unlinked. rewrite filter_cons_True by congruence. f_equal. by apply IH.
Qed.

Lemma unlinked_middle xs n ys :
  NoDup (address <$> xs ++ n :: ys) -> unlinked (address n) (xs ++ n :: ys) = xs ++ ys.
Proof.
  rewrite fmap_app, fmap_cons. intros (_ & H1 & H2)%NoDup_app. apply NoDup_cons in H2 as [H2 _].
  unfold unlinked. rewrite filter_app, filter_cons_False by (intros []; done). fold (unlinked (address n) xs) (unlinked (address n) ys).
  rewrite !unlinked_absent; [done|done|]. intros Hi. eapply H1; [exact Hi|]. by constructor.
Qed.

Lemma wakeup_loop_spec key l :
  match wakeup_loop key l with
  | Some n => exists xs ys, l = xs ++ n :: ys /\ wakeup n key = 0 /\ Forall (fun m => wakeup m key <> 0) xs
  | None => Forall (fun m => wakeup m key <> 0) l
  end.
Proof.
  induction l as [|n l IH]; cbn [wakeup_loop]; [constructor|]. destruct (Z.eqb_spec (wakeup n key) 0).
  - by exists [], l.
  - destruct (wakeup_loop key l) as [m|]; [|by constructor]. destruct IH as (xs & ys & -> & H1 & H2). exists (n :: xs), ys.
    split_and!; [done..|by constructor].
Qed.

(** ** Specifications *)

Lemma rt_wqueue_wakeup_spec key q k :
  kernel_inv k -> is_Some (rt_current_thread k) -> NoDup (address <$> waiting_list q) ->
  (forall n, wakeup_loop key (waiting_list q) = Some n -> sleeping k (polling_thread n)) ->
  exists q' k', rt_wqueue_wakeup key q k = Some (q', k') /\ kernel_inv k' /\ is_Some (rt_current_thread k') /\ wflag q' = RT_WQ_FLAG_WAKEUP /\
    match wakeup_loop key (waiting_list q) with
    | None => k' = k /\ waiting_list q' = waiting_list q
    | Some n => exists xs ys, waiting_list q = xs ++ n :: ys /\ waiting_list q' = xs ++ ys /\
        runnable k' (polling_thread n) /\ ThreadTimer (polling_thread n) ∉ rt_timer_list (tsys k') /\
        (forall u, u <> polling_thread n -> sleeping k u -> sleeping k' u) /\ (forall u, u <> polling_thread n -> runnable k u -> runnable k' u)
    end.
Proof.
  intros Hk Hcur Hnd Hsl. unfold rt_wqueue_wakeup. cbn [waiting_list]. pose proof (wakeup_loop_spec key (waiting_list q)) as Hw.
  destruct (wakeup_loop key (waiting_list q)) as [n|]; [|by exists (mk_wqueue RT_WQ_FLAG_WAKEUP (waiting_list q)), k].
  destruct (Hsl n eq_refl) as (th & Ht & Hs). destruct Hw as (xs & ys & El & _ & _).
  destruct (resume_schedule_spec k _ th Hk Hcur Ht Hs) as (k1 & k' & s & E1 & E2 & Hk' & Hc' & Ht' & Hrun & Htm & Hoth & Hor & _).
  rewrite E1. cbn [mbind option_bind]. rewrite E2. cbn [mbind option_bind]. eexists _, k'. split; [done|]. split_and!; try done.
  exists xs, ys. split_and!; try done.
  - cbn. rewrite El in Hnd |- *. by apply unlinked_middle.
  - by eexists.
Qed.

Lemma rt_wqueue_wait_spec a msec q k cur cth :
  kernel_inv k -> caller k cur cth -> - 2 ^ 31 <= msec <= 2147482 -> msec <> 0 -> a ∉ (address <$> waiting_list q) ->
  (wflag q = RT_WQ_FLAG_WAKEUP -> rt_wqueue_wait a 0 msec q k = Some (mk_wqueue RT_WQ_FLAG_CLEAN (waiting_list q), k, Done 0)) /\
  (wflag q = RT_WQ_FLAG_CLEAN -> exists k',
     rt_wqueue_wait a 0 msec q k = Some (mk_wqueue RT_WQ_FLAG_CLEAN (waiting_list q ++ [mk_node a cur __wqueue_default_wake]), k', Blocked cur) /\
     kernel_inv k' /\ is_Some (rt_current_thread k') /\ sleeping k' cur /\
     (if 0 <? msec then due_of (tsys k') (ThreadTimer cur) = msec /\ ThreadTimer cur ∈ rt_timer_list (tsys k')
      else ThreadTimer cur ∉ rt_timer_list (tsys k')) /\
     (forall u, u <> cur -> sleeping k u -> sleeping k' u)).
Proof.
  intros Hk Hca Hms Hnz Ha. unfold rt_wqueue_wait. rewrite (in_thread_context_caller k cur cth Hca). cbn [mbind option_bind].
  rewrite rt_tick_from_millisecond_range by lia. replace (msec <=? 2147482) with true by (symmetry; apply Z.leb_le; lia).
  assert (exists tick, (if msec <? 0 then Some RT_WAITING_FOREVER else Some msec) = Some tick /\ tick <> 0 /\
    (tick = RT_WAITING_FOREVER \/ 0 <= tick < HALF) /\ (0 <? msec) = negb (tick =? RT_WAITING_FOREVER) /\ (0 < msec -> tick = msec))
    as (tick & -> & Htz & Hr & Eb & Em).
  { destruct (Z.ltb_spec msec 0); eexists.
    - split_and!; [done|done|by left| |lia]. rewrite Z.eqb_refl. cbn [negb]. apply Z.ltb_ge. lia.
    - split_and!; [done|lia|right; change HALF with 2147483647; lia| |done].
      rewrite (proj2 (Z.ltb_lt 0 msec)) by lia. symmetry. apply negb_true_iff, Z.eqb_neq. unfold RT_WAITING_FOREVER. lia. }
  cbn [mbind option_bind]. rewrite (proj2 (Z.eqb_neq tick 0) Htz). cbn [negb orb Z.eqb]. split; intros Ef; rewrite Ef.
  - rewrite Z.eqb_refl. unfold rt_wqueue_remove. cbn [wflag waiting_list]. by rewrite unlinked_absent by done.
  - change (RT_WQ_FLAG_CLEAN =? RT_WQ_FLAG_WAKEUP) with false. cbn match. unfold rt_wqueue_add. cbn [address].
    rewrite bool_decide_true by done. cbn [RT_ASSERT mbind option_bind]. rewrite Ef.
    destruct (suspend_schedule_spec k cur cth tick Hk Hca Hr) as (k1 & k2 & k' & E1 & E2 & E3 & Hk' & Hc' & Ht' & Htm & Hoth & _).
    rewrite E1. cbn [mbind option_bind]. rewrite E2. cbn [mbind option_bind]. rewrite E3. cbn [mbind option_bind].
    exists k'. split_and!; try done; [by eexists|]. rewrite Eb. destruct (negb (tick =? RT_WAITING_FOREVER)) eqn:Et; [|done].
    rewrite <- Em by (by apply Z.ltb_lt; rewrite Eb). done.
Qed.

(** ** Theorems *)

(** A wake-up before rt_wqueue_wait makes it return at once; otherwise the
    caller is suspended, with its timer started for the given time, and in
    whatever kernel state the wake-up comes while it sleeps, it is made
    ready, its timer is stopped, and the wait ends with the queue as it was. *)
Theorem wakeup_not_lost a msec key k cur cth :
  kernel_inv k -> caller k cur cth -> - 2 ^ 31 <= msec <= 2147482 -> msec <> 0 ->
  (exists q1, rt_wqueue_wakeup key rt_wqueue_init k = Some (q1, k) /\
     rt_wqueue_wait a 0 msec q1 k = Some (rt_wqueue_init, k, Done 0)) /\
  (exists q1 k1, rt_wqueue_wait a 0 msec rt_wqueue_init k = Some (q1, k1, Blocked cur) /\ kernel_inv k1 /\
     is_Some (rt_current_thread k1) /\ sleeping k1 cur /\
     (if 0 <? msec then due_of (tsys k1) (ThreadTimer cur) = msec /\ ThreadTimer cur ∈ rt_timer_list (tsys k1)
      else ThreadTimer cur ∉ rt_timer_list (tsys k1)) /\
     forall k2, kernel_inv k2 -> is_Some (rt_current_thread k2) -> sleeping k2 cur ->
       exists q3 k3, rt_wqueue_wakeup key q1 k2 = Some (q3, k3) /\ kernel_inv k3 /\ runnable k3 cur /\
         ThreadTimer cur ∉ rt_timer_list (tsys k3) /\ rt_wqueue_wait_resume a q3 = (rt_wqueue_init, Done 0)).
Proof.
  intros Hk Hca Hms Hnz.
  destruct (rt_wqueue_wait_spec a msec (mk_wqueue RT_WQ_FLAG_WAKEUP []) k cur cth Hk Hca Hms Hnz) as [H1 _]; [by apply not_elem_of_nil|].
  destruct (rt_wqueue_wait_spec a msec rt_wqueue_init k cur cth Hk Hca Hms Hnz) as [_ H2]; [by apply not_elem_of_nil|].
  split; [exists (mk_wqueue RT_WQ_FLAG_WAKEUP []); split; [done|by apply H1]|].
  destruct (H2 eq_refl) as (k1 & E & Hk1 & Hc1 & Hs1 & Htm & _). do 2 eexists. split; [exact E|]. split_and!; try done.
  intros k2 Hk2 Hc2 Hs2.
  destruct (rt_wqueue_wakeup_spec key (mk_wqueue RT_WQ_FLAG_CLEAN [mk_node a cur __wqueue_default_wake]) k2 Hk2 Hc2)
    as (q3 & k3 & E3 & Hk3 & _ & _ & (xs & ys & Ex & Ey & Hr & Ht & _)); [apply NoDup_singleton|by intros n [= <-]|].
  exists q3, k3. split_and!; try done. unfold rt_wqueue_wait_resume, rt_wqueue_remove. cbn [wflag waiting_list].
  cbn in Ex. destruct xs as [|? [|]]; [|done..]. injection Ex as <-. by rewrite Ey.
Qed.

Lemma wakeup_not_lost_witness : exists q k, rt_wqueue_wait 100 0 5 rt_wqueue_init sample_ipc = Some (q, k, Blocked 1).
Proof.
  destruct sample_ipc_caller as [th Hca].
  destruct (wakeup_not_lost 100 5 0 sample_ipc 1 th sample_ipc_inv Hca ltac:(lia) ltac:(lia)) as [_ (q & k & E & _)]. by exists q, k.
Defined.

(** [m] wake-ups, one after the other. *)
Fixpoint wakeups (m : nat) (key : Z) (q : rt_wqueue) (k : kernel) : option (rt_wqueue * kernel) :=
  match m with
  | O => Some (q, k)
  | S m => '(q, k) ← rt_wqueue_wakeup key q k; wakeups m key q k
  end.

(** Threads that all sleep in the queue and accept the key. *)
Record asleep (key : Z) (q : rt_wqueue) (k : kernel) : Prop := {
  as_nodes : NoDup (address <$> waiting_list q);
  as_threads : NoDup (polling_thread <$> waiting_list q);
  as_sleep : Forall (fun n => sleeping k (polling_thread n) /\ wakeup n key = 0) (waiting_list q);
}.

Lemma wakeup_head key n l f k :
  kernel_inv k -> is_Some (rt_current_thread k) -> asleep key (mk_wqueue f (n :: l)) k ->
  exists k', rt_wqueue_wakeup key (mk_wqueue f (n :: l)) k = Some (mk_wqueue RT_WQ_FLAG_WAKEUP l, k') /\ kernel_inv k' /\
    is_Some (rt_current_thread k') /\ asleep key (mk_wqueue RT_WQ_FLAG_WAKEUP l) k' /\ runnable k' (polling_thread n) /\
    (forall u, u <> polling_thread n -> runnable k u -> runnable k' u).
Proof.
  intros Hk Hcur [H1 H2 H3]. cbn [waiting_list] in *. apply Forall_cons in H3 as [[Hs Hw] H3].
  assert (wakeup_loop key (n :: l) = Some n) as El by (cbn; by rewrite Hw).
  destruct (rt_wqueue_wakeup_spec key (mk_wqueue f (n :: l)) k Hk Hcur H1) as ([f' l'] & k' & E & Hk' & Hc' & Hf & Hm).
  { cbn [waiting_list]. intros n' En. rewrite El in En. by injection En as <-. }
  cbn [waiting_list wflag] in *. rewrite El in Hm. destruct Hm as (xs & ys & Ex & -> & Hr & _ & Hsl & Hru). subst f'.
  assert (xs ++ ys = l) as El2.
  { rewrite fmap_cons in H1. apply NoDup_cons in H1 as [Hni _]. destruct xs as [|x xs]; [by injection Ex as ->|].
    injection Ex as <- ->. exfalso. apply Hni. rewrite fmap_app. apply elem_of_app. right. constructor. }
  rewrite El2 in E. exists k'. split_and!; try done. rewrite fmap_cons in H1, H2. apply NoDup_cons in H1 as [_ H1], H2 as [Hni H2].
  constructor; cbn [waiting_list]; [done|done|]. apply Forall_forall. intros m Hm. rewrite Forall_forall in H3. destruct (H3 m Hm) as [Hsm Hwm].
  split; [|done]. apply Hsl; [|done]. intros E2. apply Hni. rewrite <- E2. by apply list_elem_of_fmap_2.
Qed.

Lemma wakeups_spec m : forall key q k,
  kernel_inv k -> is_Some (rt_current_thread k) -> asleep key q k -> (m <= length (waiting_list q))%nat ->
  exists q' k', wakeups m key q k = Some (q', k') /\ kernel_inv k' /\ waiting_list q' = drop m (waiting_list q) /\ asleep key q' k' /\
    Forall (fun n => runnable k' (polling_thread n)) (take m (waiting_list q)) /\
    (forall u, u ∉ (polling_thread <$> waiting_list q) -> runnable k u -> runnable k' u).
Proof.
  induction m as [|m IH]; intros key q k Hk Hcur Ha Hm.
  - exists q, k. by split_and!.
  - destruct q as [f [|n l]]; [cbn in Hm; lia|]. destruct (wakeup_head key n l f k Hk Hcur Ha) as (k1 & E1 & Hk1 & Hc1 & Ha1 & Hr1 & Ho1).
    cbn [wakeups]. rewrite E1. cbn [mbind option_bind].
    destruct (IH key (mk_wqueue RT_WQ_FLAG_WAKEUP l) k1 Hk1 Hc1 Ha1) as (q' & k' & E & Hk' & El & Ha' & Hr & Ho); [cbn in *; lia|].
    exists q', k'. cbn [waiting_list take drop] in *. pose proof (as_threads _ _ _ Ha) as Hnd. cbn [waiting_list] in Hnd.
    rewrite fmap_cons in Hnd |- *. apply NoDup_cons in Hnd as [Hni _]. split_and!; try done.
    + constructor; [by apply Ho|done].
    + intros u [Hu1 Hu2]%not_elem_of_cons Hu. apply Ho; [done|]. by apply Ho1.
Qed.

(** Of threads that sleep in a wait queue and accept the key, m wake-ups
    make exactly the m that have waited longest ready, in order; the others
    stay asleep and queued. *)
Theorem wakeups_in_order m key q k :
  kernel_inv k -> is_Some (rt_current_thread k) -> asleep key q k -> (m <= length (waiting_list q))%nat ->
  exists q' k', wakeups m key q k = Some (q', k') /\ kernel_inv k' /\ waiting_list q' = drop m (waiting_list q) /\ asleep key q' k' /\
    Forall (fun n => runnable k' (polling_thread n)) (take m (waiting_list q)).
Proof.
  intros Hk Hcur Ha Hm. destruct (wakeups_spec m key q k Hk Hcur Ha Hm) as (q' & k' & E & Hk' & El & Ha' & Hr & _).
  exists q', k'. by split_and!.
Qed.

(** Threads 1 and 2 of the sample kernel wait one after the other, the first for one
    millisecond. *)
Definition two_waiters : option (rt_wqueue * kernel) :=
  '(q, k, _) ← rt_wqueue_wait 101 0 1 rt_wqueue_init sample_ipc;
  '(q, k, _) ← rt_wqueue_wait 102 0 (-1) q k;
  Some (q, k).

Definition asleepb (key : Z) (q : rt_wqueue) (k : kernel) : bool :=
  bool_decide (NoDup (address <$> waiting_list q)) && bool_decide (NoDup (polling_thread <$> waiting_list q)) &&
  forallb (fun n => bool_decide (stat <$> threads k !! polling_thread n = Some RT_THREAD_SUSPEND) && (wakeup n key =? 0)) (waiting_list q).

Lemma asleepb_true key q k : asleepb key q k = true -> asleep key q k.
Proof.
  intros [[H1%bool_decide_eq_true H2%bool_decide_eq_true]%andb_true_iff H3]%andb_true_iff. constructor; [done..|].
  rewrite forallb_forall in H3. apply Forall_forall. intros n Hn. specialize (H3 n ltac:(by apply list_elem_of_In)).
  apply andb_true_iff in H3 as [H4%bool_decide_eq_true H5%Z.eqb_eq]. split; [|done].
  destruct (threads k !! polling_thread n) as [th|] eqn:E; [|done]. injection H4 as H4. by exists th.
Qed.

Lemma two_waiters_asleep :
  exists q k, two_waiters = Some (q, k) /\ kernel_inv k /\ is_Some (rt_current_thread k) /\ asleep 0 q k /\ length (waiting_list q) = 2%nat.
Proof.
  destruct sample_ipc_caller as [th Hca].
  destruct (rt_wqueue_wait_spec 101 1 rt_wqueue_init sample_ipc 1 th sample_ipc_inv Hca ltac:(lia) ltac:(lia)) as [_ H1]; [by apply not_elem_of_nil|].
  destruct (H1 eq_refl) as (k1 & E1 & Hk1 & _). change (waiting_list rt_wqueue_init ++ ?x) with x in E1.
  assert ((fun r => callerb r.1.2 2) <$> rt_wqueue_wait 101 0 1 rt_wqueue_init sample_ipc = Some true) as Hc by (by vm_compute).
  rewrite E1 in Hc. cbn in Hc. injection Hc as Hc. destruct (callerb_true _ _ Hc) as [th2 Hca2].
  assert (102 ∉ (address <$> [mk_node 101 1 __wqueue_default_wake])) as Ha by (apply not_elem_of_cons; split; [done|by apply not_elem_of_nil]).
  destruct (rt_wqueue_wait_spec 102 (-1) (mk_wqueue RT_WQ_FLAG_CLEAN [mk_node 101 1 __wqueue_default_wake]) k1 2 th2 Hk1 Hca2 ltac:(lia) ltac:(lia) Ha)
    as [_ H2].
  destruct (H2 eq_refl) as (k2 & E2 & Hk2 & Hc2 & _).
  assert ((fun r => asleepb 0 r.1 r.2) <$> two_waiters = Some true) as Hs by (by vm_compute).
  assert (two_waiters = Some (mk_wqueue RT_WQ_FLAG_CLEAN [mk_node 101 1 __wqueue_default_wake; mk_node 102 2 __wqueue_default_wake], k2)) as E.
  { unfold two_waiters. rewrite E1. cbn [mbind option_bind]. by rewrite E2. }
  rewrite E in Hs. cbn [fst snd fmap option_fmap option_map] in Hs. injection Hs as Hs.
  eexists _, k2. refine (conj E (conj Hk2 (conj Hc2 (conj _ eq_refl)))). apply asleepb_true, Hs.
Qed.

Lemma wakeups_in_order_witness :
  exists q k q' k', two_waiters = Some (q, k) /\ wakeups 1 0 q k = Some (q', k') /\ waiting_list q' = drop 1 (waiting_list q).
Proof.
  destruct two_waiters_asleep as (q & k & E & Hk & Hc & Ha & Hl).
  destruct (wakeups_in_order 1 0 q k Hk Hc Ha ltac:(lia)) as (q' & k' & Ew & _ & El & _).
  exists q, k, q', k'. exact (conj E (conj Ew El)).
Defined.

(** A wake-up is lost if the first waiter's time is over and it has not run yet: it
    is taken for that thread, which cannot be resumed, and while that thread clears the
    flag the second one sleeps on. *)
Example timed_out_waiter_takes_wakeup :
  ('(q, k) ← two_waiters;
   k ← SysTick_Handler no_callback k;
   '(q, k) ← rt_wqueue_wakeup 0 q k;
   let '(q, _) := rt_wqueue_wait_resume 101 q in
   th ← threads k !! 2;
   Some (wflag q, polling_thread <$> waiting_list q, stat th)) = Some (0, [2], RT_THREAD_SUSPEND).
Proof. by vm_compute. Qed.

End WaitQueue.
