(* ===== verification/WorkQueue.v ===== *)
(** * Work queues

    [components/drivers/src/workqueue.c]: a thread that executes the works other
    threads queue.  Its semaphore is the kernel object [o]; a work is named by a
    number and is linked into at most one list.  The loop of the worker is cut at the
    places where interrupts are on or another thread may run. *)

From S2P Require Import Prelude RtList Timer KService Sched SchedInv ThreadOps Ipc Sem.
Import RtList Timer KService Sched SchedInv ThreadOps Ipc Sem.

Module WorkQueue.

(** ** Data and operations *)

Record rt_workqueue := mk_workqueue {
  work_list : list Z;
  work_current : option Z;
  wsem : rt_semaphore;
  work_thread : Z;
}.

Definition set_work_list (l : list Z) (q : rt_workqueue) : rt_workqueue := mk_workqueue l (work_current q) (wsem q) (work_thread q).
Definition set_work_current (w : option Z) (q : rt_workqueue) : rt_workqueue := mk_workqueue (work_list q) w (wsem q) (work_thread q).
Definition set_wsem (s : rt_semaphore) (q : rt_workqueue) : rt_workqueue := mk_workqueue (work_list q) (work_current q) s (work_thread q).

(** [rt_list_remove] of an initialised work, linked or not. *)
Definition unlink_work (w : Z) (l : list Z) : list Z := filter (fun x => x <> w) l.

(** The queue as [rt_workqueue_create] sets it up, with the thread it creates. *)
Definition workqueue_init (o t : Z) (k : kernel) : rt_workqueue * kernel :=
  let '(s, k) := rt_sem_init o 0 RT_IPC_FLAG_FIFO k in (mk_workqueue [] None s t, k).

(** [_workqueue_work_completion]: release the semaphore until it can be taken. *)
Fixpoint completion_loop (fuel : nat) (o : Z) (s : rt_semaphore) (k : kernel) : option (rt_semaphore * kernel * Z) :=
  match fuel with
  | O => None
  | S fuel =>
      '(s, k, r) ← rt_sem_trytake o s k;
      match r with
      | Done e =>
          if e =? - RT_ETIMEOUT then '(s, k, _) ← rt_sem_release o s k; completion_loop fuel o s k
          else if e =? RT_EOK then Some (s, k, RT_EOK)
          else Some (s, k, - RT_ERROR)
      | Blocked _ => None
      end
  end.

Definition _workqueue_work_completion (o : Z) (q : rt_workqueue) (k : kernel) : option (rt_workqueue * kernel * Z) :=
  let k := rt_enter_critical k in
  xs ← lists k !! LSuspend o;
  '(s, k, e) ← completion_loop (length xs + 2) o (wsem q) k;
  k ← rt_exit_critical k;
  Some (set_wsem s q, k, e).

(** The worker thread: the test of the list, the call that suspends the worker, the
    section that takes a work, and what follows the work function. *)
Definition worker_idle (q : rt_workqueue) : bool := bool_decide (work_list q = []).

Definition worker_suspend (k : kernel) : option kernel :=
  t ← rt_thread_self k;
  '(k, _) ← rt_thread_suspend t k;
  rt_schedule k.

(** An empty list makes the code take the list head for a work. *)
Definition worker_take (q : rt_workqueue) : option (Z * rt_workqueue) :=
  match work_list q with
  | [] => None
  | w :: l => Some (w, set_work_current (Some w) (set_work_list l q))
  end.

Definition worker_done (o : Z) (q : rt_workqueue) (k : kernel) : option (rt_workqueue * kernel) :=
  let q := set_work_current None q in
  '(q, k, _) ← _workqueue_work_completion o q k;
  Some (q, k).

(** The section with interrupts off; the flag tells whether the worker is woken. *)
Definition enqueue_work (w : Z) (q : rt_workqueue) : rt_workqueue * Z * bool :=
  if bool_decide (work_current q = Some w) then (q, - RT_EBUSY, false)
  else (set_work_list (unlink_work w (work_list q) ++ [w]) q, RT_EOK, bool_decide (work_current q = None)).

Definition wake_worker (q : rt_workqueue) (k : kernel) : option kernel :=
  '(k, _) ← rt_thread_resume (work_thread q) k;
  rt_schedule k.

Definition rt_workqueue_dowork (w : Z) (q : rt_workqueue) (k : kernel) : option (rt_workqueue * kernel * Z) :=
  let '(q, e, wake) := enqueue_work w q in
  k ← (if wake : bool then wake_worker q k else Some k);
  Some (q, k, e).

Definition rt_workqueue_critical_work (w : Z) (q : rt_workqueue) (k : kernel) : option (rt_workqueue * kernel * Z) :=
  let '(q, e, wake) := enqueue_work w q in
  k ← (if wake : bool then wake_worker q k else Some k);
  Some (q, k, e).

Definition rt_workqueue_cancel_work (w : Z) (q : rt_workqueue) : rt_workqueue * Z :=
  if bool_decide (work_current q = Some w) then (q, - RT_EBUSY)
  else (set_work_list (unlink_work w (work_list q)) q, RT_EOK).

(** [rt_sem_take] switches away where [rt_hw_interrupt_enable] lets it. *)
Definition rt_workqueue_cancel_work_sync (o w : Z) (q : rt_workqueue) (k : kernel) : option (rt_workqueue * kernel * ipc_result) :=
  if bool_decide (work_current q = Some w) then
    '(s, k, r) ← rt_sem_take o RT_WAITING_FOREVER (wsem q) k;
    Some (set_wsem s q, k, match r with Done _ => Done RT_EOK | Blocked t => Blocked t end)
  else Some (set_work_list (unlink_work w (work_list q)) q, k, Done RT_EOK).

(** After the switch back. *)
Definition rt_workqueue_cancel_work_sync_resume : ipc_result := Done RT_EOK.

(** The loop unlinks every node. *)
Fixpoint cancel_loop (l : list Z) (q : rt_workqueue) : rt_workqueue :=
  match l with
  | [] => q
  | w :: l => cancel_loop l (set_work_list (unlink_work w (work_list q)) q)
  end.

Definition rt_workqueue_cancel_all_work (q : rt_workqueue) (k : kernel) : option (rt_workqueue * kernel * Z) :=
  let k := rt_enter_critical k in
  let q := cancel_loop (work_list q) q in
  k ← rt_exit_critical k;
  Some (q, k, RT_EOK).

(** ** Lemmas *)

Lemma schedule_locked k : rt_scheduler_lock_nest k <> 0 -> rt_schedule k = Some k.
Proof. intros Hn. unfold rt_schedule. by rewrite (proj2 (Z.eqb_neq _ _) Hn). Qed.

Lemma woken_sleeping t k k' u : woken t k k' -> u <> t -> sleeping k u -> sleeping k' u.
Proof. intros Hwk Hne (th & Ht & Hs). exists th. by rewrite (wk_threads _ _ _ Hwk), lookup_alter_ne. Qed.

Lemma woken_runnable t k k' u : woken t k k' -> runnable k u -> runnable k' u.
Proof.
  intros Hwk (th & Ht & Hs). unfold runnable. rewrite (wk_threads _ _ _ Hwk), lookup_alter.
  case_decide; [subst; rewrite Ht; eexists; split; [done|]|by exists th]. unfold resumed_stat. cbn. case_bool_decide; auto.
Qed.

Lemma woken_now t k k' : woken t k k' -> is_Some (threads k !! t) -> runnable k' t.
Proof.
  intros Hwk [th Ht]. eexists. rewrite (wk_threads _ _ _ Hwk), lookup_alter_eq, Ht. split; [done|].
  unfold resumed_stat. cbn. case_bool_decide; auto.
Qed.

(** With the scheduler locked, the loop wakes the waiters one by one, then raises the
    value to one and takes it back. *)
Lemma completion_loop_spec o xs : forall s k,
  kernel_inv k -> rt_scheduler_lock_nest k <> 0 -> value s = 0 -> lists k !! LSuspend o = Some xs ->
  exists k', completion_loop (length xs + 2) o s k = Some (s, k', RT_EOK) /\ kernel_inv k' /\ lists k' !! LSuspend o = Some [] /\
    rt_current_thread k' = rt_current_thread k /\ rt_scheduler_lock_nest k' = rt_scheduler_lock_nest k /\
    Forall (runnable k') xs /\ (forall u, runnable k u -> runnable k' u) /\ (forall u, u ∉ xs -> sleeping k u -> sleeping k' u).
Proof.
  induction xs as [|t xs IH]; intros s k Hk Hlock Hv Hl.
  - exists k. split_and!; try done. destruct s as [v fl st]. cbn in Hv. subst v.
    cbn [length Nat.add completion_loop]. unfold rt_sem_trytake, rt_sem_take. cbn [value Z.ltb Z.compare Z.eqb mbind option_bind].
    rewrite Z.eqb_refl. unfold rt_sem_release. rewrite Hl. cbn [mbind option_bind]. rewrite bool_decide_false by (intros H; by apply H).
    cbn [mbind option_bind completion_loop]. unfold rt_sem_trytake, rt_sem_take. by cbn.
  - destruct (ipc_list_resume_spec k (LSuspend o) t xs Hk) as (k1 & E1 & Hwk & Hl1 & _); [done..|].
    destruct (IH s k1) as (k' & E & Hk' & Hl' & Hc & Hlk & Hf & Hr & Hsl); [apply Hwk|by rewrite (wk_lock _ _ _ Hwk)|done|done|].
    destruct (waiter_suspended k (LSuspend o) (t :: xs) t Hk) as (th & Ht & _); [done|done|left|].
    exists k'. split_and!; try done.
    + cbn [length Nat.add completion_loop]. unfold rt_sem_trytake at 1, rt_sem_take at 1. rewrite Hv. cbn [Z.ltb Z.compare Z.eqb mbind option_bind].
      rewrite Z.eqb_refl. unfold rt_sem_release. rewrite Hl. cbn [mbind option_bind]. rewrite bool_decide_true by done. rewrite E1.
      cbn [mbind option_bind]. rewrite schedule_locked by (by rewrite (wk_lock _ _ _ Hwk)). cbn [mbind option_bind]. exact E.
    + by rewrite Hc, (wk_current _ _ _ Hwk).
    + by rewrite Hlk, (wk_lock _ _ _ Hwk).
    + constructor; [|done]. apply Hr. eapply woken_now; [exact Hwk|by rewrite Ht].
    + intros u Hu. apply Hr. by eapply woken_runnable.
    + intros u [H1 H2]%not_elem_of_cons Hu. apply Hsl; [done|]. by eapply woken_sleeping.
Qed.

Lemma sched_runnable k k' u : sched_frame k k' -> runnable k u -> runnable k' u.
Proof. intros Hsf (th & Ht & Hs). destruct (sched_frame_runnable k k' u th Hsf Ht Hs) as (s & E & H). by eexists. Qed.

Lemma sched_sleeping k k' u : sched_frame k k' -> sleeping k u -> sleeping k' u.
Proof. intros Hsf (th & Ht & Hs). exists th. split; [|done]. by eapply sched_frame_suspended. Qed.

Lemma work_completion_spec o q k xs :
  kernel_inv k -> is_Some (rt_current_thread k) -> rt_scheduler_lock_nest k = 0 -> value (wsem q) = 0 -> lists k !! LSuspend o = Some xs ->
  exists k', _workqueue_work_completion o q k = Some (q, k', RT_EOK) /\ kernel_inv k' /\ is_Some (rt_current_thread k') /\
    lists k' !! LSuspend o = Some [] /\ Forall (runnable k') xs /\ (forall u, runnable k u -> runnable k' u) /\
    (forall u, u ∉ xs -> sleeping k u -> sleeping k' u).
Proof.
  intros Hk Hcur Hlock Hv Hl. unfold _workqueue_work_completion. set (k0 := rt_enter_critical k).
  assert (rt_scheduler_lock_nest k0 = 1) as Hl0 by (cbn; by rewrite Hlock).
  change (lists k0) with (lists k). rewrite Hl. cbn [mbind option_bind].
  destruct (completion_loop_spec o xs (wsem q) k0) as (k1 & E & Hk1 & Hl1 & Hc & Hlk & Hf & Hr & Hs);
    [by apply set_lock_nest_inv|by rewrite Hl0|done|done|].
  rewrite E. cbn [mbind option_bind]. unfold rt_exit_critical. rewrite Hlk, Hl0. change (i16 (1 - 1)) with 0.
  change (rt_scheduler_lock_nest (set_lock_nest 0 k1) <=? 0) with true. cbn match. change (set_lock_nest 0 (set_lock_nest 0 k1)) with (set_lock_nest 0 k1).
  assert (is_Some (rt_current_thread (set_lock_nest 0 k1))) as Hc1 by (cbn; rewrite Hc; done).
  assert (kernel_inv (set_lock_nest 0 k1)) as Hk2 by (by apply set_lock_nest_inv).
  destruct (schedule_inv _ Hk2 Hc1) as (k' & E2 & Hk'). pose proof (schedule_frame _ _ Hk2 Hc1 E2) as Hsf.
  rewrite E2. cbn [mbind option_bind]. exists k'. split; [by destruct q|]. split_and!; [done| | | | |].
  - exact (schedule_current _ _ Hk2 Hc1 E2).
  - by rewrite (sf_waits _ _ Hsf).
  - eapply Forall_impl; [exact Hf|]. intros u Hu. by eapply (sched_runnable (set_lock_nest 0 k1)).
  - intros u Hu. eapply (sched_runnable (set_lock_nest 0 k1)); [done|]. by apply Hr.
  - intros u Hn Hu. eapply (sched_sleeping (set_lock_nest 0 k1)); [done|]. by apply Hs.
Qed.

(** A thread that is neither being set up nor closed. *)
Definition alive (k : kernel) (t : Z) : Prop := runnable k t \/ sleeping k t.

Lemma alive_thread k t : alive k t -> is_Some (threads k !! t).
Proof. intros [(th & -> & _)|(th & -> & _)]; by eexists. Qed.

(** Waking the worker makes it runnable and takes it from no list but its own. *)
Lemma wake_worker_spec q k :
  kernel_inv k -> is_Some (rt_current_thread k) -> alive k (work_thread q) ->
  exists k', wake_worker q k = Some k' /\ kernel_inv k' /\ is_Some (rt_current_thread k') /\ runnable k' (work_thread q) /\
    (forall u, alive k u -> alive k' u) /\ (forall h, is_wait h -> is_Some (lists k !! h) -> is_Some (lists k' !! h)).
Proof.
  intros Hk Hcur [(th & Ht & Hs)|(th & Ht & Hs)]; unfold wake_worker.
  - unfold rt_thread_resume. rewrite Ht. cbn [mbind option_bind]. rewrite bool_decide_true by (destruct Hs; congruence). cbn [mbind option_bind].
    destruct (schedule_inv k Hk Hcur) as (k' & E & Hk'). pose proof (schedule_frame _ _ Hk Hcur E) as Hsf. exists k'. split_and!; try done.
    + exact (schedule_current _ _ Hk Hcur E).
    + eapply sched_runnable; [exact Hsf|]. by exists th.
    + intros u [Hu|Hu]; [left; by eapply sched_runnable|right; by eapply sched_sleeping].
    + intros h Hw Hh. by rewrite (sf_waits _ _ Hsf).
  - destruct (resume_schedule_spec k _ th Hk Hcur Ht Hs) as (k1 & k' & s & E1 & E2 & Hk' & Hc' & Ht' & Hrun & _ & Hsl & Hr & Hli).
    rewrite E1. cbn [mbind option_bind]. assert (runnable k' (work_thread q)) as Hrq by (by eexists). exists k'. split_and!; try done.
    + intros u Hu. destruct (decide (u = work_thread q)) as [->|Hne]; [by left|]. destruct Hu; [left; by apply Hr|right; by apply Hsl].
    + intros h Hw Hh. rewrite Hli by done. by apply fmap_is_Some.
Qed.

(** ** Histories *)

(** What happens to the queue, and the queue as its users understand it: the works
    that wait, in order, and the one that is executed. *)
Inductive wq_event := Submitted (w : Z) | Cancelled (w : Z) | CancelledAll | Started (w : Z) | Finished.

Definition spec_step (e : wq_event) (st : list Z * option Z) : option (list Z * option Z) :=
  let '(pending, running) := st in
  match e with
  | Submitted w => if bool_decide (running = Some w) then None else Some (unlink_work w pending ++ [w], running)
  | Cancelled w => if bool_decide (running = Some w) then None else Some (unlink_work w pending, running)
  | CancelledAll => Some ([], running)
  | Started w => if bool_decide (running = None /\ head pending = Some w) then Some (tail pending, Some w) else None
  | Finished => if bool_decide (running = None) then None else Some (pending, None)
  end.

Fixpoint spec_run (log : list wq_event) (st : list Z * option Z) : option (list Z * option Z) :=
  match log with
  | [] => Some st
  | e :: log => st ← spec_step e st; spec_run log st
  end.

(** Executions of the code.  The worker tests the list and suspends itself in one step;
    between two works it does not block elsewhere, while a work function may. *)
Inductive wq_trace (o : Z) : list wq_event -> rt_workqueue -> kernel -> Prop :=
| tr_init t k q k' : kernel_inv k -> is_Some (rt_current_thread k) -> lists k !! LSuspend o = None -> alive k t ->
    workqueue_init o t k = (q, k') -> wq_trace o [] q k'
| tr_submit log q k w q' k' e : wq_trace o log q k -> rt_workqueue_dowork w q k = Some (q', k', e) ->
    wq_trace o (if e =? RT_EOK then log ++ [Submitted w] else log) q' k'
| tr_cancel log q k w q' e : wq_trace o log q k -> rt_workqueue_cancel_work w q = (q', e) ->
    wq_trace o (if e =? RT_EOK then log ++ [Cancelled w] else log) q' k
| tr_cancel_all log q k q' k' e : wq_trace o log q k -> rt_workqueue_cancel_all_work q k = Some (q', k', e) ->
    wq_trace o (log ++ [CancelledAll]) q' k'
| tr_cancel_sync log q k cur cth w q' k' r : wq_trace o log q k -> caller k cur cth -> cur <> work_thread q ->
    rt_workqueue_cancel_work_sync o w q k = Some (q', k', r) ->
    wq_trace o (if bool_decide (work_current q = Some w) then log else log ++ [Cancelled w]) q' k'
| tr_start log q k cth w q' : wq_trace o log q k -> caller k (work_thread q) cth -> work_current q = None ->
    worker_take q = Some (w, q') -> wq_trace o (log ++ [Started w]) q' k
| tr_finish log q k cth q' k' : wq_trace o log q k -> caller k (work_thread q) cth -> rt_scheduler_lock_nest k = 0 ->
    work_current q <> None -> worker_done o q k = Some (q', k') -> wq_trace o (log ++ [Finished]) q' k'
| tr_sleep log q k cth k' : wq_trace o log q k -> caller k (work_thread q) cth -> work_current q = None ->
    worker_idle q = true -> worker_suspend k = Some k' -> wq_trace o log q k'
| tr_other log q k k' : wq_trace o log q k -> kernel_inv k' -> is_Some (rt_current_thread k') -> alive k' (work_thread q) ->
    is_Some (lists k' !! LSuspend o) -> (work_current q = None -> runnable k (work_thread q) -> runnable k' (work_thread q)) ->
    wq_trace o log q k'.

Record wq_inv (o : Z) (log : list wq_event) (q : rt_workqueue) (k : kernel) : Prop := {
  wi_kernel : kernel_inv k;
  wi_current : is_Some (rt_current_thread k);
  wi_thread : alive k (work_thread q);
  wi_sem : value (wsem q) = 0 /\ flag (wsem q) = RT_IPC_FLAG_FIFO /\ is_Some (lists k !! LSuspend o);
  wi_log : spec_run log ([], None) = Some (work_list q, work_current q);
  wi_nodup : NoDup (work_list q) /\ (forall w, work_current q = Some w -> w ∉ work_list q);
  wi_awake : work_current q = None -> work_list q <> [] -> runnable k (work_thread q);
}.

Lemma spec_run_snoc log e st : spec_run (log ++ [e]) st = (st ← spec_run log st; spec_step e st).
Proof.
  revert st. induction log as [|e' log IH]; intros st; cbn [app spec_run].
  - cbn [mbind option_bind]. by destruct (spec_step e st).
  - destruct (spec_step e' st) as [st'|]; [|done]. apply IH.
Qed.

Lemma unlink_work_nodup w l : NoDup l -> NoDup (unlink_work w l).
Proof. apply NoDup_filter. Qed.

Lemma elem_unlink w x l : x ∈ unlink_work w l <-> x <> w /\ x ∈ l.
Proof. unfold unlink_work. by rewrite list_elem_of_filter. Qed.

(** A blocking take keeps every other runnable thread runnable. *)
Lemma sem_block_frame o s k cur cth :
  kernel_inv k -> caller k cur cth -> value s = 0 -> flag s = RT_IPC_FLAG_FIFO -> is_Some (lists k !! LSuspend o) ->
  exists k', rt_sem_take o RT_WAITING_FOREVER s k = Some (s, k', Blocked cur) /\ kernel_inv k' /\ is_Some (rt_current_thread k') /\
    is_Some (lists k' !! LSuspend o) /\ (forall u, u <> cur -> runnable k u -> runnable k' u) /\ (forall u, u <> cur -> sleeping k u -> sleeping k' u).
Proof.
  intros Hk Hca Hv Hf [xs Hx]. unfold rt_sem_take. rewrite Hv. cbn [Z.ltb Z.compare].
  change (RT_WAITING_FOREVER =? 0) with false. cbn match. rewrite (in_thread_context_caller k cur cth Hca). cbn [mbind option_bind].
  set (k0 := upd_thread cur (set_error RT_EOK) k). pose proof (caller_error k cur cth RT_EOK Hca) as Hca0. fold k0 in Hca0.
  assert (kernel_inv k0) as Hk0 by (by apply kernel_upd_same).
  pose proof Hca0 as [Hc0 Ht0 Hr0 _].
  destruct (wait_on_spec k0 (LSuspend o) cur (set_error RT_EOK cth) (flag s) RT_WAITING_FOREVER xs Hk0) as (ys & zs & k1 & E1 & _ & _ & Hwa & _);
    [done|exact Ht0|by right|done|by left|done|].
  rewrite E1. cbn [mbind option_bind]. pose proof (wa_inv _ _ _ _ _ _ Hwa) as Hk1.
  assert (is_Some (rt_current_thread k1)) as Hc1 by (rewrite (wa_current _ _ _ _ _ _ Hwa), Hc0; by eexists).
  destruct (schedule_inv k1 Hk1 Hc1) as (k' & E2 & Hk'). pose proof (schedule_frame _ _ Hk1 Hc1 E2) as Hsf. rewrite E2. cbn [mbind option_bind].
  exists k'. split_and!; try done.
  - exact (schedule_current _ _ Hk1 Hc1 E2).
  - rewrite (sf_waits _ _ Hsf) by done. rewrite (wa_list _ _ _ _ _ _ Hwa). by eexists.
  - intros u Hne (th & Ht & Hs). eapply sched_runnable; [exact Hsf|]. exists th.
    rewrite (wa_threads _ _ _ _ _ _ Hwa). cbn. by rewrite !lookup_alter_ne by done.
  - intros u Hne (th & Ht & Hs). eapply sched_sleeping; [exact Hsf|]. exists th.
    rewrite (wa_threads _ _ _ _ _ _ Hwa). cbn. by rewrite !lookup_alter_ne by done.
Qed.

Lemma enqueue_nodup w l : NoDup l -> NoDup (unlink_work w l ++ [w]).
Proof.
  intros H. apply NoDup_app. split_and!; [by apply unlink_work_nodup| |apply NoDup_singleton].
  intros x [Hx _]%elem_unlink ->%list_elem_of_singleton. done.
Qed.

Lemma submit_inv o log q k w :
  wq_inv o log q k ->
  exists q' k' e, rt_workqueue_dowork w q k = Some (q', k', e) /\ wq_inv o (if e =? RT_EOK then log ++ [Submitted w] else log) q' k' /\
    e = (if bool_decide (work_current q = Some w) then - RT_EBUSY else RT_EOK).
Proof.
  intros [Hk Hc Ht (Hs1 & Hs2 & Hs3) Hlog [Hnd Hcur] Haw]. unfold rt_workqueue_dowork, enqueue_work.
  case_bool_decide as Ew; cbn [mbind option_bind]; [by exists q, k, (- RT_EBUSY)|].
  set (q' := set_work_list (unlink_work w (work_list q) ++ [w]) q).
  assert (spec_run (log ++ [Submitted w]) ([], None) = Some (work_list q', work_current q')) as Hlog'.
  { rewrite spec_run_snoc, Hlog. cbn [mbind option_bind spec_step]. by rewrite bool_decide_false. }
  assert (NoDup (work_list q') /\ forall x, work_current q' = Some x -> x ∉ work_list q') as Hnd'.
  { split; [by apply enqueue_nodup|]. cbn. intros x Ex [Hx%elem_unlink|Hx%list_elem_of_singleton]%elem_of_app; [by eapply Hcur; [|apply Hx]|congruence]. }
  case_bool_decide as En.
  - destruct (wake_worker_spec q' k Hk Hc Ht) as (k' & E & Hk' & Hc' & Hr & Hal & Hli). rewrite E. cbn [mbind option_bind].
    exists q', k', RT_EOK. split; [done|]. split; [|done]. constructor; try done; [by left|]. split_and!; [done..|by apply Hli].
  - exists q', k, RT_EOK. by split_and!.
Qed.

Lemma cancel_inv o log q k w q' :
  wq_inv o log q k -> work_current q <> Some w -> q' = set_work_list (unlink_work w (work_list q)) q -> wq_inv o (log ++ [Cancelled w]) q' k.
Proof.
  intros [Hk Hc Ht Hs Hlog [Hnd Hcur] Haw] Ew ->. constructor; try done.
  - rewrite spec_run_snoc, Hlog. cbn [mbind option_bind spec_step]. by rewrite bool_decide_false.
  - split; [by apply unlink_work_nodup|]. cbn. intros x Ex [_ Hx]%elem_unlink. by eapply Hcur.
  - cbn. intros En Hl. apply Haw; [done|]. by intros E; rewrite E in Hl.
Qed.

Lemma cancel_loop_spec l : forall q, (forall x, x ∈ work_list q -> x ∈ l) -> cancel_loop l q = set_work_list [] q.
Proof.
  induction l as [|w l IH]; intros q Hl; cbn [cancel_loop].
  - destruct q as [[|x wl] c s t]; [done|]. exfalso. eapply not_elem_of_nil, Hl. left.
  - rewrite IH; [done|]. cbn. intros x [Hne Hx]%elem_unlink. by apply Hl, elem_of_cons in Hx as [|].
Qed.

(** A critical section that touches no thread. *)
Lemma critical_frame k :
  kernel_inv k -> is_Some (rt_current_thread k) ->
  exists k', rt_exit_critical (rt_enter_critical k) = Some k' /\ kernel_inv k' /\ is_Some (rt_current_thread k') /\
    (forall u, runnable k u -> runnable k' u) /\ (forall u, sleeping k u -> sleeping k' u) /\ (forall h, is_wait h -> lists k' !! h = lists k !! h).
Proof.
  intros Hk Hc. unfold rt_exit_critical. set (k1 := set_lock_nest _ _). assert (kernel_inv k1) as Hk1 by (by do 2 apply set_lock_nest_inv).
  destruct (rt_scheduler_lock_nest k1 <=? 0); [|by exists k1].
  assert (kernel_inv (set_lock_nest 0 k1)) as Hk2 by (by apply set_lock_nest_inv).
  destruct (schedule_inv _ Hk2 Hc) as (k' & E & Hk'). pose proof (schedule_frame _ _ Hk2 Hc E) as Hsf. exists k'. split_and!; try done.
  - exact (schedule_current _ _ Hk2 Hc E).
  - intros u Hu. by eapply (sched_runnable (set_lock_nest 0 k1)).
  - intros u Hu. by eapply (sched_sleeping (set_lock_nest 0 k1)).
  - intros h Hw. by rewrite (sf_waits _ _ Hsf).
Qed.

Lemma cancel_all_inv o log q k :
  wq_inv o log q k -> exists k', rt_workqueue_cancel_all_work q k = Some (set_work_list [] q, k', RT_EOK) /\ wq_inv o (log ++ [CancelledAll]) (set_work_list [] q) k'.
Proof.
  intros [Hk Hc Ht (Hs1 & Hs2 & Hs3) Hlog [Hnd Hcur] Haw]. unfold rt_workqueue_cancel_all_work.
  destruct (critical_frame k Hk Hc) as (k' & E & Hk' & Hc' & Hr & Hsl & Hli). rewrite E. cbn [mbind option_bind].
  rewrite cancel_loop_spec by done. exists k'. split; [done|]. constructor; try done.
  - destruct Ht; [left; by apply Hr|right; by apply Hsl].
  - split_and!; [done|done|by rewrite Hli].
  - rewrite spec_run_snoc, Hlog. done.
  - split; [constructor|]. cbn. intros w _. by apply not_elem_of_nil.
Qed.

Lemma cancel_sync_inv o log q k cur cth w :
  wq_inv o log q k -> caller k cur cth -> cur <> work_thread q ->
  exists q' k' r, rt_workqueue_cancel_work_sync o w q k = Some (q', k', r) /\
    wq_inv o (if bool_decide (work_current q = Some w) then log else log ++ [Cancelled w]) q' k'.
Proof.
  intros Hi Hca Hne. unfold rt_workqueue_cancel_work_sync. case_bool_decide as Ew; [|by do 3 eexists; split; [done|eapply cancel_inv]].
  destruct Hi as [Hk Hc Ht (Hs1 & Hs2 & Hs3) Hlog Hnd Haw].
  destruct (sem_block_frame o (wsem q) k cur cth Hk Hca Hs1 Hs2 Hs3) as (k' & E & Hk' & Hc' & Hl' & Hr & Hsl).
  rewrite E. cbn [mbind option_bind]. do 3 eexists. split; [done|]. destruct q as [l c s t]. constructor; try done; cbn in *.
  - destruct Ht; [left; by apply Hr|right; by apply Hsl].
  - intros En Hl. apply Hr; [done|]. by apply Haw.
Qed.

Lemma start_inv o log q k cth w q' :
  wq_inv o log q k -> caller k (work_thread q) cth -> work_current q = None -> worker_take q = Some (w, q') ->
  wq_inv o (log ++ [Started w]) q' k.
Proof.
  intros [Hk Hc Ht Hs Hlog [Hnd Hcur] Haw] _ En. unfold worker_take. destruct (work_list q) as [|w' l] eqn:El; [done|].
  intros [= -> <-]. apply NoDup_cons in Hnd as [Hni Hnd]. constructor; try done.
  - rewrite spec_run_snoc, Hlog, En. cbn [mbind option_bind spec_step]. by rewrite bool_decide_true.
  - split; [done|]. by intros x [= <-].
Qed.

Lemma finish_inv o log q k cth :
  wq_inv o log q k -> caller k (work_thread q) cth -> rt_scheduler_lock_nest k = 0 -> work_current q <> None ->
  exists k', worker_done o q k = Some (set_work_current None q, k') /\ wq_inv o (log ++ [Finished]) (set_work_current None q) k' /\
    lists k' !! LSuspend o = Some [] /\ (forall xs u, lists k !! LSuspend o = Some xs -> u ∈ xs -> runnable k' u).
Proof.
  intros [Hk Hc Ht (Hs1 & Hs2 & [xs Hx]) Hlog [Hnd Hcur] Haw] [Hcc Hct Hcr _] Hlock En. unfold worker_done.
  destruct (work_completion_spec o (set_work_current None q) k xs Hk Hc Hlock Hs1 Hx) as (k' & E & Hk' & Hc' & Hl' & Hf & Hr & _).
  rewrite E. cbn [mbind option_bind]. exists k'. assert (runnable k' (work_thread q)) as Hrun by (apply Hr; exists cth; auto).
  split; [done|]. split_and!; [|done|].
  - constructor; [done|done|by left| | |by split|done].
    + split_and!; [done|done|rewrite Hl'; by eexists].
    + rewrite spec_run_snoc, Hlog. cbn [mbind option_bind spec_step]. by rewrite bool_decide_false.
  - intros ys u Hy Hu. rewrite Hx in Hy. injection Hy as <-. rewrite Forall_forall in Hf. by apply Hf.
Qed.

Lemma sleep_step_inv o log q k cth :
  wq_inv o log q k -> caller k (work_thread q) cth -> worker_idle q = true ->
  exists k', worker_suspend k = Some k' /\ wq_inv o log q k' /\ sleeping k' (work_thread q).
Proof.
  intros [Hk Hc Ht (Hs1 & Hs2 & Hs3) Hlog Hnd Haw] Hca Hid%bool_decide_eq_true. unfold worker_suspend.
  destruct (suspend_schedule_spec k _ cth RT_WAITING_FOREVER Hk Hca) as (k1 & k2 & k' & E1 & E2 & E3 & Hk' & Hc' & Ht' & _ & _ & Hli); [by left|].
  injection E2 as <-. unfold rt_thread_self. rewrite (ca_current _ _ _ Hca). cbn [mbind option_bind]. rewrite E1. cbn [mbind option_bind].
  assert (sleeping k' (work_thread q)) as Hsl by (by eexists). exists k'. split; [done|]. split; [|done]. constructor; try done; [by right|].
  split_and!; [done..|]. rewrite Hli by done. by apply fmap_is_Some.
Qed.

Lemma wq_trace_inv o log q k : wq_trace o log q k -> wq_inv o log q k.
Proof.
  induction 1 as [t k q k' Hk Hc Hn Ht E|log q k w q' k' e _ IH E|log q k w q' e _ IH E|log q k q' k' e _ IH E
    |log q k cur cth w q' k' r _ IH Hca Hne E|log q k cth w q' _ IH Hca En E|log q k cth q' k' _ IH Hca Hl Hn E
    |log q k cth k' _ IH Hca Hn Hid E|log q k k' _ [Hk Hc Ht Hs Hlog Hnd Haw] Hk' Hc' Ht' Hl' Hr].
  - injection E as <- <-. constructor; try done; [by apply object_init_inv|by split_and!; [..|eexists; apply lookup_insert_eq]|by split; [constructor|]].
  - destruct (submit_inv o log q k w IH) as (q2 & k2 & e2 & E2 & H & _). rewrite E2 in E. by injection E as <- <- <-.
  - unfold rt_workqueue_cancel_work in E. case_bool_decide as Ew; injection E as <- <-; [done|]. by eapply cancel_inv.
  - destruct (cancel_all_inv o log q k IH) as (k2 & E2 & H). rewrite E2 in E. by injection E as <- <- <-.
  - destruct (cancel_sync_inv o log q k cur cth w IH Hca Hne) as (q2 & k2 & r2 & E2 & H). rewrite E2 in E. by injection E as <- <- <-.
  - by eapply start_inv.
  - destruct (finish_inv o log q k cth IH Hca Hl Hn) as (k2 & E2 & H & _). rewrite E2 in E. by injection E as <- <-.
  - destruct (sleep_step_inv o log q k cth IH Hca Hid) as (k2 & E2 & H & _). rewrite E2 in E. by injection E as <-.
  - constructor; try done; [by destruct Hs as (? & ? & _)|]. intros En Hl. apply Hr; [done|]. by apply Haw.
Qed.

(** Without cancellations, and if no work is submitted twice, works are executed in the
    order of submission and none is left out. *)
Fixpoint submitted (log : list wq_event) : list Z :=
  match log with [] => [] | Submitted w :: log => w :: submitted log | _ :: log => submitted log end.
Fixpoint started (log : list wq_event) : list Z :=
  match log with [] => [] | Started w :: log => w :: started log | _ :: log => started log end.
Definition no_cancel (log : list wq_event) : Prop :=
  Forall (fun e => match e with Cancelled _ | CancelledAll => False | _ => True end) log.

Lemma submitted_snoc log e : submitted (log ++ [e]) = submitted log ++ match e with Submitted w => [w] | _ => [] end.
Proof. induction log as [|[] log IH]; cbn [app submitted]; rewrite ?IH; by destruct e. Qed.

Lemma started_snoc log e : started (log ++ [e]) = started log ++ match e with Started w => [w] | _ => [] end.
Proof. induction log as [|[] log IH]; cbn [app started]; rewrite ?IH; by destruct e. Qed.

Lemma unlink_absent w l : w ∉ l -> unlink_work w l = l.
Proof. apply filter_absent. Qed.

Lemma spec_fifo log : forall p r,
  no_cancel log -> NoDup (submitted log) -> spec_run log ([], None) = Some (p, r) -> started log ++ p = submitted log.
Proof.
  induction log as [|e log IH] using rev_ind; intros p r Hnc Hnd; [by intros [= <- _]|].
  apply Forall_app in Hnc as [Hnc He]. apply Forall_cons in He as [He _]. rewrite submitted_snoc in Hnd |- *. apply NoDup_app in Hnd as (Hnd & Hdj & _).
  rewrite spec_run_snoc, started_snoc. destruct (spec_run log ([], None)) as [[p' r']|]; [|done]. specialize (IH p' r' Hnc Hnd eq_refl).
  cbn [mbind option_bind spec_step]. destruct e as [w|w| |w|]; cbn in He; [|by destruct He|by destruct He| |]; case_bool_decide as Hc; try done; intros [= <- <-].
  - rewrite app_nil_r, app_assoc. f_equal. rewrite unlink_absent; [done|]. intros Hw. apply (Hdj w); [|left]. rewrite <- IH. apply elem_of_app. by right.
  - destruct Hc as [_ Hh]. destruct p' as [|x p']; [done|]. injection Hh as ->. by rewrite <- app_assoc, app_nil_r.
  - by rewrite !app_nil_r.
Qed.

(** ** Theorems *)


(** Thread 2 of the sample kernel, which is ready, is the worker. *)
Definition sample_queue : rt_workqueue * kernel := workqueue_init 7 2 sample.

Lemma sample_queue_trace : wq_trace 7 [] sample_queue.1 sample_queue.2.
Proof.
  eapply (tr_init 7 2 sample); [apply sample_inv|by vm_compute; eexists|by vm_compute| |by destruct sample_queue eqn:E].
  destruct (threads sample !! 2) as [th|] eqn:E; [|by vm_compute in E]. left. exists th. split; [done|]. left.
  assert (stat <$> threads sample !! 2 = Some RT_THREAD_READY) as Es by (by vm_compute). rewrite E in Es. by injection Es.
Qed.


(** When a work function returns, the loop that releases the semaphore until
    it can be taken ends: all threads that wait for the work in
    rt_workqueue_cancel_work_sync are made ready, and the semaphore is 0 as
    before. *)
Theorem work_completion_wakes_all o log q k cth xs :
  wq_trace o log q k -> caller k (work_thread q) cth -> rt_scheduler_lock_nest k = 0 -> work_current q <> None ->
  lists k !! LSuspend o = Some xs ->
  exists k', worker_done o q k = Some (set_work_current None q, k') /\ kernel_inv k' /\ value (wsem q) = 0 /\
    lists k' !! LSuspend o = Some [] /\ Forall (runnable k') xs.
Proof.
  intros Htr Hca Hl Hn Hx. pose proof (wq_trace_inv _ _ _ _ Htr) as Hi.
  destruct (finish_inv o log q k cth Hi Hca Hl Hn) as (k' & E & Hi' & Hl' & Hr). exists k'. split_and!; [done|apply Hi'|apply Hi|done|].
  apply Forall_forall. intros u Hu. by eapply Hr.
Qed.

(** The sample queue with work 5 started. *)
Definition started_queue : option (rt_workqueue * kernel) :=
  '(q, k, _) ← rt_workqueue_dowork 5 sample_queue.1 sample_queue.2;
  '(_, q) ← worker_take q;
  Some (q, k).

Definition start_check (q : rt_workqueue) (k : kernel) : bool :=
  callerb k (work_thread q) && bool_decide (work_current q = None).

Lemma worker_take_frame q w q' : worker_take q = Some (w, q') -> work_thread q' = work_thread q /\ work_current q' <> None.
Proof. unfold worker_take. destruct (work_list q); [done|]. by intros [= <- <-]. Qed.

Lemma started_queue_trace : exists log q k cth,
  started_queue = Some (q, k) /\ wq_trace 7 log q k /\ caller k (work_thread q) cth /\ work_current q <> None.
Proof.
  destruct (rt_workqueue_dowork 5 sample_queue.1 sample_queue.2) as [[[q k] e]|] eqn:E; [|by vm_compute in E].
  pose proof (tr_submit 7 [] _ _ 5 q k e sample_queue_trace E) as Htr.
  assert ((fun r => start_check r.1.1 r.1.2) <$> rt_workqueue_dowork 5 sample_queue.1 sample_queue.2 = Some true) as Hc by (vm_compute; reflexivity).
  assert ((fun r => bool_decide (is_Some (worker_take r.1.1))) <$> rt_workqueue_dowork 5 sample_queue.1 sample_queue.2 = Some true) as Hw by (vm_compute; reflexivity).
  rewrite E in Hc, Hw. cbn [fmap option_fmap option_map fst snd] in Hc, Hw. injection Hc as Hc. injection Hw as Hw. apply bool_decide_eq_true in Hw as [[w q'] Ew].
  apply andb_true_iff in Hc as [Hca Hn%bool_decide_eq_true]. destruct (callerb_true _ _ Hca) as [cth Hcth].
  pose proof (tr_start 7 _ q k cth w q' Htr Hcth Hn Ew) as Htr2.
  destruct (worker_take_frame q w q' Ew) as [Et Hcu].
  assert (started_queue = Some (q', k)) as Es.
  { unfold started_queue. rewrite E. cbn [mbind option_bind]. rewrite Ew. reflexivity. }
  eexists _, q', k, cth. rewrite Et. exact (conj Es (conj Htr2 (conj Hcth Hcu))).
Qed.

Lemma work_completion_wakes_all_witness :
  exists q k k', started_queue = Some (q, k) /\ worker_done 7 q k = Some (set_work_current None q, k') /\ lists k' !! LSuspend 7 = Some [].
Proof.
  destruct started_queue_trace as (log & q & k & cth & Es & Htr & Hca & Hn).
  assert ((fun r => bool_decide (rt_scheduler_lock_nest r.2 = 0)) <$> started_queue = Some true) as Hl by (vm_compute; reflexivity).
  assert ((fun r => bool_decide (lists r.2 !! LSuspend 7 = Some [])) <$> started_queue = Some true) as Hx by (vm_compute; reflexivity).
  rewrite Es in Hl, Hx. cbn [fmap option_fmap option_map fst snd] in Hl, Hx. injection Hl as Hl. injection Hx as Hx. apply bool_decide_eq_true in Hl, Hx.
  destruct (work_completion_wakes_all 7 log q k cth [] Htr Hca Hl Hn Hx) as (k' & E & _ & _ & El & _).
  exists q, k, k'. exact (conj Es (conj E El)).
Defined.

(** ** Races *)

(** A work that is submitted after the worker has found the list empty and before it has
    suspended itself is not executed: the worker is not suspended yet, so that it cannot be
    resumed, and sleeps with the work in the list. *)
Example work_left_in_queue :
  (let '(q, k) := sample_queue in
   k ← rt_schedule k;
   '(q, k, e) ← (if worker_idle q then rt_workqueue_dowork 5 q k else None);
   k ← rt_schedule k;
   k ← worker_suspend k;
   th ← threads k !! work_thread q;
   Some (e, work_list q, stat th)) = Some (RT_EOK, [5], RT_THREAD_SUSPEND).
Proof. by vm_compute. Qed.

(** A work that is submitted and cancelled before the worker runs again wakes the worker
    to an empty list, whose head it takes for a work. *)
Example worker_takes_list_head :
  (let '(q, k) := sample_queue in
   k ← rt_schedule k;
   k ← worker_suspend k;
   '(q, k, _) ← rt_workqueue_dowork 5 q (rt_enter_critical k);
   let '(q, e) := rt_workqueue_cancel_work 5 q in
   th ← threads k !! work_thread q;
   Some (e, stat th, worker_take q)) = Some (RT_EOK, RT_THREAD_READY, None).
Proof. by vm_compute. Qed.

(** Critical work is not executed before the work that waits already. *)
Example critical_work_is_last :
  (let '(q, k) := sample_queue in
   '(q, k, _) ← rt_workqueue_dowork 5 q k;
   '(q, k, _) ← rt_workqueue_critical_work 6 q k;
   Some (work_list q)) = Some [5; 6].
Proof. by vm_compute. Qed.

End WorkQueue.
