(* ===== verification/Serial.v ===== *)
(** * Serial devices

    [components/drivers/serial/serial.c]: received characters go through a software
    FIFO that the interrupt handler fills and [read] empties (interrupt mode), through
    the circular buffer of a DMA channel, or are polled; transmission is polled.  The
    functions of the UART driver are an interface, [UartOps].

    [drv_usart.c] registers every UART without interrupt-driven or DMA transmission, so
    that [rt_serial_open] refuses these modes and [serial_tx] stays null; the model is
    restricted to such devices, which [polled_tx] checks. *)

From S2P Require Import Prelude RtList Objects Devices.
Import Devices.

Module Serial.

Definition RT_EIO : Z := 8.
Definition RT_DEVICE_FLAG_SUSPENDED : Z := 0x020.
Definition RT_DEVICE_FLAG_INT_RX : Z := 0x100.
Definition RT_DEVICE_FLAG_DMA_RX : Z := 0x200.
Definition RT_DEVICE_FLAG_INT_TX : Z := 0x400.
Definition RT_DEVICE_FLAG_DMA_TX : Z := 0x800.
Definition RT_DEVICE_CTRL_RESUME : Z := 0x01.
Definition RT_DEVICE_CTRL_SUSPEND : Z := 0x02.
Definition RT_DEVICE_CTRL_CONFIG : Z := 0x03.
Definition RT_DEVICE_CTRL_SET_INT : Z := 0x10.
Definition RT_DEVICE_CTRL_CLR_INT : Z := 0x11.
Definition RT_SERIAL_EVENT_RX_IND : Z := 1.
Definition RT_SERIAL_EVENT_TX_DONE : Z := 2.
Definition RT_SERIAL_EVENT_RX_DMADONE : Z := 3.
Definition RT_SERIAL_EVENT_TX_DMADONE : Z := 4.
Definition RT_SERIAL_DMA_RX : Z := 1.

(** ** Data *)

Record serial_configure := mk_config {
  baud_rate : Z; data_bits : Z; stop_bits : Z; parity : Z; bit_order : Z; invert : Z;
  bufsz : Z;   (** 16 bits *)
}.

Record rt_serial_rx_fifo := mk_fifo {
  buffer : list Z;     (** rt_uint8_t *)
  put_index : Z;       (** rt_uint16_t *)
  get_index : Z;       (** rt_uint16_t *)
  is_full : bool;
}.

(** What [serial_rx] points to; [RxDma] is [struct rt_serial_rx_dma]. *)
Inductive serial_rx := RxNull | RxFifo (f : rt_serial_rx_fifo) | RxDma (activated : bool).

(** The functions of the UART driver on the hardware [W], and the heap. *)
Class UartOps (W : Type) := {
  configure : option (serial_configure -> W -> Z * W);
  control : Z -> Z -> W -> Z * W;
  putc : Z -> W -> Z * W;
  getc : W -> Z * W;                      (** -1: no character *)
  dma_transmit : option (Z -> Z -> W -> W); (** length and direction *)
  uart_malloc : Z -> W -> bool * W;       (** [rt_malloc]; whether it succeeded *)
  uart_free : W -> W;                     (** [rt_free] *)
  config_at : Z -> W -> serial_configure; (** the structure at an address *)
}.

Section serial.

Context {W : Type} `{!UartOps W}.

Record rt_serial_device := mk_serial {
  config : serial_configure;
  rx : serial_rx;
  hw : W;
}.

Notation device := (rt_device rt_serial_device).

Definition set_user (s : rt_serial_device) (d : device) : device :=
  mk_device _ (dflag d) (open_flag d) (ref_count d) (rx_indicate d) (tx_complete d) s.
Definition set_hw (w : W) (s : rt_serial_device) : rt_serial_device := mk_serial (config s) (rx s) w.
Definition set_rx (r : serial_rx) (s : rt_serial_device) : rt_serial_device := mk_serial (config s) r (hw s).

Definition drop_flag (f x : Z) : Z := Z.land x (Z.lnot f).

(** [serial->ops->control], its result ignored. *)
Definition do_control (cmd arg : Z) (s : rt_serial_device) : rt_serial_device := set_hw (control cmd arg (hw s)).2 s.

(** ** The receive FIFO *)

Definition in_buffer (i : Z) (f : rt_serial_rx_fifo) : bool := (0 <=? i) && (i <? zlen (buffer f)).

(** [index += 1; if (index >= bufsz) index = 0]. *)
Definition next_index (size i : Z) : Z := let i := u16 (i + 1) in if size <=? i then 0 else i.

(** The loop body of the interrupt handler. *)
Definition fifo_put (size ch : Z) (f : rt_serial_rx_fifo) : option rt_serial_rx_fifo :=
  _ ← RT_ASSERT (in_buffer (put_index f) f);
  let buf := zset (buffer f) (put_index f) (u8 ch) in
  let put := next_index size (put_index f) in
  if put =? get_index f then Some (mk_fifo buf put (next_index size (get_index f)) true)
  else Some (mk_fifo buf put (get_index f) (is_full f)).

Fixpoint isr_receive (fuel : nat) (s : rt_serial_device) (f : rt_serial_rx_fifo)
  : option (rt_serial_device * rt_serial_rx_fifo) :=
  match fuel with
  | O => None
  | S fuel =>
      let '(ch, w) := getc (hw s) in
      let s := set_hw w s in
      if ch =? -1 then Some (s, f)
      else f ← fifo_put (bufsz (config s)) ch f; isr_receive fuel s f
  end.

(** [_serial_int_rx]: the characters read. *)
Fixpoint _serial_int_rx (size : Z) (length : nat) (f : rt_serial_rx_fifo) : option (list Z * rt_serial_rx_fifo) :=
  match length with
  | O => Some ([], f)
  | S length =>
      if (get_index f =? put_index f) && negb (is_full f) then Some ([], f)
      else
        _ ← RT_ASSERT (in_buffer (get_index f) f);
        let ch := zget (buffer f) (get_index f) in
        let get := next_index size (get_index f) in
        '(l, f) ← _serial_int_rx size length (mk_fifo (buffer f) (put_index f) get false);
        Some (Z.land ch 0xff :: l, f)
  end.

(** ** The circular buffer of a DMA channel *)

Definition _serial_fifo_calc_recved_len (size : Z) (f : rt_serial_rx_fifo) : Z :=
  if put_index f =? get_index f then (if is_full f then size else 0)
  else if get_index f <? put_index f then u32 (put_index f - get_index f)
  else u32 (size - (get_index f - put_index f)).

Definition rt_dma_recv_update_get_index (size len : Z) (f : rt_serial_rx_fifo) : option rt_serial_rx_fifo :=
  _ ← RT_ASSERT (len <=? _serial_fifo_calc_recved_len size f);
  let full := if is_full f && negb (len =? 0) then false else is_full f in
  let get := u16 (get_index f + len) in
  let get := if size <=? get then get mod size else get in
  Some (mk_fifo (buffer f) (put_index f) get full).

Definition rt_dma_recv_update_put_index (size len : Z) (f : rt_serial_rx_fifo) : rt_serial_rx_fifo :=
  let put := u16 (put_index f + len) in
  let '(put, full) :=
    if get_index f <=? put_index f then
      if size <=? put then
        let put := put mod size in
        (put, if get_index f <=? put then true else is_full f)
      else (put, is_full f)
    else
      if get_index f <=? put then ((if size <=? put then put mod size else put), true)
      else (put, is_full f) in
  let get := if full : bool then put else get_index f in
  let get := if size <=? get then 0 else get in
  mk_fifo (buffer f) put get full.

(** [rt_memcpy] out of the buffer. *)
Definition slice (off n : Z) (f : rt_serial_rx_fifo) : option (list Z) :=
  _ ← RT_ASSERT ((0 <=? off) && (0 <=? n) && (off + n <=? zlen (buffer f)));
  Some (take (Z.to_nat n) (drop (Z.to_nat off) (buffer f))).

(** [_serial_dma_rx]: the count, the characters stored, and the error number if it
    is set.  Without a buffer the data arrive after the call. *)
Definition _serial_dma_rx (length : Z) (s : rt_serial_device) : option (Z * list Z * option Z * rt_serial_device) :=
  let size := bufsz (config s) in
  if size =? 0 then
    match rx s with
    | RxDma activated =>
        if activated then Some (0, [], Some (- RT_EBUSY), s)
        else
          transmit ← dma_transmit;
          Some (length, [], None, mk_serial (config s) (RxDma true) (transmit length RT_SERIAL_DMA_RX (hw s)))
    | _ => None
    end
  else
    match rx s with
    | RxFifo f =>
        let recved := _serial_fifo_calc_recved_len size f in
        let recv_len := if length <? i32 recved then length else recved in
        let get := get_index f in
        data ← (if get + recv_len <? size then slice get recv_len f
                else a ← slice get (size - get) f; b ← slice 0 (recv_len + get - size) f; Some (a ++ b));
        f ← rt_dma_recv_update_get_index size recv_len f;
        Some (recv_len, data, None, set_rx (RxFifo f) s)
    | _ => None
    end.

(** ** Polling *)

Fixpoint _serial_poll_rx (length : nat) (s : rt_serial_device) : list Z * rt_serial_device :=
  match length with
  | O => ([], s)
  | S length =>
      let '(ch, w) := getc (hw s) in
      let s := set_hw w s in
      if ch =? -1 then ([], s)
      else if ch =? 10 then ([u8 ch], s)
      else let '(l, s) := _serial_poll_rx length s in (u8 ch :: l, s)
  end.

Fixpoint _serial_poll_tx (stream : bool) (data : list Z) (s : rt_serial_device) : rt_serial_device :=
  match data with
  | [] => s
  | c :: data =>
      let s := if (c =? 10) && stream then set_hw (putc 13 (hw s)).2 s else s in
      _serial_poll_tx stream data (set_hw (putc c (hw s)).2 s)
  end.

(** ** The device interface *)

Definition rt_serial_init (d : device) : option (Z * device) :=
  let s := set_rx RxNull (user d) in
  match configure with
  | Some conf => let '(result, w) := conf (config s) (hw s) in Some (result, set_user (set_hw w s) d)
  | None => Some (RT_EOK, set_user s d)
  end.

(** No transmission but by polling. *)
Definition polled_tx (d : device) : bool :=
  negb (has RT_DEVICE_FLAG_INT_TX (dflag d)) && negb (has RT_DEVICE_FLAG_DMA_TX (dflag d)).

(** The sizes of [struct rt_serial_rx_fifo] and [struct rt_serial_rx_dma]. *)
Definition fifo_struct : Z := 12.
Definition dma_struct : Z := 4.

Definition new_fifo (size : Z) : rt_serial_rx_fifo := mk_fifo (replicate (Z.to_nat size) 0) 0 0 false.

(** The receive side of [rt_serial_open]; [fl] is [dev->open_flag]. *)
Definition open_rx (oflag fl : Z) (s : rt_serial_device) : option (Z * rt_serial_device) :=
  let size := bufsz (config s) in
  match rx s with
  | RxNull =>
      if has RT_DEVICE_FLAG_INT_RX oflag then
        let '(ok, w) := uart_malloc (fifo_struct + size) (hw s) in
        _ ← RT_ASSERT ok;
        let s := set_rx (RxFifo (new_fifo size)) (set_hw w s) in
        Some (Z.lor fl RT_DEVICE_FLAG_INT_RX, do_control RT_DEVICE_CTRL_SET_INT RT_DEVICE_FLAG_INT_RX s)
      else if has RT_DEVICE_FLAG_DMA_RX oflag then
        if size =? 0 then
          let '(ok, w) := uart_malloc dma_struct (hw s) in
          _ ← RT_ASSERT ok;
          Some (Z.lor fl RT_DEVICE_FLAG_DMA_RX, set_rx (RxDma false) (set_hw w s))
        else
          let '(ok, w) := uart_malloc (fifo_struct + size) (hw s) in
          _ ← RT_ASSERT ok;
          let s := set_rx (RxFifo (new_fifo size)) (set_hw w s) in
          Some (Z.lor fl RT_DEVICE_FLAG_DMA_RX, do_control RT_DEVICE_CTRL_CONFIG RT_DEVICE_FLAG_DMA_RX s)
      else Some (fl, s)
  | _ =>
      Some (if has RT_DEVICE_FLAG_INT_RX oflag then Z.lor fl RT_DEVICE_FLAG_INT_RX
            else if has RT_DEVICE_FLAG_DMA_RX oflag then Z.lor fl RT_DEVICE_FLAG_DMA_RX else fl, s)
  end.

(** [oflag] asks for a mode that the device does not have. *)
Definition refused (f oflag : Z) (d : device) : bool := has f oflag && negb (has f (dflag d)).

Definition rt_serial_open (oflag : Z) (d : device) : option (Z * device) :=
  _ ← RT_ASSERT (polled_tx d);
  if refused RT_DEVICE_FLAG_DMA_RX oflag d || refused RT_DEVICE_FLAG_DMA_TX oflag d
     || refused RT_DEVICE_FLAG_INT_RX oflag d || refused RT_DEVICE_FLAG_INT_TX oflag d
  then Some (- RT_EIO, d)
  else
    let stream_flag :=
      if has RT_DEVICE_FLAG_STREAM oflag || has RT_DEVICE_FLAG_STREAM (open_flag d)
      then RT_DEVICE_FLAG_STREAM else 0 in
    '(fl, s) ← open_rx oflag (Z.land oflag 0xff) (user d);
    Some (RT_EOK, set_open_flag (Z.lor fl stream_flag) (set_user s d)).

Definition rt_serial_close (d : device) : option (Z * device) :=
  if 1 <? ref_count d then Some (RT_EOK, d)
  else if has RT_DEVICE_FLAG_INT_RX (open_flag d) then
    match rx (user d) with
    | RxFifo _ =>
        let s := do_control RT_DEVICE_CTRL_CLR_INT RT_DEVICE_FLAG_INT_RX
                   (set_rx RxNull (set_hw (uart_free (hw (user d))) (user d))) in
        Some (RT_EOK, set_open_flag (drop_flag RT_DEVICE_FLAG_INT_RX (open_flag d)) (set_user s d))
    | _ => None
    end
  else if has RT_DEVICE_FLAG_DMA_RX (open_flag d) then
    _ ← (match rx (user d) with
         | RxFifo _ => RT_ASSERT (negb (bufsz (config (user d)) =? 0))
         | RxDma _ => RT_ASSERT (bufsz (config (user d)) =? 0)
         | RxNull => None
         end);
    let s := set_rx RxNull (do_control RT_DEVICE_CTRL_CLR_INT RT_DEVICE_FLAG_DMA_RX
               (set_hw (uart_free (hw (user d))) (user d))) in
    Some (RT_EOK, set_open_flag (drop_flag RT_DEVICE_FLAG_DMA_RX (open_flag d)) (set_user s d))
  else Some (RT_EOK, d).

Definition rt_serial_read (pos size : Z) (d : device) : option (Z * list Z * option Z * device) :=
  if size =? 0 then Some (0, [], None, d)
  else if has RT_DEVICE_FLAG_INT_RX (open_flag d) then
    match rx (user d) with
    | RxFifo f =>
        '(l, f) ← _serial_int_rx (bufsz (config (user d))) (Z.to_nat size) f;
        Some (zlen l, l, None, set_user (set_rx (RxFifo f) (user d)) d)
    | _ => None
    end
  else if has RT_DEVICE_FLAG_DMA_RX (open_flag d) then
    '(n, l, e, s) ← _serial_dma_rx (i32 size) (user d); Some (n, l, e, set_user s d)
  else let '(l, s) := _serial_poll_rx (Z.to_nat size) (user d) in Some (zlen l, l, None, set_user s d).

Definition rt_serial_write (pos : Z) (data : list Z) (d : device) : option (Z * device) :=
  if zlen data =? 0 then Some (0, d)
  else
    _ ← RT_ASSERT (negb (has RT_DEVICE_FLAG_INT_TX (open_flag d)) && negb (has RT_DEVICE_FLAG_DMA_TX (open_flag d)));
    Some (zlen data, set_user (_serial_poll_tx (has RT_DEVICE_FLAG_STREAM (open_flag d)) data (user d)) d).

(** A different buffer size is refused while the device is open, with a positive
    error code. *)
Definition rt_serial_control (cmd args : Z) (d : device) : option (Z * device) :=
  if cmd =? RT_DEVICE_CTRL_SUSPEND then Some (RT_EOK, set_dflag (Z.lor (dflag d) RT_DEVICE_FLAG_SUSPENDED) d)
  else if cmd =? RT_DEVICE_CTRL_RESUME then Some (RT_EOK, set_dflag (drop_flag RT_DEVICE_FLAG_SUSPENDED (dflag d)) d)
  else if cmd =? RT_DEVICE_CTRL_CONFIG then
    if args =? 0 then Some (RT_EOK, d)
    else
      let c := config_at args (hw (user d)) in
      if negb (bufsz c =? bufsz (config (user d))) && negb (ref_count d =? 0) then Some (RT_EBUSY, d)
      else
        let s := mk_serial c (rx (user d)) (hw (user d)) in
        if negb (ref_count d =? 0) then
          conf ← configure; Some (RT_EOK, set_user (set_hw (conf c (hw s)).2 s) d)
        else Some (RT_EOK, set_user s d)
  else
    let '(ret, w) := control cmd args (hw (user d)) in Some (ret, set_user (set_hw w (user d)) d).

#[export] Instance serial_ops : DeviceOps rt_serial_device := {
  device_init := Some rt_serial_init;
  device_open := Some rt_serial_open;
  device_close := Some rt_serial_close;
  device_read := Some rt_serial_read;
  device_write := Some rt_serial_write;
  device_control := Some rt_serial_control;
}.

(** ** The interrupt handler *)

(** [rt_hw_serial_isr]: the new state, and the length to report through
    [rx_indicate] if that is to be called.  The events of the transmitter follow a
    null pointer, as [serial_tx] is never set.  After a DMA transfer without buffer
    the callback runs before the transfer is marked finished. *)
Definition rt_hw_serial_isr (fuel : nat) (event : Z) (d : device) : option (device * option Z) :=
  let size := bufsz (config (user d)) in
  if Z.land event 0xff =? RT_SERIAL_EVENT_RX_IND then
    match rx (user d) with
    | RxFifo f =>
        '(s, f) ← isr_receive fuel (user d) f;
        let d := set_user (set_rx (RxFifo f) s) d in
        if negb (rx_indicate d =? 0) then
          let rx_length := if get_index f <=? put_index f then u32 (put_index f - get_index f)
                           else u32 (size - (get_index f - put_index f)) in
          Some (d, if negb (rx_length =? 0) then Some rx_length else None)
        else Some (d, None)
    | _ => None
    end
  else if Z.land event 0xff =? RT_SERIAL_EVENT_RX_DMADONE then
    let length := Z.shiftr (Z.land event (Z.lnot 0xff)) 8 in
    if size =? 0 then
      match rx (user d) with
      | RxDma _ =>
          _ ← RT_ASSERT (negb (rx_indicate d =? 0));
          Some (set_user (set_rx (RxDma false) (user d)) d, Some length)
      | _ => None
      end
    else
      match rx (user d) with
      | RxFifo f =>
          let f := rt_dma_recv_update_put_index size length f in
          let length := _serial_fifo_calc_recved_len size f in
          Some (set_user (set_rx (RxFifo f) (user d)) d,
                if negb (rx_indicate d =? 0) then Some length else None)
      | _ => None
      end
  else if (Z.land event 0xff =? RT_SERIAL_EVENT_TX_DONE) || (Z.land event 0xff =? RT_SERIAL_EVENT_TX_DMADONE)
  then None
  else Some (d, None).

End serial.

(** ** The FIFO as a queue *)

Record fifo_ok (size : Z) (f : rt_serial_rx_fifo) : Prop := {
  fo_size : 0 < size < 2 ^ 15;
  fo_len : zlen (buffer f) = size;
  fo_bytes : Forall (fun b => 0 <= b < 256) (buffer f);
  fo_put : 0 <= put_index f < size;
  fo_get : 0 <= get_index f < size;
}.

Definition level (size : Z) (f : rt_serial_rx_fifo) : Z := _serial_fifo_calc_recved_len size f.

(** The characters received and not read, oldest first. *)
Definition contents (size : Z) (f : rt_serial_rx_fifo) : list Z := ring (buffer f) size (get_index f) (level size f).

(** In interrupt mode the indices differ whenever there is something to read. *)
Record int_ok (size : Z) (f : rt_serial_rx_fifo) : Prop := {
  io_fifo : fifo_ok size f;
  io_size : 2 <= size;
  io_full : is_full f = true -> get_index f <> put_index f;
}.

Definition keep_last (n : Z) (l : list Z) : list Z := drop (Z.to_nat (zlen l - n)) l.

Lemma level_range size f : fifo_ok size f -> 0 <= level size f <= size.
Proof.
  intros [Hs Hl Hb Hp Hg]. unfold level, _serial_fifo_calc_recved_len.
  destruct (Z.eqb_spec (put_index f) (get_index f)); [destruct (is_full f); lia|].
  case_bool; rewrite wrapu_small; lia.
Qed.

Lemma level_put size f : fifo_ok size f -> put_index f = (get_index f + level size f) mod size.
Proof.
  intros [Hs Hl Hb Hp Hg]. unfold level, _serial_fifo_calc_recved_len.
  destruct (Z.eqb_spec (put_index f) (get_index f)) as [E|E].
  - rewrite E. destruct (is_full f).
    + rewrite <- (Z.mul_1_l size) at 1. rewrite Z.mod_add by lia. by rewrite Z.mod_small.
    + rewrite Z.add_0_r. by rewrite Z.mod_small.
  - case_bool; rewrite wrapu_small by lia.
    + rewrite Z.mod_small; lia.
    + replace (get_index f + (size - (get_index f - put_index f))) with (put_index f + 1 * size) by lia.
      rewrite Z.mod_add by lia. rewrite Z.mod_small; lia.
Qed.

Lemma level_int size f : int_ok size f -> level size f < size /\ (level size f = 0 <-> get_index f = put_index f).
Proof.
  intros [[Hs Hl Hb Hp Hg] H2 Hf]. unfold level, _serial_fifo_calc_recved_len.
  destruct (Z.eqb_spec (put_index f) (get_index f)) as [E|E].
  - destruct (is_full f); [by destruct (Hf eq_refl)|]. lia.
  - case_bool; rewrite wrapu_small by lia; lia.
Qed.

Lemma next_mod size i : 0 < size < 2 ^ 15 -> 0 <= i < size -> next_index size i = (i + 1) mod size.
Proof. intros Hs Hi. unfold next_index. rewrite wrapu_small by lia. by apply advance_mod. Qed.

(** The level is determined by the two indices. *)
Lemma level_unique size f n :
  fifo_ok size f -> put_index f = (get_index f + n) mod size -> 0 <= n <= size ->
  (n = 0 -> is_full f = false) -> (n = size -> is_full f = true) -> level size f = n.
Proof.
  intros Hf Hp Hn H0 H1. pose proof (level_put size f Hf) as Hl. pose proof (level_range size f Hf) as Hr.
  pose proof (fo_size size f Hf). rewrite Hp in Hl.
  assert ((level size f - n) mod size = 0) as Hm.
  { replace (level size f - n) with ((get_index f + level size f) - (get_index f + n)) by lia.
    rewrite Zminus_mod, <- Hl, Z.sub_diag. by apply Z.mod_0_l; lia. }
  apply Z.mod_divide in Hm as [q Hq]; [|lia].
  assert (q = 0 \/ (q = 1 /\ n = 0) \/ (q = -1 /\ n = size)) as [->|[[-> Hz]|[-> Hz]]] by nia; [lia|..]; exfalso.
  - subst n. rewrite Z.add_0_r in Hp. rewrite Z.mod_small in Hp by apply Hf. unfold level, _serial_fifo_calc_recved_len in Hq.
    rewrite Hp, Z.eqb_refl, H0 in Hq by done. lia.
  - subst n. assert (put_index f = get_index f) as E.
    { rewrite Hp. rewrite <- (Z.mul_1_l size) at 1. rewrite Z.mod_add by lia. apply Z.mod_small, Hf. }
    unfold level, _serial_fifo_calc_recved_len in Hq. rewrite E, Z.eqb_refl, H1 in Hq by done. lia.
Qed.

Lemma contents_len size f : fifo_ok size f -> zlen (contents size f) = level size f.
Proof. intros Hf. apply zlen_ring. by apply level_range. Qed.

Lemma mod_add_0 a n size : 0 < size -> (a + n) mod size = a mod size -> n mod size = 0.
Proof.
  intros Hs E. replace n with (a + n - a) by lia. rewrite Zminus_mod, E, Z.sub_diag. by apply Z.mod_0_l; lia.
Qed.

Lemma in_buffer_ok size f i : fifo_ok size f -> 0 <= i < size -> in_buffer i f = true.
Proof. intros [Hs Hl _ _ _] Hi. unfold in_buffer. rewrite Hl. by rewrite (proj2 (Z.leb_le _ _)), (proj2 (Z.ltb_lt _ _)) by lia. Qed.

(** A received character is appended; with [size - 1] characters unread the oldest
    is lost. *)
Lemma fifo_put_spec size c f :
  int_ok size f ->
  exists f', fifo_put size c f = Some f' /\ int_ok size f' /\
    contents size f' = keep_last (size - 1) (contents size f ++ [u8 c]).
Proof.
  intros Hi. pose proof Hi as [Hf H2 Hfull]. pose proof (level_int size f Hi) as [Hlt _].
  pose proof (level_range size f Hf) as Hr. pose proof (level_put size f Hf) as Hput.
  pose proof (contents_len size f Hf) as Hlen. pose proof Hf as [Hs Hl Hb Hp Hg].
  unfold fifo_put. rewrite (in_buffer_ok size f) by done. cbn [RT_ASSERT mbind option_bind].
  rewrite !next_mod by done. set (L := level size f) in *. set (buf := zset _ _ _).
  set (put := (put_index f + 1) mod size).
  assert (put = (get_index f + (L + 1)) mod size) as Eput.
  { unfold put. rewrite Hput, Zplus_mod_idemp_l. f_equal. lia. }
  pose proof (Z.mod_pos_bound (put_index f + 1) size ltac:(lia)) as Hpb. fold put in Hpb.
  pose proof (Z.mod_pos_bound (get_index f + 1) size ltac:(lia)) as Hgb.
  assert (ring buf size (get_index f) (L + 1) = contents size f ++ [u8 c]) as Hring
    by (unfold buf; rewrite Hput; apply ring_push; [lia|done]).
  assert (forall g full, 0 <= g < size -> fifo_ok size (mk_fifo buf put g full)) as Hok.
  { intros g full Hg'. constructor; cbn; try done; [by unfold buf; rewrite zlen_zset|].
    unfold buf, zset. apply Forall_insert; [done|]. apply wrapu_range. lia. }
  destruct (Z.eqb_spec put (get_index f)) as [E|E].
  - assert (L + 1 = size) as HL.
    { assert ((L + 1) mod size = 0) as Hm.
      { apply (mod_add_0 (get_index f)); [lia|]. rewrite <- Eput, E. by rewrite Z.mod_small. }
      apply Z.mod_divide in Hm as [q Hq]; [|lia]. assert (q = 1) as -> by nia. lia. }
    set (f' := mk_fifo _ _ _ _). assert (fifo_ok size f') as Hf' by (by apply Hok).
    assert (level size f' = L) as El.
    { apply level_unique; [done| |lia|lia|lia]. cbn. rewrite E, Zplus_mod_idemp_l.
      replace (get_index f + 1 + L) with (get_index f + 1 * size) by lia. rewrite Z.mod_add by lia. by rewrite Z.mod_small. }
    eexists. split; [done|]. split.
    + constructor; [done|done|]. intros _. cbn. rewrite E. intros Hc.
      assert (1 mod size = 0) as Hm by (apply (mod_add_0 (get_index f)); [lia|rewrite Hc; by rewrite Z.mod_small]).
      rewrite Z.mod_small in Hm; lia.
    + unfold contents at 1. rewrite El. cbn [buffer get_index f']. rewrite <- Hring.
      unfold keep_last. rewrite zlen_ring by lia. replace (L + 1 - (size - 1)) with 1 by lia.
      rewrite (ring_pop buf size (get_index f) (L + 1)) by lia.
      by replace (L + 1 - 1) with L by lia.
  - set (f' := mk_fifo _ _ _ _). assert (fifo_ok size f') as Hf' by (by apply Hok).
    assert (L + 1 <> size) as HL.
    { intros HL. apply E. rewrite Eput, HL. rewrite <- (Z.mul_1_l size) at 1. rewrite Z.mod_add by lia.
      by rewrite Z.mod_small. }
    assert (level size f' = L + 1) as El by (apply level_unique; [done|done|lia|lia|lia]).
    eexists. split; [done|]. split; [constructor; [done|done|cbn; congruence]|].
    unfold contents at 1. rewrite El. cbn [buffer get_index f']. rewrite Hring. unfold keep_last.
    rewrite zlen_app, Hlen. change (zlen [u8 c]) with 1. by replace (Z.to_nat (L + 1 - (size - 1))) with 0%nat by lia.
Qed.

Lemma int_rx_spec size n : forall f,
  int_ok size f ->
  exists f', _serial_int_rx size n f = Some (take n (contents size f), f') /\ int_ok size f' /\
    contents size f' = drop n (contents size f).
Proof.
  induction n as [|n IH]; intros f Hi; cbn [_serial_int_rx]; [by exists f|].
  pose proof Hi as [Hf H2 Hfull]. pose proof (level_int size f Hi) as [Hlt H0].
  pose proof (level_range size f Hf) as Hr. pose proof (level_put size f Hf) as Hput. pose proof Hf as [Hs Hl Hb Hp Hg].
  destruct (Z.eqb_spec (get_index f) (put_index f)) as [E|E]; cbn [andb].
  - destruct (is_full f) eqn:Ef; [by destruct (Hfull eq_refl)|]. cbn [negb]. exists f.
    assert (contents size f = []) as Hc by (unfold contents; by rewrite (proj2 H0 E)). by rewrite Hc, drop_nil.
  - rewrite (in_buffer_ok size f) by done. cbn [RT_ASSERT mbind option_bind]. rewrite next_mod by done.
    set (f1 := mk_fifo _ _ _ _). pose proof (Z.mod_pos_bound (get_index f + 1) size ltac:(lia)) as Hgb.
    assert (fifo_ok size f1) as Hf1 by (by constructor).
    assert (level size f <> 0) as Hn0 by tauto.
    assert (level size f1 = level size f - 1) as El.
    { apply level_unique; [done| |lia|done|lia]. cbn. rewrite Zplus_mod_idemp_l, Hput. f_equal. lia. }
    destruct (IH f1) as (f' & -> & Hi' & Hc'); [by constructor|]. cbn [mbind option_bind].
    assert (contents size f = zget (buffer f) (get_index f) :: contents size f1) as Hc.
    { unfold contents. rewrite El. apply ring_pop; lia. }
    exists f'. rewrite Hc. cbn [take drop]. split; [|done]. do 3 f_equal.
    change 0xff with (Z.ones 8). rewrite Z.land_ones by lia. apply Z.mod_small.
    apply (Forall_zget _ _ _ Hb). lia.
Qed.

(** ** The DMA buffer as a queue *)

Record dma_ok (size : Z) (f : rt_serial_rx_fifo) : Prop := {
  da_fifo : fifo_ok size f;
  da_full : is_full f = true -> get_index f = put_index f;
}.

(** The channel stores the characters behind the last one, around the end. *)
Fixpoint dma_store (size p : Z) (bs buf : list Z) : list Z :=
  match bs with [] => buf | b :: bs => dma_store size ((p + 1) mod size) bs (zset buf p b) end.

Definition received (size : Z) (bs : list Z) (f : rt_serial_rx_fifo) : rt_serial_rx_fifo :=
  mk_fifo (dma_store size (put_index f) bs (buffer f)) (put_index f) (get_index f) (is_full f).

Lemma keep_last_app n l k : 0 <= n -> keep_last n (keep_last n l ++ k) = keep_last n (l ++ k).
Proof.
  intros Hn. unfold keep_last. rewrite !zlen_app. unfold zlen. rewrite length_drop.
  destruct (Z.le_gt_cases (Z.of_nat (length l)) n) as [H|H].
  - replace (Z.to_nat (Z.of_nat (length l) - n)) with 0%nat by lia. rewrite Nat.sub_0_r. done.
  - set (m := Z.to_nat (Z.of_nat (length l) - n)).
    replace (Z.to_nat (Z.of_nat (length l) + Z.of_nat (length k) - n)) with (m + length k)%nat by lia.
    replace (Z.to_nat (Z.of_nat (length l - m) + Z.of_nat (length k) - n)) with (length k) by lia.
    rewrite <- drop_drop. f_equal. rewrite drop_app. replace (m - length l)%nat with 0%nat by lia. done.
Qed.

Lemma keep_last_all n l : zlen l <= n -> keep_last n l = l.
Proof. intros H. unfold keep_last. by replace (Z.to_nat (zlen l - n)) with 0%nat by lia. Qed.

Lemma dma_store_ok size bs : forall p buf,
  0 < size -> zlen buf = size -> Forall (fun b => 0 <= b < 256) buf -> Forall (fun b => 0 <= b < 256) bs ->
  zlen (dma_store size p bs buf) = size /\ Forall (fun b => 0 <= b < 256) (dma_store size p bs buf).
Proof.
  induction bs as [|b bs IH]; intros p buf Hs Hl Hb Hbs; cbn [dma_store]; [done|].
  apply Forall_cons in Hbs as [Hb1 Hbs]. apply IH; [done|by rewrite zlen_zset| |done].
  unfold zset. by apply Forall_insert.
Qed.

(** One character: appended, over the oldest one if there is no room. *)
Lemma ring_step buf size get L b :
  0 < size -> zlen buf = size -> 0 <= get < size -> 0 <= L <= size ->
  exists get1 L1, 0 <= get1 < size /\ L1 = Z.min size (L + 1) /\ (L < size -> get1 = get) /\
    (get1 + L1) mod size = ((get + L) mod size + 1) mod size /\
    ring (zset buf ((get + L) mod size) b) size get1 L1 = keep_last size (ring buf size get L ++ [b]).
Proof.
  intros Hs Hl Hg HL. rewrite Zplus_mod_idemp_l. destruct (Z.eq_dec L size) as [->|Hne].
  - pose proof (Z.mod_pos_bound (get + 1) size ltac:(lia)) as Hgb. exists ((get + 1) mod size), size.
    split; [done|]. split; [lia|]. split; [lia|]. split; [rewrite Zplus_mod_idemp_l; f_equal; lia|].
    replace ((get + size) mod size) with (((get + 1) mod size + (size - 1)) mod size)
      by (rewrite Zplus_mod_idemp_l; f_equal; lia).
    pose proof (ring_push buf size ((get + 1) mod size) (size - 1) b ltac:(lia) Hl) as Hpush.
    replace (size - 1 + 1) with size in Hpush by lia. rewrite Hpush.
    unfold keep_last. rewrite zlen_app, zlen_ring by lia. change (zlen [b]) with 1.
    replace (size + 1 - size) with 1 by lia. rewrite (ring_pop buf size get size) by lia. done.
  - exists get, (L + 1). split; [done|]. split; [lia|]. split; [done|]. split; [f_equal; lia|].
    rewrite ring_push by (done || lia). rewrite keep_last_all; [done|].
    rewrite zlen_app, zlen_ring by lia. change (zlen [b]) with 1. lia.
Qed.

Lemma dma_store_ring size bs : forall buf get L,
  0 < size -> zlen buf = size -> 0 <= get < size -> 0 <= L <= size ->
  exists get' L', 0 <= get' < size /\ L' = Z.min size (L + zlen bs) /\ (L + zlen bs <= size -> get' = get) /\
    (get' + L') mod size = ((get + L) mod size + zlen bs) mod size /\
    ring (dma_store size ((get + L) mod size) bs buf) size get' L' = keep_last size (ring buf size get L ++ bs).
Proof.
  induction bs as [|b bs IH]; intros buf get L Hs Hl Hg HL; cbn [dma_store].
  - change (zlen (@nil Z)) with 0. exists get, L. rewrite app_nil_r, keep_last_all by (rewrite zlen_ring; lia).
    split; [done|]. split; [lia|]. split; [done|]. split; [|done]. by rewrite Z.add_0_r, Zmod_mod.
  - destruct (ring_step buf size get L b Hs Hl Hg HL) as (g1 & L1 & Hg1 & HL1 & Hk & Em & Er). rewrite <- Em.
    destruct (IH (zset buf ((get + L) mod size) b) g1 L1) as (g2 & L2 & Hg2 & HL2 & Hk2 & Em2 & Er2);
      [done|by rewrite zlen_zset|done|lia|].
    pose proof (zlen_nonneg bs) as Hz. assert (zlen (b :: bs) = 1 + zlen bs) as Hb by (unfold zlen; cbn; lia).
    exists g2, L2. split; [done|]. rewrite Hb. split; [lia|].
    split; [intros H; rewrite Hk2 by lia; apply Hk; lia|].
    split; [by rewrite Em2, Em, Zplus_mod_idemp_l, <- Z.add_assoc|].
    rewrite Er2, Er, keep_last_app by lia. by rewrite <- app_assoc.
Qed.

Lemma update_put_spec size n f :
  dma_ok size f -> 0 <= n <= size ->
  let f' := rt_dma_recv_update_put_index size n f in
  let full := size <=? level size f + n in
  buffer f' = buffer f /\ put_index f' = (put_index f + n) mod size /\
  get_index f' = (if full then (put_index f + n) mod size else get_index f) /\ is_full f' = full.
Proof.
  intros [[Hs Hl Hb Hp Hg] Hfull] Hn. cbn zeta. unfold rt_dma_recv_update_put_index.
  rewrite (wrapu_small 16) by lia.
  assert (forall x, size <= x < 2 * size -> x mod size = x - size) as Hwrap.
  { intros x Hx. replace x with ((x - size) + 1 * size) at 1 by lia. rewrite Z.mod_add by lia. apply Z.mod_small. lia. }
  assert (forall x : Z, 0 <= x < size -> (if size <=? x then 0 else x) = x) as Hclip.
  { intros x Hx. by rewrite (proj2 (Z.leb_gt _ _)) by lia. }
  unfold level, _serial_fifo_calc_recved_len.
  destruct (Z.leb_spec (get_index f) (put_index f)) as [Hle|Hgt].
  - destruct (Z.leb_spec size (put_index f + n)) as [Hw|Hw].
    + rewrite Hwrap by lia.
      destruct (Z.eqb_spec (put_index f) (get_index f)) as [E|E].
      * destruct (is_full f).
        -- rewrite (proj2 (Z.leb_le size (size + n))) by lia.
           replace (if get_index f <=? put_index f + n - size then true else true) with true by (by case_match).
           cbn. by rewrite ?Hclip by lia.
        -- rewrite Z.add_0_l. destruct (Z.leb_spec (get_index f) (put_index f + n - size)), (Z.leb_spec size n); try lia;
             cbn; by rewrite ?Hclip by lia.
      * destruct (is_full f) eqn:Ef; [specialize (Hfull eq_refl); lia|].
        rewrite (proj2 (Z.ltb_lt _ _)) by lia. rewrite wrapu_small by lia.
        destruct (Z.leb_spec (get_index f) (put_index f + n - size)), (Z.leb_spec size (put_index f - get_index f + n)); try lia;
          cbn; by rewrite ?Hclip by lia.
    + rewrite (Z.mod_small (put_index f + n)) by lia. destruct (Z.eqb_spec (put_index f) (get_index f)) as [E|E].
      * destruct (is_full f).
        -- rewrite (proj2 (Z.leb_le size (size + n))) by lia. cbn. by rewrite ?Hclip by lia.
        -- rewrite (proj2 (Z.leb_gt size (0 + n))) by lia. cbn. by rewrite ?Hclip by lia.
      * destruct (is_full f) eqn:Ef; [specialize (Hfull eq_refl); lia|].
        rewrite (proj2 (Z.ltb_lt _ _)) by lia. rewrite wrapu_small by lia.
        rewrite (proj2 (Z.leb_gt size (put_index f - get_index f + n))) by lia. cbn. by rewrite ?Hclip by lia.
  - destruct (is_full f) eqn:Ef; [specialize (Hfull eq_refl); lia|].
    rewrite (proj2 (Z.eqb_neq (put_index f) (get_index f))) by lia. rewrite (proj2 (Z.ltb_ge _ _)) by lia.
    rewrite wrapu_small by lia.
    destruct (Z.leb_spec (get_index f) (put_index f + n)) as [Hw|Hw],
      (Z.leb_spec size (size - (get_index f - put_index f) + n)); try lia.
    + destruct (Z.leb_spec size (put_index f + n)).
      * rewrite Hwrap by lia. cbn. by rewrite ?Hclip by lia.
      * rewrite (Z.mod_small (put_index f + n)) by lia. cbn. by rewrite ?Hclip by lia.
    + rewrite (Z.mod_small (put_index f + n)) by lia. cbn. by rewrite ?Hclip by lia.
Qed.

Lemma dma_put_spec size bs f :
  dma_ok size f -> zlen bs <= size -> Forall (fun b => 0 <= b < 256) bs ->
  let f' := rt_dma_recv_update_put_index size (zlen bs) (received size bs f) in
  dma_ok size f' /\ contents size f' = keep_last size (contents size f ++ bs).
Proof.
  intros Hd Hn Hbs. pose proof Hd as [Hf Hfull]. pose proof Hf as [Hs Hl Hb Hp Hg].
  pose proof (level_range size f Hf) as Hr. pose proof (level_put size f Hf) as Hput.
  destruct (dma_store_ok size bs (put_index f) (buffer f)) as [Hl1 Hb1]; [lia|done|done|done|].
  assert (dma_ok size (received size bs f)) as Hd1 by (constructor; [by constructor|done]).
  change (level size f) with (level size (received size bs f)) in *.
  pose proof (update_put_spec size (zlen bs) _ Hd1 ltac:(pose proof (zlen_nonneg bs); lia)) as Hu. cbn zeta in Hu |- *.
  set (f' := rt_dma_recv_update_put_index size (zlen bs) (received size bs f)) in *.
  set (L := level size (received size bs f)) in *. destruct Hu as (Hbuf & Hpi & Hgi & Hfi).
  cbn [buffer put_index get_index received] in Hbuf, Hpi, Hgi.
  destruct (dma_store_ring size bs (buffer f) (get_index f) L) as (g & L' & Hg' & HL' & Hk & Em & Er);
    [lia|done|done|done|]. rewrite <- Hput in Em, Er.
  assert (get_index f' = g /\ (size <= L + zlen bs -> put_index f' = g)) as [Eg Epg].
  { rewrite Hgi, Hpi. destruct (Z.leb_spec size (L + zlen bs)) as [Hx|Hx].
    - rewrite HL', Z.min_l in Em by lia. replace (g + size) with (g + 1 * size) in Em by lia.
      rewrite Z.mod_add, Z.mod_small in Em by lia. by rewrite Em.
    - rewrite Hk by lia. split; [done|lia]. }
  pose proof (Z.mod_pos_bound (put_index f + zlen bs) size ltac:(lia)) as Hpb.
  assert (fifo_ok size f') as Hf' by (constructor; [done|by rewrite Hbuf|by rewrite Hbuf|by rewrite Hpi|by rewrite Eg]).
  split; [constructor; [done|]; intros Hx; rewrite Hfi in Hx; apply Z.leb_le in Hx; by rewrite Eg, Epg|].
  assert (level size f' = L') as El.
  { apply level_unique; [done|by rewrite Hpi, Eg, Em|pose proof (zlen_nonneg bs); lia|..]; intros Hx; rewrite Hfi.
    - apply Z.leb_gt. lia.
    - apply Z.leb_le. lia. }
  unfold contents at 1. by rewrite El, Hbuf, Eg, Er.
Qed.

Lemma ring_zget l size out n i : 0 <= i < n -> zget (ring l size out n) i = zget l ((out + i) mod size).
Proof.
  intros Hi. unfold ring, zget at 1. rewrite nth_lookup_default, list_lookup_fmap.
  rewrite (proj2 (lookup_seq 0 (Z.to_nat n) (Z.to_nat i) (Z.to_nat i))) by lia. cbn. by rewrite Z2Nat.id by lia.
Qed.

Lemma ring_take l size out n m : 0 <= m <= n -> take (Z.to_nat m) (ring l size out n) = ring l size out m.
Proof. intros Hm. unfold ring. rewrite <- fmap_take, take_seq. by replace (Z.to_nat m `min` Z.to_nat n)%nat with (Z.to_nat m) by lia. Qed.

Lemma ring_drop l size out n m :
  0 <= m <= n -> drop (Z.to_nat m) (ring l size out n) = ring l size ((out + m) mod size) (n - m).
Proof.
  intros Hm. apply zlist_eq.
  - rewrite zlen_ring, zlen_drop, zlen_ring by lia. lia.
  - intros i Hi. rewrite zlen_drop, zlen_ring in Hi by lia. rewrite zget_drop, !ring_zget by lia.
    rewrite Zplus_mod_idemp_l. do 2 f_equal. lia.
Qed.

(** Reading the ring in one or two pieces. *)
Lemma ring_slice l size out n :
  zlen l = size -> 0 <= out < size -> 0 <= n <= size ->
  ring l size out n =
  if out + n <? size then take (Z.to_nat n) (drop (Z.to_nat out) l)
  else take (Z.to_nat (size - out)) (drop (Z.to_nat out) l) ++ take (Z.to_nat (n + out - size)) (drop (Z.to_nat 0) l).
Proof.
  intros Hl Ho Hn. destruct (Z.ltb_spec (out + n) size) as [H|H]; apply zlist_eq.
  - rewrite zlen_ring, zlen_take, zlen_drop; lia.
  - intros i Hi. rewrite zlen_ring in Hi by lia. rewrite ring_zget, zget_take, zget_drop by lia.
    by rewrite Z.mod_small by lia.
  - rewrite zlen_ring, zlen_app, !zlen_take, !zlen_drop; lia.
  - intros i Hi. rewrite zlen_ring in Hi by lia. rewrite ring_zget, zget_app by lia.
    rewrite zlen_take, zlen_drop by lia. replace (Z.min (size - out) (Z.max 0 (zlen l - out))) with (size - out) by lia.
    destruct (Z.ltb_spec i (size - out)).
    + rewrite zget_take, zget_drop, Z.mod_small by lia. done.
    + rewrite zget_take, zget_drop by lia. f_equal.
      replace (out + i) with (i - (size - out) + 1 * size) by lia. rewrite Z.mod_add by lia. apply Z.mod_small. lia.
Qed.

Lemma full_level size f : dma_ok size f -> is_full f = true <-> level size f = size.
Proof.
  intros [[Hs Hl Hb Hp Hg] Hfull]. unfold level, _serial_fifo_calc_recved_len. destruct (is_full f).
  - by rewrite (Hfull eq_refl), Z.eqb_refl.
  - split; [done|]. destruct (Z.eqb_spec (put_index f) (get_index f)); [lia|]. case_bool; rewrite wrapu_small; lia.
Qed.

Lemma update_get_spec size m f :
  dma_ok size f -> 0 <= m <= level size f ->
  exists f', rt_dma_recv_update_get_index size m f = Some f' /\ dma_ok size f' /\
    contents size f' = drop (Z.to_nat m) (contents size f).
Proof.
  intros Hd Hm. pose proof Hd as [Hff Hfull]. pose proof Hff as [Hs Hl Hb Hp Hg].
  pose proof (level_range size f Hff) as HL. pose proof (level_put size f Hff) as Hput.
  pose proof (full_level size f Hd) as Hfl. unfold rt_dma_recv_update_get_index. fold (level size f).
  set (L := level size f) in *. rewrite (proj2 (Z.leb_le m L)) by lia. cbn [RT_ASSERT mbind option_bind].
  rewrite (wrapu_small 16) by lia. set (get := if size <=? get_index f + m then _ else _).
  assert (get = (get_index f + m) mod size) as Eget by (unfold get; case_bool; [done|by rewrite Z.mod_small by lia]).
  pose proof (Z.mod_pos_bound (get_index f + m) size ltac:(lia)) as Hgb. set (f' := mk_fifo _ _ _ _).
  assert (is_full f' = bool_decide (is_full f = true /\ m = 0)) as Ef'.
  { cbn. destruct (is_full f); cbn [andb]; [|symmetry; apply bool_decide_eq_false_2; by intros [? _]].
    destruct (Z.eqb_spec m 0); cbn [negb]; symmetry; [by apply bool_decide_eq_true_2|apply bool_decide_eq_false_2; tauto]. }
  assert (fifo_ok size f') as Hff' by (constructor; cbn; try done; by rewrite Eget).
  assert (level size f' = L - m) as El.
  { apply level_unique; [done| |lia|..]; rewrite ?Ef'.
    - cbn. rewrite Eget, Zplus_mod_idemp_l, Hput. f_equal. lia.
    - intros Hz. apply bool_decide_eq_false_2. intros [H ->]. apply Hfl in H. lia.
    - intros Hz. apply bool_decide_eq_true_2. split; [apply Hfl; lia|lia]. }
  exists f'. split; [done|]. split; [constructor; [done|]|].
  - intros Hx. rewrite Ef' in Hx. apply bool_decide_eq_true in Hx as [Hx ->]. cbn [f' get_index put_index].
    rewrite Eget, Z.add_0_r, Z.mod_small by lia. by apply Hfull.
  - unfold contents. rewrite El. fold L. cbn [buffer get_index f']. rewrite Eget. by rewrite ring_drop by lia.
Qed.

Lemma slice_spec size m f :
  fifo_ok size f -> 0 <= m <= level size f ->
  (if get_index f + m <? size then slice (get_index f) m f
   else a ← slice (get_index f) (size - get_index f) f; b ← slice 0 (m + get_index f - size) f; Some (a ++ b)) =
  Some (take (Z.to_nat m) (contents size f)).
Proof.
  intros Hf Hm. pose proof (level_range size f Hf) as HL. pose proof Hf as [Hs Hl Hb Hp Hg]. unfold contents.
  rewrite ring_take, (ring_slice _ _ _ _ Hl Hg) by lia. unfold slice. rewrite Hl.
  destruct (Z.ltb_spec (get_index f + m) size); rewrite !(proj2 (Z.leb_le _ _)) by lia; done.
Qed.

(** ** The operations of a device *)

Section device_specs.

Context {W : Type} `{!UartOps W}.
Notation device := (rt_device (rt_serial_device (W := W))).

Definition size_of (d : device) : Z := bufsz (config (user d)).

(** The characters waiting in an open device. *)
Definition waiting (d : device) (l : list Z) : Prop :=
  exists f, rx (user d) = RxFifo f /\ contents (size_of d) f = l.

Definition int_mode (d : device) : Prop :=
  ref_count d <> 0 /\ has RT_DEVICE_FLAG_INT_RX (open_flag d) = true /\
  exists f, rx (user d) = RxFifo f /\ int_ok (size_of d) f.

Definition dma_mode (d : device) : Prop :=
  ref_count d <> 0 /\ has RT_DEVICE_FLAG_INT_RX (open_flag d) = false /\
  has RT_DEVICE_FLAG_DMA_RX (open_flag d) = true /\
  exists f, rx (user d) = RxFifo f /\ dma_ok (size_of d) f.

(** The characters that the hardware holds. *)
Inductive gets : W -> list Z -> W -> Prop :=
  | gets_none w w' : getc w = (-1, w') -> gets w [] w'
  | gets_char w c w1 cs w' : getc w = (c, w1) -> c <> -1 -> gets w1 cs w' -> gets w (c :: cs) w'.

Lemma isr_receive_spec cs w w' : gets w cs w' -> forall fuel s f,
  (length cs < fuel)%nat -> hw s = w -> int_ok (bufsz (config s)) f ->
  exists f', isr_receive fuel s f = Some (set_hw w' s, f') /\ int_ok (bufsz (config s)) f' /\
    contents (bufsz (config s)) f' = keep_last (bufsz (config s) - 1) (contents (bufsz (config s)) f ++ (u8 <$> cs)).
Proof.
  induction 1 as [w w' E|w c w1 cs w' E Hc _ IH]; intros fuel s f Hf Hw Hi;
    (destruct fuel as [|fuel]; [cbn in Hf; lia|]); cbn [isr_receive]; rewrite Hw, E.
  - cbn [Z.eqb Z.compare Pos.compare Pos.compare_cont]. exists f. split; [done|]. split; [done|].
    cbn. rewrite app_nil_r, keep_last_all; [done|]. pose proof (level_int _ _ Hi) as [? _].
    rewrite contents_len by apply Hi. lia.
  - rewrite (proj2 (Z.eqb_neq c (-1))) by done. cbn [config set_hw].
    destruct (fifo_put_spec (bufsz (config s)) c f Hi) as (f1 & -> & Hi1 & E1). cbn [mbind option_bind].
    destruct (IH fuel (set_hw w1 s) f1) as (f' & -> & Hi' & E'); [cbn in Hf; lia|done|done|].
    exists f'. split; [done|]. split; [done|]. cbn [config set_hw] in E'.
    pose proof (io_size _ _ Hi). rewrite E', E1, keep_last_app by lia. cbn [fmap list_fmap]. by rewrite <- app_assoc.
Qed.

Lemma isr_spec cs w' d l fuel :
  int_mode d -> waiting d l -> gets (hw (user d)) cs w' -> (length cs < fuel)%nat ->
  exists d', rt_hw_serial_isr fuel RT_SERIAL_EVENT_RX_IND d =
      Some (d', if negb (rx_indicate d =? 0) && negb (zlen (keep_last (size_of d - 1) (l ++ (u8 <$> cs))) =? 0)
                then Some (zlen (keep_last (size_of d - 1) (l ++ (u8 <$> cs)))) else None) /\
    int_mode d' /\ waiting d' (keep_last (size_of d - 1) (l ++ (u8 <$> cs))) /\ hw (user d') = w' /\
    size_of d' = size_of d /\ rx_indicate d' = rx_indicate d.
Proof.
  intros (Hr & Hfl & f & Hf & Hi) (f0 & Hf0 & <-) Hg Hfu. rewrite Hf in Hf0. injection Hf0 as <-.
  unfold rt_hw_serial_isr. change (Z.land RT_SERIAL_EVENT_RX_IND 0xff =? RT_SERIAL_EVENT_RX_IND) with true. cbn match.
  rewrite Hf. unfold size_of in *.
  destruct (isr_receive_spec cs _ w' Hg fuel (user d) f Hfu eq_refl Hi) as (f' & -> & Hi' & Ec).
  cbn [mbind option_bind rx_indicate set_user].
  assert ((if get_index f' <=? put_index f' then u32 (put_index f' - get_index f')
           else u32 (bufsz (config (user d)) - (get_index f' - put_index f'))) = level (bufsz (config (user d))) f') as El.
  { pose proof Hi' as [[Hs Hl Hb Hp Hgt] H2 Hfull]. unfold level, _serial_fifo_calc_recved_len.
    destruct (Z.eqb_spec (put_index f') (get_index f')) as [E|E].
    - destruct (is_full f'); [by destruct (Hfull eq_refl)|].
      rewrite E, (proj2 (Z.leb_le _ _)) by lia. by rewrite Z.sub_diag.
    - destruct (Z.leb_spec (get_index f') (put_index f')), (Z.ltb_spec (get_index f') (put_index f')); (done || lia). }
  rewrite El, <- (contents_len _ f') by apply Hi'. rewrite Ec.
  set (l' := keep_last _ _) in *. eexists. split.
  { destruct (rx_indicate d =? 0); cbn [negb andb]; done. }
  split; [split; [done|]; split; [done|]; by exists f'|]. split; [by exists f'|done].
Qed.

Lemma int_read_spec d l pos n :
  int_mode d -> waiting d l -> 0 < n ->
  exists d', rt_device_read pos n d = Some (zlen (take (Z.to_nat n) l), take (Z.to_nat n) l, None, d') /\
    int_mode d' /\ waiting d' (drop (Z.to_nat n) l) /\ hw (user d') = hw (user d) /\ size_of d' = size_of d /\
    rx_indicate d' = rx_indicate d.
Proof.
  intros (Hr & Hfl & f & Hf & Hi) (f0 & Hf0 & <-) Hn. rewrite Hf in Hf0. injection Hf0 as <-.
  unfold rt_device_read. rewrite (proj2 (Z.eqb_neq _ _) Hr). cbn [device_read serial_ops]. unfold rt_serial_read.
  rewrite (proj2 (Z.eqb_neq n 0)) by lia. rewrite Hfl, Hf. unfold size_of in *.
  destruct (int_rx_spec (bufsz (config (user d))) (Z.to_nat n) f Hi) as (f' & -> & Hi' & Ec). cbn [mbind option_bind].
  eexists. split; [done|]. split; [split; [done|]; split; [done|]; by exists f'|]. split; [by exists f'|done].
Qed.

(** A finished DMA transfer of [bs]; the event carries the length. *)
Lemma dma_isr_spec bs d f :
  dma_mode d -> rx (user d) = RxFifo f -> Forall (fun b => 0 <= b < 256) bs -> zlen bs <= size_of d ->
  let d1 := set_user (set_rx (RxFifo (received (size_of d) bs f)) (user d)) d in
  let l := keep_last (size_of d) (contents (size_of d) f ++ bs) in
  exists d', rt_hw_serial_isr 0 (Z.lor RT_SERIAL_EVENT_RX_DMADONE (Z.shiftl (zlen bs) 8)) d1 =
      Some (d', if negb (rx_indicate d =? 0) then Some (zlen l) else None) /\
    dma_mode d' /\ waiting d' l /\ size_of d' = size_of d.
Proof.
  intros (Hr & Hni & Hfl & f0 & Hf0 & Hd) Hf Hbs Hn. rewrite Hf in Hf0. injection Hf0 as <-. cbn zeta.
  unfold rt_hw_serial_isr. pose proof (zlen_nonneg bs) as Hz. pose proof (da_fifo _ _ Hd) as Hff.
  pose proof (fo_size _ _ Hff) as Hs.
  assert (Z.land (Z.lor RT_SERIAL_EVENT_RX_DMADONE (Z.shiftl (zlen bs) 8)) 0xff = 3) as Eev.
  { rewrite Z.land_lor_distr_l. replace (Z.land (Z.shiftl (zlen bs) 8) 0xff) with 0; [done|].
    change 0xff with (Z.ones 8). rewrite Z.land_ones, Z.shiftl_mul_pow2 by lia. by rewrite Z.mod_mul. }
  assert (Z.shiftr (Z.land (Z.lor RT_SERIAL_EVENT_RX_DMADONE (Z.shiftl (zlen bs) 8)) (Z.lnot 0xff)) 8 = zlen bs) as Elen.
  { rewrite Z.shiftr_land, Z.shiftr_lor, Z.shiftr_shiftl_l, Z.sub_diag by lia.
    change (Z.shiftr RT_SERIAL_EVENT_RX_DMADONE 8) with 0. change (Z.shiftr (Z.lnot 0xff) 8) with (-1).
    by rewrite Z.lor_0_l, Z.land_m1_r, Z.shiftl_0_r. }
  rewrite Eev, Elen. change (3 =? RT_SERIAL_EVENT_RX_IND) with false. change (3 =? RT_SERIAL_EVENT_RX_DMADONE) with true.
  cbn match. unfold size_of in *. cbn [user set_user config set_rx rx].
  rewrite (proj2 (Z.eqb_neq (bufsz (config (user d))) 0)) by lia.
  destruct (dma_put_spec (bufsz (config (user d))) bs f Hd Hn Hbs) as [Hd' Ec]. cbn zeta in Hd', Ec.
  eexists. split; [do 2 f_equal|].
  - cbn [rx_indicate set_user]. destruct (negb (rx_indicate d =? 0)); [|done]. f_equal.
    rewrite <- Ec. by rewrite contents_len by apply Hd'.
  - split; [split; [done|]; split; [done|]; split; [done|]; by eexists|]. split; [by eexists|done].
Qed.

Lemma dma_read_spec d l pos n :
  dma_mode d -> waiting d l -> 0 < n < 2 ^ 31 ->
  exists d', rt_device_read pos n d = Some (zlen (take (Z.to_nat n) l), take (Z.to_nat n) l, None, d') /\
    dma_mode d' /\ waiting d' (drop (Z.to_nat n) l) /\ size_of d' = size_of d.
Proof.
  intros (Hr & Hni & Hfl & f & Hf & Hd) (f0 & Hf0 & <-) Hn. rewrite Hf in Hf0. injection Hf0 as <-.
  unfold rt_device_read. rewrite (proj2 (Z.eqb_neq _ _) Hr). cbn [device_read serial_ops]. unfold rt_serial_read.
  rewrite (proj2 (Z.eqb_neq n 0)), Hni, Hfl by lia. unfold _serial_dma_rx, size_of in *.
  set (size := bufsz (config (user d))) in *. pose proof (da_fifo _ _ Hd) as Hff. pose proof (fo_size _ _ Hff) as Hs.
  rewrite (proj2 (Z.eqb_neq size 0)), Hf by lia. fold (level size f). pose proof (level_range size f Hff) as HL.
  pose proof (contents_len size f Hff) as Hlen. rewrite (wraps_small 32 n), (wraps_small 32 (level size f)) by lia.
  set (m := if n <? level size f then n else level size f).
  assert (m = Z.min n (level size f)) as Em by (unfold m; case_bool; lia).
  assert (take (Z.to_nat n) (contents size f) = take (Z.to_nat m) (contents size f) /\
          drop (Z.to_nat n) (contents size f) = drop (Z.to_nat m) (contents size f)) as [Et Edr].
  { destruct (Z.le_gt_cases n (level size f)); [by replace m with n by lia|].
    unfold zlen in Hlen. rewrite !take_ge, !drop_ge by lia. done. }
  rewrite (slice_spec size m f Hff) by lia. cbn [mbind option_bind].
  destruct (update_get_spec size m f Hd) as (f' & -> & Hd' & Ec); [lia|]. cbn [mbind option_bind].
  eexists. split; [rewrite Et, zlen_take, Hlen by lia; by replace (Z.min m (level size f)) with m by lia|].
  split; [split; [done|]; split; [done|]; split; [done|]; by exists f'|]. split; [|done].
  exists f'. split; [done|]. rewrite Edr. exact Ec.
Qed.

End device_specs.

(** ** The contract with the device layer *)

Section driver.

Context {W : Type} `{!UartOps W}.
Notation device := (rt_device (rt_serial_device (W := W))).

(** The heap has room for a FIFO, and the UART does not fail to be configured with
    the code of a missing function. *)
Class UartLaws := {
  malloc_ok n w : (uart_malloc n w).1 = true;
  configure_ok f c w : configure = Some f -> (f c w).1 <> - RT_ENOSYS;
}.
Context `{Hlaws : !UartLaws}.

Definition rx_flags (fl : Z) : bool := has RT_DEVICE_FLAG_INT_RX fl || has RT_DEVICE_FLAG_DMA_RX fl.

Definition has_fifo (d : device) : Prop := exists f, rx (user d) = RxFifo f /\ fifo_ok (size_of d) f.

Record serial_ok (d : device) : Prop := {
  so_tx : polled_tx d = true;
  so_size : 0 < size_of d < 2 ^ 15;
  so_closed : has RT_DEVICE_FLAG_ACTIVATED (dflag d) = false -> rx_flags (open_flag d) = false;
  so_rx : has RT_DEVICE_FLAG_ACTIVATED (dflag d) = true -> rx (user d) = RxNull \/ has_fifo d;
  so_flags : rx_flags (open_flag d) = true -> has_fifo d;
}.

Lemma rx_flags_lor a b : rx_flags (Z.lor a b) = rx_flags a || rx_flags b.
Proof. unfold rx_flags. rewrite !has_flag_lor.
  by destruct (has RT_DEVICE_FLAG_INT_RX a), (has RT_DEVICE_FLAG_DMA_RX a), (has RT_DEVICE_FLAG_INT_RX b). Qed.

Lemma rx_flags_low x : rx_flags (Z.land x 0xff) = false.
Proof.
  unfold rx_flags, has. rewrite <- !Z.land_assoc.
  change (Z.land 0xff RT_DEVICE_FLAG_INT_RX) with 0. change (Z.land 0xff RT_DEVICE_FLAG_DMA_RX) with 0.
  by rewrite Z.land_0_r.
Qed.

Lemma new_fifo_ok size : 0 < size < 2 ^ 15 -> fifo_ok size (new_fifo size).
Proof.
  intros Hs. constructor; cbn; try lia.
  - unfold zlen. rewrite length_replicate. lia.
  - apply Forall_replicate. lia.
Qed.

(** Whatever mode is asked for, an open device with a receive flag has a FIFO. *)
Lemma open_rx_ok oflag s :
  0 < bufsz (config s) < 2 ^ 15 ->
  (rx s = RxNull \/ exists f, rx s = RxFifo f /\ fifo_ok (bufsz (config s)) f) ->
  exists fl s', open_rx oflag (Z.land oflag 0xff) s = Some (fl, s') /\ config s' = config s /\
    (rx s' = RxNull \/ exists f, rx s' = RxFifo f /\ fifo_ok (bufsz (config s)) f) /\
    (rx_flags fl = true -> exists f, rx s' = RxFifo f /\ fifo_ok (bufsz (config s)) f).
Proof.
  intros Hs Hrx. unfold open_rx. pose proof (rx_flags_low oflag) as Hlow.
  pose proof (new_fifo_ok _ Hs) as Hnew. destruct Hrx as [E|(f & E & Hf)]; rewrite E.
  - pose proof (malloc_ok (fifo_struct + bufsz (config s)) (hw s)) as Hm.
    destruct (uart_malloc (fifo_struct + bufsz (config s)) (hw s)) as [ok w]. cbn [fst] in Hm. subst ok.
    rewrite (proj2 (Z.eqb_neq (bufsz (config s)) 0)) by lia.
    destruct (has RT_DEVICE_FLAG_INT_RX oflag).
    { do 2 eexists. split; [done|]. split; [done|]. split; [right|intros _]; by eexists. }
    destruct (has RT_DEVICE_FLAG_DMA_RX oflag).
    { do 2 eexists. split; [done|]. split; [done|]. split; [right|intros _]; by eexists. }
    do 2 eexists. split; [done|]. split; [done|]. split; [by left|congruence].
  - do 2 eexists. split; [done|]. split; [done|]. split; [right; by exists f|]. intros _. by exists f.
Qed.

#[export] Instance serial_driver_laws : @DriverLaws (rt_serial_device (W := W)) serial_ops.
Proof.
  refine {| drv_ok := serial_ok |}.
  - intros n d []. by constructor.
  - intros d [Htx Hs Hc Hr Hf] Ha. cbn [call_init device_init serial_ops]. unfold call_init. cbn [device_init serial_ops].
    assert (forall r w, serial_ok (if r =? RT_EOK then activate (set_user (set_hw w (set_rx RxNull (user d))) d)
      else set_user (set_hw w (set_rx RxNull (user d))) d)) as Hok.
    { intros r w. specialize (Hc Ha). destruct (r =? RT_EOK); constructor; try done; cbn; try (by left); try congruence.
      unfold polled_tx in *. cbn. rewrite !has_flag_lor. by rewrite !orb_false_r. }
    unfold rt_serial_init. destruct configure as [conf|] eqn:E.
    + pose proof (configure_ok conf (config (user d)) (hw (user d)) E) as Hne.
      cbn [config set_rx hw]. destruct (conf _ _) as [r w]. exists r. eexists. do 5 (split; [done|]). apply Hok.
    + exists RT_EOK. eexists. do 5 (split; [done|]). exact (Hok RT_EOK (hw (user d))).
  - intros o d [Htx Hs Hc Hr Hf] Ha. unfold call_open. cbn [device_open serial_ops]. unfold rt_serial_open.
    rewrite Htx. cbn [RT_ASSERT mbind option_bind]. destruct (_ || _).
    + exists (- RT_EIO), d. by split_and!.
    + destruct (open_rx_ok o (user d) Hs (Hr Ha)) as (fl & s & -> & Ecfg & Hrx & Hfl). cbn [mbind option_bind].
      exists RT_EOK. eexists. split; [done|]. split; [done|]. split; [done|]. change (accepted RT_EOK) with true. cbn match.
      constructor; unfold has_fifo, size_of in *; cbn [dflag open_flag mark_open set_open_flag set_user user size_of];
        rewrite ?Ecfg; [exact Htx|done|congruence|by intros _|].
      rewrite !rx_flags_lor. intros H. apply Hfl. destruct (rx_flags fl); [done|]. cbn [orb] in H.
      by destruct (has RT_DEVICE_FLAG_STREAM o || has RT_DEVICE_FLAG_STREAM (open_flag d)); vm_compute in H.
  - intros d [Htx Hs Hc Hr Hf] Ho. unfold call_close. cbn [device_close serial_ops]. unfold rt_serial_close.
    destruct (1 <? ref_count d).
    { exists RT_EOK, d. do 4 (split; [done|]). by constructor. }
    destruct (has RT_DEVICE_FLAG_INT_RX (open_flag d)) eqn:Ei.
    { destruct (Hf ltac:(unfold rx_flags; by rewrite Ei)) as (f & Ef & Hok). rewrite Ef. exists RT_EOK. eexists.
      do 4 (split; [done|]). constructor; try done; by left. }
    destruct (has RT_DEVICE_FLAG_DMA_RX (open_flag d)) eqn:Ed.
    { destruct (Hf ltac:(unfold rx_flags; by rewrite Ei, Ed)) as (f & Ef & Hok). rewrite Ef.
      rewrite (proj2 (Z.eqb_neq (bufsz (config (user d))) 0)) by (unfold size_of in Hs; lia). cbn [negb RT_ASSERT mbind option_bind].
      exists RT_EOK. eexists. do 4 (split; [done|]). constructor; try done; by left. }
    exists RT_EOK, d. do 4 (split; [done|]). by constructor.
Defined.

End driver.

(** ** A UART *)

(** The characters that have arrived and those that were sent. *)
Record uart := mk_uart { arrived : list Z; sent : list Z }.

#[export] Instance uart_ops : UartOps uart := {
  configure := Some (fun _ w => (RT_EOK, w));
  control _ _ w := (RT_EOK, w);
  putc c w := (1, mk_uart (arrived w) (sent w ++ [c]));
  getc w := match arrived w with [] => (-1, w) | c :: cs => (c, mk_uart cs (sent w)) end;
  dma_transmit := None;
  uart_malloc _ w := (true, w);
  uart_free w := w;
  config_at _ _ := mk_config 9600 8 0 0 0 0 16;
}.

#[export] Instance uart_laws : UartLaws (W := uart).
Proof. constructor; [done|]. by intros f c w [= <-]. Defined.

Lemma uart_gets cs s : Forall (fun c => 0 <= c) cs -> gets (mk_uart cs s) cs (mk_uart [] s).
Proof.
  induction 1 as [|c cs Hc _ IH]; [by apply gets_none|]. eapply gets_char; [reflexivity| |exact IH]. lia.
Qed.

Definition sample_config : serial_configure := mk_config 115200 8 0 0 0 0 16.

(** As [drv_usart.c] registers its devices. *)
Definition sample_uart : rt_device (rt_serial_device (W := uart)) :=
  mk_device _ (Z.lor RT_DEVICE_OFLAG_RDWR RT_DEVICE_FLAG_INT_RX) 0 0 1 0
    (mk_serial sample_config RxNull (mk_uart [1; 2; 3] [])).

(** Opened for reception by interrupt. *)
Definition opened_uart : rt_device (rt_serial_device (W := uart)) :=
  default sample_uart (snd <$> rt_device_open (Z.lor RT_DEVICE_OFLAG_RDWR RT_DEVICE_FLAG_INT_RX) sample_uart).

Lemma opened_int_mode : int_mode opened_uart /\ waiting opened_uart [].
Proof.
  split.
  - split; [by vm_compute|]. split; [by vm_compute|]. exists (new_fifo 16). split; [by vm_compute|].
    constructor; [apply new_fifo_ok; vm_compute; split; congruence|vm_compute; congruence|done].
  - exists (new_fifo 16). by vm_compute.
Qed.

(** ** Theorems *)

(** C27. Between the interrupt handler and the reader a serial device is a
    queue of characters, in interrupt and in DMA mode: the handler appends
    what the hardware has received, keeping the newest bufsz - 1 (bufsz with
    DMA) characters, and reports the number waiting through rx_indicate; a
    read of n > 0 takes the first n waiting characters, or all there are, in
    order. *)
Theorem serial_receive_queue {W} `{!UartOps W} (d : rt_device (rt_serial_device (W := W))) l :
  waiting d l ->
  (int_mode d ->
     (forall cs w' fuel, gets (hw (user d)) cs w' -> (length cs < fuel)%nat ->
        let l' := keep_last (size_of d - 1) (l ++ (u8 <$> cs)) in
        exists d', rt_hw_serial_isr fuel RT_SERIAL_EVENT_RX_IND d =
            Some (d', if negb (rx_indicate d =? 0) && negb (zlen l' =? 0) then Some (zlen l') else None) /\
          int_mode d' /\ waiting d' l') /\
     (forall pos n, 0 < n ->
        exists d', rt_device_read pos n d = Some (zlen (take (Z.to_nat n) l), take (Z.to_nat n) l, None, d') /\
          int_mode d' /\ waiting d' (drop (Z.to_nat n) l))) /\
  (dma_mode d ->
     (forall bs f, rx (user d) = RxFifo f -> Forall (fun b => 0 <= b < 256) bs -> zlen bs <= size_of d ->
        let d1 := set_user (set_rx (RxFifo (received (size_of d) bs f)) (user d)) d in
        let l' := keep_last (size_of d) (l ++ bs) in
        exists d', rt_hw_serial_isr 0 (Z.lor RT_SERIAL_EVENT_RX_DMADONE (Z.shiftl (zlen bs) 8)) d1 =
            Some (d', if negb (rx_indicate d =? 0) then Some (zlen l') else None) /\
          dma_mode d' /\ waiting d' l') /\
     (forall pos n, 0 < n < 2 ^ 31 ->
        exists d', rt_device_read pos n d = Some (zlen (take (Z.to_nat n) l), take (Z.to_nat n) l, None, d') /\
          dma_mode d' /\ waiting d' (drop (Z.to_nat n) l))).
Proof.
  intros Hw. split; intros Hm; split.
  - intros cs w' fuel Hg Hf. destruct (isr_spec cs w' d l fuel Hm Hw Hg Hf) as (d' & E & H1 & H2 & _). eauto.
  - intros pos n Hn. destruct (int_read_spec d l pos n Hm Hw Hn) as (d' & E & H1 & H2 & _). eauto.
  - intros bs f Hf Hbs Hn. destruct Hw as (f0 & Hf0 & <-). rewrite Hf in Hf0. injection Hf0 as <-.
    destruct (dma_isr_spec bs d f Hm Hf Hbs Hn) as (d' & E & H1 & H2 & _). eauto.
  - intros pos n Hn. destruct (dma_read_spec d l pos n Hm Hw Hn) as (d' & E & H1 & H2 & _). eauto.
Qed.

Lemma serial_receive_queue_witness :
  exists d d', rt_hw_serial_isr 4 RT_SERIAL_EVENT_RX_IND opened_uart = Some (d, Some 3) /\
    waiting d [1; 2; 3] /\ rt_device_read 0 2 d = Some (2, [1; 2], None, d') /\ waiting d' [3].
Proof.
  destruct opened_int_mode as [Hm Hw].
  destruct (serial_receive_queue opened_uart [] Hw) as [H _]. destruct (H Hm) as [Hi _].
  destruct (Hi [1; 2; 3] (mk_uart [] []) 4%nat) as (d & E & Hm1 & Hw1).
  - apply (uart_gets [1; 2; 3] []). repeat constructor; lia.
  - cbn. lia.
  - destruct (serial_receive_queue d [1; 2; 3] Hw1) as [H1 _]. destruct (H1 Hm1) as [_ Hr].
    destruct (Hr 0 2) as (d' & Er & _ & Hw2); [lia|]. exists d, d'. exact (conj E (conj Hw1 (conj Er Hw2))).
Defined.

(** Any sequence of fewer than 256 opens and closes of a serial device with
    polled transmission runs without a failed assertion or a null pointer,
    for every UART that keeps to its contract and an allocator that
    succeeds: the reference count is that of accepted opens less closes, the
    open flag is set exactly while there are users, and whenever a receive
    mode is set the buffer for it exists. *)
Theorem serial_device_safe {W} `{!UartOps W, !UartLaws (W := W)} cs (d : rt_device (rt_serial_device (W := W))) :
  serial_ok d -> ref_count d = 0 -> is_open d = false -> Z.of_nat (length cs) < 256 ->
  exists rs d', run_calls cs d = Some (rs, d') /\ length rs = length cs /\ ref_count d' = users 0 cs rs /\
    serial_ok d' /\ is_open d' = negb (ref_count d' =? 0).
Proof.
  intros Hs Hr Ho Hn. destruct (run_calls_spec cs d) as (rs & d' & E & Hl & Hd & Hu).
  - constructor; [lia|by rewrite Ho, Hr|lia|done|exact Hs].
  - lia.
  - exists rs, d'. rewrite Hr in Hu. split; [done|]. split; [done|]. split; [done|]. destruct Hd. done.
Qed.

Lemma serial_device_safe_witness :
  exists rs d', run_calls [COpen 0x103; COpen 0x203; COpen 3; CClose; CClose; COpen 0x103] sample_uart = Some (rs, d') /\
    rs = [RT_EOK; - RT_EIO; RT_EOK; RT_EOK; RT_EOK; RT_EOK] /\ serial_ok d'.
Proof.
  destruct (serial_device_safe [COpen 0x103; COpen 0x203; COpen 3; CClose; CClose; COpen 0x103] sample_uart)
    as (rs & d' & E & _ & _ & H & _).
  - constructor; [by vm_compute|vm_compute; split; congruence|done|vm_compute; congruence|vm_compute; congruence].
  - done.
  - by vm_compute.
  - by vm_compute.
  - exists rs, d'. split; [exact E|]. split; [|exact H]. vm_compute in E. by injection E as <- _.
Defined.

(** A second user that opens the device without the receive flag takes the interrupt
    mode away from the first: what is in the FIFO is not read any more, and closing
    does not free it. *)
Example second_open_loses_mode :
  match rt_hw_serial_isr 4 RT_SERIAL_EVENT_RX_IND opened_uart with
  | Some (d, _) =>
      match rt_device_open RT_DEVICE_OFLAG_RDWR d with
      | Some (0, d) =>
          match rt_device_read 0 3 d with
          | Some (n, _, _, d) =>
              n = 0 /\
              match run_calls [CClose; CClose] d with
              | Some (_, d) =>
                  ref_count d = 0 /\ match rx (user d) with RxFifo f => contents 16 f = [1; 2; 3] | _ => False end
              | None => False
              end
          | None => False
          end
      | _ => False
      end
  | None => False
  end.
Proof. by vm_compute. Qed.

End Serial.
