(* ===== verification/ModbusLink.v ===== *)
(** * The Modbus slave on a serial device

    How characters get from the UART to the slave: the interrupt handler of
    [serial.c] puts what has arrived into the FIFO and calls the indication function
    of [port/portserial.c], which runs the receive state machine once; that reads one
    character through the device layer.  Bytes sent go the other way by polling. *)

From S2P Require Import Prelude RtList Objects Devices Serial ModbusCrc ModbusRtu.
Import Devices Serial ModbusCrc ModbusRtu.

Module ModbusLink.

Section link.

Context {W : Type} `{!UartOps W}.
Notation device := (rt_device (rt_serial_device (W := W))).

(** ** Operations of [portserial.c] *)

(** [junk] is what the caller's variable held before: the result of the read is not
    checked. *)
Definition xMBPortSerialGetByte (junk : Z) (d : device) : option (Z * device) :=
  '(_, l, _, d) ← rt_device_read 0 1 d; Some (hd junk l, d).

Definition port_put_byte (ucByte : Z) (d : device) : option device :=
  '(_, _, d) ← rt_device_write 0 [ucByte] d; Some d.

(** [serial_rx_ind], which calls [prvvUARTRxISR]. *)
Definition serial_rx_ind (junk : Z) (st : device * mbrtu) : option (device * mbrtu) :=
  '(b, d) ← xMBPortSerialGetByte junk st.1;
  s ← xMBRTUReceiveFSM b st.2; Some (d, s).

(** A receive interrupt. *)
Definition uart_interrupt (fuel : nat) (junk : Z) (st : device * mbrtu) : option (device * mbrtu) :=
  '(d, ind) ← rt_hw_serial_isr fuel RT_SERIAL_EVENT_RX_IND st.1;
  match ind with Some _ => serial_rx_ind junk (d, st.2) | None => Some (d, st.2) end.

(** Interrupts one after the other, each with the state of the hardware when it is
    served. *)
Definition with_hw (w : W) (d : device) : device := set_user (set_hw w (user d)) d.

Fixpoint link_receive (junk : Z) (ws : list W) (st : device * mbrtu) : option (device * mbrtu) :=
  match ws with
  | [] => Some st
  | w :: ws => st ← uart_interrupt 2 junk (with_hw w st.1, st.2); link_receive junk ws st
  end.

(** ** Reception *)

Lemma with_hw_ok w d l :
  int_mode d -> waiting d l ->
  int_mode (with_hw w d) /\ waiting (with_hw w d) l /\ size_of (with_hw w d) = size_of d /\
  rx_indicate (with_hw w d) = rx_indicate d.
Proof. intros (Hr & Hf & H) Hw. by split_and!. Qed.

(** One interrupt for one character, with [q] still in the FIFO: the state machine
    gets the oldest one. *)
Lemma interrupt_spec w w' b q junk (d : device) s :
  int_mode d -> waiting d q -> rx_indicate d <> 0 -> zlen q + 1 <= size_of d - 1 -> byte b -> gets w [b] w' ->
  match xMBRTUReceiveFSM (hd b q) s with
  | Some s' => exists d', uart_interrupt 2 junk (with_hw w d, s) = Some (d', s') /\ int_mode d' /\
      waiting d' (tl (q ++ [b])) /\ rx_indicate d' = rx_indicate d /\ size_of d' = size_of d
  | None => uart_interrupt 2 junk (with_hw w d, s) = None
  end.
Proof.
  intros Hm Hw Hi Hq Hb Hg. destruct (with_hw_ok w d q Hm Hw) as (Hm1 & Hw1 & Hs1 & Hi1).
  destruct (isr_spec [b] w' (with_hw w d) q 2 Hm1 Hw1 Hg) as (d1 & E1 & Hm2 & Hw2 & _ & Hs2 & Hi2); [cbn; lia|].
  assert (keep_last (size_of (with_hw w d) - 1) (q ++ (u8 <$> [b])) = q ++ [b]) as Ek.
  { cbn [fmap list_fmap]. rewrite (wrapu_small 8) by exact Hb. apply keep_last_all.
    rewrite zlen_app, Hs1. change (zlen [b]) with 1. lia. }
  rewrite Ek in E1, Hw2. rewrite Hi1, (proj2 (Z.eqb_neq _ _) Hi) in E1.
  assert (zlen (q ++ [b]) =? 0 = false) as Ez.
  { apply Z.eqb_neq. rewrite zlen_app. change (zlen [b]) with 1. pose proof (zlen_nonneg q). lia. }
  rewrite Ez in E1. cbn [negb andb] in E1.
  destruct (int_read_spec d1 (q ++ [b]) 0 1 Hm2 Hw2) as (d2 & E2 & Hm3 & Hw3 & _ & Hs3 & Hi3); [lia|].
  assert (uart_interrupt 2 junk (with_hw w d, s) = (s ← xMBRTUReceiveFSM (hd b q) s; Some (d2, s))) as ->.
  { unfold uart_interrupt. cbn [fst snd]. rewrite E1. cbn [mbind option_bind]. unfold serial_rx_ind, xMBPortSerialGetByte.
    cbn [fst snd]. rewrite E2. cbn [mbind option_bind]. by destruct q. }
  destruct (xMBRTUReceiveFSM (hd b q) s) as [s'|]; cbn [mbind option_bind]; [|done].
  exists d2. split; [done|]. split; [done|]. split; [by destruct q|]. by rewrite Hi3, Hi2, Hi1, Hs3, Hs2, Hs1.
Qed.

Lemma link_receive_spec junk : forall ws bs q (d : device) s,
  int_mode d -> waiting d q -> rx_indicate d <> 0 -> zlen q + 1 <= size_of d - 1 -> Forall byte bs ->
  Forall2 (fun w b => exists w', gets w [b] w') ws bs ->
  match rx_all (take (length bs) (q ++ bs)) s with
  | Some s' => exists d', link_receive junk ws (d, s) = Some (d', s') /\ int_mode d' /\ waiting d' (drop (length bs) (q ++ bs))
  | None => link_receive junk ws (d, s) = None
  end.
Proof.
  induction ws as [|w ws IH]; intros bs q d s Hm Hw Hi Hq Hb Hg.
  - apply Forall2_nil_inv_l in Hg as ->. cbn. exists d. by rewrite app_nil_r.
  - apply Forall2_cons_inv_l in Hg as (b & bs' & [w' Hg] & Hgs & ->). apply Forall_cons in Hb as [Hb1 Hb].
    assert (q ++ b :: bs' = hd b q :: (tl (q ++ [b]) ++ bs')) as Eq by (destruct q; cbn; [done|by rewrite <- app_assoc]).
    rewrite Eq. cbn [length take drop]. rewrite rx_all_cons.
    pose proof (interrupt_spec w w' b q junk d s Hm Hw Hi Hq Hb1 Hg) as Hstep. cbn [link_receive fst snd].
    destruct (xMBRTUReceiveFSM (hd b q) s) as [s1|]; cbn [mbind option_bind]; [|by rewrite Hstep].
    destruct Hstep as (d1 & -> & Hm1 & Hw1 & Hi1 & Hs1). cbn [mbind option_bind].
    apply IH; [done|done|congruence| |done|done]. rewrite Hs1.
    assert (zlen (tl (q ++ [b])) = zlen q) as ->; [|done]. unfold zlen. destruct q; cbn; [done|]. rewrite length_app. cbn. lia.
Qed.

(** ** Transmission *)

Lemma put_byte_spec b (d : device) :
  ref_count d <> 0 -> has RT_DEVICE_FLAG_INT_TX (open_flag d) = false -> has RT_DEVICE_FLAG_DMA_TX (open_flag d) = false ->
  has RT_DEVICE_FLAG_STREAM (open_flag d) = false ->
  port_put_byte b d = Some (with_hw (putc b (hw (user d))).2 d).
Proof.
  intros Hr Hi Hd Hs. unfold port_put_byte, rt_device_write. rewrite (proj2 (Z.eqb_neq _ _) Hr).
  cbn [device_write serial_ops]. unfold rt_serial_write. rewrite Hi, Hd, Hs.
  change (zlen [b] =? 0) with false. cbn [negb andb RT_ASSERT mbind option_bind _serial_poll_tx]. by rewrite andb_false_r.
Qed.

End link.

(** ** Theorems *)

(** With one receive interrupt per character, the state machine of the
    Modbus slave gets, through the serial device and the port, the
    characters in the order of arrival, delayed by those that were waiting
    in the FIFO before. *)
Theorem modbus_link_delivers {W} `{!UartOps W} junk ws bs q (d : rt_device (rt_serial_device (W := W))) s :
  int_mode d -> waiting d q -> rx_indicate d <> 0 -> zlen q + 1 <= size_of d - 1 -> Forall byte bs ->
  Forall2 (fun w b => exists w', gets w [b] w') ws bs ->
  match rx_all (take (length bs) (q ++ bs)) s with
  | Some s' => exists d', link_receive junk ws (d, s) = Some (d', s') /\ int_mode d' /\ waiting d' (drop (length bs) (q ++ bs))
  | None => link_receive junk ws (d, s) = None
  end.
Proof. intros Hm Hw Hi Hq. by apply link_receive_spec. Qed.

(** The UART of the samples, with an indication function, and hardware that has
    received one character. *)
Definition sample_slave_uart : rt_device (rt_serial_device (W := uart)) := opened_uart.
Definition one_char (b : Z) : uart := mk_uart [b] [].

Lemma sample_slave_uart_ok :
  int_mode sample_slave_uart /\ waiting sample_slave_uart [] /\ rx_indicate sample_slave_uart <> 0 /\
  size_of sample_slave_uart = 16.
Proof. destruct opened_int_mode as [Hm Hw]. split; [exact Hm|]. split; [exact Hw|]. split; by vm_compute. Qed.

Lemma one_chars bs : Forall byte bs -> Forall2 (fun w b => exists w', gets w [b] w') (one_char <$> bs) bs.
Proof.
  induction 1 as [|b bs Hb _ IH]; [by constructor|]. constructor; [|exact IH]. exists (mk_uart [] []).
  apply (uart_gets [b] []). constructor; [unfold byte in Hb; lia|constructor].
Qed.

Definition sample_frame : list Z := [1; 3; 0; 0; 0; 10; 0xc5; 0xcd].

Lemma modbus_link_delivers_witness :
  exists d' s', link_receive 0 (one_char <$> sample_frame) (sample_slave_uart, idle_rtu) = Some (d', s') /\
    rx_all sample_frame idle_rtu = Some s' /\ waiting d' [].
Proof.
  destruct sample_slave_uart_ok as (Hm & Hw & Hi & Hs).
  pose proof (modbus_link_delivers 0 (one_char <$> sample_frame) sample_frame [] sample_slave_uart idle_rtu Hm Hw Hi) as H.
  change (take (length sample_frame) ([] ++ sample_frame)) with sample_frame in H.
  change (drop (length sample_frame) ([] ++ sample_frame)) with (@nil Z) in H.
  assert (exists s', rx_all sample_frame idle_rtu = Some s') as [s' E] by (eexists; vm_compute; reflexivity).
  rewrite E in H. destruct H as (d' & E' & _ & Hw').
  - rewrite Hs. vm_compute. discriminate.
  - by_computation.
  - apply one_chars. by_computation.
  - exists d', s'. exact (conj E' (conj E Hw')).
Defined.

(** C26. A Modbus frame that arrives at the UART character by character, one
    receive interrupt each, on a device opened for interrupt reception and
    an idle line, passes through serial.c, device.c and portserial.c into
    the receive state machine: after the silent interval eMBRTUReceive
    accepts it and yields its address and its PDU, and the FIFO is empty
    again. *)
Theorem modbus_frame_over_uart {W} `{!UartOps W} junk ws a pdu (d : rt_device (rt_serial_device (W := W))) s :
  int_mode d -> waiting d [] -> rx_indicate d <> 0 -> line_idle s ->
  byte a -> Forall byte pdu -> 1 <= zlen pdu <= 57 ->
  Forall2 (fun w b => exists w', gets w [b] w') ws (frame a pdu) ->
  exists d' s1 b s', link_receive junk ws (d, s) = Some (d', s1) /\ int_mode d' /\ waiting d' [] /\
    xMBRTUTimerT35Expired s1 = Some (b, s') /\ line_idle s' /\
    eMBRTUReceive s' = Some (MB_ENOERR, Some (a, zlen pdu, 1)) /\ pdu_of (zlen pdu) s' = pdu.
Proof.
  intros Hm Hw Hi Hidle Ha Hp Hn Hg.
  assert (2 <= size_of d) as Hsz by (destruct Hm as (_ & _ & f & _ & Hf); apply Hf).
  assert (Forall byte (frame a pdu)) as Hfb by (by apply frame_bytes).
  pose proof (link_receive_spec junk ws (frame a pdu) [] d s Hm Hw Hi ltac:(change (zlen (@nil Z)) with 0; lia) Hfb Hg) as H.
  cbn [app] in H. rewrite take_ge, drop_ge in H by lia.
  destruct (rx_burst_ok (frame a pdu) s) as (s' & Eb & Hidle' & _ & _ & Hpos & Ht); [done|done|rewrite zlen_frame; lia|].
  unfold rx_burst in Eb. destruct (rx_all (frame a pdu) s) as [s1|]; [|done]. cbn [mbind option_bind] in Eb.
  destruct H as (d' & -> & Hm' & Hw'). destruct (xMBRTUTimerT35Expired s1) as [[b s2]|] eqn:E2; [|done].
  cbn [mbind option_bind] in Eb. injection Eb as ->. exists d', s1, b, s'.
  destruct (receive_frame s' a pdu) as [H1 H2]; [apply Hidle'|lia|done..|]. by split_and!.
Qed.

Lemma modbus_frame_over_uart_witness :
  exists d' s1 b s', link_receive 0 (one_char <$> sample_frame) (sample_slave_uart, idle_rtu) = Some (d', s1) /\
    xMBRTUTimerT35Expired s1 = Some (b, s') /\ eMBRTUReceive s' = Some (MB_ENOERR, Some (1, 5, 1)).
Proof.
  destruct sample_slave_uart_ok as (Hm & Hw & Hi & _).
  destruct (modbus_frame_over_uart 0 (one_char <$> sample_frame) 1 [3; 0; 0; 0; 10] sample_slave_uart idle_rtu Hm Hw Hi)
    as (d' & s1 & b & s' & E & _ & _ & E2 & _ & E3 & _).
  - apply idle_rtu_ok.
  - by_computation.
  - by_computation.
  - vm_compute. split; discriminate.
  - replace (frame 1 [3; 0; 0; 0; 10]) with sample_frame by (vm_compute; reflexivity). apply one_chars. by_computation.
  - exists d', s1, b, s'. exact (conj E (conj E2 E3)).
Defined.

(** If two characters are served by one interrupt, only one of them reaches the
    state machine; the other stays in the FIFO and every later frame arrives one
    character late, also after a silence. *)
Example slave_stays_behind :
  match uart_interrupt 3 0 (with_hw (mk_uart [1; 3] []) sample_slave_uart, idle_rtu) with
  | Some st =>
      match link_receive 0 (one_char <$> drop 2 sample_frame) st with
      | Some (d, s) =>
          match xMBRTUTimerT35Expired s with
          | Some (_, s) =>
              eMBRTUReceive s = Some (MB_EIO, None) /\
              match link_receive 0 (one_char <$> sample_frame) (d, s) with
              | Some (_, s) => take (Z.to_nat (usRcvBufferPos s)) (ucRTUBuf s) = [0xcd; 1; 3; 0; 0; 0; 10; 0xc5]
              | None => False
              end
          | None => False
          end
      | None => False
      end
  | None => False
  end.
Proof. by vm_compute. Qed.

End ModbusLink.
