(* ===== verification/Msh.v ===== *)
(** * The command interpreter of the shell

    [components/finsh/msh.c] as configured (no file system, no modules): a command
    line is split in place into NUL-terminated words, the first word is looked up
    in the table of exported commands, and the command is called with the words.

    A pointer into a character array is the part of the array from there on; an
    access behind its end is a fault.  Strings that are never written, such as the
    names in the command table, are the list of their characters. *)

From S2P Require Import Prelude.

Module Msh.

Definition FINSH_ARG_MAX : Z := 10.

Definition is_blank (c : Z) : bool := (c =? 32) || (c =? 9).
Definition QUOTE : Z := 34.
Definition BACKSLASH : Z := 92.

(** [struct finsh_syscall]: the name with its prefix, the description and the
    function. *)
Record finsh_syscall := mk_syscall { sname : list Z; desc : list Z; func : Z }.

(** ** Splitting *)

(** Strip blanks and tabs. *)
Fixpoint strip (fuel : nat) (cmd : list Z) (position length : Z) : option (list Z * Z) :=
  c ← aget cmd position;
  if is_blank c && (position <? length) then
    match fuel with
    | O => None
    | S fuel => cmd ← aset cmd position 0; strip fuel cmd (position + 1) length
    end
  else Some (cmd, position).

(** Skip a string up to its closing quote. *)
Fixpoint skip_string (fuel : nat) (cmd : list Z) (position length : Z) : option Z :=
  c ← aget cmd position;
  if negb (c =? QUOTE) && (position <? length) then
    match fuel with
    | O => None
    | S fuel =>
        position ← (if c =? BACKSLASH then
                      c1 ← aget cmd (position + 1);
                      Some (if c1 =? QUOTE then position + 1 else position)
                    else Some position);
        skip_string fuel cmd (position + 1) length
    end
  else Some position.

Fixpoint skip_word (fuel : nat) (cmd : list Z) (position length : Z) : option Z :=
  c ← aget cmd position;
  if negb (is_blank c) && (position <? length) then
    match fuel with
    | O => None
    | S fuel => skip_word fuel cmd (position + 1) length
    end
  else Some position.

(** The loop of [msh_split]; an element of [argv] is an offset into [cmd]. *)
Fixpoint split_loop (fuel : nat) (cmd : list Z) (position length : Z) (argv : list Z)
  : option (list Z * list Z) :=
  if position <? length then
    match fuel with
    | O => None
    | S fuel =>
        let n := List.length cmd in
        '(cmd, position) ← strip n cmd position length;
        if FINSH_ARG_MAX <=? zlen argv then Some (cmd, argv)
        else if length <=? position then Some (cmd, argv)
        else
          c ← aget cmd position;
          if c =? QUOTE then
            let argv := argv ++ [position + 1] in
            position ← skip_string n cmd (position + 1) length;
            if length <=? position then Some (cmd, argv)
            else cmd ← aset cmd position 0; split_loop fuel cmd (position + 1) length argv
          else
            let argv := argv ++ [position] in
            position ← skip_word n cmd position length;
            if length <=? position then Some (cmd, argv)
            else split_loop fuel cmd position length argv
    end
  else Some (cmd, argv).

Definition msh_split (cmd : list Z) (length : Z) : option (list Z * list Z) :=
  split_loop (List.length cmd) cmd 0 length [].

(** ** The command table *)

(** The character of a string, its terminating NUL included. *)
Definition str_at (s : list Z) (i : Z) : option Z := aget (s ++ [0]) i.

(** [strncmp] of a string and the characters at [b], as far as its result is zero. *)
Fixpoint strncmp_is_0 (n : nat) (a b : list Z) : option bool :=
  match n with
  | O => Some true
  | S n =>
      x ← str_at a 0;
      y ← aget b 0;
      if negb (x =? y) then Some false else if x =? 0 then Some true else strncmp_is_0 n (tail a) (tail b)
  end.

(** [__cmd_] *)
Definition cmd_prefix : list Z := [95; 95; 99; 109; 100; 95].

Fixpoint msh_get_cmd (table : list finsh_syscall) (cmd : list Z) (size : Z) : option (option Z) :=
  match table with
  | [] => Some None
  | index :: table =>
      b ← strncmp_is_0 6 (sname index) (cmd_prefix ++ [0]);
      if negb b then msh_get_cmd table cmd size
      else
        let name := drop 6 (sname index) in
        b ← strncmp_is_0 (Z.to_nat size) name cmd;
        if negb b then msh_get_cmd table cmd size
        else
          c ← str_at name size;
          if c =? 0 then Some (Some (func index)) else msh_get_cmd table cmd size
  end.

(** ** Execution *)

(** What [msh_exec] does: nothing, call a function with the words at [argv] of
    [cmd], or report that there is no such command. *)
Inductive msh_result :=
  | MshEmpty
  | MshCall (f : Z) (argv : list Z) (cmd : list Z)
  | MshNotFound (name : list Z).

(** [_msh_exec_cmd]: [None] inside stands for [-RT_ERROR]. *)
Definition _msh_exec_cmd (table : list finsh_syscall) (cmd : list Z) (length : Z)
  : option (option (Z * list Z * list Z)) :=
  cmd0_size ← skip_word (List.length cmd) cmd 0 length;
  if cmd0_size =? 0 then Some None
  else
    cmd_func ← msh_get_cmd table cmd cmd0_size;
    match cmd_func with
    | None => Some None
    | Some f =>
        '(cmd, argv) ← msh_split cmd length;
        Some (if zlen argv =? 0 then None else Some (f, argv, cmd))
    end.

(** The string at the beginning of an array. *)
Fixpoint cstr (cmd : list Z) : option (list Z) :=
  match cmd with
  | [] => None
  | c :: cmd => if c =? 0 then Some [] else cons c <$> cstr cmd
  end.

(** The characters before the first space or NUL, which is overwritten. *)
Fixpoint truncate_cmd (cmd : list Z) : option (list Z) :=
  match cmd with
  | [] => None
  | c :: cmd => if (c =? 32) || (c =? 0) then Some [] else cons c <$> truncate_cmd cmd
  end.

(** [msh_exec] behind the loop that trims the beginning of the command. *)
Definition exec_trimmed (table : list finsh_syscall) (cmd : list Z) (length : Z) : option msh_result :=
  if length =? 0 then Some MshEmpty
  else
    r ← _msh_exec_cmd table cmd length;
    match r with
    | Some (f, argv, cmd) => Some (MshCall f argv cmd)
    | None => MshNotFound <$> truncate_cmd cmd
    end.

Fixpoint msh_exec (table : list finsh_syscall) (cmd : list Z) (length : Z) : option msh_result :=
  match cmd with
  | [] => None
  | c :: cmd' => if is_blank c then msh_exec table cmd' (u32 (length - 1)) else exec_trimmed table cmd length
  end.

(** ** Completion *)

Fixpoint str_common (str1 str2 : list Z) : Z :=
  match str1, str2 with
  | a :: str1, b :: str2 => if a =? b then 1 + str_common str1 str2 else 0
  | _, _ => 0
  end.

(** The loop over the table: the first match and the length in common so far
    ([min_length] is 0 before there is one), and the names printed. *)
Fixpoint complete_loop (table : list finsh_syscall) (prefix : list Z) (name_ptr : option (list Z)) (min_length : Z)
  : option (option (list Z) * Z * list (list Z)) :=
  match table with
  | [] => Some (name_ptr, min_length, [])
  | index :: table =>
      b ← strncmp_is_0 6 (sname index) (cmd_prefix ++ [0]);
      if negb b then complete_loop table prefix name_ptr min_length
      else
        let cmd_name := drop 6 (sname index) in
        b ← strncmp_is_0 (length prefix) prefix (cmd_name ++ [0]);
        if negb b then complete_loop table prefix name_ptr min_length
        else
          let '(name_ptr, min_length) :=
            if min_length =? 0 then (Some cmd_name, zlen cmd_name) else (name_ptr, min_length) in
          match name_ptr with
          | None => None
          | Some p =>
              let length := str_common p cmd_name in
              let min_length := if length <? min_length then length else min_length in
              '(r, names) ← complete_loop table prefix (Some p) min_length; Some (r, cmd_name :: names)
          end
  end.

(** [rt_strncpy] of a string into an array. *)
Fixpoint strncpy (dst src : list Z) (n : nat) {struct n} : option (list Z) :=
  match n, dst with
  | O, _ => Some dst
  | S _, [] => None
  | S n, _ :: dst => cons (hd 0 src) <$> strncpy dst (tail src) n
  end.

(** [msh_auto_complete]: the array, and the names printed; [None] for the list of
    all commands. *)
Definition msh_auto_complete (table : list finsh_syscall) (line : list Z) : option (list Z * option (list (list Z))) :=
  prefix ← cstr line;
  if bool_decide (prefix = []) then Some (line, None)
  else
    '(name_ptr, min_length, names) ← complete_loop table prefix None 0;
    line ← (match name_ptr with Some p => strncpy line p (Z.to_nat min_length) | None => Some line end);
    Some (line, Some names).

(** [msh_help]: the names and the descriptions it lists. *)
Fixpoint msh_help (table : list finsh_syscall) : option (list (list Z * list Z)) :=
  match table with
  | [] => Some []
  | index :: table =>
      b ← strncmp_is_0 6 (sname index) (cmd_prefix ++ [0]);
      names ← msh_help table;
      Some (if (b : bool) then (drop 6 (sname index), desc index) :: names else names)
  end.

(** ** The words of a command line *)

Fixpoint drop_blanks (t : list Z) : list Z :=
  match t with c :: t' => if is_blank c then drop_blanks t' else t | [] => [] end.

(** The characters up to the next blank, and the rest. *)
Fixpoint span_word (t : list Z) : list Z * list Z :=
  match t with
  | c :: t' => if is_blank c then ([], t) else let '(w, r) := span_word t' in (c :: w, r)
  | [] => ([], [])
  end.

(** The characters up to the next quote that no backslash precedes, and the rest. *)
Fixpoint span_string (t : list Z) : list Z * list Z :=
  match t with
  | [] => ([], [])
  | c :: t' =>
      if c =? QUOTE then ([], t)
      else
        match t' with
        | d :: t'' =>
            if (c =? BACKSLASH) && (d =? QUOTE) then let '(w, r) := span_string t'' in (c :: d :: w, r)
            else let '(w, r) := span_string t' in (c :: w, r)
        | [] => ([c], [])
        end
  end.

(** Words are separated by blanks; a word that begins with a quote extends to the
    closing quote, which ends it. *)
Fixpoint words_of (n : nat) (t : list Z) : list (list Z) :=
  match n with
  | O => []
  | S n =>
      match drop_blanks t with
      | [] => []
      | c :: t' =>
          if c =? QUOTE then let '(w, r) := span_string t' in w :: words_of n (tail r)
          else let '(w, r) := span_word (c :: t') in w :: words_of n r
      end
  end.

Definition words (t : list Z) : list (list Z) := words_of (length t) t.

(** Characters of a command line: the shell does not store NUL. *)
Definition no_nul (t : list Z) : Prop := Forall (fun c => c <> 0) t.

(** ** Scans *)

Lemma zlen_cons1 (c : Z) a : zlen (c :: a) = zlen a + 1.
Proof. unfold zlen. cbn [length]. lia. Qed.

Lemma strip_spec bs : forall fuel a c r len,
  Forall (fun c => is_blank c = true) bs -> is_blank c = false -> (length bs <= fuel)%nat -> zlen a + zlen bs <= len ->
  strip fuel (a ++ bs ++ c :: r) (zlen a) len = Some (a ++ replicate (length bs) 0 ++ c :: r, zlen a + zlen bs).
Proof.
  induction bs as [|b bs IH]; intros fuel a c r len Hb Hc Hf Hl; cbn [app length replicate].
  - destruct fuel; cbn [strip]; rewrite aget_at; cbn [mbind option_bind]; rewrite Hc; cbn [andb];
      change (zlen (@nil Z)) with 0; by rewrite Z.add_0_r.
  - inversion Hb as [|? ? Hb1 Hb2]; subst. rewrite zlen_cons1 in *. pose proof (zlen_nonneg bs).
    destruct fuel as [|fuel]; [cbn in Hf; lia|]. cbn [strip]. rewrite aget_at. cbn [mbind option_bind].
    rewrite Hb1, (proj2 (Z.ltb_lt (zlen a) len)) by lia. cbn [andb]. rewrite aset_at. cbn [mbind option_bind].
    rewrite <- zlen_snoc with (c := 0). replace (a ++ 0 :: bs ++ c :: r) with ((a ++ [0]) ++ bs ++ c :: r) by by rewrite <- app_assoc.
    rewrite IH; [|done..|cbn in Hf; lia|rewrite zlen_snoc; lia]. rewrite zlen_snoc, <- app_assoc. do 2 f_equal. lia.
Qed.

Lemma skip_word_spec w : forall fuel a c r len,
  Forall (fun c => is_blank c = false) w -> is_blank c = true \/ zlen a + zlen w = len -> (length w <= fuel)%nat ->
  zlen a + zlen w <= len -> skip_word fuel (a ++ w ++ c :: r) (zlen a) len = Some (zlen a + zlen w).
Proof.
  induction w as [|b w IH]; intros fuel a c r len Hw Hc Hf Hl; cbn [app].
  - change (zlen (@nil Z)) with 0 in *. rewrite Z.add_0_r in *.
    assert (negb (is_blank c) && (zlen a <? len) = false) as E
      by (destruct Hc as [->|Hc]; [done|rewrite (proj2 (Z.ltb_ge (zlen a) len)) by lia; apply andb_false_r]).
    destruct fuel; cbn [skip_word]; rewrite aget_at; cbn [mbind option_bind]; by rewrite E.
  - inversion Hw as [|? ? Hw1 Hw2]; subst. rewrite zlen_cons1 in *. pose proof (zlen_nonneg w).
    destruct fuel as [|fuel]; [cbn in Hf; lia|]. cbn [skip_word]. rewrite aget_at. cbn [mbind option_bind].
    rewrite Hw1, (proj2 (Z.ltb_lt (zlen a) len)) by lia. cbn [negb andb]. rewrite <- zlen_snoc with (c := b).
    replace (a ++ b :: w ++ c :: r) with ((a ++ [b]) ++ w ++ c :: r) by by rewrite <- app_assoc.
    rewrite IH; [|done|rewrite zlen_snoc; destruct Hc; [by left|right; lia]|cbn in Hf; lia|rewrite zlen_snoc; lia].
    rewrite zlen_snoc. f_equal. lia.
Qed.

Lemma span_word_spec t : forall w r, span_word t = (w, r) ->
  t = w ++ r /\ Forall (fun c => is_blank c = false) w /\ (r = [] \/ exists b r', r = b :: r' /\ is_blank b = true).
Proof.
  induction t as [|c t IH]; intros w r; cbn [span_word].
  - intros [= <- <-]. split; [done|]. split; [constructor|by left].
  - destruct (is_blank c) eqn:E.
    + intros [= <- <-]. split; [done|]. split; [constructor|]. right. by exists c, t.
    + destruct (span_word t) as [w' r']. intros [= <- <-]. destruct (IH w' r' eq_refl) as (-> & Hw & Hr).
      split; [done|]. split; [by constructor|done].
Qed.

Lemma drop_blanks_spec t : exists bs, t = bs ++ drop_blanks t /\ Forall (fun c => is_blank c = true) bs /\
  (drop_blanks t = [] \/ exists c r, drop_blanks t = c :: r /\ is_blank c = false).
Proof.
  induction t as [|c t (bs & Et & Hb & Hr)]; [by exists []; split; [|split; [|left]]|]. cbn [drop_blanks].
  destruct (is_blank c) eqn:E.
  - exists (c :: bs). split; [by rewrite Et at 1|]. split; [by constructor|done].
  - exists []. split; [done|]. split; [constructor|]. right. by exists c, t.
Qed.

Lemma span_string_ind (P : list Z -> Prop) :
  P [] -> (forall c, P [c]) -> (forall c d t, P t -> P (d :: t) -> P (c :: d :: t)) -> forall t, P t.
Proof.
  intros H0 H1 H2 t. enough (P t /\ forall c, P (c :: t)) by tauto.
  induction t as [|d t [IH1 IH2]]; [done|]. split; [apply IH2|]. intros c. apply H2; [done|apply IH2].
Qed.

Lemma span_string_cons2 c d t :
  span_string (c :: d :: t) =
    if c =? QUOTE then ([], c :: d :: t)
    else if (c =? BACKSLASH) && (d =? QUOTE) then let '(w, r) := span_string t in (c :: d :: w, r)
    else let '(w, r) := span_string (d :: t) in (c :: w, r).
Proof. reflexivity. Qed.

Lemma span_string_spec t : forall w r, span_string t = (w, r) ->
  t = w ++ r /\ (r = [] \/ exists r', r = QUOTE :: r').
Proof.
  induction t as [|c|c d t IH1 IH2] using span_string_ind; intros w r; [cbn [span_string]..|rewrite span_string_cons2].
  - intros [= <- <-]. by split; [|left].
  - destruct (Z.eqb_spec c QUOTE) as [->|Hc]; intros [= <- <-]; split; try done; [right; by exists []|by left].
  - destruct (Z.eqb_spec c QUOTE) as [->|Hc]; [intros [= <- <-]; split; [done|right; by eexists]|].
    destruct ((c =? BACKSLASH) && (d =? QUOTE)).
    + destruct (span_string t) as [w' r']. intros [= <- <-]. destruct (IH1 w' r' eq_refl) as [-> ?]. done.
    + destruct (span_string (d :: t)) as [w' r']. intros [= <- <-]. destruct (IH2 w' r' eq_refl) as [E ?].
      split; [cbn; by rewrite E|done].
Qed.

Lemma skip_string_spec t : forall fuel a z, (length t <= fuel)%nat ->
  skip_string fuel (a ++ t ++ 0 :: z) (zlen a) (zlen a + zlen t) = Some (zlen a + zlen (span_string t).1).
Proof.
  assert (forall fuel a x z len, (x = QUOTE \/ zlen a = len) ->
    skip_string fuel (a ++ x :: z) (zlen a) len = Some (zlen a)) as Hend.
  { intros fuel a x z len Hx. assert (negb (x =? QUOTE) && (zlen a <? len) = false) as E
      by (destruct Hx as [->|<-]; [done|rewrite Z.ltb_irrefl; apply andb_false_r]).
    destruct fuel; cbn [skip_string]; rewrite aget_at; cbn [mbind option_bind]; by rewrite E. }
  assert (forall fuel a x y z len, x <> QUOTE -> zlen a < len ->
    skip_string (S fuel) (a ++ x :: y :: z) (zlen a) len =
    skip_string fuel (a ++ x :: y :: z) (zlen a + (if (x =? BACKSLASH) && (y =? QUOTE) then 2 else 1)) len) as Hstep.
  { intros fuel a x y z len Hx Hl. cbn [skip_string]. rewrite aget_at. cbn [mbind option_bind].
    rewrite (proj2 (Z.eqb_neq x QUOTE) Hx), (proj2 (Z.ltb_lt _ _) Hl). cbn [negb andb].
    replace (a ++ x :: y :: z) with ((a ++ [x]) ++ y :: z) by by rewrite <- app_assoc.
    rewrite <- (zlen_snoc a x), aget_at. rewrite zlen_snoc. destruct (x =? BACKSLASH); cbn [mbind option_bind];
      destruct (y =? QUOTE); cbn [andb]; f_equal; lia. }
  induction t as [|c|c d t IH1 IH2] using span_string_ind; intros fuel a z Hf; cbn [app].
  - change (zlen (span_string []).1) with 0. change (zlen (@nil Z)) with 0. rewrite Z.add_0_r. apply Hend. by right.
  - cbn [span_string]. destruct (Z.eqb_spec c QUOTE) as [->|Hc].
    + rewrite Hend by by left. cbn [fst]. change (zlen (@nil Z)) with 0. by rewrite Z.add_0_r.
    + destruct fuel as [|fuel]; [cbn in Hf; lia|]. change (zlen [c]) with 1. rewrite Hstep by (done || lia).
      rewrite andb_false_r. replace (a ++ c :: 0 :: z) with ((a ++ [c]) ++ 0 :: z) by by rewrite <- app_assoc.
      rewrite <- (zlen_snoc a c), Hend by by right. cbn [fst]. by rewrite zlen_app.
  - rewrite span_string_cons2. destruct (Z.eqb_spec c QUOTE) as [->|Hc].
    + rewrite Hend by by left. cbn [fst]. change (zlen (@nil Z)) with 0. by rewrite Z.add_0_r.
    + destruct fuel as [|fuel]; [cbn in Hf; lia|]. rewrite !zlen_cons1. pose proof (zlen_nonneg t).
      rewrite Hstep by (done || lia). destruct ((c =? BACKSLASH) && (d =? QUOTE)).
      * replace (a ++ c :: d :: t ++ 0 :: z) with ((a ++ [c; d]) ++ t ++ 0 :: z) by by rewrite <- app_assoc.
        replace (zlen a + 2) with (zlen (a ++ [c; d])) by (rewrite zlen_app; done).
        replace (zlen a + (zlen t + 1 + 1)) with (zlen (a ++ [c; d]) + zlen t) by (rewrite zlen_app; unfold zlen; cbn; lia).
        rewrite IH1 by (cbn in Hf; lia). destruct (span_string t) as [w r]. rewrite zlen_app. cbn [fst].
        f_equal. unfold zlen. cbn [length]. lia.
      * replace (a ++ c :: d :: t ++ 0 :: z) with ((a ++ [c]) ++ (d :: t) ++ 0 :: z) by by rewrite <- app_assoc.
        replace (zlen a + (zlen t + 1 + 1)) with (zlen (a ++ [c]) + zlen (d :: t)) by (rewrite zlen_snoc, zlen_cons1; lia).
        rewrite <- (zlen_snoc a c), IH2 by (cbn in *; lia). destruct (span_string (d :: t)) as [w r].
        rewrite zlen_snoc. cbn [fst]. rewrite zlen_cons1. f_equal. lia.
Qed.

(** ** Splitting a clean line *)

(** The string at an offset. *)
Definition string_at (cmd : list Z) (o : Z) (w : list Z) : Prop := cstr (drop (Z.to_nat o) cmd) = Some w.

Lemma cstr_app w z : no_nul w -> cstr (w ++ 0 :: z) = Some w.
Proof.
  induction 1 as [|c w Hc _ IH]; [done|]. cbn [app cstr]. rewrite (proj2 (Z.eqb_neq c 0) Hc). by rewrite IH.
Qed.

Lemma string_at_app a w z : no_nul w -> string_at (a ++ w ++ 0 :: z) (zlen a) w.
Proof. intros Hw. unfold string_at, zlen. rewrite Nat2Z.id, drop_app_length. by apply cstr_app. Qed.

Lemma words_of_nil m : words_of m [] = [].
Proof. by destruct m. Qed.

(** What the loop makes of the text [t]: the array keeps its length, a blank at the
    front becomes NUL, and the new elements of [argv] are the next words. *)
Record split_ok (a t z : list Z) (argv : list Z) (ws : list (list Z)) (cmd argv' : list Z) : Prop := {
  so_cmd : exists t', cmd = a ++ t' ++ 0 :: z /\ length t' = length t /\
    forall c r, t = c :: r -> is_blank c = true -> exists r', t' = 0 :: r';
  so_argv : exists offs, argv' = argv ++ offs /\ Forall2 (string_at cmd) offs (take (10 - length argv) ws);
}.

Lemma split_first a t z argv ws o w cmd argv' :
  string_at cmd o w -> (length argv < 10)%nat ->
  (exists t', cmd = a ++ t' ++ 0 :: z /\ length t' = length t /\
    forall c r, t = c :: r -> is_blank c = true -> exists r', t' = 0 :: r') ->
  (exists offs, argv' = (argv ++ [o]) ++ offs /\
    Forall2 (string_at cmd) offs (take (10 - length (argv ++ [o])) ws)) ->
  split_ok a t z argv (w :: ws) cmd argv'.
Proof.
  intros Ho Hn Ht (offs & -> & Hf). constructor; [done|]. exists (o :: offs). split; [by rewrite <- app_assoc|].
  rewrite length_app in Hf. cbn [length] in Hf.
  replace (10 - length argv)%nat with (S (10 - (length argv + 1))) by lia. cbn [take]. by constructor.
Qed.

(** The array up to the first character that is not blank, after the blanks have
    been overwritten. *)
Definition stripped (a t : list Z) : list Z := a ++ replicate (length t - length (drop_blanks t)) 0.

Lemma zlen_stripped a t : zlen (stripped a t) + zlen (drop_blanks t) = zlen a + zlen t.
Proof.
  destruct (drop_blanks_spec t) as (bs & Et & _). unfold stripped. rewrite zlen_app.
  unfold zlen. rewrite length_replicate. apply (f_equal length) in Et. rewrite length_app in Et. lia.
Qed.

Lemma strip_text a t z : strip (length (a ++ t ++ 0 :: z)) (a ++ t ++ 0 :: z) (zlen a) (zlen a + zlen t) =
  Some (stripped a t ++ drop_blanks t ++ 0 :: z, zlen (stripped a t)).
Proof.
  destruct (drop_blanks_spec t) as (bs & Et & Hb & Hd). pose proof (zlen_stripped a t) as Hz.
  assert (length bs = (length t - length (drop_blanks t))%nat) as Hl
    by (apply (f_equal length) in Et; rewrite length_app in Et; lia).
  assert (exists d x, drop_blanks t ++ 0 :: z = d :: x /\ is_blank d = false) as (d & x & Ex & Hdb)
    by (destruct Hd as [->|(c & r & -> & Hc)]; by do 2 eexists).
  replace (t ++ 0 :: z) with (bs ++ d :: x) by by rewrite Et, <- app_assoc, Ex.
  unfold zlen in *. rewrite strip_spec; [|done..|rewrite !length_app; lia|unfold zlen; lia]. unfold stripped in *.
  rewrite Ex, <- Hl, <- app_assoc in *. f_equal. f_equal. unfold zlen. rewrite length_app, length_replicate. lia.
Qed.

(** One round of the loop. *)
Lemma split_loop_step fuel a t z argv :
  t <> [] -> no_nul t ->
  split_loop (S fuel) (a ++ t ++ 0 :: z) (zlen a) (zlen a + zlen t) argv =
    let a1 := stripped a t in
    let len := zlen a + zlen t in
    if FINSH_ARG_MAX <=? zlen argv then Some (a1 ++ drop_blanks t ++ 0 :: z, argv)
    else match drop_blanks t with
         | [] => Some (a1 ++ 0 :: z, argv)
         | c :: r =>
             if c =? QUOTE then
               let '(w, r1) := span_string r in
               let a2 := a1 ++ [c] in
               match r1 with
               | [] => Some (a2 ++ w ++ 0 :: z, argv ++ [zlen a2])
               | _ :: r2 =>
                   let a3 := a2 ++ w ++ [0] in
                   split_loop fuel (a3 ++ r2 ++ 0 :: z) (zlen a3) (zlen a3 + zlen r2) (argv ++ [zlen a2])
               end
             else
               let '(w, r1) := span_word (c :: r) in
               match r1 with
               | [] => Some (a1 ++ w ++ 0 :: z, argv ++ [zlen a1])
               | _ => let a2 := a1 ++ w in
                      split_loop fuel (a2 ++ r1 ++ 0 :: z) (zlen a2) (zlen a2 + zlen r1) (argv ++ [zlen a1])
               end
         end.
Proof.
  intros Hne Hn. cbn zeta. cbn [split_loop]. rewrite (proj2 (Z.ltb_lt (zlen a) (zlen a + zlen t)))
    by (destruct t; [done|rewrite zlen_cons1; pose proof (zlen_nonneg t); lia]).
  rewrite strip_text. cbn [mbind option_bind]. pose proof (zlen_stripped a t) as Hz.
  set (a1 := stripped a t) in *. set (len := zlen a + zlen t) in *.
  destruct (FINSH_ARG_MAX <=? zlen argv); [done|].
  set (n := length (a ++ t ++ 0 :: z)). assert (forall x : list Z, zlen a1 + zlen x <= len -> (length x <= n)%nat) as Hfuel.
  { intros x Hx. subst n len. rewrite !length_app. unfold zlen in Hx. unfold a1, stripped in Hx. rewrite length_app in Hx. lia. }
  destruct (drop_blanks t) as [|c r] eqn:Ed.
  { rewrite (proj2 (Z.leb_le len (zlen a1))) by (change (zlen (@nil Z)) with 0 in Hz; lia). done. }
  rewrite zlen_cons1 in Hz. pose proof (zlen_nonneg r).
  rewrite (proj2 (Z.leb_gt len (zlen a1))) by lia. cbn [app]. rewrite aget_at. cbn [mbind option_bind].
  destruct (Z.eqb_spec c QUOTE) as [->|Hc].
  - pose proof (skip_string_spec r n (a1 ++ [QUOTE]) z) as Hs. rewrite zlen_snoc, <- app_assoc in Hs. cbn [app] in Hs.
    replace (zlen a1 + 1 + zlen r) with len in Hs by lia. rewrite Hs by (apply Hfuel; lia). cbn [mbind option_bind]. clear Hs.
    destruct (span_string r) as [w r1] eqn:Es. destruct (span_string_spec r w r1 Es) as [-> [->|(r2 & ->)]]; cbn [fst].
    + rewrite app_nil_r in *. rewrite (proj2 (Z.leb_le len (zlen a1 + 1 + zlen w))) by lia.
      rewrite zlen_snoc, <- app_assoc. done.
    + rewrite zlen_app, zlen_cons1 in *. pose proof (zlen_nonneg r2). rewrite (proj2 (Z.leb_gt len (zlen a1 + 1 + zlen w))) by lia.
      replace (a1 ++ QUOTE :: (w ++ QUOTE :: r2) ++ 0 :: z) with ((a1 ++ [QUOTE] ++ w) ++ QUOTE :: r2 ++ 0 :: z)
        by (rewrite <- !app_assoc; done).
      replace (zlen a1 + 1 + zlen w) with (zlen (a1 ++ [QUOTE] ++ w)) by (rewrite !zlen_app; change (zlen [QUOTE]) with 1; lia).
      rewrite aset_at. cbn [mbind option_bind].
      replace ((a1 ++ [QUOTE]) ++ w ++ [0]) with ((a1 ++ [QUOTE] ++ w) ++ [0]) by (rewrite <- !app_assoc; done).
      rewrite !zlen_snoc, <- (app_assoc (a1 ++ [QUOTE] ++ w)). cbn [app]. f_equal.
      all: rewrite ?zlen_app, ?zlen_cons1; lia.
  - destruct (span_word (c :: r)) as [w r1] eqn:Es. destruct (span_word_spec (c :: r) w r1 Es) as (Er & Hw & Hr1).
    assert (zlen w + zlen r1 = zlen r + 1) as Hlw by (rewrite <- zlen_app, <- Er; apply zlen_cons1).
    pose proof (zlen_nonneg r1).
    assert (exists x y, r1 ++ 0 :: z = x :: y /\ (is_blank x = true \/ zlen a1 + zlen w = len)) as (x & y & Exy & Hxy).
    { destruct Hr1 as [->|(b & r' & -> & Hb)]; do 2 eexists; (split; [reflexivity|]); [right|by left].
      change (zlen (@nil Z)) with 0 in *. lia. }
    change (c :: r ++ 0 :: z) with ((c :: r) ++ 0 :: z). rewrite Er, <- app_assoc, Exy.
    rewrite skip_word_spec; [|done..|apply Hfuel; lia|lia]. cbn [mbind option_bind]. rewrite <- Exy.
    destruct Hr1 as [->|(b & r' & -> & Hb)].
    + change (zlen (@nil Z)) with 0 in *. rewrite (proj2 (Z.leb_le len (zlen a1 + zlen w))) by lia. done.
    + rewrite zlen_cons1 in *. pose proof (zlen_nonneg r'). rewrite (proj2 (Z.leb_gt len (zlen a1 + zlen w))) by lia.
      rewrite zlen_app, <- app_assoc. f_equal. lia.
Qed.

Lemma no_nul_sub a t b : no_nul (a ++ t ++ b) -> no_nul t.
Proof. intros H. apply Forall_app in H as [_ H]. by apply Forall_app in H as [H _]. Qed.

(** What one round has put in front of the rest of the text. *)
Lemma split_ok_front x y a t z argv ws cmd argv' :
  split_ok (a ++ x) y z argv ws cmd argv' -> length t = (length x + length y)%nat ->
  (forall c r, t = c :: r -> is_blank c = true -> exists r', x = 0 :: r') ->
  exists t', cmd = a ++ t' ++ 0 :: z /\ length t' = length t /\
    forall c r, t = c :: r -> is_blank c = true -> exists r', t' = 0 :: r'.
Proof.
  intros [(t' & -> & Hl & _) _] Ht Hb. exists (x ++ t'). split; [by rewrite <- !app_assoc|].
  split; [rewrite length_app; lia|]. intros c r E Hc. destruct (Hb c r E Hc) as [r' ->]. by eexists.
Qed.

Lemma stripped_blank a t : exists zs, stripped a t = a ++ zs /\ length t = (length zs + length (drop_blanks t))%nat /\
  forall c r, t = c :: r -> is_blank c = true -> exists r', zs = 0 :: r'.
Proof.
  pose proof (zlen_stripped a t) as Hz. unfold stripped in *. eexists. split; [done|].
  rewrite zlen_app in Hz. unfold zlen in Hz. split; [lia|]. intros c r -> Hc. cbn [drop_blanks]. rewrite Hc.
  destruct (drop_blanks_spec r) as (bs & E & _). apply (f_equal length) in E. rewrite length_app in E. cbn [length].
  destruct (S (length r) - length (drop_blanks r))%nat eqn:En; [lia|]. by eexists.
Qed.

(** A string in quotes, and the rest of the text. *)
Lemma split_after_string a zs w r t z argv ws cmd argv' :
  split_ok (((a ++ zs) ++ [QUOTE]) ++ w ++ [0]) r z (argv ++ [zlen ((a ++ zs) ++ [QUOTE])]) ws cmd argv' ->
  no_nul w -> (length argv < 10)%nat -> length t = (length zs + S (length w + S (length r)))%nat ->
  (forall c r, t = c :: r -> is_blank c = true -> exists r', zs = 0 :: r') ->
  split_ok a t z argv (w :: ws) cmd argv'.
Proof.
  intros Hok Hw Hn Hlen Hb. pose proof Hok as [(t' & Et' & _) Ha].
  apply (split_first _ _ _ _ _ (zlen ((a ++ zs) ++ [QUOTE])) w); [|done| |exact Ha].
  - replace cmd with (((a ++ zs) ++ [QUOTE]) ++ w ++ 0 :: t' ++ 0 :: z) by (rewrite Et'; by rewrite <- !app_assoc).
    by apply string_at_app.
  - rewrite <- !app_assoc in Hok. eapply (split_ok_front (zs ++ [QUOTE] ++ w ++ [0])); [exact Hok|rewrite !length_app; cbn; lia|].
    intros c' r' E' Hc'. destruct (Hb c' r' E' Hc') as [r'' ->]. by eexists.
Qed.

(** A word, and the rest of the text behind the blank that ends it. *)
Lemma split_after_word a zs w b r t z argv ws cmd argv' :
  split_ok ((a ++ zs) ++ w) (b :: r) z (argv ++ [zlen (a ++ zs)]) ws cmd argv' -> is_blank b = true ->
  no_nul w -> (length argv < 10)%nat -> length t = (length zs + (length w + S (length r)))%nat ->
  (forall c r, t = c :: r -> is_blank c = true -> exists r', zs = 0 :: r') ->
  split_ok a t z argv (w :: ws) cmd argv'.
Proof.
  intros Hok Hbl Hw Hn Hlen Hb. pose proof Hok as [(t' & Et' & _ & Ht') Ha].
  apply (split_first _ _ _ _ _ (zlen (a ++ zs)) w); [|done| |exact Ha].
  - destruct (Ht' b r eq_refl Hbl) as [r' ->]. rewrite Et', <- (app_assoc (a ++ zs)). cbn [app]. by apply string_at_app.
  - rewrite <- !app_assoc in Hok. eapply (split_ok_front (zs ++ w)); [exact Hok|rewrite !length_app; cbn; lia|].
    intros c' r' E' Hc'. destruct (Hb c' r' E' Hc') as [r'' ->]. by eexists.
Qed.

Lemma split_loop_spec m : forall t fuel a z argv,
  (length t <= m)%nat -> no_nul t -> (length t <= fuel)%nat ->
  exists cmd argv', split_loop fuel (a ++ t ++ 0 :: z) (zlen a) (zlen a + zlen t) argv = Some (cmd, argv') /\
    split_ok a t z argv (words_of m t) cmd argv'.
Proof.
  induction m as [|m IH]; intros t fuel a z argv Hm Hn Hf; (destruct (decide (t = [])) as [->|Hne]).
  1,3: change (zlen (@nil Z)) with 0; rewrite Z.add_0_r; exists (a ++ 0 :: z), argv;
    (split; [destruct fuel; cbn [split_loop]; by rewrite Z.ltb_irrefl|]);
    (constructor; [by exists []; split; [|split]|]); exists []; rewrite app_nil_r, words_of_nil, take_nil; by split.
  { destruct t; [done|cbn in Hm; lia]. }
  destruct fuel as [|fuel]; [destruct t; [done|cbn in Hf; lia]|]. rewrite split_loop_step by done. cbn zeta.
  destruct (stripped_blank a t) as (zs & -> & Hlen & Hb). unfold FINSH_ARG_MAX.
  assert (exists t', (a ++ zs) ++ drop_blanks t ++ 0 :: z = a ++ t' ++ 0 :: z /\ length t' = length t /\
    forall c r, t = c :: r -> is_blank c = true -> exists r', t' = 0 :: r') as Hstop.
  { exists (zs ++ drop_blanks t). split; [by rewrite <- !app_assoc|]. split; [by rewrite length_app|].
    intros c r E Hc. destruct (Hb c r E Hc) as [r' ->]. by eexists. }
  destruct (Z.leb_spec 10 (zlen argv)) as [Hfull|Hroom].
  { do 2 eexists. split; [done|]. constructor; [done|]. exists []. rewrite app_nil_r. split; [done|].
    unfold zlen in Hfull. by replace (10 - length argv)%nat with 0%nat by lia. }
  assert (length argv < 10)%nat as Hroom' by (unfold zlen in Hroom; lia). clear Hroom.
  assert (no_nul (drop_blanks t)) as Hnd
    by (destruct (drop_blanks_spec t) as (bs & Et & _); rewrite Et in Hn; by apply Forall_app in Hn as [_ Hn]).
  cbn [words_of]. destruct (drop_blanks t) as [|c r] eqn:Ed.
  { do 2 eexists. split; [done|]. constructor; [done|]. exists []. by rewrite app_nil_r, take_nil. }
  cbn [length] in Hlen. destruct (Z.eqb_spec c QUOTE) as [->|Hc].
  - destruct (span_string r) as [w r1] eqn:Es. destruct (span_string_spec r w r1 Es) as [-> Hr1].
    assert (no_nul w) as Hnw by (apply (no_nul_sub [QUOTE] w r1); exact Hnd). destruct Hr1 as [->|(r2 & ->)]; cbn [tail].
    + do 2 eexists. split; [done|]. rewrite words_of_nil. rewrite app_nil_r in *.
      apply (split_first _ _ _ _ _ (zlen ((a ++ zs) ++ [QUOTE])) w); [by apply string_at_app|done| |].
      * rewrite <- (app_assoc (a ++ zs)). exact Hstop.
      * exists []. rewrite app_nil_r, take_nil. by split.
    + rewrite length_app in *. cbn [length] in *.
      destruct (IH r2 fuel (((a ++ zs) ++ [QUOTE]) ++ w ++ [0]) z (argv ++ [zlen ((a ++ zs) ++ [QUOTE])]))
        as (cmd & argv' & E & Hok); [lia|by eapply (no_nul_sub (QUOTE :: w ++ [QUOTE]) r2 []); rewrite app_nil_r, <- app_comm_cons, <- app_assoc|lia|].
      exists cmd, argv'. split; [exact E|]. eapply (split_after_string a zs w r2); [exact Hok|done|done|lia|exact Hb].
  - destruct (span_word (c :: r)) as [w r1] eqn:Es. destruct (span_word_spec (c :: r) w r1 Es) as (Er & Hw & Hr1).
    assert (no_nul w) as Hnw by (apply (no_nul_sub [] w r1); cbn [app]; by rewrite <- Er).
    assert (length (c :: r) = length w + length r1)%nat as Hlr by (by rewrite Er, length_app). cbn [length] in Hlr.
    destruct Hr1 as [->|(b & r2 & -> & Hbl)].
    + do 2 eexists. split; [done|]. rewrite words_of_nil. rewrite app_nil_r in *. subst w.
      apply (split_first _ _ _ _ _ (zlen (a ++ zs)) (c :: r)); [by apply string_at_app|done|exact Hstop|].
      exists []. rewrite app_nil_r, take_nil. by split.
    + assert (0 < length w)%nat as Hwl.
      { destruct w; [|cbn; lia]. injection Er as -> ->. cbn [span_word] in Es.
        destruct (drop_blanks_spec t) as (? & _ & _ & [E|(c' & r' & E & Hc')]); rewrite E in Ed; [done|]. injection Ed as <- <-. congruence. }
      cbn [length] in *.
      destruct (IH (b :: r2) fuel ((a ++ zs) ++ w) z (argv ++ [zlen (a ++ zs)]))
        as (cmd & argv' & E & Hok); [cbn; lia|rewrite Er in Hnd; by apply Forall_app in Hnd as [_ Hnd]|cbn; lia|].
      exists cmd, argv'. split; [exact E|]. eapply (split_after_word a zs w b r2); [exact Hok|done..|cbn; lia|exact Hb].
Qed.

(** ** The command table *)

Definition named (w : list Z) (s : finsh_syscall) : bool := bool_decide (sname s = cmd_prefix ++ w).

(** The first command of a name. *)
Fixpoint lookup_cmd (table : list finsh_syscall) (w : list Z) : option Z :=
  match table with
  | [] => None
  | s :: table => if named w s then Some (func s) else lookup_cmd table w
  end.

(** The names are C strings. *)
Definition table_ok (table : list finsh_syscall) : Prop := Forall (fun s => no_nul (sname s)) table.

Lemma str_at_0 a : str_at a 0 = Some (hd 0 a).
Proof. by destruct a. Qed.

Lemma bool_decide_cons_ne (x y : Z) a b : x <> y -> bool_decide (x :: a = y :: b) = false.
Proof. intros H. apply bool_decide_false. by intros [= ? _]. Qed.

Lemma bool_decide_cons (x : Z) a b : bool_decide (x :: a = x :: b) = bool_decide (a = b).
Proof. apply bool_decide_ext. split; [by intros [= ->]|by intros ->]. Qed.

Lemma strncmp_spec w : forall a r, no_nul a -> no_nul w ->
  strncmp_is_0 (length w) a (w ++ r) = Some (bool_decide (take (length w) a = w)).
Proof.
  induction w as [|y w IH]; intros a r Ha Hw; cbn [length strncmp_is_0 app].
  - by rewrite take_0, bool_decide_true.
  - rewrite str_at_0. inversion Hw as [|? ? Hy Hw']; subst. change (aget (y :: w ++ r) 0) with (Some y).
    cbn [mbind option_bind tail]. destruct a as [|x a]; cbn [hd tail take].
    + rewrite (proj2 (Z.eqb_neq 0 y)) by congruence. cbn [negb]. by rewrite bool_decide_false.
    + inversion Ha as [|? ? Hx Ha']; subst. destruct (Z.eqb_spec x y) as [->|Hxy]; cbn [negb].
      * rewrite (proj2 (Z.eqb_neq y 0) Hy), IH by done. by rewrite bool_decide_cons.
      * by rewrite bool_decide_cons_ne.
Qed.

Lemma strncmp_prefix p : forall name, no_nul p -> no_nul name ->
  strncmp_is_0 (length p) p (name ++ [0]) = Some (bool_decide (take (length p) name = p)).
Proof.
  induction p as [|x p IH]; intros name Hp Hn; cbn [length strncmp_is_0 app].
  - by rewrite take_0, bool_decide_true.
  - rewrite str_at_0. inversion Hp as [|? ? Hx Hp']; subst. cbn [hd tail]. destruct name as [|y name]; cbn [app tail take].
    + change (aget [0] 0) with (Some 0). cbn [mbind option_bind]. rewrite (proj2 (Z.eqb_neq x 0) Hx). cbn [negb].
      by rewrite bool_decide_false.
    + inversion Hn as [|? ? Hy Hn']; subst. change (aget (y :: name ++ [0]) 0) with (Some y). cbn [mbind option_bind].
      destruct (Z.eqb_spec x y) as [->|Hxy]; cbn [negb].
      * rewrite (proj2 (Z.eqb_neq y 0) Hy), IH by done. by rewrite bool_decide_cons.
      * by rewrite bool_decide_cons_ne by congruence.
Qed.

Lemma str_at_end name w : no_nul name -> take (length w) name = w ->
  exists c, str_at name (zlen w) = Some c /\ (c =? 0) = bool_decide (name = w).
Proof.
  intros Hn Hw. destruct (decide (name = w)) as [->|Hne].
  - exists 0. unfold str_at. rewrite aget_at. by rewrite bool_decide_true.
  - assert (length w < length name)%nat as Hl.
    { destruct (Nat.lt_ge_cases (length w) (length name)) as [|H]; [done|]. rewrite take_ge in Hw by done. congruence. }
    destruct (lookup_lt_is_Some_2 name (length w) Hl) as [c Hc]. exists c. unfold str_at, aget, zlen.
    destruct (Z.leb_spec 0 (Z.of_nat (length w))); [|lia]. rewrite Nat2Z.id, lookup_app_l by lia. split; [done|].
    rewrite bool_decide_false by done. apply Z.eqb_neq. exact (Forall_lookup_1 _ _ _ _ Hn Hc).
Qed.

Lemma named_split w s : named w s = bool_decide (take 6 (sname s) = cmd_prefix) && bool_decide (drop 6 (sname s) = w).
Proof.
  unfold named. rewrite <- bool_decide_and. apply bool_decide_ext. split; [intros ->; by split|].
  intros [H1 H2]. by rewrite <- (take_drop 6 (sname s)), H1, H2.
Qed.

Lemma get_cmd_spec table w r : table_ok table -> no_nul w ->
  msh_get_cmd table (w ++ r) (zlen w) = Some (lookup_cmd table w).
Proof.
  intros Ht Hw. induction Ht as [|s table Hs Ht IH]; [done|]. cbn [msh_get_cmd lookup_cmd].
  rewrite (strncmp_spec cmd_prefix) by (done || by_computation). cbn [mbind option_bind]. rewrite named_split.
  change (length cmd_prefix) with 6%nat. destruct (bool_decide (take 6 (sname s) = cmd_prefix)); cbn [negb andb]; [|done].
  assert (no_nul (drop 6 (sname s))) as Hd by by apply Forall_drop. replace (Z.to_nat (zlen w)) with (length w) by (unfold zlen; lia).
  rewrite strncmp_spec by done. cbn [mbind option_bind].
  destruct (decide (take (length w) (drop 6 (sname s)) = w)) as [E|E].
  - rewrite (bool_decide_true _ E). cbn [negb]. destruct (str_at_end _ _ Hd E) as (c & -> & Hz). cbn [mbind option_bind]. rewrite Hz.
    by destruct (bool_decide (drop 6 (sname s) = w)).
  - rewrite (bool_decide_false _ E). cbn [negb]. rewrite (bool_decide_false (drop 6 (sname s) = w)); [done|].
    intros <-. apply E. by rewrite take_ge.
Qed.

(** ** Executing a command line *)

(** The characters before the first space. *)
Fixpoint before_space (t : list Z) : list Z :=
  match t with c :: t => if c =? 32 then [] else c :: before_space t | [] => [] end.

Lemma truncate_spec t z : no_nul t -> truncate_cmd (t ++ 0 :: z) = Some (before_space t).
Proof.
  induction 1 as [|c t Hc _ IH]; [done|]. cbn [app truncate_cmd before_space]. rewrite (proj2 (Z.eqb_neq c 0) Hc), orb_false_r.
  destruct (c =? 32); [done|]. by rewrite IH.
Qed.

(** What is done with a command line. *)
Definition line_result (table : list finsh_syscall) (t : list Z) (r : msh_result) : Prop :=
  match drop_blanks t with
  | [] => r = MshEmpty
  | d =>
      match lookup_cmd table (span_word d).1 with
      | Some f => exists argv cmd, r = MshCall f argv cmd /\ Forall2 (string_at cmd) argv (take 10 (words t))
      | None => r = MshNotFound (before_space d)
      end
  end.

Lemma words_blanks bs d : Forall (fun c => is_blank c = true) bs -> drop_blanks (bs ++ d) = drop_blanks d.
Proof. induction 1 as [|b bs Hb _ IH]; [done|]. cbn [app drop_blanks]. by rewrite Hb. Qed.

Lemma cmd0_spec d z : no_nul d ->
  skip_word (length (d ++ 0 :: z)) (d ++ 0 :: z) 0 (zlen d) = Some (zlen (span_word d).1).
Proof.
  intros Hn. destruct (span_word d) as [w r] eqn:E. destruct (span_word_spec d w r E) as (-> & Hw & Hr). cbn [fst].
  assert (exists x y, r ++ 0 :: z = x :: y /\ (is_blank x = true \/ zlen w = zlen (w ++ r))) as (x & y & Exy & Hxy).
  { destruct Hr as [->|(b & r' & -> & Hb)]; do 2 eexists; (split; [reflexivity|]); [right; by rewrite app_nil_r|by left]. }
  rewrite <- app_assoc, Exy. pose proof (zlen_nonneg r).
  apply (skip_word_spec w _ [] x y); [done|done|rewrite length_app; lia|rewrite zlen_app; change (zlen (@nil Z)) with 0; lia].
Qed.

Lemma words_nonempty m d : (length d <= m)%nat -> drop_blanks d <> [] -> words_of m d <> [].
Proof.
  intros Hm Hd. destruct m as [|m]; [destruct d; [done|cbn in Hm; lia]|]. cbn [words_of].
  destruct (drop_blanks d) as [|c r]; [done|]. destruct (c =? QUOTE); [by destruct (span_string r)|by destruct (span_word (c :: r))].
Qed.

Lemma msh_split_spec m d z : no_nul d -> (length d <= m)%nat ->
  exists cmd argv, msh_split (d ++ 0 :: z) (zlen d) = Some (cmd, argv) /\ Forall2 (string_at cmd) argv (take 10 (words_of m d)).
Proof.
  intros Hn Hm. unfold msh_split.
  destruct (split_loop_spec m d (length (d ++ 0 :: z)) [] z [] Hm Hn) as (cmd & argv & E & [_ (offs & -> & Hf)]);
    [rewrite length_app; lia|]. exists cmd, offs. split; [exact E|exact Hf].
Qed.

Lemma exec_trimmed_spec table c r z m :
  table_ok table -> no_nul (c :: r) -> is_blank c = false -> (length (c :: r) <= m)%nat ->
  exists res, exec_trimmed table (c :: r ++ 0 :: z) (zlen (c :: r)) = Some res /\
    match lookup_cmd table (span_word (c :: r)).1 with
    | Some f => exists argv cmd, res = MshCall f argv cmd /\ Forall2 (string_at cmd) argv (take 10 (words_of m (c :: r)))
    | None => res = MshNotFound (before_space (c :: r))
    end.
Proof.
  intros Ht Hn Hc Hm. change (c :: r ++ 0 :: z) with ((c :: r) ++ 0 :: z). remember (c :: r) as d eqn:Ed.
  destruct (span_word_spec d _ _ (surjective_pairing _)) as (Esp & _ & _).
  assert (0 < zlen (span_word d).1) as Hw
    by (subst d; cbn [span_word]; rewrite Hc; destruct (span_word r) as [w ?]; cbn [fst]; rewrite zlen_cons1; pose proof (zlen_nonneg w); lia).
  unfold exec_trimmed, _msh_exec_cmd. rewrite (proj2 (Z.eqb_neq (zlen d) 0)) by (subst d; rewrite zlen_cons1; pose proof (zlen_nonneg r); lia).
  rewrite cmd0_spec by done. cbn [mbind option_bind]. rewrite (proj2 (Z.eqb_neq _ 0)) by lia.
  assert (no_nul (span_word d).1) as Hnw by (rewrite Esp in Hn; by apply Forall_app in Hn as [Hn _]).
  assert (msh_get_cmd table (d ++ 0 :: z) (zlen (span_word d).1) = Some (lookup_cmd table (span_word d).1)) as ->
    by (rewrite <- (get_cmd_spec table _ ((span_word d).2 ++ 0 :: z)) by done; by rewrite app_assoc, <- Esp).
  cbn [mbind option_bind].
  destruct (lookup_cmd table (span_word d).1) as [f|].
  - destruct (msh_split_spec m d z Hn Hm) as (cmd & argv & E & Hf). rewrite E. cbn [mbind option_bind].
    rewrite (proj2 (Z.eqb_neq (zlen argv) 0)); [by eexists; split; [|do 2 eexists; split]|]. intros H0.
    apply Forall2_length in Hf. rewrite length_take in Hf. unfold zlen in H0.
    destruct (words_of m d) eqn:E2; [|cbn in Hf; lia]. apply (words_nonempty m d); [done| |done].
    subst d. cbn [drop_blanks]. by rewrite Hc.
  - cbn [mbind option_bind]. rewrite truncate_spec by done. by eexists.
Qed.

Lemma exec_spec table t z : table_ok table -> no_nul t -> zlen t < 2 ^ 32 ->
  exists res, msh_exec table (t ++ 0 :: z) (zlen t) = Some res /\ line_result table t res.
Proof.
  intros Ht Hn Hl. unfold line_result, words.
  enough (forall m, (length t <= m)%nat -> exists res, msh_exec table (t ++ 0 :: z) (zlen t) = Some res /\
    match drop_blanks t with
    | [] => res = MshEmpty
    | d => match lookup_cmd table (span_word d).1 with
           | Some f => exists argv cmd, res = MshCall f argv cmd /\ Forall2 (string_at cmd) argv (take 10 (words_of m t))
           | None => res = MshNotFound (before_space d)
           end
    end) by auto.
  induction t as [|c t IH]; intros m Hm; [by eexists|].
  inversion Hn as [|? ? Hc Hn']; subst. rewrite zlen_cons1 in *. cbn [app msh_exec drop_blanks]. destruct (is_blank c) eqn:Hb.
  - pose proof (zlen_nonneg t). replace (zlen t + 1 - 1) with (zlen t) by lia. rewrite wrapu_small by lia.
    destruct (IH Hn' ltac:(lia) m ltac:(cbn in Hm; lia)) as (res & E & Hres). exists res. split; [done|].
    destruct m as [|m]; [cbn in Hm; lia|]. cbn [words_of drop_blanks] in *. by rewrite Hb.
  - rewrite <- zlen_cons1 with (c := c). by apply exec_trimmed_spec.
Qed.

(** ** Writing a command line *)

(** A word that needs no quotes. *)
Definition plain (w : list Z) : bool :=
  match w with [] => false | c :: _ => negb (c =? QUOTE) && forallb (fun c => negb (is_blank c)) w end.

Definition print_word (w : list Z) : list Z := if plain w then w else QUOTE :: w ++ [QUOTE].

Fixpoint print_line (ws : list (list Z)) : list Z :=
  match ws with
  | [] => []
  | [w] => print_word w
  | w :: ws => print_word w ++ 32 :: print_line ws
  end.

(** A word that can be put between quotes. *)
Definition quotable (w : list Z) : Prop := Forall (fun c => c <> QUOTE) w /\ last w <> Some BACKSLASH.

Lemma span_word_app w r : Forall (fun c => is_blank c = false) w ->
  (r = [] \/ exists b r', r = b :: r' /\ is_blank b = true) -> span_word (w ++ r) = (w, r).
Proof.
  intros Hw Hr. induction Hw as [|c w Hc _ IH]; cbn [app].
  - destruct Hr as [->|(b & r' & -> & Hb)]; [done|]. cbn [span_word]. by rewrite Hb.
  - cbn [span_word]. by rewrite Hc, IH.
Qed.

Lemma span_string_app w r : quotable w -> span_string (w ++ QUOTE :: r) = (w, QUOTE :: r).
Proof.
  intros [Hq Hl]. induction w as [|c|c d w IH1 IH2] using span_string_ind; [done|..]; cbn [app];
    rewrite span_string_cons2; inversion Hq as [|? ? Hc Hq']; subst; rewrite (proj2 (Z.eqb_neq c QUOTE) Hc).
  - rewrite (proj2 (Z.eqb_neq c BACKSLASH)) by (intros ->; by apply Hl). done.
  - inversion Hq' as [|? ? Hd _]; subst. rewrite (proj2 (Z.eqb_neq d QUOTE) Hd), andb_false_r.
    change (d :: w ++ QUOTE :: r) with ((d :: w) ++ QUOTE :: r). by rewrite IH2.
Qed.

Lemma plain_blank w : plain w = true ->
  exists c w', w = c :: w' /\ Forall (fun c => is_blank c = false) w.
Proof.
  destruct w as [|c w]; [done|]. intros [_ Hw]%andb_prop. exists c, w. split; [done|].
  apply Forall_forall. intros x Hx. apply negb_true_iff. rewrite forallb_forall in Hw. apply Hw. by apply list_elem_of_In.
Qed.

Lemma words_print_word m w r : quotable w -> r = [] \/ (exists b r', r = b :: r' /\ is_blank b = true) ->
  words_of (S m) (print_word w ++ r) = w :: words_of m r.
Proof.
  intros Hq Hr. unfold print_word. destruct (plain w) eqn:Ep.
  - destruct (plain_blank w Ep) as (c & w' & -> & Hb). apply andb_prop in Ep as [Hc _]. apply negb_true_iff in Hc. rename w' into w.
    cbn [app words_of drop_blanks]. inversion Hb as [|? ? Hb1 _]; subst. rewrite Hb1, Hc.
    change (c :: w ++ r) with ((c :: w) ++ r). by rewrite span_word_app.
  - cbn [app words_of drop_blanks]. change (is_blank QUOTE) with false. cbn match. rewrite Z.eqb_refl, <- app_assoc.
    cbn [app]. by rewrite span_string_app.
Qed.

Lemma words_space m t : words_of (S m) (32 :: t) = words_of (S m) t.
Proof. reflexivity. Qed.

Lemma print_word_length w : (1 <= length (print_word w))%nat.
Proof. unfold print_word. destruct (plain w) eqn:E; [destruct w; [done|cbn; lia]|cbn; lia]. Qed.

Lemma print_line_words ws : forall m, Forall quotable ws -> (length (print_line ws) <= m)%nat -> words_of m (print_line ws) = ws.
Proof.
  induction ws as [|w ws IH]; intros m Hq Hm; [apply words_of_nil|]. inversion Hq as [|? ? Hw Hq']; subst.
  pose proof (print_word_length w). destruct ws as [|w' ws].
  - cbn [print_line] in *. destruct m as [|m]; [lia|]. rewrite <- (app_nil_r (print_word w)), words_print_word; [|done|by left].
    by rewrite words_of_nil.
  - set (ws1 := w' :: ws) in *. change (print_line (w :: ws1)) with (print_word w ++ 32 :: print_line ws1) in *.
    rewrite length_app in Hm. cbn [length] in Hm. destruct m as [|m]; [lia|].
    rewrite words_print_word; [|done|right; by do 2 eexists]. destruct m as [|m]; [lia|]. rewrite words_space, IH; [done..|lia].
Qed.

Lemma print_line_no_nul ws : Forall no_nul ws -> no_nul (print_line ws).
Proof.
  assert (forall w, no_nul w -> no_nul (print_word w)) as Hp.
  { intros w Hw. unfold print_word. destruct (plain w); [done|]. constructor; [done|]. apply Forall_app. by split; [|constructor]. }
  induction 1 as [|w ws Hw Hws IH]; [constructor|]. destruct ws as [|w' ws]; [by apply Hp|].
  change (no_nul (print_word w ++ 32 :: print_line (w' :: ws))). apply Forall_app. split; [by apply Hp|by constructor].
Qed.

(** The first word of a printed line, if it needs no quotes. *)
Lemma print_line_first c args : plain c = true ->
  exists x r, drop_blanks (print_line (c :: args)) = x :: r /\ (span_word (x :: r)).1 = c.
Proof.
  intros Hc. assert (print_word c = c) as Epw by (unfold print_word; by rewrite Hc).
  assert (exists r, print_line (c :: args) = c ++ r /\ (r = [] \/ exists b r', r = b :: r' /\ is_blank b = true)) as (r & Er & Hr).
  { destruct args as [|w args]; [exists []; cbn; by rewrite Epw, app_nil_r; split; [|left]|].
    exists (32 :: print_line (w :: args)). split; [by rewrite <- Epw at 2|]. right. by do 2 eexists. }
  rewrite Er. apply plain_blank in Hc as (x & c' & -> & Hb). inversion Hb as [|? ? Hx _]; subst.
  exists x, (c' ++ r). cbn [app drop_blanks]. rewrite Hx. split; [done|].
  change (x :: c' ++ r) with ((x :: c') ++ r). by rewrite span_word_app.
Qed.

(** ** Completion *)

Definition is_command (s : finsh_syscall) : bool := bool_decide (take 6 (sname s) = cmd_prefix).

(** The commands whose names begin with [p], in the order of the table. *)
Fixpoint matches (table : list finsh_syscall) (p : list Z) : list (list Z) :=
  match table with
  | [] => []
  | s :: table =>
      let name := drop 6 (sname s) in
      if is_command s && bool_decide (take (length p) name = p) then name :: matches table p else matches table p
  end.

Lemma take_prefix (p q : list Z) : take (length p) q = p <-> p `prefix_of` q.
Proof.
  split; [intros <-; apply prefix_take|]. intros [r ->]. by rewrite take_app_length.
Qed.

Lemma matches_prefix table p : Forall (fun n => p `prefix_of` n) (matches table p).
Proof.
  induction table as [|s table IH]; [constructor|]. cbn [matches]. destruct (is_command s); [|done]. cbn [andb].
  case_bool_decide as E; [|done]. constructor; [by apply take_prefix|done].
Qed.

Lemma str_common_spec q : forall m r, r `prefix_of` q -> r `prefix_of` m <-> zlen r <= str_common q m.
Proof.
  induction q as [|x q IH]; intros m r Hr.
  - apply prefix_nil_inv in Hr as ->. split; [|intros _; apply prefix_nil]. by destruct m.
  - destruct r as [|y r]; [split; [intros _|intros _; apply prefix_nil]; cbn; destruct m as [|z m]; [done|];
      destruct (x =? z); [|done]; pose proof (proj1 (IH m [] (prefix_nil _)) (prefix_nil _)) as H; change (zlen (@nil Z)) with 0 in *; lia|].
    pose proof (prefix_cons_inv_1 _ _ _ _ Hr) as ->. apply prefix_cons_inv_2 in Hr. rewrite zlen_cons1.
    destruct m as [|z m]; cbn [str_common]; [split; [by intros ?%prefix_nil_inv|pose proof (zlen_nonneg r); lia]|].
    destruct (Z.eqb_spec x z) as [->|Hxz].
    + specialize (IH m r Hr). split; [intros ?%prefix_cons_inv_2; apply IH in H; lia|]. intros H.
      apply prefix_cons. apply IH. lia.
    + split; [by intros ?%prefix_cons_inv_1|]. pose proof (zlen_nonneg r). lia.
Qed.

(** The length that the names in [ms] have in common with [q]. *)
Definition common (q : list Z) (n : Z) (ms : list (list Z)) : Z := foldl (fun n m => Z.min n (str_common q m)) n ms.

Lemma common_spec q ms : forall n r, r `prefix_of` q -> zlen r <= common q n ms <-> zlen r <= n /\ Forall (prefix r) ms.
Proof.
  induction ms as [|m ms IH]; intros n r Hr; cbn [common foldl]; [split; [by split|by intros [? _]]|].
  fold (common q (Z.min n (str_common q m)) ms). rewrite IH, Forall_cons, (str_common_spec q m r Hr) by done. rewrite Z.min_glb_iff. tauto.
Qed.

Lemma complete_step s table p ptr n : no_nul (sname s) -> no_nul p ->
  complete_loop (s :: table) p ptr n =
    if is_command s && bool_decide (take (length p) (drop 6 (sname s)) = p) then
      let name := drop 6 (sname s) in
      let '(ptr, n) := if n =? 0 then (Some name, zlen name) else (ptr, n) in
      match ptr with
      | None => None
      | Some q => '(r, names) ← complete_loop table p (Some q) (Z.min n (str_common q name)); Some (r, name :: names)
      end
    else complete_loop table p ptr n.
Proof.
  intros Hs Hp. cbn [complete_loop]. rewrite (strncmp_spec cmd_prefix) by (done || by_computation).
  cbn [mbind option_bind]. change (length cmd_prefix) with 6%nat. fold (is_command s). destruct (is_command s); cbn [negb andb]; [|done].
  rewrite strncmp_prefix by (done || by apply Forall_drop). cbn [mbind option_bind].
  destruct (bool_decide (take (length p) (drop 6 (sname s)) = p)); cbn [negb]; [|done].
  destruct (if n =? 0 then _ else _) as [[q|] n']; [|done].
  by replace (Z.min n' (str_common q (drop 6 (sname s)))) with
    (if str_common q (drop 6 (sname s)) <? n' then str_common q (drop 6 (sname s)) else n')
    by (destruct (Z.ltb_spec (str_common q (drop 6 (sname s))) n'); lia).
Qed.

Lemma complete_some table p q : forall n, table_ok table -> no_nul p -> p <> [] -> p `prefix_of` q -> zlen p <= n ->
  complete_loop table p (Some q) n = Some (Some q, common q n (matches table p), matches table p).
Proof.
  assert (p <> [] -> 0 < zlen p) as Hpos by (destruct p as [|c p]; [done|rewrite zlen_cons1; pose proof (zlen_nonneg p); lia]).
  induction table as [|s table IH]; intros n Ht Hp Hne Hq Hn; [done|]. inversion Ht as [|? ? Hs Ht']; subst.
  rewrite complete_step by done. specialize (Hpos Hne). cbn [matches].
  destruct (is_command s && bool_decide _) eqn:E; [|by apply IH]. apply andb_prop in E as [_ E%bool_decide_eq_true].
  rewrite (proj2 (Z.eqb_neq n 0)) by lia. apply take_prefix, (str_common_spec q _ p Hq) in E. rewrite IH by (done || lia). done.
Qed.

Lemma complete_none table p : table_ok table -> no_nul p -> p <> [] ->
  complete_loop table p None 0 =
    Some (head (matches table p),
          match matches table p with [] => 0 | q :: ms => common q (zlen q) (q :: ms) end, matches table p).
Proof.
  intros Ht Hp Hne. induction Ht as [|s table Hs Ht IH]; [done|]. rewrite complete_step by done. cbn [matches].
  destruct (is_command s && bool_decide _) eqn:E; [|done]. apply andb_prop in E as [_ E%bool_decide_eq_true].
  rewrite Z.eqb_refl. pose proof (proj1 (take_prefix _ _) E) as Hq.
  pose proof (proj1 (str_common_spec _ _ _ Hq) Hq) as Hc. apply prefix_length in Hq as Hlen.
  rewrite complete_some; [done|done..|]. unfold zlen in *. lia.
Qed.

Lemma strncpy_spec (x y : list Z) : forall src, zlen src <= zlen (x ++ y) -> length x = length src ->
  strncpy (x ++ y) src (length src) = Some (src ++ y).
Proof.
  induction x as [|c x IH]; intros [|d src] Hl Hx; try done. cbn [app length strncpy hd tail].
  rewrite IH; [done| |by injection Hx]. cbn [app] in Hl. rewrite !zlen_cons1 in Hl. lia.
Qed.

Lemma strncpy_take (q : list Z) n : forall dst, strncpy dst q n = strncpy dst (take n q) n \/ (length q < n)%nat.
Proof.
  revert q. induction n as [|n IH]; intros q dst; [by left|]. destruct q as [|c q]; [right; cbn; lia|].
  destruct dst as [|d dst]; [by left|]. cbn [take strncpy hd tail]. destruct (IH q dst) as [->|H]; [by left|right; cbn; lia].
Qed.

(** [q] is the longest text that all of [ms] begin with. *)
Definition longest_common (q : list Z) (ms : list (list Z)) : Prop :=
  Forall (prefix q) ms /\ forall r, Forall (prefix r) ms -> r `prefix_of` q.

Definition completed (table : list finsh_syscall) (p q : list Z) : Prop :=
  match matches table p with [] => q = p | ms => longest_common q ms end.

Definition complete_text (table : list finsh_syscall) (p : list Z) : list Z :=
  match matches table p with [] => p | q :: ms => take (Z.to_nat (common q (zlen q) (q :: ms))) q end.

Lemma common_longest q ms : longest_common (take (Z.to_nat (common q (zlen q) (q :: ms))) q) (q :: ms).
Proof.
  set (n := common q (zlen q) (q :: ms)). set (r := take (Z.to_nat n) q).
  assert (r `prefix_of` q) as Hr by apply prefix_take. split.
  - apply (common_spec q (q :: ms) (zlen q) r Hr). fold n. unfold r, zlen. rewrite length_take. pose proof (common_spec q (q :: ms) (zlen q) [] (prefix_nil _)) as H.
    fold n in H. change (zlen (@nil Z)) with 0 in H. assert (0 <= n) by (apply H; split; [apply zlen_nonneg|apply Forall_forall; intros; apply prefix_nil]). lia.
  - intros r' Hf. inversion Hf as [|? ? Hq _]; subst. pose proof (proj2 (common_spec q (q :: ms) (zlen q) r' Hq)) as H. fold n in H.
    apply prefix_length in Hq as Hl. assert (zlen r' <= zlen q) as Hz by (unfold zlen; lia).
    specialize (H (conj Hz Hf)). destruct Hq as [y Hy]. unfold r. rewrite Hy, take_app_ge.
    + by exists (take (Z.to_nat n - length r') y).
    + unfold zlen in H. lia.
Qed.

(** The names of the commands leave room for the terminating NUL in [n] bytes. *)
Definition names_fit (table : list finsh_syscall) (n : Z) : Prop := Forall (fun s => zlen (drop 6 (sname s)) < n) table.

Lemma matches_fit table p n : table_ok table -> names_fit table n -> Forall (fun m => no_nul m /\ zlen m < n) (matches table p).
Proof.
  intros Ht Hf. induction table as [|s table IH]; [constructor|]. inversion Ht; inversion Hf; subst. cbn [matches].
  destruct (is_command s && _); [|by apply IH]. constructor; [|by apply IH]. split; [by apply Forall_drop|done].
Qed.

Lemma cstr_line p k : no_nul p -> (0 < k)%nat -> cstr (p ++ replicate k 0) = Some p.
Proof. intros Hp Hk. destruct k as [|k]; [lia|]. by apply cstr_app. Qed.

Lemma common_le q ms : forall n, common q n ms <= n.
Proof.
  induction ms as [|m ms IH]; intros n; unfold common in *; cbn [foldl]; [lia|]. specialize (IH (Z.min n (str_common q m))). lia.
Qed.

Lemma complete_text_spec table p n :
  table_ok table -> names_fit table n -> no_nul p -> zlen p < n ->
  let q := complete_text table p in completed table p q /\ p `prefix_of` q /\ no_nul q /\ zlen q < n.
Proof.
  intros Ht Hf Hp Hn q. subst q. unfold completed, complete_text.
  pose proof (matches_fit table p n Ht Hf) as Hm. pose proof (matches_prefix table p) as Hpre.
  destruct (matches table p) as [|q ms]; [by split_and!|]. pose proof (common_longest q ms) as Hlong.
  inversion Hm as [|? ? [Hq1 Hq2] _]; subst. split_and!; [done|by apply Hlong|by apply Forall_take|].
  unfold zlen in *. rewrite length_take. lia.
Qed.

Lemma auto_complete_spec table p k :
  table_ok table -> no_nul p -> p <> [] -> (0 < k)%nat -> let q := complete_text table p in
  p `prefix_of` q -> zlen q < zlen p + Z.of_nat k ->
  msh_auto_complete table (p ++ replicate k 0) = Some (q ++ replicate (length p + k - length q) 0, Some (matches table p)).
Proof.
  intros Ht Hp Hne Hk q Hpr Hn. subst q. unfold msh_auto_complete. rewrite cstr_line by done. cbn [mbind option_bind].
  rewrite bool_decide_false by done. rewrite complete_none by done. cbn [mbind option_bind]. unfold complete_text in *.
  destruct (matches table p) as [|q ms]; cbn [head].
  - cbn [mbind option_bind]. by replace (length p + k - length p)%nat with k by lia.
  - set (n := common q (zlen q) (q :: ms)) in *. set (r := take (Z.to_nat n) q) in *.
    assert (length r <= length q)%nat as Hrq by (unfold r; rewrite length_take; lia).
    apply prefix_length in Hpr as Hl. unfold zlen in *.
    assert (Z.to_nat n = length r) as En.
    { unfold r. rewrite length_take. pose proof (common_le q (q :: ms) (zlen q)) as Hle. fold n in Hle. unfold zlen in Hle. lia. }
    destruct (strncpy_take q (Z.to_nat n) (p ++ replicate k 0)) as [->|Hx]; [|lia]. fold r. rewrite En.
    replace (p ++ replicate k 0) with ((p ++ replicate (length r - length p) 0) ++ replicate (length p + k - length r) 0)
      by (rewrite <- app_assoc, <- replicate_add; do 2 f_equal; lia).
    rewrite strncpy_spec; [done|rewrite !zlen_app; unfold zlen; rewrite !length_replicate; lia|rewrite length_app, length_replicate; lia].
Qed.

(** ** Theorems *)

(** For every command line of characters other than NUL, followed by a NUL
    in the buffer, msh_exec runs without leaving the buffer: a blank line
    does nothing; if the text up to the first blank names a command of the
    table, the first such command is called with the first ten words of the
    line as NUL-terminated strings, words being separated by blanks or
    enclosed in quotes; otherwise the text up to the first space is reported
    as not found. *)
Theorem command_line_executed table t z :
  table_ok table -> no_nul t -> zlen t < 2 ^ 32 ->
  exists res, msh_exec table (t ++ 0 :: z) (zlen t) = Some res /\ line_result table t res.
Proof. apply exec_spec. Qed.

(** [list a], [list_thread], and a function that is not a command. *)
Definition sample_table : list finsh_syscall :=
  [mk_syscall (cmd_prefix ++ [108; 105; 115; 116; 95; 116]) [] 1; mk_syscall [108; 115] [] 2;
   mk_syscall (cmd_prefix ++ [108; 105; 115; 116]) [] 3; mk_syscall (cmd_prefix ++ [108; 105; 115; 116; 95; 116; 120]) [] 4].

Lemma sample_table_ok : table_ok sample_table /\ names_fit sample_table 80.
Proof. split; by_computation. Qed.

(** [list "a b"  c]. *)
Definition sample_line : list Z := [108; 105; 115; 116; 32; 34; 97; 32; 98; 34; 32; 32; 99].

Lemma command_line_executed_witness :
  exists argv cmd, msh_exec sample_table (sample_line ++ [0; 0]) (zlen sample_line) = Some (MshCall 3 argv cmd) /\
    Forall2 (string_at cmd) argv [[108; 105; 115; 116]; [97; 32; 98]; [99]].
Proof.
  destruct (command_line_executed sample_table sample_line [0]) as (res & E & H).
  - apply sample_table_ok.
  - by_computation.
  - by vm_compute.
  - vm_compute in H. destruct H as (argv & cmd & -> & H). exists argv, cmd. exact (conj E H).
Defined.

(** C29. A command line written from a command name and up to nine
    arguments, with quotes around the arguments that are empty, contain
    blanks or begin with a quote, is split by msh_exec into exactly these
    words, and the command is called with them; the arguments must not
    contain quotes or end in a backslash. *)
Theorem command_words_roundtrip table c args f z :
  let ws := c :: args in
  table_ok table -> Forall (fun w => no_nul w /\ quotable w) ws -> plain c = true -> lookup_cmd table c = Some f ->
  (length ws <= 10)%nat -> zlen (print_line ws) < 2 ^ 32 ->
  exists argv cmd, msh_exec table (print_line ws ++ 0 :: z) (zlen (print_line ws)) = Some (MshCall f argv cmd) /\
    Forall2 (string_at cmd) argv ws.
Proof.
  intros ws Ht Hws Hc Hf Hn Hl. destruct (exec_spec table (print_line ws) z) as (res & E & Hr).
  - done.
  - apply print_line_no_nul. eapply Forall_impl; [exact Hws|]. by intros w [H _].
  - done.
  - unfold line_result in Hr. destruct (print_line_first c args Hc) as (x & r & Ex & Es). fold ws in Ex, Es. rewrite Ex, Es, Hf in Hr.
    destruct Hr as (argv & cmd & -> & Hv). exists argv, cmd. split; [exact E|]. unfold words in Hv.
    rewrite print_line_words, take_ge in Hv; [done|done| |lia]. eapply Forall_impl; [exact Hws|]. by intros w [_ H].
Qed.

Lemma command_words_roundtrip_witness :
  exists argv cmd, msh_exec sample_table (print_line [[108; 105; 115; 116]; [97; 32; 98]; []] ++ [0])
      (zlen (print_line [[108; 105; 115; 116]; [97; 32; 98]; []])) = Some (MshCall 3 argv cmd) /\
    Forall2 (string_at cmd) argv [[108; 105; 115; 116]; [97; 32; 98]; []].
Proof.
  apply (command_words_roundtrip sample_table [108; 105; 115; 116] [[97; 32; 98]; []] 3 []).
  - apply sample_table_ok.
  - repeat (constructor; [split; [by_computation|split; [by_computation|by vm_compute]]|]). constructor.
  - by vm_compute.
  - by vm_compute.
  - cbn. lia.
  - by vm_compute.
Defined.

(** Completion of a non-empty prefix lists exactly the commands that begin
    with it and replaces it in the buffer by the longest text that all of
    them begin with, or leaves it alone if there is none; the buffer keeps
    its length and its terminating NUL. *)
Theorem completion_is_longest table p k :
  table_ok table -> names_fit table (zlen p + Z.of_nat k) -> no_nul p -> p <> [] -> (0 < k)%nat ->
  exists q, msh_auto_complete table (p ++ replicate k 0) =
      Some (q ++ replicate (length p + k - length q) 0, Some (matches table p)) /\
    completed table p q /\ p `prefix_of` q /\ no_nul q /\ zlen q < zlen p + Z.of_nat k.
Proof.
  intros Ht Hf Hp Hne Hk. destruct (complete_text_spec table p _ Ht Hf Hp ltac:(lia)) as (H1 & H2 & H3 & H4).
  exists (complete_text table p). split; [by apply auto_complete_spec|done].
Qed.

Lemma completion_is_longest_witness :
  exists q, msh_auto_complete sample_table ([108; 105] ++ replicate 78 0) = Some (q ++ replicate (80 - length q) 0,
      Some [[108; 105; 115; 116; 95; 116]; [108; 105; 115; 116]; [108; 105; 115; 116; 95; 116; 120]]) /\
    [108; 105] `prefix_of` q.
Proof.
  destruct (completion_is_longest sample_table [108; 105] 78) as (q & E & _ & H & _).
  - apply sample_table_ok.
  - apply sample_table_ok.
  - by_computation.
  - done.
  - lia.
  - exists q. exact (conj E H).
Defined.

(** An escaped quote inside a string is kept together with its backslash. *)
Example escape_is_kept : words [34; 97; 92; 34; 98; 34] = [[97; 92; 34; 98]].
Proof. reflexivity. Qed.

(** A command whose name is given in quotes is not found, although the quotes are no
    part of its word. *)
Example quoted_name_not_found :
  words [34; 108; 105; 115; 116; 34] = [[108; 105; 115; 116]] /\
  msh_exec sample_table [34; 108; 105; 115; 116; 34; 0] 6 = Some (MshNotFound [34; 108; 105; 115; 116; 34]).
Proof. by split. Qed.

(** The last word of a line is not terminated: it goes on with whatever follows the
    line in the array. *)
Example last_word_not_terminated :
  match msh_exec sample_table ([108; 105; 115; 116; 32; 97] ++ [98; 99; 0]) 6 with
  | Some (MshCall 3 [0; o] cmd) => string_at cmd o [97; 98; 99]
  | _ => False
  end.
Proof. reflexivity. Qed.

(** Blanks at the beginning are trimmed without regard to the length: an empty line
    in front of old text runs the old text. *)
Example empty_line_runs_rest :
  match msh_exec sample_table ([32; 108; 105; 115; 116] ++ concat (replicate 12 [32; 97])) 0 with
  | Some (MshCall f argv _) => f = 3 /\ length argv = 10%nat
  | _ => False
  end.
Proof. by vm_compute. Qed.

End Msh.
