(* ===== verification/Shell.v ===== *)
(** * The line editor of the shell

    [components/finsh/shell.c] as configured (only [msh], five lines of history, no
    password): the loop of the shell thread reads one character after the other,
    edits the line, keeps the history, completes and executes commands, and echoes.

    The loop is a function of one character.  Its events are the texts it prints and
    the results of [msh_exec]; a command runs between them, and is not supposed to
    touch the shell's structure.  [char] is unsigned on the ARM. *)

From Stdlib Require Import String Ascii.
From S2P Require Import Prelude KPrintf Msh.

Module Shell.
Import KPrintf Msh.

Definition text (s : string) : list Z := (fun a => Z.of_nat (nat_of_ascii a)) <$> list_ascii_of_string s.

Definition FINSH_CMD_SIZE : Z := 80.
Definition FINSH_HISTORY_LINES : Z := 5.

(** ** State *)

Inductive input_stat := WAIT_NORMAL | WAIT_SPEC_KEY | WAIT_FUNC_KEY.

(** [struct finsh_shell], without the device and its semaphore, and the custom
    prompt. *)
Record finsh_shell := mk_shell {
  stat : input_stat;
  echo_mode : bool;
  prompt_mode : bool;
  prompt_custom : option (list Z);
  current_history : Z;
  history_count : Z;
  cmd_history : list (list Z);
  line : list Z;
  line_position : Z;
  line_curpos : Z;
}.

Definition set_stat (x : input_stat) (s : finsh_shell) : finsh_shell :=
  mk_shell x (echo_mode s) (prompt_mode s) (prompt_custom s) (current_history s) (history_count s) (cmd_history s)
    (line s) (line_position s) (line_curpos s).
Definition set_history (cur cnt : Z) (h : list (list Z)) (s : finsh_shell) : finsh_shell :=
  mk_shell (stat s) (echo_mode s) (prompt_mode s) (prompt_custom s) cur cnt h (line s) (line_position s) (line_curpos s).
Definition set_line (l : list Z) (pos cur : Z) (s : finsh_shell) : finsh_shell :=
  mk_shell (stat s) (echo_mode s) (prompt_mode s) (prompt_custom s) (current_history s) (history_count s)
    (cmd_history s) l pos cur.

(** ** Modes and prompt *)

Definition finsh_set_prompt_mode (mode : Z) (s : finsh_shell) : finsh_shell :=
  mk_shell (stat s) (echo_mode s) (Z.odd mode) (prompt_custom s) (current_history s) (history_count s) (cmd_history s)
    (line s) (line_position s) (line_curpos s).
Definition finsh_set_echo (echo : Z) (s : finsh_shell) : finsh_shell :=
  mk_shell (stat s) (Z.odd echo) (prompt_mode s) (prompt_custom s) (current_history s) (history_count s) (cmd_history s)
    (line s) (line_position s) (line_curpos s).

(** [finsh_set_prompt]; [mem] tells whether there is memory for the copy. *)
Definition finsh_set_prompt (mem : bool) (prompt : option (list Z)) (s : finsh_shell) : finsh_shell :=
  mk_shell (stat s) (echo_mode s) (prompt_mode s) (if mem then prompt else None) (current_history s) (history_count s)
    (cmd_history s) (line s) (line_position s) (line_curpos s).

Definition finsh_get_prompt (s : finsh_shell) : list Z :=
  if negb (prompt_mode s) then []
  else match prompt_custom s with
       | Some p => take (Z.to_nat RT_CONSOLEBUF_SIZE) p
       | None => text "msh >"
       end.

(** ** Output *)

Inductive event := Put (s : list Z) | Exec (r : msh_result).

(** What [rt_kprintf] hands to the console. *)
Definition kprintf (fmt : list Z) (args : list va) : option event :=
  t ← format_text (List.length fmt) fmt args;
  Some (Put (if zlen t <=? 126 then t else take 126 t ++ [0])).

Definition backspaces (n : Z) : list event := replicate (Z.to_nat n) (Put [8]).

(** ** History *)

(** [memcpy] of [line_position] bytes into a cleared line of the history. *)
Definition history_line (s : finsh_shell) : option (list Z) :=
  _ ← RT_ASSERT (line_position s <=? zlen (line s));
  Some (memcpy (replicate (Z.to_nat FINSH_CMD_SIZE) 0) 0 (line s) (line_position s)).

Definition history_at (i : Z) (s : finsh_shell) : option (list Z) :=
  if 0 <=? i then cmd_history s !! Z.to_nat i else None.

Definition shell_push_history (s : finsh_shell) : option finsh_shell :=
  s ← (if negb (line_position s =? 0) then
         if FINSH_HISTORY_LINES <=? history_count s then
           h ← history_at (FINSH_HISTORY_LINES - 1) s;
           if bool_decide (h <> line s) then
             l ← history_line s;
             Some (set_history (current_history s) FINSH_HISTORY_LINES
                     (<[Z.to_nat (FINSH_HISTORY_LINES - 1) := l]> (tail (cmd_history s) ++ [h])) s)
           else Some s
         else
           same ← (if history_count s =? 0 then Some false
                   else h ← history_at (history_count s - 1) s; Some (bool_decide (h = line s)));
           if negb same then
             l ← history_line s;
             _ ← history_at (history_count s) s;
             Some (set_history (history_count s) (u16 (history_count s + 1))
                     (<[Z.to_nat (history_count s) := l]> (cmd_history s)) s)
           else Some s
       else Some s);
  Some (set_history (history_count s) (history_count s) (cmd_history s) s).

(** A line of the history becomes the current line; [shell_handle_history] shows it. *)
Definition recall (s : finsh_shell) : option (finsh_shell * list event) :=
  h ← history_at (current_history s) s;
  t ← cstr h;
  let s := set_line h (u8 (zlen t)) (u8 (zlen t)) s in
  e ← kprintf (text "%s%s") [VStr (Some (finsh_get_prompt s)); VStr (Some t)];
  Some (s, [Put ([27] ++ text "[2K" ++ [13]); e]).

(** ** Function keys *)

Definition key_up (s : finsh_shell) : option (finsh_shell * list event) :=
  if 0 <? current_history s then
    recall (set_history (current_history s - 1) (history_count s) (cmd_history s) s)
  else Some (set_history 0 (history_count s) (cmd_history s) s, []).

Definition key_down (s : finsh_shell) : option (finsh_shell * list event) :=
  if current_history s <? history_count s - 1 then
    recall (set_history (u16 (current_history s + 1)) (history_count s) (cmd_history s) s)
  else if negb (history_count s =? 0) then
    recall (set_history (history_count s - 1) (history_count s) (cmd_history s) s)
  else Some (s, []).

Definition key_left (s : finsh_shell) : option (finsh_shell * list event) :=
  if negb (line_curpos s =? 0) then Some (set_line (line s) (line_position s) (line_curpos s - 1) s, [Put [8]])
  else Some (s, []).

Definition key_right (s : finsh_shell) : option (finsh_shell * list event) :=
  if line_curpos s <? line_position s then
    c ← aget (line s) (line_curpos s);
    e ← kprintf (text "%c") [VInt c];
    Some (set_line (line s) (line_position s) (u8 (line_curpos s + 1)) s, [e])
  else Some (s, []).

(** ** Completion *)

Fixpoint print_names (names : list (list Z)) : option (list event) :=
  match names with
  | [] => Some []
  | n :: names => e ← kprintf (text "%s" ++ [10]) [VStr (Some n)]; es ← print_names names; Some (e :: es)
  end.

Fixpoint print_help (cmds : list (list Z * list Z)) : option (list event) :=
  match cmds with
  | [] => Some [Put [10]]
  | (n, d) :: cmds =>
      e ← kprintf (text "%-16s - %s" ++ [10]) [VStr (Some n); VStr (Some d)];
      es ← print_help cmds; Some (e :: es)
  end.

(** [shell_auto_complete], and the new position. *)
Definition key_tab (table : list finsh_syscall) (s : finsh_shell) : option (finsh_shell * list event) :=
  '(l, shown) ← msh_auto_complete table (line s);
  es ← (match shown with
        | None => cmds ← msh_help table; es ← print_help cmds; Some (Put (text "RT-Thread shell commands:" ++ [10]) :: es)
        | Some names => print_names names
        end);
  t ← cstr l;
  e ← kprintf (text "%s%s") [VStr (Some (finsh_get_prompt s)); VStr (Some t)];
  Some (set_line l (u8 (zlen t)) (u8 (zlen t)) s, backspaces (line_curpos s) ++ [Put [10]] ++ es ++ [e]).

(** ** Editing *)

(** [rt_memmove] inside the line. *)
Definition move (l : list Z) (d s n : Z) : option (list Z) :=
  _ ← RT_ASSERT ((0 <=? d) && (0 <=? s) && (0 <=? n) && (d + n <=? zlen l) && (s + n <=? zlen l));
  Some (memcpy l d (drop (Z.to_nat s) l) n).

Definition key_backspace (s : finsh_shell) : option (finsh_shell * list event) :=
  if line_curpos s =? 0 then Some (s, [])
  else
    let pos := u8 (line_position s - 1) in
    let cur := u8 (line_curpos s - 1) in
    if cur <? pos then
      l ← move (line s) cur (cur + 1) (pos - cur);
      l ← aset l pos 0;
      t ← cstr (drop (Z.to_nat cur) l);
      e ← kprintf ([8] ++ text "%s  " ++ [8]) [VStr (Some t)];
      Some (set_line l pos cur s, e :: backspaces (pos - cur + 1))
    else
      l ← aset (line s) pos 0;
      Some (set_line l pos cur s, [Put [8; 32; 8]]).

Definition exec_events (r : msh_result) : option (list event) :=
  match r with
  | MshNotFound name =>
      e ← kprintf (text "%s: command not found." ++ [10]) [VStr (Some name)]; Some [Exec r; e]
  | _ => Some [Exec r]
  end.

Definition key_enter (table : list finsh_syscall) (s : finsh_shell) : option (finsh_shell * list event) :=
  s ← shell_push_history s;
  r ← msh_exec table (line s) (line_position s);
  es ← exec_events r;
  e ← kprintf (finsh_get_prompt s) [];
  Some (set_line (replicate (Z.to_nat FINSH_CMD_SIZE) 0) 0 0 s,
        (if echo_mode s then [Put [10]] else []) ++ es ++ [e]).

Definition key_char (ch : Z) (s : finsh_shell) : option (finsh_shell * list event) :=
  let pos := if FINSH_CMD_SIZE <=? line_position s then 0 else line_position s in
  let cur := line_curpos s in
  '(l, es) ← (if cur <? pos then
                l ← move (line s) (cur + 1) cur (pos - cur);
                l ← aset l cur ch;
                es ← (if echo_mode s then
                        t ← cstr (drop (Z.to_nat cur) l); e ← kprintf (text "%s") [VStr (Some t)]; Some [e]
                      else Some []);
                Some (l, es ++ backspaces (pos - cur))
              else
                l ← aset (line s) pos ch;
                es ← (if echo_mode s then e ← kprintf (text "%c") [VInt ch]; Some [e] else Some []);
                Some (l, es));
  let pos := u8 (pos + 1) in
  let cur := u8 (cur + 1) in
  if FINSH_CMD_SIZE <=? pos then Some (set_line l 0 0 s, es) else Some (set_line l pos cur s, es).

(** ** The loop of [finsh_thread_entry] *)

Definition plain_key (table : list finsh_syscall) (ch : Z) (s : finsh_shell) : option (finsh_shell * list event) :=
  if (ch =? 0) || (ch =? 0xff) then Some (s, [])
  else if ch =? 9 then key_tab table s
  else if (ch =? 0x7f) || (ch =? 8) then key_backspace s
  else if (ch =? 13) || (ch =? 10) then key_enter table s
  else key_char ch s.

Definition finsh_key (table : list finsh_syscall) (ch : Z) (s : finsh_shell) : option (finsh_shell * list event) :=
  if ch =? 0x1b then Some (set_stat WAIT_SPEC_KEY s, [])
  else match stat s with
       | WAIT_SPEC_KEY =>
           if ch =? 0x5b then Some (set_stat WAIT_FUNC_KEY s, []) else plain_key table ch (set_stat WAIT_NORMAL s)
       | WAIT_FUNC_KEY =>
           let s := set_stat WAIT_NORMAL s in
           if ch =? 0x41 then key_up s
           else if ch =? 0x42 then key_down s
           else if ch =? 0x44 then key_left s
           else if ch =? 0x43 then key_right s
           else plain_key table ch s
       | WAIT_NORMAL => plain_key table ch s
       end.

Fixpoint finsh_keys (table : list finsh_syscall) (chs : list Z) (s : finsh_shell) : option (finsh_shell * list event) :=
  match chs with
  | [] => Some (s, [])
  | ch :: chs =>
      '(s, es) ← finsh_key table ch s; '(s, es') ← finsh_keys table chs s; Some (s, es ++ es')
  end.

(** [finsh_system_init] clears the structure and switches the prompt on,
    [finsh_thread_entry] the echo. *)
Definition initial_shell : finsh_shell :=
  finsh_set_echo 1 (finsh_set_prompt_mode 1
    (mk_shell WAIT_NORMAL false false None 0 0 (replicate 5 (replicate 80 0)) (replicate 80 0) 0 0)).


(** ** Formats *)

(** Literal texts as numbers. *)
Ltac literals :=
  repeat match goal with |- context [text ?s] => let v := eval vm_compute in (text s) in change (text s) with v end.

Lemma justified_none cs : justified 0 (-1) cs = cs.
Proof. unfold justified. by replace (Z.to_nat (-1 - zlen cs)) with 0%nat by (pose proof (zlen_nonneg cs); lia). Qed.

Lemma format_s n a rest args :
  format_text (S n) (37 :: 115 :: rest) (VStr (Some a) :: args) = app a <$> format_text n rest args.
Proof.
  cbn [format_text]. change (get_directive (115 :: rest) (VStr (Some a) :: args)) with
    (Some (DString 0 (-1) (-1) (Some a), rest, args)).
  cbn [mbind option_bind negb Z.eqb Pos.eqb directive_text]. unfold string_shown. by rewrite justified_none.
Qed.

Lemma format_c n c rest args :
  format_text (S n) (37 :: 99 :: rest) (VInt c :: args) = app [u8 c] <$> format_text n rest args.
Proof.
  cbn [format_text]. change (get_directive (99 :: rest) (VInt c :: args)) with (Some (DChar 0 (-1) (u8 c), rest, args)).
  cbn [mbind option_bind negb Z.eqb Pos.eqb directive_text]. by rewrite justified_none.
Qed.

Lemma format_lit n c rest args : c <> 37 -> format_text (S n) (c :: rest) args = cons c <$> format_text n rest args.
Proof. intros Hc. cbn [format_text]. by rewrite (proj2 (Z.eqb_neq c 37) Hc). Qed.

Lemma format_nil n args : format_text n [] args = Some [].
Proof. by destruct n. Qed.

Lemma format_lits p : forall n, Forall (fun c => c <> 37) p -> (List.length p <= n)%nat -> format_text n p [] = Some p.
Proof.
  induction p as [|c p IH]; intros n Hp Hn; [apply format_nil|]. inversion Hp; subst.
  destruct n as [|n]; [cbn in Hn; lia|]. rewrite format_lit, IH; [done..|cbn in Hn; lia|done].
Qed.

Ltac formats :=
  literals; repeat (rewrite format_s || rewrite format_c || rewrite format_nil || (rewrite format_lit by done));
  cbn [fmap option_fmap option_map app].

(** The text of a [%s%s], a [%s], a [%c] and of the format that redraws a line. *)
Definition clamp (t : list Z) : list Z := if zlen t <=? 126 then t else take 126 t ++ [0].

Lemma kprintf_text fmt args t : format_text (List.length fmt) fmt args = Some t -> kprintf fmt args = Some (Put (clamp t)).
Proof. intros E. unfold kprintf. by rewrite E. Qed.

Lemma kprintf_ss a b : kprintf (text "%s%s") [VStr (Some a); VStr (Some b)] = Some (Put (clamp (a ++ b))).
Proof. apply kprintf_text. literals. cbn [List.length]. formats. by rewrite app_nil_r. Qed.

Lemma kprintf_s a : kprintf (text "%s") [VStr (Some a)] = Some (Put (clamp a)).
Proof. apply kprintf_text. literals. cbn [List.length]. formats. by rewrite app_nil_r. Qed.

Lemma kprintf_c c : kprintf (text "%c") [VInt c] = Some (Put [u8 c]).
Proof. apply (kprintf_text _ _ [u8 c]). literals. cbn [List.length]. by formats. Qed.

Lemma kprintf_redraw a :
  kprintf ([8] ++ text "%s  " ++ [8]) [VStr (Some a)] = Some (Put (clamp (8 :: a ++ [32; 32; 8]))).
Proof. apply kprintf_text. literals. cbn [List.length app]. by formats. Qed.

Lemma kprintf_name a : kprintf (text "%s" ++ [10]) [VStr (Some a)] = Some (Put (clamp (a ++ [10]))).
Proof. apply kprintf_text. literals. cbn [List.length app]. by formats. Qed.

Lemma kprintf_help n d : exists t, kprintf (text "%-16s - %s" ++ [10]) [VStr (Some n); VStr (Some d)] = Some (Put t).
Proof.
  literals. cbn [app]. eexists. apply kprintf_text. cbn [List.length format_text].
  change (get_directive (45 :: 49 :: 54 :: 115 :: ?r) ?a) with (Some (DString LEFT 16 (-1) (Some n), r, [VStr (Some d)])).
  cbn [mbind option_bind negb Z.eqb Pos.eqb]. formats. reflexivity.
Qed.

Lemma kprintf_unknown a : exists t, kprintf (text "%s: command not found." ++ [10]) [VStr (Some a)] = Some (Put t).
Proof. literals. cbn [app]. eexists. apply kprintf_text. cbn [List.length]. formats. reflexivity. Qed.

Lemma kprintf_prompt p : Forall (fun c => c <> 37) p -> kprintf p [] = Some (Put (clamp p)).
Proof. intros Hp. apply kprintf_text. by apply format_lits. Qed.

(** [kprintf] is what [rt_kprintf] writes. *)
Lemma kprintf_console buf fmt args b e :
  0 <= buf -> buf + 127 <= 2 ^ 32 -> zlen b = 128 -> kprintf fmt args = Some e ->
  exists s b', e = Put s /\ rt_kprintf buf fmt args b = Some (s, b').
Proof.
  intros Hb Hs Hl E. unfold kprintf in E. destruct (format_text (List.length fmt) fmt args) as [t|] eqn:Et; [|done].
  cbn [mbind option_bind] in E. injection E as <-. destruct (kprintf_spec buf fmt args b t Hb Hs Hl Et) as [b' Eb]. by eexists _, b'.
Qed.


(** ** The editor

    What the shell promises: a line with a cursor between [before] and [after], and
    the last five different lines. *)

Record editor := mk_ed {
  emode : input_stat;
  before : list Z;
  after : list Z;
  hist : list (list Z);
  cur : nat;
}.

Definition contents (e : editor) : list Z := before e ++ after e.
Definition with_text (b a : list Z) (e : editor) : editor := mk_ed (emode e) b a (hist e) (cur e).
Definition with_mode (m : input_stat) (e : editor) : editor := mk_ed m (before e) (after e) (hist e) (cur e).

(** A line is remembered unless it is empty or the same as the last one. *)
Definition push_line (t : list Z) (h : list (list Z)) : list (list Z) :=
  if bool_decide (t = []) || bool_decide (last h = Some t) then h
  else if (5 <=? List.length h)%nat then tail h ++ [t] else h ++ [t].

(** The [i]-th line of the history. *)
Definition ed_recall (i : nat) (e : editor) : editor :=
  match hist e !! i with Some t => mk_ed (emode e) t [] (hist e) i | None => e end.

(** The new state and the lines submitted; nothing is said of a line that fills the
    buffer. *)
Definition ed_plain (table : list finsh_syscall) (ch : Z) (e : editor) : option (editor * list (list Z)) :=
  if (ch =? 0) || (ch =? 0xff) then Some (e, [])
  else if ch =? 9 then
    Some (if bool_decide (contents e = []) then e else with_text (complete_text table (contents e)) [] e, [])
  else if (ch =? 0x7f) || (ch =? 8) then Some (with_text (removelast (before e)) (after e) e, [])
  else if (ch =? 13) || (ch =? 10) then
    let h := push_line (contents e) (hist e) in
    Some (mk_ed (emode e) [] [] h (List.length h), [contents e])
  else if 79 <=? zlen (contents e) then None
  else Some (with_text (before e ++ [ch]) (after e) e, []).

Definition ed_up (e : editor) : editor := match cur e with O => e | S i => ed_recall i e end.

(** Behind the last line there is no empty one to return to. *)
Definition ed_down (e : editor) : editor :=
  if bool_decide (hist e = []) then e else ed_recall (Nat.min (S (cur e)) (List.length (hist e) - 1)) e.

Definition ed_left (e : editor) : editor :=
  match last (before e) with Some c => with_text (removelast (before e)) (c :: after e) e | None => e end.

Definition ed_right (e : editor) : editor :=
  match after e with c :: a => with_text (before e ++ [c]) a e | [] => e end.

Definition ed_key (table : list finsh_syscall) (ch : Z) (e : editor) : option (editor * list (list Z)) :=
  if ch =? 0x1b then Some (with_mode WAIT_SPEC_KEY e, [])
  else match emode e with
       | WAIT_SPEC_KEY =>
           if ch =? 0x5b then Some (with_mode WAIT_FUNC_KEY e, []) else ed_plain table ch (with_mode WAIT_NORMAL e)
       | WAIT_FUNC_KEY =>
           let e := with_mode WAIT_NORMAL e in
           if ch =? 0x41 then Some (ed_up e, [])
           else if ch =? 0x42 then Some (ed_down e, [])
           else if ch =? 0x44 then Some (ed_left e, [])
           else if ch =? 0x43 then Some (ed_right e, [])
           else ed_plain table ch e
       | WAIT_NORMAL => ed_plain table ch e
       end.

Fixpoint ed_keys (table : list finsh_syscall) (chs : list Z) (e : editor) : option (editor * list (list Z)) :=
  match chs with
  | [] => Some (e, [])
  | ch :: chs => '(e, ls) ← ed_key table ch e; '(e, ls') ← ed_keys table chs e; Some (e, ls ++ ls')
  end.

(** ** How the structure represents an editor *)

Definition pad (t : list Z) : list Z := t ++ replicate (80 - List.length t) 0.

Definition fits (t : list Z) : Prop := Forall (fun c => 0 < c < 256) t /\ zlen t < 80.

Record shows (s : finsh_shell) (e : editor) : Prop := {
  sh_mode : stat s = emode e;
  sh_line : line s = pad (contents e);
  sh_fits : fits (contents e);
  sh_pos : line_position s = zlen (contents e);
  sh_cur : line_curpos s = zlen (before e);
  sh_hist : exists rest, cmd_history s = (pad <$> hist e) ++ rest /\ List.length (cmd_history s) = 5%nat;
  sh_hfits : Forall (fun t => fits t /\ t <> []) (hist e);
  sh_count : history_count s = zlen (hist e);
  sh_current : current_history s = Z.of_nat (cur e);
  sh_bound : (cur e <= List.length (hist e))%nat;
  sh_prompt : Forall (fun c => c <> 37) (finsh_get_prompt s);
}.

(** The results of [msh_exec] among the events. *)
Fixpoint execs (es : list event) : list msh_result :=
  match es with [] => [] | Exec r :: es => r :: execs es | Put _ :: es => execs es end.

Lemma execs_app a b : execs (a ++ b) = execs a ++ execs b.
Proof. induction a as [|[?|r] a IH]; [done|done|]. cbn. by rewrite IH. Qed.

Lemma execs_backspaces n : execs (backspaces n) = [].
Proof. unfold backspaces. by induction (Z.to_nat n). Qed.

Lemma fits_no_nul t : fits t -> no_nul t.
Proof. intros [H _]. eapply Forall_impl; [exact H|]. cbn. lia. Qed.

Lemma zlen_pad t : fits t -> zlen (pad t) = 80.
Proof. intros [_ H]. unfold pad, zlen in *. rewrite length_app, length_replicate. lia. Qed.

Lemma pad_inj t u : fits t -> fits u -> pad t = pad u -> t = u.
Proof.
  intros Ht Hu E. pose proof (cstr_line t (80 - List.length t) (fits_no_nul _ Ht)) as Et.
  pose proof (cstr_line u (80 - List.length u) (fits_no_nul _ Hu)) as Eu. fold (pad t) in Et. fold (pad u) in Eu.
  destruct Ht as [_ Ht], Hu as [_ Hu]. unfold zlen in *. rewrite E in Et. rewrite Et in Eu by lia. symmetry. specialize (Eu ltac:(lia)). congruence.
Qed.

Lemma cstr_pad t : fits t -> cstr (pad t) = Some t.
Proof. intros H. apply cstr_line; [by apply fits_no_nul|]. destruct H as [_ H]. unfold zlen in H. lia. Qed.

(** The string from the cursor on. *)
Lemma cstr_pad_drop b a : fits (b ++ a) -> cstr (drop (Z.to_nat (zlen b)) (pad (b ++ a))) = Some a.
Proof.
  intros H. apply fits_no_nul in H as Hn. apply Forall_app in Hn as [_ Hn]. destruct H as [_ H].
  rewrite zlen_app in H. unfold pad, zlen in *. rewrite Nat2Z.id, <- app_assoc, drop_app_length.
  apply cstr_line; [done|]. rewrite length_app. lia.
Qed.


(** ** Editing keys *)

Lemma pad_end t : fits t -> pad t = t ++ 0 :: replicate (79 - List.length t) 0.
Proof.
  intros [_ H]. unfold pad, zlen in *. replace (80 - List.length t)%nat with (S (79 - List.length t)) by lia. done.
Qed.

Lemma pad_snoc t x : fits (t ++ [x]) -> pad (t ++ [x]) = t ++ x :: replicate (79 - List.length t) 0.
Proof. intros [_ H]. unfold pad. rewrite <- app_assoc, length_app. cbn [List.length app]. do 3 f_equal. lia. Qed.

Lemma list_inserts_mid (x y z w : list Z) : List.length y = List.length w -> list_inserts (List.length x) w (x ++ y ++ z) = x ++ w ++ z.
Proof.
  revert x y. induction w as [|c w IH]; intros x [|d y] H; try done. cbn [list_inserts].
  replace (x ++ (d :: y) ++ z) with ((x ++ [d]) ++ y ++ z) by by rewrite <- app_assoc.
  replace (S (List.length x)) with (List.length (x ++ [d])) by (rewrite length_app; cbn; lia).
  rewrite IH by (by injection H). rewrite <- app_assoc. cbn [app]. rewrite insert_app_r_alt by lia. by rewrite Nat.sub_diag.
Qed.

(** [rt_memmove] of [w], which is [y] characters in front of where it goes, or one
    behind. *)
Lemma line_move_spec l x y z w d s n :
  l = x ++ y ++ z -> List.length y = List.length w -> d = zlen x -> n = zlen w -> 0 <= s -> s + n <= zlen l ->
  take (List.length w) (drop (Z.to_nat s) l) = w -> move l d s n = Some (x ++ w ++ z).
Proof.
  intros -> Hy -> -> Hs Hb Hw. unfold move. pose proof (zlen_nonneg x). pose proof (zlen_nonneg w). pose proof (zlen_nonneg z).
  rewrite (proj2 (Z.leb_le 0 (zlen x))), (proj2 (Z.leb_le 0 s)), (proj2 (Z.leb_le 0 (zlen w))), (proj2 (Z.leb_le _ _) Hb) by lia.
  rewrite (proj2 (Z.leb_le (zlen x + zlen w) _)) by (rewrite !zlen_app; unfold zlen; lia). cbn [andb RT_ASSERT mbind option_bind].
  unfold memcpy. f_equal. unfold zlen. rewrite !Nat2Z.id, Hw. by apply list_inserts_mid.
Qed.

Lemma fits_sub t b a : fits t -> (List.length (b ++ a) <= List.length t)%nat -> Forall (fun c => 0 < c < 256) (b ++ a) -> fits (b ++ a).
Proof. intros [_ Ht] Hl Hf. split; [done|]. unfold zlen in *. lia. Qed.

Lemma shows_line s e b a : shows s e -> fits (b ++ a) ->
  shows (set_line (pad (b ++ a)) (zlen (b ++ a)) (zlen b) s) (with_text b a e).
Proof. intros [] Hf. by constructor. Qed.

(** What the shell prints for a key, with the echo switched on or off and the prompt
    [p]. *)

Definition left_echo (e : editor) : list event := match last (before e) with Some _ => [Put [8]] | None => [] end.

Definition right_echo (e : editor) : list event := match after e with c :: _ => [Put [u8 c]] | [] => [] end.

Definition backspace_echo (e : editor) : list event :=
  match last (before e), after e with
  | None, _ => []
  | Some _, [] => [Put [8; 32; 8]]
  | Some _, a => Put (clamp (8 :: a ++ [32; 32; 8])) :: backspaces (zlen a + 1)
  end.

Definition char_echo (on : bool) (ch : Z) (e : editor) : list event :=
  match after e with
  | [] => if on then [Put [u8 ch]] else []
  | a => (if on then [Put (clamp (ch :: a))] else []) ++ backspaces (zlen a)
  end.

Definition recall_echo (p t : list Z) : list event := [Put ([27] ++ text "[2K" ++ [13]); Put (clamp (p ++ t))].

Definition up_echo (p : list Z) (e : editor) : list event :=
  match cur e with O => [] | S i => recall_echo p (default [] (hist e !! i)) end.

Definition down_echo (p : list Z) (e : editor) : list event :=
  if bool_decide (hist e = []) then []
  else recall_echo p (default [] (hist e !! (Nat.min (S (cur e)) (List.length (hist e) - 1)))).

(** A step without a command, which leaves the modes alone. *)
Definition quiet_step (s : finsh_shell) (r : option (finsh_shell * list event)) (e : editor) (es : list event) : Prop :=
  exists s', r = Some (s', es) /\ shows s' e /\ execs es = [] /\
    echo_mode s' = echo_mode s /\ finsh_get_prompt s' = finsh_get_prompt s.

Lemma zlen_small t : fits t -> 0 <= zlen t < 80.
Proof. intros [_ H]. pose proof (zlen_nonneg t). lia. Qed.

Lemma left_spec s e : shows s e -> quiet_step s (key_left s) (ed_left e) (left_echo e).
Proof.
  intros H. pose proof H as []. unfold key_left, ed_left, left_echo, quiet_step. destruct e as [m b a h i]. cbn [before after] in *.
  destruct (last b) as [c|] eqn:El.
  - apply last_Some in El as [b' ->]. unfold contents in *. cbn [before after] in *. rewrite <- app_assoc in *. cbn [app] in *.
    rewrite sh_cur0, zlen_snoc. pose proof (zlen_nonneg b').
    rewrite (proj2 (Z.eqb_neq (zlen b' + 1) 0)) by lia. cbn [negb]. eexists. split; [done|]. split; [|done].
    rewrite removelast_last. replace (zlen b' + 1 - 1) with (zlen b') by lia. rewrite sh_line0, sh_pos0. by apply (shows_line _ (mk_ed m (b' ++ [c]) a h i)).
  - apply last_None in El as ->. rewrite sh_cur0. by eexists.
Qed.

Lemma right_spec s e : shows s e -> quiet_step s (key_right s) (ed_right e) (right_echo e).
Proof.
  intros H. pose proof H as []. unfold key_right, ed_right, right_echo, quiet_step. destruct e as [m b a h i].
  unfold contents in *. cbn [before after] in *. pose proof (zlen_small _ sh_fits0) as Hz. rewrite zlen_app in Hz.
  rewrite sh_cur0, sh_pos0, zlen_app. destruct a as [|c a].
  - change (zlen (@nil Z)) with 0. rewrite Z.add_0_r, Z.ltb_irrefl. by eexists.
  - rewrite zlen_cons1 in *. pose proof (zlen_nonneg a). pose proof (zlen_nonneg b). rewrite (proj2 (Z.ltb_lt (zlen b) _)) by lia.
    rewrite sh_line0. unfold pad. rewrite <- app_assoc. cbn [app]. rewrite aget_at. cbn [mbind option_bind]. rewrite kprintf_c. cbn [mbind option_bind].
    eexists. split; [done|]. split; [|done]. rewrite (wrapu_small 8) by lia.
    replace (b ++ c :: a) with ((b ++ [c]) ++ a) in sh_fits0 by by rewrite <- app_assoc.
    pose proof (shows_line s (mk_ed m b (c :: a) h i) (b ++ [c]) a H sh_fits0) as Hs.
    rewrite !zlen_app in Hs. change (zlen [c]) with 1 in Hs. rewrite <- app_assoc in Hs. cbn [app] in Hs.
    unfold pad in Hs. rewrite <- app_assoc in Hs. by replace (zlen b + (zlen a + 1)) with (zlen b + 1 + zlen a) by lia.
Qed.

Lemma backspace_spec s e : shows s e -> quiet_step s (key_backspace s) (with_text (removelast (before e)) (after e) e) (backspace_echo e).
Proof.
  intros H. pose proof H as []. unfold key_backspace, backspace_echo, quiet_step. destruct e as [m b a h i].
  unfold contents in *. cbn [before after] in *. pose proof (zlen_small _ sh_fits0) as Hz. rewrite zlen_app in Hz.
  rewrite sh_cur0, sh_pos0, sh_line0. destruct (last b) as [c|] eqn:El.
  2: { apply last_None in El as ->. by eexists. }
  apply last_Some in El as [b' ->]. rewrite removelast_last. rewrite zlen_snoc in *. pose proof (zlen_nonneg a). pose proof (zlen_nonneg b').
  assert (fits (b' ++ a)) as Hf.
  { eapply fits_sub; [exact sh_fits0|rewrite !length_app; lia|]. destruct sh_fits0 as [Hf _]. rewrite <- app_assoc in Hf.
    apply Forall_app in Hf as [Hf1 Hf2]. inversion Hf2; subst. by apply Forall_app. }
  rewrite (proj2 (Z.eqb_neq (zlen b' + 1) 0)), !zlen_app by lia. change (zlen [c]) with 1. rewrite !(wrapu_small 8) by lia.
  replace (zlen b' + 1 + zlen a - 1) with (zlen (b' ++ a)) by (rewrite zlen_app; lia). replace (zlen b' + 1 - 1) with (zlen b') by lia.
  pose proof (shows_line s (mk_ed m (b' ++ [c]) a h i) b' a H Hf) as Hs. destruct a as [|x a] using rev_ind.
  - rewrite !app_nil_r in *. rewrite Z.ltb_irrefl. rewrite pad_snoc, aset_at by done. cbn [mbind option_bind].
    rewrite <- pad_end by done. eexists. split; [done|]. by split.
  - clear IHa. rewrite (proj2 (Z.ltb_lt (zlen b') _)) by (rewrite zlen_app, zlen_snoc; pose proof (zlen_nonneg a); lia). set (w := a ++ [x]) in *.
    set (k := (79 - List.length (b' ++ [c] ++ w))%nat).
    assert (pad ((b' ++ [c]) ++ w) = b' ++ c :: w ++ 0 :: replicate k 0) as El
      by (rewrite pad_end by done; rewrite <- !app_assoc; done).
    assert (move (pad ((b' ++ [c]) ++ w)) (zlen b') (zlen b' + 1) (zlen (b' ++ w) - zlen b') =
      Some (b' ++ w ++ x :: 0 :: replicate k 0)) as ->.
    { apply (line_move_spec _ b' (c :: a)); [|by subst w; rewrite length_app, Nat.add_comm|done|rewrite zlen_app; lia|lia| |]; rewrite El.
      - subst w. by rewrite <- app_assoc.
      - rewrite !zlen_app, zlen_cons1, zlen_app, zlen_cons1. pose proof (zlen_nonneg (replicate k 0)). lia.
      - replace (b' ++ c :: w ++ 0 :: replicate k 0) with ((b' ++ [c]) ++ w ++ 0 :: replicate k 0) by by rewrite <- app_assoc.
        rewrite <- (zlen_snoc b' c). unfold zlen. by rewrite Nat2Z.id, drop_app_length, take_app_length. }
    cbn [mbind option_bind]. rewrite (app_assoc b' w), aset_at. cbn [mbind option_bind].
    assert ((b' ++ w) ++ 0 :: 0 :: replicate k 0 = pad (b' ++ w)) as ->.
    { rewrite pad_end by done. do 2 f_equal. change (0 :: replicate k 0) with (replicate (S k) 0). f_equal. subst k.
      destruct sh_fits0 as [_ Hl]. rewrite <- app_assoc in Hl. unfold zlen in Hl. rewrite !length_app in *. cbn [List.length] in *. lia. }
    rewrite cstr_pad_drop by done. cbn [mbind option_bind]. rewrite kprintf_redraw. cbn [mbind option_bind].
    destruct w as [|y w'] eqn:Ew; [by destruct a|]. rewrite <- Ew in *. replace (zlen (b' ++ w) - zlen b') with (zlen w) by (rewrite zlen_app; lia).
    eexists. split; [done|]. split; [done|]. split; [apply execs_backspaces|done].
Qed.

Lemma char_spec s e ch : shows s e -> 0 < ch < 256 -> zlen (contents e) < 79 ->
  quiet_step s (key_char ch s) (with_text (before e ++ [ch]) (after e) e) (char_echo (echo_mode s) ch e).
Proof.
  intros H Hch Hroom. pose proof H as []. unfold key_char, char_echo, quiet_step, FINSH_CMD_SIZE. destruct e as [m b a h i].
  unfold contents in *. cbn [before after] in *. pose proof (zlen_small _ sh_fits0) as Hz.
  rewrite sh_cur0, sh_pos0, sh_line0. rewrite (proj2 (Z.leb_gt 80 (zlen (b ++ a)))) by lia.
  assert (fits ((b ++ [ch]) ++ a)) as Hf.
  { split; [|rewrite !zlen_app in *; change (zlen [ch]) with 1; lia]. destruct sh_fits0 as [Hf _].
    apply Forall_app in Hf as [Hf1 Hf2]. rewrite <- app_assoc. apply Forall_app; split; [done|]. by constructor. }
  pose proof (shows_line s (mk_ed m b a h i) (b ++ [ch]) a H Hf) as Hs.
  assert (zlen ((b ++ [ch]) ++ a) = zlen (b ++ a) + 1) as Hlen by (rewrite !zlen_app; change (zlen [ch]) with 1; lia).
  rewrite zlen_snoc, Hlen in Hs. pose proof (zlen_nonneg b). rewrite zlen_app in Hz. pose proof Hroom as Hr. rewrite zlen_app in Hr.
  set (l' := pad ((b ++ [ch]) ++ a)) in *.
  set (es := match a with [] => _ | _ => _ end).
  enough ((if zlen b <? zlen (b ++ a) then
      l ← move (pad (b ++ a)) (zlen b + 1) (zlen b) (zlen (b ++ a) - zlen b); l ← aset l (zlen b) ch;
      es ← (if echo_mode s then
              t ← cstr (drop (Z.to_nat (zlen b)) l); e ← kprintf (text "%s") [VStr (Some t)]; Some [e]
            else Some []);
      Some (l, es ++ backspaces (zlen (b ++ a) - zlen b))
    else
      l ← aset (pad (b ++ a)) (zlen (b ++ a)) ch;
      es ← (if echo_mode s then e ← kprintf (text "%c") [VInt ch]; Some [e] else Some []);
      Some (l, es)) = Some (l', es) /\ execs es = []) as [-> Hes].
  { cbn [mbind option_bind]. pose proof (zlen_nonneg a). rewrite zlen_app, !(wrapu_small 8) by lia.
    rewrite (proj2 (Z.leb_gt 80 (zlen b + zlen a + 1))) by lia. eexists. split; [done|]. split; [|done].
    by rewrite zlen_app in Hs. }
  destruct a as [|x a].
  - subst l'. rewrite !app_nil_r in *. rewrite Z.ltb_irrefl, (pad_end b), aset_at, pad_snoc by done. cbn [mbind option_bind].
    rewrite kprintf_c. subst es. by destruct (echo_mode s).
  - rewrite (proj2 (Z.ltb_lt (zlen b) _)) by (rewrite zlen_app, zlen_cons1; pose proof (zlen_nonneg a); lia).
    set (k := (79 - List.length (b ++ x :: a))%nat). set (w := x :: a) in *.
    assert (pad (b ++ w) = (b ++ [x]) ++ (a ++ [0]) ++ replicate k 0) as El
      by (rewrite pad_end by done; subst w; rewrite <- !app_assoc; done).
    assert (move (pad (b ++ w)) (zlen b + 1) (zlen b) (zlen (b ++ w) - zlen b) = Some ((b ++ [x]) ++ w ++ replicate k 0)) as ->.
    { apply (line_move_spec _ (b ++ [x]) (a ++ [0])); [done|rewrite length_app; cbn; lia|by rewrite zlen_snoc|rewrite zlen_app; lia|lia| |].
      - rewrite zlen_pad by done. lia.
      - unfold pad. unfold zlen. by rewrite Nat2Z.id, <- app_assoc, drop_app_length, take_app_length. }
    cbn [mbind option_bind]. rewrite <- app_assoc. cbn [app]. rewrite aset_at. cbn [mbind option_bind].
    assert (b ++ ch :: w ++ replicate k 0 = l') as ->.
    { subst l'. unfold pad. rewrite <- !app_assoc. cbn [app]. do 4 f_equal. subst k w.
      destruct Hf as [_ Hf]. unfold zlen in *. rewrite !length_app in *. cbn [List.length] in *. lia. }
    replace (zlen (b ++ w) - zlen b) with (zlen w) by (rewrite zlen_app; lia). subst es. destruct (echo_mode s).
    + subst l'. rewrite <- app_assoc. rewrite cstr_pad_drop by (by rewrite app_assoc). cbn [mbind option_bind].
      rewrite kprintf_s. cbn [mbind option_bind]. split; [done|]. apply execs_backspaces.
    + cbn [mbind option_bind]. split; [done|]. apply execs_backspaces.
Qed.


(** ** History *)

Lemma history_line_spec s e : shows s e -> history_line s = Some (pad (contents e)).
Proof.
  intros []. unfold history_line. pose proof (zlen_small _ sh_fits0) as Hz. rewrite sh_pos0, sh_line0, zlen_pad by done.
  rewrite (proj2 (Z.leb_le _ 80)) by lia. cbn [RT_ASSERT mbind option_bind]. f_equal.
  unfold memcpy, FINSH_CMD_SIZE. set (t := contents e) in *. unfold zlen in *. rewrite Nat2Z.id. unfold pad.
  rewrite take_app_length. change (Z.to_nat 0) with (List.length (@nil Z)).
  replace (replicate (Z.to_nat 80) 0) with ([] ++ replicate (List.length t) 0 ++ replicate (80 - List.length t) 0)
    by (cbn [app]; rewrite <- replicate_add; f_equal; lia).
  by apply list_inserts_mid; rewrite length_replicate.
Qed.

Lemma history_at_spec s e i t : shows s e -> hist e !! i = Some t -> history_at (Z.of_nat i) s = Some (pad t).
Proof.
  intros [] Ht. destruct sh_hist0 as (rest & E & _). unfold history_at. rewrite (proj2 (Z.leb_le 0 _)), Nat2Z.id, E by lia.
  rewrite lookup_app_l by (rewrite length_fmap; by eapply lookup_lt_Some). by rewrite list_lookup_fmap, Ht.
Qed.

Lemma recall_spec s e i t : shows s e -> hist e !! i = Some t ->
  quiet_step s (recall (set_history (Z.of_nat i) (history_count s) (cmd_history s) s)) (ed_recall i e)
    (recall_echo (finsh_get_prompt s) t).
Proof.
  intros H Ht. pose proof H as []. unfold recall, ed_recall, quiet_step. rewrite Ht. cbn [current_history set_history].
  pose proof (Forall_lookup_1 _ _ _ _ sh_hfits0 Ht) as [Hf _]. pose proof (history_at_spec s e i t H Ht) as Hh.
  change (history_at (Z.of_nat i) (set_history (Z.of_nat i) (history_count s) (cmd_history s) s)) with (history_at (Z.of_nat i) s).
  rewrite Hh. cbn [mbind option_bind]. rewrite cstr_pad by done. cbn [mbind option_bind].
  rewrite kprintf_ss. cbn [mbind option_bind]. eexists. split; [done|]. split; [|done]. pose proof (zlen_small t Hf).
  rewrite (wrapu_small 8) by lia. constructor; cbn; try done; unfold contents; cbn; rewrite ?app_nil_r; try done.
  apply lookup_lt_Some in Ht. lia.
Qed.

Lemma up_spec s e : shows s e -> quiet_step s (key_up s) (ed_up e) (up_echo (finsh_get_prompt s) e).
Proof.
  intros H. pose proof H as []. unfold key_up, ed_up, up_echo. rewrite sh_current0. destruct (cur e) as [|i] eqn:Ec.
  - exists (set_history 0 (history_count s) (cmd_history s) s). split; [done|]. split; [|done].
    destruct s, e. cbn in *. subst. by constructor.
  - rewrite (proj2 (Z.ltb_lt 0 _)) by lia. replace (Z.of_nat (S i) - 1) with (Z.of_nat i) by lia.
    destruct (lookup_lt_is_Some_2 (hist e) i) as [t Ht]; [lia|]. rewrite Ht. by apply recall_spec.
Qed.

Lemma hist_short s e : shows s e -> (List.length (hist e) <= 5)%nat.
Proof. intros []. destruct sh_hist0 as (rest & E & Hl). rewrite E, length_app, length_fmap in Hl. lia. Qed.

Lemma down_spec s e : shows s e -> quiet_step s (key_down s) (ed_down e) (down_echo (finsh_get_prompt s) e).
Proof.
  intros H. pose proof H as []. pose proof (hist_short s e H) as Hs. unfold key_down, ed_down, down_echo. rewrite sh_current0, sh_count0.
  destruct (decide (hist e = [])) as [E|E].
  - rewrite bool_decide_true by done. rewrite E. change (zlen (@nil (list Z))) with 0. rewrite (proj2 (Z.ltb_ge _ _)) by lia. by eexists.
  - rewrite bool_decide_false by done. assert (0 < List.length (hist e))%nat as Hpos by (destruct (hist e); [done|cbn; lia]).
    set (i := (S (cur e) `min` (List.length (hist e) - 1))%nat). destruct (lookup_lt_is_Some_2 (hist e) i) as [t Ht]; [lia|]. rewrite Ht.
    pose proof (recall_spec s e i t H Ht) as Hr. rewrite sh_count0 in Hr. unfold zlen in *.
    destruct (Z.ltb_spec (Z.of_nat (cur e)) (Z.of_nat (List.length (hist e)) - 1)).
    + rewrite (wrapu_small 16) by lia. by replace (Z.of_nat (cur e) + 1) with (Z.of_nat i) by lia.
    + rewrite (proj2 (Z.eqb_neq _ 0)) by lia. cbn [negb]. by replace (Z.of_nat (List.length (hist e)) - 1) with (Z.of_nat i) by lia.
Qed.

Lemma last_history s e t : shows s e -> last (hist e) = Some t -> history_at (history_count s - 1) s = Some (pad t).
Proof.
  intros H Hl. pose proof H as []. rewrite sh_count0. rewrite last_lookup in Hl. apply lookup_lt_Some in Hl as Hlt.
  replace (zlen (hist e) - 1) with (Z.of_nat (pred (List.length (hist e)))) by (unfold zlen; lia). by apply (history_at_spec s e).
Qed.

Lemma push_history_spec s e : shows s e -> let h := push_line (contents e) (hist e) in
  exists rest, shell_push_history s = Some (set_history (zlen h) (zlen h) ((pad <$> h) ++ rest) s) /\
    List.length ((pad <$> h) ++ rest) = 5%nat /\ Forall (fun t => fits t /\ t <> []) h.
Proof.
  intros H h. pose proof H as []. pose proof (history_line_spec s e H) as Hline. pose proof (hist_short s e H) as Hs.
  destruct sh_hist0 as (rest & Eh & Hlen). unfold shell_push_history, push_line in *. subst h.
  rewrite sh_pos0. destruct (decide (contents e = [])) as [E|E].
  { rewrite bool_decide_true by done. rewrite E. cbn [orb negb]. change (zlen (@nil Z) =? 0) with true. cbn [negb mbind option_bind].
    exists rest. rewrite sh_count0, <- Eh. by split_and!. }
  rewrite bool_decide_false by done. cbn [orb]. rewrite (proj2 (Z.eqb_neq (zlen (contents e)) 0))
    by (destruct (contents e); [done|rewrite zlen_cons1; pose proof (zlen_nonneg l); lia]). cbn [negb].
  assert (Forall (fun t => fits t /\ t <> []) [contents e]) as Hnew by (repeat constructor; done || apply sh_fits0).
  assert (forall t, last (hist e) = Some t -> (pad t = line s) <-> last (hist e) = Some (contents e)) as Hsame.
  { intros t Ht. rewrite sh_line0, Ht. split; [|by intros [= ->]]. intros Ep. f_equal. apply pad_inj; [|done..].
    rewrite last_lookup in Ht. by apply (Forall_lookup_1 _ _ _ _ sh_hfits0 Ht). }
  replace (FINSH_HISTORY_LINES <=? history_count s) with (5 <=? List.length (hist e))%nat
    by (rewrite sh_count0; unfold FINSH_HISTORY_LINES, zlen; destruct (Nat.leb_spec 5 (List.length (hist e))); symmetry; [apply Z.leb_le|apply Z.leb_gt]; lia).
  destruct (Nat.leb_spec 5 (List.length (hist e))) as [H5|H5].
  - destruct (last (hist e)) as [t|] eqn:El; [|apply last_None in El; rewrite El in H5; cbn in H5; lia].
    pose proof (last_history s e t H El) as Hat. rewrite sh_count0 in Hat. replace (zlen (hist e)) with 5 in * by (unfold zlen; lia).
    unfold FINSH_HISTORY_LINES. rewrite Hat. cbn [mbind option_bind]. specialize (Hsame t eq_refl).
    destruct (decide (Some t = Some (contents e))) as [Ee|Ee].
    + rewrite (bool_decide_true (Some t = _) Ee), bool_decide_false by (intros Hne; apply Hne; by apply Hsame). cbn [mbind option_bind].
      exists rest. rewrite sh_count0, <- Eh. replace (zlen (hist e)) with 5 by (unfold zlen; lia). by split_and!.
    + rewrite (bool_decide_false (Some t = _) Ee), bool_decide_true by (intros Hp; apply Ee; by apply Hsame).
      rewrite Hline. cbn [mbind option_bind]. rewrite Eh, length_app, length_fmap in Hlen. destruct rest; [|cbn in Hlen; lia].
      rewrite app_nil_r in Eh. rewrite Eh. exists []. rewrite app_nil_r, fmap_app, length_app. cbn [fmap list_fmap List.length].
      destruct (hist e) as [|t0 h]; [done|]. cbn [List.length fmap list_fmap tail] in *. assert (List.length h = 4%nat) as H4 by lia.
      rewrite length_fmap, H4. unfold zlen. rewrite length_app, H4. split; [|split; [done|]].
      * rewrite insert_app_r_alt by (rewrite length_fmap, H4; done). by rewrite length_fmap, H4.
      * inversion sh_hfits0; subst. by apply Forall_app.
  - replace (if history_count s =? 0 then Some false else h ← history_at (history_count s - 1) s; Some (bool_decide (h = line s)))
      with (Some (bool_decide (last (hist e) = Some (contents e)))).
    2: { destruct (last (hist e)) as [t|] eqn:El.
         - rewrite (last_history s e t H El). cbn [mbind option_bind]. specialize (Hsame t eq_refl).
           rewrite (proj2 (Z.eqb_neq (history_count s) 0)) by (rewrite sh_count0; destruct (hist e); [done|unfold zlen; cbn; lia]).
           f_equal. by apply bool_decide_ext.
         - apply last_None in El. rewrite sh_count0, El. done. }
    cbn [mbind option_bind]. destruct (bool_decide (last (hist e) = Some (contents e))); cbn [negb].
    + exists rest. cbn [mbind option_bind]. rewrite sh_count0, <- Eh. by split_and!.
    + rewrite Hline. cbn [mbind option_bind]. pose proof Hlen as Hlen'. rewrite Eh, length_app, length_fmap in Hlen'.
      destruct rest as [|r rest]; [cbn in Hlen'; lia|]. cbn [List.length] in Hlen'.
      assert (history_at (history_count s) s = Some r) as ->.
      { unfold history_at. rewrite sh_count0, (proj2 (Z.leb_le 0 _)) by apply zlen_nonneg. rewrite Eh. unfold zlen. rewrite Nat2Z.id.
        rewrite lookup_app_r by (by rewrite length_fmap). by rewrite length_fmap, Nat.sub_diag. }
      cbn [mbind option_bind]. exists rest. rewrite sh_count0, Eh. unfold zlen. rewrite Nat2Z.id, (wrapu_small 16) by lia.
      rewrite fmap_app, !length_app, length_fmap. cbn [fmap list_fmap List.length].
      split; [|split; [lia|by apply Forall_app]]. cbn [mbind option_bind history_count set_history cmd_history].
      rewrite insert_app_r_alt by (by rewrite length_fmap). rewrite length_fmap, Nat.sub_diag. cbn [list_insert insert].
      rewrite <- app_assoc. by rewrite Nat2Z.inj_add.
Qed.


(** ** Completion and execution *)

(** The names of the commands are texts that fit into a line. *)
Definition commands_ok (table : list finsh_syscall) : Prop :=
  Forall (fun s => Forall (fun c => 0 < c < 256) (sname s)) table /\ names_fit table 80.

Lemma commands_table_ok table : commands_ok table -> table_ok table.
Proof.
  intros [H _]. eapply Forall_impl; [exact H|]. intros s Hs. eapply Forall_impl; [exact Hs|]. cbn. lia.
Qed.

Lemma matches_bytes table p : commands_ok table -> Forall (Forall (fun c => 0 < c < 256)) (matches table p).
Proof.
  intros [H _]. induction H as [|s table Hs _ IH]; [constructor|]. cbn [matches]. destruct (is_command s && _); [|done].
  constructor; [by apply Forall_drop|done].
Qed.

Lemma complete_fits table t : commands_ok table -> fits t ->
  t `prefix_of` complete_text table t /\ fits (complete_text table t).
Proof.
  intros Hc Hf. destruct (complete_text_spec table t 80) as (_ & Hp & _ & Hl);
    [by apply commands_table_ok|apply Hc|by apply fits_no_nul|apply Hf|]. split; [done|]. split; [|done].
  unfold complete_text. pose proof (matches_bytes table t Hc) as Hb. destruct (matches table t) as [|q ms]; [apply Hf|].
  inversion Hb; subst. by apply Forall_take.
Qed.

Lemma print_names_total ns : exists es, print_names ns = Some es /\ execs es = [].
Proof.
  induction ns as [|n ns (es & E & He)]; [by exists []|]. cbn [print_names]. rewrite kprintf_name, E. by eexists.
Qed.

Lemma help_total table : table_ok table -> exists cs es, msh_help table = Some cs /\ print_help cs = Some es /\ execs es = [].
Proof.
  induction 1 as [|s table Hs Ht (cs & es & Ec & Ee & Hx)]; [by exists [], [Put [10]]|]. cbn [msh_help].
  rewrite (strncmp_spec cmd_prefix) by (done || by_computation). cbn [mbind option_bind]. rewrite Ec. cbn [mbind option_bind].
  destruct (bool_decide _); [|by exists cs, es]. destruct (kprintf_help (drop 6 (sname s)) (desc s)) as [t Et].
  exists ((drop 6 (sname s), desc s) :: cs), (Put t :: es). split; [done|]. split; [|done]. cbn [print_help]. by rewrite Et, Ee.
Qed.

Lemma tab_spec table s e : commands_ok table -> shows s e ->
  exists es, quiet_step s (key_tab table s) (if bool_decide (contents e = []) then e else with_text (complete_text table (contents e)) [] e) es.
Proof.
  intros Hc H. pose proof H as []. unfold key_tab, quiet_step. rewrite sh_line0.
  pose proof (commands_table_ok table Hc) as Ht. set (t := contents e) in *.
  enough (exists q shown es, msh_auto_complete table (pad t) = Some (pad q, shown) /\ fits q /\
    (match shown with
     | None => cmds ← msh_help table; es ← print_help cmds; Some (Put (text "RT-Thread shell commands:" ++ [10]) :: es)
     | Some names => print_names names
     end) = Some es /\ execs es = [] /\
    shows (set_line (pad q) (zlen q) (zlen q) s) (if bool_decide (t = []) then e else with_text (complete_text table t) [] e))
    as (q & shown & es & -> & Hq & Es & Hes & Hs).
  { cbn [mbind option_bind] in *. rewrite Es. cbn [mbind option_bind]. rewrite cstr_pad by done. cbn [mbind option_bind].
    rewrite kprintf_ss. cbn [mbind option_bind]. pose proof (zlen_small q Hq). rewrite (wrapu_small 8) by lia.
    do 2 eexists. split; [done|]. split; [done|]. rewrite !execs_app, execs_backspaces, Hes. by split. }
  destruct (decide (t = [])) as [E|E].
  - rewrite bool_decide_true by done. destruct (help_total table Ht) as (cs & es & Ec & Ee & Hx).
    exists [], None, (Put (text "RT-Thread shell commands:" ++ [10]) :: es). rewrite E. split; [done|]. split; [by rewrite <- E|].
    split; [by rewrite Ec; cbn [mbind option_bind]; rewrite Ee|]. split; [done|].
    unfold t, contents in E. apply app_eq_nil in E as [Eb Ea]. constructor; cbn; try done; subst t; unfold contents in *; by rewrite ?Eb, ?Ea in *.
  - rewrite bool_decide_false by done. destruct (complete_fits table t Hc sh_fits0) as [Hp Hf].
    destruct (print_names_total (matches table t)) as (es & Es & Hx). pose proof (zlen_small t sh_fits0) as Hz.
    exists (complete_text table t), (Some (matches table t)), es. split.
    { unfold pad. unfold zlen in *. rewrite auto_complete_spec; [|done|by apply fits_no_nul|done|lia|done|destruct Hf as [_ Hf]; unfold zlen in *; lia].
      by replace (List.length t + (80 - List.length t))%nat with 80%nat by lia. }
    split; [done|]. split; [done|]. split; [done|].
    pose proof (shows_line s e (complete_text table t) [] H) as Hs. rewrite app_nil_r in Hs. by apply Hs.
Qed.

Lemma exec_events_total r : exists es, exec_events r = Some es /\ execs es = [r].
Proof.
  destruct r as [| |n]; [by eexists|by eexists|]. cbn [exec_events]. destruct (kprintf_unknown n) as [t ->]. by eexists.
Qed.

Lemma enter_spec table s e : commands_ok table -> shows s e ->
  exists s' es r, key_enter table s = Some (s', es) /\ execs es = [r] /\ line_result table (contents e) r /\
    let h := push_line (contents e) (hist e) in shows s' (mk_ed (emode e) [] [] h (List.length h)).
Proof.
  intros Hc H. pose proof H as []. unfold key_enter. destruct (push_history_spec s e H) as (rest & -> & Hl & Hh).
  set (h := push_line (contents e) (hist e)) in *. cbn [mbind option_bind line line_position echo_mode set_history].
  rewrite sh_line0, sh_pos0, pad_end by done. pose proof (zlen_small _ sh_fits0) as Hz.
  destruct (exec_spec table (contents e) (replicate (79 - List.length (contents e)) 0)) as (r & -> & Hr);
    [by apply commands_table_ok|by apply fits_no_nul|lia|]. cbn [mbind option_bind].
  destruct (exec_events_total r) as (es & -> & Hes). cbn [mbind option_bind].
  change (finsh_get_prompt (set_history ?a ?b ?c s)) with (finsh_get_prompt s). rewrite kprintf_prompt by done. cbn [mbind option_bind].
  eexists _, _, r. split; [done|]. split; [rewrite !execs_app, Hes; by destruct (echo_mode s)|]. split; [done|].
  constructor; cbn; try done. by exists rest.
Qed.

(** ** Keys *)

Definition refines_key (table : list finsh_syscall) (r : option (finsh_shell * list event)) (e : editor) (ls : list (list Z)) : Prop :=
  exists s es, r = Some (s, es) /\ shows s e /\ Forall2 (line_result table) ls (execs es).

Lemma quiet_refines table s r e es : quiet_step s r e es -> refines_key table r e [].
Proof. intros (s' & E & Hs & Hx & _). exists s', es. rewrite Hx. by split_and!. Qed.

Lemma shows_mode s e m : shows s e -> shows (set_stat m s) (with_mode m e).
Proof. intros []. by constructor. Qed.

Lemma shows_refines table s e : shows s e -> refines_key table (Some (s, [])) e [].
Proof. intros H. exists s, []. split; [done|]. by split. Qed.

Lemma plain_spec table ch s e e' ls : commands_ok table -> 0 <= ch < 256 -> shows s e ->
  ed_plain table ch e = Some (e', ls) -> refines_key table (plain_key table ch s) e' ls.
Proof.
  intros Hc Hch H. unfold ed_plain, plain_key. destruct (_ || _) eqn:E0; [intros [= <- <-]; by apply shows_refines|].
  apply orb_false_elim in E0 as [E0 _]. apply Z.eqb_neq in E0.
  destruct (ch =? 9); [intros [= <- <-]; destruct (tab_spec table s e Hc H) as [es Hq]; by eapply quiet_refines|].
  destruct (_ || _); [intros [= <- <-]; eapply quiet_refines; by apply backspace_spec|].
  destruct (_ || _).
  - intros [= <- <-]. destruct (enter_spec table s e Hc H) as (s' & es & r & E & Hx & Hr & Hs).
    exists s', es. rewrite Hx. split; [done|]. split; [done|]. by constructor.
  - destruct (Z.leb_spec 79 (zlen (contents e))); [done|]. intros [= <- <-]. eapply quiet_refines. apply char_spec; [done|lia|done].
Qed.

Lemma key_spec table ch s e e' ls : commands_ok table -> 0 <= ch < 256 -> shows s e ->
  ed_key table ch e = Some (e', ls) -> refines_key table (finsh_key table ch s) e' ls.
Proof.
  intros Hc Hch H. unfold ed_key, finsh_key. rewrite (sh_mode s e H).
  assert (shows (set_stat WAIT_NORMAL s) (with_mode WAIT_NORMAL e)) as Hn by by apply shows_mode.
  destruct (ch =? 0x1b); [intros [= <- <-]; by apply shows_refines, shows_mode|]. destruct (emode e).
  - by apply plain_spec.
  - destruct (ch =? 0x5b); [intros [= <- <-]; by apply shows_refines, shows_mode|by apply plain_spec].
  - cbn zeta. destruct (ch =? 0x41); [intros [= <- <-]; eapply quiet_refines; by apply up_spec|].
    destruct (ch =? 0x42); [intros [= <- <-]; eapply quiet_refines; by apply down_spec|].
    destruct (ch =? 0x44); [intros [= <- <-]; eapply quiet_refines; by apply left_spec|].
    destruct (ch =? 0x43); [intros [= <- <-]; eapply quiet_refines; by apply right_spec|by apply plain_spec].
Qed.

Lemma keys_spec table chs : forall s e e' ls, commands_ok table -> Forall (fun ch => 0 <= ch < 256) chs -> shows s e ->
  ed_keys table chs e = Some (e', ls) -> refines_key table (finsh_keys table chs s) e' ls.
Proof.
  induction chs as [|ch chs IH]; intros s e e' ls Hc Hb H; cbn [ed_keys finsh_keys].
  - intros [= <- <-]. by apply shows_refines.
  - inversion Hb; subst. destruct (ed_key table ch e) as [[e1 l1]|] eqn:E1; [|done]. cbn [mbind option_bind].
    destruct (ed_keys table chs e1) as [[e2 l2]|] eqn:E2; [|done]. cbn [mbind option_bind]. intros [= <- <-].
    destruct (key_spec table ch s e e1 l1) as (s1 & es1 & -> & Hs1 & Hx1); [done..|]. cbn [mbind option_bind].
    destruct (IH s1 e1 e2 l2) as (s2 & es2 & -> & Hs2 & Hx2); [done..|]. cbn [mbind option_bind].
    exists s2, (es1 ++ es2). split; [done|]. split; [done|]. rewrite execs_app. by apply Forall2_app.
Qed.

Definition initial_editor : editor := mk_ed WAIT_NORMAL [] [] [] 0.

Lemma initial_shows : shows initial_shell initial_editor.
Proof.
  constructor; try done; [by exists (replicate 5 (replicate 80 0))|by_computation].
Qed.

(** ** Theorems *)

(** C8. Over any sequence of received bytes the shell implements a line
    editor with history: characters are inserted at the cursor, backspace,
    cursor keys, history keys and tab do what the abstract editor says,
    enter submits the line and remembers it unless it is empty or repeats
    the last one, of which five are kept; no access leaves the line or the
    history, and each submitted line is executed as the command interpreter
    specifies. The editor is undefined only for a line of 80 characters. *)
Theorem shell_refines_editor table chs s e e' ls :
  commands_ok table -> Forall (fun ch => 0 <= ch < 256) chs -> shows s e -> ed_keys table chs e = Some (e', ls) ->
  exists s' es, finsh_keys table chs s = Some (s', es) /\ shows s' e' /\ Forall2 (line_result table) ls (execs es).
Proof. apply keys_spec. Qed.

(** [lisx], cursor left, backspace, cursor right, backspace, [s], tab, [ a], enter, and
    the line again from the history. *)
Definition sample_keys : list Z := [108; 105; 115; 120; 27; 91; 68; 8; 27; 91; 67; 8; 115; 9; 32; 97; 13; 27; 91; 65].

Lemma sample_commands : commands_ok sample_table.
Proof. split; by_computation. Qed.

Lemma shell_refines_editor_witness :
  exists s es argv cmd, finsh_keys sample_table sample_keys initial_shell = Some (s, es) /\
    execs es = [MshCall 3 argv cmd] /\ shows s (mk_ed WAIT_NORMAL [108; 105; 115; 116; 32; 97] [] [[108; 105; 115; 116; 32; 97]] 0).
Proof.
  destruct (shell_refines_editor sample_table sample_keys initial_shell initial_editor
    (mk_ed WAIT_NORMAL [108; 105; 115; 116; 32; 97] [] [[108; 105; 115; 116; 32; 97]] 0) [[108; 105; 115; 116; 32; 97]])
    as (s & es & E & Hs & Hx).
  - apply sample_commands.
  - by_computation.
  - apply initial_shows.
  - by vm_compute.
  - inversion Hx as [|? r ? ? Hr Hnil Heq Hes]; subst. inversion Hnil; subst. vm_compute in Hr.
    destruct Hr as (argv & cmd & -> & _). exists s, es, argv, cmd. exact (conj E (conj (eq_sym Hes) Hs)).
Defined.

(** ** Lines that fill the buffer

    The 80th character sets the position back to 0, but the buffer is not cleared. *)

(** Enter then runs the line that was discarded, if it began with a blank. *)
Example discarded_line_runs :
  match finsh_keys sample_table ([32; 108; 105; 115; 116] ++ mjoin (replicate 37 [32; 97]) ++ [97]) initial_shell with
  | Some (s, _) =>
      line_position s = 0 /\
      match finsh_keys sample_table [13] s with
      | Some (_, [_; Exec (MshCall f argv _); _]) => f = 3 /\ List.length argv = 10%nat
      | _ => False
      end
  | None => False
  end.
Proof. by vm_compute. Qed.

(** The last word of the next line runs into the old text, here to the end of the
    buffer and beyond. *)
Example old_text_joins_word :
  match finsh_keys sample_table (replicate 80 97 ++ [108; 105; 115; 116; 13]) initial_shell with
  | Some (_, es) =>
      match execs es with
      | [MshCall 3 [0] cmd] => take 8 cmd = [108; 105; 115; 116; 97; 97; 97; 97] /\ cstr cmd = None
      | _ => False
      end
  | None => False
  end.
Proof. by vm_compute. Qed.

(** Completion looks for the end of the line behind the buffer. *)
Example tab_after_full_line : finsh_keys sample_table (replicate 80 97 ++ [9]) initial_shell = None.
Proof. by vm_compute. Qed.

(** A prompt is used as a format; with a percent sign it asks for arguments that are
    not there. *)
Example prompt_is_format : finsh_keys sample_table [13] (finsh_set_prompt true (Some (text "%s>")) initial_shell) = None.
Proof. by vm_compute. Qed.

(** The mode is one bit wide: a mode of 2 switches the prompt off. *)
Example prompt_mode_2 : prompt_mode (finsh_set_prompt_mode 2 initial_shell) = false.
Proof. reflexivity. Qed.

End Shell.
