(* ===== verification/Terminal.v ===== *)
(** * What the terminal shows

    The shell keeps no copy of the screen: it moves the cursor with backspaces and
    overwrites what has changed ([components/finsh/shell.c]).  Against a terminal
    that understands printable characters, backspace, carriage return and the
    sequence that erases a line, the row of the cursor always shows the prompt and
    the line being edited, with the cursor at the same place. *)

From Stdlib Require Import String.
From S2P Require Import Prelude KPrintf Msh Shell.

Module Terminal.
Import Msh Shell.

(** ** The terminal *)

(** The row of the cursor, of unlimited width, and the column. *)
Record terminal := mk_term { row : nat -> Z; col : nat }.

Definition printable (c : Z) : Prop := 32 <= c <= 126.
#[export] Instance printable_dec c : Decision (printable c).
Proof. unfold printable. apply _. Defined.

Definition write (c : Z) (t : terminal) : terminal :=
  mk_term (fun i => if decide (i = col t) then c else row t i) (S (col t)).

Definition term_char (c : Z) (t : terminal) : option terminal :=
  if c =? 8 then Some (mk_term (row t) (pred (col t)))
  else if c =? 13 then Some (mk_term (row t) 0)
  else if bool_decide (printable c) then Some (write c t)
  else None.

Fixpoint term_put (s : list Z) (t : terminal) : option terminal :=
  match s with
  | 27 :: 91 :: 50 :: 75 :: s => term_put s (mk_term (fun _ => 32) (col t))
  | c :: s => t ← term_char c t; term_put s t
  | [] => Some t
  end.

Fixpoint term_events (es : list event) (t : terminal) : option terminal :=
  match es with
  | [] => Some t
  | Put s :: es => t ← term_put s t; term_events es t
  | Exec _ :: es => None
  end.

(** ** Showing a line *)

Definition cell (l : list Z) (i : nat) : Z := default 32 (l !! i).

Definition displays (t : terminal) (l : list Z) (c : nat) : Prop := (forall i, row t i = cell l i) /\ col t = c.

Lemma cell_app_l l k i : (i < length l)%nat -> cell (l ++ k) i = cell l i.
Proof. intros H. unfold cell. by rewrite lookup_app_l. Qed.

Lemma cell_app_r l k i : (length l <= i)%nat -> cell (l ++ k) i = cell k (i - length l).
Proof. intros H. unfold cell. by rewrite lookup_app_r. Qed.

Lemma cell_ge l i : (length l <= i)%nat -> cell l i = 32.
Proof. intros H. unfold cell. by rewrite lookup_ge_None_2. Qed.

Lemma displays_blanks t l k c : displays t (l ++ replicate k 32) c -> displays t l c.
Proof.
  intros [Hr Hc]. split; [|done]. intros i. rewrite Hr. destruct (Nat.lt_ge_cases i (length l)).
  - by apply cell_app_l.
  - rewrite cell_app_r, (cell_ge l) by done. unfold cell. destruct (replicate k 32 !! (i - length l)%nat) as [x|] eqn:E; [|done].
    by apply lookup_replicate in E as [-> _].
Qed.

Lemma term_put_cons c s t : c <> 27 -> term_put (c :: s) t = term_char c t ≫= term_put s.
Proof. intros H. cbn [term_put]. repeat (destruct c as [|c|c]; try done). Qed.


Lemma displays_write t x y c : displays t (x ++ y) (length x) -> displays (write c t) ((x ++ [c]) ++ drop 1 y) (length (x ++ [c])).
Proof.
  intros [Hr Hc]. split; [|unfold write; cbn [col]; rewrite Hc, length_app; cbn; lia]. intros i. unfold write. cbn [row]. rewrite Hc.
  case_decide as E; [subst i; rewrite cell_app_l by (rewrite length_app; cbn; lia); rewrite cell_app_r by done; by rewrite Nat.sub_diag|].
  rewrite Hr. destruct (Nat.lt_ge_cases i (length x)).
  - rewrite !cell_app_l; [done|rewrite ?length_app; cbn; lia..].
  - rewrite !cell_app_r by (rewrite ?length_app; cbn; lia). rewrite length_app. cbn [length]. unfold cell. rewrite lookup_drop. do 2 f_equal. lia.
Qed.

Lemma put_text a : forall s t x y, Forall printable a -> displays t (x ++ y) (length x) ->
  exists t', term_put (a ++ s) t = term_put s t' /\ displays t' ((x ++ a) ++ drop (length a) y) (length (x ++ a)).
Proof.
  induction a as [|c a IH]; intros s t x y Ha Hd.
  - exists t. by rewrite app_nil_r, drop_0.
  - inversion Ha as [|? ? Hc Ha']; subst. cbn [app]. rewrite term_put_cons by (unfold printable in Hc; lia). unfold term_char.
    rewrite (proj2 (Z.eqb_neq c 8)), (proj2 (Z.eqb_neq c 13)), bool_decide_true by first [exact Hc|unfold printable in Hc; lia].
    cbn [mbind option_bind]. destruct (IH s (write c t) (x ++ [c]) (drop 1 y) Ha') as (t' & E & Hd'); [by apply displays_write|].
    exists t'. split; [done|]. rewrite drop_drop, <- (app_assoc x [c] a) in Hd'. exact Hd'.
Qed.

Lemma put_back s t l c : displays t l (S c) -> exists t', term_put (8 :: s) t = term_put s t' /\ displays t' l c.
Proof.
  intros [Hr Hc]. exists (mk_term (row t) (pred (col t))). split; [done|]. split; [done|]. cbn. by rewrite Hc.
Qed.

Lemma events_back n : forall t l c, displays t l (n + c) ->
  exists t', term_events (backspaces (Z.of_nat n)) t = Some t' /\ displays t' l c.
Proof.
  unfold backspaces. induction n as [|n IH]; intros t l c Hd; [by exists t|]. rewrite Nat2Z.id. cbn [replicate term_events].
  destruct (put_back [] t l (n + c) Hd) as (t1 & -> & Hd1). cbn [term_put mbind option_bind].
  destruct (IH t1 l c Hd1) as (t2 & E & Hd2). rewrite Nat2Z.id in E. by exists t2.
Qed.

Lemma put_erase s t : exists t', term_put ([27] ++ text "[2K" ++ [13] ++ s) t = term_put s t' /\ displays t' [] 0.
Proof. by exists (mk_term (fun _ => 32) 0). Qed.

(** The events of a key take the terminal from one line to the other. *)
Definition redraws (es : list event) (l : list Z) (c : nat) (l' : list Z) (c' : nat) : Prop :=
  forall t, displays t l c -> exists t', term_events es t = Some t' /\ displays t' l' c'.

Lemma clamp_short l : zlen l <= 126 -> clamp l = l.
Proof. intros H. unfold clamp. by rewrite (proj2 (Z.leb_le (zlen l) 126) H). Qed.

Lemma length_snoc (p b : list Z) c : length (p ++ b ++ [c]) = S (length (p ++ b)).
Proof. rewrite !length_app. cbn. lia. Qed.

Section screen.
Context (p : list Z) (Hp : Forall printable p) (Hlen : zlen p <= 40).

Definition line_of (e : editor) : list Z := p ++ contents e.
Definition col_of (e : editor) : nat := length (p ++ before e).

Record screen_ok (e : editor) : Prop := {
  so_fits : zlen (contents e) < 80;
  so_text : Forall printable (contents e);
  so_hist : Forall (fun t => zlen t < 80 /\ Forall printable t) (hist e);
}.

Definition shown (es : list event) (e e' : editor) : Prop := redraws es (line_of e) (col_of e) (line_of e') (col_of e').

Lemma shown_none e : shown [] e e.
Proof. intros t Ht. by exists t. Qed.

Lemma left_shown e : shown (left_echo e) e (ed_left e).
Proof.
  unfold left_echo, ed_left. destruct (last (before e)) as [c|] eqn:El; [|apply shown_none].
  apply last_Some in El as [b Eb]. intros t Ht. unfold line_of, col_of, contents in *. rewrite Eb in *. cbn [before after with_text].
  rewrite removelast_last. rewrite <- (app_assoc b) in Ht. cbn [app] in Ht. rewrite length_snoc in Ht.
  destruct (put_back [] t _ _ Ht) as (t' & E & Hd). exists t'. cbn [term_events]. by rewrite E.
Qed.

Lemma u8_printable c : printable c -> u8 c = c.
Proof. unfold printable. intros H. apply wrapu_small. lia. Qed.

Lemma printable_u8 c : printable c -> Forall printable [u8 c].
Proof. intros H. constructor; [by rewrite u8_printable|constructor]. Qed.

Lemma right_shown e : screen_ok e -> shown (right_echo e) e (ed_right e).
Proof.
  intros [_ Ht _]. unfold right_echo, ed_right. destruct (after e) as [|c a] eqn:Ea; [apply shown_none|]. intros t Hd.
  unfold line_of, col_of, contents in *. rewrite Ea in *. cbn [before after with_text]. rewrite app_assoc in Hd.
  apply Forall_app in Ht as [_ Ht]. inversion Ht as [|? ? Hc _]; subst.
  destruct (put_text [u8 c] [] t _ _ (printable_u8 _ ltac:(done)) Hd) as (t' & E & Hd'). rewrite u8_printable in * by done.
  exists t'. cbn [term_events]. rewrite app_nil_r in E. rewrite E. split; [done|]. cbn [length drop] in Hd'.
  by rewrite <- !app_assoc in *.
Qed.

Lemma char_shown e ch : screen_ok e -> printable ch -> shown (char_echo true ch e) e (with_text (before e ++ [ch]) (after e) e).
Proof.
  intros [Hf Ht _] Hch. unfold char_echo, shown, redraws, line_of, col_of, contents in *. cbn [before after with_text].
  rewrite zlen_app in Hf. apply Forall_app in Ht as [_ Ht]. pose proof (zlen_nonneg (before e)).
  intros t Hd. rewrite app_assoc in Hd. destruct (after e) as [|x a'] eqn:Ea.
  - destruct (put_text [u8 ch] [] t _ _ (printable_u8 _ ltac:(done)) Hd) as (t' & E & Hd'). rewrite u8_printable in * by done.
    exists t'. cbn [term_events]. rewrite app_nil_r in E. rewrite E. split; [done|]. by rewrite <- !app_assoc in *.
  - rewrite <- Ea in *. rewrite clamp_short by (rewrite zlen_cons1; lia). cbn [app].
    destruct (put_text (ch :: after e) [] t _ _ ltac:(by constructor) Hd) as (t1 & E1 & Hd1). rewrite app_nil_r in E1.
    cbn [term_events]. rewrite E1. cbn [term_put mbind option_bind length] in *. rewrite drop_ge, app_nil_r in Hd1 by (cbn; lia).
    destruct (events_back (length (after e)) t1 _ (length (p ++ before e ++ [ch]))
      ltac:(replace (length (after e) + length (p ++ before e ++ [ch]))%nat with (length ((p ++ before e) ++ ch :: after e))
        by (rewrite !length_app; cbn [length]; lia); exact Hd1)) as (t2 & E2 & Hd2).
    exists t2. split; [exact E2|]. by rewrite <- !app_assoc in *.
Qed.

Lemma backspace_shown e : screen_ok e -> shown (backspace_echo e) e (with_text (removelast (before e)) (after e) e).
Proof.
  intros [Hf Ht _]. unfold backspace_echo. destruct (last (before e)) as [c|] eqn:El.
  2: { apply last_None in El. destruct e. cbn in *. subst. apply shown_none. }
  apply last_Some in El as [b Eb]. unfold shown, redraws, line_of, col_of, contents in *. cbn [before after with_text]. rewrite Eb in *.
  rewrite removelast_last, !zlen_app in *. apply Forall_app in Ht as [_ Ht]. pose proof (zlen_nonneg b). change (zlen [c]) with 1 in Hf.
  intros t Hd. rewrite <- (app_assoc b), length_snoc, (app_assoc p b) in Hd. cbn [app] in Hd.
  destruct (after e) as [|x a'] eqn:Ea.
  - destruct (put_back [32; 8] t _ _ Hd) as (t1 & E1 & Hd1).
    destruct (put_text [32] [8] t1 _ _ ltac:(by_computation) Hd1) as (t2 & E2 & Hd2). cbn [length drop app] in *.
    rewrite app_nil_r, length_app, Nat.add_1_r in Hd2. destruct (put_back [] t2 _ _ Hd2) as (t3 & E3 & Hd3). exists t3.
    cbn [term_events]. rewrite E1, E2, E3. split; [done|]. rewrite app_nil_r. by apply (displays_blanks _ _ 1).
  - rewrite <- Ea in *. rewrite clamp_short by (rewrite zlen_cons1, zlen_app; change (zlen [32; 32; 8]) with 3; lia).
    destruct (put_back (after e ++ [32; 32; 8]) t _ _ Hd) as (t1 & E1 & Hd1).
    replace (after e ++ [32; 32; 8]) with ((after e ++ [32; 32]) ++ [8]) in * by by rewrite <- app_assoc.
    destruct (put_text (after e ++ [32; 32]) [8] t1 _ _ ltac:(apply Forall_app; split; [done|by_computation]) Hd1) as (t2 & E2 & Hd2).
    rewrite drop_ge, app_nil_r in Hd2 by (rewrite length_app; cbn; lia).
    replace (length ((p ++ b) ++ after e ++ [32; 32])) with (S (S (length (after e)) + length (p ++ b)))%nat in Hd2
      by (rewrite !length_app; cbn; lia).
    destruct (put_back [] t2 _ _ Hd2) as (t3 & E3 & Hd3). destruct (events_back _ t3 _ _ Hd3) as (t4 & E4 & Hd4).
    exists t4. cbn [term_events]. rewrite E1, E2, E3. cbn [term_put mbind option_bind].
    replace (zlen (after e) + 1) with (Z.of_nat (S (length (after e)))) by (unfold zlen; lia). split; [exact E4|].
    rewrite app_assoc. apply (displays_blanks _ _ 2). by rewrite <- app_assoc.
Qed.

Lemma recall_shown e i x : screen_ok e -> hist e !! i = Some x -> shown (recall_echo p x) e (ed_recall i e).
Proof.
  intros [_ _ Hh] Hx t Hd. pose proof (Forall_lookup_1 _ _ _ _ Hh Hx) as [Hl Ht]. unfold recall_echo, ed_recall. rewrite Hx.
  rewrite clamp_short by (rewrite zlen_app; lia). cbn [term_events]. destruct (put_erase [] t) as (t1 & E1 & Hd1).
  rewrite app_nil_r in E1. rewrite E1. cbn [term_put mbind option_bind].
  destruct (put_text (p ++ x) [] t1 [] [] ltac:(by apply Forall_app) Hd1) as (t2 & E2 & Hd2). rewrite app_nil_r in E2. rewrite E2.
  exists t2. split; [done|]. unfold line_of, col_of, contents. cbn [before after]. rewrite drop_nil, !app_nil_r in *. done.
Qed.

End screen.

(** ** Sequences of keys *)

(** Everything but tab, enter and the control characters without a meaning. *)
Definition editing (ch : Z) : Prop := printable ch \/ ch ∈ [0; 8; 27; 127; 255].

#[export] Instance editing_dec ch : Decision (editing ch).
Proof. unfold editing. apply _. Defined.

Lemma recall_ok e i : screen_ok e -> screen_ok (ed_recall i e).
Proof.
  intros []. unfold ed_recall. destruct (hist e !! i) as [x|] eqn:E; [|done]. apply (Forall_lookup_1 _ _ _ _ so_hist0) in E as [H1 H2].
  constructor; unfold contents; cbn; by rewrite ?app_nil_r.
Qed.

Lemma text_ok e b a : screen_ok e -> zlen (b ++ a) < 80 -> Forall printable (b ++ a) -> screen_ok (with_text b a e).
Proof. intros [] Hl Ht. by constructor. Qed.

(** One key, between a state of the shell and the next. *)
Definition follows (s : finsh_shell) (r : option (finsh_shell * list event)) (e e' : editor) : Prop :=
  exists s' es, r = Some (s', es) /\ shows s' e' /\ screen_ok e' /\ shown (finsh_get_prompt s) es e e' /\
    echo_mode s' = echo_mode s /\ finsh_get_prompt s' = finsh_get_prompt s.

Lemma quiet_follows s r e e' es : quiet_step s r e' es -> screen_ok e' -> shown (finsh_get_prompt s) es e e' -> follows s r e e'.
Proof. intros (s' & E & Hs & _ & H1 & H2) Ho Hd. exists s', es. by split_and!. Qed.

Lemma still_follows s e : shows s e -> screen_ok e -> follows s (Some (s, [])) e e.
Proof. intros Hs Ho. exists s, []. split_and!; try done. apply shown_none. Qed.

Section keys.
Context (table : list finsh_syscall) (s : finsh_shell) (e : editor).
Context (Hs : shows s e) (Ho : screen_ok e) (Hecho : echo_mode s = true).
Context (Hp : Forall printable (finsh_get_prompt s)) (Hlen : zlen (finsh_get_prompt s) <= 40).

Lemma plain_follows ch e' ls : editing ch -> ch <> 27 -> ed_plain table ch e = Some (e', ls) -> follows s (plain_key table ch s) e e'.
Proof.
  intros Hch Hesc. assert (printable ch \/ ch = 0 \/ ch = 8 \/ ch = 127 \/ ch = 255) as Hch' by (unfold editing in Hch; set_solver).
  clear Hch. unfold ed_plain, plain_key, printable in *. pose proof Ho as [Hf Ht Hh]. pose proof (sh_fits s e Hs) as Hfits.
  destruct (_ || _) eqn:E0; [intros [= <- <-]; by apply still_follows|]. apply orb_false_elim in E0 as [E0 E1].
  apply Z.eqb_neq in E0, E1. rewrite (proj2 (Z.eqb_neq ch 9)) by lia. destruct (_ || _) eqn:E2.
  - intros [= <- <-]. eapply quiet_follows; [by apply backspace_spec| |by apply backspace_shown].
    destruct (last (before e)) as [c|] eqn:El; [|apply last_None in El; destruct e; cbn in *; by subst].
    apply last_Some in El as [b Eb]. unfold contents in *. rewrite Eb in *. rewrite removelast_last. rewrite <- app_assoc in *.
    apply Forall_app in Ht as [Ht1 Ht2]. inversion Ht2; subst. apply text_ok; [done| |by apply Forall_app].
    rewrite !zlen_app in *. change (zlen [c]) with 1 in Hf. lia.
  - apply orb_false_elim in E2 as [E2 E3]. apply Z.eqb_neq in E2, E3.
    rewrite (proj2 (Z.eqb_neq ch 13)), (proj2 (Z.eqb_neq ch 10)) by lia. cbn [orb].
    destruct (Z.leb_spec 79 (zlen (contents e))); [done|]. intros [= <- <-].
    eapply quiet_follows; [apply char_spec; [done|lia|done]| |rewrite Hecho; apply char_shown; [done..|unfold printable; lia]].
    unfold contents in *. apply Forall_app in Ht as [Ht1 Ht2]. apply text_ok; [done|..]; rewrite <- app_assoc.
    + rewrite !zlen_app in *. change (zlen [ch]) with 1. lia.
    + apply Forall_app. split; [done|]. constructor; [unfold printable; lia|done].
Qed.

Lemma func_follows ch e' ls : editing ch -> ch <> 27 ->
  (if ch =? 0x41 then Some (ed_up e, []) else if ch =? 0x42 then Some (ed_down e, [])
   else if ch =? 0x44 then Some (ed_left e, []) else if ch =? 0x43 then Some (ed_right e, []) else ed_plain table ch e) = Some (e', ls) ->
  follows s (if ch =? 0x41 then key_up s else if ch =? 0x42 then key_down s else if ch =? 0x44 then key_left s
             else if ch =? 0x43 then key_right s else plain_key table ch s) e e'.
Proof.
  intros Hch Hesc. pose proof Ho as [Hf Ht Hh]. pose proof (sh_bound s e Hs) as Hb.
  destruct (ch =? 0x41).
  { intros [= <- <-]. eapply quiet_follows; [by apply up_spec|unfold ed_up; destruct (cur e); [done|by apply recall_ok]|].
    unfold up_echo, ed_up. destruct (cur e) as [|i] eqn:Ec; [apply shown_none|].
    destruct (lookup_lt_is_Some_2 (hist e) i) as [x Hx]; [lia|]. rewrite Hx. by apply recall_shown. }
  destruct (ch =? 0x42).
  { intros [= <- <-]. eapply quiet_follows; [by apply down_spec|unfold ed_down; case_bool_decide; [done|by apply recall_ok]|].
    unfold down_echo, ed_down. case_bool_decide as En; [apply shown_none|].
    assert (0 < length (hist e))%nat by (destruct (hist e); [done|cbn; lia]).
    destruct (lookup_lt_is_Some_2 (hist e) (S (cur e) `min` (length (hist e) - 1))%nat) as [x Hx]; [lia|]. rewrite Hx. by apply recall_shown. }
  destruct (ch =? 0x44).
  { intros [= <- <-]. eapply quiet_follows; [by apply left_spec| |by apply left_shown]. unfold ed_left.
    destruct (last (before e)) as [c|] eqn:El; [|done]. apply last_Some in El as [b Eb]. unfold contents in *. rewrite Eb, removelast_last in *.
    rewrite <- app_assoc in *. by apply text_ok. }
  destruct (ch =? 0x43); [|by apply plain_follows].
  intros [= <- <-]. eapply quiet_follows; [by apply right_spec| |by apply right_shown]. unfold ed_right.
  destruct (after e) as [|c a] eqn:Ea; [done|]. unfold contents in *. rewrite Ea in *.
  replace (before e ++ c :: a) with ((before e ++ [c]) ++ a) in * by by rewrite <- app_assoc. by apply text_ok.
Qed.

End keys.

Lemma mode_follows s e m r e' : follows (set_stat m s) r (with_mode m e) e' -> follows s r e e'.
Proof. intros H. exact H. Qed.

Lemma key_follows table ch s e e' ls :
  shows s e -> screen_ok e -> echo_mode s = true -> Forall printable (finsh_get_prompt s) -> zlen (finsh_get_prompt s) <= 40 ->
  editing ch -> ed_key table ch e = Some (e', ls) -> follows s (finsh_key table ch s) e e'.
Proof.
  intros Hs Ho He Hp Hl Hch. unfold ed_key, finsh_key. rewrite (sh_mode s e Hs).
  assert (forall m, screen_ok (with_mode m e)) as Hom by (intros m; destruct Ho; by constructor).
  destruct (Z.eqb_spec ch 0x1b) as [->|Hne]; [intros [= <- <-]; by apply (mode_follows s e WAIT_SPEC_KEY), still_follows; [apply shows_mode|]|].
  destruct (emode e).
  - by apply plain_follows.
  - destruct (ch =? 0x5b); [intros [= <- <-]; by apply (mode_follows s e WAIT_FUNC_KEY), still_follows; [apply shows_mode|]|].
    intros E. apply (mode_follows s e WAIT_NORMAL). eapply plain_follows; [by apply shows_mode|done..].
  - cbn zeta. intros E. apply (mode_follows s e WAIT_NORMAL). eapply func_follows; [by apply shows_mode|done..].
Qed.

Lemma term_events_app a b t : term_events (a ++ b) t = term_events a t ≫= term_events b.
Proof.
  revert t. induction a as [|[x|r] a IH]; intros t; [done| |done]. cbn [app term_events]. destruct (term_put x t); [|done].
  cbn [mbind option_bind]. apply IH.
Qed.

(** ** Theorems *)

(** C34. While a line is edited with printable characters, backspace, cursor
    and history keys, what the shell prints keeps the row of a terminal
    equal to the prompt followed by the line in the buffer, blank behind it,
    with the cursor of the terminal at the cursor of the line. *)
Theorem terminal_shows_line table chs : forall s e e' ls t,
  shows s e -> screen_ok e -> echo_mode s = true -> Forall printable (finsh_get_prompt s) -> zlen (finsh_get_prompt s) <= 40 ->
  Forall editing chs -> ed_keys table chs e = Some (e', ls) ->
  displays t (line_of (finsh_get_prompt s) e) (col_of (finsh_get_prompt s) e) ->
  exists s' es t', finsh_keys table chs s = Some (s', es) /\ shows s' e' /\ term_events es t = Some t' /\
    displays t' (line_of (finsh_get_prompt s) e') (col_of (finsh_get_prompt s) e').
Proof.
  induction chs as [|ch chs IH]; intros s e e' ls t Hs Ho He Hp Hl Hch; cbn [ed_keys finsh_keys].
  - intros [= <- <-] Hd. by exists s, [], t.
  - inversion Hch as [|? ? Hc Hcs]; subst. destruct (ed_key table ch e) as [[e1 l1]|] eqn:E1; [|done]. cbn [mbind option_bind].
    destruct (ed_keys table chs e1) as [[e2 l2]|] eqn:E2; [|done]. cbn [mbind option_bind]. intros [= <- <-] Hd.
    destruct (key_follows table ch s e e1 l1) as (s1 & es1 & -> & Hs1 & Ho1 & Hd1 & He1 & Hp1); [done..|]. cbn [mbind option_bind].
    destruct (Hd1 t Hd) as (t1 & Et1 & Hdt). rewrite <- Hp1 in Hp, Hl, Hdt |- *.
    destruct (IH s1 e1 e2 l2 t1 Hs1 Ho1) as (s2 & es2 & t2 & -> & Hs2 & Et2 & Hd2); [congruence|done..|]. cbn [mbind option_bind].
    exists s2, (es1 ++ es2), t2. rewrite term_events_app, Et1. by split_and!.
Qed.

(** [abc], cursor left twice, [x], backspace, backspace. *)
Definition sample_edit : list Z := [97; 98; 99; 27; 91; 68; 27; 91; 68; 120; 8; 8].

Lemma terminal_shows_line_witness :
  exists s es t, finsh_keys sample_table sample_edit initial_shell = Some (s, es) /\
    term_events es (mk_term (cell (text "msh >")) 5) = Some t /\ displays t (text "msh >" ++ [98; 99]) 5.
Proof.
  destruct (terminal_shows_line sample_table sample_edit initial_shell initial_editor (mk_ed WAIT_NORMAL [] [98; 99] [] 0) []
    (mk_term (cell (text "msh >")) 5)) as (s & es & t & E & _ & Et & Hd).
  - apply initial_shows.
  - by constructor.
  - reflexivity.
  - by_computation.
  - by vm_compute.
  - by_computation.
  - by vm_compute.
  - by split.
  - exists s, es, t. exact (conj E (conj Et Hd)).
Defined.

End Terminal.
