(* ===== verification/ShellInput.v ===== *)
(** * The input of the shell

    [finsh_getchar] and [finsh_rx_ind] of [components/finsh/shell.c], on the serial
    device, the semaphore [rx_sem] and the scheduler: the shell thread reads a
    character from the device, and waits for the semaphore when there is none; the
    interrupt handler stores characters and releases the semaphore.  An interrupt
    can come at any point, also between the read that finds nothing and the wait. *)

From S2P Require Import Prelude Timer Sched SchedInv ThreadOps Ipc Sem Devices Serial.

Module ShellInput.
Import Timer Sched SchedInv ThreadOps Ipc Sem Devices Serial.

Definition RT_WAITING_FOREVER : Z := -1.

(** Where the shell thread is in the loop of [finsh_getchar]: about to read, about to
    take the semaphore, or suspended on it. *)
Inductive phase := PRead | PTake | PBlocked (t : Z).

Section input.
Context {W : Type} `{!UartOps W}.
Context (o : Z).   (* the semaphore [rx_sem] *)
Notation device := (rt_device (rt_serial_device (W := W))).

Record input := mk_input { dev : device; rx_sem : rt_semaphore; ker : kernel; at_ : phase }.

(** ** Steps *)

(** The condition of the loop: the character read, or on to the semaphore. *)
Definition getchar_read (i : input) : option (input * option Z) :=
  '(n, l, _, d) ← rt_device_read (-1) 1 (dev i);
  if n =? 1 then c ← head l; Some (mk_input d (rx_sem i) (ker i) PRead, Some c)
  else Some (mk_input d (rx_sem i) (ker i) PTake, None).

(** The body of the loop; its result is ignored. *)
Definition getchar_take (i : input) : option input :=
  '(s, k, r) ← rt_sem_take o RT_WAITING_FOREVER (rx_sem i) (ker i);
  Some (mk_input (dev i) s k (match r with Done _ => PRead | Blocked t => PBlocked t end)).

Definition finsh_rx_ind (s : rt_semaphore) (k : kernel) : option (rt_semaphore * kernel) :=
  '(s, k, _) ← rt_sem_release o s k; Some (s, k).

(** A receive interrupt, with the hardware in state [w].  A suspended shell thread
    that is woken goes on with the loop. *)
Definition rx_interrupt (fuel : nat) (w : W) (i : input) : option input :=
  '(d, ind) ← rt_hw_serial_isr fuel RT_SERIAL_EVENT_RX_IND (set_user (set_hw w (user (dev i))) (dev i));
  match ind with
  | None => Some (mk_input d (rx_sem i) (ker i) (at_ i))
  | Some _ =>
      '(s, k) ← finsh_rx_ind (rx_sem i) (ker i);
      Some (mk_input d s k (match at_ i with PBlocked _ => PRead | p => p end))
  end.

(** ** Histories

    [input_trace got came i]: the characters read and received so far.  Interrupts
    come before the semaphore has counted 65535 of them and before the FIFO is full;
    other threads do not use the semaphore. *)
Inductive input_trace : list Z -> list Z -> input -> Prop :=
  | it_start i :
      kernel_inv (ker i) -> sem_inv o (rx_sem i) (ker i) -> lists (ker i) !! LSuspend o = Some [] ->
      int_mode (dev i) -> waiting (dev i) [] -> rx_indicate (dev i) <> 0 -> at_ i = PRead -> input_trace [] [] i
  | it_read got came i i' r :
      input_trace got came i -> at_ i = PRead -> getchar_read i = Some (i', r) ->
      input_trace (got ++ option_list r) came i'
  | it_take got came i cth t i' :
      input_trace got came i -> at_ i = PTake -> caller (ker i) t cth -> getchar_take i = Some i' ->
      input_trace got came i'
  | it_interrupt got came i cs w w' fuel i' :
      input_trace got came i -> gets w cs w' -> (length cs < fuel)%nat -> Forall (fun c => 0 <= c < 256) cs ->
      is_Some (rt_current_thread (ker i)) -> value (rx_sem i) < 0xffff ->
      zlen came + zlen cs - zlen got <= size_of (dev i) - 1 ->
      rx_interrupt fuel w i = Some i' -> input_trace got (came ++ cs) i'
  | it_kernel got came i k :
      input_trace got came i -> kernel_inv k -> same_view o (ker i) k ->
      input_trace got came (mk_input (dev i) (rx_sem i) k (at_ i)).

(** ** Invariant *)

Record input_ok (q : list Z) (i : input) : Prop := {
  io_kernel : kernel_inv (ker i);
  io_sem : sem_inv o (rx_sem i) (ker i);
  io_mode : int_mode (dev i);
  io_ind : rx_indicate (dev i) <> 0;
  io_queue : waiting (dev i) q;
  io_phase : match at_ i with
             | PRead => lists (ker i) !! LSuspend o = Some []
             | PTake => lists (ker i) !! LSuspend o = Some [] /\ (q = [] \/ 0 < value (rx_sem i))
             | PBlocked t => lists (ker i) !! LSuspend o = Some [t] /\ q = []
             end;
}.

Lemma read_step q i : input_ok q i -> at_ i = PRead ->
  exists i', getchar_read i = Some (i', head q) /\ input_ok (tail q) i' /\
    at_ i' = match q with [] => PTake | _ => PRead end.
Proof.
  intros [Hk Hs Hm Hi Hq Hp] Ea. rewrite Ea in Hp. unfold getchar_read.
  destruct (int_read_spec (dev i) q (-1) 1 Hm Hq ltac:(lia)) as (d & -> & Hm' & Hq' & _ & _ & Hi'). cbn [mbind option_bind].
  change (Z.to_nat 1) with 1%nat in *. destruct q as [|c q]; cbn [take tail head] in *.
  - eexists. split; [done|]. split; [|done]. constructor; cbn; try done; try congruence. split; [done|by left].
  - eexists. split; [done|]. split; [|done]. constructor; cbn; try done; congruence.
Qed.

Lemma take_step q i t cth : input_ok q i -> at_ i = PTake -> caller (ker i) t cth ->
  exists i', getchar_take i = Some i' /\ input_ok q i' /\
    (at_ i' = PRead \/ at_ i' = PBlocked t /\ q = []).
Proof.
  intros [Hk Hs Hm Hi Hq Hp] Ea Hca. rewrite Ea in Hp. destruct Hp as [Hl Hv]. unfold getchar_take.
  destruct (sem_take_spec o (rx_sem i) (ker i) t cth RT_WAITING_FOREVER Hk Hs Hca) as (s' & k' & r & -> & Hk' & Hs' & Hc); [by vm_compute|].
  cbn [mbind option_bind]. eexists. split; [done|]. destruct Hc as [(_ & -> & -> & ->)|[(_ & Hz & _)|(Hz & _ & -> & -> & ys & zs & El & El' & _)]].
  - split; [by constructor|by left].
  - done.
  - destruct Hv as [->|Hv]; [|lia]. rewrite Hl in El. injection El as El. symmetry in El. apply app_eq_nil in El as [-> ->].
    split; [by constructor|right; done].
Qed.

Lemma keep_all n (l : list Z) : zlen l <= n -> keep_last n l = l.
Proof. intros H. unfold keep_last. by replace (Z.to_nat (zlen l - n)) with 0%nat by lia. Qed.

Lemma u8_bytes cs : Forall (fun c => 0 <= c < 256) cs -> u8 <$> cs = cs.
Proof. induction 1 as [|c cs Hc _ IH]; [done|]. cbn. rewrite IH. f_equal. by apply wrapu_small. Qed.

Lemma interrupt_step q i cs w w' fuel : input_ok q i -> gets w cs w' -> (length cs < fuel)%nat ->
  Forall (fun c => 0 <= c < 256) cs -> is_Some (rt_current_thread (ker i)) -> value (rx_sem i) < 0xffff ->
  zlen q + zlen cs <= size_of (dev i) - 1 ->
  exists i', rx_interrupt fuel w i = Some i' /\ input_ok (q ++ cs) i' /\ size_of (dev i') = size_of (dev i) /\
    match at_ i with
    | PBlocked t => if decide (cs = []) then at_ i' = PBlocked t
                    else at_ i' = PRead /\ exists th st, threads (ker i') !! t = Some (set_stat st th) /\
                           (st = RT_THREAD_READY \/ st = RT_THREAD_RUNNING)
    | p => at_ i' = p
    end.
Proof.
  intros [Hk Hs Hm Hi Hq Hp] Hg Hf Hb Hcur Hval Hroom. unfold rx_interrupt.
  set (d0 := set_user (set_hw w (user (dev i))) (dev i)).
  assert (int_mode d0 /\ waiting d0 q /\ size_of d0 = size_of (dev i) /\ rx_indicate d0 = rx_indicate (dev i)) as (Hm0 & Hq0 & Hz0 & Hi0).
  { destruct Hq as (f & Ef & Hc). split; [exact Hm|]. split; [by exists f|]. by split. }
  destruct (isr_spec cs w' d0 q fuel Hm0 Hq0 Hg Hf) as (d & -> & Hm1 & Hq1 & _ & Hz1 & Hi1). cbn [mbind option_bind].
  rewrite u8_bytes, keep_all in * by (done || rewrite zlen_app; lia). rewrite (proj2 (Z.eqb_neq (rx_indicate d0) 0)) by congruence. cbn [negb andb].
  destruct (Z.eqb_spec (zlen (q ++ cs)) 0) as [Hz|Hz]; cbn [negb].
  { eexists. split; [done|]. rewrite zlen_app in Hz. pose proof (zlen_nonneg q). pose proof (zlen_nonneg cs).
    destruct q; [|unfold zlen in *; cbn in *; lia]. destruct cs as [|c cs]; [|unfold zlen in *; cbn in *; lia].
    split; [constructor; cbn; try done; congruence|]. split; [cbn; congruence|]. by destruct (at_ i). }
  unfold finsh_rx_ind. destruct (sem_release_spec o (rx_sem i) (ker i) Hk Hs Hcur) as (s' & k' & -> & Hk' & Hs' & Hc).
  cbn [mbind option_bind]. eexists. split; [done|]. pose proof (si_value _ _ _ Hs) as Hv.
  assert (size_of d = size_of (dev i)) as Hsz by congruence. assert (rx_indicate d <> 0) as Hid by congruence.
  destruct (at_ i) as [| |t].
  - destruct Hc as [(_ & -> & ->)|(t & xs & _ & _ & El & _)]; [|congruence]. split; [by constructor|done].
  - destruct Hp as [Hl _]. destruct Hc as [(_ & -> & ->)|(t & xs & _ & _ & El & _)]; [|congruence].
    split; [constructor; cbn; try done; split; [done|right; rewrite wrapu_small; lia]|done].
  - destruct Hp as [Hl ->]. destruct Hc as [(El & _)|(t' & xs & th & st & El & _ & -> & El' & _ & Ht & Hst & _)]; [congruence|].
    rewrite Hl in El. injection El as <- <-. split; [by constructor|]. split; [done|]. cbn [app at_ ker].
    destruct (decide (cs = [])) as [->|]; [done|]. split; [done|]. by exists th, st.
Qed.

Lemma view_step q i k : input_ok q i -> kernel_inv k -> same_view o (ker i) k -> input_ok q (mk_input (dev i) (rx_sem i) k (at_ i)).
Proof.
  intros [Hk Hs Hm Hi Hq Hp] Hk' Hv. constructor; cbn; try done.
  - by eapply (ipc_inv_view (IpcObject := sem_object)).
  - destruct Hv as [Hv _]. by rewrite Hv by by left.
Qed.

Lemma trace_ok got came i : input_trace got came i -> exists q, input_ok q i /\ came = got ++ q.
Proof.
  induction 1 as [i Hk Hs Hl Hm Hq Hi Ha|got came i i' r _ (q & Hok & ->) Ha E|got came i cth t i' _ (q & Hok & ->) Ha Hca E
    |got came i cs w w' fuel i' _ (q & Hok & ->) Hg Hf Hb Hcur Hv Hroom E|got came i k _ (q & Hok & ->) Hk Hv].
  - exists []. split; [constructor; try done; by rewrite Ha|done].
  - destruct (read_step q i Hok Ha) as (i2 & E2 & Hok2 & _). rewrite E2 in E. injection E as <- <-. exists (tail q).
    split; [done|]. destruct q; cbn; [by rewrite !app_nil_r|by rewrite <- app_assoc].
  - destruct (take_step q i t cth Hok Ha Hca) as (i2 & E2 & Hok2 & _). rewrite E2 in E. injection E as <-. by exists q.
  - destruct (interrupt_step q i cs w w' fuel Hok Hg Hf Hb Hcur Hv) as (i2 & E2 & Hok2 & _); [rewrite zlen_app in Hroom; lia|].
    rewrite E2 in E. injection E as <-. exists (q ++ cs). by rewrite app_assoc.
  - exists q. split; [by apply view_step|done].
Qed.

End input.

(** ** Theorems *)


(** The shell on the sample UART and the sample kernel. *)
Definition sample_input : input (W := uart) := mk_input (opened_uart) sample_sem sample_ipc PRead.


End ShellInput.
